(* ===== verification/_CoqProject ===== *)
-Q . S2P
Prelude.v
GoStrings.v
Http.v
Response.v
Pattern.v
Errors.v
RequestContext.v
Hooks.v
App.v
Middleware.v
Routing.v
Dispatch.v
OpenApiUI.v
Float64.v
RateLimit.v
Throttle.v
ThrottleLaws.v
Sha256.v
HmacCanonical.v
NonceStore.v
NonceStoreLaws.v
HmacAuth.v
HmacAuthLaws.v
HmacSigner.v
IdempotencyWriter.v
IdempotencyStore.v
Idempotency.v
IdempotencyMachine.v
IdempotencyLaws.v
Base64.v
Cookie.v
Session.v
SessionStore.v
SessionLaws.v
SecureCookie.v
Csrf.v
Cors.v
Reflect.v
Validator.v
ValidatorLaws.v
Binder.v
Bind.v
BindLaws.v
Sse.v
AuthPlugins.v
Etag.v
JsNumber.v
JsValue.v
StyledComponents.v
StyledLaws.v
JsRegExp.v
RedocColor.v
RedocTheme.v
RedocThemeLaws.v
CssBalance.v
RedocPanels.v
RedocTables.v
RedocCode.v
RedocFields.v
RedocMenu.v
RedocOperations.v
RedocPage.v
RedocSheets.v
RedocJson.v
JsArray.v
JsonPointer.v
RedocParser.v
RedocParserLaws.v
RedocAllOf.v
RedocAllOfLaws.v
RedocConstraints.v
RedocMenuStore.v
RedocMenuLaws.v
RedocStructure.v
RedocStructureLaws.v
RedocScroll.v
RedocRequests.v
RedocDefaults.v
RedocCorrect.v
