(* ===== verification/Prelude.v ===== *)
(** * aarv: a web framework for Go, and the documentation viewers it serves

    This development models the core of the framework (Go, at the top of src/ and in
    src/plugins/) and the viewer of OpenAPI documents that its plugin openapi-ui serves
    to browsers (JavaScript, src/plugins/openapi-ui/assets). Definitions keep the names
    of the source; those of the Redoc bundle are minified there and stay so here.

    ** The framework

    A request enters [ServeHTTP] (dispatch.go). It takes a [Context] from a pool, runs
    the hooks of the request, finds a route, runs the chain of middleware around the
    handler and sends the answer, through a buffered writer if hooks may still change it.

    - GoStrings, Float64: strings as bytes with the functions of strings, strconv and
      net/url in use; binary64 computed on integers, for Go's float64 and for numbers
      of JavaScript.
    - Http: headers and the class [ResponseWriter], whose instances are the writer of
      the server, for which a status of 1xx is not final, and the wrappers of the
      repository, for which it is: theorems that compare them ask for [final_statuses].
    - Response (response.go): the buffered writer, which refines the writer below it
      ([buffered_transparent], for final statuses).
    - Pattern (dispatch.go, context.go): the compilation of route patterns and their
      matching byte by byte, against a relation on segments ([direct_match_refines],
      [route_roundtrip]).
    - Errors (errors.go): chains of errors and the answer to each
      ([error_response_cases], [internal_not_leaked]).
    - RequestContext (context.go): the pooled context and the world of one request:
      writers, bodies, and the registry. Handlers are computations on this world that
      may fail or panic ([reset_isolates], [Body_whole_and_cached], [RealIP_trust]).
    - Hooks (hooks.go), App (server.go): phases of hooks, their stable order
      ([finalize_order]), and the central handling of errors ([error_answered_once]).
    - Middleware (middleware.go, skippaths.go): the two forms of a middleware, the two
      chains and why they agree ([native_stdlib_agree], [chain_order],
      [Recovery_contains_panics], [SkipPaths_exact]).
    - Routing (app_routes.go, router.go, handler.go, plugin.go): registration as a
      computation on the tables of the application, and the invariant that they agree
      with the list of routes ([registration_wf], [body_limit_enforced]).
    - Dispatch (dispatch.go): [ServeHTTP] on its direct and hooked paths
      ([dynamic_route_served], [unmatched_answers], [ServeHTTP_cleans_up]).
    - RateLimit (plugins/ratelimit): both algorithms, the sharded store and the
      middleware ([sliding_window_exact] and the theorems after it).
    - Throttle, ThrottleLaws (plugins/throttle): requests as goroutines on two channels,
      with all their interleavings ([throttle_bounds], [throttle_fair], [throttle_ends]),
      and the middleware of one request, whose [acquire] is such steps ([acquire_steps]).
    - Sha256: SHA-256 and HMAC, computed.
    - HmacCanonical (plugins/hmacauth/canonical.go): the text that is
      signed, from which the request can be told ([canonical_unambiguous]).
    - NonceStore, NonceStoreLaws (noncestore.go): the class [NonceStore] and the store in
      memory, bounded and with its janitor.
    - HmacAuth, HmacAuthLaws (hmacauth.go, clients.go, observer.go): the verification of a
      request ([verify_accepts]), replays ([replay_refused]) and the middleware, proved
      against the class ([handler_guarded]); [error_handler_lets_pass] is the way around it.
      The repository's test vectors are evaluated.
    - HmacSigner (signer.go): the signing of requests, and what net/http makes of them on
      the wire ([signed_accepted], [no_path_no_method_refused]).
    - IdempotencyWriter (plugins/idempotency/writer.go): the writer
      that captures a response ([capture_transparent]) and replays ([replay_faithful]).
    - IdempotencyStore (store.go): the store of responses in memory, with shared entries.
    - Idempotency, IdempotencyMachine, IdempotencyLaws (idempotency.go): both forms of the
      middleware as programs over the operations of a store, a machine that interleaves
      requests at each of them, and its invariant: one handler under a key at a time
      ([one_handler]), a saved response until it runs out ([saved_replayed]), no lost
      wake-up ([sleeper_woken]) and no key that stays closed ([idle_key_open]).
    - Base64, Cookie: encoding/base64 and the cookies of net/http, as far as they are used.
    - Session, SessionStore, SessionLaws (plugins/session): the manager, its stores in
      memory and in sealed cookies, and a browser that visits: an identifier that the
      server did not issue is never used ([no_fixation]), what was destroyed stays so
      ([stays_dead]), and what one visit stores the next one finds ([visit_kept],
      [sealed_kept]); three examples show what escapes these.
    - SecureCookie (securecookie.go): signed and encrypted cookies
      ([signed_cookie_genuine], which names the two texts a cookie accepted under two
      names would sign, [cookies_read_back]).
    - Csrf (plugins/csrf): tokens, and who has to show them ([unsafe_shows_token]).
    - Cors (plugins/cors): the fields that an origin is answered with ([origin_decided]).
    - AuthPlugins (plugins/basicauth, bearer, apikey, rbac): how credentials are found, the
      verdicts of validators, and roles ([forms_agree], [static_creds_exact],
      [header_is_exclusive], [roles_exact]).
    - Etag (plugins/etag): the capture of an answer, its CRC-32 tag and the
      comparison with If-None-Match ([if_none_match], [etag_answer], [revalidation]).
    - Sse (sse.go): the text of events, a response whose writes may fail on the way, and
      a client that reads what it took ([stream_received]).
    - Reflect: the types, tags and values of Go that reflection shows.
    - Validator, ValidatorLaws (validator.go): plans compiled from tags, which take a
      type apart ([plan_ends_or_recurs]), and their walk over a value, against an
      inductive definition of what a value violates ([validation_exact]).
    - Binder, Bind, BindLaws (binder.go, bind.go): the filling of a request from its
      sources ([bind_fills], [int_field]) and the typed handlers ([paths_agree],
      [handler_gets_valid]).
    - OpenApiUI (plugins/openapi-ui): the pages, their registration, and the script
      swagger-initializer.js ([swagger_page_loads_spec]).

    ** The Redoc bundle (redoc.standalone.js)

    The bundle renders components of React. Each has a style sheet: a template whose
    interpolations read the component's properties and its theme. The theme is the
    defaults merged with the page's own, with the functions in it resolved.

    - JsNumber, JsValue, JsRegExp: conversions of numbers, data and operators, and the
      regular expressions in use. An expression that throws is [None].
    - StyledComponents, StyledLaws: styled-components, from the tags [css] and
      [keyframes] to the names and texts of a component's classes. The text of a sheet
      is defined a second time by recursion on its interpolations; [style_text] says
      that the library computes it, and [class_names_identifiers] that names are names.
    - RedocColor: the colour functions ([hex_roundtrip]).
    - RedocTheme, RedocThemeLaws: the default theme and the resolution of a theme, which
      always ends ([theme_resolution_ends]) with the values that its functions have
      ([theme_resolution_meaning], against a relation without records).
    - RedocPanels, RedocTables, RedocCode, RedocFields, RedocMenu, RedocOperations,
      RedocPage: the style sheets, one definition for each template of the bundle, which
      is also how the lines of the bundle are arranged.
    - CssBalance, RedocSheets: the braces of the sheets ([sheets_balanced], and
      [faulty_sheets] for the five that close a block too many).
    - RedocDefaults: under the default theme no sheet throws ([default_theme_renders]).
    - RedocJson: the markup of a JSON value ([viewer_shows_value]).
    - RedocCorrect: the properties of the bundle, with their witnesses.
    - JsonPointer, RedocParser, RedocParserLaws: pointers into the document and the
      references of the parser [vc] ([pointer_roundtrip], [reference_reads],
      [deref_resolves]); [deref_ends_or_loops] says which references end.
    - RedocAllOf, RedocAllOfLaws: the merge of schemas that are combined by allOf: it ends
      on documents whose schemas do not contain themselves ([allOf_ends]), with the
      properties and requirements of the members it combines ([allOf_combines]).
    - RedocConstraints: the texts of the constraints of a schema
      ([range_shown_exact]).
    - RedocMenuStore, RedocMenuLaws: the menu as a state machine over its items, stepped
      by clicks, scrolling and the address of the page ([one_open_path],
      [scroll_ends]).
    - JsArray, RedocStructure, RedocStructureLaws: how the items are made from a document,
      as a computation on a growing list of objects. The menu of every document meets
      what the menu's laws assume ([structure_sound]), and every operation that the
      walk of the paths comes to is in it, under its tags ([operations_grouped],
      [operations_listed]; verbs next to a reference of a path are lost); it ends if no path is a reference
      ([structure_ends]).
    - RedocRequests: the parameters and the responses of an operation
      ([parameters_shown], [responses_meaning]).
    - RedocScroll: the throttled listener of scrolling ([scroll_throttled]).

    ** Bounds and fuel

    Go integers are Z with the bounds of their width written where they can be passed:
    int64 in the rate limiter and in Content-Length, 32-bit operations in the hash of
    styled-components. Loops recurse on their data. Fuel is used where that is not
    possible: [trim_space_left] and its twin get the length of the string, [digits],
    [letters] and [strip_zeros] a logarithm of the number, since each step divides it;
    [shortest] tries at most 20 lengths, and 17 digits identify a binary64. Evaluations of
    a theme nest at most as deep as their number, which the bundle bounds by 1000, so
    [resolve_fuel] is 1002; that this is enough is [theme_resolution_ends]. The fuel of
    [deref], [mergeAllOf] and [add_paths] stands for the stack of calls, which the bundle
    can outgrow; [allOf_ends], [deref_ends_or_loops] and [structure_ends] say when some
    fuel is enough. Paths of the menu
    go to parents with lower numbers, and lists of items below an item are at most as deep
    as there are items. Texts of JavaScript are the bytes of their UTF-8 form.

    ** Parameters

    Code that is not in the repository is an argument of the definitions that use it: the
    matching and the rejections of net/http.ServeMux, the reflected label of a middleware,
    the JSON encoder and decoder, net.ParseIP and its relatives, strconv.ParseFloat, the
    regular expressions of users, AES-GCM, the random source, the parsed form of a request,
    the methods and functions that a program gives its types, the clock, the order in which a map is
    iterated, the interface of Swagger
    UI, Math.pow (which engines approximate), the hook of the page that embeds Redoc,
    the headings that marked finds, the lower case of Unicode, in Go and in JavaScript, its
    collation, and
    the order in which components are created, which numbers them. sync.Pool and
    sync.Once appear through their effect: a context that is reset, chains that are
    built once. A critical section of the rate limiter is one step.

    ** Not modelled

    In the framework: the codecs, uploads, TLS, listeners and the options of the
    constructor, which call the standard library or set fields; the schemas that routes
    carry for documents; and of the plugins those that only call a library or write logs,
    and bodylimit, health, ipfilter, jwt, openapi, problem, requestid, sanitize, secure and
    timeout, whose logic is guards of the kind modelled for hmacauth, csrf and cors. Values of context.Context are not modelled, only
    the copies of requests that carry them; such a copy has the body as it was then, where
    the source shares the reader, which shows only to code that goes on reading the first
    request. Outside Sse the writer of the server takes every write, so the error of a
    Write that handlers return is nil.

    In the bundles: React, MobX, the loading of documents, Markdown, search and the CSS
    preprocessor of styled-components, which are third-party libraries minified onto a
    few very long lines; the listeners of the JSON viewer, which act on the page; and the
    Swagger UI bundle. Of Redoc's own classes the models of schemas, media types and
    security, the sampler and the options are left out: they share the long lines of the
    libraries around them. Members that objects inherit are left
    out of values, so that a property called constructor is like any other; they are
    modelled where tags, verbs and parameters are looked up. *)
From stdpp Require Export base tactics option list gmap strings.
From Stdlib Require Export ZArith Lia Ascii.

(** * Tactics shared by the components *)

(** Splits every [match]/[if] of the goal, closing the branches the hypotheses
    rule out. *)
Ltac split_cases :=
  repeat (case_match; simplify_eq/=); try done.

(** Destructs a boolean comparison of integers into its arithmetic meaning. *)
Ltac zbool :=
  repeat match goal with
  | H : context [(?a <? ?b)%Z] |- _ => destruct (Z.ltb_spec a b)
  | H : context [(?a <=? ?b)%Z] |- _ => destruct (Z.leb_spec a b)
  | H : context [(?a =? ?b)%Z] |- _ => destruct (Z.eqb_spec a b)
  | |- context [(?a <? ?b)%Z] => destruct (Z.ltb_spec a b)
  | |- context [(?a <=? ?b)%Z] => destruct (Z.leb_spec a b)
  | |- context [(?a =? ?b)%Z] => destruct (Z.eqb_spec a b)
  end.

(** Decides a closed proposition by running its decision procedure. *)
Ltac vm_decide := refine (bool_decide_unpack _ _); vm_compute; exact I.

Create HintDb aarv.
Create Rewrite HintDb aarv.

(** * Control flow of a Go function body

    A body runs in a state that outlives a panic: a value of [GoM S A] maps the
    state it starts in to how it ends (a result, or a panic carrying a message)
    and the state it leaves behind. *)
Inductive outcome (A : Type) : Type :=
  | Ret (a : A)
  | Panic (msg : string).
Arguments Ret {A} a.
Arguments Panic {A} msg.

Definition GoM (S A : Type) : Type := S → outcome A * S.

Definition go_ret {S A} (a : A) : GoM S A := λ s, (Ret a, s).
Definition go_panic {S A} (msg : string) : GoM S A := λ s, (Panic msg, s).
Definition go_bind {S A B} (m : GoM S A) (k : A → GoM S B) : GoM S B := λ s,
  match m s with
  | (Ret a, s') => k a s'
  | (Panic p, s') => (Panic p, s')
  end.
Definition go_get {S A} (f : S → A) : GoM S A := λ s, (Ret (f s), s).
Definition go_mod {S} (f : S → S) : GoM S unit := λ s, (Ret tt, f s).

(** [defer cleanup()]: the cleanup runs whether the body returns or panics, and
    a panic of the cleanup replaces the result of the body. *)
Definition go_defer {S A} (cleanup : GoM S unit) (body : GoM S A) : GoM S A := λ s,
  let '(o, s1) := body s in
  match cleanup s1 with
  | (Ret _, s2) => (o, s2)
  | (Panic p, s2) => (Panic p, s2)
  end.

(** [defer func() { if rec := recover(); rec != nil { handler } }()]. *)
Definition go_recover {S A} (handler : string → GoM S A) (body : GoM S A) : GoM S A := λ s,
  match body s with
  | (Ret a, s1) => (Ret a, s1)
  | (Panic p, s1) => handler p s1
  end.

(** A computation on one half of a state; the two halves are the request's world
    and the state a plugin keeps across requests. *)
Definition on_fst {S T A} (m : GoM S A) : GoM (S * T) A := λ '(s, t),
  let '(o, s') := m s in (o, (s', t)).
Definition on_snd {S T A} (m : GoM T A) : GoM (S * T) A := λ '(s, t),
  let '(o, t') := m t in (o, (s, t')).

Declare Scope go_scope.
Delimit Scope go_scope with go.
Notation "'let!' p := m 'in' k" := (go_bind m (λ p, k))
  (at level 10, p pattern, m at level 100, k at level 200, only parsing) : go_scope.
Notation "m ;;; k" := (go_bind m (λ _, k))
  (at level 100, right associativity, only parsing) : go_scope.

Section monad_laws.
Context {S A B C : Type}.
Implicit Types (m : GoM S A) (s : S).

Lemma go_bind_ret_l (a : A) (k : A → GoM S B) s : go_bind (go_ret a) k s = k a s.
Proof. done. Qed.

(** Running a sequence, given how its first part ends. *)
Lemma go_bind_Ret m (k : A → GoM S B) a s s' : m s = (Ret a, s') → go_bind m k s = k a s'.
Proof. unfold go_bind. by intros ->. Qed.

Lemma go_bind_Panic m (k : A → GoM S B) msg s s' :
  m s = (Panic msg, s') → go_bind m k s = (Panic msg, s').
Proof. unfold go_bind. by intros ->. Qed.

Lemma go_bind_eq m (k : A → GoM S B) s :
  go_bind m k s = match m s with (Ret a, s') => k a s' | (Panic p, s') => (Panic p, s') end.
Proof. done. Qed.

Lemma go_bind_assoc m (k : A → GoM S B) (h : B → GoM S C) s :
  go_bind (go_bind m k) h s = go_bind m (λ a, go_bind (k a) h) s.
Proof. unfold go_bind. by destruct (m s) as [[] ?]. Qed.

(** What a deferred, non-panicking cleanup leaves behind does not depend on
    how the body ended. *)
Lemma go_defer_state (cleanup : GoM S unit) (f : S → S) m s :
  (∀ s', cleanup s' = (Ret tt, f s')) →
  go_defer cleanup m s = ((m s).1, f (m s).2).
Proof. intros Hc. unfold go_defer. destruct (m s). by rewrite Hc. Qed.
End monad_laws.

#[export] Hint Rewrite @go_bind_ret_l : aarv.

(** Running a step on one half of the state. *)
Section halves.
Context {S T A B : Type}.

Lemma on_fst_bind (m : GoM S A) (k : A → GoM (S * T) B) s t a s' :
  m s = (Ret a, s') → go_bind (on_fst m) k (s, t) = k a (s', t).
Proof. unfold go_bind, on_fst. by intros ->. Qed.
Lemma on_snd_bind (m : GoM T A) (k : A → GoM (S * T) B) s t a t' :
  m t = (Ret a, t') → go_bind (on_snd m) k (s, t) = k a (s, t').
Proof. unfold go_bind, on_snd. by intros ->. Qed.
Lemma on_fst_run (m : GoM S A) s t o s' : m s = (o, s') → on_fst (T:=T) m (s, t) = (o, (s', t)).
Proof. unfold on_fst. by intros ->. Qed.
End halves.

(** * Lists *)
Section list_lemmas.
Context {A : Type}.
Implicit Types (l : list A) (P : A → bool).

(** The first element satisfying a boolean predicate (a [for ... range] loop
    that returns from its body). *)
Fixpoint find_first P l : option A :=
  match l with
  | [] => None
  | x :: l' => if P x then Some x else find_first P l'
  end.

Lemma find_first_Some P l x :
  find_first P l = Some x ↔
  ∃ l1 l2, l = l1 ++ x :: l2 ∧ P x = true ∧ Forall (λ y, P y = false) l1.
Proof.
  induction l as [|y l IH]; simpl.
  { split; [done|]. by intros ([] & ? & ? & _). }
  destruct (P y) eqn:Hy.
  - split.
    + intros [= ->]. exists [], l. by repeat constructor.
    + intros ([|z l1] & l2 & ? & ? & Hl1); simplify_eq/=; [done|].
      inversion Hl1. congruence.
  - rewrite IH. split.
    + intros (l1 & l2 & -> & ? & ?). exists (y :: l1), l2. by repeat constructor.
    + intros ([|z l1] & l2 & ? & ? & Hl1); simplify_eq/=; [congruence|].
      inversion Hl1. eauto.
Qed.

Lemma find_first_None P l :
  find_first P l = None ↔ Forall (λ y, P y = false) l.
Proof.
  induction l as [|y l IH]; simpl; [by split; constructor|].
  destruct (P y) eqn:Hy.
  - split; [done|]. rewrite Forall_cons. intros [? _]. congruence.
  - rewrite IH, Forall_cons. tauto.
Qed.

Lemma forallb_Forall P l : forallb P l = true ↔ Forall (λ x, P x = true) l.
Proof.
  induction l as [|x l IH]; simpl; [by split|].
  by rewrite andb_true_iff, IH, Forall_cons.
Qed.

Lemma existsb_Exists P l : existsb P l = true ↔ Exists (λ x, P x = true) l.
Proof.
  induction l as [|x l IH]; simpl.
  - split; [done|]. by rewrite Exists_nil.
  - by rewrite orb_true_iff, IH, Exists_cons.
Qed.
End list_lemmas.

(** * Fixed-width integers

    Go's [int] and [int64] (64-bit two's complement on the supported
    platforms), with their wrap-around. *)
Definition min_int64 : Z := (- 2 ^ 63)%Z.
Definition max_int64 : Z := (2 ^ 63 - 1)%Z.
Definition wrap64 (z : Z) : Z := ((z + 2 ^ 63) mod 2 ^ 64 - 2 ^ 63)%Z.
Definition wrapu64 (z : Z) : Z := (z mod 2 ^ 64)%Z.
Definition in_int64 (z : Z) : Prop := (min_int64 ≤ z ≤ max_int64)%Z.

Lemma wrap64_small z : in_int64 z → wrap64 z = z.
Proof.
  unfold in_int64, wrap64, min_int64, max_int64. intros ?.
  rewrite Z.mod_small; lia.
Qed.

Lemma wrap64_range z : in_int64 (wrap64 z).
Proof.
  unfold in_int64, wrap64, min_int64, max_int64.
  pose proof (Z.mod_pos_bound (z + 2 ^ 63) (2 ^ 64)). lia.
Qed.

#[export] Hint Resolve wrap64_range : aarv.
