(* ===== verification/GoStrings.v ===== *)
(** Go strings: the byte-level operations of [strings], [net/url] and
    [strconv] the modelled code calls, and their lemmas. A Go string is a
    sequence of bytes, here a [string] of [ascii]. *)
From S2P Require Import Prelude.
From stdpp Require Import pretty.

Definition code (a : ascii) : Z := Z.of_N (N_of_ascii a).
Definition of_code (z : Z) : ascii := ascii_of_N (Z.to_N z).

Lemma code_range a : (0 ≤ code a < 256)%Z.
Proof. unfold code. pose proof (N_ascii_bounded a). lia. Qed.

Lemma of_code_code a : of_code (code a) = a.
Proof. unfold of_code, code. by rewrite N2Z.id, ascii_N_embedding. Qed.

#[export] Hint Resolve code_range : aarv.
#[export] Hint Rewrite of_code_code : aarv.

(** ** Searching *)

Fixpoint string_all (P : ascii → bool) (s : string) : bool :=
  match s with
  | EmptyString => true
  | String c s' => P c && string_all P s'
  end.

(** [strings.IndexByte(s, c) >= 0] *)
Definition contains_byte (c : ascii) (s : string) : bool :=
  negb (string_all (λ a, negb (Ascii.eqb a c)) s).

(** [strings.IndexByte], [None] standing for -1. *)
Fixpoint index_byte (c : ascii) (s : string) : option nat :=
  match s with
  | EmptyString => None
  | String a s' => if Ascii.eqb a c then Some 0 else S <$> index_byte c s'
  end.

(** The parts of [s] before and after the first [c]. *)
Fixpoint cut_byte (c : ascii) (s : string) : option (string * string) :=
  match s with
  | EmptyString => None
  | String a s' =>
      if Ascii.eqb a c then Some (EmptyString, s')
      else (λ p, (String a p.1, p.2)) <$> cut_byte c s'
  end.

(** [strings.Split] with a one-byte separator. *)
Fixpoint split_byte (c : ascii) (s : string) : list string :=
  match s with
  | EmptyString => [EmptyString]
  | String a s' =>
      if Ascii.eqb a c then EmptyString :: split_byte c s'
      else match split_byte c s' with
           | [] => [String a EmptyString]
           | h :: t => String a h :: t
           end
  end.

(** [strings.Join]. *)
Fixpoint join (sep : string) (l : list string) : string :=
  match l with
  | [] => ""
  | [x] => x
  | x :: l' => x +:+ sep +:+ join sep l'
  end.

Definition has_prefix (s p : string) : bool := String.prefix p s.

(** [s[n:]] for an [n] within bounds. *)
Fixpoint drop_bytes (n : nat) (s : string) : string :=
  match n, s with
  | S n', String _ s' => drop_bytes n' s'
  | _, _ => s
  end.

Fixpoint take_bytes (n : nat) (s : string) : string :=
  match n, s with
  | S n', String a s' => String a (take_bytes n' s')
  | _, _ => EmptyString
  end.

Definition has_suffix (s p : string) : bool :=
  (String.length p <=? String.length s)%nat &&
  String.eqb (drop_bytes (String.length s - String.length p) s) p.

Definition trim_prefix (s p : string) : string :=
  if has_prefix s p then drop_bytes (String.length p) s else s.
Definition trim_suffix (s p : string) : string :=
  if has_suffix s p then take_bytes (String.length s - String.length p) s else s.

(** [strings.Trim] with a one-byte cutset. *)
Fixpoint trim_left (c : ascii) (s : string) : string :=
  match s with
  | String a s' => if Ascii.eqb a c then trim_left c s' else s
  | EmptyString => EmptyString
  end.
Fixpoint trim_right (c : ascii) (s : string) : string :=
  match s with
  | EmptyString => EmptyString
  | String a s' =>
      match trim_right c s' with
      | EmptyString => if Ascii.eqb a c then EmptyString else String a EmptyString
      | t => String a t
      end
  end.
Definition trim (c : ascii) (s : string) : string := trim_right c (trim_left c s).

(** The [n]-th byte. *)
Fixpoint byte_at (n : nat) (s : string) : option ascii :=
  match s, n with
  | EmptyString, _ => None
  | String a _, O => Some a
  | String _ s', S n' => byte_at n' s'
  end.

(** ** Classes of bytes *)

Definition in_range (lo hi a : ascii) : bool :=
  (code lo <=? code a)%Z && (code a <=? code hi)%Z.
Definition is_digit (a : ascii) : bool := in_range "0" "9" a.
Definition is_upper (a : ascii) : bool := in_range "A" "Z" a.
Definition is_lower (a : ascii) : bool := in_range "a" "z" a.

Definition to_upper_byte (a : ascii) : ascii :=
  if is_lower a then of_code (code a - 32) else a.
Definition to_lower_byte (a : ascii) : ascii :=
  if is_upper a then of_code (code a + 32) else a.

Fixpoint string_map (f : ascii → ascii) (s : string) : string :=
  match s with
  | EmptyString => EmptyString
  | String a s' => String (f a) (string_map f s')
  end.

(** ** [url.PathUnescape] *)

Definition unhex (a : ascii) : option Z :=
  if is_digit a then Some (code a - 48)%Z
  else if in_range "a" "f" a then Some (code a - 87)%Z
  else if in_range "A" "F" a then Some (code a - 55)%Z
  else None.

Fixpoint path_unescape (s : string) : option string :=
  match s with
  | EmptyString => Some EmptyString
  | String a r =>
      if Ascii.eqb a "%" then
        match r with
        | String h (String l r') =>
            match unhex h, unhex l with
            | Some x, Some y => String (of_code (16 * x + y)) <$> path_unescape r'
            | _, _ => None
            end
        | _ => None
        end
      else String a <$> path_unescape r
  end.

(** [strings.TrimSpace]: the encodings of the white-space runes of Unicode. *)
Definition of_codes (l : list Z) : string :=
  foldr (λ z s, String (of_code z) s) "" l.

Definition space_runes : list string :=
  map (λ z, of_codes [z]) [9; 10; 11; 12; 13; 32]%Z ++
  map of_codes ([[194; 133]; [194; 160]; [225; 154; 128]; [226; 128; 168]; [226; 128; 169];
    [226; 128; 175]; [226; 129; 159]; [227; 128; 128]]%Z : list (list Z)) ++
  map (λ z, of_codes [226%Z; 128%Z; z]) [128; 129; 130; 131; 132; 133; 134; 135; 136; 137; 138]%Z.

Fixpoint trim_space_left (fuel : nat) (s : string) : string :=
  match fuel with
  | O => s
  | S fuel' =>
      match filter (λ p, has_prefix s p = true) space_runes with
      | p :: _ => trim_space_left fuel' (trim_prefix s p)
      | [] => s
      end
  end.
Fixpoint trim_space_right (fuel : nat) (s : string) : string :=
  match fuel with
  | O => s
  | S fuel' =>
      match filter (λ p, has_suffix s p = true) space_runes with
      | p :: _ => trim_space_right fuel' (trim_suffix s p)
      | [] => s
      end
  end.
Definition TrimSpace (s : string) : string :=
  let t := trim_space_left (String.length s) s in trim_space_right (String.length t) t.

(** [strconv.Itoa] and [strconv.FormatInt(_, 10)]. *)
Definition itoa (z : Z) : string := pretty z.

(** [strconv.ParseUint] in base ten, without a bound. *)
Fixpoint decimal (acc : Z) (s : string) : option Z :=
  match s with
  | EmptyString => Some acc
  | String a s' => if is_digit a then decimal (10 * acc + (code a - 48)) s' else None
  end.
Definition digits_of (s : string) : option Z := if String.eqb s "" then None else decimal 0 s.
(** [strconv.ParseInt(s, 10, 64)], without the texts of its errors. *)
Definition ParseInt (s : string) : option Z :=
  let value :=
    match s with
    | String "-" s' => Z.opp <$> digits_of s'
    | String "+" s' => digits_of s'
    | _ => digits_of s
    end in
  z ← value; if (min_int64 <=? z)%Z && (z <=? max_int64)%Z then Some z else None.

(** * Lemmas *)

Lemma string_app_cons a (s t : string) : String a s +:+ t = String a (s +:+ t).
Proof. done. Qed.

Lemma string_app_nil_l (t : string) : "" +:+ t = t.
Proof. done. Qed.

Lemma string_app_assoc (a b c : string) : (a +:+ b) +:+ c = a +:+ (b +:+ c).
Proof. induction a as [|x a IH]; [done|]. by rewrite !string_app_cons, IH. Qed.

Lemma string_app_nil_r (a : string) : a +:+ "" = a.
Proof. induction a as [|x a IH]; [done|]. by rewrite !string_app_cons, IH. Qed.

Lemma string_length_cons a (s : string) : String.length (String a s) = S (String.length s).
Proof. done. Qed.

Lemma string_length_app (s t : string) :
  String.length (s +:+ t) = String.length s + String.length t.
Proof.
  induction s as [|x s IH]; [done|].
  by rewrite string_app_cons, !string_length_cons, IH.
Qed.

(** Normalises concatenations, in the goal and the hypotheses. *)
Ltac str_simpl :=
  cbn in *; rewrite ?string_app_cons, ?string_app_nil_l, ?string_app_nil_r in *;
  simplify_eq/=.

#[export] Hint Rewrite string_app_nil_r string_app_cons string_app_nil_l
  string_length_app : aarv.

Lemma string_all_app P s t : string_all P (s +:+ t) = string_all P s && string_all P t.
Proof. induction s as [|a s IH]; [done|]. rewrite string_app_cons. simpl. by rewrite IH, andb_assoc. Qed.

Lemma contains_byte_cons c a s :
  contains_byte c (String a s) = Ascii.eqb a c || contains_byte c s.
Proof. unfold contains_byte. cbn. by rewrite negb_andb, negb_involutive. Qed.

Lemma contains_byte_app c s t :
  contains_byte c (s +:+ t) = contains_byte c s || contains_byte c t.
Proof.
  induction s as [|a s IH]; [done|].
  by rewrite string_app_cons, !contains_byte_cons, IH, orb_assoc.
Qed.

(** [cut_byte] finds the first separator. *)
Lemma cut_byte_Some c s a b :
  cut_byte c s = Some (a, b) ↔ s = a +:+ String c b ∧ contains_byte c a = false.
Proof.
  revert a. induction s as [|x s IH]; intros a; cbn.
  { split; [done|]. intros [Heq _]. by destruct a. }
  destruct (Ascii.eqb_spec x c) as [->|Hne].
  - split; [intros [= <- <-]; done|].
    intros [Heq Hc]. destruct a as [|y a]; str_simpl; [done|].
    rewrite contains_byte_cons, Ascii.eqb_refl in Hc. done.
  - destruct a as [|y a].
    { split; [by destruct (cut_byte c s) as [[]|]|].
      intros [Heq _]. by str_simpl. }
    apply Ascii.eqb_neq in Hne. rewrite contains_byte_cons, string_app_cons.
    transitivity (x = y ∧ cut_byte c s = Some (a, b)).
    + destruct (cut_byte c s) as [[]|]; cbn; split; try done;
        [by intros [= <- <- <-]|by intros [-> [= -> ->]]|by intros [_ ?]].
    + rewrite (IH a). split.
      * intros (-> & -> & ?). by rewrite Hne.
      * intros [[= -> ->] [_ ?]%orb_false_iff]. done.
Qed.

Lemma cut_byte_None c s : cut_byte c s = None ↔ contains_byte c s = false.
Proof.
  induction s as [|x s IH]; [done|]. rewrite contains_byte_cons. cbn.
  destruct (Ascii.eqb x c); cbn; [done|]. rewrite <-IH.
  by destruct (cut_byte c s).
Qed.

Lemma cut_byte_app c a b :
  contains_byte c a = false → cut_byte c (a +:+ String c b) = Some (a, b).
Proof. intros. by apply cut_byte_Some. Qed.

Lemma split_byte_cut c s :
  split_byte c s =
    match cut_byte c s with
    | None => [s]
    | Some (a, b) => a :: split_byte c b
    end.
Proof.
  induction s as [|x s IH]; [done|]. cbn. destruct (Ascii.eqb x c); [done|].
  rewrite IH. by destruct (cut_byte c s) as [[]|].
Qed.

Lemma split_byte_nonempty c s : split_byte c s ≠ [].
Proof. rewrite split_byte_cut. by destruct (cut_byte c s) as [[]|]. Qed.

(** Splitting undoes joining when the separator occurs in no element. *)
Lemma split_join c l :
  l ≠ [] → Forall (λ s, contains_byte c s = false) l →
  split_byte c (join (String c "") l) = l.
Proof.
  induction l as [|x l IH]; [done|]. intros _ [Hx Hl]%Forall_cons.
  destruct l as [|y l].
  - cbn. rewrite split_byte_cut. by apply cut_byte_None in Hx as ->.
  - change (join _ (x :: y :: l)) with (x +:+ String c (join (String c "") (y :: l))).
    rewrite split_byte_cut, cut_byte_app by done. by rewrite IH.
Qed.

Lemma join_split c s : join (String c "") (split_byte c s) = s.
Proof.
  induction s as [|x s IH]; [done|]. cbn.
  pose proof (split_byte_nonempty c s) as Hne.
  destruct (Ascii.eqb_spec x c) as [->|]; destruct (split_byte c s) as [|h t];
    try done; cbn in *; [by rewrite IH|].
  destruct t; cbn in *; by rewrite <-IH.
Qed.

Lemma drop_bytes_app s t : drop_bytes (String.length s) (s +:+ t) = t.
Proof. by induction s. Qed.

Lemma take_bytes_app s t : take_bytes (String.length s) (s +:+ t) = s.
Proof.
  induction s as [|a s IH]; [by destruct t|].
  rewrite string_app_cons. cbn. by rewrite IH.
Qed.

Lemma has_suffix_app s t : has_suffix (s +:+ t) t = true.
Proof.
  unfold has_suffix. rewrite string_length_app, Nat.add_sub, drop_bytes_app.
  rewrite String.eqb_refl, andb_true_r. apply Nat.leb_le. lia.
Qed.

Lemma trim_suffix_app s t : trim_suffix (s +:+ t) t = s.
Proof.
  unfold trim_suffix. rewrite has_suffix_app, string_length_app, Nat.add_sub.
  apply take_bytes_app.
Qed.

Lemma take_drop_bytes n s : take_bytes n s +:+ drop_bytes n s = s.
Proof.
  revert s. induction n as [|n IH]; intros [|a s]; cbn; try done.
  by rewrite string_app_cons, IH.
Qed.

Lemma has_suffix_spec s t : has_suffix s t = true ↔ ∃ u, s = u +:+ t.
Proof.
  split; [|intros [u ->]; apply has_suffix_app].
  unfold has_suffix. intros [_ Heq%String.eqb_eq]%andb_true_iff.
  exists (take_bytes (String.length s - String.length t) s).
  rewrite <-Heq at 2. by rewrite take_drop_bytes.
Qed.

Lemma has_prefix_spec s t : has_prefix s t = true ↔ ∃ u, s = t +:+ u.
Proof.
  unfold has_prefix. revert s. induction t as [|a t IH]; intros s.
  - split; [by exists s|]. by destruct s.
  - destruct s as [|b s]; cbn; [split; [done|by intros [u [=]]]|].
    destruct (ascii_dec a b) as [->|Hne].
    + rewrite IH. split; intros [u Hu]; exists u.
      * by rewrite Hu, string_app_cons.
      * by str_simpl.
    + split; [done|]. intros [u Hu]. by str_simpl.
Qed.

(** A string without percent signs is its own decoding. *)
Lemma path_unescape_plain s :
  contains_byte "%" s = false → path_unescape s = Some s.
Proof.
  induction s as [|a s IH]; [done|]. rewrite contains_byte_cons.
  intros [Ha Hs]%orb_false_iff. cbn. rewrite Ha. by rewrite IH.
Qed.

(** ** Trimming and joining *)

Lemma trim_right_clean c u x :
  x ≠ "" → contains_byte c x = false → trim_right c (u +:+ x) = u +:+ x.
Proof.
  intros Hne Hc. induction u as [|a u IH].
  - rewrite string_app_nil_l. induction x as [|a x IH]; [done|].
    rewrite contains_byte_cons in Hc. apply orb_false_iff in Hc as [Ha Hc].
    cbn. destruct x as [|b x]; [by rewrite Ha|]. by rewrite IH.
  - rewrite string_app_cons. cbn. rewrite IH. by destruct u, x.
Qed.

Lemma join_last_app sep l x : ∃ u, join sep (l ++ [x]) = u +:+ x.
Proof.
  induction l as [|y l [u IH]]; [by exists ""|].
  exists (y +:+ sep +:+ u). rewrite !string_app_assoc, <-IH.
  by destruct l.
Qed.

Lemma join_cons_head sep x l : ∃ u, join sep (x :: l) = x +:+ u.
Proof. destruct l as [|y l]; [exists ""; by rewrite string_app_nil_r|]. by eexists. Qed.

Lemma trim_join c l :
  l ≠ [] → Forall (λ s, s ≠ "" ∧ contains_byte c s = false) l →
  trim c (String c (join (String c "") l)) = join (String c "") l.
Proof.
  intros Hne Hall. unfold trim. cbn [trim_left]. rewrite Ascii.eqb_refl.
  assert (trim_left c (join (String c "") l) = join (String c "") l) as ->.
  { destruct l as [|x l]; [done|]. apply Forall_cons in Hall as [[Hx Hc] _].
    destruct (join_cons_head (String c "") x l) as [u ->].
    destruct x as [|a x]; [done|]. rewrite contains_byte_cons in Hc.
    apply orb_false_iff in Hc as [Ha _]. rewrite string_app_cons. cbn.
    by rewrite Ha. }
  destruct l as [|x l _] using rev_ind; [done|].
  apply Forall_app in Hall as [_ [[Hx Hc] _]%Forall_cons].
  destruct (join_last_app (String c "") l x) as [u ->].
  by apply trim_right_clean.
Qed.

(** ** Decimal numbers *)

Lemma digit_char d : (d < 10)%N → is_digit (pretty_N_char d) = true ∧ (code (pretty_N_char d) - 48)%Z = Z.of_N d.
Proof.
  intros H. assert (d = 0 ∨ d = 1 ∨ d = 2 ∨ d = 3 ∨ d = 4 ∨ d = 5 ∨ d = 6 ∨ d = 7 ∨ d = 8 ∨ d = 9)%N as Hd by lia.
  repeat destruct Hd as [-> | Hd]; try (vm_compute; done). subst. vm_compute. done.
Qed.

Lemma decimal_pretty x s : decimal 0 (pretty_N_go x s) = decimal (Z.of_N x) s.
Proof.
  revert s. induction (N.lt_wf_0 x) as [x _ IH]. intros s. destruct (decide (0 < x)%N) as [Hx|Hx].
  - rewrite pretty_N_go_step, IH by (try apply N.div_lt; lia). cbn [decimal].
    destruct (digit_char (x `mod` 10)) as [Hd Hc]; [by apply N.mod_lt|]. rewrite Hd, Hc. f_equal.
    rewrite N2Z.inj_div, N2Z.inj_mod. pose proof (Z.div_mod (Z.of_N x) (Z.of_N 10)). lia.
  - assert (x = 0)%N as -> by lia. by rewrite pretty_N_go_0.
Qed.

Lemma decimal_digits a acc s z : decimal acc (String a s) = Some z → is_digit a = true.
Proof. cbn. by destruct (is_digit a). Qed.

Lemma decimal_itoa z : (0 < z)%Z → decimal 0 (itoa z) = Some z.
Proof.
  intros Hz. destruct z as [|p|p]; try lia.
  unfold itoa, pretty, pretty_Z, pretty, pretty_positive, pretty, pretty_N. rewrite decide_False by done. apply decimal_pretty.
Qed.
Lemma decimal_digits_only acc s z : decimal acc s = Some z → string_all is_digit s = true.
Proof. revert acc. induction s as [|a s IH]; intros acc; [done|]. cbn. destruct (is_digit a); [apply IH|done]. Qed.

(** A printed number is digits only, so it holds no separator. *)
Lemma itoa_digits z : (0 < z)%Z → digits_of (itoa z) = Some z ∧ string_all is_digit (itoa z) = true.
Proof.
  intros Hz%decimal_itoa. split; [|by eapply decimal_digits_only]. unfold digits_of.
  destruct (String.eqb_spec (itoa z) "") as [E|]; [|done]. exfalso. rewrite E in Hz. cbn in Hz. injection Hz as <-. by vm_compute in E.
Qed.
Lemma string_all_contains (P : ascii → bool) c s : string_all P s = true → P c = false → contains_byte c s = false.
Proof.
  intros Hs Hc. induction s as [|a s IH]; [done|]. rewrite contains_byte_cons. cbn in Hs.
  apply andb_true_iff in Hs as [Ha Hs]. rewrite IH by done. destruct (Ascii.eqb_spec a c); [congruence|done].
Qed.
