(* ===== verification/Http.v ===== *)
(** The part of [net/http] the modelled code is written against: headers, and
    response writers as a class whose instances are the server's own writer and
    the wrappers of the repository. A handler's use of its writer is the list
    of operations it performs on it. *)
From S2P Require Import Prelude GoStrings.

(** * Headers *)

(** [http.Header]: canonical field name to values. *)
Abbreviation header := (gmap string (list string)).

Definition token_byte (a : ascii) : bool :=
  is_digit a || is_upper a || is_lower a ||
  contains_byte a "!#$%&'*+-.^_`|~".

Fixpoint canon_case (upper : bool) (s : string) : string :=
  match s with
  | EmptyString => EmptyString
  | String a s' =>
      let b := if upper then to_upper_byte a else to_lower_byte a in
      String b (canon_case (Ascii.eqb b "-") s')
  end.

(** [http.CanonicalHeaderKey]: names with an invalid byte are left alone. *)
Definition CanonicalHeaderKey (s : string) : string :=
  if string_all token_byte s then canon_case true s else s.

Definition header_get (k : string) (h : header) : string :=
  match h !! CanonicalHeaderKey k with
  | Some (v :: _) => v
  | _ => ""
  end.
Definition header_values (k : string) (h : header) : list string :=
  default [] (h !! CanonicalHeaderKey k).
Definition header_set (k v : string) (h : header) : header :=
  <[CanonicalHeaderKey k := [v]]> h.
Definition header_add (k v : string) (h : header) : header :=
  let k' := CanonicalHeaderKey k in
  <[k' := default [] (h !! k') ++ [v]]> h.
Definition header_del (k : string) (h : header) : header :=
  delete (CanonicalHeaderKey k) h.

(** Adding every value of [src] to [dst], field by field. *)
Definition header_add_all (src dst : header) : header :=
  map_fold (λ k vs dst, foldl (λ d v, header_add k v d) dst vs) dst src.

(** * Response writers *)

(** What [http.ResponseWriter] promises: a live header map, and the two writes. *)
Class ResponseWriter (W : Type) : Type := {
  rw_header : W → header;
  rw_set_header : header → W → W;
  WriteHeader : Z → W → W;
  Write : string → W → W;
}.

(** The operations a handler performs on its writer. [HPut] assigns the map
    entry directly, as [w.Header()[k] = vs] does. *)
Inductive wop : Type :=
  | HSet (k v : string)
  | HAdd (k v : string)
  | HDel (k : string)
  | HPut (k : string) (vs : list string)
  | OWriteHeader (code : Z)
  | OWrite (b : string).

Definition header_op (o : wop) (h : header) : header :=
  match o with
  | HSet k v => header_set k v h
  | HAdd k v => header_add k v h
  | HDel k => header_del k h
  | HPut k vs => <[k := vs]> h
  | OWriteHeader _ | OWrite _ => h
  end.

Definition do_op `{ResponseWriter W} (w : W) (o : wop) : W :=
  match o with
  | OWriteHeader code => WriteHeader code w
  | OWrite b => Write b w
  | _ => rw_set_header (header_op o (rw_header w)) w
  end.

Definition run_ops `{ResponseWriter W} (ops : list wop) (w : W) : W := foldl do_op w ops.

(** The server's writer: the live header map, what the first write sent (status
    and headers at that moment), and the body sent so far. *)
Record RW : Type := {
  w_header : header;
  w_sent : option (Z * header);
  w_body : string;
}.

Definition new_RW (h : header) : RW := {| w_header := h; w_sent := None; w_body := "" |}.

(** A 1xx status but 101 is informational: [net/http] sends it on its own and
    waits for the status of the response. (It panics on a code outside 100 to
    999, and drops the body of a 204 and a 304; no code here uses either.) *)
Definition informational (code : Z) : bool :=
  (100 <=? code)%Z && (code <=? 199)%Z && negb (code =? 101)%Z.
#[global] Arguments informational : simpl never.

Definition RW_WriteHeader (code : Z) (w : RW) : RW :=
  match w_sent w with
  | Some _ => w
  | None =>
      if informational code then w
      else {| w_header := w_header w; w_sent := Some (code, w_header w); w_body := w_body w |}
  end.

Definition RW_Write (b : string) (w : RW) : RW :=
  let w' := RW_WriteHeader 200 w in
  {| w_header := w_header w'; w_sent := w_sent w'; w_body := w_body w' +:+ b |}.

#[export] Instance RW_writer : ResponseWriter RW := {
  rw_header := w_header;
  rw_set_header h w := {| w_header := h; w_sent := w_sent w; w_body := w_body w |};
  WriteHeader := RW_WriteHeader;
  Write := RW_Write;
}.

(** The status the client sees once the handler is done: 200 when it never wrote. *)
Definition final_status (w : RW) : Z :=
  match w_sent w with Some (code, _) => code | None => 200 end.
Definition final_header (w : RW) : header :=
  match w_sent w with Some (_, h) => h | None => w_header w end.

(** * What a list of operations amounts to *)

(** The status of the first write that is not informational. *)
Fixpoint ops_status (ops : list wop) : option Z :=
  match ops with
  | [] => None
  | OWriteHeader code :: ops' => if informational code then ops_status ops' else Some code
  | OWrite _ :: _ => Some 200%Z
  | _ :: ops' => ops_status ops'
  end.

Fixpoint ops_body (ops : list wop) : string :=
  match ops with
  | [] => ""
  | OWrite b :: ops' => b +:+ ops_body ops'
  | _ :: ops' => ops_body ops'
  end.

(** The header map after the operations, and at the first write. *)
Definition ops_header (ops : list wop) (h : header) : header := foldl (λ h o, header_op o h) h ops.

Fixpoint ops_sent_header (ops : list wop) (h : header) : header :=
  match ops with
  | [] => h
  | OWriteHeader code :: ops' => if informational code then ops_sent_header ops' h else h
  | OWrite _ :: _ => h
  | o :: ops' => ops_sent_header ops' (header_op o h)
  end.

(** No operation sends an informational status. *)
Definition op_final (o : wop) : Prop :=
  match o with OWriteHeader code => informational code = false | _ => True end.
#[export] Instance op_final_dec o : Decision (op_final o).
Proof. destruct o; apply _. Defined.

Abbreviation final_statuses := (Forall op_final).

(** No header operation follows the first write. *)
Fixpoint headers_first (ops : list wop) : Prop :=
  match ops with
  | [] => True
  | (OWriteHeader _ | OWrite _) :: ops' =>
      Forall (λ o, match o with OWriteHeader _ | OWrite _ => True | _ => False end) ops'
  | _ :: ops' => headers_first ops'
  end.

(** * Lemmas *)

Section run_ops.
Context `{ResponseWriter W}.

Lemma run_ops_cons o ops (w : W) : run_ops (o :: ops) w = run_ops ops (do_op w o).
Proof. done. Qed.

Lemma run_ops_app ops1 ops2 (w : W) : run_ops (ops1 ++ ops2) w = run_ops ops2 (run_ops ops1 w).
Proof. apply foldl_app. Qed.
End run_ops.

#[export] Hint Rewrite @run_ops_cons @run_ops_app : aarv.

(** The server's writer, operation by operation. *)
Lemma do_op_RW (w : RW) o :
  do_op w o =
    match o with
    | OWriteHeader code => RW_WriteHeader code w
    | OWrite b => RW_Write b w
    | _ => {| w_header := header_op o (w_header w); w_sent := w_sent w; w_body := w_body w |}
    end.
Proof. by destruct o. Qed.

Lemma RW_WriteHeader_sent code w x : w_sent w = Some x → RW_WriteHeader code w = w.
Proof. unfold RW_WriteHeader. by intros ->. Qed.

Lemma RW_WriteHeader_first code w :
  informational code = false → w_sent w = None →
  RW_WriteHeader code w =
    {| w_header := w_header w; w_sent := Some (code, w_header w); w_body := w_body w |}.
Proof. unfold RW_WriteHeader. by intros -> ->. Qed.

Lemma RW_WriteHeader_informational code w : informational code = true → RW_WriteHeader code w = w.
Proof. unfold RW_WriteHeader. intros ->. by destruct (w_sent w). Qed.

Lemma run_ops_RW_sent ops w code h body :
  w_sent w = Some (code, h) → w_body w = body →
  w_sent (run_ops ops w) = Some (code, h) ∧ w_body (run_ops ops w) = body +:+ ops_body ops.
Proof.
  revert w body. induction ops as [|o ops IH]; intros w body Hw Hb.
  { cbn. by rewrite string_app_nil_r. }
  rewrite run_ops_cons, do_op_RW. unfold RW_Write.
  destruct o as [| | | | |b]; cbn [ops_body]; rewrite ?(RW_WriteHeader_sent _ _ _ Hw);
    try by apply IH.
  rewrite <-string_app_assoc. apply IH; cbn; congruence.
Qed.

(** The server's writer sends the status and headers of the first write and the
    bytes of all of them. *)
Lemma run_ops_RW ops w h body :
  w_sent w = None → w_header w = h → w_body w = body →
  w_sent (run_ops ops w) = (λ code, (code, ops_sent_header ops h)) <$> ops_status ops ∧
  w_body (run_ops ops w) = body +:+ ops_body ops.
Proof.
  revert w h. induction ops as [|o ops IH]; intros w h Hw Hh Hb.
  { cbn. by rewrite string_app_nil_r. }
  rewrite run_ops_cons, do_op_RW. unfold RW_Write.
  destruct o as [| | | | |b]; cbn [ops_status ops_sent_header ops_body];
    rewrite ?(RW_WriteHeader_first 200 _ eq_refl Hw), ?Hh; try by apply IH.
  - destruct (informational code) eqn:Hi.
    + rewrite RW_WriteHeader_informational by done. by apply IH.
    + rewrite RW_WriteHeader_first, Hh by done. by apply run_ops_RW_sent.
  - rewrite <-string_app_assoc. apply run_ops_RW_sent; cbn; congruence.
Qed.

(** One field, a status and a body on an unused writer. *)
Lemma answer_ops_sent k v code b h :
  informational code = false →
  run_ops [HSet k v; OWriteHeader code; OWrite b] (new_RW h) =
    {| w_header := header_set k v h; w_sent := Some (code, header_set k v h); w_body := b |}.
Proof. intros Hi. cbn -[header_set]. unfold RW_WriteHeader. cbn -[header_set]. by rewrite Hi. Qed.

Lemma header_get_set k v h : header_get k (header_set k v h) = v.
Proof. unfold header_get, header_set. by rewrite lookup_insert_eq. Qed.

#[export] Hint Rewrite header_get_set : aarv.
