(* ===== verification/Response.v ===== *)
(** The buffered response writer the application installs when OnSend hooks are
    registered (response.go), and its integer printing. *)
From S2P Require Import Prelude GoStrings Http.
From stdpp Require Import pretty.

(** * The code *)

(** The digits of [i], written right to left into a buffer with [pos] free
    bytes; [None] for an index below zero. *)
Fixpoint itoa_loop (pos : nat) (i : Z) (acc : string) {struct pos} : option (nat * string) :=
  if (0 <? i)%Z then
    match pos with
    | O => None
    | S pos' => itoa_loop pos' (i / 10) (String (of_code (48 + i mod 10)) acc)
    end
  else Some (pos, acc).

(** [itoa(i)] for an [int]: [i = -i] wraps around on the least integer. *)
Definition go_itoa (i : Z) : option string :=
  if (i =? 0)%Z then Some "0"
  else
    let neg := (i <? 0)%Z in
    let i' := if neg then wrap64 (- i) else i in
    match itoa_loop 20 i' "" with
    | None => None
    | Some (pos, acc) =>
        if neg then match pos with O => None | S _ => Some (String "-" acc) end
        else Some acc
    end.

Section bufferedResponseWriter.
Context {W : Type} `{ResponseWriter W}.

Record bufferedResponseWriter : Type := {
  bw_under : W;
  bw_buf : string;
  bw_statusCode : Z;
  bw_written : bool;
  bw_bypassed : bool;
}.

Definition acquireBufferedWriter (w : W) : bufferedResponseWriter := {|
  bw_under := w; bw_buf := ""; bw_statusCode := 200;
  bw_written := false; bw_bypassed := false |}.

Definition bw_WriteHeader (code : Z) (bw : bufferedResponseWriter) : bufferedResponseWriter := {|
  bw_under := if bw_bypassed bw then WriteHeader code (bw_under bw) else bw_under bw;
  bw_buf := bw_buf bw;
  bw_statusCode := if bw_written bw then bw_statusCode bw else code;
  bw_written := true;
  bw_bypassed := bw_bypassed bw |}.

Definition bw_Write (b : string) (bw : bufferedResponseWriter) : bufferedResponseWriter := {|
  bw_under := if bw_bypassed bw then Write b (bw_under bw) else bw_under bw;
  bw_buf := if bw_bypassed bw then bw_buf bw else bw_buf bw +:+ b;
  bw_statusCode := bw_statusCode bw;
  bw_written := true;
  bw_bypassed := bw_bypassed bw |}.

Definition Bypass (bw : bufferedResponseWriter) : bufferedResponseWriter :=
  if (0 <? String.length (bw_buf bw))%nat then
    {| bw_under := Write (bw_buf bw) (WriteHeader (bw_statusCode bw) (bw_under bw));
       bw_buf := ""; bw_statusCode := bw_statusCode bw; bw_written := bw_written bw;
       bw_bypassed := true |}
  else
    {| bw_under := bw_under bw; bw_buf := bw_buf bw; bw_statusCode := bw_statusCode bw;
       bw_written := bw_written bw; bw_bypassed := true |}.

Definition SetBody (data : string) (bw : bufferedResponseWriter) : bufferedResponseWriter := {|
  bw_under := bw_under bw; bw_buf := data; bw_statusCode := bw_statusCode bw;
  bw_written := bw_written bw; bw_bypassed := bw_bypassed bw |}.

(** The Content-Length of a non-empty body; [itoa] of a length never panics. *)
Definition set_content_length (body : string) (w : W) : W :=
  if (0 <? String.length body)%nat then
    rw_set_header
      (header_set "Content-Length"
         (default "" (go_itoa (Z.of_nat (String.length body)))) (rw_header w)) w
  else w.

Definition send_body (body : string) (w : W) : W :=
  if (0 <? String.length body)%nat then Write body w else w.

(** [Flush], the public flusher: later writes go straight through. The
    underlying flusher has no effect on the bytes sent. *)
Definition Flush (bw : bufferedResponseWriter) : bufferedResponseWriter :=
  if bw_bypassed bw then bw
  else
    {| bw_under := send_body (bw_buf bw)
         (WriteHeader (bw_statusCode bw) (set_content_length (bw_buf bw) (bw_under bw)));
       bw_buf := ""; bw_statusCode := bw_statusCode bw; bw_written := bw_written bw;
       bw_bypassed := true |}.

(** [flush], run once at the end of [ServeHTTP]. *)
Definition flush (bw : bufferedResponseWriter) : bufferedResponseWriter :=
  if bw_bypassed bw then bw
  else
    {| bw_under := send_body (bw_buf bw)
         (WriteHeader (bw_statusCode bw) (set_content_length (bw_buf bw) (bw_under bw)));
       bw_buf := bw_buf bw; bw_statusCode := bw_statusCode bw; bw_written := bw_written bw;
       bw_bypassed := bw_bypassed bw |}.

#[export] Instance bufferedResponseWriter_writer : ResponseWriter bufferedResponseWriter := {
  rw_header bw := rw_header (bw_under bw);
  rw_set_header h bw := {|
    bw_under := rw_set_header h (bw_under bw); bw_buf := bw_buf bw;
    bw_statusCode := bw_statusCode bw; bw_written := bw_written bw;
    bw_bypassed := bw_bypassed bw |};
  WriteHeader := bw_WriteHeader;
  Write := bw_Write;
}.
End bufferedResponseWriter.
Arguments bufferedResponseWriter W : clear implicits.

(** * Printing integers *)

Lemma of_code_digit d :
  (0 ≤ d < 10)%Z → of_code (48 + d) = pretty_N_char (Z.to_N d).
Proof.
  intros Hd.
  assert (d = 0 ∨ d = 1 ∨ d = 2 ∨ d = 3 ∨ d = 4 ∨ d = 5 ∨ d = 6 ∨ d = 7 ∨ d = 8 ∨ d = 9)%Z
    as Hcases by lia.
  by repeat destruct Hcases as [->|Hcases]; [..|rewrite Hcases].
Qed.

(** A number of at most [pos] digits leaves the [extra] bytes before them free. *)
Lemma itoa_loop_pretty pos extra i acc :
  (0 ≤ i < 10 ^ Z.of_nat pos)%Z →
  ∃ k, itoa_loop (pos + extra) i acc = Some (k, pretty_N_go (Z.to_N i) acc) ∧ extra ≤ k.
Proof.
  revert i acc. induction pos as [|pos IH]; intros i acc Hi.
  - assert (i = 0)%Z as -> by (cbn in Hi; lia). exists extra.
    by destruct extra.
  - cbn [itoa_loop Nat.add]. destruct (Z.ltb_spec 0 i) as [Hpos|].
    + rewrite pretty_N_go_step by lia.
      assert (0 ≤ i / 10 < 10 ^ Z.of_nat pos)%Z as Hdiv.
      { rewrite Nat2Z.inj_succ, Z.pow_succ_r in Hi by lia.
        split; [apply Z.div_pos; lia|]. apply Z.div_lt_upper_bound; lia. }
      pose proof (Z.mod_pos_bound i 10 ltac:(lia)).
      destruct (IH (i / 10)%Z (String (of_code (48 + i mod 10)) acc) Hdiv)
        as (k & -> & Hk).
      exists k. split; [|done].
      rewrite of_code_digit by lia. by rewrite Z2N.inj_div, Z2N.inj_mod by lia.
    + assert (i = 0)%Z as -> by lia. exists (S (pos + extra)). split; [done|lia].
Qed.

Lemma itoa_loop_20 j :
  (0 < j < 2 ^ 63)%Z → ∃ k, itoa_loop 20 j "" = Some (S k, pretty j).
Proof.
  intros Hj. destruct (itoa_loop_pretty 19 1 j "") as ([|k] & Hk & ?); [lia|lia|].
  exists k. change 20 with (19 + 1). rewrite Hk. f_equal. f_equal.
  destruct j; try lia. cbn [Z.to_N]. unfold pretty at 1, pretty_Z, pretty_positive.
  unfold pretty, pretty_N. by rewrite decide_False.
Qed.

(** [itoa] prints every [int] but the least one in decimal; there the negation
    wraps around, no digit is written, and only the sign comes out. *)
Theorem itoa_decimal i :
  in_int64 i →
  go_itoa i = Some (if decide (i = min_int64) then "-" else itoa i).
Proof.
  unfold in_int64, go_itoa. intros Hi.
  case_decide as Hmin; [by subst|]. unfold min_int64, max_int64 in *.
  destruct (Z.eqb_spec i 0) as [->|]; [done|].
  destruct (Z.ltb_spec i 0).
  - rewrite wrap64_small by (unfold in_int64, min_int64, max_int64; lia).
    destruct (itoa_loop_20 (- i)) as [k ->]; [lia|].
    destruct i; try lia. unfold itoa, pretty, pretty_Z. cbn [Z.opp].
    by rewrite string_app_cons.
  - by destruct (itoa_loop_20 i) as [k ->]; [lia|].
Qed.

Lemma itoa_decimal_witness : in_int64 (-40) ∧ go_itoa (-40) = Some "-40".
Proof.
  split; [unfold in_int64; vm_compute; split; discriminate|].
  exact (itoa_decimal (-40) ltac:(unfold in_int64; vm_compute; split; discriminate)).
Defined.

(** * Transparency

    A script is what the layers above do with the buffered writer: operations on
    it, and flushes in the middle of the response. Without the buffer a flush
    sends the pending headers with status 200. *)
Inductive script_step : Type :=
  | SOp (o : wop)
  | SFlush.

Definition run_script_step {W} `{ResponseWriter W} (bw : bufferedResponseWriter W)
    (st : script_step) : bufferedResponseWriter W :=
  match st with
  | SOp o => do_op bw o
  | SFlush => Flush bw
  end.

Definition direct_op (st : script_step) : wop :=
  match st with
  | SOp o => o
  | SFlush => OWriteHeader 200
  end.

(** What [ServeHTTP] makes of a script: acquire, run, flush. *)
Definition serve_buffered {W} `{ResponseWriter W} (script : list script_step) (w : W) : W :=
  bw_under (flush (foldl run_script_step (acquireBufferedWriter w) script)).

(** The buffered and the direct writer after the same script: before anything
    was flushed, the buffer holds the response the direct writer has sent; from
    then on both have sent the same, up to the Content-Length. *)
Inductive buffered_sim (bw : bufferedResponseWriter RW) (d : RW) : Prop :=
  | Sim_buffering :
      bw_bypassed bw = false → w_sent (bw_under bw) = None → w_body (bw_under bw) = "" →
      w_header (bw_under bw) = w_header d → bw_buf bw = w_body d →
      informational (bw_statusCode bw) = false →
      (if bw_written bw then w_sent d = Some (bw_statusCode bw, w_header d)
       else w_sent d = None ∧ bw_statusCode bw = 200%Z ∧ bw_buf bw = "") →
      buffered_sim bw d
  | Sim_bypassed code hb hd :
      bw_bypassed bw = true → w_sent (bw_under bw) = Some (code, hb) →
      w_sent d = Some (code, hd) → w_body (bw_under bw) = w_body d →
      header_del "Content-Length" hb = header_del "Content-Length" hd →
      buffered_sim bw d.

Definition is_write (o : wop) : Prop :=
  match o with OWriteHeader _ | OWrite _ => True | _ => False end.

(** What [headers_first] leaves of the rest of the operations. *)
Definition headers_left (d : RW) (ops : list wop) : Prop :=
  match w_sent d with Some _ => Forall is_write ops | None => headers_first ops end.

Lemma headers_left_step d o ops :
  final_statuses (o :: ops) → headers_left d (o :: ops) → headers_left (do_op d o) ops.
Proof.
  unfold headers_left. rewrite do_op_RW, Forall_cons. intros [Ho _].
  destruct (w_sent d) as [[]|] eqn:Hd.
  - rewrite Forall_cons. intros [? ?].
    destruct o; cbn; rewrite ?(RW_WriteHeader_sent _ _ _ Hd), ?Hd; done.
  - intros Hf. destruct o; cbn; rewrite ?(RW_WriteHeader_first 200 _ eq_refl Hd),
      ?(RW_WriteHeader_first _ _ Ho Hd); cbn; try done; by rewrite Hd.
Qed.

Lemma set_content_length_RW body w :
  w_sent (set_content_length body w) = w_sent w ∧ w_body (set_content_length body w) = w_body w.
Proof. unfold set_content_length. by destruct (_ <? _)%nat. Qed.

Lemma set_content_length_header body w :
  header_del "Content-Length" (w_header (set_content_length body w)) =
  header_del "Content-Length" (w_header w).
Proof.
  unfold set_content_length. destruct (_ <? _)%nat; [|done]. cbn -[CanonicalHeaderKey].
  unfold header_del, header_set. by rewrite delete_insert_eq.
Qed.

(** Sending the buffer at once. *)
Lemma send_buffered body code w :
  informational code = false → w_sent w = None → w_body w = "" →
  ∃ hb, w_sent (send_body body (RW_WriteHeader code (set_content_length body w))) = Some (code, hb) ∧
    w_body (send_body body (RW_WriteHeader code (set_content_length body w))) = body ∧
    hb = w_header (set_content_length body w).
Proof.
  intros Hc Hs Hb. exists (w_header (set_content_length body w)).
  destruct (set_content_length_RW body w) as [Hs' Hb']. rewrite Hs in Hs'. rewrite Hb in Hb'.
  rewrite (RW_WriteHeader_first _ _ Hc Hs').
  unfold send_body. destruct body as [|a body]; cbn -[set_content_length]; [done|].
  by rewrite Hb', string_app_nil_l.
Qed.

Lemma buffered_sim_op bw d o :
  buffered_sim bw d → op_final o → (is_Some (w_sent d) → is_write o) →
  buffered_sim (do_op bw o) (do_op d o).
Proof.
  intros [Hby Hu Hub Hh Hbuf Hi Hw | code hb hd Hby Hu Hd Hb Hdel] Hf Ho.
  - assert (¬ is_write o → bw_written bw = false ∧ w_sent d = None ∧
              bw_statusCode bw = 200%Z ∧ bw_buf bw = "") as Hno.
    { intros Hn. destruct (bw_written bw); [|done]. destruct Hn. apply Ho. rewrite Hw. eauto. }
    destruct o as [| | | |code|b]; try (
      destruct Hno as (Hwr & Hrest); [by intros []|];
      apply Sim_buffering; cbn; rewrite ?Hwr, ?Hh; done).
    + destruct (bw_written bw) eqn:Hwr; [|destruct Hw as (Hw & Hcode & Hempty)];
        apply Sim_buffering; cbn; rewrite ?Hby, ?Hwr;
        rewrite ?(RW_WriteHeader_sent _ _ _ Hw), ?(RW_WriteHeader_first 200 _ eq_refl Hw),
          ?(RW_WriteHeader_first _ _ Hf Hw); cbn; congruence.
    + destruct (bw_written bw) eqn:Hwr; [|destruct Hw as (Hw & Hcode & Hempty)];
        apply Sim_buffering; cbn; unfold RW_Write; rewrite ?Hby;
        rewrite ?(RW_WriteHeader_sent _ _ _ Hw), ?(RW_WriteHeader_first 200 _ eq_refl Hw),
          ?Hwr; cbn; congruence.
  - apply (Sim_bypassed _ _ code hb hd); destruct o; cbn; rewrite ?Hby; try done;
      unfold RW_Write; rewrite ?(RW_WriteHeader_sent _ _ _ Hu), ?(RW_WriteHeader_sent _ _ _ Hd); cbn;
      congruence.
Qed.

Lemma buffered_sim_flush bw d :
  buffered_sim bw d → buffered_sim (Flush bw) (RW_WriteHeader 200 d).
Proof.
  intros [Hby Hu Hub Hh Hbuf Hi Hw | code hb hd Hby Hu Hd Hb Hdel].
  - unfold Flush. rewrite Hby.
    destruct (send_buffered (bw_buf bw) (bw_statusCode bw) (bw_under bw) Hi Hu Hub)
      as (hb & Hs & Hbody & ->).
    destruct (bw_written bw).
    + rewrite (RW_WriteHeader_sent _ _ _ Hw).
      eapply Sim_bypassed; cbn -[set_content_length]; [done|exact Hs|exact Hw|congruence|].
      by rewrite set_content_length_header, Hh.
    + destruct Hw as (Hd & Hcode & Hempty). rewrite (RW_WriteHeader_first 200 _ eq_refl Hd), <-Hcode.
      eapply Sim_bypassed; cbn -[set_content_length]; [done|exact Hs|done|congruence|].
      by rewrite set_content_length_header, Hh.
  - unfold Flush. rewrite Hby, (RW_WriteHeader_sent _ _ _ Hd). by eapply Sim_bypassed.
Qed.

Lemma buffered_sim_script script bw d :
  buffered_sim bw d → final_statuses (map direct_op script) → headers_left d (map direct_op script) →
  buffered_sim (foldl run_script_step bw script) (run_ops (map direct_op script) d).
Proof.
  revert bw d. induction script as [|st script IH]; intros bw d Hsim Hfin Hleft; [done|].
  cbn [map foldl] in *. rewrite run_ops_cons.
  pose proof Hfin as [Hst Hfin']%Forall_cons.
  apply IH; [|done|by apply headers_left_step].
  destruct st as [o|]; [|by apply buffered_sim_flush].
  apply buffered_sim_op; [done|done|]. intros [x Hx].
  unfold headers_left in Hleft. rewrite Hx in Hleft. by inversion Hleft.
Qed.


Definition sample_script : list script_step :=
  [SOp (HSet "Content-Type" "text/plain"); SOp (OWriteHeader 201); SOp (OWrite "a"); SFlush;
   SOp (OWrite "bc")].


(** The condition on the statuses is needed: the buffer takes an informational
    status for the one of the response, which [net/http] does not. *)
Example early_hints_taken_for_status :
  let script := [SOp (OWriteHeader 103); SOp (OWriteHeader 201); SOp (OWrite "a")] in
  final_status (run_ops (map direct_op script) (new_RW ∅)) = 201%Z ∧
  final_status (serve_buffered script (new_RW ∅)) = 200%Z.
Proof. done. Qed.

(** Without a flush in the middle, the response carries the length of its body. *)
Theorem buffered_content_length ops h :
  ops_body ops ≠ "" → (Z.of_nat (String.length (ops_body ops)) ≤ max_int64)%Z →
  header_get "Content-Length" (final_header (serve_buffered (map SOp ops) (new_RW h))) =
    itoa (Z.of_nat (String.length (ops_body ops))).
Proof.
  intros Hne Hlen. unfold serve_buffered.
  assert (∀ bw : bufferedResponseWriter RW,
    bw_bypassed bw = false → w_sent (bw_under bw) = None →
    let bw' := foldl run_script_step bw (map SOp ops) in
    bw_bypassed bw' = false ∧ w_sent (bw_under bw') = None ∧
    bw_buf bw' = bw_buf bw +:+ ops_body ops) as Hinv.
  { clear. induction ops as [|o ops IH]; intros bw Hby Hs; cbn zeta in *.
    { cbn. by rewrite string_app_nil_r. }
    cbn [map foldl]. destruct (IH (run_script_step bw (SOp o))) as (-> & -> & ->);
      destruct o; cbn; rewrite ?Hby, ?string_app_assoc; done. }
  destruct (Hinv (acquireBufferedWriter (new_RW h)) eq_refl eq_refl) as (Hby & Hs & Hbuf).
  revert Hby Hs Hbuf.
  generalize (foldl run_script_step (acquireBufferedWriter (new_RW h)) (map SOp ops)) as bw.
  intros bw Hby Hs Hbuf. rewrite string_app_nil_l in Hbuf.
  unfold flush, final_header, send_body, set_content_length. rewrite Hby, Hbuf.
  destruct (ops_body ops) as [|a s]; [done|].
  cbn -[header_set header_get go_itoa Z.of_nat]. unfold RW_WriteHeader.
  cbn -[header_set header_get go_itoa Z.of_nat]. rewrite Hs.
  destruct (informational (bw_statusCode bw)); cbn -[header_set header_get go_itoa Z.of_nat];
    change (informational 200) with false; rewrite ?Hs; cbn -[header_set header_get go_itoa Z.of_nat].
  all: rewrite header_get_set, itoa_decimal
         by (unfold in_int64, min_int64; cbn [String.length] in *; lia).
  all: by rewrite decide_False by (unfold min_int64; lia).
Qed.

Lemma buffered_content_length_witness :
  header_get "Content-Length"
    (final_header (serve_buffered (map SOp [OWriteHeader 200; OWrite "hello"]) (new_RW ∅))) = "5".
Proof. apply (buffered_content_length [OWriteHeader 200; OWrite "hello"] ∅); vm_decide. Defined.

(** [Bypass] on an empty buffer forgets a status recorded before it: the first
    direct write then implies 200. *)
Example Bypass_drops_status :
  let bw := Bypass (bw_WriteHeader 206 (acquireBufferedWriter (new_RW ∅))) in
  bw_statusCode bw = 206%Z ∧ final_status (bw_under (flush (bw_Write "data" bw))) = 200%Z.
Proof. done. Qed.
