(* ===== verification/Pattern.v ===== *)
(** Direct route patterns (dispatch.go) and the path parameters they bind on
    the request context (context.go). A compiled pattern is matched against the
    request path byte by byte; here the matcher is refined against a
    declarative relation on the segments of the path. *)
From S2P Require Import Prelude GoStrings.

(** * The code *)

Record directPatternPart : Type := Part {
  literal : string;
  name : string;
  catchAll : bool;
}.

Record directPattern : Type := Pat { parts : list directPatternPart }.

Definition is_empty (s : string) : bool := String.eqb s "".

(** [seg[1 : len(seg)-1]] when [len(seg) >= 2 && seg[0] == '{' &&
    seg[len(seg)-1] == '}']. *)
Definition braced (seg : string) : option string :=
  match seg with
  | String a r =>
      if Ascii.eqb a "{" && negb (is_empty r) && has_suffix r "}"
      then Some (trim_suffix r "}") else None
  | EmptyString => None
  end.

Definition compile_segment (seg : string) : directPatternPart :=
  match braced seg with
  | Some nm =>
      if has_suffix nm "..."
      then Part "" (trim_suffix nm "...") true
      else Part "" nm false
  | None => Part seg "" false
  end.

Definition compileDirectPattern (pattern : string) : directPattern :=
  let trimmed := trim "/" pattern in
  if is_empty trimmed then Pat []
  else Pat (map compile_segment (split_byte "/" trimmed)).

Definition decodePathValue (seg : string) : string :=
  if contains_byte "%" seg then
    match path_unescape seg with
    | None => seg
    | Some decoded => decoded
    end
  else seg.

(** [names] and [values] are [16]string arrays filled up to [n]: a binding at
    index 16 is an index-out-of-range panic. *)
Definition max_params : nat := 16.

Inductive match_result : Type :=
  | NoMatch
  | Match (bindings : list (string * string))
  | IndexPanic.

(** The bindings with one more, [None] when the arrays are full. *)
Definition bind_param (bs : list (string * string)) (nm v : string)
    : option (list (string * string)) :=
  if (length bs <? max_params)%nat then Some (bs ++ [(nm, v)]) else None.

(** The next segment of a non-empty path and what follows its slash. *)
Definition next_segment (path : string) : string * string :=
  match cut_byte "/" path with
  | Some (seg, rest) => (seg, rest)
  | None => (path, "")
  end.

Definition skip_slash (path : string) : string :=
  match path with
  | String "/" path' => path'
  | _ => path
  end.

Fixpoint match_parts (ps : list directPatternPart) (path : string)
    (bs : list (string * string)) : match_result :=
  match ps with
  | [] => if is_empty path then Match bs else NoMatch
  | p :: ps' =>
      if catchAll p then
        if is_empty (name p) then Match bs
        else match bind_param bs (name p) (decodePathValue path) with
             | None => IndexPanic
             | Some bs' => Match bs'
             end
      else if is_empty path then NoMatch
      else
        let '(seg, path') := next_segment path in
        if negb (is_empty (name p)) then
          match bind_param bs (name p) (decodePathValue seg) with
          | None => IndexPanic
          | Some bs' => match_parts ps' path' bs'
          end
        else if String.eqb (literal p) seg then match_parts ps' path' bs
        else NoMatch
  end.

(** The path parameters a [Context] holds: the first [pathParamCount] entries of
    its arrays, whether they were copied onto the request, and the values set
    on the request itself ([http.Request.SetPathValue]). *)
Record PathParams : Type := {
  pathParams : list (string * string);
  pathParamsApplied : bool;
  requestValues : gmap string string;
}.

Definition set_path_values (l : list (string * string)) (m : gmap string string)
    : gmap string string := foldl (λ m p, <[p.1 := p.2]> m) m l.

Definition materializePathParams (c : PathParams) : PathParams :=
  if pathParamsApplied c || (length (pathParams c) =? 0)%nat then c
  else {| pathParams := pathParams c; pathParamsApplied := true;
          requestValues := set_path_values (pathParams c) (requestValues c) |}.

Definition setDirectPathParam (nm v : string) (c : PathParams) : PathParams :=
  if (length (pathParams c) <? max_params)%nat then
    {| pathParams := pathParams c ++ [(nm, v)];
       pathParamsApplied := pathParamsApplied c;
       requestValues := requestValues c |}
  else
    let c' := materializePathParams c in
    {| pathParams := pathParams c'; pathParamsApplied := pathParamsApplied c';
       requestValues := <[nm := v]> (requestValues c') |}.

Definition Param (nm : string) (c : PathParams) : string :=
  match find_first (λ p, String.eqb p.1 nm) (pathParams c) with
  | Some p => p.2
  | None => default "" (requestValues c !! nm)
  end.

Definition commit_params (bs : list (string * string)) (c : PathParams) : PathParams :=
  foldl (λ c b, setDirectPathParam b.1 b.2 c) c bs.

(** [directPattern.match]; [None] for an index panic. The context is [None] when
    the caller passes nil. *)
Definition direct_match (p : directPattern) (path : string) (c : option PathParams)
    : option (bool * option PathParams) :=
  match match_parts (parts p) (skip_slash path) [] with
  | NoMatch => Some (false, c)
  | Match bs => Some (true, commit_params bs <$> c)
  | IndexPanic => None
  end.

(** The leading "METHOD " of a mux pattern is dropped. *)
Definition stripMethodPattern (p : string) : string :=
  match p with
  | EmptyString => ""
  | String a _ =>
      match cut_byte " " p with
      | Some (_, rest) => if negb (is_empty rest) && is_upper a then rest else p
      | None => p
      end
  end.

(** ** Trailing-slash redirects (dispatch.go) *)

Record RedirectTable : Type := {
  redirectSlashExact : gset string;
  redirectSlashDynamic : list directPattern;
}.

(** The other spelling of a path. *)
Definition altPath (path : string) : string :=
  if has_suffix path "/" then trim_suffix path "/" else path +:+ "/".

(** The loop over the dynamic patterns; [None] for an index panic. *)
Fixpoint any_match (l : list directPattern) (path : string) : option bool :=
  match l with
  | [] => Some false
  | p :: l' =>
      match direct_match p path None with
      | Some (true, _) => Some true
      | Some (false, _) => any_match l' path
      | None => None
      end
  end.

Definition shouldRedirectTrailingSlash (t : RedirectTable) (path : string) : option bool :=
  if decide (altPath path ∈ redirectSlashExact t) then Some true
  else any_match (redirectSlashDynamic t) (altPath path).

(** ** The reference matcher [matchesPattern] *)

Definition matchPatternPart (pattern path : string) : bool :=
  String.eqb pattern path || (has_prefix pattern "{" && has_suffix pattern "}").

(** The parts of [pp] against the first parts of [qq]; [None] when [qq] is
    shorter (an index out of range in the code). *)
Fixpoint match_prefix (pp qq : list string) : option bool :=
  match pp, qq with
  | [], _ => Some true
  | _ :: _, [] => None
  | p :: pp', q :: qq' =>
      if matchPatternPart p q then match_prefix pp' qq' else Some false
  end.

Definition matchesPattern (pattern path : string) : option bool :=
  if String.eqb pattern path then Some true
  else
    let pp := split_byte "/" pattern in
    let qq := split_byte "/" path in
    if negb (length pp =? length qq)%nat then
      if (0 <? length pp)%nat && has_suffix (default "" (last pp)) "...}" then
        if (length pp - 1 <=? length qq)%nat
        then match_prefix (take (length pp - 1) pp) qq
        else Some false
      else Some false
    else match_prefix pp qq.

(** * Specification *)

(** The first segment of a path and the remainder after its slash. *)
Inductive SplitSeg : string → string → string → Prop :=
  | split_last seg :
      seg ≠ "" → contains_byte "/" seg = false → SplitSeg seg seg ""
  | split_more seg rest :
      contains_byte "/" seg = false → SplitSeg (seg +:+ String "/" rest) seg rest.

Definition part_accepts (p : directPatternPart) (seg : string) : Prop :=
  name p ≠ "" ∨ literal p = seg.

Definition part_binds (p : directPatternPart) (v : string) : list (string * string) :=
  if is_empty (name p) then [] else [(name p, decodePathValue v)].

(** [Matches ps path bs]: the pattern [ps] accepts [path] (its leading slash
    removed), binding [bs]. *)
Inductive Matches : list directPatternPart → string → list (string * string) → Prop :=
  | matches_end : Matches [] "" []
  | matches_all p ps path :
      catchAll p = true → Matches (p :: ps) path (part_binds p path)
  | matches_seg p ps path seg rest bs :
      catchAll p = false → SplitSeg path seg rest → part_accepts p seg →
      Matches ps rest bs → Matches (p :: ps) path (part_binds p seg ++ bs).

Definition named (ps : list directPatternPart) : nat :=
  length (filter (λ p, is_empty (name p) = false) ps).

(** * Proofs *)

Lemma is_empty_spec s : reflect (s = "") (is_empty s).
Proof. unfold is_empty. apply String.eqb_spec. Qed.

Lemma is_empty_true s : is_empty s = true ↔ s = "".
Proof. by destruct (is_empty_spec s). Qed.

Lemma is_empty_false s : is_empty s = false ↔ s ≠ "".
Proof. by destruct (is_empty_spec s). Qed.

Lemma next_segment_spec path seg rest :
  path ≠ "" → next_segment path = (seg, rest) ↔ SplitSeg path seg rest.
Proof.
  intros Hne. unfold next_segment. destruct (cut_byte "/" path) as [[a b]|] eqn:Hc.
  - apply cut_byte_Some in Hc as [-> Ha]. split.
    + intros [= <- <-]. by constructor.
    + inversion 1 as [? ? Hs|? ? Hs Heq]; subst.
      * by rewrite contains_byte_app, contains_byte_cons, orb_true_r in Hs.
      * assert (cut_byte "/" (seg +:+ String "/" rest) = Some (a, b)) as Hcut.
        { rewrite Heq. by apply cut_byte_app. }
        rewrite cut_byte_app in Hcut by done. by simplify_eq.
  - apply cut_byte_None in Hc. split.
    + intros [= <- <-]. by constructor.
    + inversion 1; subst; [done|].
      by rewrite contains_byte_app, contains_byte_cons, orb_true_r in Hc.
Qed.

Lemma SplitSeg_nonempty path seg rest : SplitSeg path seg rest → path ≠ "".
Proof. inversion 1; subst; [done|]. by destruct seg. Qed.

Lemma named_cons p ps :
  named (p :: ps) = (if is_empty (name p) then 0 else 1) + named ps.
Proof. unfold named. rewrite filter_cons. by destruct (is_empty (name p)). Qed.

Lemma bind_param_room bs nm v :
  length bs < max_params → bind_param bs nm v = Some (bs ++ [(nm, v)]).
Proof. intros Hl. unfold bind_param. by apply Nat.ltb_lt in Hl as ->. Qed.

Lemma match_parts_sound ps path acc bs :
  match_parts ps path acc = Match bs →
  ∃ bs', bs = acc ++ bs' ∧ Matches ps path bs'.
Proof.
  revert path acc. induction ps as [|p ps IH]; intros path acc; cbn.
  { destruct (is_empty_spec path) as [->|]; [|done]. intros [= <-].
    exists []. rewrite app_nil_r. split; [done|constructor]. }
  destruct (catchAll p) eqn:Hall.
  { intros Hm. exists (part_binds p path). split; [|by constructor].
    unfold part_binds, bind_param in *. destruct (is_empty (name p)).
    - rewrite app_nil_r. congruence.
    - destruct (_ <? _)%nat; congruence. }
  destruct (is_empty_spec path) as [|Hne]; [done|].
  destruct (next_segment path) as [seg rest] eqn:Hseg.
  apply (next_segment_spec _ _ _ Hne) in Hseg.
  destruct (is_empty (name p)) eqn:Hn; cbn.
  - destruct (String.eqb_spec (literal p) seg) as [Hl|]; [|done].
    intros (bs' & -> & Hbs)%IH. exists bs'. split; [done|].
    assert (part_binds p seg = []) as Hb by (unfold part_binds; by rewrite Hn).
    change bs' with ([] ++ bs'). rewrite <-Hb. econstructor; eauto. by right.
  - unfold bind_param. destruct (_ <? _)%nat; [|done].
    intros (bs' & -> & Hbs)%IH. exists (part_binds p seg ++ bs'). split.
    + unfold part_binds. rewrite Hn, <-app_assoc. done.
    + econstructor; eauto. left. by apply is_empty_false.
Qed.

Lemma match_parts_complete ps path acc bs :
  length acc + named ps ≤ max_params →
  Matches ps path bs → match_parts ps path acc = Match (acc ++ bs).
Proof.
  intros Hroom Hm. revert acc Hroom.
  induction Hm as [|p ps path Hall|p ps path seg rest bs Hall Hseg Hacc Hm IH];
    intros acc; rewrite ?named_cons; intros Hroom; cbn.
  - by rewrite app_nil_r.
  - rewrite Hall. unfold part_binds. destruct (is_empty (name p)) eqn:Hn.
    + by rewrite app_nil_r.
    + rewrite bind_param_room; [done|lia].
  - rewrite Hall. pose proof (SplitSeg_nonempty _ _ _ Hseg) as Hne.
    apply (next_segment_spec _ _ _ Hne) in Hseg as ->.
    apply is_empty_false in Hne as ->.
    destruct Hacc as [Hn%is_empty_false|Hl]; unfold part_binds.
    + rewrite Hn in *. cbn. rewrite bind_param_room by lia.
      rewrite IH by (rewrite length_app; cbn; lia). by rewrite <-app_assoc.
    + destruct (is_empty (name p)) eqn:Hn; cbn.
      * rewrite Hl, String.eqb_refl. apply IH. lia.
      * rewrite bind_param_room by lia.
        rewrite IH by (rewrite length_app; cbn; lia). by rewrite <-app_assoc.
Qed.

Lemma match_parts_no_panic ps path acc :
  length acc + named ps ≤ max_params → match_parts ps path acc ≠ IndexPanic.
Proof.
  revert path acc. induction ps as [|p ps IH]; intros path acc.
  { cbn. by case_match. }
  rewrite named_cons. intros Hroom. cbn.
  destruct (is_empty (name p)) eqn:Hn; cbn.
  - case_match; [done|]. case_match; [done|].
    destruct (next_segment path). case_match; [|done]. apply IH. lia.
  - rewrite !bind_param_room by lia. case_match; [done|]. case_match; [done|].
    destruct (next_segment path). rewrite bind_param_room by lia.
    apply IH. rewrite length_app. cbn. lia.
Qed.

(** ** The matcher decides the relation *)

Lemma direct_match_cases p path c :
  named (parts p) ≤ max_params →
  match direct_match p path c with
  | Some (true, c') =>
      ∃ bs, Matches (parts p) (skip_slash path) bs ∧ c' = commit_params bs <$> c
  | Some (false, c') => c' = c ∧ ∀ bs, ¬ Matches (parts p) (skip_slash path) bs
  | None => False
  end.
Proof.
  intros Hroom. unfold direct_match.
  pose proof (match_parts_no_panic (parts p) (skip_slash path) [] Hroom).
  destruct (match_parts _ _ _) as [|bs|] eqn:Hm; [|..|done].
  - split; [done|]. intros bs Hbs.
    by rewrite (match_parts_complete _ _ [] bs Hroom Hbs) in Hm.
  - apply match_parts_sound in Hm as (bs' & -> & Hbs). eauto.
Qed.

Lemma Matches_det ps path bs bs' :
  named ps ≤ max_params → Matches ps path bs → Matches ps path bs' → bs = bs'.
Proof.
  intros Hroom H1 H2.
  apply (match_parts_complete ps path [] _ Hroom) in H1, H2.
  rewrite H1 in H2. by injection H2.
Qed.

(** [C3] A match commits exactly the bindings of the relation, a failure leaves the
    context alone, and a pattern of at most sixteen parameters never panics. *)
Theorem direct_match_refines p path c :
  named (parts p) ≤ max_params →
  direct_match p path c ≠ None ∧
  (direct_match p path c = Some (false, c) ∧
     (∀ bs, ¬ Matches (parts p) (skip_slash path) bs) ∨
   ∃ bs, direct_match p path c = Some (true, commit_params bs <$> c) ∧
     Matches (parts p) (skip_slash path) bs ∧
     ∀ bs', Matches (parts p) (skip_slash path) bs' → bs' = bs).
Proof.
  intros Hroom. pose proof (direct_match_cases p path c Hroom) as Hcases.
  destruct (direct_match p path c) as [[[] c']|]; [..|done]; (split; [done|]).
  - destruct Hcases as (bs & Hbs & ->). right. exists bs. split_and!; [done..|].
    intros bs' Hbs'. by eapply Matches_det.
  - destruct Hcases as [-> ?]. by left.
Qed.

Lemma Matches_length ps path bs : Matches ps path bs → length bs ≤ named ps.
Proof.
  assert (∀ p v, length (part_binds p v) = if is_empty (name p) then 0 else 1) as Hb.
  { intros p v. unfold part_binds. by destruct (is_empty (name p)). }
  induction 1; rewrite ?length_app, ?named_cons, ?Hb; cbn; lia.
Qed.

Lemma commit_params_room bs c :
  length (pathParams c) + length bs ≤ max_params →
  commit_params bs c =
    {| pathParams := pathParams c ++ bs; pathParamsApplied := pathParamsApplied c;
       requestValues := requestValues c |}.
Proof.
  revert c. induction bs as [|[n v] bs IH]; intros c Hroom; cbn in Hroom.
  - cbn. rewrite app_nil_r. by destruct c.
  - change (commit_params ((n, v) :: bs) c)
      with (commit_params bs (setDirectPathParam n v c)).
    unfold setDirectPathParam. destruct (Nat.ltb_spec (length (pathParams c)) max_params); [|lia].
    rewrite IH; cbn; rewrite ?length_app; cbn; [|lia]. by rewrite <-app_assoc.
Qed.

(** ** Printing and parsing patterns, rendering and matching paths *)

(** The source text of a part. *)
Definition part_text (p : directPatternPart) : string :=
  if is_empty (name p) then literal p
  else String "{" (name p +:+ (if catchAll p then "...}" else "}")).

Definition wf_part (p : directPatternPart) : Prop :=
  (name p = "" ∧ catchAll p = false ∧ literal p ≠ "" ∧
     contains_byte "/" (literal p) = false ∧ braced (literal p) = None) ∨
  (name p ≠ "" ∧ literal p = "" ∧ contains_byte "/" (name p) = false ∧
     (catchAll p = false → has_suffix (name p) "..." = false)).

(** Only the last part may be a catch-all. *)
Fixpoint catch_last (ps : list directPatternPart) : Prop :=
  match ps with
  | [] | [_] => True
  | p :: ps' => catchAll p = false ∧ catch_last ps'
  end.

Lemma braced_text nm : braced (String "{" (nm +:+ "}")) = Some nm.
Proof.
  unfold braced. rewrite has_suffix_app, trim_suffix_app.
  assert (is_empty (nm +:+ "}") = false) as -> by (by destruct nm). done.
Qed.

Lemma compile_segment_text p : wf_part p → compile_segment (part_text p) = p.
Proof.
  destruct p as [l n c]. unfold compile_segment, part_text, wf_part.
  cbn [name literal catchAll].
  intros [(-> & -> & Hl & _ & Hb)|(Hn & -> & _ & Hs)].
  { change (is_empty "") with true. cbv iota. by rewrite Hb. }
  apply is_empty_false in Hn as ->. destruct c.
  - change "...}" with ("..." +:+ "}").
    by rewrite <-string_app_assoc, braced_text, has_suffix_app, trim_suffix_app.
  - by rewrite braced_text, Hs.
Qed.

Lemma part_text_clean p :
  wf_part p → part_text p ≠ "" ∧ contains_byte "/" (part_text p) = false.
Proof.
  unfold part_text. intros [(Hn & _ & Hl & Hc & _)|(Hn & _ & Hc & _)].
  - by apply is_empty_true in Hn as ->.
  - apply is_empty_false in Hn as ->. split; [done|].
    rewrite contains_byte_cons, contains_byte_app, Hc. by destruct (catchAll p).
Qed.

(** Compiling the text of a well-formed pattern gives its parts back. *)
Theorem compile_print ps :
  ps ≠ [] → Forall wf_part ps →
  compileDirectPattern (String "/" (join "/" (map part_text ps))) = Pat ps.
Proof.
  intros Hne Hwf. unfold compileDirectPattern.
  assert (map part_text ps ≠ []) as Hne' by (by destruct ps).
  assert (Forall (λ s, s ≠ "" ∧ contains_byte "/" s = false) (map part_text ps)) as Hcl.
  { apply Forall_fmap. eapply Forall_impl; [done|]. apply part_text_clean. }
  assert (Forall (λ s, contains_byte "/" s = false) (map part_text ps)) as Hcl'.
  { eapply Forall_impl; [done|]. by intros ? []. }
  rewrite trim_join, split_join by done.
  assert (is_empty (join "/" (map part_text ps)) = false) as ->.
  { apply is_empty_false. destruct (map part_text ps) as [|x l]; [done|].
    apply Forall_cons in Hcl as [[Hx _] _].
    destruct (join_cons_head "/" x l) as [u ->]. by destruct x. }
  f_equal. rewrite map_map. clear -Hwf. induction Hwf as [|p ps Hp Hps IH]; [done|]. cbn.
  by rewrite compile_segment_text, IH.
Qed.

(** The segment a part stands for when its wildcard has value [v]. *)
Definition render_part (p : directPatternPart) (v : string) : string :=
  if is_empty (name p) then literal p else v.

Definition render (ps : list directPatternPart) (vs : list string) : string :=
  join "/" (zip_with render_part ps vs).

(** Values a wildcard can take in a path: a percent-free segment, or for a
    catch-all any percent-free remainder. *)
Definition ok_value (p : directPatternPart) (v : string) : Prop :=
  name p ≠ "" → contains_byte "%" v = false ∧
    (catchAll p = false → v ≠ "" ∧ contains_byte "/" v = false).

Definition plain_binds (ps : list directPatternPart) (vs : list string)
    : list (string * string) :=
  concat (zip_with (λ p v, if is_empty (name p) then [] else [(name p, v)]) ps vs).

Lemma decodePathValue_plain v : contains_byte "%" v = false → decodePathValue v = v.
Proof. unfold decodePathValue. by intros ->. Qed.

Lemma part_binds_plain p v :
  ok_value p v →
  part_binds p (render_part p v) = if is_empty (name p) then [] else [(name p, v)].
Proof.
  unfold part_binds, render_part, ok_value. rewrite <-is_empty_false.
  destruct (is_empty (name p)); [done|]. intros [Hv _]; [done|].
  by rewrite decodePathValue_plain.
Qed.

Lemma render_part_seg p v :
  wf_part p → ok_value p v → catchAll p = false →
  render_part p v ≠ "" ∧ contains_byte "/" (render_part p v) = false ∧
  part_accepts p (render_part p v).
Proof.
  unfold render_part, part_accepts, ok_value.
  intros [(Hn & _ & Hl & Hc & _)|(Hn & _ & _ & _)] Hv Hall.
  - apply is_empty_true in Hn as ->. auto.
  - destruct (Hv Hn) as [_ [? ?]]; [done|].
    apply is_empty_false in Hn as Hn'. rewrite Hn'. auto.
Qed.

Lemma Matches_render ps vs :
  Forall wf_part ps → catch_last ps → Forall2 ok_value ps vs →
  Matches ps (render ps vs) (plain_binds ps vs).
Proof.
  intros Hwf Hlast Hvs. revert Hwf Hlast.
  induction Hvs as [|p v ps vs Hv Hvs IH]; [constructor|].
  intros [Hp Hwf]%Forall_cons Hlast. unfold render, plain_binds.
  cbn [zip_with concat]. rewrite <-(part_binds_plain p v Hv).
  destruct ps as [|p2 ps].
  - inversion Hvs; subst. cbn. rewrite app_nil_r.
    destruct (catchAll p) eqn:Hall; [by constructor|].
    destruct (render_part_seg p v) as (Hne & Hc & Hacc); [done..|].
    rewrite <-(app_nil_r (part_binds _ _)). econstructor; [done|by constructor|done|].
    constructor.
  - destruct Hlast as [Hall Hlast]. destruct vs as [|v2 vs]; [by inversion Hvs|].
    destruct (render_part_seg p v) as (Hne & Hc & Hacc); [done..|].
    change (join "/" (_ :: zip_with _ _ _))
      with (render_part p v +:+ String "/" (render (p2 :: ps) (v2 :: vs))).
    econstructor; [done|by constructor|done|]. by apply IH.
Qed.

Lemma skip_slash_cons path : skip_slash (String "/" path) = path.
Proof. done. Qed.

Lemma find_first_NoDup (l : list (string * string)) n v :
  NoDup l.*1 → (n, v) ∈ l → find_first (λ p, String.eqb p.1 n) l = Some (n, v).
Proof.
  induction l as [|[a b] l IH]; [by intros _ ?%elem_of_nil|].
  intros [Hnot Hnd]%NoDup_cons Hin. cbn. destruct (String.eqb_spec a n) as [->|Hne].
  - apply elem_of_cons in Hin as [[= ->]|Hin]; [done|].
    destruct Hnot. apply list_elem_of_fmap. by exists (n, v).
  - apply elem_of_cons in Hin as [[= -> ->]|Hin]; [done|]. by apply IH.
Qed.

(** The names a pattern binds, in order. *)
Definition names (ps : list directPatternPart) : list string :=
  name <$> filter (λ p, is_empty (name p) = false) ps.

Lemma plain_binds_names ps vs :
  length ps = length vs → (plain_binds ps vs).*1 = names ps.
Proof.
  unfold plain_binds, names. revert vs.
  induction ps as [|p ps IH]; intros [|v vs] Hlen; try done.
  cbn [zip_with concat]. rewrite fmap_app, IH by (by injection Hlen).
  rewrite filter_cons.
  by destruct (is_empty (name p)).
Qed.

Lemma plain_binds_lookup ps vs i p v :
  ps !! i = Some p → vs !! i = Some v → name p ≠ "" →
  (name p, v) ∈ plain_binds ps vs.
Proof.
  intros Hp Hv Hn. apply list_elem_of_In, in_concat. exists [(name p, v)].
  split; [|by left]. apply list_elem_of_In.
  apply (list_elem_of_lookup_2 _ i). rewrite lookup_zip_with, Hp. cbn. rewrite Hv. cbn.
  by apply is_empty_false in Hn as ->.
Qed.

Lemma Param_bound c n v :
  NoDup (pathParams c).*1 → (n, v) ∈ pathParams c → Param n c = v.
Proof. intros Hnd Hin. unfold Param. by rewrite (find_first_NoDup _ _ _ Hnd Hin). Qed.

(** The context [reset] leaves for a new request. *)
Definition fresh_params : PathParams := {|
  pathParams := []; pathParamsApplied := false; requestValues := ∅ |}.

(** [C1] Round trip: a path rendered from a registered pattern with at most 16 wildcards of distinct
    names, and from values without a percent sign that their places can hold, is matched by the
    compiled pattern, and [Param] reads each value back. *)
Theorem route_roundtrip ps vs :
  ps ≠ [] → Forall wf_part ps → catch_last ps → NoDup (names ps) →
  named ps ≤ max_params → Forall2 ok_value ps vs →
  ∃ c, direct_match (compileDirectPattern (String "/" (join "/" (map part_text ps))))
         (String "/" (render ps vs)) (Some fresh_params) = Some (true, Some c) ∧
    ∀ i p v, ps !! i = Some p → vs !! i = Some v → name p ≠ "" → Param (name p) c = v.
Proof.
  intros Hne Hwf Hlast Hnd Hroom Hvs.
  rewrite compile_print by done. unfold direct_match. cbn [parts].
  rewrite skip_slash_cons, (match_parts_complete _ _ [] (plain_binds ps vs));
    [|done|by apply Matches_render].
  eexists. split; [done|]. intros i p v Hp Hv Hn.
  pose proof (Matches_length _ _ _ (Matches_render ps vs Hwf Hlast Hvs)).
  rewrite app_nil_l, commit_params_room by (cbn; lia).
  apply Param_bound; cbn; [|by eapply plain_binds_lookup].
  rewrite plain_binds_names by (by eapply Forall2_length). done.
Qed.

(** Copying the parameters onto the request does not change what [Param]
    answers, and the request then answers the same. *)
Lemma set_path_values_lookup l m n v :
  NoDup l.*1 → (n, v) ∈ l → set_path_values l m !! n = Some v.
Proof.
  unfold set_path_values. induction l as [|[a b] l IH] using rev_ind; [by intros _ ?%elem_of_nil|].
  rewrite fmap_app, foldl_app. cbn. intros [Hnd [Hdisj _]]%NoDup_app Hin.
  apply elem_of_app in Hin as [Hin|Hin].
  - rewrite lookup_insert_ne; [by apply IH|]. intros ->.
    destruct (Hdisj n); [apply list_elem_of_fmap; by exists (n, v)|].
    by apply list_elem_of_singleton.
  - apply list_elem_of_singleton in Hin as [= -> ->]. apply lookup_insert_eq.
Qed.

Lemma Param_unbound c n : n ∉ (pathParams c).*1 → Param n c = default "" (requestValues c !! n).
Proof.
  intros Hn. unfold Param.
  destruct (find_first _ _) as [p|] eqn:Hf; [|done].
  apply find_first_Some in Hf as (l1 & l2 & Heq & Hp%String.eqb_eq & _).
  destruct Hn. rewrite Heq, fmap_app, <-Hp. set_solver.
Qed.

(** Materializing copies every bound parameter onto the request: [Param] is
    unchanged, and the request's own [PathValue] now answers the same for every
    bound name. *)
Theorem materialize_agrees c :
  NoDup (pathParams c).*1 → pathParamsApplied c = false →
  let c' := materializePathParams c in
  (∀ n, n ∈ (pathParams c).*1 → Param n c' = Param n c ∧
        requestValues c' !! n = Some (Param n c)) ∧
  pathParams c' = pathParams c ∧ materializePathParams c' = c'.
Proof.
  intros Hnd Happ. cbn zeta. unfold materializePathParams. rewrite Happ. cbn.
  destruct (pathParams c) as [|b bs] eqn:Hps.
  { split; [by intros n ?%elem_of_nil|]. cbn. by rewrite Happ, Hps. }
  cbn [length Nat.eqb pathParamsApplied pathParams requestValues]. rewrite <-Hps in *. split; [|by rewrite Hps].
  intros n [[n' v] [-> Hin]]%list_elem_of_fmap. cbn.
  rewrite !(Param_bound _ n' v) by (cbn; done). split; [done|].
  by apply set_path_values_lookup.
Qed.

(** ** Trailing slashes *)

(** The matcher accepts a trailing slash after whatever it accepts. *)
Lemma Matches_trailing_slash ps path bs :
  Matches ps path bs → path ≠ "" → has_suffix path "/" = false →
  ∃ bs', Matches ps (path +:+ "/") bs'.
Proof.
  induction 1 as [|p ps path Hall|p ps path seg rest bs Hall Hseg Hacc Hm IH];
    intros Hne Hs; [done|eexists; by constructor|].
  inversion Hseg as [? ? Hc|? ? Hc]; subst.
  - exists (part_binds p seg ++ bs). econstructor; [done|by constructor|done|done].
  - assert (rest ≠ "") as Hr.
    { intros ->. by rewrite has_suffix_app in Hs. }
    destruct IH as [bs' Hbs']; [done| |].
    { apply not_true_is_false. intros [u ->]%has_suffix_spec.
      apply not_true_iff_false in Hs as []. apply has_suffix_spec.
      exists (seg +:+ String "/" u). by rewrite string_app_assoc, string_app_cons. }
    exists (part_binds p seg ++ bs'). econstructor; [done| |done|done].
    rewrite string_app_assoc, string_app_cons. by constructor.
Qed.

Lemma any_match_true l path p bs :
  Forall (λ p, named (parts p) ≤ max_params) l → p ∈ l →
  Matches (parts p) (skip_slash path) bs → any_match l path = Some true.
Proof.
  induction l as [|q l IH]; [by intros _ ?%elem_of_nil|].
  intros [Hq Hl]%Forall_cons Hin Hm. cbn.
  pose proof (direct_match_cases q path None Hq) as Hspec.
  destruct (direct_match q path None) as [[[] c']|]; [done|..|done].
  destruct Hspec as [_ Hno]. apply elem_of_cons in Hin as [<-|Hin]; [by destruct (Hno bs)|].
  by apply IH.
Qed.

Lemma altPath_slash path : has_suffix path "/" = false → altPath path = path +:+ "/".
Proof. unfold altPath. by intros ->. Qed.

Lemma altPath_trim path : altPath (path +:+ "/") = path.
Proof. unfold altPath. by rewrite has_suffix_app, trim_suffix_app. Qed.

(** With the trailing-slash redirect enabled, a path served by a dynamic route
    is redirected to its other spelling, which is redirected back. *)
Theorem redirect_loop t p path bs :
  Forall (λ p, named (parts p) ≤ max_params) (redirectSlashDynamic t) →
  p ∈ redirectSlashDynamic t → Matches (parts p) path bs →
  path ≠ "" → has_suffix path "/" = false →
  shouldRedirectTrailingSlash t (String "/" path) = Some true ∧
  shouldRedirectTrailingSlash t (altPath (String "/" path)) = Some true ∧
  altPath (altPath (String "/" path)) = String "/" path.
Proof.
  intros Hroom Hin Hm Hne Hs.
  assert (has_suffix (String "/" path) "/" = false) as Hs'.
  { apply not_true_is_false. intros [u Hu]%has_suffix_spec. destruct u; str_simpl.
    apply not_true_iff_false in Hs as []. apply has_suffix_app. }
  rewrite (altPath_slash _ Hs'), altPath_trim.
  destruct (Matches_trailing_slash _ _ _ Hm Hne Hs) as [bs' Hm'].
  unfold shouldRedirectTrailingSlash.
  rewrite (altPath_slash _ Hs'), altPath_trim.
  split; [|split; [|done]]; (destruct (decide _); [done|]).
  - by eapply any_match_true.
  - by eapply any_match_true.
Qed.

(** ** Mux patterns *)

(** [stripMethodPattern] undoes the "METHOD pattern" key of a registered route
    and leaves a bare path alone. *)
Theorem stripMethodPattern_key m p :
  is_upper (default "000"%char (byte_at 0 m)) = true → contains_byte " " m = false →
  p ≠ "" → has_prefix p "/" = true →
  stripMethodPattern (m +:+ String " " p) = p ∧ stripMethodPattern p = p.
Proof.
  intros Hup Hsp Hp Hpre. split.
  - destruct m as [|a m]; [done|]. cbn in Hup. unfold stripMethodPattern.
    rewrite string_app_cons, <-string_app_cons, cut_byte_app by done.
    apply is_empty_false in Hp as ->. by rewrite Hup.
  - apply has_prefix_spec in Hpre as [u ->]. str_simpl. unfold stripMethodPattern.
    destruct (cut_byte " " u) as [[? rest]|]; cbn; [|done].
    by rewrite andb_false_r.
Qed.

Lemma match_prefix_total pp qq : length pp ≤ length qq → is_Some (match_prefix pp qq).
Proof.
  revert qq. induction pp as [|p pp IH]; intros [|q qq] Hl; cbn in *;
    [by eexists|by eexists|lia|].
  destruct (matchPatternPart p q); [apply IH; lia|by eexists].
Qed.

(** The reference matcher never indexes out of range, accepts every pattern
    against itself, and refuses paths of another length unless the pattern ends
    in a catch-all. *)
Theorem matchesPattern_total pattern path :
  is_Some (matchesPattern pattern path) ∧ matchesPattern path path = Some true ∧
  (length (split_byte "/" pattern) ≠ length (split_byte "/" path) →
   has_suffix (default "" (last (split_byte "/" pattern))) "...}" = false →
   matchesPattern pattern path = Some false).
Proof.
  unfold matchesPattern. rewrite String.eqb_refl. split_and!; [|done|].
  - destruct (String.eqb pattern path); [by eexists|].
    destruct (Nat.eqb_spec (length (split_byte "/" pattern)) (length (split_byte "/" path)));
      cbn; [apply match_prefix_total; lia|].
    case_match; [|by eexists].
    destruct (Nat.leb_spec (length (split_byte "/" pattern) - 1) (length (split_byte "/" path)));
      [|by eexists]. apply match_prefix_total. rewrite length_take. lia.
  - intros Hne Hs. destruct (String.eqb_spec pattern path) as [->|]; [done|].
    apply Nat.eqb_neq in Hne as ->. cbn. by rewrite Hs, andb_false_r.
Qed.

(** * Concrete runs *)

#[export] Instance wf_part_dec p : Decision (wf_part p).
Proof. unfold wf_part. apply _. Defined.
#[export] Instance ok_value_dec p v : Decision (ok_value p v).
Proof. unfold ok_value. apply _. Defined.

(** "/users/{id}/files/{path...}" *)
Definition demo_parts : list directPatternPart :=
  [Part "users" "" false; Part "" "id" false; Part "files" "" false; Part "" "path" true].
Definition demo_values : list string := ["-"; "42"; "-"; "a/b.txt"].

Lemma direct_match_refines_witness :
  ∃ bs, direct_match (compileDirectPattern "/users/{id}") "/users/42" (Some fresh_params)
        = Some (true, Some (commit_params bs fresh_params)).
Proof.
  destruct (direct_match_refines (compileDirectPattern "/users/{id}") "/users/42"
              (Some fresh_params)) as [_ [[Hf _]|(bs & Hm & _)]].
  - vm_compute. lia.
  - vm_compute in Hf. discriminate.
  - by exists bs.
Defined.

Lemma route_roundtrip_witness :
  ∃ c, direct_match (compileDirectPattern "/users/{id}/files/{path...}")
         "/users/42/files/a/b.txt" (Some fresh_params) = Some (true, Some c) ∧
    Param "id" c = "42" ∧ Param "path" c = "a/b.txt".
Proof.
  destruct (route_roundtrip demo_parts demo_values) as (c & Hm & Hp);
    [done|vm_decide|by repeat split|vm_decide|vm_compute; lia|vm_decide|].
  exists c. split; [exact Hm|]. split.
  - by apply (Hp 1 (Part "" "id" false)).
  - by apply (Hp 3 (Part "" "path" true)).
Defined.

Lemma materialize_agrees_witness :
  requestValues (materializePathParams
    {| pathParams := [("id", "42")]; pathParamsApplied := false; requestValues := ∅ |})
    !! "id" = Some "42".
Proof.
  destruct (materialize_agrees
    {| pathParams := [("id", "42")]; pathParamsApplied := false; requestValues := ∅ |})
    as [Hp _]; [vm_decide|done|].
  by apply (Hp "id"); left.
Defined.

Lemma redirect_loop_witness :
  let t := {| redirectSlashExact := ∅;
              redirectSlashDynamic := [compileDirectPattern "/users/{id}"] |} in
  shouldRedirectTrailingSlash t "/users/42" = Some true ∧
  shouldRedirectTrailingSlash t "/users/42/" = Some true.
Proof.
  intros t.
  destruct (redirect_loop t (compileDirectPattern "/users/{id}") "users/42" [("id", "42")])
    as (H1 & H2 & _); [repeat constructor; vm_compute; lia|by left| |done|done|by split].
  change (parts (compileDirectPattern "/users/{id}"))
    with [Part "users" "" false; Part "" "id" false].
  apply (matches_seg (Part "users" "" false) _ _ "users" "42" [("id", "42")]);
    [done|by apply (split_more "users" "42")|by right|].
  apply (matches_seg (Part "" "id" false) _ _ "42" "" []);
    [done|by constructor|by left|constructor].
Defined.

Lemma stripMethodPattern_key_witness :
  stripMethodPattern "GET /users/{id}" = "/users/{id}".
Proof. by apply (stripMethodPattern_key "GET" "/users/{id}"). Defined.

Lemma matchesPattern_total_witness :
  matchesPattern "/users/{id}" "/users" = Some false.
Proof. by apply (matchesPattern_total "/users/{id}" "/users"). Defined.

(** A value is decoded once more than the request path was: the escape sequence
    "%2541" of a URL, which the server decodes to "%41", reaches the handler as
    "A". *)
Example double_decoding :
  path_unescape "%2541" = Some "%41" ∧ decodePathValue "%41" = "A".
Proof. done. Qed.

(** A route of seventeen parameters compiles and panics on its first match. *)
Definition many_params (n : nat) : string :=
  join "/" (map (λ i, "{p" +:+ itoa (Z.of_nat i) +:+ "}") (seq 0 n)).

Example seventeen_params_panic :
  direct_match (compileDirectPattern (many_params 17))
    (join "/" (repeat "v" 17)) (Some fresh_params) = None.
Proof. by vm_compute. Qed.
