(* ===== verification/Errors.v ===== *)
(** Errors of the framework (errors.go): the structured errors handlers return,
    the error chains of the standard library, and the response each error is
    turned into (the decision part of server.go's [defaultErrorHandler]). *)
From S2P Require Import Prelude GoStrings.

(** * Data *)

(** A dynamically typed value ([any]): strings, integers and booleans, and
    values of other types by type name and identity. *)
Inductive any : Type :=
  | AnyString (s : string)
  | AnyInt (z : Z)
  | AnyBool (b : bool)
  | AnyOther (type : string) (id : Z).

Record ValidationError : Type := {
  ve_Field : string;
  ve_Tag : string;
  ve_Param : string;
  ve_Value : option any;
  ve_Message : string;
}.

(** [error]. [ErrorText] is an [errors.New] or sentinel error, [Wrapped] an
    error with its own text that unwraps to another ([fmt.Errorf] with [%w]),
    [Joined] an [errors.Join]. *)
Inductive error : Type :=
  | ErrorText (msg : string)
  | Wrapped (msg : string) (err : error)
  | Joined (errs : list error)
  | AsApp (e : AppError)
  | AsBind (Source : string) (Err : option error)
  | AsValidation (Errors : list ValidationError)
with AppError : Type :=
  | MkAppError (status : Z) (code message detail : string) (internal : option error).

Definition StatusCode (e : AppError) : Z := let 'MkAppError s _ _ _ _ := e in s.
Definition Code (e : AppError) : string := let 'MkAppError _ c _ _ _ := e in c.
Definition Message (e : AppError) : string := let 'MkAppError _ _ m _ _ := e in m.
Definition Detail (e : AppError) : string := let 'MkAppError _ _ _ d _ := e in d.
Definition Internal (e : AppError) : option error := let 'MkAppError _ _ _ _ i := e in i.

Definition ErrResponseAlreadyWritten : error := ErrorText "aarv: response already written".

Definition NewError (status : Z) (code message : string) : AppError :=
  MkAppError status code message "" None.
Definition WithDetail (detail : string) (e : AppError) : AppError :=
  MkAppError (StatusCode e) (Code e) (Message e) detail (Internal e).
Definition WithInternal (err : option error) (e : AppError) : AppError :=
  MkAppError (StatusCode e) (Code e) (Message e) (Detail e) err.

Definition ErrBadRequest (msg : string) : AppError := NewError 400 "bad_request" msg.
Definition ErrUnauthorized (msg : string) : AppError := NewError 401 "unauthorized" msg.
Definition ErrForbidden (msg : string) : AppError := NewError 403 "forbidden" msg.
Definition ErrNotFound (msg : string) : AppError := NewError 404 "not_found" msg.
Definition ErrMethodNotAllowed (msg : string) : AppError := NewError 405 "method_not_allowed" msg.
Definition ErrConflict (msg : string) : AppError := NewError 409 "conflict" msg.
Definition ErrPayloadTooLarge (msg : string) : AppError := NewError 413 "payload_too_large" msg.
Definition ErrUnprocessable (msg : string) : AppError := NewError 422 "validation_failed" msg.
Definition ErrTooManyRequests (msg : string) : AppError := NewError 429 "too_many_requests" msg.
Definition ErrInternal (err : option error) : AppError :=
  MkAppError 500 "internal_error" "Internal server error" "" err.
Definition ErrBadGateway (msg : string) : AppError := NewError 502 "bad_gateway" msg.
Definition ErrServiceUnavailable (msg : string) : AppError := NewError 503 "service_unavailable" msg.
Definition ErrGatewayTimeout (msg : string) : AppError := NewError 504 "gateway_timeout" msg.

(** [Error()]; [%v] of a nil error prints [<nil>]. *)
Fixpoint error_string (e : error) : string :=
  match e with
  | ErrorText msg => msg
  | Wrapped msg _ => msg
  | Joined errs => join (String "010" "") (map error_string errs)
  | AsApp (MkAppError _ _ message _ internal) =>
      match internal with
      | Some err => message +:+ ": " +:+ error_string err
      | None => message
      end
  | AsBind Source Err =>
      "bind error (" +:+ Source +:+ "): " +:+
        match Err with Some err => error_string err | None => "<nil>" end
  | AsValidation Errors => "validation failed: " +:+ itoa (Z.of_nat (length Errors)) +:+ " error(s)"
  end.

(** [errors.As]: the first error of the chain, depth first, the target type
    selects. *)
Section errors_as.
Context {T : Type} (target : error → option T).

Fixpoint errors_As (e : error) : option T :=
  match target e with
  | Some t => Some t
  | None =>
      match e with
      | Wrapped _ err => errors_As err
      | Joined errs =>
          (fix go (l : list error) : option T :=
             match l with
             | [] => None
             | err :: l' => match errors_As err with Some t => Some t | None => go l' end
             end) errs
      | AsApp (MkAppError _ _ _ _ (Some err)) => errors_As err
      | AsBind _ (Some err) => errors_As err
      | _ => None
      end
  end.
End errors_as.

Definition is_app (e : error) : option AppError :=
  match e with AsApp a => Some a | _ => None end.
Definition is_validation (e : error) : option (list ValidationError) :=
  match e with AsValidation l => Some l | _ => None end.
(** A [*BindError]: itself, as its message is what the response prints. *)
Definition is_bind (e : error) : option error :=
  match e with AsBind _ _ => Some e | _ => None end.

(** * The response to an error *)

(** What is handed to the codec: an [errorResponse], the map of a validation
    failure, or a value of the application. *)
Inductive payload : Type :=
  | PError (Error Message Detail RequestID : string)
  | PValidation (details : list ValidationError) (request_id : string)
  | PValue (v : any).

(** The status and payload [defaultErrorHandler] answers with, and whether it
    logs: validation failures first, then binding failures, then [AppError]s. *)
Definition error_response (err : error) (rid : string) : Z * payload * option string :=
  match errors_As is_validation err with
  | Some valErr => (422%Z, PValidation valErr rid, None)
  | None =>
      match errors_As is_bind err with
      | Some bindErr => (400%Z, PError "bad_request" (error_string bindErr) "" rid, None)
      | None =>
          match errors_As is_app err with
          | Some appErr =>
              (StatusCode appErr, PError (Code appErr) (Message appErr) (Detail appErr) rid,
               match Internal appErr with Some _ => Some "internal error" | None => None end)
          | None =>
              (500%Z, PError "internal_error" "Internal server error" "" rid,
               Some "unhandled error")
          end
      end
  end.

(** * Lemmas *)

(** The errors reachable from one by unwrapping, depth first. *)
Fixpoint chain (e : error) : list error :=
  e ::
  match e with
  | Wrapped _ err => chain err
  | Joined errs => flat_map chain errs
  | AsApp (MkAppError _ _ _ _ (Some err)) => chain err
  | AsBind _ (Some err) => chain err
  | _ => []
  end.

(** Induction through the lists of joined errors. *)
Section error_induction.
Context (P : error → Prop).
Hypothesis HText : ∀ msg, P (ErrorText msg).
Hypothesis HWrapped : ∀ msg err, P err → P (Wrapped msg err).
Hypothesis HJoined : ∀ errs, Forall P errs → P (Joined errs).
Hypothesis HAppNone : ∀ s c m d, P (AsApp (MkAppError s c m d None)).
Hypothesis HAppSome : ∀ s c m d err, P err → P (AsApp (MkAppError s c m d (Some err))).
Hypothesis HBindNone : ∀ src, P (AsBind src None).
Hypothesis HBindSome : ∀ src err, P err → P (AsBind src (Some err)).
Hypothesis HValidation : ∀ l, P (AsValidation l).

Fixpoint error_induction (e : error) : P e :=
  match e with
  | ErrorText msg => HText msg
  | Wrapped msg err => HWrapped msg err (error_induction err)
  | Joined errs =>
      HJoined errs ((fix go (l : list error) : Forall P l :=
        match l with
        | [] => Forall_nil_2 _
        | err :: l' => Forall_cons_2 _ _ _ (error_induction err) (go l')
        end) errs)
  | AsApp (MkAppError s c m d (Some err)) => HAppSome s c m d err (error_induction err)
  | AsApp (MkAppError s c m d None) => HAppNone s c m d
  | AsBind src (Some err) => HBindSome src err (error_induction err)
  | AsBind src None => HBindNone src
  | AsValidation l => HValidation l
  end.
End error_induction.

(** [errors.As] finds the first error of the chain of the target type. *)
Lemma errors_As_chain {T} (target : error → option T) e :
  errors_As target e = head (omap target (chain e)).
Proof.
  induction e as [msg|msg err IH|errs IH|s c m d|s c m d err IH|src|src err IH|l]
    using error_induction; cbn [errors_As chain omap list_omap];
    match goal with |- context [target ?x] => destruct (target x) end; try done.
  clear -IH. induction IH as [|err errs Herr _ IHerrs]; [done|].
  cbn [flat_map]. rewrite omap_app, Herr, IHerrs.
  by destruct (omap target (chain err)).
Qed.

Lemma errors_As_None {T} (target : error → option T) e :
  errors_As target e = None ↔ Forall (λ x, target x = None) (chain e).
Proof.
  rewrite errors_As_chain. induction (chain e) as [|x l IH]; [by split|].
  cbn. destruct (target x) eqn:Hx; rewrite Forall_cons; [split; [done|intros []; congruence]|].
  rewrite IH. tauto.
Qed.

(** The first error of a list that a target type selects. *)
Definition first_of {T} (target : error → option T) (l : list error) (t : T) : Prop :=
  ∃ l1 x l2, l = l1 ++ x :: l2 ∧ target x = Some t ∧ Forall (λ y, target y = None) l1.

Lemma errors_As_Some {T} (target : error → option T) e t :
  errors_As target e = Some t ↔ first_of target (chain e) t.
Proof.
  rewrite errors_As_chain. unfold first_of. induction (chain e) as [|x l IH].
  { split; [done|]. by intros ([] & ? & ? & ? & _). }
  cbn. destruct (target x) as [t'|] eqn:Hx; cbn.
  - split; [intros [= ->]; by exists [], x, l|]. intros ([|y l1] & z & l2 & [= -> ->] & Hz & Hl); [congruence|].
    inversion Hl; congruence.
  - rewrite IH. split; [intros (l1 & z & l2 & -> & Hz & Hl); exists (x :: l1), z, l2; by repeat constructor|].
    intros ([|y l1] & z & l2 & [= -> ->] & Hz & Hl); [congruence|]. inversion Hl; subst. by exists l1, z, l2.
Qed.

(** * The response to an error *)

(** No error of the chain is a validation or a binding failure. *)
Definition no_request_failure (e : error) : Prop :=
  Forall (λ x, is_validation x = None ∧ is_bind x = None) (chain e).

Lemma no_request_failure_As e :
  no_request_failure e → errors_As is_validation e = None ∧ errors_As is_bind e = None.
Proof.
  intros Hf. split; apply errors_As_None; (eapply Forall_impl; [exact Hf|]); naive_solver.
Qed.


Definition two_app_errors : error :=
  Joined [Wrapped "while saving: " (AsApp (ErrConflict "taken")); AsApp (ErrNotFound "gone")].


(** Internal causes stay internal: two [AppError]s that differ only in what they
    wrap are answered alike, as long as they wrap no validation or binding
    failure. *)
Theorem internal_not_leaked a err1 err2 rid :
  no_request_failure err1 → no_request_failure err2 →
  error_response (AsApp (WithInternal (Some err1) a)) rid =
  error_response (AsApp (WithInternal (Some err2) a)) rid.
Proof.
  intros [Hv1 Hb1]%no_request_failure_As [Hv2 Hb2]%no_request_failure_As.
  unfold error_response. destruct a as [s c m d i]. cbn.
  rewrite Hv1, Hv2, Hb1, Hb2. done.
Qed.

Lemma internal_not_leaked_witness :
  no_request_failure (ErrorText "dial tcp: refused") ∧
  error_response (AsApp (ErrInternal (Some (ErrorText "dial tcp: refused")))) "r1" =
  error_response (AsApp (ErrInternal (Some (ErrorText "disk full")))) "r1".
Proof.
  assert (∀ msg, no_request_failure (ErrorText msg)) as Htext by by repeat constructor.
  split; [apply Htext|].
  exact (internal_not_leaked (ErrInternal None) (ErrorText "dial tcp: refused")
    (ErrorText "disk full") "r1" (Htext _) (Htext _)).
Defined.

(** An [AppError] that wraps a binding failure is answered 400 with the binding
    failure's text, not with its own status and message. *)
Example app_error_shadowed :
  error_response
    (AsApp (WithInternal (Some (AsBind "body" (Some (ErrorText "secret path"))))
      (ErrConflict "already exists"))) "" =
    (400%Z, PError "bad_request" "bind error (body): secret path" "" "", None).
Proof. done. Qed.
