(* ===== verification/RequestContext.v ===== *)
(** The request context (context.go) and the world one request runs in: the
    pooled [Context], the response writers below it, the request bodies, and the
    registry that finds the context of a request. A handler is a computation on
    this world that returns an error or nil and may panic. *)
From S2P Require Import Prelude GoStrings Http Response Pattern Errors.
Open Scope go_scope.

(** * Data *)

(** A response writer in use while serving: the server's own, the buffered one
    of OnSend hooks, and the probe of [routingMux] around another. *)
Inductive wref : Type :=
  | WBase
  | WBuffered
  | WProbe (w : wref).

(** An [*http.Request]: its identity, the parts dispatch reads, and whether its
    [context.Context] carries the framework's marker. *)
Record request : Type := MkRequest {
  r_id : nat;
  r_Method : string;
  r_Path : string;
  r_RawQuery : string;
  r_Header : header;
  r_RemoteAddr : string;
  r_TLS : bool;
  r_ContentLength : Z;
  r_marked : bool;
}.

(** The bytes a request body still yields and the error it ends with ([None]
    for [io.EOF]). *)
Record reader : Type := MkReader {
  rd_data : string;
  rd_err : option error;
}.

(** The data of the application a [Context] reads through [c.app]. The codec is
    the writes [Encode] makes and the error it returns. *)
Record AppCore : Type := {
  codecContentType : string;
  codecEncode : payload → list string * option error;
  codecMarshal : payload → string + error;
  routeIdempotencyTTL : gmap string (gmap string Z);
  RequestContextBridge : bool;
}.

Record Ctx : Type := MkCtx {
  c_app : AppCore;
  c_req : request;
  c_res : wref;
  c_store : option (gmap string any);
  c_requestID : string;
  c_requestIDSet : bool;
  c_hookErr : option error;
  c_bodyCache : string;
  c_bodyRead : bool;
  c_written : bool;
  c_statusCode : Z;
  c_cachedLogger : option string;
  c_routePattern : string;
  c_params : PathParams;
}.
(** The world: the context, the writers ([w_bw] holds the server's writer below
    the buffer; without OnSend hooks the buffer is unused), whether the probe saw
    a write, the body of every request by identity ([None] of the map for a nil
    body), the request registry, the next free identity, the log, how often the
    context went back to the pool, and the local flag [needsRegistryCleanup] of
    [ServeHTTP]. *)
Record World : Type := MkWorld {
  w_ctx : Ctx;
  w_bw : bufferedResponseWriter RW;
  w_probe : bool;
  w_bodies : gmap nat reader;
  w_registry : gset nat;
  w_next : nat;
  w_log : list string;
  w_released : nat;
  w_cleanup : bool;
}.

Definition HandlerFunc : Type := GoM World (option error).
Definition Handler : Type := wref → request → GoM World unit.

(** ** Field updates *)
Definition set_c_app (x : AppCore) (c : Ctx) : Ctx :=
  MkCtx x (c_req c) (c_res c) (c_store c) (c_requestID c) (c_requestIDSet c) (c_hookErr c)
    (c_bodyCache c) (c_bodyRead c) (c_written c) (c_statusCode c) (c_cachedLogger c)
    (c_routePattern c) (c_params c).
Definition set_c_req (x : request) (c : Ctx) : Ctx :=
  MkCtx (c_app c) x (c_res c) (c_store c) (c_requestID c) (c_requestIDSet c) (c_hookErr c)
    (c_bodyCache c) (c_bodyRead c) (c_written c) (c_statusCode c) (c_cachedLogger c)
    (c_routePattern c) (c_params c).
Definition set_c_res (x : wref) (c : Ctx) : Ctx :=
  MkCtx (c_app c) (c_req c) x (c_store c) (c_requestID c) (c_requestIDSet c) (c_hookErr c)
    (c_bodyCache c) (c_bodyRead c) (c_written c) (c_statusCode c) (c_cachedLogger c)
    (c_routePattern c) (c_params c).
Definition set_c_store (x : option (gmap string any)) (c : Ctx) : Ctx :=
  MkCtx (c_app c) (c_req c) (c_res c) x (c_requestID c) (c_requestIDSet c) (c_hookErr c)
    (c_bodyCache c) (c_bodyRead c) (c_written c) (c_statusCode c) (c_cachedLogger c)
    (c_routePattern c) (c_params c).
Definition set_c_requestID (x : string) (c : Ctx) : Ctx :=
  MkCtx (c_app c) (c_req c) (c_res c) (c_store c) x (c_requestIDSet c) (c_hookErr c)
    (c_bodyCache c) (c_bodyRead c) (c_written c) (c_statusCode c) (c_cachedLogger c)
    (c_routePattern c) (c_params c).
Definition set_c_requestIDSet (x : bool) (c : Ctx) : Ctx :=
  MkCtx (c_app c) (c_req c) (c_res c) (c_store c) (c_requestID c) x (c_hookErr c)
    (c_bodyCache c) (c_bodyRead c) (c_written c) (c_statusCode c) (c_cachedLogger c)
    (c_routePattern c) (c_params c).
Definition set_c_hookErr (x : option error) (c : Ctx) : Ctx :=
  MkCtx (c_app c) (c_req c) (c_res c) (c_store c) (c_requestID c) (c_requestIDSet c) x
    (c_bodyCache c) (c_bodyRead c) (c_written c) (c_statusCode c) (c_cachedLogger c)
    (c_routePattern c) (c_params c).
Definition set_c_bodyCache (x : string) (c : Ctx) : Ctx :=
  MkCtx (c_app c) (c_req c) (c_res c) (c_store c) (c_requestID c) (c_requestIDSet c)
    (c_hookErr c) x (c_bodyRead c) (c_written c) (c_statusCode c) (c_cachedLogger c)
    (c_routePattern c) (c_params c).
Definition set_c_bodyRead (x : bool) (c : Ctx) : Ctx :=
  MkCtx (c_app c) (c_req c) (c_res c) (c_store c) (c_requestID c) (c_requestIDSet c)
    (c_hookErr c) (c_bodyCache c) x (c_written c) (c_statusCode c) (c_cachedLogger c)
    (c_routePattern c) (c_params c).
Definition set_c_written (x : bool) (c : Ctx) : Ctx :=
  MkCtx (c_app c) (c_req c) (c_res c) (c_store c) (c_requestID c) (c_requestIDSet c)
    (c_hookErr c) (c_bodyCache c) (c_bodyRead c) x (c_statusCode c) (c_cachedLogger c)
    (c_routePattern c) (c_params c).
Definition set_c_statusCode (x : Z) (c : Ctx) : Ctx :=
  MkCtx (c_app c) (c_req c) (c_res c) (c_store c) (c_requestID c) (c_requestIDSet c)
    (c_hookErr c) (c_bodyCache c) (c_bodyRead c) (c_written c) x (c_cachedLogger c)
    (c_routePattern c) (c_params c).
Definition set_c_cachedLogger (x : option string) (c : Ctx) : Ctx :=
  MkCtx (c_app c) (c_req c) (c_res c) (c_store c) (c_requestID c) (c_requestIDSet c)
    (c_hookErr c) (c_bodyCache c) (c_bodyRead c) (c_written c) (c_statusCode c) x
    (c_routePattern c) (c_params c).
Definition set_c_routePattern (x : string) (c : Ctx) : Ctx :=
  MkCtx (c_app c) (c_req c) (c_res c) (c_store c) (c_requestID c) (c_requestIDSet c)
    (c_hookErr c) (c_bodyCache c) (c_bodyRead c) (c_written c) (c_statusCode c)
    (c_cachedLogger c) x (c_params c).
Definition set_c_params (x : PathParams) (c : Ctx) : Ctx :=
  MkCtx (c_app c) (c_req c) (c_res c) (c_store c) (c_requestID c) (c_requestIDSet c)
    (c_hookErr c) (c_bodyCache c) (c_bodyRead c) (c_written c) (c_statusCode c)
    (c_cachedLogger c) (c_routePattern c) x.
Definition set_w_ctx (x : Ctx) (w : World) : World :=
  MkWorld x (w_bw w) (w_probe w) (w_bodies w) (w_registry w) (w_next w) (w_log w) (w_released w)
    (w_cleanup w).
Definition set_w_bw (x : bufferedResponseWriter RW) (w : World) : World :=
  MkWorld (w_ctx w) x (w_probe w) (w_bodies w) (w_registry w) (w_next w) (w_log w)
    (w_released w) (w_cleanup w).
Definition set_w_probe (x : bool) (w : World) : World :=
  MkWorld (w_ctx w) (w_bw w) x (w_bodies w) (w_registry w) (w_next w) (w_log w) (w_released w)
    (w_cleanup w).
Definition set_w_bodies (x : gmap nat reader) (w : World) : World :=
  MkWorld (w_ctx w) (w_bw w) (w_probe w) x (w_registry w) (w_next w) (w_log w) (w_released w)
    (w_cleanup w).
Definition set_w_registry (x : gset nat) (w : World) : World :=
  MkWorld (w_ctx w) (w_bw w) (w_probe w) (w_bodies w) x (w_next w) (w_log w) (w_released w)
    (w_cleanup w).
Definition set_w_next (x : nat) (w : World) : World :=
  MkWorld (w_ctx w) (w_bw w) (w_probe w) (w_bodies w) (w_registry w) x (w_log w) (w_released w)
    (w_cleanup w).
Definition set_w_log (x : list string) (w : World) : World :=
  MkWorld (w_ctx w) (w_bw w) (w_probe w) (w_bodies w) (w_registry w) (w_next w) x (w_released w)
    (w_cleanup w).
Definition set_w_released (x : nat) (w : World) : World :=
  MkWorld (w_ctx w) (w_bw w) (w_probe w) (w_bodies w) (w_registry w) (w_next w) (w_log w) x
    (w_cleanup w).
Definition set_w_cleanup (x : bool) (w : World) : World :=
  MkWorld (w_ctx w) (w_bw w) (w_probe w) (w_bodies w) (w_registry w) (w_next w) (w_log w)
    (w_released w) x.

Definition get_ctx {A} (f : Ctx → A) : GoM World A := go_get (λ w, f (w_ctx w)).
Definition mod_ctx (f : Ctx → Ctx) : GoM World unit := go_mod (λ w, set_w_ctx (f (w_ctx w)) w).
Definition log (msg : string) : GoM World unit := go_mod (λ w, set_w_log (w_log w ++ [msg]) w).

(** * Response writers *)

Definition mod_base (f : RW → RW) (w : World) : World :=
  let bw := w_bw w in
  set_w_bw {| bw_under := f (bw_under bw); bw_buf := bw_buf bw;
    bw_statusCode := bw_statusCode bw; bw_written := bw_written bw;
    bw_bypassed := bw_bypassed bw |} w.

(** The writes of [probeResponseWriter] and of the writers below it. *)
Fixpoint wr_WriteHeader (r : wref) (code : Z) (w : World) : World :=
  match r with
  | WBase => mod_base (WriteHeader code) w
  | WBuffered => set_w_bw (bw_WriteHeader code (w_bw w)) w
  | WProbe r' => wr_WriteHeader r' code (set_w_probe true w)
  end.

Fixpoint wr_Write (r : wref) (b : string) (w : World) : World :=
  match r with
  | WBase => mod_base (Write b) w
  | WBuffered => set_w_bw (bw_Write b (w_bw w)) w
  | WProbe r' => wr_Write r' b (set_w_probe true w)
  end.

(** All of them share the server's header map. *)
Definition wr_header (w : World) : header := rw_header (bw_under (w_bw w)).
Definition wr_mod_header (f : header → header) : World → World :=
  mod_base (λ b, rw_set_header (f (rw_header b)) b).

Definition write_all (r : wref) (bs : list string) (w : World) : World :=
  foldl (λ w b, wr_Write r b w) w bs.

(** * The request registry *)

(** [contextFromRequest(r)]: the marker of the request's context, else the
    registry entry of the request itself. *)
Definition contextFromRequest (r : request) : GoM World bool :=
  go_get (λ w, r_marked r || bool_decide (r_id r ∈ w_registry w)).
Definition storeRequestContext (r : request) : GoM World unit :=
  go_mod (λ w, set_w_registry ({[r_id r]} ∪ w_registry w) w).
Definition deleteRequestContext (r : request) : GoM World unit :=
  go_mod (λ w, set_w_registry (w_registry w ∖ {[r_id r]}) w).

(** [r.WithContext(ctx)] with [ctx] marked: a shallow copy of the request. The copy has the body
    as it is now; the source shares the reader, so that reads of the first request that come
    later are not seen through the copy here. *)
Definition WithContext (r : request) : GoM World request := λ w,
  let r' := MkRequest (w_next w) (r_Method r) (r_Path r) (r_RawQuery r) (r_Header r)
              (r_RemoteAddr r) (r_TLS r) (r_ContentLength r) true in
  let bodies := match w_bodies w !! r_id r with
                | Some b => <[w_next w := b]> (w_bodies w)
                | None => w_bodies w
                end in
  (Ret r', set_w_next (S (w_next w)) (set_w_bodies bodies w)).

Definition withFrameworkContext (r : request) : GoM World request :=
  if r_marked r then go_ret r else WithContext r.

(** * The context *)

Definition maxReusableStoreKeys : nat := 32.

Definition reset_store (store : option (gmap string any)) : option (gmap string any) :=
  match store with
  | None => None
  | Some m => if (maxReusableStoreKeys <? size m)%nat then None else Some ∅
  end.

(** [c.reset(w, r)]. Whether the body cache keeps its capacity is invisible: its
    content is dropped. [values] are the request's own path values. *)
Definition reset (res : wref) (r : request) (values : gmap string string) (c : Ctx) : Ctx :=
  MkCtx (c_app c) r res (reset_store (c_store c)) "" false None "" false false 200 None ""
    {| pathParams := []; pathParamsApplied := false; requestValues := values |}.

Definition materialize : Ctx → Ctx := λ c, set_c_params (materializePathParams (c_params c)) c.

(** [c.Request()]. *)
Definition Request : GoM World request :=
  mod_ctx materialize ;;; get_ctx c_req.

Definition unapply_params (p : PathParams) : PathParams :=
  {| pathParams := pathParams p; pathParamsApplied := false; requestValues := requestValues p |}.

(** The registry entry of the request a context leaves behind. *)
Definition forget_request (prev : request) (req : request) : GoM World unit :=
  let! app := get_ctx c_app in
  if negb (r_id prev =? r_id req)%nat && negb (RequestContextBridge app)
  then deleteRequestContext prev else go_ret tt.

(** [c.SetContext(ctx)] and [c.SetContextValue(k, v)]: both swap in a copy of the
    request with another, marked, context. *)
Definition SetContext : GoM World unit :=
  let! prev := get_ctx c_req in
  let! req := WithContext prev in
  mod_ctx (λ c, set_c_params (unapply_params (c_params c)) (set_c_req req c)) ;;;
  forget_request prev req.

(** [c.BindRequest(r)], for a non-nil [r]. *)
Definition BindRequest (r : request) : GoM World request :=
  let! prev := get_ctx c_req in
  let! req := withFrameworkContext r in
  mod_ctx (λ c, set_c_bodyCache "" (set_c_bodyRead false
    (set_c_params (unapply_params (c_params c)) (set_c_req req c)))) ;;;
  forget_request prev req ;;;
  go_ret req.

(** [c.SetBody(body)]. *)
Definition SetBody (body : reader) : GoM World unit :=
  let! r := get_ctx c_req in
  go_mod (λ w, set_w_bodies (<[r_id r := body]> (w_bodies w)) w) ;;;
  mod_ctx (λ c, set_c_bodyCache "" (set_c_bodyRead false c)).

(** ** The request-scoped store *)

Definition store_lookup (c : Ctx) (key : string) : option any :=
  match c_store c with Some m => m !! key | None => None end.

Definition store_set (key : string) (value : any) (c : Ctx) : Ctx :=
  set_c_store (Some (<[key := value]> (default ∅ (c_store c)))) c.

(** [c.Set(key, value)]. *)
Definition CtxSet (key : string) (value : any) (c : Ctx) : Ctx :=
  if String.eqb key "requestId" then
    match value with
    | AnyString s => set_c_requestIDSet true (set_c_requestID s c)
    | _ => store_set key value c
    end
  else store_set key value c.

(** [c.Get(key)]. *)
Definition CtxGet (key : string) (c : Ctx) : option any :=
  if String.eqb key "requestId" && c_requestIDSet c then Some (AnyString (c_requestID c))
  else store_lookup c key.

(** [c.MustGet(key)]. *)
Definition MustGet (key : string) : GoM World any :=
  let! v := get_ctx (λ c, store_lookup c key) in
  match v with
  | Some v => go_ret v
  | None => go_panic ("aarv: key " +:+ key +:+ " not found in context store")
  end.

(** [c.RequestID()]. *)
Definition RequestID (c : Ctx) : string :=
  if c_requestIDSet c then c_requestID c
  else match store_lookup c "requestId" with
       | Some (AnyString s) => s
       | _ => ""
       end.

(** [GetTyped[T](c, key)] with [T] as a partial projection out of [any] and its
    zero value: the value and whether it is there and of that type. *)
Definition GetTyped {T} (as_T : any → option T) (zero : T) (c : Ctx) (key : string) : T * bool :=
  let assert v := match as_T v with Some t => (t, true) | None => (zero, false) end in
  if String.eqb key "requestId" && c_requestIDSet c then assert (AnyString (c_requestID c))
  else match store_lookup c key with
       | Some v => assert v
       | None => (zero, false)
       end.

(** [c.Logger()]: the request id the cached logger carries. *)
Definition Logger : GoM World string :=
  let! l := get_ctx c_cachedLogger in
  match l with
  | Some l => go_ret l
  | None =>
      let! rid := get_ctx RequestID in
      mod_ctx (set_c_cachedLogger (Some rid)) ;;; go_ret rid
  end.
Definition SetLogger (l : option string) : GoM World unit := mod_ctx (set_c_cachedLogger l).

(** [c.RouteIdempotencyTTL()]. *)
Definition RouteIdempotencyTTL (c : Ctx) : option Z :=
  if String.eqb (c_routePattern c) "" then None
  else match routeIdempotencyTTL (c_app c) !! r_Method (c_req c) with
       | None => None
       | Some m => m !! c_routePattern c
       end.

(** ** Responses *)

Definition Written (c : Ctx) : bool := c_written c.
Definition Status (code : Z) : Ctx → Ctx := set_c_statusCode code.

Definition res_WriteHeader (code : Z) : GoM World unit :=
  let! r := get_ctx c_res in go_mod (wr_WriteHeader r code).
Definition res_Write (b : string) : GoM World unit :=
  let! r := get_ctx c_res in go_mod (wr_Write r b).
(** [c.res.Header()["Content-Type"] = []string{value}]. *)
Definition setContentType (value : string) : GoM World unit :=
  go_mod (wr_mod_header <[ "Content-Type" := [value] ]>).
Definition SetHeader (name value : string) : GoM World unit :=
  go_mod (wr_mod_header (header_set name value)).
Definition AddHeader (name value : string) : GoM World unit :=
  go_mod (wr_mod_header (header_add name value)).

(** A status other than 200 is written before the body; 200 is left implicit. *)
Definition write_status (status : Z) : GoM World unit :=
  if (status =? 200)%Z then go_ret tt else res_WriteHeader status.

(** [c.JSON(status, v)]. *)
Definition JSON (status : Z) (v : payload) : HandlerFunc :=
  let! written := get_ctx c_written in
  if (written : bool) then go_ret (Some ErrResponseAlreadyWritten)
  else
    mod_ctx (set_c_written true) ;;;
    let! pending := get_ctx c_statusCode in
    let status := if (status =? 0)%Z then pending else status in
    let! app := get_ctx c_app in
    setContentType (codecContentType app) ;;;
    write_status status ;;;
    let '(writes, err) := codecEncode app v in
    let! r := get_ctx c_res in
    go_mod (write_all r writes) ;;;
    go_ret err.

(** [c.JSONPretty(status, v)]. *)
Definition JSONPretty (status : Z) (v : payload) : HandlerFunc :=
  mod_ctx (set_c_written true) ;;;
  let! app := get_ctx c_app in
  match codecMarshal app v with
  | inr err => go_ret (Some err)
  | inl data =>
      setContentType (codecContentType app) ;;;
      res_WriteHeader status ;;;
      res_Write data ;;;
      go_ret None
  end.

(** [c.Blob(status, contentType, data)], of which [c.Text] and [c.HTML] are the
    instances at their content types. *)
Definition Blob (status : Z) (contentType data : string) : HandlerFunc :=
  mod_ctx (set_c_written true) ;;;
  setContentType contentType ;;;
  write_status status ;;;
  res_Write data ;;;
  go_ret None.
Definition Text (status : Z) (text : string) : HandlerFunc :=
  mod_ctx (set_c_written true) ;;;
  setContentType "text/plain; charset=utf-8" ;;;
  write_status status ;;;
  res_Write text ;;;
  go_ret None.
Definition HTML (status : Z) (html : string) : HandlerFunc :=
  mod_ctx (set_c_written true) ;;;
  setContentType "text/html; charset=utf-8" ;;;
  write_status status ;;;
  res_Write html ;;;
  go_ret None.

(** Switching a buffered writer to streaming. *)
Definition bypass_buffer : GoM World unit :=
  let! r := get_ctx c_res in
  match r with
  | WBuffered => go_mod (λ w, set_w_bw (Bypass (w_bw w)) w)
  | _ => go_ret tt
  end.

(** [c.Stream(status, contentType, reader)], the reader by the chunks it yields
    and the error it ends with. *)
Definition Stream (status : Z) (contentType : string) (chunks : list string)
    (err : option error) : HandlerFunc :=
  mod_ctx (set_c_written true) ;;;
  bypass_buffer ;;;
  setContentType contentType ;;;
  res_WriteHeader status ;;;
  let! r := get_ctx c_res in
  go_mod (write_all r chunks) ;;;
  go_ret err.

(** [c.SSE()]: the writer it returns is bound to the response. *)
Definition SSE : GoM World (wref + error) :=
  let! written := get_ctx c_written in
  if (written : bool) then go_ret (inr ErrResponseAlreadyWritten)
  else
    mod_ctx (set_c_written true) ;;;
    bypass_buffer ;;;
    SetHeader "Content-Type" "text/event-stream" ;;;
    SetHeader "Cache-Control" "no-cache" ;;;
    res_WriteHeader 200 ;;;
    let! r := get_ctx c_res in
    go_ret (inl r).

(** [c.NoContent(status)] and its alias. *)
Definition NoContent (status : Z) : HandlerFunc :=
  mod_ctx (set_c_written true) ;;; res_WriteHeader status ;;; go_ret None.
Definition SendStatus (code : Z) : HandlerFunc := NoContent code.

(** The file name [c.Attachment] takes from a path: after the last slash or
    backslash, or the whole path when that leaves nothing. *)
Fixpoint after_last_sep (s : string) : option string :=
  match s with
  | EmptyString => None
  | String a s' =>
      match after_last_sep s' with
      | Some t => Some t
      | None => if Ascii.eqb a "/" || Ascii.eqb a "\" then Some s' else None
      end
  end.
Definition attachment_name (filepath filename : string) : string :=
  if String.eqb filename "" then
    match after_last_sep filepath with
    | Some t => if String.eqb t "" then filepath else t
    | None => filepath
    end
  else filename.

(** [c.Error] and [c.ErrorWithDetail], with [http.StatusText]'s answer. *)
Definition ctx_Error (status_text : Z → string) (status : Z) (message : string) : error :=
  AsApp (NewError status (status_text status) message).
Definition ErrorWithDetail (status_text : Z → string) (status : Z) (message detail : string)
    : error :=
  AsApp (WithDetail detail (NewError status (status_text status) message)).

(** ** Bodies *)

Definition MaxBytesError : error := ErrorText "http: request body too large".

(** [http.MaxBytesReader]: at most [limit] bytes, then an error if more follow. *)
Definition MaxBytesReader (limit : Z) (r : reader) : reader :=
  if (Z.of_nat (String.length (rd_data r)) <=? limit)%Z then r
  else MkReader (take_bytes (Z.to_nat limit) (rd_data r)) (Some MaxBytesError).

(** [readBodyInto(r, buf, contentLength)]: the bytes read or the error, and what
    the reader still holds. A known length is read in full, stopping early at
    [io.EOF] only; an unknown one until [io.EOF]. *)
Definition readBodyInto (r : reader) (contentLength : Z) : (string + error) * reader :=
  let n := String.length (rd_data r) in
  if (0 <=? contentLength)%Z && (contentLength <=? max_int64)%Z then
    if (contentLength <=? Z.of_nat n)%Z then
      (inl (take_bytes (Z.to_nat contentLength) (rd_data r)),
       MkReader (drop_bytes (Z.to_nat contentLength) (rd_data r)) (rd_err r))
    else
      match rd_err r with
      | None => (inl (rd_data r), MkReader "" None)
      | Some err => (inr err, MkReader "" (Some err))
      end
  else
    match rd_err r with
    | None => (inl (rd_data r), MkReader "" None)
    | Some err => (inr err, MkReader "" (Some err))
    end.

(** [c.Body()]; reading a nil body panics. *)
Definition Body : GoM World (string + error) :=
  let! c := get_ctx (λ c, c) in
  if c_bodyRead c then go_ret (inl (c_bodyCache c))
  else
    let! body := go_get (λ w, w_bodies w !! r_id (c_req c)) in
    match body with
    | None => go_panic "invalid memory address or nil pointer dereference"
    | Some rd =>
        let '(res, rd') := readBodyInto rd (r_ContentLength (c_req c)) in
        go_mod (λ w, set_w_bodies (<[r_id (c_req c) := rd']> (w_bodies w)) w) ;;;
        match res with
        | inl data =>
            mod_ctx (λ c, set_c_bodyRead true (set_c_bodyCache data c)) ;;; go_ret (inl data)
        | inr err => go_ret (inr err)
        end
    end.

(** ** Identity of the client *)

Section RealIP.
(** The host of [net.SplitHostPort], [net.ParseIP] and membership of a network. *)
Context {IP : Type} (SplitHost : string → string) (ParseIP : string → option IP)
  {Net : Type} (Contains : Net → IP → bool).

Record ProxyTable : Type := {
  TrustedProxies : list string;
  trustedProxyIPs : gset string;
  trustedProxyCIDRs : list Net;
}.

(** [a.rebuildTrustedProxies()], given [net.ParseCIDR]. *)
Definition rebuildTrustedProxies (ParseCIDR : string → option Net) (entries : list string)
    : ProxyTable :=
  foldl (λ t entry,
    match ParseCIDR entry with
    | Some network =>
        {| TrustedProxies := TrustedProxies t; trustedProxyIPs := trustedProxyIPs t;
           trustedProxyCIDRs := trustedProxyCIDRs t ++ [network] |}
    | None =>
        {| TrustedProxies := TrustedProxies t; trustedProxyIPs := {[entry]} ∪ trustedProxyIPs t;
           trustedProxyCIDRs := trustedProxyCIDRs t |}
    end)
    {| TrustedProxies := entries; trustedProxyIPs := ∅; trustedProxyCIDRs := [] |} entries.

(** [c.isTrustedProxy(ip)]. *)
Definition isTrustedProxy (t : ProxyTable) (ip : string) : bool :=
  match TrustedProxies t with
  | [] => true
  | _ =>
      match ParseIP ip with
      | None => false
      | Some parsedIP =>
          if decide (ip ∈ trustedProxyIPs t) then true
          else existsb (λ network, Contains network parsedIP) (trustedProxyCIDRs t)
      end
  end.

(** [c.RealIP()]. *)
Definition RealIP (t : ProxyTable) (r : request) : string :=
  let host := SplitHost (r_RemoteAddr r) in
  let directIP := if String.eqb host "" then r_RemoteAddr r else host in
  let forwarded :=
    let real := header_get "X-Real-IP" (r_Header r) in
    if negb (String.eqb real "") then real
    else
      let xff := header_get "X-Forwarded-For" (r_Header r) in
      if negb (String.eqb xff "") then
        match index_byte "," xff with
        | Some (S i) => TrimSpace (take_bytes (S i) xff)
        | _ => xff
        end
      else directIP
  in
  match TrustedProxies t with
  | [] => forwarded
  | _ => if isTrustedProxy t directIP then forwarded else directIP
  end.
End RealIP.
Arguments ProxyTable Net : clear implicits.

(** [c.Scheme()]. *)
Definition Scheme (r : request) : string :=
  if r_TLS r then "https"
  else
    let scheme := header_get "X-Forwarded-Proto" (r_Header r) in
    if negb (String.eqb scheme "") then scheme else "http".

(** ** UUIDs *)

Definition is_hex (a : ascii) : bool :=
  is_digit a || (Ascii.leb "a" a && Ascii.leb a "f") || (Ascii.leb "A" a && Ascii.leb a "F").

(** [isValidUUID(s)]. The loop runs over runes: a byte outside ASCII is part of a
    rune that is neither a dash nor a digit. *)
Fixpoint uuid_bytes (i : nat) (s : string) : bool :=
  match s with
  | EmptyString => true
  | String a s' =>
      (if (i =? 8)%nat || (i =? 13)%nat || (i =? 18)%nat || (i =? 23)%nat
       then Ascii.eqb a "-" else is_hex a) && uuid_bytes (S i) s'
  end.
Definition isValidUUID (s : string) : bool :=
  (String.length s =? 36)%nat && uuid_bytes 0 s.

(** * Isolation of pooled contexts *)

(** Two contexts no operation of the context tells apart: only whether an empty
    store map has been allocated may differ. *)
Definition ctx_equiv (c1 c2 : Ctx) : Prop :=
  set_c_store None c1 = set_c_store None c2 ∧
  default ∅ (c_store c1) = default ∅ (c_store c2).

#[export] Instance ctx_equiv_equivalence : Equivalence ctx_equiv.
Proof. unfold ctx_equiv. split; [by intros c|by intros c1 c2 []|intros c1 c2 c3 [] []; split; congruence]. Qed.

Lemma store_lookup_default c key : store_lookup c key = default ∅ (c_store c) !! key.
Proof. unfold store_lookup. by destruct (c_store c). Qed.

Lemma ctx_equiv_field {A} (f : Ctx → A) c1 c2 :
  (∀ c, f c = f (set_c_store None c)) → ctx_equiv c1 c2 → f c1 = f c2.
Proof. intros Hf [Heq _]. by rewrite (Hf c1), (Hf c2), Heq. Qed.

#[export] Instance CtxGet_proper key : Proper (ctx_equiv ==> eq) (CtxGet key).
Proof.
  intros c1 c2 Heq. unfold CtxGet. rewrite !store_lookup_default, (proj2 Heq).
  by rewrite (ctx_equiv_field c_requestIDSet _ _ ltac:(done) Heq),
    (ctx_equiv_field c_requestID _ _ ltac:(done) Heq).
Qed.

#[export] Instance RequestID_proper : Proper (ctx_equiv ==> eq) RequestID.
Proof.
  intros c1 c2 Heq. unfold RequestID. rewrite !store_lookup_default, (proj2 Heq).
  by rewrite (ctx_equiv_field c_requestIDSet _ _ ltac:(done) Heq),
    (ctx_equiv_field c_requestID _ _ ltac:(done) Heq).
Qed.

#[export] Instance store_set_proper key v : Proper (ctx_equiv ==> ctx_equiv) (store_set key v).
Proof.
  intros c1 c2 [Heq Hst]. split; unfold store_set; cbn; [|by rewrite Hst].
  exact Heq.
Qed.

#[export] Instance CtxSet_proper key v : Proper (ctx_equiv ==> ctx_equiv) (CtxSet key v).
Proof.
  intros c1 c2 Heq. unfold CtxSet.
  destruct (String.eqb key "requestId"), v; try by rewrite Heq.
  destruct Heq as [Heq Hst]. split; [|exact Hst].
  pose proof (f_equal (set_c_requestIDSet true) (f_equal (set_c_requestID s) Heq)) as Hs.
  exact Hs.
Qed.

Lemma reset_store_empty st : default ∅ (reset_store st) = ∅.
Proof. destruct st as [m|]; cbn; [by case_match|done]. Qed.

(** A context from the pool carries nothing over: whatever request two contexts
    of the same application served before, resetting them gives contexts that no
    read and no store operation tells apart, with every per-request field at its
    initial value. *)
Theorem reset_isolates res r values c1 c2 :
  c_app c1 = c_app c2 →
  let c := reset res r values c1 in
  ctx_equiv c (reset res r values c2) ∧
  (∀ key, CtxGet key c = None) ∧ RequestID c = "" ∧ c_written c = false ∧
  c_bodyRead c = false ∧ c_hookErr c = None ∧ c_routePattern c = "" ∧ c_cachedLogger c = None ∧
  ∀ name, Param name (c_params c) = default "" (values !! name).
Proof.
  intros Happ. cbn zeta.
  split_and!; try done.
  - unfold ctx_equiv, reset, set_c_store. cbn. by rewrite Happ, !reset_store_empty.
  - intros key. unfold CtxGet. rewrite andb_false_r, store_lookup_default. cbn. by rewrite reset_store_empty.
  - unfold RequestID. rewrite store_lookup_default. cbn. by rewrite reset_store_empty.
Qed.

(** * The store *)

(** A key reads back what was last stored under it and no other key changes,
    whichever of the two representations holds the request id, except that a
    request id that is not a string does not replace one that is. *)
Theorem store_laws key v c :
  (CtxGet key (CtxSet key v c) =
     if String.eqb key "requestId" && c_requestIDSet c
     then match v with AnyString _ => Some v | _ => CtxGet key c end
     else Some v) ∧
  (∀ key', key' ≠ key → CtxGet key' (CtxSet key v c) = CtxGet key' c) ∧
  (∀ s, RequestID (CtxSet "requestId" (AnyString s) c) = s).
Proof.
  split_and!; [| |done].
  - unfold CtxGet, CtxSet. destruct (String.eqb_spec key "requestId") as [->|Hne]; cbn [andb].
    + destruct v; cbn; try (destruct (c_requestIDSet c) eqn:Hset; cbn; rewrite ?Hset; [done|]);
        try (unfold store_lookup; cbn; by rewrite lookup_insert_eq).
      done.
    + unfold store_lookup. cbn. by rewrite lookup_insert_eq.
  - intros key' Hne. unfold CtxGet, CtxSet.
    assert (∀ c, store_lookup (store_set key v c) key' = store_lookup c key') as Hst.
    { intros c'. rewrite !store_lookup_default. cbn. by rewrite lookup_insert_ne. }
    destruct (String.eqb_spec key "requestId") as [->|?]; [|by rewrite Hst].
    destruct (String.eqb_spec key' "requestId") as [->|?]; [done|]. cbn [andb].
    destruct v; rewrite ?Hst; done.
Qed.

(** [MustGet] looks only at the map: it panics on a request id that [Get] finds. *)
Lemma MustGet_store key w :
  MustGet key w =
    (match store_lookup (w_ctx w) key with
     | Some v => Ret v
     | None => Panic ("aarv: key " +:+ key +:+ " not found in context store")
     end, w).
Proof. unfold MustGet, get_ctx, go_get, go_bind. by destruct (store_lookup (w_ctx w) key). Qed.

(** A request id stored as a string is found by [Get] and panics [MustGet]. *)
Theorem MustGet_misses_requestId res r values c s w :
  w_ctx w = CtxSet "requestId" (AnyString s) (reset res r values c) →
  CtxGet "requestId" (w_ctx w) = Some (AnyString s) ∧
  ∃ msg, MustGet "requestId" w = (Panic msg, w).
Proof.
  intros Hw. rewrite MustGet_store, Hw. split; [done|].
  assert (store_lookup (CtxSet "requestId" (AnyString s) (reset res r values c)) "requestId" = None)
    as ->; [|eauto].
  by rewrite store_lookup_default; cbn; rewrite reset_store_empty.
Qed.

(** * Responses *)

(** Reading and updating fields of a world computes. *)
Ltac world_simpl :=
  cbn [w_ctx w_bw w_probe w_bodies w_registry w_next w_log w_released w_cleanup
       set_w_ctx set_w_bw set_w_probe set_w_bodies set_w_registry set_w_next set_w_log set_w_released
       set_w_cleanup
       c_app c_req c_res c_store c_requestID c_requestIDSet c_hookErr c_bodyCache c_bodyRead
       c_written c_statusCode c_cachedLogger c_routePattern c_params
       set_c_app set_c_req set_c_res set_c_store set_c_requestID set_c_requestIDSet set_c_hookErr
       set_c_bodyCache set_c_bodyRead set_c_written set_c_statusCode set_c_cachedLogger
       set_c_routePattern set_c_params
       bw_under bw_buf bw_statusCode bw_written bw_bypassed fst snd].
Tactic Notation "world_simpl" "in" hyp(H) :=
  cbn [w_ctx w_bw w_probe w_bodies w_registry w_next w_log w_released w_cleanup
       set_w_ctx set_w_bw set_w_probe set_w_bodies set_w_registry set_w_next set_w_log set_w_released
       set_w_cleanup
       c_app c_req c_res c_store c_requestID c_requestIDSet c_hookErr c_bodyCache c_bodyRead
       c_written c_statusCode c_cachedLogger c_routePattern c_params
       set_c_app set_c_req set_c_res set_c_store set_c_requestID set_c_requestIDSet set_c_hookErr
       set_c_bodyCache set_c_bodyRead set_c_written set_c_statusCode set_c_cachedLogger
       set_c_routePattern set_c_params
       bw_under bw_buf bw_statusCode bw_written bw_bypassed fst snd] in H.
Ltac go_step :=
  unfold get_ctx, mod_ctx, go_get, go_mod, go_ret, go_bind; world_simpl.

Lemma log_eq msg w : log msg w = (Ret tt, set_w_log (w_log w ++ [msg]) w).
Proof. done. Qed.

Lemma contextFromRequest_eq r w :
  contextFromRequest r w = (Ret (r_marked r || bool_decide (r_id r ∈ w_registry w)), w).
Proof. done. Qed.

(** A response writer operation as the script of a handler on its writer: every
    reference to a writer leads to the buffered writer or to the server's own. *)
Fixpoint wref_target (r : wref) : wref :=
  match r with WProbe r' => wref_target r' | _ => r end.
Definition is_probe (r : wref) : bool :=
  match r with WProbe _ => true | _ => false end.

(** The operation on the target, without the probes above it. *)
Definition target_op (r : wref) (o : wop) (bw : bufferedResponseWriter RW)
    : bufferedResponseWriter RW :=
  match wref_target r with
  | WBuffered => do_op bw o
  | _ => {| bw_under := do_op (bw_under bw) o; bw_buf := bw_buf bw;
            bw_statusCode := bw_statusCode bw; bw_written := bw_written bw;
            bw_bypassed := bw_bypassed bw |}
  end.

Lemma wr_WriteHeader_target r code w :
  wr_WriteHeader r code w =
    set_w_probe (w_probe w || is_probe r) (set_w_bw (target_op r (OWriteHeader code) (w_bw w)) w).
Proof.
  revert w. induction r as [| |r IH]; intros w.
  - destruct w. cbn. by rewrite orb_false_r.
  - destruct w. cbn. by rewrite orb_false_r.
  - cbn [wr_WriteHeader]. rewrite IH. unfold target_op. cbn.
    destruct w; cbn. by rewrite orb_true_r.
Qed.

Lemma wr_Write_target r b w :
  wr_Write r b w =
    set_w_probe (w_probe w || is_probe r) (set_w_bw (target_op r (OWrite b) (w_bw w)) w).
Proof.
  revert w. induction r as [| |r IH]; intros w.
  - destruct w. cbn. by rewrite orb_false_r.
  - destruct w. cbn. by rewrite orb_false_r.
  - cbn [wr_Write]. rewrite IH. unfold target_op. cbn.
    destruct w; cbn. by rewrite orb_true_r.
Qed.

(** Operations performed through a reference. *)
Definition run_wops (r : wref) (ops : list wop) (w : World) : World :=
  foldl (λ w o, match o with
                | OWriteHeader code => wr_WriteHeader r code w
                | OWrite b => wr_Write r b w
                | _ => wr_mod_header (header_op o) w
                end) w ops.

Lemma run_wops_cons r o ops w : run_wops r (o :: ops) w = run_wops r ops (run_wops r [o] w).
Proof. done. Qed.
Lemma run_wops_app r ops1 ops2 w :
  run_wops r (ops1 ++ ops2) w = run_wops r ops2 (run_wops r ops1 w).
Proof. apply foldl_app. Qed.

Lemma write_all_ops r bs w : write_all r bs w = run_wops r (map OWrite bs) w.
Proof. revert w. induction bs as [|b bs IH]; intros w; [done|apply IH]. Qed.

Lemma run_wops_ctx r ops w : w_ctx (run_wops r ops w) = w_ctx w.
Proof.
  revert w. induction ops as [|o ops IH]; intros w; [done|].
  rewrite run_wops_cons, IH. destruct o; cbn; try done;
    rewrite ?wr_WriteHeader_target, ?wr_Write_target; done.
Qed.

Lemma run_wops_bw r ops w1 w2 :
  w_bw w1 = w_bw w2 → w_bw (run_wops r ops w1) = w_bw (run_wops r ops w2).
Proof.
  revert w1 w2. induction ops as [|o ops IH]; intros w1 w2 Hw; [done|].
  rewrite !(run_wops_cons r o ops). apply IH.
  destruct o; cbn; rewrite ?wr_WriteHeader_target, ?wr_Write_target; cbn; by rewrite Hw.
Qed.

(** What the writer under a reference has seen is what the handler did to it. *)
Lemma run_wops_base r ops w :
  wref_target r = WBase → bw_under (w_bw (run_wops r ops w)) = run_ops ops (bw_under (w_bw w)).
Proof.
  intros Hr. revert w. induction ops as [|o ops IH]; intros w; [done|].
  rewrite run_wops_cons, IH, run_ops_cons. f_equal.
  destruct o; cbn; try done;
    rewrite ?wr_WriteHeader_target, ?wr_Write_target; unfold target_op; by rewrite Hr.
Qed.

Lemma run_wops_buffered r ops w :
  wref_target r = WBuffered → w_bw (run_wops r ops w) = run_ops ops (w_bw w).
Proof.
  intros Hr. revert w. induction ops as [|o ops IH]; intros w; [done|].
  rewrite run_wops_cons, IH, run_ops_cons. f_equal.
  destruct o; cbn; try done;
    rewrite ?wr_WriteHeader_target, ?wr_Write_target; unfold target_op; by rewrite Hr.
Qed.

(** The operations a JSON response performs on its writer. *)
Definition status_ops (status : Z) : list wop :=
  if (status =? 200)%Z then [] else [OWriteHeader status].
Definition json_ops (app : AppCore) (status : Z) (v : payload) : list wop :=
  HPut "Content-Type" [codecContentType app] :: status_ops status ++
  map OWrite (codecEncode app v).1.

(** [JSON] answers once: on a response nothing was committed to, it performs its
    operations and reports the codec's error; once something was, it refuses and
    leaves everything as it was. *)
Theorem JSON_once status v w :
  let c := w_ctx w in
  let status' := if (status =? 0)%Z then c_statusCode c else status in
  JSON status v w =
    if c_written c then (Ret (Some ErrResponseAlreadyWritten), w)
    else (Ret (codecEncode (c_app c) v).2,
          run_wops (c_res c) (json_ops (c_app c) status' v)
            (set_w_ctx (set_c_written true c) w)).
Proof.
  cbn zeta. unfold JSON. go_step. destruct (c_written (w_ctx w)); [done|].
  unfold json_ops, status_ops, setContentType, write_status, res_WriteHeader.
  rewrite run_wops_cons, run_wops_app.
  destruct (codecEncode (c_app (w_ctx w)) v) as [writes err]. go_step.
  set (st := if (status =? 0)%Z then _ else _). destruct (st =? 200)%Z.
  - by rewrite write_all_ops.
  - rewrite write_all_ops. change (wr_WriteHeader ?r st ?x) with (run_wops r [OWriteHeader st] x).
    by rewrite run_wops_ctx.
Qed.

(** * Bodies *)

(** How much of a body [readBodyInto] asks for. *)
Definition body_wanted (contentLength : Z) (n : nat) : nat :=
  if (0 <=? contentLength)%Z && (contentLength <=? max_int64)%Z
  then min n (Z.to_nat contentLength) else n.

Lemma take_bytes_all n s : String.length s ≤ n → take_bytes n s = s.
Proof. revert n. induction s as [|a s IH]; intros [|n] Hn; cbn in *; [done..|lia|]. by rewrite IH by lia. Qed.

Lemma readBodyInto_spec r cl :
  (readBodyInto r cl).1 =
    if (Z.of_nat (String.length (rd_data r)) <? cl)%Z || negb (0 <=? cl)%Z || (max_int64 <? cl)%Z then
      match rd_err r with None => inl (rd_data r) | Some err => inr err end
    else inl (take_bytes (Z.to_nat cl) (rd_data r)).
Proof.
  unfold readBodyInto.
  destruct (Z.leb_spec 0 cl), (Z.leb_spec cl max_int64), (Z.ltb_spec max_int64 cl);
    try lia; cbn [andb orb negb]; rewrite ?orb_true_r; try by destruct (rd_err r).
  rewrite !orb_false_r.
  destruct (Z.leb_spec cl (Z.of_nat (String.length (rd_data r)))),
    (Z.ltb_spec (Z.of_nat (String.length (rd_data r))) cl); try lia; [done|].
  by destruct (rd_err r).
Qed.

(** [Body] returns the whole body of a well-behaved request (no read error, and
    no more bytes than a known Content-Length announces), and from then on the
    same bytes without touching the reader again. *)
Theorem Body_whole_and_cached w rd :
  let c := w_ctx w in
  c_bodyRead c = false → w_bodies w !! r_id (c_req c) = Some rd → rd_err rd = None →
  ((r_ContentLength (c_req c) < 0)%Z ∨
   (Z.of_nat (String.length (rd_data rd)) ≤ r_ContentLength (c_req c))%Z) →
  ∃ w', Body w = (Ret (inl (rd_data rd)), w') ∧ Body w' = (Ret (inl (rd_data rd)), w') ∧
    w_bw w' = w_bw w.
Proof.
  cbn zeta. intros Hread Hbody Herr Hcl. unfold Body. go_step.
  rewrite Hread. world_simpl. rewrite Hbody.
  pose proof (readBodyInto_spec rd (r_ContentLength (c_req (w_ctx w)))) as Hspec.
  destruct (readBodyInto rd _) as [res rd']. cbn in Hspec.
  assert (res = inl (rd_data rd)) as ->.
  { rewrite Hspec, Herr. destruct Hcl as [Hcl|Hcl].
    - rewrite (proj2 (Z.leb_gt 0 _) Hcl). by rewrite orb_true_r.
    - destruct (_ || _ || _)%bool; [done|]. rewrite take_bytes_all; [done|lia]. }
  eexists. split_and!; [reflexivity| |done].
  done.
Qed.

(** After [SetBody], [Body] still reads only as much as the Content-Length of the
    request it replaced the body of announces. *)
Theorem SetBody_truncates w body :
  let cl := r_ContentLength (c_req (w_ctx w)) in
  (0 ≤ cl ≤ max_int64)%Z → (cl < Z.of_nat (String.length (rd_data body)))%Z →
  (go_bind (SetBody body) (λ _, Body) w).1 = Ret (inl (take_bytes (Z.to_nat cl) (rd_data body))).
Proof.
  cbn zeta. intros Hcl Hlen. unfold SetBody, Body. go_step.
  rewrite lookup_insert_eq.
  pose proof (readBodyInto_spec body (r_ContentLength (c_req (w_ctx w)))) as Hspec.
  destruct (readBodyInto body _) as [res rd']. cbn in Hspec. rewrite Hspec.
  destruct (Z.ltb_spec (Z.of_nat (String.length (rd_data body))) (r_ContentLength (c_req (w_ctx w))));
    [lia|].
  rewrite (proj2 (Z.leb_le 0 _)), (proj2 (Z.ltb_ge _ _)) by lia. done.
Qed.

(** A limited body is the body itself when it fits, and otherwise its first bytes
    followed by an error, so that reading it in full fails. *)
Lemma MaxBytesReader_fits limit r :
  (Z.of_nat (String.length (rd_data r)) ≤ limit)%Z → MaxBytesReader limit r = r.
Proof. intros H. unfold MaxBytesReader. by rewrite (proj2 (Z.leb_le _ _) H). Qed.

Lemma take_bytes_length n s : n ≤ String.length s → String.length (take_bytes n s) = n.
Proof. revert n. induction s as [|a s IH]; intros [|n] Hn; cbn in *; [done|lia|done|]. by rewrite IH by lia. Qed.

Lemma MaxBytesReader_exceeds limit r cl :
  (0 ≤ limit < Z.of_nat (String.length (rd_data r)))%Z →
  (cl < 0 ∨ limit < cl)%Z →
  (readBodyInto (MaxBytesReader limit r) cl).1 = inr MaxBytesError.
Proof.
  intros Hlim Hcl. rewrite readBodyInto_spec. unfold MaxBytesReader.
  rewrite (proj2 (Z.leb_gt _ _)) by lia. cbn [rd_data rd_err].
  rewrite take_bytes_length, Z2Nat.id by lia.
  destruct (Z.ltb_spec limit cl); [done|]. by rewrite (proj2 (Z.leb_gt 0 cl)) by lia.
Qed.

(** * UUIDs *)

(** [n] hexadecimal digits. *)
Definition hex_block (n : nat) (s : string) : Prop :=
  String.length s = n ∧ string_all is_hex s = true.

Definition dash_at (i : nat) : bool :=
  (i =? 8)%nat || (i =? 13)%nat || (i =? 18)%nat || (i =? 23)%nat.

Lemma uuid_bytes_app i s t :
  uuid_bytes i (s +:+ t) = uuid_bytes i s && uuid_bytes (i + String.length s) t.
Proof.
  revert i. induction s as [|a s IH]; intros i.
  { cbn [String.length]. by rewrite Nat.add_0_r, string_app_nil_l. }
  rewrite string_app_cons. cbn [uuid_bytes String.length]. rewrite IH.
  rewrite Nat.add_succ_comm. by rewrite andb_assoc.
Qed.

(** Between dashes, the scan asks for hexadecimal digits. *)
Lemma uuid_bytes_hex i s :
  (∀ j, i ≤ j < i + String.length s → dash_at j = false) →
  uuid_bytes i s = string_all is_hex s.
Proof.
  revert i. induction s as [|a s IH]; intros i Hd; [done|].
  cbn [uuid_bytes string_all]. pose proof (Hd i) as Hi. unfold dash_at in Hi.
  rewrite Hi by (cbn; lia). f_equal. apply IH. intros j Hj. apply Hd. cbn. lia.
Qed.

Lemma split_at n s :
  n ≤ String.length s → ∃ t u, s = t +:+ u ∧ String.length t = n ∧
    String.length u = String.length s - n.
Proof.
  revert n. induction s as [|a s IH]; intros [|n] Hn; cbn in *; try lia;
    try by eexists "", _.
  destruct (IH n) as (t & u & -> & Hl & Hd); [lia|].
  exists (String a t), u. cbn. by rewrite Hl, Hd.
Qed.

Lemma uuid_dash i s :
  dash_at i = true → String.length s = 1 → uuid_bytes i s = String.eqb s "-".
Proof.
  intros Hd Hl. destruct s as [|a [|]]; try done. cbn. unfold dash_at in Hd. rewrite Hd.
  rewrite andb_true_r. by destruct (Ascii.eqb a "-").
Qed.

(** A string of blocks and separators of the lengths of a UUID. *)
Lemma uuid_bytes_blocks a x b y c z d u e :
  String.length a = 8 → String.length b = 4 → String.length c = 4 →
  String.length d = 4 → String.length e = 12 →
  String.length x = 1 → String.length y = 1 → String.length z = 1 → String.length u = 1 →
  uuid_bytes 0 (a +:+ x +:+ b +:+ y +:+ c +:+ z +:+ d +:+ u +:+ e) =
    string_all is_hex a && (String.eqb x "-" && (string_all is_hex b && (String.eqb y "-" &&
    (string_all is_hex c && (String.eqb z "-" && (string_all is_hex d &&
    (String.eqb u "-" && string_all is_hex e))))))).
Proof.
  intros Ha Hb Hc Hd He Hx Hy Hz Hu.
  rewrite !uuid_bytes_app, Ha, Hb, Hc, Hd, Hx, Hy, Hz, Hu. cbn [Nat.add].
  rewrite (uuid_dash 8), (uuid_dash 13), (uuid_dash 18), (uuid_dash 23) by done.
  rewrite !uuid_bytes_hex; [done|..]; intros j Hj; rewrite ?Ha, ?Hb, ?Hc, ?Hd, ?He in Hj;
    unfold dash_at; rewrite !orb_false_iff, !Nat.eqb_neq; lia.
Qed.

(** [isValidUUID] accepts exactly five blocks of 8, 4, 4, 4 and 12 hexadecimal
    digits joined with dashes. *)
Theorem isValidUUID_spec s :
  isValidUUID s = true ↔
  ∃ a b c d e, s = join "-" [a; b; c; d; e] ∧
    hex_block 8 a ∧ hex_block 4 b ∧ hex_block 4 c ∧ hex_block 4 d ∧ hex_block 12 e.
Proof.
  unfold isValidUUID, hex_block. rewrite andb_true_iff, Nat.eqb_eq. split.
  - intros [Hlen Hu].
    destruct (split_at 8 s) as (a & s1 & -> & La & L1); [lia|].
    destruct (split_at 1 s1) as (x & s2 & -> & Lx & L2); [lia|].
    destruct (split_at 4 s2) as (b & s3 & -> & Lb & L3); [lia|].
    destruct (split_at 1 s3) as (y & s4 & -> & Ly & L4); [lia|].
    destruct (split_at 4 s4) as (c & s5 & -> & Lc & L5); [lia|].
    destruct (split_at 1 s5) as (z & s6 & -> & Lz & L6); [lia|].
    destruct (split_at 4 s6) as (d & s7 & -> & Ld & L7); [lia|].
    destruct (split_at 1 s7) as (u & e & -> & Lu & L8); [lia|].
    rewrite uuid_bytes_blocks in Hu by lia. rewrite !andb_true_iff, !String.eqb_eq in Hu.
    destruct Hu as (? & -> & ? & -> & ? & -> & ? & -> & ?).
    exists a, b, c, d, e. split_and!; try done; lia.
  - intros (a & b & c & d & e & -> & [Ha Ha'] & [Hb Hb'] & [Hc Hc'] & [Hd Hd'] & [He He']).
    cbn [join]. rewrite uuid_bytes_blocks by done. rewrite Ha', Hb', Hc', Hd', He'.
    split; [|done]. rewrite !string_length_app, Ha, Hb, Hc, Hd, He. done.
Qed.

(** * Identity of the client *)

Section RealIP_lemmas.
Context {IP : Type} (SplitHost : string → string) (ParseIP : string → option IP)
  {Net : Type} (Contains : Net → IP → bool) (ParseCIDR : string → option Net).

Lemma rebuildTrustedProxies_fields entries t :
  let t' := foldl (λ t entry,
    match ParseCIDR entry with
    | Some network =>
        {| TrustedProxies := TrustedProxies t; trustedProxyIPs := trustedProxyIPs t;
           trustedProxyCIDRs := trustedProxyCIDRs t ++ [network] |}
    | None =>
        {| TrustedProxies := TrustedProxies t; trustedProxyIPs := {[entry]} ∪ trustedProxyIPs t;
           trustedProxyCIDRs := trustedProxyCIDRs t |}
    end) t entries in
  TrustedProxies t' = TrustedProxies t ∧
  (∀ ip, ip ∈ trustedProxyIPs t' ↔
     ip ∈ trustedProxyIPs t ∨ (ip ∈ entries ∧ ParseCIDR ip = None)) ∧
  (∀ n, n ∈ trustedProxyCIDRs t' ↔
     n ∈ trustedProxyCIDRs t ∨ ∃ entry, entry ∈ entries ∧ ParseCIDR entry = Some n).
Proof.
  revert t. induction entries as [|x entries IH]; intros t; cbn zeta in *; cbn [foldl].
  { split_and!; [done|..]; intros; set_solver. }
  edestruct IH as (-> & Hips & Hnets). split_and!; [by destruct (ParseCIDR x)|..].
  - intros ip. rewrite Hips. destruct (ParseCIDR x) eqn:Hx; cbn; set_solver.
  - intros n. rewrite Hnets. destruct (ParseCIDR x) eqn:Hx; cbn; set_solver.
Qed.

(** Who may speak for a client: with a list of trusted proxies, a direct peer is
    trusted exactly when it is an IP address that the list names or covers by a
    network; and an untrusted peer's forwarding headers are ignored. *)
Theorem RealIP_trust entries r :
  entries ≠ [] →
  let t := rebuildTrustedProxies ParseCIDR entries in
  let host := SplitHost (r_RemoteAddr r) in
  let directIP := if String.eqb host "" then r_RemoteAddr r else host in
  (isTrustedProxy ParseIP Contains t directIP = true ↔
     ∃ ip, ParseIP directIP = Some ip ∧
       ((directIP ∈ entries ∧ ParseCIDR directIP = None) ∨
        ∃ entry n, entry ∈ entries ∧ ParseCIDR entry = Some n ∧ Contains n ip = true)) ∧
  (isTrustedProxy ParseIP Contains t directIP = false →
     RealIP SplitHost ParseIP Contains t r = directIP).
Proof.
  intros Hne. cbn zeta.
  destruct (rebuildTrustedProxies_fields entries
    {| TrustedProxies := entries; trustedProxyIPs := ∅; trustedProxyCIDRs := [] |})
    as (Ht & Hips & Hnets). fold (rebuildTrustedProxies ParseCIDR entries) in *.
  cbn [TrustedProxies trustedProxyIPs trustedProxyCIDRs] in *.
  set (t := rebuildTrustedProxies ParseCIDR entries) in *.
  set (d := if String.eqb _ _ then _ else _). split.
  - unfold isTrustedProxy. rewrite Ht. destruct entries as [|e entries]; [done|].
    destruct (ParseIP d) as [ip|]; [|naive_solver].
    case_decide as Hd.
    + split; [|done]. intros _. exists ip. split; [done|]. left. set_solver.
    + rewrite existsb_Exists, Exists_exists. split.
      * intros (n & Hn & HC). exists ip. split; [done|]. right.
        apply Hnets in Hn as [?%elem_of_nil|(entry & ? & ?)]; [done|]. eauto.
      * intros (ip' & [= ->] & [Hl|(entry & n & Hin & Hp & HC)]).
        { destruct Hd. rewrite Hips. by right. }
        exists n. split; [|done]. apply Hnets. right. eauto.
  - unfold RealIP. intros Hf. rewrite Ht. destruct entries; [done|].
    fold d. by rewrite Hf.
Qed.
End RealIP_lemmas.

(** * Witnesses *)

Definition demo_request : request :=
  MkRequest 0 "GET" "/users/42" "" ∅ "10.0.0.7:4711" false 5 false.

Definition demo_core : AppCore := {|
  codecContentType := "application/json";
  codecEncode v := match v with
    | PError e _ _ _ => (["{" +:+ e +:+ "}"], None)
    | PValidation _ _ => (["{validation}"], None)
    | PValue (AnyOther _ _) => ([], Some (ErrorText "json: unsupported type"))
    | PValue _ => (["{}"], None)
    end;
  codecMarshal _ := inl "{}";
  routeIdempotencyTTL := ∅;
  RequestContextBridge := true;
|}.

Definition demo_ctx : Ctx :=
  reset WBase demo_request ∅
    (MkCtx demo_core demo_request WBase (Some {[ "user" := AnyInt 1 ]}) "old" true None "body" true
       true 418 (Some "old") "/old" fresh_params).

Definition demo_world : World :=
  MkWorld demo_ctx (acquireBufferedWriter (new_RW ∅)) false {[ 0 := MkReader "hello" None ]} ∅ 1 [] 0 false.

Lemma reset_isolates_witness :
  c_app demo_ctx = demo_core ∧
  CtxGet "user" (reset WBase demo_request ∅ (CtxSet "user" (AnyInt 7) demo_ctx)) = None.
Proof.
  split; [done|].
  destruct (reset_isolates WBase demo_request ∅ (CtxSet "user" (AnyInt 7) demo_ctx) demo_ctx eq_refl)
    as (_ & Hget & _).
  apply Hget.
Defined.

Lemma MustGet_misses_requestId_witness :
  ∃ msg, MustGet "requestId" (set_w_ctx (CtxSet "requestId" (AnyString "r1") demo_ctx) demo_world) =
    (Panic msg, set_w_ctx (CtxSet "requestId" (AnyString "r1") demo_ctx) demo_world).
Proof.
  destruct (MustGet_misses_requestId WBase demo_request ∅ demo_ctx "r1"
    (set_w_ctx (CtxSet "requestId" (AnyString "r1") demo_ctx) demo_world) eq_refl) as [_ H].
  exact H.
Defined.

Lemma Body_whole_and_cached_witness :
  (Body demo_world).1 = Ret (inl "hello").
Proof.
  destruct (Body_whole_and_cached demo_world (MkReader "hello" None) eq_refl eq_refl eq_refl)
    as (w' & Hb & _ & _); [right; cbn; lia|].
  by rewrite Hb.
Defined.

Lemma SetBody_truncates_witness :
  (go_bind (SetBody (MkReader "hello world" None)) (λ _, Body) demo_world).1 = Ret (inl "hello").
Proof.
  rewrite (SetBody_truncates demo_world (MkReader "hello world" None)); [done|cbn; unfold max_int64; lia|cbn; lia].
Defined.

Lemma RealIP_trust_witness :
  let t := rebuildTrustedProxies (Net := nat) (λ _, None) ["192.0.2.1"] in
  RealIP (IP := string) (λ s, s) Some (λ _ _, false) t
    (MkRequest 0 "GET" "/" "" (header_set "X-Real-IP" "1.2.3.4" ∅) "203.0.113.9" false 0 false) =
  "203.0.113.9".
Proof.
  cbn zeta.
  destruct (RealIP_trust (IP := string) (λ s, s) Some (Net := nat) (λ _ _, false) (λ _, None)
    ["192.0.2.1"]
    (MkRequest 0 "GET" "/" "" (header_set "X-Real-IP" "1.2.3.4" ∅) "203.0.113.9" false 0 false)
    ltac:(done)) as [_ H].
  apply H. vm_compute. reflexivity.
Defined.
