(* ===== verification/Hooks.v ===== *)
(** Lifecycle hooks (hooks.go): registration with priorities, the stable sort
    that finalizes the registry, and running a phase. *)
From S2P Require Import Prelude GoStrings Errors RequestContext.
From Stdlib Require Import Sorting.Sorted Sorting.Permutation.
Open Scope go_scope.

(** * The code *)

Inductive HookPhase : Type :=
  | OnRequest | PreRouting | PreParsing | PreValidation | PreHandler
  | OnResponse | OnSend | OnError | OnStartup | OnShutdown.

#[export] Instance HookPhase_eq_dec : EqDecision HookPhase.
Proof. solve_decision. Defined.

Definition HookFunc : Type := HandlerFunc.

Record hookEntry : Type := {
  priority : Z;
  fn : HookFunc;
}.

Definition hookRegistry : Type := HookPhase → list hookEntry.

Definition newHookRegistry : hookRegistry := λ _, [].

Definition set_phase (phase : HookPhase) (entries : list hookEntry) (hr : hookRegistry)
    : hookRegistry :=
  λ p, if decide (p = phase) then entries else hr p.

Definition addWithPriority (phase : HookPhase) (prio : Z) (f : HookFunc) (hr : hookRegistry)
    : hookRegistry :=
  set_phase phase (hr phase ++ [{| priority := prio; fn := f |}]) hr.

Definition add (phase : HookPhase) (f : HookFunc) (hr : hookRegistry) : hookRegistry :=
  addWithPriority phase 0 f hr.

(** [sort.SliceStable] by priority: an entry moves in front of the entries of
    greater priority only. *)
Fixpoint insert_entry (e : hookEntry) (l : list hookEntry) : list hookEntry :=
  match l with
  | [] => [e]
  | e' :: l' => if (priority e <=? priority e')%Z then e :: l else e' :: insert_entry e l'
  end.
Fixpoint sort_entries (l : list hookEntry) : list hookEntry :=
  match l with
  | [] => []
  | e :: l' => insert_entry e (sort_entries l')
  end.

Definition sortPhase (phase : HookPhase) (hr : hookRegistry) : hookRegistry :=
  set_phase phase (sort_entries (hr phase)) hr.

Definition all_phases : list HookPhase :=
  [OnRequest; PreRouting; PreParsing; PreValidation; PreHandler; OnResponse; OnSend; OnError;
   OnStartup; OnShutdown].

Definition finalize (hr : hookRegistry) : hookRegistry :=
  foldl (λ hr phase, sortPhase phase hr) hr all_phases.

Fixpoint run_entries (entries : list hookEntry) : GoM World (option error) :=
  match entries with
  | [] => go_ret None
  | e :: entries' =>
      let! err := fn e in
      match err with
      | Some err => go_ret (Some err)
      | None => run_entries entries'
      end
  end.

(** [hr.run(phase, c)]. *)
Definition run (phase : HookPhase) (hr : hookRegistry) : GoM World (option error) :=
  run_entries (hr phase).

(** * The order of hooks *)

Definition prio_le (e1 e2 : hookEntry) : Prop := (priority e1 ≤ priority e2)%Z.
Definition of_priority (p : Z) (l : list hookEntry) : list hookEntry :=
  filter (λ e, priority e = p) l.

Lemma insert_entry_perm e l : Permutation (insert_entry e l) (e :: l).
Proof.
  induction l as [|e' l IH]; cbn; [done|]. destruct (_ <=? _)%Z; [done|].
  rewrite IH. apply Permutation_swap.
Qed.

Lemma sort_entries_perm l : Permutation (sort_entries l) l.
Proof. induction l as [|e l IH]; cbn; [done|]. by rewrite insert_entry_perm, IH. Qed.

Lemma insert_entry_sorted e l :
  StronglySorted prio_le l → StronglySorted prio_le (insert_entry e l).
Proof.
  unfold prio_le. induction 1 as [|e' l Hs IH Hl]; cbn; [by repeat constructor|].
  destruct (Z.leb_spec (priority e) (priority e')).
  - constructor; [by constructor|]. constructor; [done|].
    eapply Forall_impl; [exact Hl|]. cbn. lia.
  - constructor; [done|]. rewrite insert_entry_perm. constructor; [lia|done].
Qed.

Lemma sort_entries_sorted l : StronglySorted prio_le (sort_entries l).
Proof. induction l as [|e l IH]; cbn; [constructor|]. by apply insert_entry_sorted. Qed.

Lemma insert_entry_stable p e l :
  of_priority p (insert_entry e l) = of_priority p (e :: l).
Proof.
  unfold of_priority. induction l as [|e' l IH]; cbn -[filter]; [done|].
  destruct (Z.leb_spec (priority e) (priority e')); [done|].
  rewrite !filter_cons in *. rewrite IH. repeat case_decide; try done; lia.
Qed.

Lemma sort_entries_stable p l : of_priority p (sort_entries l) = of_priority p l.
Proof.
  induction l as [|e l IH]; [done|]. cbn [sort_entries]. rewrite insert_entry_stable.
  unfold of_priority in *. rewrite !filter_cons. by rewrite IH.
Qed.

Lemma finalize_phase hr phase : finalize hr phase = sort_entries (hr phase).
Proof. by destruct phase. Qed.

(** A sorted list is determined by its entries of each priority. *)
Lemma stable_sorted_unique l1 l2 :
  StronglySorted prio_le l1 → StronglySorted prio_le l2 →
  (∀ p, of_priority p l1 = of_priority p l2) → l1 = l2.
Proof.
  unfold prio_le, of_priority. intros H1. revert l2.
  induction H1 as [|e1 l1 Hs1 IH Hl1]; intros l2 H2 Heq.
  - destruct l2 as [|e2 l2]; [done|]. specialize (Heq (priority e2)).
    by rewrite filter_nil, filter_cons, decide_True in Heq by done.
  - destruct H2 as [|e2 l2 Hs2 Hl2].
    { specialize (Heq (priority e1)). by rewrite filter_nil, filter_cons, decide_True in Heq by done. }
    assert (priority e1 = priority e2) as Hp.
    { rewrite Forall_forall in Hl1, Hl2. apply Z.le_antisymm.
      - assert (e2 ∈ filter (λ e, priority e = priority e2) (e1 :: l1)) as Hin.
        { rewrite Heq. apply list_elem_of_filter. split; [done|by left]. }
        apply list_elem_of_filter in Hin as [_ [->|Hin]%elem_of_cons]; [lia|by apply Hl1].
      - assert (e1 ∈ filter (λ e, priority e = priority e1) (e2 :: l2)) as Hin.
        { rewrite <-Heq. apply list_elem_of_filter. split; [done|by left]. }
        apply list_elem_of_filter in Hin as [_ [->|Hin]%elem_of_cons]; [lia|by apply Hl2]. }
    pose proof (Heq (priority e1)) as Hhd.
    rewrite !filter_cons, !decide_True in Hhd by done. injection Hhd as -> _.
    f_equal. apply IH; [done|]. intros p. specialize (Heq p). rewrite !filter_cons in Heq.
    case_decide; [by injection Heq|done].
Qed.

(** Finalizing orders every phase by ascending priority and keeps the
    registration order among equals; that determines the order, so that it does
    not depend on the sorting algorithm, and finalizing again changes nothing. *)
Theorem finalize_order hr phase l :
  (StronglySorted prio_le l ∧ ∀ p, of_priority p l = of_priority p (hr phase)) ↔
  l = finalize hr phase.
Proof.
  rewrite finalize_phase. split.
  - intros [Hs Hp]. apply stable_sorted_unique; [done|apply sort_entries_sorted|].
    intros p. by rewrite Hp, sort_entries_stable.
  - intros ->. split; [apply sort_entries_sorted|]. intros p. apply sort_entries_stable.
Qed.

(** * Running a phase *)

Lemma run_entries_app l1 l2 w :
  run_entries (l1 ++ l2) w =
    match run_entries l1 w with
    | (Ret None, w') => run_entries l2 w'
    | r => r
    end.
Proof.
  revert w. induction l1 as [|e l1 IH]; intros w; [done|].
  cbn [run_entries app]. unfold go_bind, go_ret.
  destruct (fn e w) as [[[err|]|msg] w']; [done|apply IH|done].
Qed.

(** A phase runs its hooks in order up to the first that fails or panics: the
    hooks after it never run, and its error is the phase's. *)
Theorem run_first_failure l1 e l2 w w' r w'' :
  run_entries l1 w = (Ret None, w') → fn e w' = (r, w'') → r ≠ Ret None →
  run_entries (l1 ++ e :: l2) w = (r, w'').
Proof.
  intros H1 He Hr. rewrite run_entries_app, H1. cbn [run_entries]. unfold go_bind, go_ret.
  rewrite He. by destruct r as [[]|].
Qed.

(** * Witness *)
Definition mark_hook (p : Z) (msg : string) : hookEntry :=
  {| priority := p; fn := log msg ;;; go_ret None |}.

Lemma run_first_failure_witness :
  (run_entries [mark_hook 1 "a"; {| priority := 2; fn := go_ret (Some (ErrorText "no")) |};
                mark_hook 3 "c"] demo_world).1 = Ret (Some (ErrorText "no")) ∧
  w_log (run_entries [mark_hook 1 "a"; {| priority := 2; fn := go_ret (Some (ErrorText "no")) |};
                mark_hook 3 "c"] demo_world).2 = ["a"].
Proof.
  pose proof (run_first_failure [mark_hook 1 "a"]
    {| priority := 2; fn := go_ret (Some (ErrorText "no")) |} [mark_hook 3 "c"] demo_world
    (set_w_log ["a"] demo_world) (Ret (Some (ErrorText "no"))) (set_w_log ["a"] demo_world)
    eq_refl eq_refl ltac:(done)) as H.
  split; [exact (f_equal fst H)|exact (f_equal (λ r, w_log r.2) H)].
Defined.

(** Hooks of equal priority run in registration order, lower priorities first. *)
Example finalize_demo :
  w_log (run OnRequest (finalize
    (add OnRequest (log "default" ;;; go_ret None)
      (addWithPriority OnRequest (-5) (log "early" ;;; go_ret None)
        (add OnRequest (log "first" ;;; go_ret None) newHookRegistry)))) demo_world).2 =
  ["early"; "first"; "default"].
Proof. done. Qed.
