(* ===== verification/App.v ===== *)
(** What handlers and middleware reach through [ctx.app] while serving, and the
    central error handling (server.go): the OnError hooks, the configured error
    handler, and the default one. *)
From S2P Require Import Prelude GoStrings Http Response Errors RequestContext Hooks.
Open Scope go_scope.

(** * The code *)

(** [a.errorHandler]: the application's own default or a function set with
    [WithErrorHandler]. *)
Inductive error_handler : Type :=
  | DefaultErrorHandler
  | CustomErrorHandler (h : error → GoM World unit).

(** The parts of the application a running handler uses; route handlers and
    middleware take it as an argument. *)
Record Runtime : Type := {
  hooks : hookRegistry;
  hasHook : HookPhase → bool;
  errorHandler : option error_handler;
}.

Definition defaultErrorHandler (err : error) : GoM World unit :=
  let! rid := get_ctx RequestID in
  let '(status, resp, msg) := error_response err rid in
  match msg with Some msg => log msg | None => go_ret tt end ;;;
  JSON status resp ;;;
  go_ret tt.

(** [a.handleError(c, err)]. *)
Definition handleError (rt : Runtime) (err : error) : GoM World unit :=
  (if hasHook rt OnError then
     let! prev := get_ctx c_hookErr in
     mod_ctx (set_c_hookErr (Some err)) ;;;
     run OnError (hooks rt) ;;;
     mod_ctx (set_c_hookErr prev)
   else go_ret tt) ;;;
  match errorHandler rt with
  | Some (CustomErrorHandler h) => h err
  | Some DefaultErrorHandler | None => defaultErrorHandler err
  end.

(** The flags of [setHookFlag]; startup and shutdown hooks have none. *)
Definition setHookFlag (phase : HookPhase) (flags : HookPhase → bool) : HookPhase → bool :=
  match phase with
  | OnStartup | OnShutdown => flags
  | _ => λ p, if decide (p = phase) then true else flags p
  end.

(** [a.AddHookWithPriority(phase, priority, fn)] for a non-nil [fn]. *)
Definition AddHookWithPriority (phase : HookPhase) (prio : Z) (f : HookFunc) (rt : Runtime)
    : Runtime := {|
  hooks := addWithPriority phase prio f (hooks rt);
  hasHook := setHookFlag phase (hasHook rt);
  errorHandler := errorHandler rt |}.
Definition AddHook (phase : HookPhase) (f : HookFunc) (rt : Runtime) : Runtime :=
  AddHookWithPriority phase 0 f rt.

(** [a.ensureReady()]: the registry is finalized and the flags recomputed. *)
Definition flagged (phase : HookPhase) : bool :=
  match phase with OnStartup | OnShutdown => false | _ => true end.
Definition ready_hooks (rt : Runtime) : Runtime :=
  let hr := finalize (hooks rt) in {|
  hooks := hr;
  hasHook := λ p, flagged p && (0 <? length (hr p))%nat;
  errorHandler := errorHandler rt |}.

(** * Hook flags *)

(** The flag of a phase says whether the phase has hooks. *)
Definition flags_exact (rt : Runtime) : Prop :=
  ∀ p, hasHook rt p = flagged p && (0 <? length (hooks rt p))%nat.

Lemma sort_entries_length l : length (sort_entries l) = length l.
Proof. by rewrite sort_entries_perm. Qed.

Lemma AddHook_flags phase prio f rt :
  flags_exact rt → flags_exact (AddHookWithPriority phase prio f rt).
Proof.
  unfold flags_exact, AddHookWithPriority, addWithPriority, set_phase. cbn [hasHook hooks].
  intros Hf p. specialize (Hf p). destruct (decide (p = phase)) as [->|Hne].
  - rewrite length_app. cbn [length].
    rewrite (proj2 (Nat.ltb_lt _ _)) by lia.
    unfold setHookFlag; destruct phase; cbn [flagged andb]; try (by rewrite decide_True); exact Hf.
  - unfold setHookFlag; destruct phase; try (rewrite decide_False by done); exact Hf.
Qed.

(** The flags the dispatcher consults instead of the hook lists never lie: adding
    hooks keeps them exact, and [ensureReady], which sorts the lists, recomputes
    the same flags. *)
Theorem hook_flags_exact rt added :
  flags_exact rt →
  let rt' := foldl (λ rt '(phase, prio, f), AddHookWithPriority phase prio f rt) rt added in
  flags_exact rt' ∧ flags_exact (ready_hooks rt') ∧
  ∀ p, hasHook (ready_hooks rt') p = hasHook rt' p.
Proof.
  cbn zeta. intros Hf.
  set (rt' := foldl _ rt added).
  assert (flags_exact rt') as Hrt'.
  { subst rt'. revert rt Hf. induction added as [|[[phase prio] f] added IH]; intros rt Hf; [done|].
    cbn [foldl]. by apply IH, AddHook_flags. }
  split_and!; [done|by intros p|]. intros p. cbn [hasHook ready_hooks].
  by rewrite finalize_phase, sort_entries_length, Hrt'.
Qed.

(** A phase without hooks runs nothing: skipping it on a cleared flag is sound. *)
Lemma run_unflagged rt p w :
  flags_exact rt → flagged p = true → hasHook rt p = false → run p (hooks rt) w = (Ret None, w).
Proof.
  intros Hf Hp Hn. rewrite Hf, Hp in Hn. unfold run.
  destruct (hooks rt p); [done|]. done.
Qed.

(** * Answering an error *)

(** The error response as the operations on the response writer, and the log
    line that precedes it. *)
Definition error_ops (c : Ctx) (err : error) : list wop :=
  let '(status, resp, _) := error_response err (RequestID c) in
  json_ops (c_app c) (if (status =? 0)%Z then c_statusCode c else status) resp.
Definition error_log (c : Ctx) (err : error) : list string :=
  match (error_response err (RequestID c)).2 with Some m => [m] | None => [] end.

Lemma set_w_log_nil w : set_w_log (w_log w ++ []) w = w.
Proof. destruct w. cbn. by rewrite app_nil_r. Qed.

Lemma defaultErrorHandler_eq err w :
  let c := w_ctx w in
  let w1 := set_w_log (w_log w ++ error_log c err) w in
  defaultErrorHandler err w =
    (Ret tt, if c_written c then w1
             else run_wops (c_res c) (error_ops c err) (set_w_ctx (set_c_written true c) w1)).
Proof.
  cbn zeta. unfold defaultErrorHandler, error_log, error_ops. go_step.
  destruct (error_response err (RequestID (w_ctx w))) as [[status resp] msg]. cbn [snd].
  assert (∀ w1, w_ctx w1 = w_ctx w →
    go_bind (JSON status resp) (λ _, go_ret tt) w1 =
    (Ret tt, if c_written (w_ctx w) then w1
     else run_wops (c_res (w_ctx w))
       (json_ops (c_app (w_ctx w)) (if (status =? 0)%Z then c_statusCode (w_ctx w) else status) resp)
       (set_w_ctx (set_c_written true (w_ctx w)) w1))) as Hjson.
  { intros w1 Hw1. unfold go_bind, go_ret. rewrite JSON_once, Hw1.
    by destruct (c_written (w_ctx w)). }
  destruct msg as [m|]; cbn.
  - by apply (Hjson (set_w_log (w_log w ++ [m]) w)).
  - rewrite set_w_log_nil. by apply (Hjson w).
Qed.

(** No error handler of the application's user is in place. *)
Definition default_errors (rt : Runtime) : Prop :=
  hasHook rt OnError = false ∧
  match errorHandler rt with Some (CustomErrorHandler _) => False | _ => True end.

Lemma handleError_default rt err w :
  default_errors rt → handleError rt err w = defaultErrorHandler err w.
Proof.
  intros [Hh Hc]. unfold handleError. rewrite Hh.
  destruct (errorHandler rt) as [[|h]|]; done.
Qed.

Lemma handleError_effect rt err w :
  default_errors rt →
  ∃ w', handleError rt err w = (Ret tt, w') ∧
    if c_written (w_ctx w)
    then w_bw w' = w_bw w ∧ w_ctx w' = w_ctx w
    else w_bw w' = w_bw (run_wops (c_res (w_ctx w)) (error_ops (w_ctx w) err) w) ∧
         c_written (w_ctx w') = true.
Proof.
  intros Hrt. rewrite handleError_default, defaultErrorHandler_eq by done.
  eexists. split; [reflexivity|].
  destruct (c_written (w_ctx w)); [done|].
  split; [by apply run_wops_bw|]. by rewrite run_wops_ctx.
Qed.

Definition concat_all (bs : list string) : string := foldr String.append "" bs.

Lemma ops_body_writes bs : ops_body (map OWrite bs) = concat_all bs.
Proof. induction bs as [|b bs IH]; [done|]. cbn [map ops_body concat_all foldr]. by rewrite IH. Qed.

Lemma ops_body_app ops1 ops2 : ops_body (ops1 ++ ops2) = ops_body ops1 +:+ ops_body ops2.
Proof.
  induction ops1 as [|o ops IH]; [by rewrite string_app_nil_l|].
  destruct o; cbn [app ops_body]; rewrite IH; try done. by rewrite string_app_assoc.
Qed.

(** A JSON answer on the server's own, unused writer. *)
Lemma json_ops_sent app status v h :
  informational status = false → (codecEncode app v).1 ≠ [] →
  let rw := run_ops (json_ops app status v) (new_RW h) in
  final_status rw = status ∧ w_body rw = concat_all (codecEncode app v).1 ∧
  final_header rw = <["Content-Type" := [codecContentType app]]> h.
Proof.
  intros Hi Henc. cbn zeta. unfold final_status, final_header.
  destruct (run_ops_RW (json_ops app status v) (new_RW h) h "" eq_refl eq_refl eq_refl)
    as [-> ->].
  unfold json_ops, status_ops. rewrite string_app_nil_l.
  destruct (codecEncode app v) as [[|b bs] e]; [done|]. cbn [fst map].
  destruct (Z.eqb_spec status 200) as [->|]; cbn; rewrite ?Hi; split_and!; try done;
    by rewrite ops_body_writes.
Qed.


(** A handler that answers 200 with a value the codec cannot encode: the response
    counts as written before it is encoded, the error that comes back finds it
    written, and the client sees an empty 200. *)
Theorem encode_failure_is_blank_200 rt v err w :
  default_errors rt → c_written (w_ctx w) = false → wref_target (c_res (w_ctx w)) = WBase →
  bw_under (w_bw w) = new_RW (wr_header w) →
  codecEncode (c_app (w_ctx w)) v = ([], Some err) →
  let '(res, w1) := JSON 200 v w in
  let rw := bw_under (w_bw (handleError rt err w1).2) in
  res = Ret (Some err) ∧ w_sent rw = None ∧ final_status rw = 200%Z ∧ w_body rw = "".
Proof.
  intros Hrt Hw Hr Hfresh Henc. rewrite JSON_once, Hw, Henc. cbn zeta.
  set (w1 := run_wops _ _ _).
  destruct (handleError_effect rt err w1 Hrt) as (w' & -> & Heff). cbn [snd].
  assert (c_written (w_ctx w1) = true) as Hw1 by (subst w1; by rewrite run_wops_ctx).
  rewrite Hw1 in Heff. destruct Heff as [-> _]. subst w1.
  rewrite run_wops_base by done. unfold json_ops. rewrite Henc. cbn -[RW_writer].
  by rewrite Hfresh.
Qed.

(** * Witnesses *)

Definition demo_runtime : Runtime := {|
  hooks := newHookRegistry; hasHook := λ _, false; errorHandler := Some DefaultErrorHandler |}.

Lemma demo_default_errors : default_errors demo_runtime.
Proof. done. Qed.

Lemma hook_flags_exact_witness :
  flags_exact demo_runtime ∧
  hasHook (ready_hooks (AddHook OnSend (go_ret None) demo_runtime)) OnSend = true.
Proof.
  assert (flags_exact demo_runtime) as Hf by (intros []; reflexivity).
  split; [done|].
  destruct (hook_flags_exact demo_runtime [(OnSend, 0%Z, go_ret None)] Hf) as (_ & _ & Heq).
  by rewrite Heq.
Defined.


Lemma encode_failure_is_blank_200_witness :
  let '(_, w1) := JSON 200 (PValue (AnyOther "chan int" 0)) demo_world in
  final_status (bw_under (w_bw (handleError demo_runtime (ErrorText "json: unsupported type") w1).2)) =
    200%Z.
Proof.
  pose proof (encode_failure_is_blank_200 demo_runtime (PValue (AnyOther "chan int" 0))
    (ErrorText "json: unsupported type") demo_world ltac:(done) eq_refl eq_refl eq_refl eq_refl) as H.
  destruct (JSON 200 (PValue (AnyOther "chan int" 0)) demo_world) as [r w1].
  destruct H as (_ & _ & Hs & _). exact Hs.
Defined.
