(* ===== verification/Middleware.v ===== *)
(** Middleware (middleware.go, skippaths.go): the two forms every middleware may
    have, their registration, the two chains built from them, and the
    framework's own middleware. *)
From S2P Require Import Prelude GoStrings Http Response Errors RequestContext Hooks App.
Open Scope go_scope.

(** * The code *)

(** [Middleware] and [MiddlewareFunc]; the [Runtime] is the application the
    handler finds through its context while serving. *)
Definition Middleware : Type := Runtime → Handler → Handler.
Definition MiddlewareFunc : Type := Runtime → HandlerFunc → HandlerFunc.

Record NativeMiddleware : Type := {
  Stdlib : option Middleware;
  Native : option MiddlewareFunc;
  Name : string;
}.

Definition RegisterNativeMiddleware (m : option Middleware) (fn : option MiddlewareFunc)
    : NativeMiddleware := {| Stdlib := m; Native := fn; Name := "" |}.

(** [middlewareSlot]; registration never stores a slot without its stdlib form. *)
Record middlewareSlot : Type := {
  slot_stdlib : Middleware;
  slot_native : option MiddlewareFunc;
  slot_name : string;
}.

(** An argument of [Use] and its siblings by its dynamic type. *)
Inductive mw_arg : Type :=
  | ArgNil
  | ArgMiddleware (m : option Middleware)
  | ArgFunc (m : option Middleware)
  | ArgNative (v : NativeMiddleware)
  | ArgOther (type : string).

Definition coerceSlot (arg : mw_arg) (call : string) (index : nat) : outcome middlewareSlot :=
  let at_index := "aarv: " +:+ call +:+ ": argument " +:+ itoa (Z.of_nat index) in
  match arg with
  | ArgNil => Panic (at_index +:+ " is nil")
  | ArgMiddleware None => Panic (at_index +:+ " is a nil Middleware")
  | ArgMiddleware (Some v) =>
      Ret {| slot_stdlib := v; slot_native := None; slot_name := "" |}
  | ArgFunc None => Panic (at_index +:+ " is a nil middleware function")
  | ArgFunc (Some v) => Ret {| slot_stdlib := v; slot_native := None; slot_name := "" |}
  | ArgNative v =>
      match Stdlib v with
      | None => Panic (at_index +:+ " is NativeMiddleware with nil Stdlib")
      | Some m => Ret {| slot_stdlib := m; slot_native := Native v; slot_name := Name v |}
      end
  | ArgOther type =>
      Panic (at_index +:+ " has unsupported type " +:+ type +:+
        "; want Middleware, NativeMiddleware, or func(http.Handler) http.Handler")
  end.

Fixpoint coerce_from (args : list mw_arg) (call : string) (index : nat)
    : outcome (list middlewareSlot) :=
  match args with
  | [] => Ret []
  | a :: args' =>
      match coerceSlot a call index with
      | Panic msg => Panic msg
      | Ret slot =>
          match coerce_from args' call (S index) with
          | Panic msg => Panic msg
          | Ret slots => Ret (slot :: slots)
          end
      end
  end.

Definition coerceSlots (args : list mw_arg) (call : string) : outcome (list middlewareSlot) :=
  coerce_from args call 0.

Definition NamedMiddleware (name : string) (mw : mw_arg) : outcome NativeMiddleware :=
  match coerceSlot mw "NamedMiddleware" 0 with
  | Panic msg => Panic msg
  | Ret slot =>
      Ret {| Stdlib := Some (slot_stdlib slot); Native := slot_native slot; Name := name |}
  end.

(** [middlewareNames]; [label] is the symbol name [runtime.FuncForPC] finds. *)
Definition middlewareNames (label : Middleware → string) (slots : list middlewareSlot)
    : list string :=
  map (λ s, if negb (String.eqb (slot_name s) "") then slot_name s else label (slot_stdlib s)) slots.

(** [buildChain]: from the last slot to the first. *)
Definition buildChain (rt : Runtime) (handler : Handler) (slots : list middlewareSlot) : Handler :=
  foldl (λ h s, slot_stdlib s rt h) handler (rev slots).

Fixpoint native_loop (rt : Runtime) (chain : HandlerFunc) (rev_slots : list middlewareSlot)
    : option HandlerFunc :=
  match rev_slots with
  | [] => Some chain
  | s :: rest =>
      match slot_native s with
      | None => None
      | Some fn => native_loop rt (fn rt chain) rest
      end
  end.
Definition buildNativeChain (rt : Runtime) (handler : HandlerFunc) (slots : list middlewareSlot)
    : option HandlerFunc := native_loop rt handler (rev slots).

Definition has_native (s : middlewareSlot) : bool :=
  match slot_native s with Some _ => true | None => false end.
Definition allNative (slots : list middlewareSlot) : bool := forallb has_native slots.

(** [if err := m(ctx); err != nil { ctx.app.handleError(ctx, err) }]. *)
Definition handling (rt : Runtime) (m : HandlerFunc) : GoM World unit :=
  let! err := m in
  match err with Some err => handleError rt err | None => go_ret tt end.

(** The stdlib form of a [MiddlewareFunc]: without a context it is skipped; its
    [next] serves the request and writer it was given and reports no error. *)
Definition wrap_stdlib (fn : MiddlewareFunc) : Middleware := λ rt next w r,
  let! ok := contextFromRequest r in
  if (ok : bool) then handling rt (fn rt (next w r ;;; go_ret None))
  else next w r.

Definition WrapMiddleware (fn : option MiddlewareFunc) : NativeMiddleware :=
  match fn with
  | None => {| Stdlib := Some (λ _ next, next); Native := None; Name := "" |}
  | Some fn => {| Stdlib := Some (wrap_stdlib fn); Native := Some fn; Name := "" |}
  end.

(** [Recovery()]; a recovered native handler returns the nil error. *)
Definition recovered_error : error := AsApp (WithDetail "panic recovered" (ErrInternal None)).
Definition Recovery : NativeMiddleware := {|
  Stdlib := Some (λ rt next w r,
    go_recover (λ _,
      let! ok := contextFromRequest r in
      if (ok : bool) then
        log "panic recovered" ;;; mod_ctx (set_c_res w) ;;; handleError rt recovered_error
      else go_mod (wr_WriteHeader w 500))
      (next w r));
  Native := Some (λ rt next,
    go_recover (λ _, log "panic recovered" ;;; handleError rt recovered_error ;;; go_ret None)
      next);
  Name := "" |}.

(** The request-logging middleware. *)
Definition LoggerMiddleware : NativeMiddleware := {|
  Stdlib := Some (λ _ next w r,
    let! ok := contextFromRequest r in
    (if (ok : bool) then log "request" else go_ret tt) ;;; next w r);
  Native := Some (λ _ next, log "request" ;;; next);
  Name := "" |}.

Definition SkipPaths (paths : list string) (mw : mw_arg) : outcome NativeMiddleware :=
  match mw with
  | ArgNil => Panic "aarv.SkipPaths: mw must not be nil"
  | _ =>
      match coerceSlot mw "SkipPaths" 0 with
      | Panic msg => Panic msg
      | Ret slot =>
          match paths with
          | [] => Ret {| Stdlib := Some (slot_stdlib slot); Native := slot_native slot;
                         Name := slot_name slot |}
          | _ =>
              let skip : gset string := list_to_set paths in
              Ret {|
                Stdlib := Some (λ rt next w r,
                  if decide (r_Path r ∈ skip) then next w r
                  else slot_stdlib slot rt next w r);
                Native := (λ native rt next,
                  let! path := get_ctx (λ c, r_Path (c_req c)) in
                  if decide (path ∈ skip) then next else native rt next) <$> slot_native slot;
                Name := slot_name slot |}
          end
      end
  end.

(** * Registration *)

(** The arguments registration accepts, and the slot each becomes. *)
Definition accepted (arg : mw_arg) : option middlewareSlot :=
  match arg with
  | ArgMiddleware (Some m) | ArgFunc (Some m) =>
      Some {| slot_stdlib := m; slot_native := None; slot_name := "" |}
  | ArgNative v =>
      (λ m, {| slot_stdlib := m; slot_native := Native v; slot_name := Name v |}) <$> Stdlib v
  | _ => None
  end.

Lemma coerceSlot_accepted arg call i :
  match accepted arg with
  | Some slot => coerceSlot arg call i = Ret slot
  | None => ∃ msg, coerceSlot arg call i = Panic msg
  end.
Proof. destruct arg as [|[]|[]|[[] ? ?]|]; cbn; eauto. Qed.

(** Registration accepts exactly lists of usable middleware: it keeps them all, in
    order, and otherwise panics. *)
Theorem coerceSlots_total args call :
  match mapM accepted args with
  | Some slots => coerceSlots args call = Ret slots
  | None => ∃ msg, coerceSlots args call = Panic msg
  end.
Proof.
  unfold coerceSlots. generalize 0 as i.
  induction args as [|a args IH]; intros i; [done|]. cbn [mapM coerce_from].
  pose proof (coerceSlot_accepted a call i) as Ha. unfold mbind, option_bind.
  destruct (accepted a) as [slot|]; [|destruct Ha as [msg ->]; eauto].
  rewrite Ha. specialize (IH (S i)). destruct (mapM accepted args) as [slots|]; cbn.
  - by rewrite IH.
  - destruct IH as [msg ->]. eauto.
Qed.

(** * Chains *)

Lemma buildChain_cons rt h s slots :
  buildChain rt h (s :: slots) = slot_stdlib s rt (buildChain rt h slots).
Proof. unfold buildChain. cbn [rev]. by rewrite foldl_app. Qed.

Lemma buildChain_app rt h slots1 slots2 :
  buildChain rt h (slots1 ++ slots2) = buildChain rt (buildChain rt h slots2) slots1.
Proof. unfold buildChain. by rewrite rev_app_distr, foldl_app. Qed.

Lemma native_loop_app rt chain l1 l2 :
  native_loop rt chain (l1 ++ l2) =
    match native_loop rt chain l1 with Some c => native_loop rt c l2 | None => None end.
Proof.
  revert chain. induction l1 as [|s l1 IH]; intros chain; [done|]. cbn.
  by destruct (slot_native s).
Qed.

Lemma buildNativeChain_cons rt h s slots :
  buildNativeChain rt h (s :: slots) =
    match buildNativeChain rt h slots, slot_native s with
    | Some c, Some fn => Some (fn rt c)
    | _, _ => None
    end.
Proof.
  unfold buildNativeChain. cbn [rev]. rewrite native_loop_app.
  destruct (native_loop rt h (rev slots)); [|done]. cbn. by destruct (slot_native s).
Qed.

Lemma allNative_cons s slots : allNative (s :: slots) = has_native s && allNative slots.
Proof. done. Qed.

(** The native chain exists exactly when [allNative] says so: the check that gates
    building it never disagrees with the builder. *)
Theorem buildNativeChain_iff rt h slots :
  allNative slots = true ↔ is_Some (buildNativeChain rt h slots).
Proof.
  induction slots as [|s slots IH]; [by split; [eexists|]|].
  rewrite allNative_cons, buildNativeChain_cons, andb_true_iff, IH. unfold has_native.
  destruct (buildNativeChain rt h slots), (slot_native s); split;
    try (by intros [? [? [=]]]); try (by intros [? [=]]); eauto; intros [? ?]; done.
Qed.

(** A middleware that leaves a mark on the way in and another on the way out. *)
Definition marking (name : string) : middlewareSlot := {|
  slot_stdlib := λ _ next w r, log ("+" +:+ name) ;;; next w r ;;; log ("-" +:+ name);
  slot_native := Some (λ _ next,
    log ("+" +:+ name) ;;; let! err := next in log ("-" +:+ name) ;;; go_ret err);
  slot_name := name |}.

(** The first registered middleware is the outermost one, in both chains: on the
    way in the marks appear in registration order, on the way out in reverse. *)
Theorem chain_order rt names (h : World → World) w r wd :
  (∀ wd, w_log (h wd) = w_log wd) →
  let entered := map (String.append "+") names in
  let left := map (String.append "-") (rev names) in
  w_log (buildChain rt (λ _ _, go_mod h) (map marking names) w r wd).2 =
    w_log wd ++ entered ++ left ∧
  ∃ c, buildNativeChain rt (go_mod h ;;; go_ret None) (map marking names) = Some c ∧
    (c wd).1 = Ret None ∧ w_log (c wd).2 = w_log wd ++ entered ++ left.
Proof.
  intros Hh. cbn zeta.
  assert (∀ names wd, ∃ wd', buildChain rt (λ _ _, go_mod h) (map marking names) w r wd = (Ret tt, wd') ∧
    w_log wd' = w_log wd ++ map (String.append "+") names ++ map (String.append "-") (rev names))
    as Hstd.
  { clear names wd. induction names as [|n names IH]; intros wd.
    { eexists. split; [reflexivity|]. by rewrite Hh, app_nil_r. }
    cbn [map]. rewrite buildChain_cons. cbn [marking slot_stdlib].
    rewrite (go_bind_Ret _ _ _ _ _ (log_eq _ _)).
    destruct (IH (set_w_log (w_log wd ++ ["+" +:+ n]) wd)) as (wd' & Hc & Hl).
    rewrite (go_bind_Ret _ _ _ _ _ Hc), log_eq. eexists. split; [reflexivity|].
    world_simpl. rewrite Hl. world_simpl. cbn [rev map]. by rewrite map_app, <-!app_assoc. }
  assert (∀ names, ∃ c, buildNativeChain rt (go_mod h ;;; go_ret None) (map marking names) = Some c ∧
    ∀ wd, ∃ wd', c wd = (Ret None, wd') ∧
    w_log wd' = w_log wd ++ map (String.append "+") names ++ map (String.append "-") (rev names))
    as Hnat.
  { clear names wd. induction names as [|n names (c & Hc & IH)].
    { eexists. split; [reflexivity|]. intros wd. eexists. split; [reflexivity|]. by rewrite Hh, app_nil_r. }
    eexists. cbn [map]. rewrite buildNativeChain_cons, Hc. split; [reflexivity|].
    intros wd. rewrite (go_bind_Ret _ _ _ _ _ (log_eq _ _)).
    destruct (IH (set_w_log (w_log wd ++ ["+" +:+ n]) wd)) as (wd' & Hc' & Hl).
    rewrite (go_bind_Ret _ _ _ _ _ Hc'), (go_bind_Ret _ _ _ _ _ (log_eq _ _)).
    eexists. split; [reflexivity|].
    world_simpl. rewrite Hl. world_simpl. cbn [rev map]. by rewrite map_app, <-!app_assoc. }
  destruct (Hstd names wd) as (wd' & -> & Hl). split; [done|].
  destruct (Hnat names) as (c & Hc & Hn). exists c.
  destruct (Hn wd) as (wd'' & -> & Hl'). done.
Qed.

(** ** Agreement of the two paths *)

(** A guard: a middleware that looks at the request and either answers it itself,
    with an error or without, or hands it on. *)
Definition guard (check : GoM World (option (option error))) : MiddlewareFunc := λ _ next,
  let! d := check in
  match d with Some res => go_ret res | None => next end.

(** The check leaves the response writer, the request and the registry alone. *)
Definition transparent (check : GoM World (option (option error))) : Prop :=
  ∀ wd, let wd' := (check wd).2 in
    c_res (w_ctx wd') = c_res (w_ctx wd) ∧ c_req (w_ctx wd') = c_req (w_ctx wd) ∧
    w_registry wd' = w_registry wd.

(** The slot a wrapped guard is registered as. *)
Definition wrapped (check : GoM World (option (option error))) : middlewareSlot := {|
  slot_stdlib := wrap_stdlib (guard check); slot_native := Some (guard check); slot_name := "" |}.

Lemma wrapped_registered check call i :
  coerceSlot (ArgNative (WrapMiddleware (Some (guard check)))) call i = Ret (wrapped check).
Proof. done. Qed.

(** A handler of the native path and one of the stdlib path that do the same for a
    request, an error of the first handled. *)
Definition same_handler (rt : Runtime) (f : HandlerFunc) (rh : Handler) (w : wref) (r : request) : Prop :=
  ∀ wd, c_res (w_ctx wd) = w → c_req (w_ctx wd) = r → handling rt f wd = rh w r wd.

Lemma chains_agree rt checks f rh w r wd :
  Forall transparent checks → same_handler rt f rh w r →
  c_res (w_ctx wd) = w → c_req (w_ctx wd) = r →
  (contextFromRequest r wd).1 = Ret true →
  ∃ c, buildNativeChain rt f (map wrapped checks) = Some c ∧
    handling rt c wd = buildChain rt rh (map wrapped checks) w r wd.
Proof.
  intros Hch Hsame. revert wd. induction Hch as [|check checks Ht Hch IH]; intros wd Hw Hr Hctx.
  - eexists. split; [reflexivity|]. by apply Hsame.
  - cbn [map]. destruct (IH wd Hw Hr Hctx) as (c & Hc & _).
    rewrite buildNativeChain_cons, Hc, buildChain_cons. eexists. split; [reflexivity|].
    cbn [wrapped slot_stdlib]. unfold wrap_stdlib.
    rewrite (go_bind_Ret _ _ _ _ _ (contextFromRequest_eq _ _)).
    rewrite contextFromRequest_eq in Hctx. injection Hctx as Hctx. rewrite Hctx.
    unfold handling, guard. rewrite !go_bind_assoc, !(go_bind_eq check).
    pose proof (Ht wd) as (Hres & Hreq & Hreg).
    destruct (check wd) as [[[res|]|msg] wd1]; [done| |done]. cbn [snd] in *.
    destruct (IH wd1) as (c' & Hc' & Heq); [congruence..|by rewrite contextFromRequest_eq, Hreg, Hctx|].
    rewrite Hc in Hc'. injection Hc' as <-. unfold handling in Heq. rewrite Heq.
    rewrite go_bind_assoc, go_bind_eq.
    by destruct (buildChain rt rh (map wrapped checks) w r wd1) as [[[]|] ?].
Qed.

(** [C9] A chain of guards built for the native path and the one built for the stdlib
    path do the same to a request whose context is found: the same response, the
    same errors of the guards and of the handler handled, the same panics. The
    guards leave the writer, the request and the registry of contexts alone. The
    handler is one of the native path, whose error the stdlib chain handles where it
    returns and the native chain at its very end, or one of the stdlib path, as the
    dispatcher wraps it. *)
Theorem native_stdlib_agree rt checks w r wd :
  Forall transparent checks →
  c_res (w_ctx wd) = w → c_req (w_ctx wd) = r →
  (contextFromRequest r wd).1 = Ret true →
  (∀ f : HandlerFunc, ∃ c, buildNativeChain rt f (map wrapped checks) = Some c ∧
     handling rt c wd = buildChain rt (λ _ _, handling rt f) (map wrapped checks) w r wd) ∧
  (∀ rh : Handler, ∃ c, buildNativeChain rt
      (let! res := get_ctx c_res in let! req := get_ctx c_req in rh res req ;;; go_ret None)
      (map wrapped checks) = Some c ∧
    handling rt c wd = buildChain rt rh (map wrapped checks) w r wd).
Proof.
  intros Hch Hw Hr Hctx. split; [intros f|intros rh]; (apply chains_agree; [done| |done..]); [done|].
  intros wd' Hw' Hr'. unfold handling. go_step. rewrite Hw', Hr'.
  cbn. by destruct (rh w r wd') as [[[]|msg] wd''].
Qed.

(** A wrapped function that swaps the response writer of the context: on the
    native path the handler answers through the new writer, on the stdlib path the
    next handler is given the old one back. *)
Definition probing : MiddlewareFunc := λ _ next,
  let! w := get_ctx c_res in
  mod_ctx (set_c_res (WProbe w)) ;;; next.

Example swapped_writer_lost :
  let route : Handler := λ w r, mod_ctx (set_c_res w) ;;; res_Write "x" in
  let stdlib := wrap_stdlib probing demo_runtime route WBase demo_request in
  let native := probing demo_runtime
    (let! w := get_ctx c_res in route w demo_request ;;; go_ret None) in
  let marked := set_w_registry {[ 0 ]} demo_world in
  w_probe (native marked).2 = true ∧ w_probe (stdlib marked).2 = false.
Proof. done. Qed.

(** * The framework's middleware *)

Lemma handleError_Ret rt err wd :
  default_errors rt →
  ∃ wd', handleError rt err wd = (Ret tt, wd') ∧ c_written (w_ctx wd') = true.
Proof.
  intros Hrt. destruct (handleError_effect rt err wd Hrt) as (wd' & -> & Heff).
  exists wd'. split; [done|]. destruct (c_written (w_ctx wd)) eqn:Hw.
  - by destruct Heff as [_ ->].
  - by destruct Heff.
Qed.

(** Recovery turns every panic below it into an answered request, on both paths,
    and leaves a body that does not panic alone. The stdlib form answers on the
    writer it was itself given. *)
Theorem Recovery_contains_panics rt next (h : Handler) w r wd native stdlib :
  default_errors rt →
  Native Recovery = Some native → Stdlib Recovery = Some stdlib →
  (contextFromRequest r (h w r wd).2).1 = Ret true →
  (∃ wd', native rt next wd = (match next wd with (Ret res, _) => Ret res | _ => Ret None end, wd') ∧
     match next wd with
     | (Ret _, wd1) => wd' = wd1
     | (Panic _, _) => c_written (w_ctx wd') = true
     end) ∧
  (∃ wd', stdlib rt h w r wd = (Ret tt, wd') ∧
     match h w r wd with
     | (Ret _, wd1) => wd' = wd1
     | (Panic _, wd1) => c_written (w_ctx wd') = true ∧
         (c_written (w_ctx wd1) = false → wref_target w = WBase →
          bw_under (w_bw wd1) = new_RW (wr_header wd1) →
          (codecEncode (c_app (w_ctx wd1)) (PError "internal_error" "Internal server error"
             "panic recovered" (RequestID (w_ctx wd1)))).1 ≠ [] →
          final_status (bw_under (w_bw wd')) = 500%Z)
     end).
Proof.
  intros Hrt [= <-] [= <-] Hctx. split.
  - unfold go_recover. destruct (next wd) as [[res|msg] wd1]; [by eexists|].
    rewrite (go_bind_Ret _ _ _ _ _ (log_eq _ _)).
    destruct (handleError_Ret rt recovered_error
      (set_w_log (w_log wd1 ++ ["panic recovered"]) wd1) Hrt) as (wd' & Heq & Hw).
    rewrite (go_bind_Ret _ _ _ _ _ Heq). by eexists.
  - unfold go_recover. destruct (h w r wd) as [[[]|msg] wd1]; [by eexists|]. cbn [snd] in Hctx.
    rewrite contextFromRequest_eq in Hctx. injection Hctx as Hctx.
    rewrite (go_bind_Ret _ _ _ _ _ (contextFromRequest_eq _ _)), Hctx.
    rewrite (go_bind_Ret _ _ _ _ _ (log_eq _ _)).
    set (wd2 := set_w_ctx (set_c_res w (w_ctx wd1)) (set_w_log (w_log wd1 ++ ["panic recovered"]) wd1)).
    rewrite (go_bind_Ret _ _ tt _ wd2) by done.
    destruct (handleError_effect rt recovered_error wd2 Hrt) as (wd' & Heq & Heff).
    destruct (handleError_Ret rt recovered_error wd2 Hrt) as (wd'' & Heq' & Hw).
    rewrite Heq in Heq'. injection Heq' as <-. rewrite Heq. exists wd'. split_and!; [done..|].
    intros Huncommitted Hbase Hfresh Henc.
    change (c_written (w_ctx wd2)) with (c_written (w_ctx wd1)) in Heff.
    rewrite Huncommitted in Heff. destruct Heff as [-> _].
    change (c_res (w_ctx wd2)) with w. rewrite run_wops_base by done.
    change (bw_under (w_bw wd2)) with (bw_under (w_bw wd1)). rewrite Hfresh.
    change (error_ops (w_ctx wd2) recovered_error) with
      (json_ops (c_app (w_ctx wd1)) 500 (PError "internal_error" "Internal server error"
         "panic recovered" (RequestID (w_ctx wd1)))).
    by destruct (json_ops_sent (c_app (w_ctx wd1)) 500 (PError "internal_error" "Internal server error"
         "panic recovered" (RequestID (w_ctx wd1))) (wr_header wd1) eq_refl Henc).
Qed.

(** A middleware under [SkipPaths] sees exactly the requests for the other paths:
    for a listed path both forms behave as the next handler, for any other path as
    the middleware; and the native form exists iff the middleware has one. *)
Theorem SkipPaths_exact paths arg slot rt h next w r wd :
  accepted arg = Some slot → c_req (w_ctx wd) = r →
  ∃ v m, SkipPaths paths arg = Ret v ∧ Stdlib v = Some m ∧ Name v = slot_name slot ∧
    m rt h w r wd = (if decide (r_Path r ∈ paths) then h w r wd else slot_stdlib slot rt h w r wd) ∧
    match slot_native slot, Native v with
    | Some fn, Some fn' =>
        fn' rt next wd = if decide (r_Path r ∈ paths) then next wd else fn rt next wd
    | None, None => True
    | _, _ => False
    end.
Proof.
  intros Hacc Hr. pose proof (coerceSlot_accepted arg "SkipPaths" 0) as Hco. rewrite Hacc in Hco.
  unfold SkipPaths. rewrite Hco.
  destruct arg as [|m|m|v|ty]; [done| | | |done];
    (destruct paths as [|p paths];
     [eexists _, _; split_and!; [done..|by rewrite decide_False by apply not_elem_of_nil|];
      cbn; destruct (slot_native slot); [by rewrite decide_False by apply not_elem_of_nil|done]|]);
    eexists _, _; (split_and!; [done..| |]); cbn -[list_to_set];
    try (destruct (slot_native slot); [|done]; cbn -[list_to_set]; go_step; rewrite Hr);
    by repeat case_decide; set_solver.
Qed.

(** * Witnesses *)

Definition marked_world : World := set_w_registry {[ 0 ]} demo_world.

Lemma chain_order_witness :
  w_log (buildChain demo_runtime (λ _ _, go_mod (λ wd, wd)) (map marking ["a"; "b"]) WBase demo_request
    demo_world).2 = ["+a"; "+b"; "-b"; "-a"].
Proof.
  destruct (chain_order demo_runtime ["a"; "b"] (λ wd, wd) WBase demo_request demo_world
    ltac:(done)) as [H _].
  exact H.
Defined.

Definition deny_all : GoM World (option (option error)) :=
  log "deny" ;;; go_ret (Some (Some (AsApp (ErrForbidden "no")))).

(** A native handler that fails behind two guards that let it pass. *)
Lemma native_stdlib_agree_witness :
  ∃ c, buildNativeChain demo_runtime (go_ret (Some (AsApp (ErrNotFound "gone"))))
      (map wrapped [go_ret None; go_ret None]) = Some c ∧
    (let rw := bw_under (w_bw (handling demo_runtime c marked_world).2) in final_status rw = 404%Z) ∧
    handling demo_runtime c marked_world =
      buildChain demo_runtime (λ _ _, handling demo_runtime (go_ret (Some (AsApp (ErrNotFound "gone")))))
        (map wrapped [go_ret None; go_ret None]) WBase demo_request marked_world.
Proof.
  destruct (native_stdlib_agree demo_runtime [go_ret None; go_ret None] WBase demo_request marked_world)
    as [H _]; [by repeat constructor|reflexivity..|].
  destruct (H (go_ret (Some (AsApp (ErrNotFound "gone"))))) as (c & Hc & Heq).
  exists c. split; [exact Hc|]. split; [|exact Heq]. rewrite Heq. reflexivity.
Defined.

Lemma Recovery_contains_panics_witness :
  ∃ m wd', Stdlib Recovery = Some m ∧
    m demo_runtime (λ _ _, go_panic "boom") WBase demo_request marked_world = (Ret tt, wd') ∧
    final_status (bw_under (w_bw wd')) = 500%Z.
Proof.
  destruct (Recovery_contains_panics demo_runtime (go_panic "boom") (λ _ _, go_panic "boom")
    WBase demo_request marked_world _ _ demo_default_errors eq_refl eq_refl eq_refl)
    as [_ (wd' & Heq & Hw & Hs)].
  eexists _, wd'. split_and!; [reflexivity|exact Heq|].
  apply Hs; done.
Defined.

Lemma SkipPaths_exact_witness :
  ∃ v m, SkipPaths ["/users/42"] (ArgMiddleware (Some (λ _ _ _ _, go_panic "never"))) = Ret v ∧
    Stdlib v = Some m ∧
    m demo_runtime (λ _ _, go_ret tt) WBase demo_request demo_world = (Ret tt, demo_world).
Proof.
  destruct (SkipPaths_exact ["/users/42"] (ArgMiddleware (Some (λ _ _ _ _, go_panic "never"))) _
    demo_runtime (λ _ _, go_ret tt) (go_ret None) WBase demo_request demo_world eq_refl eq_refl)
    as (v & m & Hs & Hm & _ & Heq & _).
  exists v, m. split_and!; [exact Hs|exact Hm|]. rewrite Heq. reflexivity.
Defined.
