(* ===== verification/Routing.v ===== *)
(** Route registration (app_routes.go, router.go, handler.go, plugin.go): route
    options, handler adaptation, the tables [addRoute] fills for the application
    and for groups, groups and plugins. Registration is a computation on the
    application that may panic. *)
From S2P Require Import Prelude GoStrings Http Response Pattern.
From S2P Require Import Errors RequestContext Hooks App Middleware.
Open Scope go_scope.

(** * Route options *)

(** A [reflect.Type], up to what [unwrapPtr] sees of it. *)
Inductive gotype : Type :=
  | TyValue (name : string)
  | TyPtr (elem : gotype).

Fixpoint unwrapPtr (t : gotype) : gotype :=
  match t with TyPtr t' => unwrapPtr t' | TyValue _ => t end.
Definition schemaTypeOf (v : option gotype) : option gotype := unwrapPtr <$> v.

Record routeConfig : Type := MkConfig {
  rc_name : string;
  rc_tags : list string;
  rc_description : string;
  rc_deprecated : bool;
  rc_maxBodySize : Z;
  rc_middleware : list middlewareSlot;
  rc_summary : string;
  rc_operationID : string;
  rc_schemaReq : option gotype;
  rc_schemaRes : option gotype;
  rc_responses : option (gmap Z string);
  rc_requestContentType : string;
  rc_idempotencyTTL : option Z;
}.

Definition set_rc_name (x : string) (rc : routeConfig) : routeConfig :=
  MkConfig x (rc_tags rc) (rc_description rc) (rc_deprecated rc) (rc_maxBodySize rc)
    (rc_middleware rc) (rc_summary rc) (rc_operationID rc) (rc_schemaReq rc) (rc_schemaRes rc)
    (rc_responses rc) (rc_requestContentType rc) (rc_idempotencyTTL rc).
Definition set_rc_tags (x : list string) (rc : routeConfig) : routeConfig :=
  MkConfig (rc_name rc) x (rc_description rc) (rc_deprecated rc) (rc_maxBodySize rc)
    (rc_middleware rc) (rc_summary rc) (rc_operationID rc) (rc_schemaReq rc) (rc_schemaRes rc)
    (rc_responses rc) (rc_requestContentType rc) (rc_idempotencyTTL rc).
Definition set_rc_description (x : string) (rc : routeConfig) : routeConfig :=
  MkConfig (rc_name rc) (rc_tags rc) x (rc_deprecated rc) (rc_maxBodySize rc) (rc_middleware rc)
    (rc_summary rc) (rc_operationID rc) (rc_schemaReq rc) (rc_schemaRes rc) (rc_responses rc)
    (rc_requestContentType rc) (rc_idempotencyTTL rc).
Definition set_rc_deprecated (x : bool) (rc : routeConfig) : routeConfig :=
  MkConfig (rc_name rc) (rc_tags rc) (rc_description rc) x (rc_maxBodySize rc)
    (rc_middleware rc) (rc_summary rc) (rc_operationID rc) (rc_schemaReq rc) (rc_schemaRes rc)
    (rc_responses rc) (rc_requestContentType rc) (rc_idempotencyTTL rc).
Definition set_rc_maxBodySize (x : Z) (rc : routeConfig) : routeConfig :=
  MkConfig (rc_name rc) (rc_tags rc) (rc_description rc) (rc_deprecated rc) x (rc_middleware rc)
    (rc_summary rc) (rc_operationID rc) (rc_schemaReq rc) (rc_schemaRes rc) (rc_responses rc)
    (rc_requestContentType rc) (rc_idempotencyTTL rc).
Definition set_rc_middleware (x : list middlewareSlot) (rc : routeConfig) : routeConfig :=
  MkConfig (rc_name rc) (rc_tags rc) (rc_description rc) (rc_deprecated rc) (rc_maxBodySize rc)
    x (rc_summary rc) (rc_operationID rc) (rc_schemaReq rc) (rc_schemaRes rc) (rc_responses rc)
    (rc_requestContentType rc) (rc_idempotencyTTL rc).
Definition set_rc_summary (x : string) (rc : routeConfig) : routeConfig :=
  MkConfig (rc_name rc) (rc_tags rc) (rc_description rc) (rc_deprecated rc) (rc_maxBodySize rc)
    (rc_middleware rc) x (rc_operationID rc) (rc_schemaReq rc) (rc_schemaRes rc)
    (rc_responses rc) (rc_requestContentType rc) (rc_idempotencyTTL rc).
Definition set_rc_operationID (x : string) (rc : routeConfig) : routeConfig :=
  MkConfig (rc_name rc) (rc_tags rc) (rc_description rc) (rc_deprecated rc) (rc_maxBodySize rc)
    (rc_middleware rc) (rc_summary rc) x (rc_schemaReq rc) (rc_schemaRes rc) (rc_responses rc)
    (rc_requestContentType rc) (rc_idempotencyTTL rc).
Definition set_rc_schemaReq (x : option gotype) (rc : routeConfig) : routeConfig :=
  MkConfig (rc_name rc) (rc_tags rc) (rc_description rc) (rc_deprecated rc) (rc_maxBodySize rc)
    (rc_middleware rc) (rc_summary rc) (rc_operationID rc) x (rc_schemaRes rc) (rc_responses rc)
    (rc_requestContentType rc) (rc_idempotencyTTL rc).
Definition set_rc_schemaRes (x : option gotype) (rc : routeConfig) : routeConfig :=
  MkConfig (rc_name rc) (rc_tags rc) (rc_description rc) (rc_deprecated rc) (rc_maxBodySize rc)
    (rc_middleware rc) (rc_summary rc) (rc_operationID rc) (rc_schemaReq rc) x (rc_responses rc)
    (rc_requestContentType rc) (rc_idempotencyTTL rc).
Definition set_rc_responses (x : option (gmap Z string)) (rc : routeConfig) : routeConfig :=
  MkConfig (rc_name rc) (rc_tags rc) (rc_description rc) (rc_deprecated rc) (rc_maxBodySize rc)
    (rc_middleware rc) (rc_summary rc) (rc_operationID rc) (rc_schemaReq rc) (rc_schemaRes rc) x
    (rc_requestContentType rc) (rc_idempotencyTTL rc).
Definition set_rc_requestContentType (x : string) (rc : routeConfig) : routeConfig :=
  MkConfig (rc_name rc) (rc_tags rc) (rc_description rc) (rc_deprecated rc) (rc_maxBodySize rc)
    (rc_middleware rc) (rc_summary rc) (rc_operationID rc) (rc_schemaReq rc) (rc_schemaRes rc)
    (rc_responses rc) x (rc_idempotencyTTL rc).
Definition set_rc_idempotencyTTL (x : option Z) (rc : routeConfig) : routeConfig :=
  MkConfig (rc_name rc) (rc_tags rc) (rc_description rc) (rc_deprecated rc) (rc_maxBodySize rc)
    (rc_middleware rc) (rc_summary rc) (rc_operationID rc) (rc_schemaReq rc) (rc_schemaRes rc)
    (rc_responses rc) (rc_requestContentType rc) x.

Definition empty_config : routeConfig :=
  MkConfig "" [] "" false 0 [] "" "" None None None "" None.

Definition RouteOption : Type := routeConfig → routeConfig.

Definition WithName (name : string) : RouteOption := set_rc_name name.
Definition WithTags (tags : list string) : RouteOption := set_rc_tags tags.
Definition WithDescription (desc : string) : RouteOption := set_rc_description desc.
Definition WithDeprecated : RouteOption := set_rc_deprecated true.
Definition WithRouteMiddleware (mw : list mw_arg) : outcome RouteOption :=
  match coerceSlots mw "WithRouteMiddleware" with
  | Panic msg => Panic msg
  | Ret slots => Ret (set_rc_middleware slots)
  end.
Definition WithRouteMaxBodySize (bytes : Z) : RouteOption := set_rc_maxBodySize bytes.
Definition WithOperationID (id : string) : RouteOption := set_rc_operationID id.
Definition WithSummary (s : string) : RouteOption := set_rc_summary s.
Definition WithSchemaTypes (req res : option gotype) : RouteOption := λ rc,
  set_rc_schemaRes (unwrapPtr <$> res) (set_rc_schemaReq (unwrapPtr <$> req) rc).
Definition WithSchema (req res : option gotype) : outcome RouteOption :=
  match req, res with
  | None, None => Panic "aarv: WithSchema(nil, nil) is meaningless; omit the option"
  | _, _ => Ret (WithSchemaTypes (schemaTypeOf req) (schemaTypeOf res))
  end.
Definition WithResponse (status : Z) (description : string) : outcome RouteOption :=
  if (status <? 100)%Z || (599 <? status)%Z
  then Panic "aarv: WithResponse status must be in [100, 599]"
  else Ret (λ rc, set_rc_responses (Some (<[status := description]> (default ∅ (rc_responses rc)))) rc).
Definition WithRequestContentType (ct : string) : RouteOption := set_rc_requestContentType ct.
Definition WithRouteIdempotencyTTL (d : Z) : outcome RouteOption :=
  if (d <? 0)%Z then Panic "aarv: WithRouteIdempotencyTTL must not be negative"
  else Ret (set_rc_idempotencyTTL (Some d)).

Definition apply_options (opts : list RouteOption) : routeConfig :=
  foldl (λ rc opt, opt rc) empty_config opts.

Record RouteInfo : Type := {
  ri_Method : string;
  ri_Pattern : string;
  ri_Name : string;
  ri_Tags : list string;
  ri_Summary : string;
  ri_Description : string;
  ri_OperationID : string;
  ri_Deprecated : bool;
  ri_RequestType : option gotype;
  ri_ResponseType : option gotype;
  ri_Responses : option (gmap Z string);
  ri_RequestContentType : string;
  ri_IdempotencyTTL : option Z;
  ri_Middleware : list string;
}.

(** * The application *)

(** A registered handler; the [Runtime] is that of the serving application. *)
Definition rhandler : Type := Runtime → Handler.

(** Two-level tables by method and path. *)
Notation table H := (gmap string (gmap string H)) (only parsing).
Definition table_set {H} (method path : string) (h : H) (t : table H) : table H :=
  <[method := <[path := h]> (default ∅ (t !! method))]> t.
Definition table_get {H} (method path : string) (t : table H) : option H :=
  match t !! method with Some m => m !! path | None => None end.

Record dynamicRoute : Type := {
  dr_handler : rhandler;
  dr_pattern : directPattern;
  dr_patternStr : string;
}.
Definition routes_of (method : string) (t : gmap string (list dynamicRoute)) : list dynamicRoute :=
  default [] (t !! method).
Definition add_dynamic (method : string) (r : dynamicRoute) (t : gmap string (list dynamicRoute))
    : gmap string (list dynamicRoute) := <[method := routes_of method t ++ [r]]> t.

Record dynamicRouteMethods : Type := {
  drm_patternString : string;
  drm_pattern : directPattern;
  drm_methods : gset string;
}.

Record App : Type := MkApp {
  app_rt : Runtime;
  app_core : AppCore;
  MaxBodySize : Z;
  RedirectTrailingSlash : bool;
  notFoundHandler : HandlerFunc;
  methodNotAllowedHandler : HandlerFunc;
  globalMiddleware : list middlewareSlot;
  plugins : list string;
  decorators : gmap string any;
  routes : list RouteInfo;
  mux : gmap string rhandler;
  routesByKey : gset string;
  routeMethodsExact : gmap string (gset string);
  routeMethodsDynamic : list dynamicRouteMethods;
  routeHandlerFast : table rhandler;
  groupRouteHandlers : table rhandler;
  groupRouteNative : table rhandler;
  groupDynamicHandlers : gmap string (list dynamicRoute);
  groupDynamicNative : gmap string (list dynamicRoute);
  directDynamicRoutes : gmap string (list dynamicRoute);
  redirects : RedirectTable;
}.

Definition set_app_rt (x : Runtime) (a : App) : App :=
  MkApp x (app_core a) (MaxBodySize a) (RedirectTrailingSlash a) (notFoundHandler a)
    (methodNotAllowedHandler a) (globalMiddleware a) (plugins a) (decorators a) (routes a)
    (mux a) (routesByKey a) (routeMethodsExact a) (routeMethodsDynamic a) (routeHandlerFast a)
    (groupRouteHandlers a) (groupRouteNative a) (groupDynamicHandlers a) (groupDynamicNative a)
    (directDynamicRoutes a) (redirects a).
Definition set_app_core (x : AppCore) (a : App) : App :=
  MkApp (app_rt a) x (MaxBodySize a) (RedirectTrailingSlash a) (notFoundHandler a)
    (methodNotAllowedHandler a) (globalMiddleware a) (plugins a) (decorators a) (routes a)
    (mux a) (routesByKey a) (routeMethodsExact a) (routeMethodsDynamic a) (routeHandlerFast a)
    (groupRouteHandlers a) (groupRouteNative a) (groupDynamicHandlers a) (groupDynamicNative a)
    (directDynamicRoutes a) (redirects a).
Definition set_MaxBodySize (x : Z) (a : App) : App :=
  MkApp (app_rt a) (app_core a) x (RedirectTrailingSlash a) (notFoundHandler a)
    (methodNotAllowedHandler a) (globalMiddleware a) (plugins a) (decorators a) (routes a)
    (mux a) (routesByKey a) (routeMethodsExact a) (routeMethodsDynamic a) (routeHandlerFast a)
    (groupRouteHandlers a) (groupRouteNative a) (groupDynamicHandlers a) (groupDynamicNative a)
    (directDynamicRoutes a) (redirects a).
Definition set_RedirectTrailingSlash (x : bool) (a : App) : App :=
  MkApp (app_rt a) (app_core a) (MaxBodySize a) x (notFoundHandler a)
    (methodNotAllowedHandler a) (globalMiddleware a) (plugins a) (decorators a) (routes a)
    (mux a) (routesByKey a) (routeMethodsExact a) (routeMethodsDynamic a) (routeHandlerFast a)
    (groupRouteHandlers a) (groupRouteNative a) (groupDynamicHandlers a) (groupDynamicNative a)
    (directDynamicRoutes a) (redirects a).
Definition set_notFoundHandler (x : HandlerFunc) (a : App) : App :=
  MkApp (app_rt a) (app_core a) (MaxBodySize a) (RedirectTrailingSlash a) x
    (methodNotAllowedHandler a) (globalMiddleware a) (plugins a) (decorators a) (routes a)
    (mux a) (routesByKey a) (routeMethodsExact a) (routeMethodsDynamic a) (routeHandlerFast a)
    (groupRouteHandlers a) (groupRouteNative a) (groupDynamicHandlers a) (groupDynamicNative a)
    (directDynamicRoutes a) (redirects a).
Definition set_methodNotAllowedHandler (x : HandlerFunc) (a : App) : App :=
  MkApp (app_rt a) (app_core a) (MaxBodySize a) (RedirectTrailingSlash a) (notFoundHandler a) x
    (globalMiddleware a) (plugins a) (decorators a) (routes a) (mux a) (routesByKey a)
    (routeMethodsExact a) (routeMethodsDynamic a) (routeHandlerFast a) (groupRouteHandlers a)
    (groupRouteNative a) (groupDynamicHandlers a) (groupDynamicNative a) (directDynamicRoutes a)
    (redirects a).
Definition set_globalMiddleware (x : list middlewareSlot) (a : App) : App :=
  MkApp (app_rt a) (app_core a) (MaxBodySize a) (RedirectTrailingSlash a) (notFoundHandler a)
    (methodNotAllowedHandler a) x (plugins a) (decorators a) (routes a) (mux a) (routesByKey a)
    (routeMethodsExact a) (routeMethodsDynamic a) (routeHandlerFast a) (groupRouteHandlers a)
    (groupRouteNative a) (groupDynamicHandlers a) (groupDynamicNative a) (directDynamicRoutes a)
    (redirects a).
Definition set_plugins (x : list string) (a : App) : App :=
  MkApp (app_rt a) (app_core a) (MaxBodySize a) (RedirectTrailingSlash a) (notFoundHandler a)
    (methodNotAllowedHandler a) (globalMiddleware a) x (decorators a) (routes a) (mux a)
    (routesByKey a) (routeMethodsExact a) (routeMethodsDynamic a) (routeHandlerFast a)
    (groupRouteHandlers a) (groupRouteNative a) (groupDynamicHandlers a) (groupDynamicNative a)
    (directDynamicRoutes a) (redirects a).
Definition set_decorators (x : gmap string any) (a : App) : App :=
  MkApp (app_rt a) (app_core a) (MaxBodySize a) (RedirectTrailingSlash a) (notFoundHandler a)
    (methodNotAllowedHandler a) (globalMiddleware a) (plugins a) x (routes a) (mux a)
    (routesByKey a) (routeMethodsExact a) (routeMethodsDynamic a) (routeHandlerFast a)
    (groupRouteHandlers a) (groupRouteNative a) (groupDynamicHandlers a) (groupDynamicNative a)
    (directDynamicRoutes a) (redirects a).
Definition set_routes (x : list RouteInfo) (a : App) : App :=
  MkApp (app_rt a) (app_core a) (MaxBodySize a) (RedirectTrailingSlash a) (notFoundHandler a)
    (methodNotAllowedHandler a) (globalMiddleware a) (plugins a) (decorators a) x (mux a)
    (routesByKey a) (routeMethodsExact a) (routeMethodsDynamic a) (routeHandlerFast a)
    (groupRouteHandlers a) (groupRouteNative a) (groupDynamicHandlers a) (groupDynamicNative a)
    (directDynamicRoutes a) (redirects a).
Definition set_mux (x : gmap string rhandler) (a : App) : App :=
  MkApp (app_rt a) (app_core a) (MaxBodySize a) (RedirectTrailingSlash a) (notFoundHandler a)
    (methodNotAllowedHandler a) (globalMiddleware a) (plugins a) (decorators a) (routes a) x
    (routesByKey a) (routeMethodsExact a) (routeMethodsDynamic a) (routeHandlerFast a)
    (groupRouteHandlers a) (groupRouteNative a) (groupDynamicHandlers a) (groupDynamicNative a)
    (directDynamicRoutes a) (redirects a).
Definition set_routesByKey (x : gset string) (a : App) : App :=
  MkApp (app_rt a) (app_core a) (MaxBodySize a) (RedirectTrailingSlash a) (notFoundHandler a)
    (methodNotAllowedHandler a) (globalMiddleware a) (plugins a) (decorators a) (routes a)
    (mux a) x (routeMethodsExact a) (routeMethodsDynamic a) (routeHandlerFast a)
    (groupRouteHandlers a) (groupRouteNative a) (groupDynamicHandlers a) (groupDynamicNative a)
    (directDynamicRoutes a) (redirects a).
Definition set_routeMethodsExact (x : gmap string (gset string)) (a : App) : App :=
  MkApp (app_rt a) (app_core a) (MaxBodySize a) (RedirectTrailingSlash a) (notFoundHandler a)
    (methodNotAllowedHandler a) (globalMiddleware a) (plugins a) (decorators a) (routes a)
    (mux a) (routesByKey a) x (routeMethodsDynamic a) (routeHandlerFast a)
    (groupRouteHandlers a) (groupRouteNative a) (groupDynamicHandlers a) (groupDynamicNative a)
    (directDynamicRoutes a) (redirects a).
Definition set_routeMethodsDynamic (x : list dynamicRouteMethods) (a : App) : App :=
  MkApp (app_rt a) (app_core a) (MaxBodySize a) (RedirectTrailingSlash a) (notFoundHandler a)
    (methodNotAllowedHandler a) (globalMiddleware a) (plugins a) (decorators a) (routes a)
    (mux a) (routesByKey a) (routeMethodsExact a) x (routeHandlerFast a) (groupRouteHandlers a)
    (groupRouteNative a) (groupDynamicHandlers a) (groupDynamicNative a) (directDynamicRoutes a)
    (redirects a).
Definition set_routeHandlerFast (x : table rhandler) (a : App) : App :=
  MkApp (app_rt a) (app_core a) (MaxBodySize a) (RedirectTrailingSlash a) (notFoundHandler a)
    (methodNotAllowedHandler a) (globalMiddleware a) (plugins a) (decorators a) (routes a)
    (mux a) (routesByKey a) (routeMethodsExact a) (routeMethodsDynamic a) x
    (groupRouteHandlers a) (groupRouteNative a) (groupDynamicHandlers a) (groupDynamicNative a)
    (directDynamicRoutes a) (redirects a).
Definition set_groupRouteHandlers (x : table rhandler) (a : App) : App :=
  MkApp (app_rt a) (app_core a) (MaxBodySize a) (RedirectTrailingSlash a) (notFoundHandler a)
    (methodNotAllowedHandler a) (globalMiddleware a) (plugins a) (decorators a) (routes a)
    (mux a) (routesByKey a) (routeMethodsExact a) (routeMethodsDynamic a) (routeHandlerFast a) x
    (groupRouteNative a) (groupDynamicHandlers a) (groupDynamicNative a) (directDynamicRoutes a)
    (redirects a).
Definition set_groupRouteNative (x : table rhandler) (a : App) : App :=
  MkApp (app_rt a) (app_core a) (MaxBodySize a) (RedirectTrailingSlash a) (notFoundHandler a)
    (methodNotAllowedHandler a) (globalMiddleware a) (plugins a) (decorators a) (routes a)
    (mux a) (routesByKey a) (routeMethodsExact a) (routeMethodsDynamic a) (routeHandlerFast a)
    (groupRouteHandlers a) x (groupDynamicHandlers a) (groupDynamicNative a)
    (directDynamicRoutes a) (redirects a).
Definition set_groupDynamicHandlers (x : gmap string (list dynamicRoute)) (a : App) : App :=
  MkApp (app_rt a) (app_core a) (MaxBodySize a) (RedirectTrailingSlash a) (notFoundHandler a)
    (methodNotAllowedHandler a) (globalMiddleware a) (plugins a) (decorators a) (routes a)
    (mux a) (routesByKey a) (routeMethodsExact a) (routeMethodsDynamic a) (routeHandlerFast a)
    (groupRouteHandlers a) (groupRouteNative a) x (groupDynamicNative a) (directDynamicRoutes a)
    (redirects a).
Definition set_groupDynamicNative (x : gmap string (list dynamicRoute)) (a : App) : App :=
  MkApp (app_rt a) (app_core a) (MaxBodySize a) (RedirectTrailingSlash a) (notFoundHandler a)
    (methodNotAllowedHandler a) (globalMiddleware a) (plugins a) (decorators a) (routes a)
    (mux a) (routesByKey a) (routeMethodsExact a) (routeMethodsDynamic a) (routeHandlerFast a)
    (groupRouteHandlers a) (groupRouteNative a) (groupDynamicHandlers a) x
    (directDynamicRoutes a) (redirects a).
Definition set_directDynamicRoutes (x : gmap string (list dynamicRoute)) (a : App) : App :=
  MkApp (app_rt a) (app_core a) (MaxBodySize a) (RedirectTrailingSlash a) (notFoundHandler a)
    (methodNotAllowedHandler a) (globalMiddleware a) (plugins a) (decorators a) (routes a)
    (mux a) (routesByKey a) (routeMethodsExact a) (routeMethodsDynamic a) (routeHandlerFast a)
    (groupRouteHandlers a) (groupRouteNative a) (groupDynamicHandlers a) (groupDynamicNative a)
    x (redirects a).
Definition set_redirects (x : RedirectTable) (a : App) : App :=
  MkApp (app_rt a) (app_core a) (MaxBodySize a) (RedirectTrailingSlash a) (notFoundHandler a)
    (methodNotAllowedHandler a) (globalMiddleware a) (plugins a) (decorators a) (routes a)
    (mux a) (routesByKey a) (routeMethodsExact a) (routeMethodsDynamic a) (routeHandlerFast a)
    (groupRouteHandlers a) (groupRouteNative a) (groupDynamicHandlers a) (groupDynamicNative a)
    (directDynamicRoutes a) x.
Definition RegM (A : Type) : Type := GoM App A.

(** * Handlers *)

(** A handler argument by its dynamic type; [preHandled] is what
    [isPreHandledHandler] answers for the function. *)
Inductive handler_arg : Type :=
  | HHandlerFunc (h : HandlerFunc) (preHandled : bool)
  | HStdHandler (h : Handler)
  | HUnsupported (type : string).

Record adaptedHandler : Type := {
  ah_fn : HandlerFunc;
  ah_preHandled : bool;
}.

Definition adaptHandler (handler : handler_arg) : outcome adaptedHandler :=
  match handler with
  | HHandlerFunc h pre => Ret {| ah_fn := h; ah_preHandled := pre |}
  | HStdHandler h =>
      Ret {| ah_fn :=
               (let! w := get_ctx c_res in
                let! r := Request in
                h w r ;;; go_ret None);
             ah_preHandled := false |}
  | HUnsupported type => Panic ("aarv: unsupported handler type " +:+ type)
  end.

(** The body limit of a route: a body that is known to fit is left alone. *)
Definition enforce_limit (limit : Z) (r : request) : GoM World unit :=
  let! body := go_get (λ w, w_bodies w !! r_id r) in
  match body with
  | Some b =>
      if (0 <? limit)%Z && ((r_ContentLength r <? 0)%Z || (limit <? r_ContentLength r)%Z)
      then go_mod (λ w, set_w_bodies (<[r_id r := MaxBytesReader limit b]> (w_bodies w)) w)
      else go_ret tt
  | None => go_ret tt
  end.

(** The PreHandler hooks, unless the handler runs them itself. *)
Definition pre_handler (rt : Runtime) (adapted : adaptedHandler) : HandlerFunc :=
  if hasHook rt PreHandler && negb (ah_preHandled adapted) then run PreHandler (hooks rt)
  else go_ret None.

(** The body of a route handler once its context is known. *)
Definition run_handler (adapted : adaptedHandler) (limit : Z) (rt : Runtime) (r : request)
    : GoM World unit :=
  let! err := pre_handler rt adapted in
  match err with
  | Some err => handleError rt err
  | None => enforce_limit limit r ;;; handling rt (ah_fn adapted)
  end.

(** [internalHandler] of [App.addRoute]. *)
Definition internalHandler (adapted : adaptedHandler) (limit : Z) : rhandler := λ rt w r,
  mod_ctx (λ c, set_c_res w (set_c_req r c)) ;;;
  run_handler adapted limit rt r.

(** The [http.Handler] of a route. *)
Definition httpHandler (adapted : adaptedHandler) (limit : Z) : rhandler := λ rt w r,
  let! ok := contextFromRequest r in
  if (ok : bool) then internalHandler adapted limit rt w r
  else go_mod (wr_WriteHeader w 500).

(** [baseNative] of [RouteGroup.addRoute]: the handler with the context's own
    request and writer, its errors left to the caller. *)
Definition baseNative (adapted : adaptedHandler) (limit : Z) (rt : Runtime) : HandlerFunc :=
  let! err := pre_handler rt adapted in
  match err with
  | Some err => go_ret (Some err)
  | None =>
      let! req := get_ctx c_req in
      enforce_limit limit req ;;;
      ah_fn adapted
  end.

(** The native handler of a group's route, when its middleware allow one. *)
Definition group_native (adapted : adaptedHandler) (limit : Z) (slots : list middlewareSlot)
    : option rhandler :=
  match slots with
  | [] => Some (λ rt _ _, handling rt (baseNative adapted limit rt))
  | _ =>
      if allNative slots then
        Some (λ rt _ _,
          handling rt (default (baseNative adapted limit rt)
            (buildNativeChain rt (baseNative adapted limit rt) slots)))
      else None
  end.

(** * Registration *)

Section registration.
(** [http.ServeMux] refuses invalid patterns and patterns that conflict with the
    registered ones; [label] names a middleware function. *)
Context (mux_rejects : gset string → string → bool) (label : Middleware → string).

Definition mux_Handle (key : string) (h : rhandler) : RegM unit := λ a,
  if mux_rejects (dom (mux a)) key then (Panic ("http: invalid or conflicting pattern " +:+ key), a)
  else (Ret tt, set_mux (<[key := h]> (mux a)) a).

Definition trackRedirectSlashPattern (pattern : string) (isDynamic : bool) (compiled : directPattern)
    : App → App := λ a,
  let t := redirects a in
  set_redirects
    (if isDynamic then
       {| redirectSlashExact := redirectSlashExact t;
          redirectSlashDynamic := redirectSlashDynamic t ++ [compiled] |}
     else
       {| redirectSlashExact := {[pattern]} ∪ redirectSlashExact t;
          redirectSlashDynamic := redirectSlashDynamic t |}) a.

Fixpoint add_dynamic_method (method pattern : string) (compiled : directPattern)
    (l : list dynamicRouteMethods) : list dynamicRouteMethods :=
  match l with
  | [] => [{| drm_patternString := pattern; drm_pattern := compiled; drm_methods := {[method]} |}]
  | d :: l' =>
      if String.eqb (drm_patternString d) pattern then
        {| drm_patternString := drm_patternString d; drm_pattern := drm_pattern d;
           drm_methods := {[method]} ∪ drm_methods d |} :: l'
      else d :: add_dynamic_method method pattern compiled l'
  end.

Definition trackMethodPattern (method pattern : string) (isDynamic : bool) (compiled : directPattern)
    : App → App := λ a,
  if isDynamic
  then set_routeMethodsDynamic (add_dynamic_method method pattern compiled (routeMethodsDynamic a)) a
  else set_routeMethodsExact
    (<[pattern := {[method]} ∪ default ∅ (routeMethodsExact a !! pattern)]> (routeMethodsExact a)) a.

Definition set_idempotency (ttls : gmap string (gmap string Z)) (k : AppCore) : AppCore := {|
  codecContentType := codecContentType k; codecEncode := codecEncode k;
  codecMarshal := codecMarshal k; routeIdempotencyTTL := ttls;
  RequestContextBridge := RequestContextBridge k |}.

Definition recordRouteIdempotencyTTL (method pattern : string) (rc : routeConfig) : App → App := λ a,
  match rc_idempotencyTTL rc with
  | None => a
  | Some d =>
      set_app_core (set_idempotency
        (table_set method pattern d (routeIdempotencyTTL (app_core a))) (app_core a)) a
  end.

Definition routeInfoFromConfig (k : AppCore) (method pattern : string) (rc : routeConfig)
    (mwSlots : list middlewareSlot) : RouteInfo := {|
  ri_Method := method; ri_Pattern := pattern; ri_Name := rc_name rc; ri_Tags := rc_tags rc;
  ri_Summary := rc_summary rc; ri_Description := rc_description rc;
  ri_OperationID := rc_operationID rc; ri_Deprecated := rc_deprecated rc;
  ri_RequestType := rc_schemaReq rc; ri_ResponseType := rc_schemaRes rc;
  ri_Responses := rc_responses rc;
  ri_RequestContentType :=
    if String.eqb (rc_requestContentType rc) "" then
      match rc_schemaReq rc with Some _ => codecContentType k | None => "" end
    else rc_requestContentType rc;
  ri_IdempotencyTTL := rc_idempotencyTTL rc;
  ri_Middleware := middlewareNames label mwSlots |}.

Definition route_limit (rc : routeConfig) (a : App) : Z :=
  if (rc_maxBodySize rc =? 0)%Z then MaxBodySize a else rc_maxBodySize rc.

Definition is_dynamic (pattern : string) : bool := contains_byte "{" pattern.
Definition compiled_pattern (pattern : string) : directPattern :=
  if is_dynamic pattern then compileDirectPattern pattern else Pat [].

Definition add_route_info (ri : RouteInfo) (a : App) : App := set_routes (routes a ++ [ri]) a.
Definition mux_key (method pattern : string) : string := method +:+ " " +:+ pattern.

(** [App.addRoute]. *)
Definition addRoute (method pattern : string) (handler : handler_arg) (opts : list RouteOption)
    : RegM unit := λ a,
  let rc := apply_options opts in
  match adaptHandler handler with
  | Panic msg => (Panic msg, a)
  | Ret adapted =>
      let limit := route_limit rc a in
      let dyn := is_dynamic pattern in
      let dp := compiled_pattern pattern in
      (go_mod (trackRedirectSlashPattern pattern dyn dp) ;;;
       mux_Handle (mux_key method pattern)
         (λ rt, buildChain rt (httpHandler adapted limit rt) (rc_middleware rc)) ;;;
       (match rc_middleware rc with
        | [] =>
            if dyn then
              go_mod (λ a, set_directDynamicRoutes (add_dynamic method
                {| dr_handler := internalHandler adapted limit; dr_pattern := dp;
                   dr_patternStr := pattern |} (directDynamicRoutes a)) a)
            else
              go_mod (λ a, set_routeHandlerFast
                (table_set method pattern (internalHandler adapted limit) (routeHandlerFast a)) a)
        | _ => go_ret tt
        end) ;;;
       go_mod (λ a, set_routesByKey ({[mux_key method pattern]} ∪ routesByKey a) a) ;;;
       go_mod (λ a, add_route_info
         (routeInfoFromConfig (app_core a) method pattern rc (rc_middleware rc)) a) ;;;
       go_mod (trackMethodPattern method pattern dyn dp) ;;;
       go_mod (recordRouteIdempotencyTTL method pattern rc)) a
  end.

(** [Get], [Post], ... are [addRoute] at their method; [Any] registers seven. *)
Definition any_methods : list string :=
  ["GET"; "POST"; "PUT"; "DELETE"; "PATCH"; "HEAD"; "OPTIONS"].
Fixpoint for_each {S A} (f : A → GoM S unit) (l : list A) : GoM S unit :=
  match l with [] => go_ret tt | x :: l' => f x ;;; for_each f l' end.
Definition Any (pattern : string) (handler : handler_arg) (opts : list RouteOption) : RegM unit :=
  for_each (λ method, addRoute method pattern handler opts) any_methods.

(** [App.Use]. *)
Definition Use (middlewares : list mw_arg) : RegM unit := λ a,
  match coerceSlots middlewares "App.Use" with
  | Panic msg => (Panic msg, a)
  | Ret slots => (Ret tt, set_globalMiddleware (globalMiddleware a ++ slots) a)
  end.

Definition GlobalMiddleware (a : App) : list string := middlewareNames label (globalMiddleware a).

(** ** Groups *)

Record RouteGroup : Type := {
  prefix : string;
  group_middleware : list middlewareSlot;
}.

(** Registering within a group: the group is mutable too. *)
Definition GroupM (A : Type) : Type := GoM (App * RouteGroup) A.
Definition on_app {A} (m : RegM A) : GroupM A := λ s,
  let '(o, a) := m s.1 in (o, (a, s.2)).

(** [RouteGroup.addRoute]. *)
Definition group_addRoute (method pattern : string) (handler : handler_arg)
    (opts : list RouteOption) : GroupM unit := λ s,
  let '(a, g) := s in
  let rc := apply_options opts in
  match adaptHandler handler with
  | Panic msg => (Panic msg, s)
  | Ret adapted =>
      let fullPattern := prefix g +:+ pattern in
      let limit := route_limit rc a in
      let combined := group_middleware g ++ rc_middleware rc in
      let http : rhandler := λ rt, buildChain rt (httpHandler adapted limit rt) combined in
      let native := group_native adapted limit combined in
      let dyn := is_dynamic fullPattern in
      let dp := compiled_pattern fullPattern in
      on_app (
        go_mod (trackRedirectSlashPattern fullPattern dyn dp) ;;;
        mux_Handle (mux_key method fullPattern) http ;;;
        go_mod (λ a, set_routesByKey ({[mux_key method fullPattern]} ∪ routesByKey a) a) ;;;
        go_mod (λ a, add_route_info (routeInfoFromConfig (app_core a) method fullPattern rc combined) a) ;;;
        go_mod (trackMethodPattern method fullPattern dyn dp) ;;;
        go_mod (recordRouteIdempotencyTTL method fullPattern rc) ;;;
        if dyn then
          go_mod (λ a, set_groupDynamicHandlers (add_dynamic method
            {| dr_handler := http; dr_pattern := dp; dr_patternStr := fullPattern |}
            (groupDynamicHandlers a)) a) ;;;
          match native with
          | Some nat =>
              go_mod (λ a, set_groupDynamicNative (add_dynamic method
                {| dr_handler := nat; dr_pattern := dp; dr_patternStr := fullPattern |}
                (groupDynamicNative a)) a)
          | None => go_ret tt
          end
        else
          go_mod (λ a, set_groupRouteHandlers
            (table_set method fullPattern http (groupRouteHandlers a)) a) ;;;
          match native with
          | Some nat =>
              go_mod (λ a, set_groupRouteNative
                (table_set method fullPattern nat (groupRouteNative a)) a)
          | None => go_ret tt
          end) s
  end.

Definition group_Any (pattern : string) (handler : handler_arg) (opts : list RouteOption)
    : GroupM unit :=
  for_each (λ method, group_addRoute method pattern handler opts) any_methods.

(** [RouteGroup.Use]. *)
Definition group_Use (middlewares : list mw_arg) : GroupM unit := λ s,
  match coerceSlots middlewares "RouteGroup.Use" with
  | Panic msg => (Panic msg, s)
  | Ret slots =>
      (Ret tt, (s.1, {| prefix := prefix s.2; group_middleware := group_middleware s.2 ++ slots |}))
  end.

(** Running the body of a group; the group itself is dropped at the end. *)
Definition in_group {A} (g : RouteGroup) (fn : GroupM A) : RegM A := λ a,
  let '(o, (a', _)) := fn (a, g) in (o, a').

(** [App.Group] and [RouteGroup.Group]: the sub-group takes a snapshot of the
    middleware of its parent. *)
Definition Group (pfx : string) (fn : GroupM unit) : RegM unit :=
  in_group {| prefix := pfx; group_middleware := [] |} fn.
Definition group_Group (pfx : string) (fn : GroupM unit) : GroupM unit := λ s,
  on_app (in_group {| prefix := prefix s.2 +:+ pfx; group_middleware := group_middleware s.2 |} fn) s.

(** ** Mounting *)

Definition mount_trim (pfx path : string) : string :=
  let trimmed := trim_prefix path pfx in
  match trimmed with
  | String "/" _ => trimmed
  | _ => String "/" trimmed
  end.

(** [http.NotFound]. *)
Definition http_NotFound (w : wref) : GoM World unit :=
  go_mod (wr_mod_header (header_set "Content-Type" "text/plain; charset=utf-8")) ;;;
  go_mod (wr_mod_header (header_set "X-Content-Type-Options" "nosniff")) ;;;
  go_mod (wr_WriteHeader w 404) ;;;
  go_mod (wr_Write w ("404 page not found" +:+ String "010" "")).

(** [stripPrefixPreserveContext(prefix, h)]: a copy of the request under the
    trimmed path, registered for the time of the call when its own context does
    not carry the marker. *)
Definition stripPrefixPreserveContext (pfx : string) (h : Handler) : Handler := λ w r,
  if negb (has_prefix (r_Path r) pfx) then
    http_NotFound w
  else
    let! id := go_get w_next in
    let req := MkRequest id (r_Method r) (mount_trim pfx (r_Path r)) (r_RawQuery r) (r_Header r)
                 (r_RemoteAddr r) (r_TLS r) (r_ContentLength r) (r_marked r) in
    go_mod (λ wd, set_w_next (S id) (set_w_bodies
      match w_bodies wd !! r_id r with Some b => <[id := b]> (w_bodies wd) | None => w_bodies wd end wd)) ;;;
    let! ok := contextFromRequest r in
    if negb (r_marked req) && ok then
      storeRequestContext req ;;;
      go_defer (deleteRequestContext req) (h w req)
    else h w req.

Definition Mount (pfx : string) (handler : Handler) : RegM unit :=
  let p := if negb (String.eqb pfx "") && negb (has_suffix pfx "/") then pfx +:+ "/" else pfx in
  mux_Handle p (λ _, stripPrefixPreserveContext pfx handler).

(** ** Plugins *)

(** A plugin; its [Register] works on the plugin context, whose group carries the
    middleware of [PluginContext.Use] and whose prefix is an argument. *)
Record Plugin : Type := {
  plugin_Name : string;
  plugin_Dependencies : option (list string);
  plugin_Register : string → GroupM (option error);
}.

Definition hasPlugin (name : string) (a : App) : bool :=
  existsb (String.eqb name) (plugins a).

Definition missing_dependency (p : Plugin) (a : App) : option string :=
  match plugin_Dependencies p with
  | Some deps => find_first (λ d, negb (hasPlugin d a)) deps
  | None => None
  end.

(** [App.Register]. *)
Definition Register (p : Plugin) (pfx : string) : RegM unit :=
  let! missing := go_get (missing_dependency p) in
  match missing with
  | Some d =>
      go_panic ("aarv: plugin " +:+ plugin_Name p +:+ " requires " +:+ d +:+
                " to be registered first")
  | None =>
      let! err := in_group {| prefix := ""; group_middleware := [] |} (plugin_Register p pfx) in
      match err with
      | Some err =>
          go_panic ("aarv: plugin " +:+ plugin_Name p +:+ " registration failed: " +:+
                    error_string err)
      | None => go_mod (λ a, set_plugins (plugins a ++ [plugin_Name p]) a)
      end
  end.

(** [PluginContext.Get] and its siblings, [Group], [Use], [Decorate], [Resolve],
    and nested plugins. *)
Definition plugin_addRoute (pfx method pattern : string) (handler : handler_arg)
    (opts : list RouteOption) : GroupM unit :=
  group_addRoute method (pfx +:+ pattern) handler opts.
Definition plugin_Group (pfx sub : string) (fn : GroupM unit) : GroupM unit :=
  group_Group (pfx +:+ sub) fn.
Definition plugin_Use (middlewares : list mw_arg) : GroupM unit := group_Use middlewares.
Definition Decorate (key : string) (value : any) : GroupM unit :=
  on_app (go_mod (λ a, set_decorators (<[key := value]> (decorators a)) a)).
Definition Resolve (key : string) : GroupM (option any) :=
  on_app (go_get (λ a, decorators a !! key)).
Definition plugin_Register_nested (p : Plugin) (pfx : string) : GroupM (option error) :=
  plugin_Register p pfx.
Definition plugin_AddHook (phase : HookPhase) (f : HookFunc) : GroupM unit :=
  on_app (go_mod (λ a, set_app_rt (AddHook phase f (app_rt a)) a)).
End registration.

(** * The tables of a registered application *)

Definition has_route (a : App) (method pattern : string) : Prop :=
  ∃ ri, ri ∈ routes a ∧ ri_Method ri = method ∧ ri_Pattern ri = pattern.

(** A dynamic table lists, under their own compiled pattern, dynamic routes only. *)
Definition dynamic_ok (a : App) (t : gmap string (list dynamicRoute)) : Prop :=
  ∀ m d, d ∈ routes_of m t →
    has_route a m (dr_patternStr d) ∧ is_dynamic (dr_patternStr d) = true ∧
    dr_pattern d = compileDirectPattern (dr_patternStr d).

(** An exact table serves static routes only. *)
Definition exact_ok (a : App) (t : table rhandler) : Prop :=
  ∀ m p, is_Some (table_get m p t) → has_route a m p ∧ is_dynamic p = false.

(** The tables agree with the list of routes. *)
Record wf_app (a : App) : Prop := {
  wf_keys : routesByKey a = list_to_set (map (λ ri, mux_key (ri_Method ri) (ri_Pattern ri)) (routes a));
  wf_mux : ∀ m p, has_route a m p → is_Some (mux a !! mux_key m p);
  wf_exact_methods : ∀ m p,
    m ∈ default ∅ (routeMethodsExact a !! p) ↔ has_route a m p ∧ is_dynamic p = false;
  wf_dynamic_methods : ∀ m p,
    (∃ d, d ∈ routeMethodsDynamic a ∧ drm_patternString d = p ∧ m ∈ drm_methods d) ↔
    has_route a m p ∧ is_dynamic p = true;
  wf_exact_listed : ∀ p ms, routeMethodsExact a !! p = Some ms → ∃ m, m ∈ ms;
  wf_dynamic_patterns : ∀ d, d ∈ routeMethodsDynamic a →
    drm_pattern d = compileDirectPattern (drm_patternString d) ∧ ∃ m, m ∈ drm_methods d;
  wf_redirect_exact : ∀ p,
    p ∈ redirectSlashExact (redirects a) ↔ (∃ m, has_route a m p) ∧ is_dynamic p = false;
  wf_redirect_dynamic : ∀ c,
    c ∈ redirectSlashDynamic (redirects a) ↔
    ∃ m p, has_route a m p ∧ is_dynamic p = true ∧ c = compileDirectPattern p;
  wf_fast : exact_ok a (routeHandlerFast a);
  wf_group_exact : exact_ok a (groupRouteHandlers a) ∧ exact_ok a (groupRouteNative a);
  wf_direct_dynamic : dynamic_ok a (directDynamicRoutes a);
  wf_group_dynamic : dynamic_ok a (groupDynamicHandlers a) ∧ dynamic_ok a (groupDynamicNative a);
}.

(** What every registration of a route does to the common tables. *)
Record registers (method pattern : string) (a a' : App) : Prop := {
  rg_routes : ∃ ri, routes a' = routes a ++ [ri] ∧ ri_Method ri = method ∧ ri_Pattern ri = pattern;
  rg_keys : routesByKey a' = {[mux_key method pattern]} ∪ routesByKey a;
  rg_mux : ∃ h, mux a' = <[mux_key method pattern := h]> (mux a);
  rg_exact : routeMethodsExact a' =
    if is_dynamic pattern then routeMethodsExact a
    else <[pattern := {[method]} ∪ default ∅ (routeMethodsExact a !! pattern)]> (routeMethodsExact a);
  rg_dynamic : routeMethodsDynamic a' =
    if is_dynamic pattern
    then add_dynamic_method method pattern (compileDirectPattern pattern) (routeMethodsDynamic a)
    else routeMethodsDynamic a;
  rg_redirect_exact : redirectSlashExact (redirects a') =
    if is_dynamic pattern then redirectSlashExact (redirects a)
    else {[pattern]} ∪ redirectSlashExact (redirects a);
  rg_redirect_dynamic : redirectSlashDynamic (redirects a') =
    if is_dynamic pattern then redirectSlashDynamic (redirects a) ++ [compileDirectPattern pattern]
    else redirectSlashDynamic (redirects a);
}.

(** An exact or dynamic table after a registration: unchanged, or extended with
    the new route. *)
Definition exact_ext (method pattern : string) (t t' : table rhandler) : Prop :=
  t' = t ∨ (is_dynamic pattern = false ∧ ∃ h, t' = table_set method pattern h t).
Definition dynamic_ext (method pattern : string) (t t' : gmap string (list dynamicRoute)) : Prop :=
  t' = t ∨ (is_dynamic pattern = true ∧ ∃ h, t' = add_dynamic method
    {| dr_handler := h; dr_pattern := compileDirectPattern pattern; dr_patternStr := pattern |} t).

Definition tables_ext (method pattern : string) (a a' : App) : Prop :=
  exact_ext method pattern (routeHandlerFast a) (routeHandlerFast a') ∧
  exact_ext method pattern (groupRouteHandlers a) (groupRouteHandlers a') ∧
  exact_ext method pattern (groupRouteNative a) (groupRouteNative a') ∧
  dynamic_ext method pattern (directDynamicRoutes a) (directDynamicRoutes a') ∧
  dynamic_ext method pattern (groupDynamicHandlers a) (groupDynamicHandlers a') ∧
  dynamic_ext method pattern (groupDynamicNative a) (groupDynamicNative a').

Lemma table_get_set {H} m p (h : H) t m' p' :
  table_get m' p' (table_set m p h t) =
    if decide (m' = m ∧ p' = p) then Some h else table_get m' p' t.
Proof.
  unfold table_get, table_set. destruct (decide (m' = m)) as [->|].
  - rewrite lookup_insert_eq. destruct (decide (p' = p)) as [->|].
    + by rewrite lookup_insert_eq, decide_True.
    + rewrite lookup_insert_ne, decide_False by naive_solver. by destruct (t !! m).
  - by rewrite lookup_insert_ne, decide_False by naive_solver.
Qed.

Lemma routes_of_add m r t m' :
  routes_of m' (add_dynamic m r t) = routes_of m' t ++ (if decide (m' = m) then [r] else []).
Proof.
  unfold routes_of, add_dynamic. destruct (decide (m' = m)) as [->|].
  - by rewrite lookup_insert_eq.
  - by rewrite lookup_insert_ne, app_nil_r by done.
Qed.

Definition lists_method (m p : string) (d : dynamicRouteMethods) : Prop :=
  drm_patternString d = p ∧ m ∈ drm_methods d.

Lemma add_dynamic_method_in m p c l m' p' :
  Exists (lists_method m' p') (add_dynamic_method m p c l) ↔
  Exists (lists_method m' p') l ∨ (m' = m ∧ p' = p).
Proof.
  induction l as [|d l IH]; cbn [add_dynamic_method].
  { rewrite Exists_cons, !Exists_nil. unfold lists_method. cbn. set_solver. }
  destruct (String.eqb_spec (drm_patternString d) p) as [<-|Hne];
    rewrite !Exists_cons; [|rewrite IH; tauto].
  unfold lists_method at 1 3. cbn. set_solver.
Qed.

Definition entry_ok (d : dynamicRouteMethods) : Prop :=
  drm_pattern d = compileDirectPattern (drm_patternString d) ∧ ∃ m, m ∈ drm_methods d.

Lemma add_dynamic_method_patterns m p l :
  (∀ d, d ∈ l → entry_ok d) →
  ∀ d, d ∈ add_dynamic_method m p (compileDirectPattern p) l → entry_ok d.
Proof.
  induction l as [|x l IH]; intros Hl d; cbn [add_dynamic_method].
  { intros ->%list_elem_of_singleton. split; [done|]. exists m. cbn. set_solver. }
  destruct (String.eqb_spec (drm_patternString x) p); intros [->|Hd]%elem_of_cons.
  - split; [apply (Hl x); by left|]. exists m. cbn. set_solver.
  - apply Hl. by right.
  - apply Hl. by left.
  - apply IH; [|done]. intros d' Hd'. apply Hl. by right.
Qed.

Lemma has_route_ext m p a a' :
  registers m p a a' → ∀ m' p', has_route a' m' p' ↔ has_route a m' p' ∨ (m' = m ∧ p' = p).
Proof.
  intros [(ri & Hr & <- & <-) _ _ _ _ _ _] m' p'. unfold has_route. rewrite Hr. set_solver.
Qed.

Lemma exact_ok_ext m p a a' t t' :
  registers m p a a' → exact_ok a t → exact_ext m p t t' → exact_ok a' t'.
Proof.
  intros Hreg Hok [->|(Hd & h & ->)] m' p' Hin; rewrite (has_route_ext _ _ _ _ Hreg).
  - destruct (Hok m' p' Hin). tauto.
  - rewrite table_get_set in Hin. case_decide as Heq; [destruct Heq as [-> ->]; tauto|].
    destruct (Hok m' p' Hin). tauto.
Qed.

Lemma dynamic_ok_ext m p a a' t t' :
  registers m p a a' → dynamic_ok a t → dynamic_ext m p t t' → dynamic_ok a' t'.
Proof.
  intros Hreg Hok [->|(Hd & h & ->)] m' d Hin; rewrite (has_route_ext _ _ _ _ Hreg).
  - destruct (Hok m' d Hin) as (? & ? & ?). tauto.
  - rewrite routes_of_add in Hin. apply elem_of_app in Hin as [Hin|Hin].
    + destruct (Hok m' d Hin) as (? & ? & ?). tauto.
    + case_decide; [|by apply elem_of_nil in Hin].
      apply list_elem_of_singleton in Hin as ->. cbn. tauto.
Qed.

(** A registration preserves the agreement of the tables. *)
Lemma wf_registers m p a a' :
  wf_app a → registers m p a a' → tables_ext m p a a' → wf_app a'.
Proof.
  intros Hwf Hreg (E1 & E2 & E3 & D1 & D2 & D3).
  destruct (id Hreg) as [(ri & Hr & Hm & Hp) Hk (h & Hmux) Hex Hdy Hre Hrd].
  pose proof (has_route_ext _ _ _ _ Hreg) as Hext.
  constructor.
  - rewrite Hk, Hr, map_app, list_to_set_app_L, (wf_keys _ Hwf). cbn.
    rewrite Hm, Hp. set_solver.
  - intros m' p' Hin. rewrite Hmux. apply Hext in Hin as [Hin|[-> ->]].
    + destruct (decide (mux_key m p = mux_key m' p')) as [<-|].
      * by rewrite lookup_insert_eq.
      * rewrite lookup_insert_ne by done. by apply (wf_mux _ Hwf).
    + by rewrite lookup_insert_eq.
  - intros m' p'. rewrite Hext, Hex. pose proof (wf_exact_methods _ Hwf m' p') as IH.
    destruct (is_dynamic p) eqn:Hd; [rewrite IH; intuition (subst; congruence)|].
    destruct (decide (p' = p)) as [->|].
    + rewrite lookup_insert_eq. cbn. rewrite elem_of_union, IH. set_solver.
    + rewrite lookup_insert_ne by done. rewrite IH. intuition (subst; congruence).
  - intros m' p'. rewrite Hext, Hdy. pose proof (wf_dynamic_methods _ Hwf m' p') as IH.
    rewrite <-Exists_exists in IH |- *.
    change (λ d, drm_patternString d = p' ∧ m' ∈ drm_methods d) with (lists_method m' p') in *.
    destruct (is_dynamic p) eqn:Hd; [rewrite add_dynamic_method_in|]; rewrite IH; clear -Hd; intuition (subst; congruence).
  - intros p' ms. rewrite Hex. destruct (is_dynamic p); [apply (wf_exact_listed _ Hwf)|].
    intros [[-> <-]|[_ Hms]]%lookup_insert_Some; [exists m; set_solver|].
    by eapply (wf_exact_listed _ Hwf).
  - rewrite Hdy. destruct (is_dynamic p); [|apply (wf_dynamic_patterns _ Hwf)].
    apply add_dynamic_method_patterns, (wf_dynamic_patterns _ Hwf).
  - intros p'. rewrite Hre. pose proof (wf_redirect_exact _ Hwf p') as IH.
    setoid_rewrite Hext. destruct (is_dynamic p) eqn:Hd; [|rewrite elem_of_union, elem_of_singleton];
      rewrite IH; split.
    + intros [[m' ?] ?]. eauto.
    + intros [[m' [?|[_ ->]]] ?]; [eauto|congruence].
    + intros [->|[[m' ?] ?]]; eauto.
    + intros [[m' [?|[_ ->]]] ?]; eauto.
  - intros c. rewrite Hrd. pose proof (wf_redirect_dynamic _ Hwf c) as IH.
    setoid_rewrite Hext. destruct (is_dynamic p) eqn:Hd;
      [rewrite elem_of_app, list_elem_of_singleton|]; rewrite IH; split.
    + intros [(m' & p' & ? & ? & ?)| ->]; [exists m', p'; auto|exists m, p; auto].
    + intros (m' & p' & [?|[Hm' Hp']] & ? & ?); [left; eauto|subst; by right].
    + intros (m' & p' & ? & ? & ?). exists m', p'. auto.
    + intros (m' & p' & [?|[Hm' Hp']] & ? & ?); [eauto|congruence].
  - by eapply exact_ok_ext, E1; [|apply (wf_fast _ Hwf)].
  - destruct (wf_group_exact _ Hwf).
    split; [by eapply exact_ok_ext, E2|by eapply exact_ok_ext, E3].
  - by eapply dynamic_ok_ext, D1; [|apply (wf_direct_dynamic _ Hwf)].
  - destruct (wf_group_dynamic _ Hwf).
    split; [by eapply dynamic_ok_ext, D2|by eapply dynamic_ok_ext, D3].
Qed.

Section steps.
Context (mux_rejects : gset string → string → bool) (label : Middleware → string).

(** The fields of the application below a chain of updates. *)
Ltac app_simpl :=
  unfold go_bind, go_mod, go_ret, mux_Handle, trackRedirectSlashPattern, trackMethodPattern,
    add_route_info, recordRouteIdempotencyTTL, compiled_pattern in *; cbn [fst snd] in *.

Ltac solve_registers Hd :=
  constructor; rewrite ?Hd;
  first [reflexivity | eexists; reflexivity | eexists; split_and!; reflexivity].
Ltac solve_tables Hd :=
  unfold tables_ext, exact_ext, dynamic_ext; rewrite Hd; split_and!;
  first [right; split; [done|eexists; reflexivity] | left; reflexivity].

(** Both registration functions fill the tables alike. *)
Lemma addRoute_registers method pattern handler opts a a' :
  addRoute mux_rejects label method pattern handler opts a = (Ret tt, a') →
  registers method pattern a a' ∧ tables_ext method pattern a a'.
Proof.
  unfold addRoute. destruct (adaptHandler handler) as [adapted|]; [|done]. app_simpl.
  destruct (mux_rejects _ _); [done|].
  destruct (is_dynamic pattern) eqn:Hd; destruct (rc_middleware (apply_options opts));
    intros [= <-]; destruct (rc_idempotencyTTL (apply_options opts));
    (split; [solve_registers Hd|solve_tables Hd]).
Qed.

Lemma group_addRoute_registers method pattern handler opts a g s' :
  group_addRoute mux_rejects label method pattern handler opts (a, g) = (Ret tt, s') →
  s'.2 = g ∧ registers method (prefix g +:+ pattern) a s'.1 ∧
  tables_ext method (prefix g +:+ pattern) a s'.1.
Proof.
  unfold group_addRoute. destruct (adaptHandler handler) as [adapted|]; [|done].
  unfold on_app. app_simpl. destruct (mux_rejects _ _); [done|].
  destruct (is_dynamic (prefix g +:+ pattern)) eqn:Hd; destruct (group_native _ _ _);
    intros [= <-]; (split; [done|]); destruct (rc_idempotencyTTL (apply_options opts));
    (split; [solve_registers Hd|solve_tables Hd]).
Qed.

(** The ways an application is built up: routes, directly or within any group,
    global middleware, hooks, mounts and plugins' decorators. *)
Inductive app_step : App → App → Prop :=
  | Step_route m p h opts a a' :
      addRoute mux_rejects label m p h opts a = (Ret tt, a') → app_step a a'
  | Step_group_route m p h opts a g s' :
      group_addRoute mux_rejects label m p h opts (a, g) = (Ret tt, s') → app_step a s'.1
  | Step_use mws a a' : Use mws a = (Ret tt, a') → app_step a a'
  | Step_mount pfx h a a' : Mount mux_rejects pfx h a = (Ret tt, a') → app_step a a'
  | Step_decorate k v s : app_step s.1 (Decorate k v s).2.1
  | Step_hook phase f s : app_step s.1 (plugin_AddHook phase f s).2.1.

Inductive reachable (a : App) : App → Prop :=
  | Reach_here : reachable a a
  | Reach_step a1 a2 : reachable a a1 → app_step a1 a2 → reachable a a2.

(** The fields [wf_app] reads. *)
Lemma wf_same_tables a a' :
  routes a' = routes a → routesByKey a' = routesByKey a →
  (∀ k, is_Some (mux a !! k) → is_Some (mux a' !! k)) →
  routeMethodsExact a' = routeMethodsExact a → routeMethodsDynamic a' = routeMethodsDynamic a →
  redirects a' = redirects a → routeHandlerFast a' = routeHandlerFast a →
  groupRouteHandlers a' = groupRouteHandlers a → groupRouteNative a' = groupRouteNative a →
  directDynamicRoutes a' = directDynamicRoutes a →
  groupDynamicHandlers a' = groupDynamicHandlers a → groupDynamicNative a' = groupDynamicNative a →
  wf_app a → wf_app a'.
Proof.
  intros Hr Hk Hm He Hd Hre Hf Hg1 Hg2 Hdd Hg3 Hg4 [].
  constructor; unfold exact_ok, dynamic_ok, has_route in *;
    rewrite ?Hr, ?Hk, ?He, ?Hd, ?Hre, ?Hf, ?Hg1, ?Hg2, ?Hdd, ?Hg3, ?Hg4; auto.
Qed.

Lemma wf_step a a' : app_step a a' → wf_app a → wf_app a'.
Proof.
  intros [m p h opts a1 a2 Hadd|m p h opts a1 g s' Hadd|mws a1 a2 Hadd|pfx h a1 a2 Hadd|k v s|phase f s] Hwf.
  - apply addRoute_registers in Hadd as [Hr Ht]. by eapply wf_registers.
  - apply group_addRoute_registers in Hadd as (_ & Hr & Ht). by eapply wf_registers.
  - revert Hadd. unfold Use. destruct (coerceSlots mws "App.Use"); [|done]. intros [= <-].
    by eapply wf_same_tables, Hwf.
  - revert Hadd. unfold Mount, mux_Handle. destruct (mux_rejects _ _); [done|]. intros [= <-].
    eapply wf_same_tables, Hwf; try done. intros k Hk. cbn.
    rewrite lookup_insert_is_Some'. by right.
  - by eapply wf_same_tables, Hwf.
  - by eapply wf_same_tables, Hwf.
Qed.

(** [C18] The routing tables of every application built by registration agree with its
    list of routes: the key set, the mux and the 405 and redirect tables know
    exactly the registered routes, exact tables serve static routes only, and
    every dynamic entry carries the compilation of its own pattern. *)
Theorem registration_wf a0 a :
  wf_app a0 → reachable a0 a → wf_app a.
Proof. intros Hwf. induction 1; [done|]. by eapply wf_step. Qed.
End steps.

(** The application [New] starts from. *)
Definition New (rt : Runtime) (k : AppCore) (maxBody : Z) (redirect : bool) : App :=
  MkApp rt k maxBody redirect
    (let! rid := get_ctx RequestID in JSON 404 (PError "not_found" "Resource not found" "" rid))
    (let! rid := get_ctx RequestID in
     JSON 405 (PError "method_not_allowed" "Method not allowed" "" rid))
    [] [] ∅ [] ∅ ∅ ∅ [] ∅ ∅ ∅ ∅ ∅ ∅
    {| redirectSlashExact := ∅; redirectSlashDynamic := [] |}.

Lemma New_wf rt k maxBody redirect : wf_app (New rt k maxBody redirect).
Proof.
  assert (∀ m p, ¬ has_route (New rt k maxBody redirect) m p) as Hno
    by (intros m p (? & ?%elem_of_nil & _); done).
  constructor; cbn [New routesByKey routes mux routeMethodsExact routeMethodsDynamic redirects
    routeHandlerFast groupRouteHandlers groupRouteNative directDynamicRoutes groupDynamicHandlers
    groupDynamicNative redirectSlashExact redirectSlashDynamic].
  - done.
  - intros m p []%Hno.
  - intros m p. rewrite lookup_empty. cbn. split; [set_solver|by intros [[]%Hno _]].
  - intros m p. split; [by intros (? & ?%elem_of_nil & _)|by intros [[]%Hno _]].
  - intros p ms. by rewrite lookup_empty.
  - by intros d ?%elem_of_nil.
  - intros p. split; [set_solver|by intros [[m []%Hno] _]].
  - intros c. split; [by intros ?%elem_of_nil|by intros (m & p & []%Hno & _)].
  - intros m p. unfold table_get. rewrite lookup_empty. by intros [? [=]].
  - split; intros m p; unfold table_get; rewrite lookup_empty; by intros [? [=]].
  - intros m d. unfold routes_of. rewrite lookup_empty. by intros ?%elem_of_nil.
  - split; intros m d; unfold routes_of; rewrite lookup_empty; by intros ?%elem_of_nil.
Qed.

(** * Idempotency TTLs *)

Section properties.
Context (mux_rejects : gset string → string → bool) (label : Middleware → string).

Lemma RouteIdempotencyTTL_get c :
  c_routePattern c ≠ "" →
  RouteIdempotencyTTL c =
    table_get (r_Method (c_req c)) (c_routePattern c) (routeIdempotencyTTL (c_app c)).
Proof.
  intros Hne. unfold RouteIdempotencyTTL, table_get.
  by rewrite (proj2 (String.eqb_neq _ _) Hne).
Qed.

(** A TTL set on a route is what the contexts of its requests report, and no other
    route's is touched. *)
Theorem route_ttl method pattern handler opts a a' c :
  addRoute mux_rejects label method pattern handler opts a = (Ret tt, a') →
  c_app c = app_core a' → c_routePattern c ≠ "" →
  RouteIdempotencyTTL c =
    match rc_idempotencyTTL (apply_options opts) with
    | Some d =>
        if decide (r_Method (c_req c) = method ∧ c_routePattern c = pattern) then Some d
        else RouteIdempotencyTTL (set_c_app (app_core a) c)
    | None => RouteIdempotencyTTL (set_c_app (app_core a) c)
    end.
Proof.
  unfold addRoute. destruct (adaptHandler handler) as [adapted|]; [|done].
  unfold go_bind, go_mod, go_ret, mux_Handle. destruct (mux_rejects _ _); [done|].
  intros Hadd Hc Hne.
  assert (∃ a1, app_core a1 = app_core a ∧
    a' = recordRouteIdempotencyTTL method pattern (apply_options opts) a1) as (a1 & Ha1 & ->).
  { revert Hadd. destruct (rc_middleware _), (is_dynamic pattern); intros Hadd;
      apply (f_equal snd) in Hadd; cbn [snd] in Hadd; rewrite <-Hadd;
      (eexists; split; [|reflexivity]); reflexivity. }
  assert (routeIdempotencyTTL (app_core (recordRouteIdempotencyTTL method pattern (apply_options opts) a1)) =
    match rc_idempotencyTTL (apply_options opts) with
    | Some d => table_set method pattern d (routeIdempotencyTTL (app_core a))
    | None => routeIdempotencyTTL (app_core a) end) as Hcore.
  { rewrite <-Ha1. unfold recordRouteIdempotencyTTL. by destruct (rc_idempotencyTTL _). }
  rewrite !RouteIdempotencyTTL_get by done. world_simpl. rewrite Hc, Hcore.
  destruct (rc_idempotencyTTL (apply_options opts)) as [d|]; [|done].
  by rewrite table_get_set.
Qed.

(** * Body limits *)

(** A body is read in full or not at all: under a positive limit, a request whose
    announced length is truthful reads its body as before when that fits, and gets
    the limit's error when it does not, whether or not the length was announced. *)
Theorem body_limit_enforced limit r wd b :
  w_bodies wd !! r_id r = Some b → rd_err b = None → (0 < limit)%Z →
  (r_ContentLength r < 0 ∨ r_ContentLength r = Z.of_nat (String.length (rd_data b)))%Z →
  ∃ wd' b', enforce_limit limit r wd = (Ret tt, wd') ∧ w_bodies wd' !! r_id r = Some b' ∧
    (readBodyInto b' (r_ContentLength r)).1 =
      if decide (Z.of_nat (String.length (rd_data b)) ≤ limit)%Z then inl (rd_data b)
      else inr MaxBytesError.
Proof.
  intros Hb Herr Hlim Hcl. unfold enforce_limit. go_step. rewrite Hb.
  rewrite (proj2 (Z.ltb_lt 0 limit) Hlim). cbn [andb].
  assert (∀ n, n = String.length (rd_data b) →
    (readBodyInto b (r_ContentLength r)).1 = inl (rd_data b)) as Hread.
  { intros _ _. rewrite readBodyInto_spec, Herr.
    destruct Hcl as [Hcl|Hcl].
    - rewrite (proj2 (Z.leb_gt 0 _)), orb_true_r by lia. done.
    - destruct (_ || _ || _)%bool; [done|]. rewrite take_bytes_all; [done|lia]. }
  case_decide as Hfit.
  - exists (if (r_ContentLength r <? 0)%Z || (limit <? r_ContentLength r)%Z
      then set_w_bodies (<[r_id r := MaxBytesReader limit b]> (w_bodies wd)) wd else wd), b.
    split_and!; [by destruct (_ || _)| |by eapply Hread].
    destruct (_ || _); [|done]. world_simpl. by rewrite lookup_insert_eq, MaxBytesReader_fits.
  - assert ((r_ContentLength r <? 0)%Z || (limit <? r_ContentLength r)%Z = true) as ->.
    { apply orb_true_iff. rewrite !Z.ltb_lt. lia. }
    eexists _, (MaxBytesReader limit b). split_and!; [reflexivity|by apply lookup_insert_eq|].
    apply MaxBytesReader_exceeds; lia.
Qed.

(** * Plugins *)

Lemma hasPlugin_In name a : hasPlugin name a = true ↔ name ∈ plugins a.
Proof.
  unfold hasPlugin. rewrite existsb_Exists, Exists_exists. split.
  - intros (x & Hx & ->%String.eqb_eq). done.
  - intros Hx. exists name. split; [done|]. apply String.eqb_refl.
Qed.

(** Plugins register in dependency order: registration succeeds only after every
    dependency has been registered and when the plugin reports no error; then the
    plugin is listed after those registered before and during it. A plugin whose
    dependency is missing never runs. *)
Theorem Register_in_order p pfx a o a' :
  Register p pfx a = (o, a') →
  (o = Ret tt →
     (∀ d, d ∈ default [] (plugin_Dependencies p) → d ∈ plugins a) ∧
     ∃ a1 g1, plugin_Register p pfx (a, {| prefix := ""; group_middleware := [] |}) =
                (Ret None, (a1, g1)) ∧ plugins a' = plugins a1 ++ [plugin_Name p]) ∧
  ((∃ d, d ∈ default [] (plugin_Dependencies p) ∧ d ∉ plugins a) →
     a' = a ∧ ∃ msg, o = Panic msg).
Proof.
  unfold Register. go_step.
  assert (match missing_dependency p a with
    | Some d => d ∈ default [] (plugin_Dependencies p) ∧ d ∉ plugins a
    | None => ∀ d, d ∈ default [] (plugin_Dependencies p) → d ∈ plugins a end) as Hdeps.
  { unfold missing_dependency. destruct (plugin_Dependencies p) as [deps|]; cbn; [|by intros d ?%elem_of_nil].
    destruct (find_first _ deps) as [d|] eqn:Hf.
    - apply find_first_Some in Hf as (l1 & l2 & -> & Hd & _). split; [set_solver|].
      rewrite <-hasPlugin_In. by destruct (hasPlugin d a).
    - apply find_first_None in Hf. rewrite Forall_forall in Hf. intros d Hd.
      apply hasPlugin_In. specialize (Hf d Hd). cbn in Hf. by destruct (hasPlugin d a). }
  destruct (missing_dependency p a) as [d|].
  - intros [= <- <-]. split; [done|]. intros _. eauto.
  - unfold in_group. destruct (plugin_Register p pfx _) as [[[err|]|msg] [a1 g1]] eqn:Hreg;
      intros [= <- <-]; (split; [|intros (d & Hd & []); by apply Hdeps]); try done.
    intros _. split; [done|]. exists a1, g1. split; [done|]. reflexivity.
Qed.
End properties.

(** * Witnesses *)

Definition accept_all (keys : gset string) (key : string) : bool := bool_decide (key ∈ keys).
Definition no_label (m : Middleware) : string := "middleware".
Definition hello : handler_arg := HHandlerFunc (Text 200 "hello") false.
Definition demo_new : App := New demo_runtime demo_core 10 false.
Definition demo_app : App :=
  ((let! _ := addRoute accept_all no_label "GET" "/users/{id}" hello [] in
   let! _ := addRoute accept_all no_label "GET" "/users/me" hello [set_rc_idempotencyTTL (Some 60%Z)] in
   Group "/api" (group_addRoute accept_all no_label "POST" "/items" hello [])) demo_new).2.

Definition demo_one : App :=
  (addRoute accept_all no_label "GET" "/users/me" hello [set_rc_idempotencyTTL (Some 60%Z)] demo_new).2.

Lemma demo_one_step :
  addRoute accept_all no_label "GET" "/users/me" hello [set_rc_idempotencyTTL (Some 60%Z)] demo_new =
    (Ret tt, demo_one).
Proof. reflexivity. Qed.

Lemma registration_wf_witness :
  wf_app demo_new ∧ reachable accept_all no_label demo_new demo_one ∧
  "GET" ∈ default ∅ (routeMethodsExact demo_one !! "/users/me").
Proof.
  assert (reachable accept_all no_label demo_new demo_one) as Hr.
  { eapply Reach_step; [apply Reach_here|]. eapply Step_route. exact demo_one_step. }
  split_and!; [apply New_wf|exact Hr|].
  apply (wf_exact_methods _ (registration_wf accept_all no_label demo_new demo_one (New_wf _ _ _ _) Hr)).
  split; [|reflexivity]. eexists. split; [left|]. done.
Defined.

Lemma route_ttl_witness :
  let c := set_c_routePattern "/users/me" (set_c_app (app_core demo_one) demo_ctx) in
  RouteIdempotencyTTL c = Some 60%Z.
Proof.
  cbn zeta. rewrite (route_ttl accept_all no_label _ _ _ _ _ _ _ demo_one_step); done.
Defined.

Lemma body_limit_enforced_witness :
  ∃ wd' b', enforce_limit 3 (MkRequest 0 "POST" "/" "" ∅ "" false (-1) false) demo_world =
      (Ret tt, wd') ∧
    w_bodies wd' !! 0 = Some b' ∧ (readBodyInto b' (-1)).1 = inr MaxBytesError.
Proof.
  apply (body_limit_enforced 3 (MkRequest 0 "POST" "/" "" ∅ "" false (-1) false) demo_world
    (MkReader "hello" None)); cbn; [reflexivity|reflexivity|lia|by left].
Defined.

Definition needs_auth : Plugin := {|
  plugin_Name := "admin"; plugin_Dependencies := Some ["auth"];
  plugin_Register _ := go_ret None |}.

Lemma Register_in_order_witness :
  ∃ msg, Register needs_auth "" demo_new = (Panic msg, demo_new).
Proof.
  destruct (Register needs_auth "" demo_new) as [o a'] eqn:Hreg.
  destruct (Register_in_order needs_auth "" demo_new o a' Hreg) as [_ H].
  destruct H as [-> [msg ->]].
  - exists "auth". split; [by left|]. apply not_elem_of_nil.
  - by exists msg.
Defined.
