(* ===== verification/Dispatch.v ===== *)
(** Dispatch (dispatch.go): the chains built when the application first serves,
    the routing mux with its 404 and 405 answers, the direct path, and
    [ServeHTTP] with its hooks, buffering and cleanup. *)
From S2P Require Import Prelude GoStrings Http Response Pattern.
From S2P Require Import Errors RequestContext Hooks App Middleware Routing.
Open Scope go_scope.

(** * Prebuilt chains *)

Record Chains : Type := {
  routeChainFastNative : table rhandler;
  routeChainFast : table rhandler;
  groupRouteChainNative : table rhandler;
  groupRouteChainFast : table rhandler;
  groupDynamicChainNative : gmap string (list dynamicRoute);
  groupDynamicChainFast : gmap string (list dynamicRoute);
}.

(** A route handler under the native chain of the global middleware: it gets the
    context's own writer and request, and reports no error to the chain. *)
Definition inner_native (rh : rhandler) (rt : Runtime) : HandlerFunc :=
  let! w := get_ctx c_res in
  let! r := get_ctx c_req in
  rh rt w r ;;; go_ret None.
Definition under_native (slots : list middlewareSlot) (rh : rhandler) : rhandler := λ rt _ _,
  handling rt (default (inner_native rh rt) (buildNativeChain rt (inner_native rh rt) slots)).

(** A route handler under the stdlib chain. *)
Definition with_context (rh : rhandler) : rhandler := λ rt w r,
  let! ok := contextFromRequest r in
  if (ok : bool) then rh rt w r else go_mod (wr_WriteHeader w 500).
Definition under_stdlib (slots : list middlewareSlot) (h : rhandler) : rhandler := λ rt,
  buildChain rt (h rt) slots.

Definition map_table (f : rhandler → rhandler) (t : table rhandler) : table rhandler :=
  fmap (M := gmap string) (fmap (M := gmap string) f) t.
Definition map_dynamic (f : rhandler → rhandler) (t : gmap string (list dynamicRoute))
    : gmap string (list dynamicRoute) :=
  fmap (M := gmap string) (map (λ r, {|
    dr_handler := f (dr_handler r); dr_pattern := dr_pattern r;
    dr_patternStr := dr_patternStr r |})) t.

(** [buildRouteChainFast]. *)
Definition buildRouteChainFast (a : App) : Chains :=
  let g := globalMiddleware a in
  let globalNative := allNative g in
  match g with
  | [] => {|
      routeChainFastNative := ∅; routeChainFast := ∅;
      groupRouteChainNative := groupRouteNative a;
      groupRouteChainFast := groupRouteHandlers a;
      groupDynamicChainNative := groupDynamicNative a;
      groupDynamicChainFast := groupDynamicHandlers a |}
  | _ => {|
      routeChainFastNative :=
        if globalNative then map_table (under_native g) (routeHandlerFast a) else ∅;
      routeChainFast :=
        if globalNative then ∅
        else map_table (λ rh, under_stdlib g (with_context rh)) (routeHandlerFast a);
      groupRouteChainNative :=
        if globalNative then map_table (under_native g) (groupRouteNative a) else ∅;
      groupRouteChainFast := map_table (under_stdlib g) (groupRouteHandlers a);
      groupDynamicChainNative :=
        if globalNative then map_dynamic (under_native g) (groupDynamicNative a) else ∅;
      groupDynamicChainFast := map_dynamic (under_stdlib g) (groupDynamicHandlers a) |}
  end.

(** * Pattern matching against the context *)

(** [route.pattern.match(path, c)]. *)
Definition ctx_match (p : directPattern) (path : string) : GoM World bool := λ wd,
  match direct_match p path (Some (c_params (w_ctx wd))) with
  | None => (Panic "index out of range [16] with length 16", wd)
  | Some (b, ps) =>
      (Ret b, set_w_ctx (set_c_params (default (c_params (w_ctx wd)) ps) (w_ctx wd)) wd)
  end.

(** [route.pattern.match(path, nil)]. *)
Definition nil_match (p : directPattern) (path : string) : GoM World bool :=
  match direct_match p path None with
  | None => go_panic "index out of range [16] with length 16"
  | Some (b, _) => go_ret b
  end.

(** The first route of a list that matches. *)
Fixpoint first_match (routes : list dynamicRoute) (path : string) : GoM World (option dynamicRoute) :=
  match routes with
  | [] => go_ret None
  | route :: routes' =>
      let! b := ctx_match (dr_pattern route) path in
      if (b : bool) then go_ret (Some route) else first_match routes' path
  end.

Definition set_pattern (pattern : string) : GoM World unit := mod_ctx (set_c_routePattern pattern).

Section dispatch.
(** [http.ServeMux.Handler]: the matched pattern among the registered ones, with
    the path values or the redirect it answers with; [mux_default] is the mux's own
    reply to a request nothing matches. [http.Redirect] resolves its target against
    the request and escapes it in the page it writes. *)
Inductive mux_answer : Type :=
  | MuxRoute (values : gmap string string)
  | MuxRedirect (url : string) (code : Z).
Context (mux_match : gset string → request → option (string * mux_answer))
  (mux_default : Handler)
  (redirect_location : request → string → string)
  (redirect_page : string → Z → string).

Definition http_Redirect (w : wref) (r : request) (url : string) (code : Z) : GoM World unit :=
  let location := redirect_location r url in
  let! h := go_get wr_header in
  let bare := negb (bool_decide (is_Some (h !! "Content-Type"))) in
  go_mod (wr_mod_header (header_set "Location" location)) ;;;
  (if bare && (String.eqb (r_Method r) "GET" || String.eqb (r_Method r) "HEAD")
   then go_mod (wr_mod_header (header_set "Content-Type" "text/html; charset=utf-8"))
   else go_ret tt) ;;;
  go_mod (wr_WriteHeader w code) ;;;
  if bare && String.eqb (r_Method r) "GET" then go_mod (wr_Write w (redirect_page location code))
  else go_ret tt.

(** The handler [mux.Handler] returns, and [mux.ServeHTTP], which also sets the
    path values of the request. *)
Definition mux_handler (a : App) (pattern : string) (ans : mux_answer) : Handler := λ w r,
  match ans with
  | MuxRedirect url code => http_Redirect w r url code
  | MuxRoute _ =>
      match mux a !! pattern with
      | Some h => h (app_rt a) w r
      | None => go_panic "invalid memory address or nil pointer dereference"
      end
  end.
Definition set_values (values : gmap string string) (p : PathParams) : PathParams :=
  {| pathParams := pathParams p; pathParamsApplied := pathParamsApplied p; requestValues := values |}.
Definition mux_ServeHTTP (a : App) : Handler := λ w r,
  match mux_match (dom (mux a)) r with
  | None => mux_default w r
  | Some (pattern, ans) =>
      match ans with
      | MuxRoute values => mod_ctx (λ c, set_c_params (set_values values (c_params c)) c)
      | MuxRedirect _ _ => go_ret tt
      end ;;;
      mux_handler a pattern ans w r
  end.

(** [handler(c)] with the error handled. *)
Definition answer (a : App) (h : HandlerFunc) : GoM World unit := handling (app_rt a) h.

(** [setPatternFromMux]. *)
Definition setPatternFromMux (r : request) (pattern : string) : GoM World unit :=
  let! ok := contextFromRequest r in
  if (ok : bool) then set_pattern (stripMethodPattern pattern) else go_ret tt.

(** The dynamic entry of the 405 table whose pattern matches first. *)
Fixpoint first_methods (l : list dynamicRouteMethods) (path : string)
    : GoM World (option (gset string)) :=
  match l with
  | [] => go_ret None
  | d :: l' =>
      let! b := nil_match (drm_pattern d) path in
      if (b : bool) then go_ret (Some (drm_methods d)) else first_methods l' path
  end.

(** The end of [routingMux.ServeHTTP]: 405 when the path is registered under other
    methods, else 404. *)
Definition unmatched (a : App) : Handler := λ w r,
  let! ok := contextFromRequest r in
  let not_found := if (ok : bool) then answer a (notFoundHandler a) else mux_default w r in
  let dynamic :=
    let! methods := first_methods (routeMethodsDynamic a) (r_Path r) in
    match methods with
    | Some ms =>
        if bool_decide (r_Method r ∉ ms) && ok then answer a (methodNotAllowedHandler a)
        else not_found
    | None => not_found
    end in
  match routeMethodsExact a !! r_Path r with
  | Some ms =>
      if bool_decide (r_Method r ∉ ms) && ok then answer a (methodNotAllowedHandler a) else dynamic
  | None => dynamic
  end.

(** [routingMux.ServeHTTP] past its fast tables. *)
Definition mux_fallback (a : App) : Handler := λ w r,
  match mux_match (dom (mux a)) r with
  | Some (pattern, ans) =>
      if decide (pattern ∈ routesByKey a) then
        setPatternFromMux r pattern ;;;
        if negb (contains_byte "{" pattern) then mux_handler a pattern ans w r
        else mux_ServeHTTP a w r
      else
        go_mod (set_w_probe false) ;;;
        mux_ServeHTTP a (WProbe w) r ;;;
        let! written := go_get w_probe in
        if (written : bool) then go_ret tt
        else
          let! ok := contextFromRequest r in
          if (ok : bool) then answer a (notFoundHandler a) else go_ret tt
  | None => unmatched a w r
  end.

Definition routingMux_ServeHTTP (a : App) : Handler := λ w r,
  let! ok := contextFromRequest r in
  if (ok : bool) then
    match table_get (r_Method r) (r_Path r) (routeHandlerFast a) with
    | Some rh => set_pattern (r_Path r) ;;; rh (app_rt a) w r
    | None =>
        let! route := first_match (routes_of (r_Method r) (directDynamicRoutes a)) (r_Path r) in
        match route with
        | Some route =>
            set_pattern (dr_patternStr route) ;;; dr_handler route (app_rt a) w r
        | None => mux_fallback a w r
        end
    end
  else mux_fallback a w r.

(** [buildHandler]. *)
Definition buildHandler (a : App) : Handler :=
  buildChain (app_rt a) (routingMux_ServeHTTP a) (globalMiddleware a).

(** [ensureReady]. *)
Definition ensureReady (a : App) : App := set_app_rt (ready_hooks (app_rt a)) a.

(** * Serving *)

(** [serveDirect]: whether the request was served. *)
Definition serveDirect (a : App) (ch : Chains) (w : wref) (r : request) : GoM World bool :=
  let serve_exact (rh : rhandler) := set_pattern (r_Path r) ;;; rh (app_rt a) w r ;;; go_ret true in
  let serve_dynamic (route : dynamicRoute) :=
    set_pattern (dr_patternStr route) ;;; dr_handler route (app_rt a) w r ;;; go_ret true in
  match table_get (r_Method r) (r_Path r) (routeHandlerFast a) with
  | Some rt => serve_exact rt
  | None =>
  match table_get (r_Method r) (r_Path r) (groupRouteChainNative ch) with
  | Some rt => serve_exact rt
  | None =>
  let! route := first_match (routes_of (r_Method r) (groupDynamicChainNative ch)) (r_Path r) in
  match route with
  | Some route => serve_dynamic route
  | None =>
  let! route := first_match (routes_of (r_Method r) (directDynamicRoutes a)) (r_Path r) in
  match route with
  | Some route => serve_dynamic route
  | None =>
  match mux_match (dom (mux a)) r with
  | None => go_ret false
  | Some (pattern, ans) =>
      if decide (pattern ∈ routesByKey a) then
        if negb (contains_byte "{" pattern) then
          set_pattern (stripMethodPattern pattern) ;;;
          let! req := withFrameworkContext r in
          mod_ctx (set_c_req req) ;;;
          mux_handler a pattern ans w req ;;;
          go_ret true
        else
          set_pattern (stripMethodPattern pattern) ;;;
          storeRequestContext r ;;;
          go_defer (deleteRequestContext r) (mux_ServeHTTP a w r) ;;;
          go_ret true
      else go_ret false
  end end end end end.

Definition run_phase (a : App) (phase : HookPhase) : GoM World (option error) :=
  if hasHook (app_rt a) phase then run phase (hooks (app_rt a)) else go_ret None.

(** A request once routed: the handler, then the OnResponse hooks. *)
Definition finish (a : App) (m : GoM World unit) : GoM World unit :=
  m ;;; run_phase a OnResponse ;;; go_ret tt.

(** The context bridge or the registry entry of the request. *)
Definition bridge (a : App) (r : request) : GoM World request :=
  if RequestContextBridge (app_core a) then
    let! r' := WithContext r in
    mod_ctx (set_c_req r') ;;; go_ret r'
  else
    storeRequestContext r ;;;
    mod_ctx (set_c_req r) ;;;
    go_mod (set_w_cleanup true) ;;;
    go_ret r.

(** The routing of [ServeHTTP] after its hooks: the native chains with the
    unbridged request, then the stdlib chains. *)
Definition route (a : App) (ch : Chains) (w : wref) (r : request) : GoM World unit :=
  let exact (rh : rhandler) (r : request) :=
    finish a (set_pattern (r_Path r) ;;; rh (app_rt a) w r) in
  let dynamic (d : dynamicRoute) (r : request) :=
    finish a (set_pattern (dr_patternStr d) ;;; dr_handler d (app_rt a) w r) in
  let get t := table_get (r_Method r) (r_Path r) t in
  match get (routeChainFastNative ch) with
  | Some rh => exact rh r
  | None =>
  match get (groupRouteChainNative ch) with
  | Some rh => exact rh r
  | None =>
  let! d := first_match (routes_of (r_Method r) (groupDynamicChainNative ch)) (r_Path r) in
  match d with
  | Some d => dynamic d r
  | None =>
  let! r := bridge a r in
  match get (routeChainFast ch) with
  | Some rh => exact rh r
  | None =>
  match get (groupRouteChainFast ch) with
  | Some rh => exact rh r
  | None =>
  let! d := first_match (routes_of (r_Method r) (groupDynamicChainFast ch)) (r_Path r) in
  match d with
  | Some d => dynamic d r
  | None => finish a (buildHandler a w r)
  end end end end end end.

(** The hooks before routing; an error ends the request. *)
Definition with_hooks (a : App) (ch : Chains) (w : wref) (r : request) : GoM World unit :=
  let! err := run_phase a OnRequest in
  match err with
  | Some err => handleError (app_rt a) err
  | None =>
      let! err := run_phase a PreRouting in
      match err with
      | Some err => handleError (app_rt a) err
      | None => route a ch w r
      end
  end.

(** What the deferred functions do: the OnSend hooks and the flush of a buffered
    response, the registry entry, and the pool. *)
Definition release (a : App) : GoM World unit :=
  let! needsRegistryCleanup := go_get w_cleanup in
  (if (needsRegistryCleanup : bool) then
     let! r := get_ctx c_req in deleteRequestContext r
   else go_ret tt) ;;;
  go_mod (λ wd, set_w_released (S (w_released wd)) wd).
Definition send_and_release (a : App) : GoM World unit :=
  run OnSend (hooks (app_rt a)) ;;;
  go_mod (λ wd, set_w_bw (flush (w_bw wd)) wd) ;;;
  release a.

(** The part of [ServeHTTP] with deferred cleanup. *)
Definition serve_deferred (a : App) (ch : Chains) (r : request) : GoM World unit :=
  go_mod (set_w_cleanup false) ;;;
  if hasHook (app_rt a) OnSend then
    go_mod (λ wd, set_w_bw (acquireBufferedWriter (bw_under (w_bw wd))) wd) ;;;
    go_defer (send_and_release a)
      (mod_ctx (set_c_res WBuffered) ;;; with_hooks a ch WBuffered r)
  else go_defer (release a) (with_hooks a ch WBase r).

(** The redirect to the other spelling of a path. *)
Definition redirect_target (r : request) : string :=
  let target := altPath (r_Path r) in
  if String.eqb (r_RawQuery r) "" then target else target +:+ "?" +:+ r_RawQuery r.

Definition no_hooks (a : App) : bool :=
  negb (hasHook (app_rt a) OnRequest) && negb (hasHook (app_rt a) PreRouting) &&
  negb (hasHook (app_rt a) OnResponse) && negb (hasHook (app_rt a) OnSend).

(** [ServeHTTP] on the server's own writer. *)
Definition ServeHTTP (a : App) (r : request) : GoM World unit :=
  let a := ensureReady a in
  let ch := buildRouteChainFast a in
  let serve :=
    mod_ctx (reset WBase r ∅) ;;;
    if (length (globalMiddleware a) =? 0)%nat && no_hooks a then
      let! served := serveDirect a ch WBase r in
      if (served : bool) then go_mod (λ wd, set_w_released (S (w_released wd)) wd)
      else serve_deferred a ch r
    else serve_deferred a ch r in
  if RedirectTrailingSlash a && (1 <? String.length (r_Path r))%nat then
    match shouldRedirectTrailingSlash (redirects a) (r_Path r) with
    | None => go_panic "index out of range [16] with length 16"
    | Some true => http_Redirect WBase r (redirect_target r) 301
    | Some false => serve
    end
  else serve.
End dispatch.

(** * Matching lemmas *)

(** A route accepts a path; its pattern has room for its parameters. *)
Definition accepts (p : directPattern) (path : string) (bs : list (string * string)) : Prop :=
  Matches (parts p) (skip_slash path) bs.
Definition roomy (p : directPattern) : Prop := named (parts p) ≤ max_params.

Lemma direct_match_no p path c :
  roomy p → (∀ bs, ¬ accepts p path bs) → direct_match p path c = Some (false, c).
Proof.
  intros Hroom Hno. pose proof (direct_match_cases p path c Hroom) as Hc.
  destruct (direct_match p path c) as [[[] c']|]; [|by destruct Hc as [-> _]|done].
  destruct Hc as (bs & Hbs & _). by destruct (Hno bs).
Qed.

Lemma direct_match_yes p path c bs :
  roomy p → accepts p path bs → direct_match p path c = Some (true, commit_params bs <$> c).
Proof.
  intros Hroom Hbs. pose proof (direct_match_cases p path c Hroom) as Hc.
  destruct (direct_match p path c) as [[[] c']|]; [| |done].
  - destruct Hc as (bs' & Hbs' & ->). by rewrite (Matches_det _ _ _ _ Hroom Hbs Hbs').
  - destruct Hc as [_ Hno]. by destruct (Hno bs).
Qed.

Lemma ctx_match_no p path wd :
  roomy p → (∀ bs, ¬ accepts p path bs) → ctx_match p path wd = (Ret false, wd).
Proof.
  intros Hroom Hno. unfold ctx_match. rewrite direct_match_no by done.
  cbn [default]. by destruct wd as [[]].
Qed.

Definition bind_params (bs : list (string * string)) (wd : World) : World :=
  set_w_ctx (set_c_params (commit_params bs (c_params (w_ctx wd))) (w_ctx wd)) wd.

Lemma ctx_match_yes p path bs wd :
  roomy p → accepts p path bs → ctx_match p path wd = (Ret true, bind_params bs wd).
Proof. intros Hroom Hbs. unfold ctx_match. by rewrite (direct_match_yes _ _ _ bs). Qed.

(** A list of dynamic routes serves the first that accepts the path. *)
Lemma first_match_found l1 d l2 path bs wd :
  Forall (λ d', roomy (dr_pattern d') ∧ ∀ bs, ¬ accepts (dr_pattern d') path bs) l1 →
  roomy (dr_pattern d) → accepts (dr_pattern d) path bs →
  first_match (l1 ++ d :: l2) path wd = (Ret (Some d), bind_params bs wd).
Proof.
  intros Hl1 Hroom Hbs. induction Hl1 as [|d' l1 [Hr Hno] _ IH]; cbn [app first_match].
  - by rewrite (go_bind_Ret _ _ _ _ _ (ctx_match_yes _ _ bs _ Hroom Hbs)).
  - by rewrite (go_bind_Ret _ _ _ _ _ (ctx_match_no _ _ _ Hr Hno)).
Qed.

Lemma first_match_none l path wd :
  Forall (λ d', roomy (dr_pattern d') ∧ ∀ bs, ¬ accepts (dr_pattern d') path bs) l →
  first_match l path wd = (Ret None, wd).
Proof.
  induction 1 as [|d' l [Hr Hno] _ IH]; [done|]. cbn [first_match].
  by rewrite (go_bind_Ret _ _ _ _ _ (ctx_match_no _ _ _ Hr Hno)).
Qed.

(** * Serving a registered route *)

Section serving.
Context (mux_match : gset string → request → option (string * mux_answer))
  (mux_default : Handler)
  (redirect_location : request → string → string)
  (redirect_page : string → Z → string).
Local Notation serve := (ServeHTTP mux_match mux_default redirect_location redirect_page).

(** No middleware, no hooks around routing, no redirects: the direct path. *)
Record direct_app (a : App) : Prop := {
  da_redirect : RedirectTrailingSlash a = false;
  da_middleware : globalMiddleware a = [];
  da_hooks : no_hooks (ensureReady a) = true;
}.

(** The world the handler of a directly served route starts in. *)
Definition routed (pattern : string) (bs : list (string * string)) (r : request) (wd : World)
    : World :=
  let wd1 := bind_params bs (set_w_ctx (reset WBase r ∅ (w_ctx wd)) wd) in
  set_w_ctx (set_c_routePattern pattern (w_ctx wd1)) wd1.

(** Serving ends with the context back in the pool, unless the handler panics. *)
Definition then_release {A} (x : outcome A * World) : outcome unit * World :=
  match x with
  | (Ret _, wd) => (Ret tt, set_w_released (S (w_released wd)) wd)
  | (Panic msg, wd) => (Panic msg, wd)
  end.

End serving.

(** * Requests nothing matches *)

Lemma nil_match_eq p path wd :
  roomy p →
  (∃ bs, accepts p path bs ∧ nil_match p path wd = (Ret true, wd)) ∨
  ((∀ bs, ¬ accepts p path bs) ∧ nil_match p path wd = (Ret false, wd)).
Proof.
  intros Hroom. unfold nil_match. pose proof (direct_match_cases p path None Hroom) as Hc.
  destruct (direct_match p path None) as [[[] c']|]; [| |done].
  - destruct Hc as (bs & Hbs & _). left. by exists bs.
  - right. by destruct Hc as [_ Hno].
Qed.

Lemma first_methods_none l path wd :
  Forall (λ d, roomy (drm_pattern d) ∧ ∀ bs, ¬ accepts (drm_pattern d) path bs) l →
  first_methods l path wd = (Ret None, wd).
Proof.
  induction 1 as [|d l [Hr Hno] _ IH]; [done|]. cbn [first_methods].
  destruct (nil_match_eq (drm_pattern d) path wd Hr) as [(bs & Hbs & _)|[_ Heq]];
    [by destruct (Hno bs)|].
  by rewrite (go_bind_Ret _ _ _ _ _ Heq).
Qed.

(** The answer to a request no registered route or mount takes. Its path being
    registered, as a static pattern, under other methods only, it is the
    application's 405; and if no route accepts its path, the 404. *)
Theorem unmatched_answers mux_default a w r wd :
  wf_app a → contextFromRequest r wd = (Ret true, wd) →
  (∀ m p, has_route a m p → is_dynamic p = true → roomy (compileDirectPattern p)) →
  ((∃ m, has_route a m (r_Path r)) → is_dynamic (r_Path r) = false →
     ¬ has_route a (r_Method r) (r_Path r) →
     unmatched mux_default a w r wd = answer a (methodNotAllowedHandler a) wd) ∧
  ((∀ m p, has_route a m p → p ≠ r_Path r ∧
       (is_dynamic p = true → ∀ bs, ¬ accepts (compileDirectPattern p) (r_Path r) bs)) →
     unmatched mux_default a w r wd = answer a (notFoundHandler a) wd).
Proof.
  intros Hwf Hctx Hroom. unfold unmatched. rewrite (go_bind_Ret _ _ _ _ _ Hctx). split.
  - intros [m Hm] Hst Hno.
    assert (m ∈ default ∅ (routeMethodsExact a !! r_Path r)) as Hin
      by by apply (wf_exact_methods _ Hwf).
    destruct (routeMethodsExact a !! r_Path r) as [ms|] eqn:Hms; [|by apply not_elem_of_empty in Hin].
    rewrite bool_decide_eq_true_2; [done|]. intros Hr. apply Hno.
    assert (r_Method r ∈ default ∅ (routeMethodsExact a !! r_Path r)) as Hin' by by rewrite Hms.
    by apply (wf_exact_methods _ Hwf) in Hin' as [? _].
  - intros Hnone.
    assert (Forall (λ d, roomy (drm_pattern d) ∧ ∀ bs, ¬ accepts (drm_pattern d) (r_Path r) bs)
      (routeMethodsDynamic a)) as Hdyn.
    { apply Forall_forall. intros d Hd.
      destruct (wf_dynamic_patterns _ Hwf d Hd) as [-> [m Hm]].
      destruct (proj1 (wf_dynamic_methods _ Hwf m (drm_patternString d))) as [Hr Hdy]; [by exists d|].
      split; [by eapply Hroom|]. by apply (Hnone m). }
    destruct (routeMethodsExact a !! r_Path r) as [ms|] eqn:Hms.
    + destruct (wf_exact_listed _ Hwf _ _ Hms) as [m Hm].
      assert (m ∈ default ∅ (routeMethodsExact a !! r_Path r)) as Hin by by rewrite Hms.
      apply (wf_exact_methods _ Hwf) in Hin as [Hr _]. by destruct (Hnone _ _ Hr).
    + by rewrite (go_bind_Ret _ _ _ _ _ (first_methods_none _ _ _ Hdyn)).
Qed.

(** * Cleanup

    Without the context bridge every request is entered in a global registry; the
    theorem below shows the entry never outlives the request. *)
Section cleanup.
Context (mux_match : gset string → request → option (string * mux_answer))
  (mux_default : Handler)
  (redirect_location : request → string → string)
  (redirect_page : string → Z → string).
(** The registry entries of the other requests in flight, and this request. *)
Context (others : gset nat) (r0 : request).

(** The registry holds the others' entries and, at most as long as it is the
    context's request, ours; identities are allocated in order. *)
Definition registry_ok (wd : World) : Prop :=
  (w_registry wd = others ∨
   (w_registry wd = {[r_id r0]} ∪ others ∧ r_id (c_req (w_ctx wd)) = r_id r0)) ∧
  r_id (c_req (w_ctx wd)) ∉ others ∧ (∀ i, i ∈ others → i < w_next wd) ∧
  RequestContextBridge (c_app (w_ctx wd)) = false.

Definition preserved (wd wd' : World) : Prop :=
  registry_ok wd' ∧ w_registry wd' ⊆ w_registry wd ∧
  w_released wd' = w_released wd ∧ w_cleanup wd' = w_cleanup wd.

(** A computation that may swap the context's request, through the framework's
    own operations, and one that does not. *)
Definition tame {A} (m : GoM World A) : Prop := ∀ wd, registry_ok wd → preserved wd (m wd).2.
Definition steady {A} (m : GoM World A) : Prop := ∀ wd,
  registry_ok wd → preserved wd (m wd).2 ∧ c_req (w_ctx (m wd).2) = c_req (w_ctx wd) ∧
    w_registry (m wd).2 = w_registry wd.
(** One that relies on [r] being the context's request when it starts. *)
Definition tame_at {A} (r : request) (m : GoM World A) : Prop := ∀ wd,
  c_req (w_ctx wd) = r → registry_ok wd → preserved wd (m wd).2.
Definition tame_handler (h : Handler) : Prop := ∀ w r, tame_at r (h w r).
Definition tame_middleware (rt : Runtime) (s : middlewareSlot) : Prop :=
  ∀ h, tame_handler h → tame_handler (slot_stdlib s rt h).

Lemma preserved_trans wd1 wd2 wd3 : preserved wd1 wd2 → preserved wd2 wd3 → preserved wd1 wd3.
Proof. intros (_ & ? & ? & ?) (? & ? & ? & ?). split_and!; [done|by etrans|congruence..]. Qed.

Lemma tame_steady {A} (m : GoM World A) : steady m → tame m.
Proof. intros Hm wd Hok. by apply Hm. Qed.
Lemma tame_at_tame {A} r (m : GoM World A) : tame m → tame_at r m.
Proof. intros Hm wd _ Hok. by apply Hm. Qed.

Lemma tame_bind {A B} (m : GoM World A) (k : A → GoM World B) :
  tame m → (∀ a, tame (k a)) → tame (go_bind m k).
Proof.
  intros Hm Hk wd Hok. unfold go_bind. specialize (Hm wd Hok).
  destruct (m wd) as [[a|msg] wd1]; cbn [snd] in *; [|done].
  eapply preserved_trans; [exact Hm|]. apply Hk, Hm.
Qed.

Lemma steady_bind {A B} (m : GoM World A) (k : A → GoM World B) :
  steady m → (∀ a, steady (k a)) → steady (go_bind m k).
Proof.
  intros Hm Hk wd Hok. unfold go_bind. destruct (Hm wd Hok) as (Hp & Hr & Hg).
  destruct (m wd) as [[a|msg] wd1]; cbn [snd] in *; [|done].
  destruct (Hk a wd1 (proj1 Hp)) as (Hp' & Hr2 & Hg2).
  split_and!; [by eapply preserved_trans|congruence..].
Qed.

Lemma tame_at_bind {A B} r (m : GoM World A) (k : A → GoM World B) :
  steady m → (∀ a, tame_at r (k a)) → tame_at r (go_bind m k).
Proof.
  intros Hm Hk wd Hr Hok. unfold go_bind. destruct (Hm wd Hok) as (Hp & Hr' & _).
  destruct (m wd) as [[a|msg] wd1]; cbn [snd] in *; [|done].
  eapply preserved_trans; [exact Hp|]. apply Hk; [congruence|apply Hp].
Qed.

Lemma tame_at_then {A B} r (m : GoM World A) (k : A → GoM World B) :
  tame_at r m → (∀ a, tame (k a)) → tame_at r (go_bind m k).
Proof.
  intros Hm Hk wd Hr Hok. unfold go_bind. specialize (Hm wd Hr Hok).
  destruct (m wd) as [[a|msg] wd1]; cbn [snd] in *; [|done].
  eapply preserved_trans; [exact Hm|]. apply Hk, Hm.
Qed.

Lemma steady_ret {A} (a : A) : steady (go_ret a).
Proof. by intros wd Hok. Qed.
Lemma steady_panic {A} msg : steady (go_panic (A := A) msg).
Proof. by intros wd Hok. Qed.
Lemma steady_get {A} (f : World → A) : steady (go_get f).
Proof. by intros wd Hok. Qed.

(** Updates that leave the request, the registry and the bookkeeping alone. *)
Lemma steady_mod f :
  (∀ wd, c_req (w_ctx (f wd)) = c_req (w_ctx wd) ∧ c_app (w_ctx (f wd)) = c_app (w_ctx wd) ∧
         w_registry (f wd) = w_registry wd ∧ w_next (f wd) = w_next wd ∧
         w_released (f wd) = w_released wd ∧ w_cleanup (f wd) = w_cleanup wd) →
  steady (go_mod f).
Proof.
  intros Hf wd Hok. destruct (Hf wd) as (Hr & Ha & Hg & Hn & Hl & Hc).
  unfold preserved, registry_ok in *. cbn. by rewrite Hr, Ha, Hg, Hn, Hl, Hc.
Qed.

Lemma steady_mod_ctx f :
  (∀ c, c_req (f c) = c_req c ∧ c_app (f c) = c_app c) → steady (mod_ctx f).
Proof. intros Hf. apply steady_mod. intros wd. by destruct (Hf (w_ctx wd)). Qed.

Lemma steady_wops r ops : steady (go_mod (run_wops r ops)).
Proof.
  apply steady_mod. induction ops as [|o ops IH]; intros wd; [done|]. rewrite run_wops_cons.
  destruct (IH (run_wops r [o] wd)) as (-> & -> & -> & -> & -> & ->).
  destruct o; cbn; rewrite ?wr_WriteHeader_target, ?wr_Write_target; done.
Qed.
Lemma steady_WriteHeader r code : steady (go_mod (wr_WriteHeader r code)).
Proof. exact (steady_wops r [OWriteHeader code]). Qed.
Lemma steady_Write r b : steady (go_mod (wr_Write r b)).
Proof. exact (steady_wops r [OWrite b]). Qed.
Lemma steady_header f : steady (go_mod (wr_mod_header f)).
Proof. by apply steady_mod. Qed.

Lemma steady_JSON status v : steady (JSON status v).
Proof.
  intros wd Hok. rewrite JSON_once. destruct (c_written (w_ctx wd)); [done|]. cbn [snd].
  set (wd1 := set_w_ctx (set_c_written true (w_ctx wd)) wd).
  assert (registry_ok wd1) as Hok1 by done.
  by destruct (steady_wops (c_res (w_ctx wd)) (json_ops (c_app (w_ctx wd))
    (if (status =? 0)%Z then c_statusCode (w_ctx wd) else status) v) wd1 Hok1).
Qed.

Lemma steady_defaultErrorHandler err : steady (defaultErrorHandler err).
Proof.
  apply steady_bind; [apply steady_get|intros rid].
  destruct (error_response err rid) as [[status resp] msg].
  apply steady_bind; [destruct msg; [by apply steady_mod|apply steady_ret]|intros _].
  apply steady_bind; [apply steady_JSON|intros _; apply steady_ret].
Qed.

(** The hooks and the error handler of the application are tame. *)
Definition tame_runtime (rt : Runtime) : Prop :=
  (∀ phase, tame (run phase (hooks rt))) ∧
  match errorHandler rt with Some (CustomErrorHandler h) => ∀ err, tame (h err) | _ => True end.

Lemma tame_handleError rt err : tame_runtime rt → tame (handleError rt err).
Proof.
  intros [Hh Hc]. apply tame_bind; [|intros _].
  - destruct (hasHook rt OnError); [|apply tame_steady, steady_ret].
    apply tame_bind; [apply tame_steady, steady_get|intros prev].
    apply tame_bind; [by apply tame_steady, steady_mod_ctx|intros _].
    apply tame_bind; [apply Hh|intros _; by apply tame_steady, steady_mod_ctx].
  - destruct (errorHandler rt) as [[|h]|]; [|apply Hc|];
      apply tame_steady, steady_defaultErrorHandler.
Qed.

Lemma tame_handling rt m : tame_runtime rt → tame m → tame (handling rt m).
Proof.
  intros Hrt Hm. apply tame_bind; [done|intros [err|]].
  - by apply tame_handleError.
  - apply tame_steady, steady_ret.
Qed.

(** A route handler built by [addRoute] from a tame function. *)
Lemma tame_internalHandler rt adapted limit :
  tame_runtime rt → tame (ah_fn adapted) → tame_handler (internalHandler adapted limit rt).
Proof.
  intros Hrt Hfn w r wd Hr Hok.
  assert (tame (run_handler adapted limit rt r)) as Hrun.
  { apply tame_bind.
    - unfold pre_handler. case_match; [apply Hrt|apply tame_steady, steady_ret].
    - intros [err|]; [by apply tame_handleError|].
      apply tame_bind; [|intros _; by apply tame_handling].
      apply tame_steady, steady_bind; [apply steady_get|intros [b|]; [|apply steady_ret]].
      case_match; [by apply steady_mod|apply steady_ret]. }
  unfold internalHandler, mod_ctx. rewrite go_bind_eq. unfold go_mod at 1.
  set (wd1 := set_w_ctx (set_c_res w (set_c_req r (w_ctx wd))) wd).
  assert (registry_ok wd1 ∧ preserved wd wd1) as [Hok1 Hp].
  { unfold preserved, registry_ok in *. subst wd1. world_simpl. by rewrite <-Hr. }
  eapply preserved_trans; [exact Hp|by apply Hrun].
Qed.

(** Finding a dynamic route only touches the path parameters. *)
Lemma steady_ctx_match p path : steady (ctx_match p path).
Proof.
  intros wd Hok. unfold ctx_match. by destruct (direct_match _ _ _) as [[b ps]|].
Qed.

Lemma steady_first_match l path : steady (first_match l path).
Proof.
  induction l as [|d l IH]; [apply steady_ret|].
  apply steady_bind; [apply steady_ctx_match|intros []; [apply steady_ret|done]].
Qed.

Lemma steady_first_methods l path : steady (first_methods l path).
Proof.
  induction l as [|d l IH]; [apply steady_ret|]. apply steady_bind.
  - unfold nil_match. destruct (direct_match _ _ _) as [[b ps]|]; [apply steady_ret|apply steady_panic].
  - intros []; [apply steady_ret|done].
Qed.

Lemma steady_set_pattern p : steady (set_pattern p).
Proof. by apply steady_mod_ctx. Qed.

(** ** The handlers of an application *)

Definition tame_table (rt : Runtime) (t : table rhandler) : Prop :=
  ∀ m p h, table_get m p t = Some h → tame_handler (h rt).
Definition tame_dynamic (rt : Runtime) (t : gmap string (list dynamicRoute)) : Prop :=
  ∀ m d, d ∈ routes_of m t → tame_handler (dr_handler d rt).

(** Everything the application was given is tame: hooks, handlers, middleware. *)
Record tame_app (a : App) : Prop := {
  ta_runtime : tame_runtime (app_rt a);
  ta_notFound : tame (notFoundHandler a);
  ta_notAllowed : tame (methodNotAllowedHandler a);
  ta_default : tame_handler mux_default;
  ta_mux : ∀ k h, mux a !! k = Some h → tame_handler (h (app_rt a));
  ta_fast : tame_table (app_rt a) (routeHandlerFast a);
  ta_groups : tame_table (app_rt a) (groupRouteHandlers a);
  ta_groups_native : tame_table (app_rt a) (groupRouteNative a);
  ta_direct : tame_dynamic (app_rt a) (directDynamicRoutes a);
  ta_dynamic : tame_dynamic (app_rt a) (groupDynamicHandlers a);
  ta_dynamic_native : tame_dynamic (app_rt a) (groupDynamicNative a);
  ta_middleware : Forall (tame_middleware (app_rt a)) (globalMiddleware a);
  ta_native : Forall (λ s, ∀ fn m, slot_native s = Some fn → tame m → tame (fn (app_rt a) m))
    (globalMiddleware a);
}.

Lemma tame_buildChain rt h slots :
  Forall (tame_middleware rt) slots → tame_handler h → tame_handler (buildChain rt h slots).
Proof. intros Hs Hh. induction Hs as [|s slots Hs _ IH]; [done|]. rewrite buildChain_cons. by apply Hs. Qed.

Lemma tame_inner_native rt rh : tame_handler (rh rt) → tame (inner_native rh rt).
Proof.
  intros Hh wd Hok. unfold inner_native, get_ctx. rewrite !go_bind_eq. unfold go_get at 1.
  rewrite !go_bind_eq. unfold go_get at 1. rewrite go_bind_eq.
  pose proof (Hh (c_res (w_ctx wd)) (c_req (w_ctx wd)) wd eq_refl Hok) as Hp.
  by destruct (rh rt _ _ wd) as [[]].
Qed.

Lemma tame_native_chain rt slots m :
  Forall (λ s, ∀ fn m, slot_native s = Some fn → tame m → tame (fn rt m)) slots →
  tame m → tame (default m (buildNativeChain rt m slots)).
Proof.
  intros Hs Hm.
  assert (match buildNativeChain rt m slots with Some c => tame c | None => True end) as Hc;
    [|by destruct (buildNativeChain rt m slots)].
  induction Hs as [|s slots Hs _ IH]; [done|]. rewrite buildNativeChain_cons.
  destruct (buildNativeChain rt m slots) as [c|]; [|done].
  destruct (slot_native s) as [fn|]; [|done]. by apply Hs.
Qed.

Lemma tame_under_native rt slots rh :
  tame_runtime rt →
  Forall (λ s, ∀ fn m, slot_native s = Some fn → tame m → tame (fn rt m)) slots →
  tame_handler (rh rt) → tame_handler (under_native slots rh rt).
Proof.
  intros Hrt Hs Hh w r. apply tame_at_tame, tame_handling; [done|].
  by apply tame_native_chain, tame_inner_native.
Qed.

Lemma tame_with_context rt rh : tame_handler (rh rt) → tame_handler (with_context rh rt).
Proof.
  intros Hh w r. apply tame_at_bind; [apply steady_get|intros []; [apply Hh|]].
  apply tame_at_tame, tame_steady, steady_WriteHeader.
Qed.

Lemma map_table_get f t m p :
  table_get m p (map_table f t) = f <$> table_get m p t.
Proof.
  unfold table_get, map_table. rewrite lookup_fmap. destruct (t !! m); [|done].
  cbn. by rewrite lookup_fmap.
Qed.

Lemma tame_map_table rt f t :
  (∀ h, tame_handler (h rt) → tame_handler (f h rt)) → tame_table rt t → tame_table rt (map_table f t).
Proof.
  intros Hf Ht m p h. rewrite map_table_get. intros (h' & Hh & ->)%fmap_Some. by eapply Hf, Ht.
Qed.

Lemma tame_map_dynamic rt f t :
  (∀ h, tame_handler (h rt) → tame_handler (f h rt)) → tame_dynamic rt t →
  tame_dynamic rt (map_dynamic f t).
Proof.
  intros Hf Ht m d. unfold routes_of, map_dynamic. rewrite lookup_fmap.
  destruct (t !! m) as [l|] eqn:Hl; cbn; [|by intros ?%elem_of_nil].
  intros (d' & -> & Hd)%list_elem_of_fmap. cbn. apply Hf, (Ht m). unfold routes_of. by rewrite Hl.
Qed.

Lemma tame_table_empty rt : tame_table rt ∅.
Proof. intros m p h. unfold table_get. by rewrite lookup_empty. Qed.
Lemma tame_dynamic_empty rt : tame_dynamic rt ∅.
Proof. intros m d. unfold routes_of. rewrite lookup_empty. by intros ?%elem_of_nil. Qed.

(** The prebuilt chains inherit it. *)
Record tame_chains (rt : Runtime) (ch : Chains) : Prop := {
  tc_fast_native : tame_table rt (routeChainFastNative ch);
  tc_fast : tame_table rt (routeChainFast ch);
  tc_group_native : tame_table rt (groupRouteChainNative ch);
  tc_group : tame_table rt (groupRouteChainFast ch);
  tc_dynamic_native : tame_dynamic rt (groupDynamicChainNative ch);
  tc_dynamic : tame_dynamic rt (groupDynamicChainFast ch);
}.

Lemma tame_buildRouteChainFast a :
  tame_app a → tame_chains (app_rt a) (buildRouteChainFast a).
Proof.
  intros Ha. unfold buildRouteChainFast.
  pose proof (ta_middleware _ Ha) as Hmw. pose proof (ta_native _ Ha) as Hnat.
  pose proof (ta_runtime _ Ha) as Hrt.
  destruct (globalMiddleware a) as [|s slots] eqn:Hg.
  { constructor; try apply tame_table_empty; apply Ha. }
  rewrite <-Hg in *.
  assert (∀ h, tame_handler (h (app_rt a)) → tame_handler (under_native (globalMiddleware a) h (app_rt a)))
    by (intros h Hh; by apply tame_under_native).
  assert (∀ h, tame_handler (h (app_rt a)) → tame_handler (under_stdlib (globalMiddleware a) h (app_rt a)))
    by (intros h Hh; by apply tame_buildChain).
  constructor; cbn; rewrite ?Hg; try destruct (allNative _);
    try apply tame_table_empty; try apply tame_dynamic_empty;
    try (apply tame_map_table; [|apply Ha]); try (apply tame_map_dynamic; [|apply Ha]); rewrite <-?Hg; auto.
  intros h Hh. apply tame_buildChain; [done|]. by apply tame_with_context.
Qed.

(** ** The mux *)

Local Notation Redirect := (http_Redirect redirect_location redirect_page).
Local Notation muxHandler := (mux_handler redirect_location redirect_page).
Local Notation muxServe := (mux_ServeHTTP mux_match mux_default redirect_location redirect_page).

Lemma steady_Redirect w r url code : steady (Redirect w r url code).
Proof.
  unfold http_Redirect. apply steady_bind; [apply steady_get|intros h].
  apply steady_bind; [apply steady_header|intros _].
  apply steady_bind; [case_match; [apply steady_header|apply steady_ret]|intros _].
  apply steady_bind; [apply steady_WriteHeader|intros _].
  case_match; [apply steady_Write|apply steady_ret].
Qed.

Lemma tame_mux_handler a pattern ans : tame_app a → tame_handler (muxHandler a pattern ans).
Proof.
  intros Ha w r. destruct ans; cbn.
  - destruct (mux a !! pattern) as [h|] eqn:Hh; [by eapply ta_mux|].
    apply tame_at_tame, tame_steady, steady_panic.
  - apply tame_at_tame, tame_steady, steady_Redirect.
Qed.

Lemma tame_mux_ServeHTTP a : tame_app a → tame_handler (muxServe a).
Proof.
  intros Ha w r. unfold mux_ServeHTTP. destruct (mux_match _ _) as [[pattern ans]|]; [|apply Ha].
  apply tame_at_bind; [|intros _; by apply tame_mux_handler].
  destruct ans; [by apply steady_mod_ctx|apply steady_ret].
Qed.

Lemma tame_answer a h : tame_app a → tame h → tame (answer a h).
Proof. intros Ha Hh. apply tame_handling; [apply Ha|done]. Qed.

Lemma tame_unmatched a : tame_app a → tame_handler (unmatched mux_default a).
Proof.
  intros Ha w r. apply tame_at_bind; [apply steady_get|intros ok].
  assert (tame_at r (if (ok : bool) then answer a (notFoundHandler a) else mux_default w r)) as Hnf.
  { destruct ok; [|apply Ha]. apply tame_at_tame, tame_answer; [done|apply Ha]. }
  assert (tame_at r (answer a (methodNotAllowedHandler a))) as Hna
    by (apply tame_at_tame, tame_answer; [done|apply Ha]).
  assert (tame_at r (go_bind (first_methods (routeMethodsDynamic a) (r_Path r)) (λ methods,
      match methods with
      | Some ms =>
          if bool_decide (r_Method r ∉ ms) && ok then answer a (methodNotAllowedHandler a)
          else if (ok : bool) then answer a (notFoundHandler a) else mux_default w r
      | None => if (ok : bool) then answer a (notFoundHandler a) else mux_default w r
      end))) as Hdyn.
  { apply tame_at_bind; [apply steady_first_methods|intros [ms|]; [|done]].
    by destruct (bool_decide _ && ok). }
  destruct (routeMethodsExact a !! r_Path r) as [ms|]; [|done].
  by destruct (bool_decide _ && ok).
Qed.

Lemma tame_mux_fallback a :
  tame_app a → tame_handler (mux_fallback mux_match mux_default redirect_location redirect_page a).
Proof.
  intros Ha w r. unfold mux_fallback.
  destruct (mux_match _ _) as [[pattern ans]|]; [|by apply tame_unmatched].
  case_decide.
  - apply tame_at_bind.
    { apply steady_bind; [apply steady_get|intros []; [apply steady_set_pattern|apply steady_ret]]. }
    intros _. case_match; [by apply tame_mux_handler|by apply tame_mux_ServeHTTP].
  - apply tame_at_bind; [by apply steady_mod|intros _].
    apply tame_at_then; [by apply tame_mux_ServeHTTP|intros _].
    apply tame_bind; [apply tame_steady, steady_get|intros []; [apply tame_steady, steady_ret|]].
    apply tame_bind; [apply tame_steady, steady_get|intros []; [|apply tame_steady, steady_ret]].
    apply tame_answer; [done|apply Ha].
Qed.

Lemma tame_routed rt (rh : rhandler) pattern w r :
  tame_handler (rh rt) → tame_at r (set_pattern pattern ;;; rh rt w r).
Proof. intros Hh. apply tame_at_bind; [apply steady_set_pattern|intros _; apply Hh]. Qed.

Lemma first_match_in l path wd d wd' :
  first_match l path wd = (Ret (Some d), wd') → d ∈ l.
Proof.
  revert wd. induction l as [|d' l IH]; intros wd; [done|]. cbn [first_match]. unfold go_bind.
  destruct (ctx_match _ _ wd) as [[[]|] wd1]; [|intros Hd; right; by eapply IH|done].
  intros [= <- _]. by left.
Qed.

(** A list of dynamic routes searched, and what then runs. *)
Lemma tame_first_match {B} r (l : list dynamicRoute) path (k : option dynamicRoute → GoM World B) :
  tame_at r (k None) → (∀ d, d ∈ l → tame_at r (k (Some d))) →
  tame_at r (go_bind (first_match l path) k).
Proof.
  intros Hn Hs wd Hr Hok. unfold go_bind.
  destruct (steady_first_match l path wd Hok) as (Hp & Hr' & _).
  destruct (first_match l path wd) as [[[d|]|msg] wd1] eqn:Hf; cbn [snd] in *; [..|done];
    (eapply preserved_trans; [exact Hp|]).
  - apply Hs; [by eapply first_match_in|congruence|apply Hp].
  - apply Hn; [congruence|apply Hp].
Qed.

Lemma tame_routingMux a :
  tame_app a → tame_handler (routingMux_ServeHTTP mux_match mux_default redirect_location redirect_page a).
Proof.
  intros Ha w r. apply tame_at_bind; [apply steady_get|intros []; [|by apply tame_mux_fallback]].
  destruct (table_get _ _ _) as [rh|] eqn:Hrh; [by eapply tame_routed, (ta_fast _ Ha)|].
  apply tame_first_match; [by apply tame_mux_fallback|].
  intros d Hd. by eapply tame_routed, (ta_direct _ Ha).
Qed.

Lemma tame_buildHandler a :
  tame_app a → tame_handler (buildHandler mux_match mux_default redirect_location redirect_page a).
Proof. intros Ha. apply tame_buildChain; [apply Ha|by apply tame_routingMux]. Qed.

(** ** Serving *)

Local Notation Direct := (serveDirect mux_match mux_default redirect_location redirect_page).

Lemma tame_run_phase a phase : tame_app a → tame (run_phase a phase).
Proof.
  intros Ha. unfold run_phase. destruct (hasHook _ _); [apply Ha|apply tame_steady, steady_ret].
Qed.

Lemma tame_finish a r m : tame_app a → tame_at r m → tame_at r (finish a m).
Proof.
  intros Ha Hm. apply tame_at_then; [done|intros _].
  apply tame_bind; [by apply tame_run_phase|intros _; apply tame_steady, steady_ret].
Qed.

(** Our own entry is the only one we may remove. *)
Lemma delete_own (reg : gset nat) (i : nat) :
  i ∉ others → (reg = others ∨ reg = {[i]} ∪ others) → reg ∖ {[i]} = others.
Proof. intros Hi [->| ->]; set_solver. Qed.

(** A computation that, started on our request with no entry of ours, leaves none;
    when it declines the request ([false]) the request is untouched. *)
Definition clean (m : GoM World bool) : Prop := ∀ wd,
  registry_ok wd → w_registry wd = others → c_req (w_ctx wd) = r0 →
  registry_ok (m wd).2 ∧ w_registry (m wd).2 = others ∧ w_released (m wd).2 = w_released wd ∧
  ((m wd).1 = Ret false → c_req (w_ctx (m wd).2) = r0).

Lemma subset_others wd :
  registry_ok wd → w_registry wd ⊆ others → w_registry wd = others.
Proof. intros [[?|[Heq _]] _] Hsub; [done|]. rewrite Heq in *. set_solver. Qed.

Lemma clean_tame {A} (m : GoM World A) : tame_at r0 m → clean (m ;;; go_ret true).
Proof.
  intros Hm wd Hok Hreg Hr. specialize (Hm wd Hr Hok). unfold go_bind, go_ret.
  destruct (m wd) as [[a|msg] wd1]; cbn [fst snd] in *; destruct Hm as (Hok1 & Hsub & Hrel & _);
    rewrite Hreg in Hsub; (split_and!; [done|by apply subset_others|done|done]).
Qed.

Lemma clean_bind {A} (m : GoM World A) k : steady m → (∀ a, clean (k a)) → clean (go_bind m k).
Proof.
  intros Hm Hk wd Hok Hreg Hr. unfold go_bind. destruct (Hm wd Hok) as (Hp & Hr' & Hg).
  destruct (m wd) as [[a|msg] wd1]; cbn [fst snd] in *; destruct Hp as (Hok1 & _ & Hrel & _).
  - destruct (Hk a wd1 Hok1) as (? & ? & ? & ?); [congruence..|]. split_and!; [done..|congruence|done].
  - split_and!; [done|congruence|done|done].
Qed.

Lemma clean_first_match (l : list dynamicRoute) path k :
  clean (k None) → (∀ d, d ∈ l → clean (k (Some d))) → clean (go_bind (first_match l path) k).
Proof.
  intros Hn Hs wd Hok Hreg Hr. unfold go_bind.
  destruct (steady_first_match l path wd Hok) as (Hp & Hr' & Hg).
  destruct (first_match l path wd) as [[[d|]|msg] wd1] eqn:Hf; cbn [fst snd] in *;
    destruct Hp as (Hok1 & _ & Hrel & _).
  - destruct (Hs d (first_match_in _ _ _ _ _ Hf) wd1 Hok1) as (? & ? & ? & ?); [congruence..|].
    split_and!; [done..|congruence|done].
  - destruct (Hn wd1 Hok1) as (? & ? & ? & ?); [congruence..|]. split_and!; [done..|congruence|done].
  - split_and!; [done|congruence|done|done].
Qed.

(** The request handed to a static mux route: marked, outside the registry. *)
Lemma clean_framework_context (k : request → GoM World unit) :
  (∀ r, tame_at r (k r)) →
  clean (let! req := withFrameworkContext r0 in mod_ctx (set_c_req req) ;;; k req ;;; go_ret true).
Proof.
  intros Hk wd Hok Hreg Hr.
  assert (∃ req wd1, withFrameworkContext r0 wd = (Ret req, wd1) ∧ w_registry wd1 = others ∧
    r_id req ∉ others ∧ (∀ i, i ∈ others → i < w_next wd1) ∧
    RequestContextBridge (c_app (w_ctx wd1)) = false ∧ w_released wd1 = w_released wd)
    as (req & wd1 & Heq & Hreg1 & Hid & Hnext & Hbr & Hrel).
  { destruct Hok as (_ & Hnot & Hnext & Hbr). unfold withFrameworkContext.
    destruct (r_marked r0); eexists _, _; (split; [reflexivity|]); rewrite ?Hr in *; split_and!; try done.
    - cbn. intros Hin%Hnext. lia.
    - cbn. intros i Hi%Hnext. lia. }
  rewrite (go_bind_Ret _ _ _ _ _ Heq).
  set (wd2 := set_w_ctx (set_c_req req (w_ctx wd1)) wd1).
  rewrite (go_bind_Ret _ _ tt _ wd2) by done.
  assert (registry_ok wd2) as Hok2 by (split_and!; [by left|done..]).
  specialize (Hk req wd2 eq_refl Hok2). unfold go_bind, go_ret.
  destruct (k req wd2) as [[[]|msg] wd3]; cbn [fst snd] in *;
    destruct Hk as (Hok3 & Hsub & Hrel3 & _);
    change (w_registry wd2) with (w_registry wd1) in Hsub; rewrite Hreg1 in Hsub;
    (split_and!; [done|by apply subset_others|by etrans|done]).
Qed.

(** The request handed to a dynamic mux route: in the registry while it runs. *)
Lemma clean_registered (m : GoM World unit) :
  tame_at r0 m → clean (storeRequestContext r0 ;;; go_defer (deleteRequestContext r0) m ;;; go_ret true).
Proof.
  intros Hm wd Hok Hreg Hr.
  set (wd1 := set_w_registry ({[r_id r0]} ∪ w_registry wd) wd).
  rewrite (go_bind_Ret _ _ tt _ wd1) by done.
  assert (r_id r0 ∉ others) as Hid by (rewrite <-Hr; apply Hok).
  assert (registry_ok wd1) as Hok1.
  { destruct Hok as (_ & ? & ? & ?). split_and!; [right|done..]. subst wd1. cbn. by rewrite Hreg, Hr. }
  specialize (Hm wd1 Hr Hok1). unfold go_bind, go_ret, go_defer, deleteRequestContext, go_mod.
  assert (∀ wd2, registry_ok wd2 → w_released wd2 = w_released wd →
    let wd3 := set_w_registry (w_registry wd2 ∖ {[r_id r0]}) wd2 in
    registry_ok wd3 ∧ w_registry wd3 = others ∧ w_released wd3 = w_released wd) as Hend.
  { intros wd2 (Hor & Hn & Hx & Hb) Hrel. cbn.
    assert (w_registry wd2 ∖ {[r_id r0]} = others) as Hd
      by (apply delete_own; [done|naive_solver]).
    split_and!; [|done|done]. split_and!; [by left|done..]. }
  destruct (m wd1) as [[[]|msg] wd2]; cbn [fst snd] in *; destruct Hm as (Hok2 & _ & Hrel & _);
    destruct (Hend wd2 Hok2 Hrel) as (? & ? & ?); done.
Qed.

(** [serveDirect] leaves the registry as it found it. *)
Lemma clean_serveDirect a ch :
  tame_app a → tame_chains (app_rt a) ch → clean (Direct a ch WBase r0).
Proof.
  intros Ha Hch. unfold serveDirect.
  assert (∀ pattern (rh : rhandler), tame_handler (rh (app_rt a)) →
    clean (set_pattern pattern ;;; rh (app_rt a) WBase r0 ;;; go_ret true)) as Hserve.
  { intros pattern rh Hh. apply clean_bind; [apply steady_set_pattern|intros _].
    apply clean_tame, Hh. }
  destruct (table_get _ _ (routeHandlerFast a)) as [rh|] eqn:Hf; [by eapply Hserve, ta_fast|].
  destruct (table_get _ _ (groupRouteChainNative ch)) as [rh|] eqn:Hg;
    [by eapply Hserve, tc_group_native|].
  apply clean_first_match; [|intros d Hd; by eapply Hserve, tc_dynamic_native].
  apply clean_first_match; [|intros d Hd; by eapply Hserve, ta_direct].
  assert (clean (go_ret false)) as Hdecline by by intros wd.
  destruct (mux_match _ _) as [[pattern ans]|]; [|done]. case_decide; [|done].
  destruct (negb _); (apply clean_bind; [apply steady_set_pattern|intros _]).
  - apply (clean_framework_context (muxHandler a pattern ans WBase)).
    intros r. by apply tame_mux_handler.
  - apply clean_registered. by apply tame_mux_ServeHTTP.
Qed.

(** The rest of [ServeHTTP] may enter the request; then the deferred cleanup knows. *)
Definition known (m : GoM World unit) : Prop := ∀ wd,
  registry_ok wd → w_registry wd = others → w_cleanup wd = false → c_req (w_ctx wd) = r0 →
  registry_ok (m wd).2 ∧ w_released (m wd).2 = w_released wd ∧
  (w_registry (m wd).2 = others ∨ w_cleanup (m wd).2 = true).

Lemma known_tame (m : GoM World unit) : tame_at r0 m → known m.
Proof.
  intros Hm wd Hok Hreg _ Hr. destruct (Hm wd Hr Hok) as (Hok1 & Hsub & Hrel & _).
  rewrite Hreg in Hsub. split_and!; [done..|left; by apply subset_others].
Qed.

Lemma known_bind {A} (m : GoM World A) k : steady m → (∀ a, known (k a)) → known (go_bind m k).
Proof.
  intros Hm Hk wd Hok Hreg Hcl Hr. unfold go_bind. destruct (Hm wd Hok) as (Hp & Hr' & Hg).
  destruct (m wd) as [[a|msg] wd1]; cbn [fst snd] in *; destruct Hp as (Hok1 & _ & Hrel & Hcl1).
  - destruct (Hk a wd1 Hok1) as (? & ? & ?); [congruence..|]. split_and!; [done|congruence|done].
  - split_and!; [done|congruence|left; congruence].
Qed.

Lemma known_first_match (l : list dynamicRoute) path k :
  known (k None) → (∀ d, d ∈ l → known (k (Some d))) → known (go_bind (first_match l path) k).
Proof.
  intros Hn Hs wd Hok Hreg Hcl Hr. unfold go_bind.
  destruct (steady_first_match l path wd Hok) as (Hp & Hr' & Hg).
  destruct (first_match l path wd) as [[[d|]|msg] wd1] eqn:Hf; cbn [fst snd] in *;
    destruct Hp as (Hok1 & _ & Hrel & Hcl1).
  - destruct (Hs d (first_match_in _ _ _ _ _ Hf) wd1 Hok1) as (? & ? & ?); [congruence..|].
    split_and!; [done|congruence|done].
  - destruct (Hn wd1 Hok1) as (? & ? & ?); [congruence..|]. split_and!; [done|congruence|done].
  - split_and!; [done|congruence|left; congruence].
Qed.

(** From the bridge on, in registry mode: our entry is in and the flag is set. *)
Lemma known_bridge a k :
  RequestContextBridge (app_core a) = false → tame_at r0 (k r0) → known (go_bind (bridge a r0) k).
Proof.
  intros Hb Hk wd Hok Hreg _ Hr. unfold bridge. rewrite Hb.
  set (wd1 := set_w_cleanup true (set_w_ctx (set_c_req r0 (w_ctx wd))
    (set_w_registry ({[r_id r0]} ∪ w_registry wd) wd))).
  rewrite (go_bind_Ret _ _ r0 _ wd1) by done.
  assert (registry_ok wd1) as Hok1.
  { destruct Hok as (_ & Hn & Hx & Hbr). rewrite Hr in Hn.
    split_and!; [right; split; [|done]|done..]. subst wd1. cbn. by rewrite Hreg. }
  destruct (Hk wd1 eq_refl Hok1) as (? & _ & Hrel & Hcl). split_and!; [done|exact Hrel|by right].
Qed.

Lemma known_route a ch w :
  tame_app a → tame_chains (app_rt a) ch → RequestContextBridge (app_core a) = false →
  known (route mux_match mux_default redirect_location redirect_page a ch w r0).
Proof.
  intros Ha Hch Hb. unfold route.
  assert (∀ pattern (rh : rhandler), tame_handler (rh (app_rt a)) →
    tame_at r0 (finish a (set_pattern pattern ;;; rh (app_rt a) w r0))) as Hserve
    by (intros pattern rh Hh; apply tame_finish; [done|by apply tame_routed]).
  destruct (table_get _ _ (routeChainFastNative ch)) as [rh|] eqn:H1;
    [by eapply known_tame, Hserve, tc_fast_native|].
  destruct (table_get _ _ (groupRouteChainNative ch)) as [rh|] eqn:H2;
    [by eapply known_tame, Hserve, tc_group_native|].
  apply known_first_match; [|intros d Hd; by eapply known_tame, Hserve, tc_dynamic_native].
  apply known_bridge; [done|].
  destruct (table_get _ _ (routeChainFast ch)) as [rh|] eqn:H3; [by eapply Hserve, tc_fast|].
  destruct (table_get _ _ (groupRouteChainFast ch)) as [rh|] eqn:H4; [by eapply Hserve, tc_group|].
  apply tame_first_match; [|intros d Hd; by eapply Hserve, tc_dynamic].
  apply tame_finish; [done|by apply tame_buildHandler].
Qed.

Lemma known_with_hooks a ch w :
  tame_app a → tame_chains (app_rt a) ch → RequestContextBridge (app_core a) = false →
  steady (run_phase a OnRequest) → steady (run_phase a PreRouting) →
  known (with_hooks mux_match mux_default redirect_location redirect_page a ch w r0).
Proof.
  intros Ha Hch Hb Hst1 Hst2. unfold with_hooks.
  apply known_bind; [apply Hst1|intros [err|]];
    [apply known_tame, tame_at_tame, tame_handleError, Ha|].
  apply known_bind; [apply Hst2|intros [err|]];
    [apply known_tame, tame_at_tame, tame_handleError, Ha|by apply known_route].
Qed.

(** The deferred cleanup removes the entry and returns the context. *)
Lemma release_ok a wd :
  registry_ok wd → (w_registry wd = others ∨ w_cleanup wd = true) → r_id r0 ∉ others →
  ∃ wd', release a wd = (Ret tt, wd') ∧ w_registry wd' = others ∧
    w_released wd' = S (w_released wd).
Proof.
  intros (Hor & Hn & _) Hcl Hid. unfold release. rewrite go_bind_eq. unfold go_get at 1.
  destruct (w_cleanup wd).
  - eexists. split; [reflexivity|]. split; [|done]. cbn.
    destruct Hor as [Heq|[Heq Hr]]; rewrite Heq; [|rewrite Hr]; set_solver.
  - destruct Hcl as [Heq|]; [|done]. by eexists.
Qed.

(** A deferred [release], after whatever the body and the other deferred steps did. *)
Lemma known_release a m cleanup wd :
  known m → registry_ok wd → w_registry wd = others → w_cleanup wd = false → c_req (w_ctx wd) = r0 →
  (∀ wd, registry_ok wd → ∃ wd', cleanup wd = release a wd' ∧ preserved wd wd') →
  w_registry (go_defer cleanup m wd).2 = others ∧
  w_released (go_defer cleanup m wd).2 = S (w_released wd).
Proof.
  intros Hm Hok Hreg Hcl Hr Hclean. destruct (Hm wd Hok Hreg Hcl Hr) as (Hok1 & Hrel1 & Hor).
  assert (r_id r0 ∉ others) as Hid by (rewrite <-Hr; apply Hok).
  unfold go_defer. destruct (m wd) as [res wd1]. cbn [snd] in *.
  destruct (Hclean wd1 Hok1) as (wd2 & -> & Hok2 & Hsub & Hrel2 & Hcl2).
  destruct (release_ok a wd2 Hok2) as (wd3 & -> & ? & Hrel3); [|done|].
  - destruct Hor as [Heq|Hc]; [left|right; congruence]. rewrite Heq in Hsub. by apply subset_others.
  - split; [done|]. cbn [snd]. congruence.
Qed.

Lemma serve_deferred_clean a ch wd :
  tame_app a → tame_chains (app_rt a) ch → RequestContextBridge (app_core a) = false →
  steady (run_phase a OnRequest) → steady (run_phase a PreRouting) →
  (∀ wd, ∃ res, (run OnSend (hooks (app_rt a)) wd).1 = Ret res) →
  registry_ok wd → w_registry wd = others → c_req (w_ctx wd) = r0 →
  let wd' := (serve_deferred mux_match mux_default redirect_location redirect_page a ch r0 wd).2 in
  w_registry wd' = others ∧ w_released wd' = S (w_released wd).
Proof.
  intros Ha Hch Hb Hst1 Hst2 Hsend Hok Hreg Hr. cbn zeta. unfold serve_deferred.
  set (wd1 := set_w_cleanup false wd). rewrite (go_bind_Ret _ _ tt _ wd1) by done.
  assert (registry_ok wd1) as Hok1 by done.
  change (w_released wd) with (w_released wd1).
  destruct (hasHook (app_rt a) OnSend).
  - set (wd2 := set_w_bw (acquireBufferedWriter (bw_under (w_bw wd1))) wd1).
    rewrite (go_bind_Ret _ _ tt _ wd2) by done. change (w_released wd1) with (w_released wd2).
    apply (known_release a); try done.
    + apply known_bind; [by apply steady_mod_ctx|intros _; by apply known_with_hooks].
    + intros wd3 Hok3. unfold send_and_release.
      destruct (Hsend wd3) as [res Hres]. pose proof (proj1 (ta_runtime _ Ha) OnSend wd3 Hok3) as Hp.
      destruct (run OnSend _ wd3) as [o wd4] eqn:Hrun. cbn [fst snd] in *. subst o.
      rewrite (go_bind_Ret _ _ _ _ _ Hrun).
      exists (set_w_bw (flush (w_bw wd4)) wd4). split; [done|exact Hp].
  - apply (known_release a); try done; [by apply known_with_hooks|].
    intros wd3 Hok3. exists wd3. split; [done|]. by split_and!.
Qed.

(** [C29] Serving a request leaves no trace in the registry and returns the context to the pool,
    however it ends: by a panic of a handler or hook, by an error, or normally; only a panic on the
    direct path keeps the context. OnSend hooks must not panic ([OnSend_panic_leaks]), the hooks
    before routing must not swap the request, everything else swaps it only through the framework,
    and neither the context bridge nor trailing-slash redirects are on. *)
Theorem ServeHTTP_cleans_up a wd o wd' :
  ServeHTTP mux_match mux_default redirect_location redirect_page a r0 wd = (o, wd') →
  tame_app (ensureReady a) →
  steady (run_phase (ensureReady a) OnRequest) → steady (run_phase (ensureReady a) PreRouting) →
  (∀ wd, ∃ res, (run OnSend (hooks (app_rt (ensureReady a))) wd).1 = Ret res) →
  RequestContextBridge (app_core a) = false → c_app (w_ctx wd) = app_core a →
  w_registry wd = others → r_id r0 ∉ others → (∀ i, i ∈ others → i < w_next wd) →
  RedirectTrailingSlash a = false →
  w_registry wd' = others ∧
  (w_released wd' = S (w_released wd) ∨
   (∃ msg, o = Panic msg) ∧ globalMiddleware a = [] ∧ no_hooks (ensureReady a) = true).
Proof.
  intros Hserve Ha Hst1 Hst2 Hsend Hb Happ Hreg Hid Hnext Hred.
  pose proof (tame_buildRouteChainFast _ Ha) as Hch.
  set (ch := buildRouteChainFast (ensureReady a)) in *.
  set (wd0 := set_w_ctx (reset WBase r0 ∅ (w_ctx wd)) wd).
  assert (registry_ok wd0) as Hok0 by (split_and!; [by left|done|done|cbn; by rewrite Happ]).
  assert (c_req (w_ctx wd0) = r0) as Hr0 by done.
  change (w_released wd) with (w_released wd0). change (w_registry wd0) with (w_registry wd) in *.
  revert Hserve. unfold ServeHTTP.
  change (RedirectTrailingSlash (ensureReady a)) with (RedirectTrailingSlash a).
  rewrite Hred. cbn [andb]. rewrite (go_bind_Ret _ _ tt _ wd0) by done. fold ch.
  change (globalMiddleware (ensureReady a)) with (globalMiddleware a).
  destruct ((length (globalMiddleware a) =? 0)%nat && no_hooks (ensureReady a)) eqn:Hdirect.
  - apply andb_true_iff in Hdirect as [Hmw%Nat.eqb_eq%nil_length_inv Hno].
    destruct (clean_serveDirect _ _ Ha Hch wd0 Hok0 Hreg Hr0) as (Hok1 & Hreg1 & Hrel1 & Hdecl).
    rewrite go_bind_eq.
    destruct (serveDirect _ _ _ _ _ _ _ _ wd0) as [[[]|msg] wd1]; cbn [fst snd] in *.
    + intros [= _ <-]. split; [done|]. left. rewrite <-Hrel1. done.
    + intros Hserve. destruct (serve_deferred_clean _ ch wd1 Ha Hch Hb Hst1 Hst2 Hsend Hok1 Hreg1)
        as [Hr Hrel]; [by apply Hdecl|].
      rewrite Hserve in Hr, Hrel. cbn [snd] in *. split; [done|]. left. by rewrite Hrel, Hrel1.
    + intros [= <- <-]. split; [done|]. right. eauto.
  - intros Hserve.
    destruct (serve_deferred_clean _ ch wd0 Ha Hch Hb Hst1 Hst2 Hsend Hok0 Hreg Hr0) as [Hr Hrel].
    rewrite Hserve in Hr, Hrel. split; [done|]. by left.
Qed.

(** ** Tame applications *)

Lemma tame_table_set rt (t : table rhandler) m p (h : rhandler) :
  tame_handler (h rt) → tame_table rt t → tame_table rt (table_set m p h t).
Proof.
  intros Hh Ht m' p' h'. rewrite table_get_set. case_decide; [by intros [= <-]|apply Ht].
Qed.

Lemma tame_add_dynamic rt t m d :
  tame_handler (dr_handler d rt) → tame_dynamic rt t → tame_dynamic rt (add_dynamic m d t).
Proof.
  intros Hh Ht m' d'. rewrite routes_of_add. intros [Hd|Hd]%elem_of_app; [by eapply Ht|].
  case_decide; [|by apply elem_of_nil in Hd]. by apply list_elem_of_singleton in Hd as ->.
Qed.

Lemma tame_httpHandler rt adapted limit :
  tame_runtime rt → tame (ah_fn adapted) → tame_handler (httpHandler adapted limit rt).
Proof.
  intros Hrt Hfn w r. apply tame_at_bind; [apply steady_get|intros []].
  - by apply tame_internalHandler.
  - apply tame_at_tame, tame_steady, steady_WriteHeader.
Qed.

(** Registering tame handlers and middleware keeps an application tame. *)
Lemma tame_addRoute mux_rejects label m p handler adapted opts a a' :
  adaptHandler handler = Ret adapted → tame (ah_fn adapted) →
  Forall (tame_middleware (app_rt a)) (rc_middleware (apply_options opts)) →
  addRoute mux_rejects label m p handler opts a = (Ret tt, a') → tame_app a → tame_app a'.
Proof.
  intros Had Hfn Hmw. unfold addRoute. rewrite Had.
  unfold go_bind, go_mod, go_ret, mux_Handle. destruct (mux_rejects _ _); [done|].
  intros Hadd Ha. apply (f_equal snd) in Hadd. cbn [snd] in Hadd.
  set (limit := route_limit (apply_options opts) a) in *.
  assert (tame_handler (internalHandler adapted limit (app_rt a))) as Hi
    by (apply tame_internalHandler; [apply Ha|done]).
  assert (tame_handler (buildChain (app_rt a) (httpHandler adapted limit (app_rt a))
    (rc_middleware (apply_options opts)))) as Hh
    by (apply tame_buildChain; [done|]; apply tame_httpHandler; [apply Ha|done]).
  assert (∀ a1, app_rt a1 = app_rt a → tame_app a1 →
    tame_app (recordRouteIdempotencyTTL m p (apply_options opts)
      (trackMethodPattern m p (is_dynamic p) (compiled_pattern p) a1))) as Hrest.
  { intros a1 _ []. unfold recordRouteIdempotencyTTL, trackMethodPattern.
    destruct (is_dynamic p), (rc_idempotencyTTL _); by constructor. }
  rewrite <-Hadd. clear Hadd a'.
  set (a1 := set_mux _ _).
  assert (tame_app a1) as Ha1.
  { assert (tame_app (trackRedirectSlashPattern p (is_dynamic p) (compiled_pattern p) a)) as Hr
      by (destruct Ha; by constructor).
    destruct Hr. constructor; try done. intros k h Hk. unfold a1 in Hk. cbn [mux set_mux] in Hk.
    apply lookup_insert_Some in Hk as [[_ <-]|[_ Hk]]; [exact Hh|by eapply ta_mux0]. }
  destruct (rc_middleware (apply_options opts)); [destruct (is_dynamic p)|];
    apply Hrest; try done; destruct Ha1; constructor; try done.
  - apply tame_add_dynamic; [exact Hi|done].
  - apply tame_table_set; [exact Hi|done].
Qed.

Lemma tame_New rt k maxBody redirect :
  tame_runtime rt → tame_handler mux_default → tame_app (New rt k maxBody redirect).
Proof.
  intros Hrt Hd.
  assert (∀ status resp, tame (let! rid := get_ctx RequestID in JSON status (resp rid))) as Hjson.
  { intros status resp. apply tame_bind; [apply tame_steady, steady_get|intros rid].
    apply tame_steady, steady_JSON. }
  constructor; try apply tame_table_empty; try apply tame_dynamic_empty; try done;
    try (by apply Forall_nil).
  - apply (Hjson 404%Z (λ rid, PError "not_found" "Resource not found" "" rid)).
  - apply (Hjson 405%Z (λ rid, PError "method_not_allowed" "Method not allowed" "" rid)).
Qed.
End cleanup.

(** * Witnesses *)

Definition registry_core : AppCore := {|
  codecContentType := "application/json"; codecEncode := codecEncode demo_core;
  codecMarshal := codecMarshal demo_core; routeIdempotencyTTL := ∅;
  RequestContextBridge := false |}.

Definition no_mux (keys : gset string) (r : request) : option (string * mux_answer) := None.
Definition default_404 : Handler := λ w _, http_NotFound w.
Definition same_url (r : request) (url : string) : string := url.
Definition no_page (url : string) (code : Z) : string := "".
Local Notation demo_serve := (ServeHTTP no_mux default_404 same_url no_page).

Definition boom : handler_arg := HHandlerFunc (go_panic "boom") false.
Definition recovering : RouteOption := λ rc, rc.

(** Registration does not look at the hooks. *)
Lemma addRoute_set_rt mux_rejects label m p handler opts a rt :
  addRoute mux_rejects label m p handler opts (set_app_rt rt a) =
    let (o, a') := addRoute mux_rejects label m p handler opts a in (o, set_app_rt rt a').
Proof.
  unfold addRoute. destruct (adaptHandler handler) as [adapted|msg]; [|done].
  unfold go_bind, go_mod, go_ret, mux_Handle. cbn [mux set_app_rt trackRedirectSlashPattern].
  destruct a, (is_dynamic p) eqn:Hd, (rc_middleware (apply_options opts)) eqn:Hm;
    cbn; destruct (mux_rejects _ _); try done;
    unfold trackMethodPattern, recordRouteIdempotencyTTL;
    destruct (rc_idempotencyTTL (apply_options opts)); done.
Qed.

(** A panicking handler behind an OnResponse hook, in registry mode. *)
Definition boom_runtime : Runtime := AddHook OnResponse (go_ret None) demo_runtime.
Definition boom_new : App := New boom_runtime registry_core 0 false.
Definition boom_app : App := (addRoute accept_all no_label "GET" "/users/{id}" boom [] boom_new).2.

Definition boom_world : World := set_w_ctx (set_c_app registry_core demo_ctx) demo_world.

Lemma boom_step :
  addRoute accept_all no_label "GET" "/users/{id}" boom [] boom_new = (Ret tt, boom_app).
Proof. reflexivity. Qed.

Lemma tame_boom others r0 : tame_app default_404 others r0 (ensureReady boom_app).
Proof.
  set (rt := ready_hooks boom_runtime).
  assert (tame_runtime others r0 rt) as Hrt
    by (split; [intros []; intros wd Hok; by split_and!|done]).
  pose proof (addRoute_set_rt accept_all no_label "GET" "/users/{id}" boom [] boom_new rt) as Hstep.
  rewrite boom_step in Hstep.
  apply (tame_addRoute default_404 others r0 accept_all no_label "GET" "/users/{id}" boom _ [] _ _ eq_refl)
    in Hstep; [exact Hstep| |by apply Forall_nil|].
  - apply tame_steady, steady_panic.
  - apply (tame_New default_404 others r0 rt); [exact Hrt|]. intros w r. apply tame_at_tame, tame_steady.
    repeat (apply steady_bind; [apply steady_header|intros _]).
    apply steady_bind; [apply steady_WriteHeader|intros _; apply steady_Write].
Qed.

Lemma ServeHTTP_cleans_up_witness :
  let '(o, wd') := demo_serve boom_app demo_request boom_world in
  o = Panic "boom" ∧ w_registry wd' = ∅ ∧ w_released wd' = 1.
Proof.
  destruct (demo_serve boom_app demo_request boom_world) as [o wd'] eqn:Hserve.
  assert (o = Panic "boom") as -> by (apply (f_equal fst) in Hserve; vm_compute in Hserve; by inversion Hserve).
  split; [done|].
  destruct (ServeHTTP_cleans_up no_mux default_404 same_url no_page ∅ demo_request boom_app boom_world
    (Panic "boom") wd' Hserve (tame_boom _ _)) as [Hreg Hrel];
    try (apply steady_ret); try done.
  - intros wd. exists None. reflexivity.
  - split; [exact Hreg|]. destruct Hrel as [Hrel|(_ & _ & Hno)]; [exact Hrel|].
    vm_compute in Hno. discriminate Hno.
Defined.

(** *** A dynamic route *)

Definition demo_users : App :=
  (addRoute accept_all no_label "GET" "/users/{id}" hello [] demo_new).2.
Definition hello_adapted : adaptedHandler := {| ah_fn := Text 200 "hello"; ah_preHandled := false |}.
Definition users_route : dynamicRoute := {|
  dr_handler := internalHandler hello_adapted 10;
  dr_pattern := compileDirectPattern "/users/{id}"; dr_patternStr := "/users/{id}" |}.


(** *** No route *)

Definition post_me : request := MkRequest 0 "POST" "/users/me" "" ∅ "10.0.0.7:4711" false 0 true.

Lemma demo_one_routes m p : has_route demo_one m p ↔ m = "GET" ∧ p = "/users/me".
Proof.
  pose proof (addRoute_registers _ _ _ _ _ _ _ _ demo_one_step) as [Hreg _].
  destruct (rg_routes _ _ _ _ Hreg) as (ri & Hri & Hm & Hp).
  unfold has_route. rewrite Hri. change (routes demo_new) with (@nil RouteInfo). cbn [app].
  setoid_rewrite list_elem_of_singleton. split.
  - intros (ri' & -> & <- & <-). done.
  - intros [-> ->]. by exists ri.
Qed.

Lemma unmatched_answers_witness :
  unmatched default_404 demo_one WBase post_me demo_world =
    answer demo_one (methodNotAllowedHandler demo_one) demo_world.
Proof.
  assert (wf_app demo_one) as Hwf.
  { eapply wf_step; [eapply Step_route; exact demo_one_step|apply New_wf]. }
  destruct (unmatched_answers default_404 demo_one WBase post_me demo_world Hwf) as [H _].
  - reflexivity.
  - intros m p Hr. apply demo_one_routes in Hr as [_ ->]. discriminate 1.
  - apply H.
    + exists "GET". apply demo_one_routes. split; reflexivity.
    + reflexivity.
    + intros Hr. apply demo_one_routes in Hr as [[=] _].
Defined.

(** ** Behaviour worth knowing *)

Definition get_request (p : string) : request :=
  MkRequest 0 "GET" p "" ∅ "10.0.0.7:4711" false 0 false.
Definition answered (x : outcome unit * World) : Z * string :=
  (final_status (bw_under (w_bw x.2)), w_body (bw_under (w_bw x.2))).

(** A static route of the application and a dynamic route of a group that both
    accept a path: the direct path serves the static one. Registering a hook that
    does nothing moves the application to the hooked path, which asks the group's
    dynamic routes first, and another handler answers. *)
Definition overlap_app : App :=
  ((let! _ := addRoute accept_all no_label "GET" "/items/me"
      (HHandlerFunc (Text 200 "exact") false) [] in
    Group "/items" (group_addRoute accept_all no_label "GET" "/{id}"
      (HHandlerFunc (Text 200 "dynamic") false) [])) demo_new).2.
Definition hooked_app : App :=
  set_app_rt (AddHook OnRequest (go_ret None) demo_runtime) overlap_app.
Example hook_changes_route :
  answered (demo_serve overlap_app (get_request "/items/me") demo_world) = (200%Z, "exact") ∧
  answered (demo_serve hooked_app (get_request "/items/me") demo_world) = (200%Z, "dynamic").
Proof. split; vm_compute; reflexivity. Qed.

(** The trailing slash redirect sends a path that begins with two slashes as it is,
    which a client reads as another host. *)
Definition redirecting_app : App :=
  (addRoute accept_all no_label "GET" "/{a}/{b}" hello [] (New demo_runtime demo_core 10 true)).2.
Example redirect_to_other_host :
  let wd := (demo_serve redirecting_app (get_request "//evil.com") demo_world).2 in
  final_status (bw_under (w_bw wd)) = 301%Z ∧
  header_get "Location" (w_header (bw_under (w_bw wd))) = "//evil.com/".
Proof. split; vm_compute; reflexivity. Qed.

(** A panic of an OnSend hook keeps the registry entry and the context. *)
Definition send_panics_app : App :=
  set_app_rt (AddHook OnSend (go_panic "send") demo_runtime) (set_app_core registry_core demo_one).
Example OnSend_panic_leaks :
  let '(o, wd) := demo_serve send_panics_app demo_request boom_world in
  o = Panic "send" ∧ w_registry wd = {[ 0 ]} ∧ w_released wd = w_released boom_world.
Proof. vm_compute. done. Qed.
