(* ===== verification/OpenApiUI.v ===== *)
(** The OpenAPI viewers (plugins/openapi-ui): the pages built by textual
    substitution into a template, their registration on an application, and the
    script that starts Swagger UI in the browser. *)
From S2P Require Import Prelude GoStrings Http Response.
From S2P Require Import RequestContext Routing Dispatch.
Open Scope go_scope.

(** * strings.Replacer *)

(** The first pair, in argument order, whose old string starts here. *)
Definition replace_here (pairs : list (string * string)) (s : string) : option (string * string) :=
  find_first (λ p, has_prefix s p.1) pairs.

(** [strings.NewReplacer(pairs...).Replace(s)]; [skip] bytes of the last match are
    left to consume. *)
Fixpoint replace_from (pairs : list (string * string)) (skip : nat) (s : string) : string :=
  match s with
  | EmptyString => EmptyString
  | String a s' =>
      match skip with
      | S k => replace_from pairs k s'
      | 0 =>
          match replace_here pairs s with
          | Some (old, new) => new +:+ replace_from pairs (String.length old - 1) s'
          | None => String a (replace_from pairs 0 s')
          end
      end
  end.
Definition Replace (pairs : list (string * string)) (s : string) : string := replace_from pairs 0 s.

(** * The pages *)

Definition dquote : ascii := "034".
Definition dq (s : string) : string := string_map (λ a, if Ascii.eqb a "'" then dquote else a) s.

Definition html_pairs : list (string * string) :=
  [("&", "&amp;"); ("<", "&lt;"); (">", "&gt;"); (String dquote "", "&quot;"); ("'", "&#39;")].
Definition htmlEscape (s : string) : string := Replace html_pairs s.

(** The templates, written with single quotes for double ones. *)
Definition swaggerTemplate : string := dq
"<!DOCTYPE html>
<html lang='en'>
<head>
  <meta charset='UTF-8'>
  <title>__TITLE__</title>
  <link rel='stylesheet' type='text/css' href='__BASE__/swagger-ui.css'>
</head>
<body>
  <div id='swagger-ui'></div>
  <script src='__BASE__/swagger-ui-bundle.js' charset='UTF-8'></script>
  <script src='__BASE__/swagger-initializer.js' data-spec-url='__SPEC__' charset='UTF-8'></script>
</body>
</html>
".
Definition redocTemplate : string := dq
"<!DOCTYPE html>
<html lang='en'>
<head>
  <meta charset='UTF-8'>
  <title>__TITLE__</title>
  <meta name='viewport' content='width=device-width, initial-scale=1'>
</head>
<body style='margin:0'>
  <redoc spec-url='__SPEC__'></redoc>
  <script src='__BASE__/redoc.standalone.js' charset='UTF-8'></script>
</body>
</html>
".

Definition page_pairs (specURL title staticBase : string) : list (string * string) :=
  [("__TITLE__", htmlEscape title); ("__BASE__", htmlEscape staticBase);
   ("__SPEC__", htmlEscape specURL)].
Definition swaggerHTML (specURL title staticBase : string) : string :=
  Replace (page_pairs specURL title staticBase) swaggerTemplate.
Definition redocHTML (specURL title staticBase : string) : string :=
  Replace (page_pairs specURL title staticBase) redocTemplate.

(** * Mounting *)

Definition DefaultSwaggerPath : string := "/docs".
Definition DefaultReDocPath : string := "/redoc".
Definition DefaultSpecURL : string := "/openapi.json".
Definition DefaultTitle : string := "API Docs".
Definition SkipMount : string := "-".

Record Config : Type := MkConfig {
  SpecURL : string;
  Title : string;
  SwaggerPath : string;
  ReDocPath : string;
}.

Definition or_default (d s : string) : string := if String.eqb s "" then d else s.
Definition applyDefaults (cfg : Config) : Config :=
  MkConfig (or_default DefaultSpecURL (SpecURL cfg)) (or_default DefaultTitle (Title cfg))
    (or_default DefaultSwaggerPath (SwaggerPath cfg)) (or_default DefaultReDocPath (ReDocPath cfg)).

(** A handler that answers with a page, as an aarv handler and as a stdlib one. The first returns
    the error of its write; the writers of the model take every write, so it is nil. *)
Definition page_handler (body : string) : HandlerFunc :=
  go_mod (wr_mod_header (header_set "Content-Type" "text/html; charset=utf-8")) ;;;
  let! w := get_ctx c_res in
  go_mod (wr_Write w body) ;;;
  go_ret None.
Definition page_http (body : string) : Handler := λ w _,
  go_mod (wr_mod_header (header_set "Content-Type" "text/html; charset=utf-8")) ;;;
  go_mod (wr_Write w body).

Definition swaggerPageHandler (cfg : Config) : HandlerFunc :=
  page_handler (swaggerHTML (SpecURL cfg) (Title cfg) (SwaggerPath cfg +:+ "/static")).
Definition redocPageHandler (cfg : Config) : HandlerFunc :=
  page_handler (redocHTML (SpecURL cfg) (Title cfg) (ReDocPath cfg +:+ "/static")).
Definition SwaggerHandler (specURL title staticBase : string) : Handler :=
  page_http (swaggerHTML specURL title staticBase).
Definition ReDocHandler (specURL title staticBase : string) : Handler :=
  page_http (redocHTML specURL title staticBase).

Section mounting.
(** [http.FileServer] over an embedded directory, and the mux. *)
Context (mux_rejects : gset string → string → bool) (label : Middleware.Middleware → string)
  (file_server : string → Handler).

Definition mount_viewer (path assets : string) (page : HandlerFunc) : RegM unit :=
  if String.eqb path SkipMount then go_ret tt
  else
    addRoute mux_rejects label "GET" path (HHandlerFunc page false) [] ;;;
    Routing.Mount mux_rejects (path +:+ "/static/") (file_server assets).

(** [Mount(app, cfg)]: [ErrNilApp] for a nil application. *)
Definition Mount (app : option App) (cfg : Config) : outcome (option Errors.error) * option App :=
  match app with
  | None => (Ret (Some (Errors.ErrorText "openapi-ui: app is nil")), None)
  | Some a =>
      let cfg := applyDefaults cfg in
      let '(o, a') :=
        (mount_viewer (SwaggerPath cfg) "assets/swagger-ui" (swaggerPageHandler cfg) ;;;
         mount_viewer (ReDocPath cfg) "assets/redoc" (redocPageHandler cfg) ;;;
         go_ret None) a in
      (o, Some a')
  end.
End mounting.

(** * swagger-initializer.js *)

Section initializer.
(** The viewer bundle: a constructor and its presets; both may be missing from the
    page, or the presets from the bundle. *)
Context {UI Preset : Type}.

Record UIOptions : Type := {
  ui_url : string;
  ui_dom_id : string;
  ui_deepLinking : bool;
  ui_presets : option (list (option Preset));
}.
Record Bundle : Type := {
  bundle_call : UIOptions → UI;
  bundle_presets : option (option Preset);
}.

(** The window: the listeners of its load event and the global [ui]. *)
Record window : Type := {
  on_load : list (option Bundle → option UI → option UI);
  ui : option UI;
}.

(** [(script && script.getAttribute('data-spec-url')) || '/openapi.json']: a missing
    script, a missing attribute and an empty one are all falsy. *)
Definition specURL (currentScript : option (gmap string string)) : string :=
  match currentScript with
  | Some attributes => or_default "/openapi.json" (default "" (attributes !! "data-spec-url"))
  | None => "/openapi.json"
  end.

Definition start_ui (url : string) (SwaggerUIBundle : option Bundle) (current : option UI)
    : option UI :=
  match SwaggerUIBundle with
  | None => current
  | Some bundle => Some (bundle_call bundle {|
      ui_url := url; ui_dom_id := "#swagger-ui"; ui_deepLinking := true;
      ui_presets := (λ apis, [apis]) <$> bundle_presets bundle |})
  end.

(** The script, and the load event. *)
Definition initializer (currentScript : option (gmap string string)) (win : window) : window :=
  {| on_load := on_load win ++ [start_ui (specURL currentScript)]; ui := ui win |}.
Definition fire_load (SwaggerUIBundle : option Bundle) (win : window) : window :=
  {| on_load := on_load win;
     ui := foldl (λ u listener, listener SwaggerUIBundle u) (ui win) (on_load win) |}.
End initializer.

(** * Escaping *)

(** How a browser reads text back: the same references, the other way. *)
Definition html_unescape (s : string) : string := Replace (map (λ p, (p.2, p.1)) html_pairs) s.

Definition escape_byte (a : ascii) : string :=
  default (String a "") (snd <$> replace_here html_pairs (String a "")).

Lemma replace_skip pairs u s : replace_from pairs (String.length u) (u +:+ s) = Replace pairs s.
Proof. by induction u. Qed.

Lemma replace_here_old pairs old new s :
  old ≠ "" → replace_here pairs (old +:+ s) = Some (old, new) →
  Replace pairs (old +:+ s) = new +:+ Replace pairs s.
Proof.
  destruct old as [|a old]; [done|]. intros _ Hh. unfold Replace at 1.
  rewrite string_app_cons in *. cbn [replace_from]. rewrite Hh, string_length_cons.
  replace (S (String.length old) - 1) with (String.length old) by lia. by rewrite replace_skip.
Qed.

Lemma replace_here_none pairs a s :
  replace_here pairs (String a s) = None → Replace pairs (String a s) = String a (Replace pairs s).
Proof. unfold Replace. cbn [replace_from]. by intros ->. Qed.

Definition special (a : ascii) : Prop := a ∈ ["&"; "<"; ">"; dquote; "'"]%char.

Lemma htmlEscape_plain a s : ¬ special a → htmlEscape (String a s) = String a (htmlEscape s).
Proof.
  intros Hn. apply replace_here_none. unfold replace_here, html_pairs, has_prefix.
  unfold special in Hn. rewrite !not_elem_of_cons in Hn. destruct Hn as (? & ? & ? & ? & ? & _).
  cbn [find_first fst String.prefix].
  repeat (destruct (ascii_dec _ a); [congruence|]). done.
Qed.

Lemma htmlEscape_both s :
  (∀ c, c ∈ ["<"; ">"; dquote; "'"]%char → contains_byte c (htmlEscape s) = false) ∧
  html_unescape (htmlEscape s) = s.
Proof.
  induction s as [|a s [IHc IHr]]; [done|].
  assert ((∃ e, htmlEscape (String a s) = e +:+ htmlEscape s ∧
      (∀ c, c ∈ ["<"; ">"; dquote; "'"]%char → contains_byte c e = false) ∧
      ∀ t, html_unescape (e +:+ t) = String a (html_unescape t))) as (e & -> & Hc & Hr).
  { destruct (decide (special a)) as [Hs|Hn].
    - unfold special in Hs. rewrite !elem_of_cons in Hs.
      destruct Hs as [-> | [-> | [-> | [-> | [-> | []%elem_of_nil]]]]];
        [exists "&amp;" | exists "&lt;" | exists "&gt;" | exists "&quot;" | exists "&#39;"];
        (split; [by destruct s|split; [|by intros []]]);
        intros c; rewrite !elem_of_cons; intros [-> | [-> | [-> | [-> | []%elem_of_nil]]]]; reflexivity.
    - exists (String a ""). split; [by rewrite htmlEscape_plain|]. split.
      + intros c Hc. rewrite contains_byte_cons. apply orb_false_iff. split; [|done].
        apply Ascii.eqb_neq. intros ->. apply Hn. unfold special. apply elem_of_cons. by right.
      + intros t. apply replace_here_none. unfold replace_here, html_pairs, has_prefix.
        assert (a ≠ "&"%char) by (intros ->; apply Hn; left).
        cbn [map find_first fst snd String.prefix].
        repeat (destruct (ascii_dec _ a); [congruence|]). done. }
  split.
  - intros c Hin. rewrite contains_byte_app, Hc, IHc by done. done.
  - by rewrite Hr, IHr.
Qed.

Definition htmlEscape_clean s := proj1 (htmlEscape_both s).
Definition unescape_escape s := proj2 (htmlEscape_both s).

(** * The page a browser reads *)

(** The value of the first attribute of that name with a double-quoted value: what
    stands between the quotes, with its references read back. *)
Fixpoint attribute_from (name : string) (chunks : list string) : option string :=
  match chunks with
  | c :: (v :: _) as rest =>
      if has_suffix c (name +:+ "=") then Some v else attribute_from name rest
  | _ => None
  end.
Definition read_attribute (name page : string) : option string :=
  html_unescape <$> attribute_from name (split_byte dquote page).

Lemma drop_bytes_app_le n u s :
  String.length u ≤ n → drop_bytes n (u +:+ s) = drop_bytes (n - String.length u) s.
Proof.
  revert n. induction u as [|a u IH]; intros n Hn; [by rewrite Nat.sub_0_r|].
  rewrite string_length_cons in *. destruct n as [|n]; [lia|]. rewrite string_app_cons. cbn.
  apply IH. lia.
Qed.

(** A long enough literal end decides a suffix test. *)
Lemma has_suffix_end u lit p :
  (String.length p <=? String.length lit)%nat = true → has_suffix (u +:+ lit) p = has_suffix lit p.
Proof.
  intros Hl. unfold has_suffix. rewrite Hl. apply Nat.leb_le in Hl.
  rewrite string_length_app, drop_bytes_app_le by lia.
  replace (_ <=? _)%nat with true by (symmetry; apply Nat.leb_le; lia). f_equal.
  do 2 f_equal. lia.
Qed.

(** The Swagger page, with its three values in place. *)
Definition swagger_page (s t b : string) : string :=
  dq "<!DOCTYPE html>
<html lang='en'>
<head>
  <meta charset='UTF-8'>
  <title>" +:+
  t +:+
  dq "</title>
  <link rel='stylesheet' type='text/css' href='" +:+
  b +:+
  dq "/swagger-ui.css'>
</head>
<body>
  <div id='swagger-ui'></div>
  <script src='" +:+
  b +:+
  dq "/swagger-ui-bundle.js' charset='UTF-8'></script>
  <script src='" +:+
  b +:+
  dq "/swagger-initializer.js' data-spec-url='" +:+
  s +:+
  dq "' charset='UTF-8'></script>
</body>
</html>
".

Lemma swaggerHTML_page specURL title staticBase :
  swaggerHTML specURL title staticBase =
    swagger_page (htmlEscape specURL) (htmlEscape title) (htmlEscape staticBase).
Proof.
  unfold swaggerHTML, page_pairs. generalize (htmlEscape specURL), (htmlEscape title), (htmlEscape staticBase).
  intros s t b. reflexivity.
Qed.

(** Splitting a concatenation. *)
Fixpoint glue (l1 l2 : list string) : list string :=
  match l1 with
  | [] => l2
  | [x] => match l2 with [] => [x] | y :: l => (x +:+ y) :: l end
  | x :: l1' => x :: glue l1' l2
  end.

Lemma split_byte_glue c u s : split_byte c (u +:+ s) = glue (split_byte c u) (split_byte c s).
Proof.
  pose proof (split_byte_nonempty c s) as Hs.
  induction u as [|a u IH]; [rewrite string_app_nil_l; by destruct (split_byte c s)|].
  rewrite string_app_cons. cbn [split_byte]. rewrite IH.
  pose proof (split_byte_nonempty c u) as Hu.
  destruct (Ascii.eqb a c); [by destruct (split_byte c u)|].
  by destruct (split_byte c u) as [|x [|y l]], (split_byte c s) as [|z l'].
Qed.

Lemma split_byte_clean c s : contains_byte c s = false → split_byte c s = [s].
Proof. intros Hs. rewrite split_byte_cut. by apply cut_byte_None in Hs as ->. Qed.

Lemma swagger_attribute s t b :
  contains_byte dquote s = false → contains_byte dquote t = false → contains_byte dquote b = false →
  attribute_from "data-spec-url" (split_byte dquote (swagger_page s t b)) = Some s.
Proof.
  intros Hs%split_byte_clean Ht%split_byte_clean Hb%split_byte_clean.
  unfold swagger_page. rewrite !split_byte_glue, Hs, Ht, Hb.
  repeat match goal with |- context [split_byte dquote (dq ?l)] =>
    let x := eval vm_compute in (split_byte dquote (dq l)) in
    change (split_byte dquote (dq l)) with x end.
  cbn [glue]. rewrite !string_app_nil_l, string_app_nil_r, <-(string_app_assoc _ t).
  cbn [attribute_from].
  rewrite !has_suffix_end by reflexivity. reflexivity.
Qed.

Lemma or_default_twice d s : d ≠ "" → or_default d (or_default d s) = or_default d s.
Proof.
  intros Hd. unfold or_default at 2 3. destruct (String.eqb_spec s "") as [->|Hs].
  - unfold or_default. by apply String.eqb_neq in Hd as ->.
  - unfold or_default. by apply String.eqb_neq in Hs as ->.
Qed.

(** [C40] The Swagger page loads the configured specification, whatever title, path and
    URL are configured: the script finds the URL in the page as it was configured
    (the default for an empty one), keeps it until the page is loaded, and starts
    the viewer with it; without the viewer's bundle nothing starts. *)
Theorem swagger_page_loads_spec {UI Preset} cfg (bundle : Bundle (UI := UI) (Preset := Preset))
    (win : window (UI := UI) (Preset := Preset)) :
  let cfg' := applyDefaults cfg in
  ∃ v, read_attribute "data-spec-url"
      (swaggerHTML (SpecURL cfg') (Title cfg') (SwaggerPath cfg' +:+ "/static")) = Some v ∧
    v = (if String.eqb (SpecURL cfg) "" then "/openapi.json" else SpecURL cfg) ∧
    let win' := initializer (Some {[ "data-spec-url" := v ]}) win in
    ui win' = ui win ∧
    ui (fire_load (Some bundle) win') = Some (bundle_call bundle {|
      ui_url := v; ui_dom_id := "#swagger-ui"; ui_deepLinking := true;
      ui_presets := (λ apis, [apis]) <$> bundle_presets bundle |}) ∧
    ui (fire_load None win') = ui (fire_load None win).
Proof.
  cbn zeta. exists (SpecURL (applyDefaults cfg)). split_and!; [|done|done| |].
  - unfold read_attribute. rewrite swaggerHTML_page, swagger_attribute
      by (apply htmlEscape_clean; set_solver).
    cbn [fmap option_fmap option_map]. f_equal. apply unescape_escape.
  - unfold fire_load, initializer. cbn [on_load ui]. rewrite foldl_app. cbn [foldl start_ui].
    unfold specURL. rewrite lookup_singleton_eq. cbn [default].
    unfold id. change (SpecURL (applyDefaults cfg)) with (or_default "/openapi.json" (SpecURL cfg)).
    by rewrite or_default_twice.
  - unfold fire_load, initializer. cbn [on_load ui]. by rewrite foldl_app.
Qed.

(** * Mounting *)

Section mounted.
Context (mux_rejects : gset string → string → bool) (label : Middleware.Middleware → string)
  (file_server : string → Handler).

Definition viewer_routes (path : string) : list (string * string) :=
  if String.eqb path SkipMount then [] else [("GET", path)].
Definition route_keys (a : App) : list (string * string) :=
  map (λ ri, (ri_Method ri, ri_Pattern ri)) (routes a).

Lemma mount_viewer_routes path assets page a a' :
  mount_viewer mux_rejects label file_server path assets page a = (Ret tt, a') →
  route_keys a' = route_keys a ++ viewer_routes path ∧
  (path ≠ SkipMount → is_Some (mux a' !! (path +:+ "/static/"))) ∧
  (∀ k, is_Some (mux a !! k) → is_Some (mux a' !! k)).
Proof.
  unfold mount_viewer, viewer_routes. destruct (String.eqb_spec path SkipMount) as [->|Hne].
  { intros [= <-]. by rewrite app_nil_r. }
  rewrite go_bind_eq.
  destruct (addRoute _ _ _ _ _ _ a) as [[[]|msg] a1] eqn:Hadd; [|done].
  apply addRoute_registers in Hadd as [Hreg _].
  destruct (rg_routes _ _ _ _ Hreg) as (ri & Hri & Hm & Hp).
  destruct (rg_mux _ _ _ _ Hreg) as [h Hmux].
  unfold Routing.Mount, mux_Handle.
  assert (has_suffix (path +:+ "/static/") "/" = true) as ->
    by (rewrite has_suffix_end by done; done).
  rewrite andb_false_r. destruct (mux_rejects _ _); [done|].
  intros Ha. apply (f_equal snd) in Ha. cbn [snd] in Ha. rewrite <-Ha.
  unfold route_keys. cbn [routes mux set_mux]. rewrite Hri, map_app. cbn [map].
  rewrite Hm, Hp, Hmux. split_and!; [done| |].
  - intros _. rewrite lookup_insert_eq. eauto.
  - intros k Hk. by rewrite !lookup_insert_is_Some'; auto.
Qed.

(** Mounting the viewers reports no error on an application, and registers, after
    the routes already there, the page of each viewer that is not skipped under its
    path (the default for an empty one), with the viewer's files below it. A nil
    application is an error. *)
Theorem Mount_registers cfg a a' err :
  Mount mux_rejects label file_server None cfg =
    (Ret (Some (Errors.ErrorText "openapi-ui: app is nil")), None) ∧
  (Mount mux_rejects label file_server (Some a) cfg = (Ret err, Some a') →
   let swagger := or_default "/docs" (SwaggerPath cfg) in
   let redoc := or_default "/redoc" (ReDocPath cfg) in
   err = None ∧
   route_keys a' = route_keys a ++ viewer_routes swagger ++ viewer_routes redoc ∧
   (swagger ≠ "-" → is_Some (mux a' !! (swagger +:+ "/static/"))) ∧
   (redoc ≠ "-" → is_Some (mux a' !! (redoc +:+ "/static/")))).
Proof.
  split; [done|]. unfold Mount. rewrite go_bind_eq.
  destruct (mount_viewer _ _ _ _ _ _ a) as [[[]|msg] a1] eqn:H1; [|by intros [=]].
  rewrite go_bind_eq.
  destruct (mount_viewer _ _ _ _ _ _ a1) as [[[]|msg] a2] eqn:H2; [|by intros [=]].
  intros [= <- <-].
  apply mount_viewer_routes in H1 as (Hr1 & Hs1 & _), H2 as (Hr2 & Hs2 & Hk).
  split_and!; [done| | |exact Hs2].
  - by rewrite Hr2, Hr1, <-app_assoc.
  - intros Hne. by apply Hk, Hs1.
Qed.
End mounted.

Lemma Mount_registers_witness :
  let '(o, a') := Mount accept_all no_label (λ _, Dispatch.default_404) (Some demo_new)
    (MkConfig "" "" "/api/docs" "-") in
  o = Ret None ∧ route_keys <$> a' = Some [("GET", "/api/docs")].
Proof.
  destruct (Mount _ _ _ _ _) as [o [a'|]] eqn:Hm; [|done].
  assert (o = Ret None) as -> by (apply (f_equal fst) in Hm; by vm_compute in Hm).
  destruct (Mount_registers accept_all no_label (λ _, Dispatch.default_404)
    (MkConfig "" "" "/api/docs" "-") demo_new a' None) as [_ H].
  destruct (H Hm) as (_ & Hk & _). split; [done|]. cbn [fmap option_fmap option_map]. by rewrite Hk.
Defined.
