(* ===== verification/Float64.v ===== *)
(** Go's [float64] and the numbers of JavaScript: IEEE 754 binary64 computed on integers (the Standard Library's
    specification of floating-point arithmetic at precision 53), with the
    conversions the modelled code uses, and the exactness of small integers. *)
From S2P Require Import Prelude.
From Stdlib Require Import SpecFloat.
Local Open Scope Z_scope.

(** * Operations *)

Definition float64 : Type := spec_float.
Definition f64_zero : float64 := S754_zero false.

(** [float64(z)], rounded to nearest even. *)
Definition f64_of_int (z : Z) : float64 := binary_normalize 53 1024 z 0 false.
Definition f64_add : float64 → float64 → float64 := SFadd 53 1024.
Definition f64_sub : float64 → float64 → float64 := SFsub 53 1024.
Definition f64_mul : float64 → float64 → float64 := SFmul 53 1024.
Definition f64_div : float64 → float64 → float64 := SFdiv 53 1024.
Definition f64_lt : float64 → float64 → bool := SFltb.
Definition f64_le : float64 → float64 → bool := SFleb.

(** The integer part of a finite number. *)
Definition f64_trunc (x : float64) : option Z :=
  match x with
  | S754_zero _ => Some 0
  | S754_finite s m e =>
      let z := if 0 <=? e then Zpos m * 2 ^ e else Zpos m / 2 ^ (- e) in
      Some (if s then - z else z)
  | S754_infinity _ | S754_nan => None
  end.

(** [int64(x)] and [int(x)]: the language leaves the result open when the integer
    part does not fit; amd64 and the runtime give the smallest integer. *)
Definition f64_to_int64 (x : float64) : Z :=
  match f64_trunc x with
  | Some z => if (min_int64 <=? z) && (z <=? max_int64) then z else min_int64
  | None => min_int64
  end.

(** * Exact integers *)

(** The canonical form of [k * 2 ^ e] for a [k] below [2 ^ 53]. *)
Definition f64_norm (k e : Z) : float64 :=
  S754_finite false (Z.to_pos (k * 2 ^ (52 - Z.log2 k))) (e - (52 - Z.log2 k)).

Lemma digits2_log2 p : Zpos (digits2_pos p) = Z.log2 (Zpos p) + 1.
Proof.
  induction p as [p IH|p IH|]; cbn [digits2_pos]; rewrite ?Pos2Z.inj_succ, ?IH; [| |done].
  - change (Zpos p~1) with (2 * Zpos p + 1). rewrite Z.log2_succ_double by lia. lia.
  - change (Zpos p~0) with (2 * Zpos p). rewrite Z.log2_double by lia. lia.
Qed.

Lemma iter_pos_nat {A} (f : A → A) n x : iter_pos f n x = Nat.iter (Pos.to_nat n) f x.
Proof.
  revert x. induction n as [n IH|n IH|]; intros x; cbn [iter_pos]; [| |done].
  - rewrite !IH, <-Nat.iter_add, <-Nat.iter_succ_r. f_equal. lia.
  - rewrite !IH, <-Nat.iter_add. f_equal. lia.
Qed.

(** Shifting out zero bits is exact. *)
Lemma shr_exact m n e :
  0 < m → 0 ≤ n → shr (Build_shr_record (m * 2 ^ n) false false) e n = (Build_shr_record m false false, e + n).
Proof.
  intros Hm Hn. unfold shr. destruct n as [|p|p]; [|f_equal|lia].
  - by rewrite Z.mul_1_r, Z.add_0_r.
  - rewrite iter_pos_nat, <-(positive_nat_Z p). generalize (Pos.to_nat p). clear Hn p.
    intros n. revert m Hm. induction n as [|n IH]; intros m Hm; [by rewrite Z.mul_1_r|].
    rewrite Nat.iter_succ, Nat2Z.inj_succ, Z.pow_succ_r by lia.
    replace (m * (2 * 2 ^ Z.of_nat n)) with (2 * m * 2 ^ Z.of_nat n) by lia.
    rewrite IH by lia. by destruct m.
Qed.

Lemma shl_iter m d : Zpos (Pos.iter xO m d) = Zpos m * 2 ^ Zpos d.
Proof.
  induction d as [|d IH] using Pos.peano_ind; [cbn; lia|].
  rewrite Pos.iter_succ, Pos2Z.inj_succ, Z.pow_succ_r by lia.
  change (Zpos (Pos.iter xO m d)~0) with (2 * Zpos (Pos.iter xO m d)). lia.
Qed.

Section round.
Context (k j e : Z) (Hk : 0 < k < 2 ^ 53) (Hj : 0 ≤ j) (He : -1000 ≤ e + j ≤ 900).
Let l := Z.log2 k.

Lemma log2_small : 0 ≤ l ≤ 52.
Proof.
  unfold l. split; [apply Z.log2_nonneg|]. pose proof (proj1 (Z.log2_lt_pow2 k 53 ltac:(lia))). lia.
Qed.

Lemma fexp_normal n : -1021 ≤ n ≤ 1024 → fexp 53 1024 n = n - 53.
Proof. unfold fexp, emin. lia. Qed.

Lemma shr_fexp_digits m n x :
  0 < m → 0 ≤ n → -1021 ≤ Z.log2 m + n + 1 + x ≤ 1024 → Z.log2 m = 52 →
  shr_fexp 53 1024 (m * 2 ^ n) x loc_Exact = (Build_shr_record m false false, x + n).
Proof.
  intros Hm Hn Hx Hl. unfold shr_fexp, shr_record_of_loc.
  assert (0 < m * 2 ^ n) as Hpos by (apply Z.mul_pos_pos; lia).
  replace (Zdigits2 (m * 2 ^ n)) with (52 + n + 1).
  - rewrite fexp_normal by lia. replace (52 + n + 1 + x - 53 - x) with n by lia. by apply shr_exact.
  - assert (Z.log2 (m * 2 ^ n) = 52 + n) as Hlog by (rewrite Z.log2_mul_pow2; lia).
    destruct (m * 2 ^ n) as [|q|q]; [lia| |lia]. cbn [Zdigits2]. rewrite digits2_log2. lia.
Qed.

Lemma shr_fexp_normal m x :
  Z.log2 m = 52 → 0 < m → -1074 ≤ x ≤ 971 →
  shr_fexp 53 1024 m x loc_Exact = (Build_shr_record m false false, x).
Proof.
  intros Hl Hm Hx. rewrite <-(Z.add_0_r x) at 2. rewrite <-(Z.mul_1_r m) at 1.
  apply (shr_fexp_digits m 0); lia.
Qed.

(** A mantissa of 53 leading bits is already rounded. *)
Lemma round_aux_normal m n x :
  Z.log2 m = 52 → 0 < m → 0 ≤ n → -1074 ≤ x + n ≤ 971 →
  binary_round_aux 53 1024 false (m * 2 ^ n) x loc_Exact = S754_finite false (Z.to_pos m) (x + n).
Proof.
  intros Hl Hm Hn Hx. unfold binary_round_aux. rewrite shr_fexp_digits by lia.
  cbn [shr_m loc_of_shr_record round_nearest_even]. rewrite shr_fexp_normal by lia. cbn [shr_m].
  destruct m as [|q|q]; [lia| |lia]. by destruct (Z.leb_spec (x + n) (1024 - 53)); [|lia].
Qed.

(** Any mantissa whose bits below the 53 leading ones are zero rounds exactly. *)
Lemma round_exact :
  binary_round 53 1024 false (Z.to_pos (k * 2 ^ j)) e = f64_norm k (e + j).
Proof.
  pose proof log2_small as Hl.
  assert (0 < k * 2 ^ j) as Hpos by (apply Z.mul_pos_pos; lia).
  assert (Z.log2 (k * 2 ^ j) = l + j) as Hlog by (rewrite Z.log2_mul_pow2 by lia; lia).
  unfold binary_round. rewrite digits2_log2, Z2Pos.id, Hlog, fexp_normal by lia.
  unfold f64_norm. fold l.
  assert (Z.log2 (k * 2 ^ (52 - l)) = 52) as Hlog2 by (rewrite Z.log2_mul_pow2 by lia; lia).
  assert (0 < k * 2 ^ (52 - l)) as Hpos2 by (apply Z.mul_pos_pos; lia).
  unfold shl_align. replace (l + j + 1 + e - 53 - e) with (l + j - 52) by lia.
  destruct (l + j - 52) as [|d|d] eqn:Hd.
  - rewrite Z2Pos.id by done. replace j with (52 - l) by lia.
    rewrite <-(Z.mul_1_r (k * _)) at 1. rewrite (round_aux_normal _ 0) by lia. f_equal; lia.
  - rewrite Z2Pos.id by done.
    replace (k * 2 ^ j) with (k * 2 ^ (52 - l) * 2 ^ Zpos d)
      by (rewrite <-Z.mul_assoc, <-Z.pow_add_r by lia; do 2 f_equal; lia).
    rewrite round_aux_normal by lia. f_equal; lia.
  - rewrite shl_iter, Z2Pos.id by done.
    replace (k * 2 ^ j * 2 ^ Zpos d) with (k * 2 ^ (52 - l) * 2 ^ 0)
      by (rewrite <-!Z.mul_assoc, <-!Z.pow_add_r by lia; do 2 f_equal; lia).
    rewrite round_aux_normal by lia. f_equal; lia.
Qed.
End round.

(** ** Integers below [2 ^ 53] *)

Definition small (z : Z) : Prop := 0 < z < 2 ^ 53.

Lemma small_log2 z : small z → 0 ≤ Z.log2 z ≤ 52.
Proof. apply log2_small. Qed.

Lemma f64_of_small z : small z → f64_of_int z = f64_norm z 0.
Proof.
  intros Hz. unfold f64_of_int.
  pose proof (round_exact z 0 0 Hz ltac:(lia) ltac:(lia)) as Hr. rewrite Z.mul_1_r in Hr.
  unfold small in Hz. destruct z as [|p|p]; [lia| |lia]. exact Hr.
Qed.

Lemma f64_norm_mantissa z :
  small z → Zpos (Z.to_pos (z * 2 ^ (52 - Z.log2 z))) = z * 2 ^ (52 - Z.log2 z).
Proof.
  intros Hz. pose proof (small_log2 z Hz). apply Z2Pos.id. unfold small in Hz. apply Z.mul_pos_pos; lia.
Qed.

Lemma f64_trunc_small z : 0 ≤ z < 2 ^ 53 → f64_trunc (f64_of_int z) = Some z.
Proof.
  intros Hz. destruct (decide (z = 0)) as [->|Hne]; [done|].
  assert (small z) as Hs by (unfold small; lia). pose proof (small_log2 z Hs) as Hl.
  rewrite f64_of_small by done. unfold f64_norm, f64_trunc. rewrite f64_norm_mantissa by done. f_equal.
  destruct (Z.leb_spec 0 (0 - (52 - Z.log2 z))).
  - replace (52 - Z.log2 z) with 0 by lia. cbn. lia.
  - replace (- (0 - (52 - Z.log2 z))) with (52 - Z.log2 z) by lia. apply Z.div_mul. lia.
Qed.

(** Subtracting one is exact. *)
Lemma f64_sub_one z :
  0 < z < 2 ^ 53 → f64_sub (f64_of_int z) (f64_of_int 1) = f64_of_int (z - 1).
Proof.
  intros Hz. destruct (decide (z = 1)) as [->|Hne]; [reflexivity|].
  assert (small (z - 1)) as Hs1 by (unfold small; lia). pose proof (small_log2 z Hz) as Hl.
  rewrite (f64_of_small z), (f64_of_small (z - 1)) by done.
  change (f64_of_int 1) with (S754_finite false (2 ^ 52) (-52)).
  unfold f64_norm at 1, f64_sub, SFsub.
  replace (Z.min (0 - (52 - Z.log2 z)) (-52)) with (-52) by lia.
  pose proof (round_exact (z - 1) 52 (-52) Hs1 ltac:(lia) ltac:(lia)) as Hr.
  change (-52 + 52) with 0 in Hr. rewrite <-Hr. clear Hr.
  change (fst (shl_align (2 ^ 52) (-52) (-52))) with (2 ^ 52)%positive.
  cbn [cond_Zopp].
  assert (Zpos (fst (shl_align (Z.to_pos (z * 2 ^ (52 - Z.log2 z))) (0 - (52 - Z.log2 z)) (-52))) =
    z * 2 ^ 52) as ->.
  { unfold shl_align. replace (-52 - (0 - (52 - Z.log2 z))) with (- Z.log2 z) by lia.
    pose proof (f64_norm_mantissa z Hz) as Hm.
    destruct (Z.log2 z) as [|d|d]; [|change (- Zpos d) with (Zneg d)|lia]; cbn [Z.opp fst].
    - exact Hm.
    - rewrite shl_iter, Hm, <-Z.mul_assoc, <-Z.pow_add_r by lia. do 2 f_equal. lia. }
  unfold binary_normalize.
  change (Z.pos (2 ^ 52)) with (2 ^ 52). replace (z * 2 ^ 52 - 2 ^ 52) with ((z - 1) * 2 ^ 52) by lia.
  assert (0 < (z - 1) * 2 ^ 52) as Hp by lia.
  destruct ((z - 1) * 2 ^ 52) as [|q|q]; [lia|done|lia].
Qed.

Lemma f64_le_one z : 0 ≤ z < 2 ^ 53 → f64_le (f64_of_int 1) (f64_of_int z) = (1 <=? z).
Proof.
  intros Hz. destruct (decide (z = 0)) as [->|Hne]; [done|].
  destruct (decide (z = 1)) as [->|Hne1]; [done|].
  assert (small z) as Hs by (unfold small; lia).
  replace (1 <=? z) with true by (symmetry; apply Z.leb_le; lia).
  assert (1 ≤ Z.log2 z) by (apply Z.log2_le_pow2; lia).
  rewrite (f64_of_small z) by done. change (f64_of_int 1) with (S754_finite false (2 ^ 52) (-52)).
  unfold f64_norm, f64_le, SFleb, SFcompare.
  assert (((-52) ?= 0 - (52 - Z.log2 z)) = Lt) as -> by (apply Z.compare_lt_iff; lia). done.
Qed.

(** No number is below itself. *)
Lemma f64_lt_irrefl x : f64_lt x x = false.
Proof.
  unfold f64_lt, SFltb, SFcompare. destruct x as [| | |s m e]; try done.
  - by destruct s.
  - rewrite Z.compare_refl. change (PosDef.Pos.compare_cont Eq m m) with (Pos.compare m m).
    rewrite Pos.compare_refl. by destruct s.
Qed.
