(* ===== verification/RateLimit.v ===== *)
(** Rate limiting (plugins/ratelimit): the sliding-window and token-bucket
    algorithms, the sharded store with its lazy sweep, and the middleware. *)
From S2P Require Import Prelude GoStrings Http Response.
From S2P Require Import Errors RequestContext App Float64.
From stdpp Require Import sorting.
From Stdlib Require Import Sorting.Sorted.
Open Scope go_scope.

(** * Time

    An instant is its nanoseconds since 1970, a duration an [int64]. *)
Definition Second : Z := 1000000000.
Definition Minute : Z := 60 * Second.

(** [t.Sub(u)] saturates; [d.Seconds()] adds the whole and the fractional part. *)
Definition time_Sub (t u : Z) : Z := Z.max min_int64 (Z.min max_int64 (t - u)).
Definition Seconds (d : Z) : float64 :=
  f64_add (f64_of_int (Z.quot d Second)) (f64_div (f64_of_int (Z.rem d Second)) (f64_of_int 1000000000)).
Definition UnixNano (t : Z) : Z := wrap64 t.

(** * Entries *)

Definition slidingBuckets : nat := 10.

Record entry : Type := MkEntry {
  lastAccess : Z;
  tokens : float64;
  last : option Z;
  lastAbsSub : Z;
  buckets : list Z;
}.
(** [&entry{}]; the zero [time.Time] of [last] is [None]. *)
Definition new_entry : entry := MkEntry (-62135596800 * Second) f64_zero None 0 (replicate slidingBuckets 0%Z).

Definition set_lastAccess (t : Z) (e : entry) : entry :=
  MkEntry t (tokens e) (last e) (lastAbsSub e) (buckets e).

(** * The sliding window *)

Definition sub_window (window : Z) : Z :=
  let subWindow := Z.quot window (Z.of_nat slidingBuckets) in
  if (subWindow <=? 0)%Z then if (window <=? 0)%Z then 1%Z else window else subWindow.

(** [buckets[idx] = v], which panics out of range. *)
Definition set_bucket (idx v : Z) (bs : list Z) : option (list Z) :=
  if (0 <=? idx)%Z && (idx <? Z.of_nat slidingBuckets)%Z then Some (<[Z.to_nat idx := v]> bs) else None.

(** The loop over the slots that rolled out: [n] slots after [from]. *)
Fixpoint clear_slots (n : nat) (from : Z) (bs : list Z) : option (list Z) :=
  match n with
  | 0 => Some bs
  | S n' =>
      match set_bucket (Z.rem (from + 1) (Z.of_nat slidingBuckets)) 0 bs with
      | Some bs' => clear_slots n' (from + 1) bs'
      | None => None
      end
  end.

Definition roll (bs : list Z) (lastAbsSub nowAbsSub : Z) : option (list Z) :=
  let gap := wrap64 (nowAbsSub - lastAbsSub) in
  if (0 <? gap)%Z then
    if (Z.of_nat slidingBuckets <=? gap)%Z then Some (replicate slidingBuckets 0%Z)
    else clear_slots (Z.to_nat gap) lastAbsSub bs
  else Some bs.

Definition total_of (bs : list Z) : Z := foldl (λ total c, wrap64 (total + c)) 0%Z bs.

(** [slidingWindowDecide]: allow, remaining, reset and the entry; [None] for an
    index panic. *)
Definition slidingWindowDecide (e : entry) (now limit window : Z) : option (bool * Z * Z * entry) :=
  let subWindow := sub_window window in
  let nowAbsSub := Z.quot (UnixNano now) subWindow in
  let reset := wrap64 (wrap64 (nowAbsSub + 1) * subWindow) in
  match roll (buckets e) (lastAbsSub e) nowAbsSub with
  | None => None
  | Some bs =>
      let last' := if (0 <? wrap64 (nowAbsSub - lastAbsSub e))%Z then nowAbsSub else lastAbsSub e in
      let idx := Z.rem nowAbsSub (Z.of_nat slidingBuckets) in
      let total := total_of bs in
      let answer (allow : bool) (total : Z) (bs : list Z) :=
        (allow, Z.max 0 (wrap64 (limit - total)), reset,
         MkEntry (lastAccess e) (tokens e) (last e) last' bs) in
      if (total <? limit)%Z then
        match set_bucket idx (wrap64 (nth (Z.to_nat idx) bs 0%Z + 1)) bs with
        | None => None
        | Some bs' => Some (answer true (wrap64 (total + 1)) bs')
        end
      else Some (answer false total bs)
  end.

(** * The token bucket *)

(** The refill of an entry before the decision. *)
Definition refill (e : entry) (now : Z) (capacity rate : float64) : float64 * option Z :=
  match last e with
  | None => (capacity, Some now)
  | Some t =>
      let elapsed := Seconds (time_Sub now t) in
      if f64_lt f64_zero elapsed then
        let tokens := f64_add (tokens e) (f64_mul elapsed rate) in
        (if f64_lt capacity tokens then capacity else tokens, Some now)
      else (tokens e, Some t)
  end.

(** [tokenBucketDecide]. *)
Definition tokenBucketDecide (e : entry) (now limit burst window : Z) : bool * Z * Z * entry :=
  let capacity := f64_of_int burst in
  let rate := f64_div (f64_of_int limit) (Seconds window) in
  let '(tokens1, last1) := refill e now capacity rate in
  let allow := f64_le (f64_of_int 1) tokens1 in
  let tokens2 := if allow then f64_sub tokens1 (f64_of_int 1) else tokens1 in
  let reset :=
    if f64_lt f64_zero rate then
      let secsToFull := f64_div (f64_sub capacity tokens2) rate in
      (now + f64_to_int64 (f64_mul secsToFull (f64_of_int Second)))%Z
    else now in
  (allow, Z.max 0 (f64_to_int64 tokens2), reset,
   MkEntry (lastAccess e) tokens2 last1 (lastAbsSub e) (buckets e)).

(** * The store *)

Definition shardCount : nat := 64.

Record store : Type := MkStore {
  shards : list (gmap string entry);
  sweepCounter : Z;
  entryTTL : Z;
}.
Definition newStore (ttl : Z) : store := MkStore (replicate shardCount ∅) 0 ttl.

(** FNV-1a, 64 bits. *)
Definition fnv_offset : Z := 14695981039346656037.
Definition fnv_prime : Z := 1099511628211.
Fixpoint fnv_from (h : Z) (s : string) : Z :=
  match s with
  | EmptyString => h
  | String a s' => fnv_from (wrapu64 (Z.lxor h (code a) * fnv_prime)) s'
  end.
Definition fnvHash (s : string) : Z := fnv_from fnv_offset s.
Definition shardFor (key : string) : nat := Z.to_nat (fnvHash key mod Z.of_nat shardCount).

Definition shard_at (i : nat) (s : store) : gmap string entry := default ∅ (shards s !! i).
Definition set_shard (i : nat) (m : gmap string entry) (s : store) : store :=
  MkStore (<[i := m]> (shards s)) (sweepCounter s) (entryTTL s).
Definition lookup_entry (key : string) (s : store) : option entry := shard_at (shardFor key) s !! key.
Definition put_entry (key : string) (e : entry) (s : store) : store :=
  set_shard (shardFor key) (<[key := e]> (shard_at (shardFor key) s)) s.
Definition set_sweepCounter (c : Z) (s : store) : store := MkStore (shards s) c (entryTTL s).

(** The limiter's store, and how often it read the clock. *)
Record limiter : Type := MkLimiter {
  rl_store : store;
  rl_ticks : nat;
}.
Definition set_store (s : store) (l : limiter) : limiter := MkLimiter s (rl_ticks l).
Definition mod_store (f : store → store) : GoM limiter unit :=
  go_mod (λ l, set_store (f (rl_store l)) l).

Section clock.
(** The readings of [time.Now()], one after the other. *)
Context (clock : nat → Z).

Definition time_Now : GoM limiter Z := λ l, (Ret (clock (rl_ticks l)), MkLimiter (rl_store l) (S (rl_ticks l))).

(** [sweepShard]: the entries not used since the cutoff go. *)
Definition sweepShard (idx : nat) : GoM limiter unit :=
  let! ttl := go_get (λ l, entryTTL (rl_store l)) in
  if (ttl <=? 0)%Z then go_ret tt
  else
    let! now := time_Now in
    let cutoff := (now - ttl)%Z in
    mod_store (λ s, set_shard idx
      (filter (λ '(_, e), ¬ (lastAccess e < cutoff)%Z) (shard_at idx s)) s).

Fixpoint sweep_from (n idx : nat) : GoM limiter unit :=
  match n with
  | O => go_ret tt
  | S n' => sweepShard idx ;;; sweep_from n' (S idx)
  end.
Definition sweepAll : GoM limiter unit := sweep_from shardCount 0.

(** [store.size()]. *)
Definition size (s : store) : nat := foldl (λ n m, n + stdpp.base.size m) 0 (shards s).

(** [withEntry]: the entry, created when absent, under its lock; every 64th call
    sweeps a shard. *)
Definition withEntry {A} (key : string) (fn : entry → GoM limiter (A * entry)) : GoM limiter A :=
  let! found := go_get (λ l, lookup_entry key (rl_store l)) in
  let e := default new_entry found in
  mod_store (put_entry key e) ;;;
  let! res := fn e in
  let! now := time_Now in
  mod_store (put_entry key (set_lastAccess now res.2)) ;;;
  mod_store (λ s, set_sweepCounter (wrapu64 (sweepCounter s + 1)) s) ;;;
  let! c := go_get (λ l, sweepCounter (rl_store l)) in
  (if (c mod Z.of_nat shardCount =? 0)%Z
   then sweepShard (Z.to_nat (c / Z.of_nat shardCount mod Z.of_nat shardCount))
   else go_ret tt) ;;;
  go_ret res.1.

(** * The limiter *)

Inductive Algorithm : Type := TokenBucket | SlidingWindow.

Record Snapshot : Type := MkSnapshot {
  snap_Limit : Z;
  snap_Remaining : Z;
  snap_Reset : Z;
  snap_RetryAfter : Z;
}.

Record Config : Type := MkConfig {
  cfg_Algorithm : Algorithm;
  cfg_Limit : Z;
  cfg_Window : Z;
  cfg_Burst : Z;
  cfg_KeyFunc : option (World → string);
  cfg_SkipPaths : list string;
  cfg_Skipper : option (World → bool);
  cfg_StatusCode : Z;
  cfg_Message : string;
  cfg_Handler : option (Snapshot → HandlerFunc);
  cfg_EntryTTL : Z;
}.

Definition DefaultConfig : Config :=
  MkConfig TokenBucket 0 0 0 None [] None 429 "rate limit exceeded" None 0.

(** [newLimiter]: the configuration with its defaults, and the empty store. *)
Definition newLimiter (cfg : Config) : outcome (Config * limiter) :=
  if (cfg_Limit cfg <=? 0)%Z then Panic "ratelimit: Limit must be > 0"
  else if (cfg_Window cfg <=? 0)%Z then Panic "ratelimit: Window must be > 0"
  else
    let burst := if (cfg_Burst cfg <=? 0)%Z then cfg_Limit cfg else cfg_Burst cfg in
    let ttl := if (cfg_EntryTTL cfg <=? 0)%Z then wrap64 (2 * cfg_Window cfg) else cfg_EntryTTL cfg in
    let status := if (cfg_StatusCode cfg =? 0)%Z then 429%Z else cfg_StatusCode cfg in
    let message := if String.eqb (cfg_Message cfg) "" then "rate limit exceeded" else cfg_Message cfg in
    Ret (MkConfig (cfg_Algorithm cfg) (cfg_Limit cfg) (cfg_Window cfg) burst (cfg_KeyFunc cfg)
           (cfg_SkipPaths cfg) (cfg_Skipper cfg) status message (cfg_Handler cfg) ttl,
         MkLimiter (newStore ttl) 0).

(** The algorithm on an entry. *)
Definition decide_entry (cfg : Config) (now : Z) (e : entry) : option (bool * Z * Z * entry) :=
  match cfg_Algorithm cfg with
  | SlidingWindow => slidingWindowDecide e now (cfg_Limit cfg) (cfg_Window cfg)
  | TokenBucket => Some (tokenBucketDecide e now (cfg_Limit cfg) (cfg_Burst cfg) (cfg_Window cfg))
  end.

(** [decide]. *)
Definition limiter_decide (cfg : Config) (key : string) : GoM limiter (bool * Snapshot) :=
  let! now := time_Now in
  withEntry key (λ e,
    match decide_entry cfg now e with
    | None => go_panic "index out of range"
    | Some (ok, remaining, reset, e') =>
        let! retryAfter :=
          if ok : bool then go_ret 0%Z
          else let! t := time_Now in go_ret (Z.max Second (time_Sub reset t)) in
        go_ret (ok, MkSnapshot (cfg_Limit cfg) remaining reset retryAfter, e')
    end).

(** [setHeaders]. *)
Definition setHeaders (snap : Snapshot) (denied : bool) (h : header) : header :=
  let h := header_set "X-RateLimit-Limit" (itoa (snap_Limit snap)) h in
  let h := header_set "X-RateLimit-Remaining" (itoa (snap_Remaining snap)) h in
  let h := header_set "X-RateLimit-Reset" (itoa (snap_Reset snap / Second)) h in
  if denied then
    let secs := Z.quot (snap_RetryAfter snap) Second in
    header_set "Retry-After" (itoa (if (secs <? 1)%Z then 1 else secs)) h
  else h.

Section middleware.
(** [http.StatusText] and the encoding of the error body by encoding/json; the
    parts of [net] behind the client's address. *)
Context (status_text : Z → string) (json_encode : payload → string).
Context {IP Net : Type} (SplitHostPort : string → option string) (ParseIP : string → option IP)
  (Contains : Net → IP → bool) (proxies : ProxyTable Net).

Definition codeForStatus (status : Z) : string :=
  if (status =? 429)%Z then "too_many_requests"
  else if (status =? 503)%Z then "service_unavailable"
  else status_text status.

Definition errorBody (cfg : Config) (rid : string) : payload :=
  PError (codeForStatus (cfg_StatusCode cfg)) (cfg_Message cfg) "" rid.

Definition remoteAddrKey (addr : string) : string := default addr (SplitHostPort addr).

Definition real_ip (wd : World) : string :=
  RealIP (λ addr, default "" (SplitHostPort addr)) ParseIP Contains proxies (c_req (w_ctx wd)).
Definition keyFunc (cfg : Config) : World → string := default real_ip (cfg_KeyFunc cfg).

Definition shouldSkip (cfg : Config) (path : string) (hasCtx : bool) (wd : World) : bool :=
  bool_decide (path ∈ cfg_SkipPaths cfg) ||
  match cfg_Skipper cfg with Some skip => hasCtx && skip wd | None => false end.

Definition writeJSONError (w : wref) (status : Z) (body : payload) : GoM World unit :=
  go_mod (wr_mod_header (header_set "Content-Type" "application/json; charset=utf-8")) ;;;
  go_mod (wr_WriteHeader w status) ;;;
  go_mod (wr_Write w (json_encode body)).

(** The native form. *)
Definition native (cfg : Config) (next : GoM (World * limiter) (option error))
    : GoM (World * limiter) (option error) :=
  let! skip := on_fst (go_get (λ wd, shouldSkip cfg (r_Path (c_req (w_ctx wd))) true wd)) in
  if (skip : bool) then next
  else
    let! key := on_fst (go_get (keyFunc cfg)) in
    let! (allow, snap) := on_snd (limiter_decide cfg key) in
    on_fst (go_mod (wr_mod_header (setHeaders snap (negb allow)))) ;;;
    if (allow : bool) then next
    else on_fst
      match cfg_Handler cfg with
      | Some h => h snap
      | None =>
          let! rid := get_ctx RequestID in
          JSON (cfg_StatusCode cfg) (errorBody cfg rid)
      end.

(** The stdlib form. *)
Definition stdlib (cfg : Config) (next : wref → request → GoM (World * limiter) unit)
    (w : wref) (r : request) : GoM (World * limiter) unit :=
  let! hasCtx := on_fst (contextFromRequest r) in
  let! skip := on_fst (go_get (shouldSkip cfg (r_Path r) hasCtx)) in
  if (skip : bool) then next w r
  else
    let! key := on_fst (if (hasCtx : bool) then go_get (keyFunc cfg)
                        else go_ret (remoteAddrKey (r_RemoteAddr r))) in
    let! (allow, snap) := on_snd (limiter_decide cfg key) in
    on_fst (go_mod (wr_mod_header (setHeaders snap (negb allow)))) ;;;
    if (allow : bool) then next w r
    else on_fst (
      let refuse :=
        let! rid := if (hasCtx : bool) then get_ctx RequestID else go_ret "" in
        writeJSONError w (cfg_StatusCode cfg) (errorBody cfg rid) in
      match cfg_Handler cfg with
      | Some h =>
          if (hasCtx : bool) then
            let! err := h snap in
            match err with Some _ => refuse | None => go_ret tt end
          else refuse
      | None => refuse
      end).
End middleware.
End clock.

(** * The sliding window, exactly *)

(** How many elements satisfy a predicate. *)
Definition count {A} (P : A → bool) (l : list A) : Z := Z.of_nat (length (List.filter P l)).

Lemma count_cons {A} (P : A → bool) x l : count P (x :: l) = ((if P x then 1 else 0) + count P l)%Z.
Proof. unfold count. cbn [List.filter]. destruct (P x); cbn [length]; lia. Qed.
Lemma count_app {A} (P : A → bool) l1 l2 : count P (l1 ++ l2) = (count P l1 + count P l2)%Z.
Proof. unfold count. rewrite List.filter_app, length_app. lia. Qed.
Lemma count_nonneg {A} (P : A → bool) l : (0 ≤ count P l)%Z.
Proof. unfold count. lia. Qed.
Lemma count_le {A} (P Q : A → bool) l :
  Forall (λ x, P x = true → Q x = true) l → (count P l ≤ count Q l)%Z.
Proof.
  induction 1 as [|x l Hx _ IH]; [done|]. rewrite !count_cons.
  destruct (P x); [rewrite Hx by done|destruct (Q x)]; lia.
Qed.
Lemma count_ext {A} (P Q : A → bool) l : Forall (λ x, P x = Q x) l → count P l = count Q l.
Proof. induction 1 as [|x l Hx _ IH]; [done|]. by rewrite !count_cons, Hx, IH. Qed.

Fixpoint zsum (l : list Z) : Z := match l with [] => 0%Z | x :: l' => (x + zsum l')%Z end.

Lemma total_of_sum bs :
  Forall (λ c, 0 ≤ c)%Z bs → (zsum bs ≤ max_int64)%Z → total_of bs = zsum bs.
Proof.
  unfold total_of. intros Hbs Hmax.
  assert (∀ acc, 0 ≤ acc → acc + zsum bs ≤ max_int64 →
    foldl (λ total c, wrap64 (total + c)) acc bs = acc + zsum bs)%Z as Hgen.
  { clear Hmax. induction Hbs as [|c bs Hc Hbs IH]; cbn [zsum foldl]; intros acc Hacc Hle; [lia|].
    assert (0 ≤ zsum bs)%Z by (clear -Hbs; induction Hbs; cbn; lia).
    rewrite wrap64_small by (unfold in_int64, min_int64; lia). rewrite IH by lia. lia. }
  rewrite Hgen by lia. lia.
Qed.

(** The stamps [s] of the window that ends with sub-window [n], and those of them
    that fall into ring slot [i]. *)
Definition in_window (n s : Z) : bool := (n - 10 <? s)%Z && (s <=? n)%Z.
Definition in_slot (n : Z) (i : nat) (s : Z) : bool :=
  in_window n s && (Z.to_nat (s mod 10) =? i)%nat.

(** The ring of an entry whose last sample was in sub-window [n] counts the admitted
    stamps of the window, slot by slot. *)
Record ring_ok (log : list Z) (n : Z) (bs : list Z) : Prop := {
  ring_pos : (0 ≤ n)%Z;
  ring_past : Forall (λ s, 0 ≤ s ≤ n)%Z log;
  ring_slots : bs = map (λ i, count (in_slot n i) log) (seq 0 10);
}.

Lemma zsum_slots log n :
  Forall (λ s, 0 ≤ s)%Z log →
  zsum (map (λ i, count (in_slot n i) log) (seq 0 10)) = count (in_window n) log.
Proof.
  induction 1 as [|s log Hs _ IH]; [done|]. rewrite count_cons, <-IH.
  assert (zsum (map (λ i, count (in_slot n i) (s :: log)) (seq 0 10)) =
    zsum (map (λ i, if in_slot n i s then 1 else 0) (seq 0 10)) +
    zsum (map (λ i, count (in_slot n i) log) (seq 0 10)))%Z as ->.
  { generalize (seq 0 10). intros l. induction l as [|i l IHl]; [done|]. cbn [map zsum].
    rewrite IHl, count_cons. lia. }
  f_equal. unfold in_slot. destruct (in_window n s); [|done]. cbn [andb].
  assert (Z.to_nat (s mod 10) < 10) as Hm by (pose proof (Z.mod_pos_bound s 10); lia).
  revert Hm. generalize (Z.to_nat (s mod 10)). intros m Hm.
  do 10 (destruct m as [|m]; [reflexivity|]). lia.
Qed.

Lemma ring_total log n bs :
  ring_ok log n bs → (count (in_window n) log ≤ max_int64)%Z → total_of bs = count (in_window n) log.
Proof.
  intros [Hn Hpast ->] Hmax.
  assert (Forall (λ s, 0 ≤ s)%Z log) as Hpos by (eapply Forall_impl; [exact Hpast|cbn; lia]).
  rewrite total_of_sum, zsum_slots; [done|done| |by rewrite zsum_slots].
  apply Forall_map, Forall_forall. intros i _. apply count_nonneg.
Qed.

Lemma set_bucket_ring idx v (f : nat → Z) :
  (0 ≤ idx < 10)%Z →
  set_bucket idx v (map f (seq 0 10)) =
    Some (map (λ i, if (i =? Z.to_nat idx)%nat then v else f i) (seq 0 10)).
Proof.
  intros Hidx. unfold set_bucket, slidingBuckets.
  destruct (Z.leb_spec 0 idx); [|lia]. destruct (Z.ltb_spec idx (Z.of_nat 10)); [|lia]. cbn [andb].
  f_equal. assert (Z.to_nat idx < 10) as Hm by lia. revert Hm. generalize (Z.to_nat idx).
  intros m Hm. do 10 (destruct m as [|m]; [reflexivity|]). lia.
Qed.

Lemma map_seq_ext {A} (f g : nat → A) n : (∀ i, i < n → f i = g i) → map f (seq 0 n) = map g (seq 0 n).
Proof.
  intros Hfg. apply map_ext_in. intros i Hi%in_seq. apply Hfg. lia.
Qed.

(** One slot rolls out. *)
Lemma ring_step log n bs :
  ring_ok log n bs →
  ∃ bs', set_bucket (Z.rem (n + 1) 10) 0 bs = Some bs' ∧ ring_ok log (n + 1) bs'.
Proof.
  intros [Hn Hpast ->]. rewrite Z.rem_mod_nonneg by lia.
  rewrite set_bucket_ring by (apply Z.mod_pos_bound; lia). eexists. split; [done|].
  constructor; [lia|eapply Forall_impl; [exact Hpast|cbn; lia]|].
  apply map_seq_ext. intros i Hi. destruct (Nat.eqb_spec i (Z.to_nat ((n + 1) mod 10))) as [->|Hne].
  - symmetry. rewrite (count_ext _ (λ _, false)).
    { clear. induction log as [|s log IH]; [done|]. by rewrite count_cons, IH. }
    eapply Forall_impl; [exact Hpast|]. cbn. intros s Hs. unfold in_slot, in_window.
    destruct (Z.ltb_spec (n + 1 - 10) s); [|done]. apply andb_false_iff. right.
    apply Nat.eqb_neq. intros Heq.
    pose proof (Z.mod_pos_bound s 10). pose proof (Z.mod_pos_bound (n + 1) 10).
    assert (s mod 10 = (n + 1) mod 10)%Z as Hmod by lia.
    pose proof (Z.div_mod s 10). pose proof (Z.div_mod (n + 1) 10). lia.
  - apply count_ext. eapply Forall_impl; [exact Hpast|]. cbn. intros s Hs. unfold in_slot, in_window.
    destruct (Nat.eqb_spec (Z.to_nat (s mod 10)) i) as [<-|]; [|by rewrite !andb_false_r].
    rewrite !andb_true_r.
    assert (s ≠ n - 9)%Z.
    { intros ->. apply Hne. f_equal. replace (n + 1)%Z with (n - 9 + 1 * 10)%Z by lia.
      by rewrite Z_mod_plus_full. }
    f_equal; [|]; apply eq_true_iff_eq; rewrite ?Z.ltb_lt, ?Z.leb_le; lia.
Qed.

Lemma ring_clear k log n bs :
  ring_ok log n bs →
  ∃ bs', clear_slots k n bs = Some bs' ∧ ring_ok log (n + Z.of_nat k) bs'.
Proof.
  revert n bs. induction k as [|k IH]; intros n bs Hok; cbn [clear_slots].
  { exists bs. by rewrite Z.add_0_r. }
  destruct (ring_step _ _ _ Hok) as (bs1 & Hs & Hok1). change (Z.of_nat slidingBuckets) with 10%Z.
  rewrite Hs. destruct (IH _ _ Hok1) as (bs2 & Hc & Hok2). exists bs2. split; [done|].
  by replace (n + Z.of_nat (S k))%Z with (n + 1 + Z.of_nat k)%Z by lia.
Qed.

Lemma ring_roll log n m bs :
  ring_ok log n bs → (n ≤ m ≤ max_int64)%Z →
  ∃ bs', roll bs n m = Some bs' ∧ ring_ok log m bs'.
Proof.
  intros Hok Hm. pose proof (ring_pos _ _ _ Hok). unfold roll.
  rewrite wrap64_small by (unfold in_int64, min_int64; lia).
  change (Z.of_nat slidingBuckets) with 10%Z.
  destruct (Z.ltb_spec 0 (m - n)); [|replace m with n by lia; by exists bs].
  destruct (Z.leb_spec 10 (m - n)).
  - eexists. split; [done|]. constructor; [lia|eapply Forall_impl; [apply Hok|cbn; lia]|].
    transitivity (map (λ _, 0%Z) (seq 0 10)); [done|]. apply map_seq_ext. intros i _.
    rewrite (count_ext _ (λ _, false)).
    + clear. induction log as [|s log IH]; [done|]. by rewrite count_cons, <-IH.
    + eapply Forall_impl; [apply Hok|]. cbn. intros s Hs. unfold in_slot, in_window.
      by destruct (Z.ltb_spec (m - 10) s); [lia|].
  - destruct (ring_clear (Z.to_nat (m - n)) _ _ _ Hok) as (bs' & Hc & Hok').
    exists bs'. split; [done|]. by replace (n + Z.of_nat (Z.to_nat (m - n)))%Z with m in Hok' by lia.
Qed.

(** Counting an admission in its slot. *)
Lemma ring_admit log n bs :
  ring_ok log n bs → (count (in_window n) log < max_int64)%Z →
  ∃ bs', set_bucket (Z.rem n 10) (wrap64 (nth (Z.to_nat (Z.rem n 10)) bs 0%Z + 1)) bs = Some bs' ∧
    ring_ok (log ++ [n]) n bs'.
Proof.
  intros [Hn Hpast ->] Hmax. rewrite Z.rem_mod_nonneg by lia.
  pose proof (Z.mod_pos_bound n 10 ltac:(lia)) as Hb.
  assert (nth (Z.to_nat (n mod 10)) (map (λ i, count (in_slot n i) log) (seq 0 10)) 0%Z =
    count (in_slot n (Z.to_nat (n mod 10))) log) as ->.
  { assert (Z.to_nat (n mod 10) < 10) as Hm by lia. revert Hm. generalize (Z.to_nat (n mod 10)).
    intros m Hm. do 10 (destruct m as [|m]; [reflexivity|]). lia. }
  assert (count (in_slot n (Z.to_nat (n mod 10))) log ≤ count (in_window n) log)%Z as Hle.
  { apply count_le, Forall_forall. intros s _. unfold in_slot. by intros [? _]%andb_true_iff. }
  pose proof (count_nonneg (in_slot n (Z.to_nat (n mod 10))) log).
  rewrite wrap64_small by (unfold in_int64, min_int64; lia).
  rewrite set_bucket_ring by lia. eexists. split; [done|]. constructor; [done| |].
  - apply Forall_app. split; [done|]. by repeat constructor.
  - apply map_seq_ext. intros i Hi. rewrite count_app, count_cons. change (count _ []) with 0%Z.
    assert (in_slot n i n = (Z.to_nat (n mod 10) =? i)%nat) as ->.
    { assert (in_window n n = true) as Hself
        by (unfold in_window; apply andb_true_iff; rewrite Z.ltb_lt, Z.leb_le; lia).
      unfold in_slot. by rewrite Hself. }
    rewrite (Nat.eqb_sym i). destruct (Nat.eqb_spec (Z.to_nat (n mod 10)) i) as [<-|]; lia.
Qed.

(** ** Runs *)

(** A sequence of requests for one key: when each came, whether it was admitted, and
    the remaining budget it was told. *)
Fixpoint sliding_run (limit window : Z) (e : entry) (nows : list Z) : option (list (Z * bool * Z)) :=
  match nows with
  | [] => Some []
  | now :: nows' =>
      match slidingWindowDecide e now limit window with
      | None => None
      | Some (allow, remaining, _, e') => cons (now, allow, remaining) <$> sliding_run limit window e' nows'
      end
  end.

(** The reference: a log of the admitted requests, of which those of the last ten
    sub-windows count. *)
Definition recent (sub now t : Z) : bool := in_window (now / sub) (t / sub).
Fixpoint log_run (limit sub : Z) (log : list Z) (nows : list Z) : list (Z * bool * Z) :=
  match nows with
  | [] => []
  | now :: nows' =>
      let n := count (recent sub now) log in
      let allow := (n <? limit)%Z in
      (now, allow, (limit - n - if allow then 1 else 0)%Z) ::
        log_run limit sub (if allow then log ++ [now] else log) nows'
  end.

Definition admitted (ds : list (Z * bool * Z)) : list Z :=
  map (λ d, d.1.1) (List.filter (λ d, d.1.2) ds).

Section window.
Context (limit window : Z) (Hlimit : (0 < limit ≤ max_int64)%Z) (Hwindow : (0 < window ≤ max_int64)%Z).
Local Notation sub := (sub_window window).

Lemma sub_window_range : (0 < sub ≤ window)%Z ∧ (10 ≤ window → 10 * sub ≤ window)%Z.
Proof.
  unfold sub_window. change (Z.of_nat slidingBuckets) with 10%Z. rewrite Z.quot_div_nonneg by lia.
  pose proof (Z.mul_div_le window 10). destruct (Z.leb_spec (window / 10) 0).
  - destruct (Z.leb_spec window 0); [lia|]. split; [lia|]. intros Hw.
    assert (1 ≤ window / 10)%Z by (apply Z.div_le_lower_bound; lia). lia.
  - split; [|lia]. split; [done|]. assert (10 * (window / 10) ≤ window)%Z by lia. lia.
Qed.

Lemma count_stamps now log :
  count (in_window (now / sub)) (map (λ t, t / sub)%Z log) = count (recent sub now) log.
Proof.
  unfold count, recent. f_equal. induction log as [|t log IH]; [done|]. cbn [map List.filter].
  destruct (in_window _ _); cbn [length]; by rewrite IH.
Qed.

(** An entry that stands for a log of admitted requests. *)
Definition entry_ok (log : list Z) (e : entry) : Prop :=
  ring_ok (map (λ t, t / sub)%Z log) (lastAbsSub e) (buckets e).

Lemma slidingWindowDecide_log log e now :
  entry_ok log e → (0 ≤ now ≤ max_int64)%Z → (lastAbsSub e ≤ now / sub)%Z →
  (count (recent sub now) log ≤ limit)%Z →
  let allow := (count (recent sub now) log <? limit)%Z in
  ∃ e', slidingWindowDecide e now limit window =
    Some (allow, (limit - count (recent sub now) log - if allow then 1 else 0)%Z,
          wrap64 (wrap64 (now / sub + 1) * sub), e') ∧
    entry_ok (if allow then log ++ [now] else log) e' ∧ lastAbsSub e' = (now / sub)%Z.
Proof.
  intros Hok Hnow Hle Hn. cbn zeta. destruct sub_window_range as [Hsub _].
  assert (UnixNano now = now) as Hu by (apply wrap64_small; unfold in_int64, min_int64; lia).
  assert (now / sub ≤ max_int64)%Z as Hstamp.
  { transitivity now; [|lia]. apply Z.div_le_upper_bound; [lia|]. nia. }
  unfold slidingWindowDecide. cbn zeta. rewrite Hu, Z.quot_div_nonneg by lia.
  destruct (ring_roll _ _ (now / sub) _ Hok) as (bs & -> & Hring); [lia|].
  pose proof (ring_pos _ _ _ Hok) as Hpos.
  rewrite (ring_total _ _ _ Hring) by (rewrite count_stamps; lia). rewrite count_stamps.
  assert ((if (0 <? wrap64 (now / sub - lastAbsSub e))%Z then now / sub else lastAbsSub e) =
    now / sub)%Z as ->.
  { rewrite wrap64_small by (unfold in_int64, min_int64; lia).
    destruct (Z.ltb_spec 0 (now / sub - lastAbsSub e)); lia. }
  pose proof (count_nonneg (recent sub now) log). change (Z.of_nat slidingBuckets) with 10%Z.
  destruct (Z.ltb_spec (count (recent sub now) log) limit).
  - destruct (ring_admit _ _ _ Hring) as (bs' & Hset & Hring'); [rewrite count_stamps; lia|].
    rewrite Hset. exists (MkEntry (lastAccess e) (tokens e) (last e) (now / sub) bs').
    split; [|split; [|done]].
    + do 4 f_equal. rewrite (wrap64_small (_ + 1)) by (unfold in_int64, min_int64; lia).
      rewrite wrap64_small by (unfold in_int64, min_int64; lia). lia.
    + unfold entry_ok. cbn [buckets lastAbsSub]. rewrite map_app. exact Hring'.
  - exists (MkEntry (lastAccess e) (tokens e) (last e) (now / sub) bs).
    split; [|split; [exact Hring|done]]. do 4 f_equal.
    rewrite wrap64_small by (unfold in_int64, min_int64; lia). lia.
Qed.

Lemma new_entry_ok : entry_ok [] new_entry.
Proof. constructor; [cbn; lia|done|done]. Qed.

(** Every window of the log holds at most the limit. *)
Definition log_bounded (log : list Z) : Prop :=
  ∀ k, (count (in_window k) (map (λ t, t / sub)%Z log) ≤ limit)%Z.

Lemma log_bounded_nil : log_bounded [].
Proof. intros k. change (count _ _) with 0%Z. lia. Qed.

Lemma log_bounded_admit log now :
  log_bounded log → Forall (λ t, t ≤ now)%Z log → (count (recent sub now) log < limit)%Z →
  log_bounded (log ++ [now]).
Proof.
  intros Hb Hpast Hlt k. destruct sub_window_range as [Hsub _].
  rewrite map_app, count_app. cbn [map]. rewrite count_cons. change (count _ []) with 0%Z.
  destruct (in_window k (now / sub)) eqn:Hin; [|specialize (Hb k); lia].
  assert (count (in_window k) (map (λ t, t / sub)%Z log) ≤ count (recent sub now) log)%Z; [|lia].
  rewrite <-count_stamps. apply count_le, Forall_map. eapply Forall_impl; [exact Hpast|].
  cbn. intros t Ht. assert (t / sub ≤ now / sub)%Z by (apply Z.div_le_mono; lia).
  unfold in_window in *. rewrite !andb_true_iff, !Z.ltb_lt, !Z.leb_le in *. lia.
Qed.

(** The requests come in order, at times an [int64] of nanoseconds holds. *)
Definition in_order (from : Z) (nows : list Z) : Prop :=
  StronglySorted Z.le nows ∧ Forall (λ t, from ≤ t ≤ max_int64)%Z nows.

Lemma sliding_run_log log e from nows :
  entry_ok log e → log_bounded log → Forall (λ t, t ≤ from)%Z log →
  (0 ≤ from)%Z → (lastAbsSub e ≤ from / sub)%Z → in_order from nows →
  sliding_run limit window e nows = Some (log_run limit sub log nows).
Proof.
  destruct sub_window_range as [Hsub _].
  revert log e from. induction nows as [|now nows IH]; intros log e from Hok Hb Hpast Hfrom Hle [Hs Hr];
    [done|].
  inversion Hs as [|? ? Hs' Hge]; subst. inversion Hr as [|? ? Hnow Hr']; subst.
  assert (from / sub ≤ now / sub)%Z by (apply Z.div_le_mono; lia).
  assert (count (recent sub now) log ≤ limit)%Z as Hcnt by (rewrite <-count_stamps; apply Hb).
  destruct (slidingWindowDecide_log log e now Hok ltac:(lia) ltac:(lia) Hcnt) as (e' & Hd & Hok' & Hl').
  cbn [sliding_run log_run]. rewrite Hd.
  rewrite (IH _ _ now Hok'); [done| | |lia|lia|].
  - destruct (Z.ltb_spec (count (recent sub now) log) limit); [|done].
    apply log_bounded_admit; [done| |done]. eapply Forall_impl; [exact Hpast|]. cbn. lia.
  - assert (Forall (λ t, t ≤ now)%Z log) by (eapply Forall_impl; [exact Hpast|cbn; lia]).
    destruct (_ <? _)%Z; [|done]. apply Forall_app. by repeat constructor.
  - split; [done|]. apply Forall_forall. intros t Ht.
    rewrite Forall_forall in Hge, Hr'. specialize (Hge t Ht). specialize (Hr' t Ht). lia.
Qed.

Lemma log_run_bounded log nows :
  log_bounded log → Forall (λ t, Forall (λ now, t ≤ now)%Z nows) log → StronglySorted Z.le nows →
  log_bounded (log ++ admitted (log_run limit sub log nows)).
Proof.
  revert log. induction nows as [|now nows IH]; intros log Hb Hpast Hs; cbn [log_run].
  { by rewrite app_nil_r. }
  inversion Hs as [|? ? Hs' Hge]; subst.
  assert (Forall (λ t, t ≤ now)%Z log ∧ Forall (λ t, Forall (λ now, t ≤ now)%Z nows) log) as [Hp1 Hp2].
  { split; (eapply Forall_impl; [exact Hpast|]); cbn; intros t Ht; by inversion Ht. }
  unfold admitted. cbn [List.filter fst snd].
  destruct (Z.ltb_spec (count (recent sub now) log) limit); cbn [map fst].
  - rewrite cons_middle, app_assoc. apply IH; [by apply log_bounded_admit| |done].
    apply Forall_app. split; [done|]. by repeat constructor.
  - by apply IH.
Qed.

(** [C37] The decisions and the remaining budgets of the ring are those of the reference
    that remembers every admitted request: a run never panics, and counts exactly
    the admitted requests of the last ten sub-windows. *)
Theorem sliding_window_exact nows :
  in_order 0 nows →
  sliding_run limit window new_entry nows = Some (log_run limit sub [] nows).
Proof.
  intros Hin. apply (sliding_run_log [] new_entry 0);
    first [done|apply new_entry_ok|apply log_bounded_nil].
Qed.

Lemma log_denied log nows ds1 t m ds2 :
  log_run limit sub log nows = ds1 ++ (t, false, m) :: ds2 →
  (limit ≤ count (recent sub t) (log ++ admitted ds1))%Z.
Proof.
  revert log ds1. induction nows as [|now nows IH]; intros log ds1; cbn [log_run].
  { by destruct ds1. }
  destruct ds1 as [|d ds1]; cbn [app].
  - intros Heq. injection Heq. intros _ _ Hadm ->. change (admitted []) with (@nil Z).
    rewrite app_nil_r. by apply Z.ltb_ge.
  - intros Heq. injection Heq as <- Heq. specialize (IH _ _ Heq). unfold admitted.
    cbn [List.filter fst snd]. destruct (_ <? limit)%Z; cbn [map fst]; [|done].
    by rewrite cons_middle, app_assoc.
Qed.

Lemma log_run_times log nows : map (λ d, d.1.1) (log_run limit sub log nows) = nows.
Proof. revert log. induction nows as [|now nows IH]; intros log; cbn; [done|by rewrite IH]. Qed.

(** What the limit means in time: at most [limit] requests are admitted during any
    nine sub-windows (nine tenths of the window), and a request is denied only when
    [limit] requests were admitted during the window before it. *)
Theorem sliding_window_limit nows ds :
  in_order 0 nows → sliding_run limit window new_entry nows = Some ds →
  (∀ t, count (λ x, (t <=? x)%Z && (x <=? t + 9 * sub)%Z) (admitted ds) ≤ limit)%Z ∧
  (∀ ds1 t m ds2, ds = ds1 ++ (t, false, m) :: ds2 →
     limit ≤ count (λ x, (t - 10 * sub <? x)%Z && (x <=? t)%Z) (admitted ds1))%Z.
Proof.
  intros Hin Hrun. destruct sub_window_range as [Hsub _].
  assert (ds = log_run limit sub [] nows) as ->.
  { rewrite (sliding_run_log [] new_entry 0) in Hrun;
      first [by injection Hrun|done|apply new_entry_ok|apply log_bounded_nil]. }
  split.
  - intros t. pose proof (log_run_bounded [] nows) as Hb. cbn [app] in Hb.
    assert (log_bounded (admitted (log_run limit sub [] nows))) as Hbound.
    { apply Hb; [apply log_bounded_nil|done|apply Hin]. }
    specialize (Hbound (t / sub + 9)%Z). etrans; [|exact Hbound].
    unfold count. apply Nat2Z.inj_le. rewrite <-(length_map (λ t, t / sub)%Z (List.filter _ _)).
    generalize (admitted (log_run limit sub [] nows)). intros l.
    induction l as [|x l IH]; [done|]. cbn [List.filter map].
    destruct ((t <=? x)%Z && (x <=? t + 9 * sub)%Z) eqn:Hx; cbn [map length].
    + apply andb_true_iff in Hx as [H1%Z.leb_le H2%Z.leb_le].
      assert (in_window (t / sub + 9) (x / sub) = true) as ->; [|cbn [length]; lia].
      unfold in_window. apply andb_true_iff. rewrite Z.ltb_lt, Z.leb_le.
      assert (t / sub ≤ x / sub)%Z by (apply Z.div_le_mono; lia).
      assert (x / sub ≤ (t + 9 * sub) / sub)%Z by (apply Z.div_le_mono; lia).
      rewrite Z.div_add in * by lia. lia.
    + destruct (in_window _ _); cbn [length]; lia.
  - intros ds1 t m ds2 Heq. pose proof (log_denied [] nows ds1 t m ds2 Heq) as Hd. cbn [app] in Hd.
    etrans; [exact Hd|]. apply count_le, Forall_forall. intros x Hx Hrec.
    assert (x ≤ t)%Z as Hxt.
    { assert (map (λ d, d.1.1) ds1 ++ t :: map (λ d, d.1.1) ds2 = nows) as Hnows.
      { by rewrite <-(log_run_times [] nows), Heq, map_app. }
      destruct Hin as [Hs _]. rewrite <-Hnows in Hs.
      apply StronglySorted_app_1_elem_of with (x1 := x) (x2 := t) in Hs; [done| |by left].
      unfold admitted in Hx. apply list_elem_of_fmap in Hx as (d & -> & Hd1).
      apply list_elem_of_fmap. exists d. split; [done|].
      apply list_elem_of_In in Hd1. apply filter_In in Hd1 as [? _]. by apply list_elem_of_In. }
    unfold recent, in_window in Hrec. rewrite andb_true_iff, Z.ltb_lt, Z.leb_le in *.
    destruct Hrec as [Hlo _]. split; [|done].
    pose proof (Z.mul_div_le x sub). pose proof (Z.mul_succ_div_gt t sub). nia.
Qed.
End window.

(** ** Eviction *)

Section eviction.
Context (limit window : Z) (Hlimit : (0 < limit ≤ max_int64)%Z) (Hwindow : (0 < window ≤ max_int64)%Z).
Local Notation sub := (sub_window window).

Lemma log_run_old old log nows :
  Forall (λ t, Forall (λ now, recent sub now t = false) nows) old →
  log_run limit sub (old ++ log) nows = log_run limit sub log nows.
Proof.
  revert log. induction nows as [|now nows IH]; intros log Hold; [done|]. cbn [log_run].
  assert (count (recent sub now) (old ++ log) = count (recent sub now) log) as ->.
  { rewrite count_app, (count_ext _ (λ _, false)).
    - replace (count (λ _, false) old) with 0%Z; [lia|].
      clear. induction old as [|t old IH]; [done|]. by rewrite count_cons, <-IH.
    - eapply Forall_impl; [exact Hold|]. cbn. intros t Ht. by inversion Ht. }
  assert (Forall (λ t, Forall (λ now, recent sub now t = false) nows) old) as Hold'
    by (eapply Forall_impl; [exact Hold|]; cbn; intros t Ht; by inversion Ht).
  destruct (_ <? _)%Z; [|by rewrite IH]. by rewrite <-app_assoc, IH.
Qed.

(** Evicting the entry of an idle key changes nothing: once the entry is idle for a
    lifetime of at least the window, the requests that follow are answered as the
    evicted entry would have answered them. *)
Theorem eviction_invisible log e ttl swept nows :
  entry_ok window log e → log_bounded limit window log →
  (lastAbsSub e * sub ≤ lastAccess e)%Z → (10 ≤ window ≤ ttl)%Z →
  (lastAccess e < swept - ttl)%Z → in_order swept nows →
  sliding_run limit window e nows = sliding_run limit window new_entry nows.
Proof.
  intros Hok Hb Hacc Httl Hidle Hin. destruct (sub_window_range window Hwindow) as [Hsub H10].
  pose proof (ring_pos _ _ _ Hok) as Hpos.
  assert (0 ≤ swept)%Z by nia.
  assert (lastAbsSub e + 10 ≤ swept / sub)%Z as Hfar by (apply Z.div_le_lower_bound; nia).
  assert (in_order 0 nows) as Hin0.
  { split; [apply Hin|]. eapply Forall_impl; [apply Hin|]. cbn. lia. }
  assert (Forall (λ t, t / sub ≤ lastAbsSub e)%Z log) as Hstamps.
  { apply ring_past in Hok as Hpast. apply Forall_map in Hpast.
    eapply Forall_impl; [exact Hpast|]. cbn. lia. }
  rewrite (sliding_run_log limit window Hlimit Hwindow [] new_entry 0);
    [|apply new_entry_ok|by apply log_bounded_nil|done..].
  rewrite (sliding_run_log limit window Hlimit Hwindow log e swept); try done; [|..|lia].
  - rewrite <-(app_nil_r log), log_run_old; [done|].
    eapply Forall_impl; [exact Hstamps|]. cbn. intros t Ht. eapply Forall_impl; [apply Hin|].
    cbn. intros now Hnow. unfold recent, in_window.
    assert (swept / sub ≤ now / sub)%Z by (apply Z.div_le_mono; lia).
    by destruct (Z.ltb_spec (now / sub - 10) (t / sub)); [lia|].
  - eapply Forall_impl; [exact Hstamps|]. cbn. intros t Ht.
    pose proof (Z.mul_succ_div_gt t sub). nia.
Qed.
End eviction.

(** * The token bucket *)

(** Requests for one key under the token bucket: admitted or not, and the tokens
    left. *)
Fixpoint bucket_run (limit burst window : Z) (e : entry) (nows : list Z) : list (bool * Z) :=
  match nows with
  | [] => []
  | now :: nows' =>
      let '(allow, remaining, _, e') := tokenBucketDecide e now limit burst window in
      (allow, remaining) :: bucket_run limit burst window e' nows'
  end.

Lemma f64_to_int64_small z : (0 ≤ z < 2 ^ 53)%Z → f64_to_int64 (f64_of_int z) = z.
Proof.
  intros Hz. unfold f64_to_int64. rewrite f64_trunc_small by done.
  unfold min_int64, max_int64. destruct (Z.leb_spec (- 2 ^ 63) z), (Z.leb_spec z (2 ^ 63 - 1)); done || lia.
Qed.

Lemma tokenBucketDecide_full e now limit burst window k :
  (0 ≤ k < 2 ^ 53)%Z →
  refill e now (f64_of_int burst) (f64_div (f64_of_int limit) (Seconds window)) =
    (f64_of_int k, Some now) →
  ∃ reset e', tokenBucketDecide e now limit burst window = ((0 <? k)%Z, Z.max 0 (k - 1), reset, e') ∧
    tokens e' = f64_of_int (Z.max 0 (k - 1)) ∧ last e' = Some now.
Proof.
  intros Hk Hr. unfold tokenBucketDecide. rewrite Hr, f64_le_one by done.
  assert ((1 <=? k)%Z = (0 <? k)%Z) as -> by (apply eq_true_iff_eq; rewrite Z.leb_le, Z.ltb_lt; lia).
  destruct (Z.ltb_spec 0 k).
  - rewrite f64_sub_one, f64_to_int64_small by lia. rewrite Z.max_r by lia. by do 2 eexists.
  - replace k with 0%Z by lia. by do 2 eexists.
Qed.

Lemma refill_same e now capacity rate :
  last e = Some now → refill e now capacity rate = (tokens e, Some now).
Proof.
  intros Hl. unfold refill. rewrite Hl. unfold time_Sub. by rewrite Z.sub_diag.
Qed.

Lemma bucket_run_same limit burst window now n k e :
  (0 ≤ k < 2 ^ 53)%Z →
  refill e now (f64_of_int burst) (f64_div (f64_of_int limit) (Seconds window)) =
    (f64_of_int k, Some now) →
  bucket_run limit burst window e (replicate n now) =
    map (λ i, ((Z.of_nat i <? k)%Z, Z.max 0 (k - 1 - Z.of_nat i))) (seq 0 n).
Proof.
  revert k e. induction n as [|n IH]; intros k e Hk Hr; [done|]. cbn [replicate bucket_run].
  destruct (tokenBucketDecide_full _ _ _ _ _ _ Hk Hr) as (reset & e' & -> & Ht & Hl).
  rewrite (IH (Z.max 0 (k - 1))); [|lia|by rewrite refill_same, Ht].
  cbn [seq map]. f_equal; [f_equal; lia|]. rewrite <-seq_shift, map_map.
  apply map_ext. intros i. f_equal; [|lia].
  apply eq_true_iff_eq. rewrite !Z.ltb_lt. lia.
Qed.

(** A key's first burst: of the requests of one instant the first [burst] are
    admitted, each told the exact number of tokens left, and the rest are denied.
    Later a refill never lifts the tokens above the capacity. *)
Theorem token_bucket_burst limit burst window now n :
  (0 < burst < 2 ^ 53)%Z →
  bucket_run limit burst window new_entry (replicate n now) =
    map (λ i, ((Z.of_nat i <? burst)%Z, Z.max 0 (burst - 1 - Z.of_nat i))) (seq 0 n) ∧
  ∀ e now' capacity rate t, last e = Some t →
    f64_lt capacity (tokens e) = false → f64_lt capacity (refill e now' capacity rate).1 = false.
Proof.
  intros Hb. split; [apply bucket_run_same; [lia|done]|].
  intros e now' capacity rate t Hl Hcap. unfold refill. rewrite Hl.
  destruct (f64_lt f64_zero _); [|done]. cbn [fst].
  destruct (f64_lt capacity (f64_add _ _)) eqn:Hlt; [apply f64_lt_irrefl|done].
Qed.

(** * The store *)

Definition store_ok (s : store) : Prop := length (shards s) = shardCount.

Lemma shardFor_range key : shardFor key < shardCount.
Proof.
  unfold shardFor, shardCount. pose proof (Z.mod_pos_bound (fnvHash key) 64). lia.
Qed.

Lemma lookup_put key e s k :
  store_ok s → lookup_entry k (put_entry key e s) = if decide (k = key) then Some e else lookup_entry k s.
Proof.
  intros Hok. unfold lookup_entry, put_entry, shard_at, set_shard. cbn [shards].
  pose proof (shardFor_range key) as Hr. rewrite <-Hok in Hr.
  destruct (decide (shardFor k = shardFor key)) as [Heq|Hne].
  - rewrite Heq, list_lookup_insert_eq by done. cbn [default]. unfold id.
    destruct (decide (k = key)) as [->|Hk]; [by rewrite lookup_insert_eq|by rewrite lookup_insert_ne].
  - rewrite list_lookup_insert_ne by done. destruct (decide (k = key)) as [->|]; done.
Qed.

Lemma store_ok_put key e s : store_ok s → store_ok (put_entry key e s).
Proof. unfold store_ok, put_entry, set_shard. cbn. by rewrite length_insert. Qed.

Section store_lemmas.
Context (clock : nat → Z).

(** An entry of [s] that a sweep at one of the clock's readings may drop. *)
Definition idle (s : store) (k : string) (n : nat) : Prop :=
  ∃ e, lookup_entry k s = Some e ∧ (0 < entryTTL s)%Z ∧ (lastAccess e < clock n - entryTTL s)%Z.

Lemma sweepShard_lookup idx l :
  store_ok (rl_store l) →
  ∃ l', sweepShard clock idx l = (Ret tt, l') ∧ store_ok (rl_store l') ∧
    ∀ k, lookup_entry k (rl_store l') = lookup_entry k (rl_store l) ∨
      (lookup_entry k (rl_store l') = None ∧ idle (rl_store l) k (rl_ticks l)).
Proof.
  intros Hok. unfold sweepShard. rewrite go_bind_eq. unfold go_get at 1.
  destruct (Z.leb_spec (entryTTL (rl_store l)) 0); [exists l; by auto|].
  rewrite go_bind_eq. unfold time_Now at 1, mod_store, go_mod. eexists. split; [done|].
  cbn [rl_store set_store]. split; [unfold store_ok, set_shard; cbn; by rewrite length_insert|].
  intros k. unfold lookup_entry, idle, set_shard, shard_at. cbn [shards].
  destruct (decide (shardFor k = idx)) as [<-|Hne].
  - pose proof (shardFor_range k) as Hr. rewrite <-Hok in Hr.
    rewrite list_lookup_insert_eq by done. cbn [default]. unfold id at 1.
    set (m := default ∅ (shards (rl_store l) !! shardFor k)). rewrite map_lookup_filter.
    destruct (m !! k) as [e|] eqn:Hm; [|by left]. cbn.
    destruct (decide (lastAccess e < clock (rl_ticks l) - entryTTL (rl_store l))%Z) as [Hlt|Hge].
    + right. split; [|by exists e; split_and!; [exact Hm|..]]. rewrite map_lookup_filter, Hm. cbn. by rewrite option_guard_False by auto.
    + left. by rewrite option_guard_True.
  - left. by rewrite list_lookup_insert_ne.
Qed.

(** A decision applies the algorithm, at the time of the request, to the key's own
    entry (a new one if there is none), stores the entry it returns, and leaves all
    other entries alone, except that entries idle for longer than their lifetime may
    go. A denial asks the client to wait at least a second. *)
Theorem decide_per_key cfg key l ok snap l' :
  store_ok (rl_store l) →
  limiter_decide clock cfg key l = (Ret (ok, snap), l') →
  ∃ remaining reset e' t s1 n,
    decide_entry cfg (clock (rl_ticks l)) (default new_entry (lookup_entry key (rl_store l))) =
      Some (ok, remaining, reset, e') ∧
    snap_Limit snap = cfg_Limit cfg ∧ snap_Remaining snap = remaining ∧ snap_Reset snap = reset ∧
    (ok = false → Second ≤ snap_RetryAfter snap)%Z ∧
    (∀ k, lookup_entry k s1 =
      if decide (k = key) then Some (set_lastAccess t e') else lookup_entry k (rl_store l)) ∧
    (∀ k, lookup_entry k (rl_store l') = lookup_entry k s1 ∨
      (lookup_entry k (rl_store l') = None ∧ idle s1 k n)) ∧
    store_ok (rl_store l').
Proof.
  intros Hok. unfold limiter_decide. rewrite go_bind_eq. unfold time_Now at 1.
  unfold withEntry. rewrite go_bind_eq. unfold go_get at 1. cbn [rl_store].
  rewrite go_bind_eq. unfold mod_store at 1, go_mod at 1, set_store at 1. cbn [rl_store rl_ticks].
  set (e0 := default new_entry _). rewrite go_bind_eq.
  destruct (decide_entry cfg _ e0) as [[[[ok1 rem] reset] e']|] eqn:Hd; [|done].
  set (s0 := put_entry key e0 (rl_store l)).
  assert (∃ ra m, (go_bind (if ok1 then go_ret 0%Z
      else go_bind (time_Now clock) (λ t, go_ret (Z.max Second (time_Sub reset t))))
    (λ retryAfter, go_ret (ok1, MkSnapshot (cfg_Limit cfg) rem reset retryAfter, e')))
      (MkLimiter s0 (S (rl_ticks l))) =
      (Ret (ok1, MkSnapshot (cfg_Limit cfg) rem reset ra, e'), MkLimiter s0 m) ∧
    (ok1 = false → Second ≤ ra)%Z) as (ra & m & -> & Hra).
  { destruct ok1; do 2 eexists; (split; [done|]); [done|]. intros _. lia. }
  cbn [fst snd]. rewrite go_bind_eq. unfold time_Now at 1. rewrite go_bind_eq.
  unfold mod_store at 1, go_mod at 1, set_store at 1. cbn [rl_store rl_ticks].
  rewrite go_bind_eq. unfold mod_store at 1, go_mod at 1, set_store at 1. cbn [rl_store rl_ticks].
  set (s1 := set_sweepCounter _ _).
  rewrite go_bind_eq. unfold go_get at 1. cbn [rl_store]. rewrite go_bind_eq.
  assert (store_ok s1) as Hok1 by (apply store_ok_put, store_ok_put; exact Hok).
  assert (∃ l2, (if (sweepCounter s1 mod Z.of_nat shardCount =? 0)%Z
      then sweepShard clock (Z.to_nat (sweepCounter s1 / Z.of_nat shardCount mod Z.of_nat shardCount))
      else go_ret tt) (MkLimiter s1 (S m)) = (Ret tt, l2) ∧ store_ok (rl_store l2) ∧
    ∀ k, lookup_entry k (rl_store l2) = lookup_entry k s1 ∨
      (lookup_entry k (rl_store l2) = None ∧ idle s1 k (S m))) as (l2 & -> & Hok2 & Hsweep).
  { destruct (_ =? 0)%Z; [exact (sweepShard_lookup _ (MkLimiter s1 (S m)) Hok1)|].
    eexists. split; [done|]. by auto. }
  unfold go_ret. intros [= <- <- <-].
  exists rem, reset, e', (clock m), s1, (S m). split_and!; try done.
  intros k. change (lookup_entry k s1) with (lookup_entry k (put_entry key (set_lastAccess (clock m) e') s0)).
  rewrite lookup_put by by apply store_ok_put. destruct (decide (k = key)) as [->|Hk]; [done|].
  unfold s0. rewrite lookup_put by done. by rewrite decide_False.
Qed.
End store_lemmas.

(** * The middleware *)

Lemma setHeaders_values snap h :
  let hdr := setHeaders snap true h in
  hdr !! "X-Ratelimit-Limit" = Some [itoa (snap_Limit snap)] ∧
  hdr !! "X-Ratelimit-Remaining" = Some [itoa (snap_Remaining snap)] ∧
  hdr !! "X-Ratelimit-Reset" = Some [itoa (snap_Reset snap / Second)] ∧
  hdr !! "Retry-After" = Some [itoa (Z.max 1 (Z.quot (snap_RetryAfter snap) Second))].
Proof.
  cbn zeta. unfold setHeaders, header_set. cbn zeta.
  repeat match goal with |- context [CanonicalHeaderKey ?k] =>
    let k' := eval vm_compute in (CanonicalHeaderKey k) in
    change (CanonicalHeaderKey k) with k' end.
  replace (if (Z.quot (snap_RetryAfter snap) Second <? 1)%Z then 1%Z
    else Z.quot (snap_RetryAfter snap) Second) with (Z.max 1 (Z.quot (snap_RetryAfter snap) Second))
    by (destruct (Z.ltb_spec (Z.quot (snap_RetryAfter snap) Second) 1); lia).
  by split_and!; simplify_map_eq.
Qed.

Section middleware_lemmas.
Context (clock : nat → Z) (status_text : Z → string) (json_encode : payload → string).
Context {IP Net : Type} (SplitHostPort : string → option string) (ParseIP : string → option IP)
  (Contains : Net → IP → bool) (proxies : ProxyTable Net).
Local Notation native' := (native clock status_text SplitHostPort ParseIP Contains proxies).
Local Notation stdlib' := (stdlib clock status_text json_encode SplitHostPort ParseIP Contains proxies).
Local Notation key_of cfg := (keyFunc SplitHostPort ParseIP Contains proxies cfg).

(** The two forms, step by step. *)
Lemma native_eq cfg next wd l :
  native' cfg next (wd, l) =
    if shouldSkip cfg (r_Path (c_req (w_ctx wd))) true wd then next (wd, l)
    else match limiter_decide clock cfg (key_of cfg wd) l with
    | (Panic msg, l') => (Panic msg, (wd, l'))
    | (Ret (allow, snap), l') =>
        let wd1 := wr_mod_header (setHeaders snap (negb allow)) wd in
        if allow then next (wd1, l')
        else let '(o, wd') :=
          match cfg_Handler cfg with
          | Some h => h snap
          | None => let! rid := get_ctx RequestID in
                    JSON (cfg_StatusCode cfg) (errorBody status_text cfg rid)
          end wd1 in (o, (wd', l'))
    end.
Proof.
  unfold native, on_fst, on_snd, go_bind, go_get, go_mod.
  destruct (shouldSkip _ _ _ _); [done|].
  by destruct (limiter_decide _ _ _ _) as [[[[] snap]|msg] l'].
Qed.

Lemma stdlib_eq cfg next w r wd l :
  contextFromRequest r wd = (Ret true, wd) →
  stdlib' cfg next w r (wd, l) =
    if shouldSkip cfg (r_Path r) true wd then next w r (wd, l)
    else match limiter_decide clock cfg (key_of cfg wd) l with
    | (Panic msg, l') => (Panic msg, (wd, l'))
    | (Ret (allow, snap), l') =>
        let wd1 := wr_mod_header (setHeaders snap (negb allow)) wd in
        let refuse := let! rid := get_ctx RequestID in
          writeJSONError json_encode w (cfg_StatusCode cfg) (errorBody status_text cfg rid) in
        if allow then next w r (wd1, l')
        else let '(o, wd') :=
          match cfg_Handler cfg with
          | Some h => let! err := h snap in
                      match err with Some _ => refuse | None => go_ret tt end
          | None => refuse
          end wd1 in (o, (wd', l'))
    end.
Proof.
  intros Hctx. unfold stdlib, on_fst, on_snd, go_mod. rewrite go_bind_eq, Hctx, go_bind_eq.
  unfold go_get at 1. destruct (shouldSkip _ _ _ _); [done|]. unfold go_bind, go_get.
  by destruct (limiter_decide _ _ _ _) as [[[[] snap]|msg] l'].
Qed.

(** A response nothing was sent on, written directly. *)
Definition fresh_response (wd : World) : Prop :=
  c_written (w_ctx wd) = false ∧ wref_target (c_res (w_ctx wd)) = WBase ∧
  bw_under (w_bw wd) = new_RW (wr_header wd).

(** A request over its limit, in both forms of the middleware: the handler does not
    run, the limiter keeps the state of the decision, and the client gets the
    configured status and an error body, with the state of its budget in the headers
    and, in whole seconds and never less than one, when to come back. A request
    within the limit and a skipped request go to the handler. *)
Theorem over_limit_refused cfg wd l allow snap l' w r :
  fresh_response wd → c_req (w_ctx wd) = r → contextFromRequest r wd = (Ret true, wd) →
  wref_target w = WBase →
  limiter_decide clock cfg (key_of cfg wd) l = (Ret (allow, snap), l') →
  let rid := RequestID (w_ctx wd) in
  let body := errorBody status_text cfg rid in
  let wd1 := wr_mod_header (setHeaders snap (negb allow)) wd in
  (shouldSkip cfg (r_Path r) true wd = true → ∀ next next',
    native' cfg next (wd, l) = next (wd, l) ∧ stdlib' cfg next' w r (wd, l) = next' w r (wd, l)) ∧
  (shouldSkip cfg (r_Path r) true wd = false → allow = true → ∀ next next',
    native' cfg next (wd, l) = next (wd1, l') ∧ stdlib' cfg next' w r (wd, l) = next' w r (wd1, l')) ∧
  (shouldSkip cfg (r_Path r) true wd = false → allow = false → cfg_Handler cfg = None →
   cfg_StatusCode cfg ≠ 0%Z → informational (cfg_StatusCode cfg) = false → (codecEncode (c_app (w_ctx wd)) body).1 ≠ [] → ∀ next next',
    (∃ wd', (native' cfg next (wd, l)).2 = (wd', l') ∧
      let rw := bw_under (w_bw wd') in
      final_status rw = cfg_StatusCode cfg ∧
      w_body rw = concat_all (codecEncode (c_app (w_ctx wd)) body).1 ∧
      final_header rw =
        <["Content-Type" := [codecContentType (c_app (w_ctx wd))]]> (setHeaders snap true (wr_header wd))) ∧
    (∃ wd', (stdlib' cfg next' w r (wd, l)).2 = (wd', l') ∧
      let rw := bw_under (w_bw wd') in
      final_status rw = cfg_StatusCode cfg ∧ w_body rw = json_encode body ∧
      final_header rw =
        <["Content-Type" := ["application/json; charset=utf-8"]]> (setHeaders snap true (wr_header wd)))).
Proof.
  intros (Hwr & Htgt & Hfresh) Hreq Hctx Hw Hdec. cbn zeta.
  split_and!; intros Hskip.
  - intros next next'. by rewrite native_eq, stdlib_eq, Hreq, Hskip by done.
  - intros -> next next'. by rewrite native_eq, stdlib_eq, Hreq, Hskip, Hdec by done.
  - intros -> Hh Hs Hi Henc next next'. rewrite native_eq, stdlib_eq, Hreq, Hskip, Hdec, Hh by done.
    cbn [negb]. set (wd1 := wr_mod_header _ wd). unfold get_ctx. rewrite !go_bind_eq. unfold go_get.
    change (RequestID (w_ctx wd1)) with (RequestID (w_ctx wd)).
    set (body := errorBody _ _ _) in *. split.
    + rewrite JSON_once. change (c_written (w_ctx wd1)) with (c_written (w_ctx wd)). rewrite Hwr.
      eexists. split; [reflexivity|]. cbn zeta. rewrite run_wops_base by done.
      apply Z.eqb_neq in Hs as ->. change (bw_under (w_bw (set_w_ctx _ wd1))) with (bw_under (w_bw wd1)).
      change (c_app (w_ctx wd1)) with (c_app (w_ctx wd)).
      replace (bw_under (w_bw wd1)) with (new_RW (setHeaders snap true (wr_header wd)))
        by (unfold wd1, wr_mod_header, mod_base; cbn; by rewrite Hfresh).
      by apply json_ops_sent.
    + unfold writeJSONError. eexists. split; [reflexivity|]. cbn zeta.
      change (bw_under (w_bw _)) with
        (bw_under (w_bw (run_wops w [HSet "Content-Type" "application/json; charset=utf-8";
          OWriteHeader (cfg_StatusCode cfg); OWrite (json_encode body)] wd1))).
      rewrite run_wops_base by done.
      replace (bw_under (w_bw wd1)) with (new_RW (setHeaders snap true (wr_header wd)))
        by (unfold wd1, wr_mod_header, mod_base; cbn; by rewrite Hfresh).
      by rewrite answer_ops_sent.
Qed.
End middleware_lemmas.

(** * Witnesses and examples *)

Lemma max64 : max_int64 = 9223372036854775807%Z.
Proof. reflexivity. Qed.

Definition ten_seconds : Z := 10 * Second.
Lemma demo_in_order : in_order 0 [1%Z; 2%Z; ten_seconds].
Proof. split; repeat constructor; unfold ten_seconds, Second; rewrite ?max64; lia. Qed.

Lemma sliding_window_exact_witness :
  sliding_run 2 ten_seconds new_entry [1%Z; 2%Z; ten_seconds] =
    Some [(1, true, 1); (2, true, 0); (ten_seconds, true, 1)]%Z.
Proof.
  rewrite (sliding_window_exact 2 ten_seconds); [reflexivity|rewrite max64; lia| |exact demo_in_order].
  rewrite max64. unfold ten_seconds, Second. lia.
Defined.

Lemma sliding_window_limit_witness :
  (count (λ x, (0 <=? x)%Z && (x <=? 0 + 9 * Second)%Z)
    (admitted [(1, true, 1); (2, true, 0); (ten_seconds, true, 1)]) ≤ 2)%Z.
Proof.
  destruct (sliding_window_limit 2 ten_seconds ltac:(rewrite max64; lia)
    ltac:(rewrite max64; unfold ten_seconds, Second; lia) [1%Z; 2%Z; ten_seconds]
    [(1, true, 1); (2, true, 0); (ten_seconds, true, 1)]%Z demo_in_order) as [H _];
    [vm_compute; reflexivity|].
  exact (H 0%Z).
Defined.

(** The entry after one request at 1 ns. *)
Definition used_entry : entry := MkEntry 1 f64_zero None 0 (1%Z :: replicate 9 0%Z).

Lemma eviction_invisible_witness :
  sliding_run 1 ten_seconds used_entry [60 * Second]%Z = sliding_run 1 ten_seconds new_entry [60 * Second]%Z.
Proof.
  apply (eviction_invisible 1 ten_seconds) with (log := [1%Z]) (ttl := (20 * Second)%Z) (swept := (60 * Second)%Z).
  - rewrite max64. lia.
  - rewrite max64. unfold ten_seconds, Second. lia.
  - split; [cbn; lia|by repeat constructor|reflexivity].
  - intros k. unfold count. cbn [map List.filter]. destruct (in_window _ _); cbn; lia.
  - cbn. lia.
  - unfold ten_seconds, Second. lia.
  - cbn. unfold Second. lia.
  - split; repeat constructor; unfold Second; rewrite ?max64; lia.
Defined.

Lemma token_bucket_burst_witness :
  bucket_run 1 2 Second new_entry (replicate 3 0%Z) = [(true, 1%Z); (true, 0%Z); (false, 0%Z)].
Proof.
  destruct (token_bucket_burst 1 2 Second 0 3) as [H _]; [lia|]. rewrite H. reflexivity.
Defined.

Definition tick_clock (n : nat) : Z := Z.of_nat n.
Definition one_per_ten : Config :=
  MkConfig SlidingWindow 1 ten_seconds 0 (Some (λ _, "k")) [] None 429 "slow down" None 0.
Definition fresh_limiter : limiter := MkLimiter (newStore (2 * ten_seconds)) 0.

Lemma decide_per_key_witness :
  let '(o, l') := limiter_decide tick_clock one_per_ten "k" fresh_limiter in
  store_ok (rl_store l') ∧ is_Some (lookup_entry "k" (rl_store l')).
Proof.
  destruct (limiter_decide tick_clock one_per_ten "k" fresh_limiter) as [o l'] eqn:Hd.
  assert (∃ ok snap, o = Ret (ok, snap)) as (ok & snap & ->)
    by (apply (f_equal fst) in Hd; vm_compute in Hd; rewrite <-Hd; by do 2 eexists).
  destruct (decide_per_key tick_clock one_per_ten "k" fresh_limiter ok snap l' eq_refl Hd)
    as (rem & reset & e' & t & s1 & n & _ & _ & _ & _ & _ & Hs1 & Hl' & Hok).
  split; [exact Hok|]. apply (f_equal snd) in Hd. cbn [snd] in Hd. rewrite <-Hd. eexists.
  vm_compute. reflexivity.
Defined.

(** The second request of a key that may make one. *)
Definition used_limiter : limiter := (limiter_decide tick_clock one_per_ten "k" fresh_limiter).2.
Definition marked_request : request :=
  MkRequest 0 "GET" "/users/42" "" ∅ "10.0.0.7:4711" false 5 true.
Definition limited_world : World := set_w_ctx (reset WBase marked_request ∅ demo_ctx) demo_world.

Lemma over_limit_refused_witness :
  ∃ wd' l', (native tick_clock (λ _, "") (λ _, None) (λ _ : string, @None unit) (λ _ _ : unit, false)
      {| TrustedProxies := []; trustedProxyIPs := ∅; trustedProxyCIDRs := [] |} one_per_ten
      (go_panic "the handler ran") (limited_world, used_limiter)).2 = (wd', l') ∧
    final_status (bw_under (w_bw wd')) = 429%Z.
Proof.
  destruct (limiter_decide tick_clock one_per_ten "k" used_limiter) as [o l'] eqn:Hd.
  assert (∃ snap, o = Ret (false, snap)) as (snap & ->)
    by (apply (f_equal fst) in Hd; vm_compute in Hd; rewrite <-Hd; by eexists).
  destruct (over_limit_refused tick_clock (λ _, "") (λ _, "") (λ _, None) (λ _ : string, @None unit)
    (λ _ _ : unit, false) {| TrustedProxies := []; trustedProxyIPs := ∅; trustedProxyCIDRs := [] |}
    one_per_ten limited_world used_limiter false snap l' WBase marked_request)
    as (_ & _ & H); try reflexivity.
  - split; [reflexivity|split; reflexivity].
  - exact Hd.
  - destruct (H eq_refl eq_refl eq_refl ltac:(discriminate) eq_refl ltac:(discriminate)
      (go_panic "the handler ran") (λ _ _, go_panic "the handler ran")) as [(wd' & Heq & Hst & _) _].
    exists wd', l'. split; [exact Heq|exact Hst].
Defined.

(** ** Behaviour worth knowing *)

(** The window is up to a tenth shorter than configured: with one request per ten
    seconds, two requests 9.000000001 s apart are both admitted. *)
Example window_is_shorter :
  sliding_run 1 ten_seconds new_entry [999999999%Z; ten_seconds] =
    Some [(999999999, true, 0); (ten_seconds, true, 0)]%Z.
Proof. vm_compute. reflexivity. Qed.

(** Evicting a token bucket fills it: with a rate of one per second and a burst of
    100, a bucket emptied at 0 s holds 60 tokens at 60 s; the janitor's sweep at that
    moment makes it 100. *)
Definition burst_config : Config :=
  MkConfig TokenBucket 1 Second 100 None [] None 429 "" None (2 * Second).
Definition late_clock (n : nat) : Z := if (n <? 201)%nat then 1%Z else (60 * Second + 1)%Z.
Fixpoint decide_times (n : nat) : GoM limiter nat :=
  match n with
  | O => go_ret 0
  | S n' =>
      let! (ok, _) := limiter_decide late_clock burst_config "k" in
      let! m := decide_times n' in
      go_ret (if (ok : bool) then S m else m)
  end.
Example eviction_refills_bucket :
  let start := MkLimiter (newStore (2 * Second)) 0 in
  ((let! _ := decide_times 100 in decide_times 100) start).1 = Ret 60 ∧
  ((let! _ := decide_times 100 in let! _ := sweepAll late_clock in decide_times 100) start).1 =
    Ret 100.
Proof. split; vm_compute; reflexivity. Qed.
