(* ===== verification/Throttle.v ===== *)
(** Throttling (plugins/throttle): a bounded number of requests in progress, and a bounded
    number that wait for a place for a bounded time. Requests are goroutines that share two
    channels; every operation on a channel is a step of its own, so that the model has all
    their interleavings. *)
From S2P Require Import Prelude GoStrings Http Response.
From S2P Require Import Errors RequestContext App.
From stdpp Require Import gmap.
Open Scope go_scope.

(** * Configuration *)

Record Config : Type := MkConfig {
  MaxConcurrent : Z;
  QueueSize : Z;
  StatusCode : Z;
  Message : string;
  cfg_Handler : option (GoM World (option error));
  cfg_Skipper : option (World → bool);
  SkipPaths : gset string
}.
Definition DefaultConfig : Config := MkConfig 0 0 503 "service unavailable" None None ∅.

(** [New]: the configuration with its defaults. *)
Definition New (cfg : Config) : outcome Config :=
  if (MaxConcurrent cfg <=? 0)%Z then Panic "throttle: MaxConcurrent must be > 0"
  else if (QueueSize cfg <? 0)%Z then Panic "throttle: QueueSize must be >= 0"
  else Ret (MkConfig (MaxConcurrent cfg) (QueueSize cfg)
    (if (StatusCode cfg =? 0)%Z then 503%Z else StatusCode cfg)
    (if String.eqb (Message cfg) "" then "service unavailable" else Message cfg)
    (cfg_Handler cfg) (cfg_Skipper cfg) (SkipPaths cfg)).

(** * Goroutines *)

(** How the handler of a request ends, and how its request does. *)
Inductive ending : Type := Returned | Panicked.
Inductive result : Type := Refused | Ended (e : ending).

(** Where the goroutine of a request is: before the check of skipped paths; at the first
    select of [acquire]; at the select on the queue; at the last select, holding a place in the
    queue; parked in it; at the deferred receive from the queue, with the result of [acquire];
    in the handler, holding a slot unless the throttle was skipped; at the deferred [release];
    done. *)
Inductive phase : Type :=
  | Entered
  | Trying
  | Claiming
  | Selecting
  | Parked
  | Leaving (ok : bool)
  | Running (slot : bool)
  | Releasing (e : ending)
  | Finished (r : result).

(** The elements in the channels [slots] and [queue], the goroutines that are parked on
    [slots], in the order they came, and all goroutines. *)
Record state : Type := State {
  slots : nat;
  queue : nat;
  parked : list nat;
  requests : gmap nat phase
}.
Definition initial : state := State 0 0 [] ∅.

(** What happens to a goroutine: it starts, it takes its next step, its timer fires, its
    handler ends. *)
Inductive action : Type := Arrive | Step | Timeout | HandlerEnds (e : ending).

Section throttle.
Context (max places : nat) (skipped : nat → bool).

(** A send to [slots] that finds room, a send that has to wait, a receive: if a goroutine is
    parked, its element takes the place of the one received. *)
Definition release (s : state) : option state :=
  match parked s with
  | j :: rest => Some (State (slots s) (queue s) rest (<[j := Leaving true]> (requests s)))
  | [] => match slots s with S n => Some (State n (queue s) [] (requests s)) | O => None end
  end.
Definition becomes (i : nat) (p : phase) (s : state) : state :=
  State (slots s) (queue s) (parked s) (<[i := p]> (requests s)).
Definition take_slot (s : state) : state := State (S (slots s)) (queue s) (parked s) (requests s).

Definition advance (i : nat) (a : action) (s : state) : option state :=
  match requests s !! i, a with
  | None, Arrive => Some (becomes i Entered s)
  | Some Entered, Step => Some (becomes i (if skipped i then Running false else Trying) s)
  | Some Trying, Step =>
      Some (if (slots s <? max)%nat then becomes i (Running true) (take_slot s)
            else if (places =? 0)%nat then becomes i (Finished Refused) s
            else becomes i Claiming s)
  | Some Claiming, Step =>
      Some (if (queue s <? places)%nat then
              becomes i Selecting (State (slots s) (S (queue s)) (parked s) (requests s))
            else becomes i (Finished Refused) s)
  | Some Selecting, Step =>
      Some (if (slots s <? max)%nat then becomes i (Leaving true) (take_slot s)
            else becomes i Parked (State (slots s) (queue s) (parked s ++ [i]) (requests s)))
  | Some Selecting, Timeout => Some (becomes i (Leaving false) s)
  | Some Parked, Timeout =>
      Some (becomes i (Leaving false) (State (slots s) (queue s) (filter (λ j, j ≠ i) (parked s)) (requests s)))
  | Some (Leaving ok), Step =>
      match queue s with
      | S n => Some (becomes i (if ok then Running true else Finished Refused) (State (slots s) n (parked s) (requests s)))
      | O => None
      end
  | Some (Running slot), HandlerEnds e =>
      Some (becomes i (if slot then Releasing e else Finished (Ended e)) s)
  | Some (Releasing e), Step => becomes i (Finished (Ended e)) <$> release s
  | _, _ => None
  end.

Definition step (s s' : state) : Prop := ∃ i a, advance i a s = Some s'.
Inductive reachable : state → Prop :=
  | reachable_initial : reachable initial
  | reachable_step s s' : reachable s → step s s' → reachable s'.

(** A run: the actions of goroutines, one after the other. *)
Fixpoint run (l : list (nat * action)) (s : state) : option state :=
  match l with
  | [] => Some s
  | (i, a) :: l' => s ← advance i a s; run l' s
  end.
End throttle.

(** * The middleware

    For a request by itself, between whose steps no other goroutine takes one, so that nobody
    frees a slot while it waits in [acquire] and its timer fires. *)
Record channels : Type := Channels { in_slots : nat; in_queue : nat }.

Section middleware.
Context (status_text : Z → string) (json_encode : payload → string).

Definition codeForStatus (status : Z) : string :=
  if (status =? 503)%Z then "service_unavailable"
  else if (status =? 429)%Z then "too_many_requests"
  else status_text status.

Definition free_slot (cfg : Config) (c : channels) : bool := (Z.of_nat (in_slots c) <? MaxConcurrent cfg)%Z.
Definition acquire (cfg : Config) : GoM channels bool := λ c,
  if free_slot cfg c then (Ret true, Channels (S (in_slots c)) (in_queue c))
  else if (QueueSize cfg =? 0)%Z then (Ret false, c)
  else if (Z.of_nat (in_queue c) <? QueueSize cfg)%Z then
    let waiting := Channels (in_slots c) (S (in_queue c)) in
    let (ok, after) :=
      if free_slot cfg waiting then (true, Channels (S (in_slots waiting)) (in_queue waiting))
      else (false, waiting) in
    (Ret ok, Channels (in_slots after) (pred (in_queue after)))
  else (Ret false, c).
Definition release_slot : GoM channels unit := go_mod (λ c, Channels (pred (in_slots c)) (in_queue c)).

Definition shouldSkipStdlib (cfg : Config) (path : string) (hasCtx : bool) (wd : World) : bool :=
  bool_decide (path ∈ SkipPaths cfg) ||
  match cfg_Skipper cfg with Some skip => hasCtx && skip wd | None => false end.
Definition shouldSkipNative (cfg : Config) (wd : World) : bool :=
  shouldSkipStdlib cfg (r_Path (c_req (w_ctx wd))) true wd.

Definition errorBody (cfg : Config) (rid : string) : payload :=
  PError (codeForStatus (StatusCode cfg)) (Message cfg) "" rid.
Definition writeJSONError (w : wref) (status : Z) (body : payload) : GoM World unit :=
  go_mod (wr_mod_header (header_set "Content-Type" "application/json; charset=utf-8")) ;;;
  go_mod (wr_WriteHeader w status) ;;;
  go_mod (wr_Write w (json_encode body)).

Definition native (cfg : Config) (next : GoM (World * channels) (option error))
    : GoM (World * channels) (option error) :=
  let! skip := on_fst (go_get (shouldSkipNative cfg)) in
  if (skip : bool) then next
  else
    let! ok := on_snd (acquire cfg) in
    if (ok : bool) then go_defer (on_snd release_slot) next
    else
      match cfg_Handler cfg with
      | Some h => on_fst h
      | None => go_ret (Some (AsApp (NewError (StatusCode cfg) (codeForStatus (StatusCode cfg)) (Message cfg))))
      end.

Definition stdlib (cfg : Config) (next : wref → request → GoM (World * channels) unit)
    (w : wref) (r : request) : GoM (World * channels) unit :=
  let! hasCtx := on_fst (contextFromRequest r) in
  let! skip := on_fst (go_get (shouldSkipStdlib cfg (r_Path r) hasCtx)) in
  if (skip : bool) then next w r
  else
    let! ok := on_snd (acquire cfg) in
    if (ok : bool) then go_defer (on_snd release_slot) (next w r)
    else on_fst (
      let refuse :=
        let! rid := if (hasCtx : bool) then get_ctx RequestID else go_ret "" in
        writeJSONError w (StatusCode cfg) (errorBody cfg rid) in
      match cfg_Handler cfg with
      | Some h =>
          if (hasCtx : bool) then
            let! err := h in
            match err with Some _ => refuse | None => go_ret tt end
          else refuse
      | None => refuse
      end).
End middleware.
