(* ===== verification/ThrottleLaws.v ===== *)
(** Laws of the throttle, over all interleavings of its requests: the bounds hold, nothing
    leaks, waiting requests are served in turn, and all requests end if their handlers do. *)
From S2P Require Import Prelude GoStrings Http Response.
From S2P Require Import Errors RequestContext App Throttle.
From stdpp Require Import gmap.
Local Open Scope nat_scope.

(** * Counting *)

Section counting.
Context {A : Type} (P : A → bool).

Definition tally (m : gmap nat A) : nat := size (filter (λ kv : nat * A, P kv.2 = true) m).
Definition one (a : A) : nat := if P a then 1 else 0.

Lemma tally_empty : tally ∅ = 0.
Proof. unfold tally. by rewrite map_filter_empty, map_size_empty. Qed.

Lemma tally_fresh m i a : m !! i = None → tally (<[i:=a]> m) = one a + tally m.
Proof.
  intros Hi. unfold tally, one. destruct (P a) eqn:Ea.
  - rewrite map_filter_insert_True by done. apply map_size_insert_None, map_lookup_filter_None. by left.
  - rewrite map_filter_insert_False by (cbn; congruence). by rewrite delete_id.
Qed.

Lemma tally_delete m i a : m !! i = Some a → tally m = one a + tally (delete i m).
Proof. intros Hi. rewrite <-(insert_delete_id m i a Hi) at 1. apply tally_fresh, lookup_delete_eq. Qed.

Lemma tally_change m i a b : m !! i = Some a → tally (<[i:=b]> m) + one a = tally m + one b.
Proof.
  intros Hi. rewrite (tally_delete m i a Hi), <-insert_delete_eq. rewrite tally_fresh by apply lookup_delete_eq. lia.
Qed.

Lemma tally_all m : (∀ i a, m !! i = Some a → P a = false) → tally m = 0.
Proof.
  intros H. unfold tally. replace (filter _ m) with (∅ : gmap nat A); [apply map_size_empty|].
  apply map_eq. intros i. rewrite lookup_empty. symmetry. apply map_lookup_filter_None. right. intros a Hi. cbn.
  by rewrite (H i a Hi).
Qed.

Lemma tally_one m i a : m !! i = Some a → one a ≤ tally m.
Proof. intros Hi. rewrite (tally_delete m i a Hi). lia. Qed.
End counting.

Lemma tally_mono {A} (P Q : A → bool) (m : gmap nat A) : (∀ a, P a = true → Q a = true) → tally P m ≤ tally Q m.
Proof.
  intros H. induction m as [|i a m Hi IH] using map_ind; [by rewrite !tally_empty|].
  rewrite !tally_fresh by done. unfold one. specialize (H a). destruct (P a); [rewrite H by done|destruct (Q a)]; lia.
Qed.

(** * The invariant *)

(** Who has a slot, who has a place in the queue, and whose handler runs. *)
Definition has_slot (p : phase) : bool :=
  match p with Leaving true | Running true | Releasing _ => true | _ => false end.
Definition has_place (p : phase) : bool :=
  match p with Selecting | Parked | Leaving _ => true | _ => false end.
Definition in_handler (p : phase) : bool := match p with Running true => true | _ => false end.

Section laws.
Context (max places : nat) (skipped : nat → bool).
Local Notation advance := (advance max places skipped).
Local Notation reachable := (reachable max places skipped).

Record throttle_ok (s : state) : Prop := {
  slots_held : slots s = tally has_slot (requests s);
  places_held : queue s = tally has_place (requests s);
  slots_bound : slots s ≤ max;
  places_bound : queue s ≤ places;
  parked_once : NoDup (parked s);
  parked_there i : i ∈ parked s ↔ requests s !! i = Some Parked;
  parked_full : parked s ≠ [] → slots s = max
}.

(** One goroutine moves on, and the counts of the channels follow. *)
Lemma parked_becomes i p q (l : list nat) (m : gmap nat phase) : m !! i = Some p → p ≠ Parked → q ≠ Parked →
  (∀ j, j ∈ l ↔ m !! j = Some Parked) → ∀ j, j ∈ l ↔ <[i:=q]> m !! j = Some Parked.
Proof.
  intros Hi Hp Hq H j. rewrite H. destruct (decide (i = j)) as [<-|Hj]; [|by rewrite lookup_insert_ne].
  rewrite lookup_insert_eq, Hi. split; congruence.
Qed.

Lemma moves_ok s i p q n m : throttle_ok s → requests s !! i = Some p → p ≠ Parked → q ≠ Parked →
  n + one has_slot p = slots s + one has_slot q → m + one has_place p = queue s + one has_place q →
  n ≤ max → m ≤ places → (parked s ≠ [] → n = max) →
  throttle_ok (State n m (parked s) (<[i:=q]> (requests s))).
Proof.
  intros [Hs Hq Hsb Hqb Ho Ht Hf] Hi Hp Hqq En Em Hn Hm Hfull.
  pose proof (tally_change has_slot _ i p q Hi). pose proof (tally_change has_place _ i p q Hi).
  split; cbn; try done; [lia..|]. by eapply parked_becomes.
Qed.

Lemma arrive_ok s i : throttle_ok s → requests s !! i = None → throttle_ok (becomes i Entered s).
Proof.
  intros [Hs Hq Hsb Hqb Ho Ht Hf] Hi. split; cbn; try done; [by rewrite tally_fresh..|].
  intros j. rewrite Ht. destruct (decide (i = j)) as [<-|]; [|by rewrite lookup_insert_ne].
  rewrite lookup_insert_eq, Hi. split; congruence.
Qed.

Lemma park_ok s i : throttle_ok s → requests s !! i = Some Selecting → slots s = max →
  throttle_ok (becomes i Parked (State (slots s) (queue s) (parked s ++ [i]) (requests s))).
Proof.
  intros [Hs Hq Hsb Hqb Ho Ht Hf] Hi Hfull.
  pose proof (tally_change has_slot _ i _ Parked Hi). pose proof (tally_change has_place _ i _ Parked Hi).
  unfold one in *. cbn in *. assert (i ∉ parked s) as Hn by (rewrite Ht, Hi; done).
  split; cbn; try done; [lia|lia| |].
  - apply NoDup_app. split; [done|]. split; [|apply NoDup_singleton]. by intros j Hj ->%list_elem_of_singleton.
  - intros j. rewrite elem_of_app, list_elem_of_singleton, Ht. destruct (decide (i = j)) as [<-|Hj].
    + rewrite lookup_insert_eq. naive_solver.
    + rewrite lookup_insert_ne by done. naive_solver.
Qed.

Lemma timeout_ok s i : throttle_ok s → requests s !! i = Some Parked →
  throttle_ok (becomes i (Leaving false) (State (slots s) (queue s) (filter (λ j, j ≠ i) (parked s)) (requests s))).
Proof.
  intros [Hs Hq Hsb Hqb Ho Ht Hf] Hi.
  pose proof (tally_change has_slot _ i _ (Leaving false) Hi). pose proof (tally_change has_place _ i _ (Leaving false) Hi).
  unfold one in *. cbn in *. split; cbn; try done; [lia|lia|by apply NoDup_filter| |].
  - intros j. rewrite list_elem_of_filter, Ht. destruct (decide (i = j)) as [<-|Hj].
    + rewrite lookup_insert_eq. naive_solver.
    + rewrite lookup_insert_ne by done. naive_solver.
  - intros H'. apply Hf. intros E. by rewrite E in H'.
Qed.

(** The receive of a slot: it is free again, or the first goroutine that waits has it. *)
Lemma release_slot_ok s i e s' : throttle_ok s → requests s !! i = Some (Releasing e) → release s = Some s' →
  throttle_ok (becomes i (Finished (Ended e)) s').
Proof.
  intros Hok Hi. pose proof Hok as [Hs Hq Hsb Hqb Ho Ht Hf]. unfold release.
  destruct (parked s) as [|j rest] eqn:E.
  - destruct (slots s) as [|n] eqn:En; [done|]. intros [= <-]. unfold becomes. cbn. rewrite <-E.
    eapply moves_ok; [done|done|done|done|unfold one; cbn; lia|unfold one; cbn; lia|lia|done|by rewrite E].
  - intros [= <-]. assert (requests s !! j = Some Parked) as Hj by (apply Ht; left).
    assert (i ≠ j) as Hij by congruence. apply NoDup_cons in Ho as [Hjr Ho].
    pose proof (tally_change has_slot _ j _ (Leaving true) Hj). pose proof (tally_change has_place _ j _ (Leaving true) Hj).
    assert (<[j:=Leaving true]> (requests s) !! i = Some (Releasing e)) as Hi' by (by rewrite lookup_insert_ne).
    pose proof (tally_change has_slot _ i _ (Finished (Ended e)) Hi'). pose proof (tally_change has_place _ i _ (Finished (Ended e)) Hi').
    unfold one in *. cbn in *. split; cbn; try done; [lia|lia| |].
    + eapply parked_becomes; [exact Hi'|done..|]. intros k. destruct (decide (j = k)) as [<-|Hk].
      * rewrite lookup_insert_eq. split; [done|congruence].
      * rewrite lookup_insert_ne, <-Ht, elem_of_cons by done. naive_solver.
    + intros _. by apply Hf.
Qed.

Lemma advance_ok i a s s' : throttle_ok s → advance i a s = Some s' → throttle_ok s'.
Proof.
  intros Hok. pose proof Hok as [Hs Hq Hsb Hqb Ho Ht Hf]. unfold Throttle.advance.
  destruct (requests s !! i) as [p|] eqn:Ei; [|destruct a; try done; intros [= <-]; by apply arrive_ok].
  assert (∀ q n m, p ≠ Parked → q ≠ Parked → n + one has_slot p = slots s + one has_slot q →
    m + one has_place p = queue s + one has_place q → n ≤ max → m ≤ places → (parked s ≠ [] → n = max) →
    throttle_ok (State n m (parked s) (<[i:=q]> (requests s)))) as Hm by (intros; by eapply moves_ok).
  unfold one in Hm. unfold becomes, take_slot.
  destruct p, a; try done; try (intros [= <-]); cbn -[Nat.ltb Nat.eqb] in *.
  - destruct (skipped i); apply Hm; try done; cbn; lia.
  - destruct (Nat.ltb_spec (slots s) max); [|destruct (places =? 0)]; apply Hm; try done; try (cbn; lia).
    intros H'%Hf. lia.
  - destruct (Nat.ltb_spec (queue s) places); apply Hm; try done; cbn; lia.
  - destruct (Nat.ltb_spec (slots s) max).
    + apply Hm; try done; try (cbn; lia). intros H'%Hf. lia.
    + apply park_ok; [done|done|lia].
  - apply Hm; try done; cbn; lia.
  - by apply timeout_ok.
  - destruct (queue s) as [|n] eqn:En; [done|]. intros [= <-]. destruct ok; apply Hm; try done; cbn; lia.
  - destruct slot; apply Hm; try done; cbn; lia.
  - destruct (release s) as [s1|] eqn:Er; [|done]. intros [= <-]. by eapply release_slot_ok.
Qed.

Lemma reachable_throttle_ok s : reachable s → throttle_ok s.
Proof.
  induction 1 as [|s s' _ IH (i & a & H)]; [|by eapply advance_ok].
  split; cbn; try done; try lia; [by rewrite tally_empty..|constructor|].
  intros i. rewrite elem_of_nil, lookup_empty. done.
Qed.

(** * Measures *)

(** The steps a request has left at most. *)
Definition steps_left (p : phase) : nat :=
  match p with
  | Entered => 8 | Trying => 7 | Claiming => 6 | Selecting => 5 | Parked => 4 | Leaving _ => 3 | Running _ => 2
  | Releasing _ => 1 | Finished _ => 0
  end.
Definition at_least (k : nat) (p : phase) : bool := k <=? steps_left p.
Fixpoint total (n : nat) (m : gmap nat phase) : nat :=
  match n with O => 0 | S k => tally (at_least n) m + total k m end.

Lemma total_change n m i p q : m !! i = Some p → total n (<[i:=q]> m) + steps_left p `min` n = total n m + steps_left q `min` n.
Proof.
  intros Hi. induction n as [|n IH]; cbn [total]; [lia|].
  pose proof (tally_change (at_least (S n)) m i p q Hi) as H. unfold one, at_least in H.
  destruct (Nat.leb_spec (S n) (steps_left p)), (Nat.leb_spec (S n) (steps_left q)); unfold at_least in *; lia.
Qed.

Lemma steps_left_bound p : steps_left p ≤ 8.
Proof. destruct p; cbn; lia. Qed.

Lemma total_bound n m : total n m ≤ n * size m.
Proof.
  induction n as [|n IH]; cbn [total]; [lia|]. assert (tally (at_least (S n)) m ≤ size m); [|lia].
  unfold tally. apply map_size_filter.
Qed.

(** The steps that are left of all requests. *)
Definition left (s : state) : nat := total 8 (requests s).

Lemma left_becomes i p q m : m !! i = Some p → total 8 (<[i:=q]> m) + steps_left p = total 8 m + steps_left q.
Proof.
  intros Hi. pose proof (total_change 8 m i p q Hi). pose proof (steps_left_bound p). pose proof (steps_left_bound q). lia.
Qed.

Lemma advance_left i a s s' : a ≠ Arrive → throttle_ok s → advance i a s = Some s' → left s' < left s.
Proof.
  intros Ha Hok. unfold Throttle.advance, left. destruct (requests s !! i) as [p|] eqn:Ei; [|by destruct a].
  pose proof (λ q, left_becomes i p q _ Ei) as Hl. unfold becomes, take_slot.
  destruct p, a; try done; try (intros [= <-]); cbn -[total Nat.ltb Nat.eqb] in *.
  - specialize (Hl (if skipped i then Running false else Trying)). destruct (skipped i); cbn -[total] in *; lia.
  - destruct (slots s <? max); [|destruct (places =? 0)]; cbn -[total] in *;
      [specialize (Hl (Running true))|specialize (Hl (Finished Refused))|specialize (Hl Claiming)]; cbn -[total] in Hl; lia.
  - destruct (queue s <? places); cbn -[total] in *; [specialize (Hl Selecting)|specialize (Hl (Finished Refused))]; cbn -[total] in Hl; lia.
  - destruct (slots s <? max); cbn -[total] in *; [specialize (Hl (Leaving true))|specialize (Hl Parked)]; cbn -[total] in Hl; lia.
  - specialize (Hl (Leaving false)). cbn -[total] in Hl. lia.
  - specialize (Hl (Leaving false)). cbn -[total] in Hl. lia.
  - destruct (queue s); [done|]. intros [= <-]. cbn -[total]. specialize (Hl (if ok then Running true else Finished Refused)).
    destruct ok; cbn -[total] in *; lia.
  - specialize (Hl (if slot then Releasing e else Finished (Ended e))). destruct slot; cbn -[total] in *; lia.
  - destruct (release s) as [s1|] eqn:Er; [|done]. intros [= <-]. cbn -[total]. unfold release in Er.
    destruct (parked s) as [|j rest] eqn:Ep.
    + destruct (slots s); [done|]. injection Er as <-. cbn -[total]. specialize (Hl (Finished (Ended e))). cbn -[total] in Hl. lia.
    + injection Er as <-. cbn -[total]. assert (requests s !! j = Some Parked) as Hj by (apply (parked_there _ Hok); rewrite Ep; left).
      assert (<[j:=Leaving true]> (requests s) !! i = Some (Releasing e)) as Hi' by (rewrite lookup_insert_ne; congruence).
      pose proof (left_becomes j _ (Leaving true) _ Hj) as H1. pose proof (left_becomes i _ (Finished (Ended e)) _ Hi') as H2.
      cbn -[total] in H1, H2. lia.
Qed.

(** A request that is not done can take a step; if it waits, at least by its timer. *)
Lemma advance_progress i p s : throttle_ok s → requests s !! i = Some p →
  (∃ r, p = Finished r) ∨ ∃ a s', a ≠ Arrive ∧ advance i a s = Some s'.
Proof.
  intros Hok Hi. pose proof (slots_held _ Hok) as Hs. pose proof (places_held _ Hok) as Hq.
  pose proof (tally_one has_slot _ i p Hi) as H1. pose proof (tally_one has_place _ i p Hi) as H2. unfold one in *.
  unfold Throttle.advance. rewrite Hi. destruct p; cbn in *; eauto.
  - right. by exists Step; eexists.
  - right. by exists Step; eexists.
  - right. by exists Step; eexists.
  - right. by exists Step; eexists.
  - right. by exists Timeout; eexists.
  - right. destruct (queue s) as [|n]; [lia|]. by exists Step; eexists.
  - right. by exists (HandlerEnds Returned); eexists.
  - right. exists Step. unfold release. destruct (parked s); [|by eexists]. destruct (slots s); [lia|]. by eexists.
Qed.

(** * Properties *)

Definition waits (p : phase) : bool := match p with Selecting | Parked => true | _ => false end.
Definition finished (s : state) : Prop := ∀ i p, requests s !! i = Some p → ∃ r, p = Finished r.

(** [C30] At every moment, however the requests are interleaved, at most the configured number
    of handlers run and at most the configured number of requests wait; and when all requests
    are done, whether they returned, panicked, were refused or gave up, both channels
    are empty again. *)
Theorem throttle_bounds s : reachable s →
  tally in_handler (requests s) ≤ max ∧ tally waits (requests s) ≤ places ∧
  (finished s → slots s = 0 ∧ queue s = 0 ∧ parked s = []).
Proof.
  intros Hr. pose proof (reachable_throttle_ok s Hr) as [Hs Hq Hsb Hqb Ho Ht Hf]. split; [|split].
  - etransitivity; [|exact Hsb]. rewrite Hs. apply tally_mono. by intros [| | | | | |[]| |].
  - etransitivity; [|exact Hqb]. rewrite Hq. apply tally_mono. by intros [| | | | | | | |].
  - intros Hd. rewrite Hs, Hq. split; [|split].
    + apply tally_all. by intros i p [r ->]%Hd.
    + apply tally_all. by intros i p [r ->]%Hd.
    + destruct (parked s) as [|j rest]; [done|]. destruct (Ht j) as [Hj _]. destruct (Hd j Parked) as [r Hr']; [apply Hj; left|done].
Qed.

(** Who has a slot after a step had one before, or is the first that waits, or nobody waits. *)
Definition in_turn (s s' : state) : Prop := ∀ k p, requests s' !! k = Some p → has_slot p = true →
  (∃ q, requests s !! k = Some q ∧ has_slot q = true) ∨ parked s = [] ∨ head (parked s) = Some k.

Lemma in_turn_moves s i q n m l :
  (has_slot q = true → parked s = [] ∨ ∃ p, requests s !! i = Some p ∧ has_slot p = true) →
  in_turn s (State n m l (<[i:=q]> (requests s))).
Proof.
  intros Hq k p. cbn. destruct (decide (i = k)) as [<-|Hk]; [|rewrite lookup_insert_ne by done; eauto].
  rewrite lookup_insert_eq. intros [= <-] [Hp|Hp]%Hq; auto.
Qed.

Lemma in_turn_release s i e s1 : requests s !! i = Some (Releasing e) → release s = Some s1 →
  in_turn s (becomes i (Finished (Ended e)) s1).
Proof.
  intros Hi. unfold release, becomes. destruct (parked s) as [|j rest] eqn:Ep.
  - destruct (slots s) as [|n]; [done|]. intros [= <-]. by apply (in_turn_moves s i).
  - intros [= <-] k q. cbn. destruct (decide (i = k)) as [<-|Hk]; [rewrite lookup_insert_eq; by intros [= <-]|].
    rewrite lookup_insert_ne by done. destruct (decide (j = k)) as [<-|Hj]; [rewrite Ep; auto|].
    rewrite lookup_insert_ne by done. eauto.
Qed.

Lemma advance_in_turn i a s s' : throttle_ok s → advance i a s = Some s' → in_turn s s'.
Proof.
  intros Hok. assert (slots s < max → parked s = []) as Hfree.
  { intros Hlt. pose proof (parked_full _ Hok) as Hf. destruct (parked s); [done|]. specialize (Hf ltac:(done)). lia. }
  unfold Throttle.advance. destruct (requests s !! i) as [p|] eqn:Ei;
    [|destruct a; try done; intros [= <-]; by apply in_turn_moves].
  unfold becomes, take_slot.
  destruct p, a; try done; try (intros [= <-]); cbn -[Nat.ltb Nat.eqb].
  - apply in_turn_moves. by destruct (skipped i).
  - destruct (Nat.ltb_spec (slots s) max); [apply in_turn_moves; auto|].
    destruct (places =? 0); by apply in_turn_moves.
  - destruct (queue s <? places); by apply in_turn_moves.
  - destruct (Nat.ltb_spec (slots s) max); apply in_turn_moves; [auto|done].
  - by apply in_turn_moves.
  - by apply in_turn_moves.
  - destruct (queue s); [done|]. intros [= <-]. apply in_turn_moves. destruct ok; [|done]. right. by eexists.
  - apply in_turn_moves. destruct slot; [|done]. right. by eexists.
  - destruct (release s) as [s1|] eqn:Er; [|done]. intros [= <-]. by eapply in_turn_release.
Qed.

(** A request that waits is never overtaken: while requests are parked, the only one
    that can get a slot is the first of them; and a request is refused at once only when all
    slots are taken and there is no queue, or when the queue is full. *)
Theorem throttle_fair s i a s' : reachable s → advance i a s = Some s' →
  in_turn s s' ∧
  (requests s' !! i = Some (Finished Refused) →
   (requests s !! i = Some Trying ∧ slots s = max ∧ places = 0) ∨
   (requests s !! i = Some Claiming ∧ queue s = places) ∨
   requests s !! i = Some (Leaving false)).
Proof.
  intros Hr%reachable_throttle_ok Ha. split; [by eapply advance_in_turn|]. revert Ha.
  pose proof (slots_bound _ Hr). pose proof (places_bound _ Hr). unfold Throttle.advance.
  destruct (requests s !! i) as [p|] eqn:Ei;
    [|destruct a; try done; intros [= <-]; cbn; rewrite lookup_insert_eq; congruence].
  destruct p, a; try done; try (intros [= <-]); cbn -[Nat.ltb Nat.eqb]; rewrite ?lookup_insert_eq; try done.
  - by destruct (skipped i).
  - destruct (Nat.ltb_spec (slots s) max); cbn -[Nat.eqb]; [by rewrite lookup_insert_eq|].
    destruct (Nat.eqb_spec places 0); cbn; rewrite lookup_insert_eq; [|done]. intros _. left. split; [done|lia].
  - destruct (Nat.ltb_spec (queue s) places); cbn; rewrite lookup_insert_eq; [done|]. intros _. right; left. split; [done|lia].
  - destruct (Nat.ltb_spec (slots s) max); cbn; by rewrite lookup_insert_eq.
  - destruct (queue s); [done|]. intros [= <-]. cbn. rewrite lookup_insert_eq. destruct ok; [done|auto].
  - by destruct slot.
  - destruct (release s) as [s1|]; [|done]. intros [= <-]. cbn. by rewrite lookup_insert_eq.
Qed.

(** Requests end: every request that is not done can take a step, one that waits at least
    by its timer; and without new requests the steps run out, at most eight for each, so
    that all requests are done if their handlers end. *)
Theorem throttle_ends s : reachable s →
  (∀ i p, requests s !! i = Some p → (∃ r, p = Finished r) ∨ ∃ a s', a ≠ Arrive ∧ advance i a s = Some s') ∧
  (∀ l s', Forall (λ x : nat * action, x.2 ≠ Arrive) l → run max places skipped l s = Some s' →
     length l ≤ 8 * size (requests s)).
Proof.
  intros Hr%reachable_throttle_ok. split; [intros i p; by apply advance_progress|]. intros l s' Hl Hrun.
  assert (length l + left s' ≤ left s) as H; [|pose proof (total_bound 8 (requests s)); unfold left in *; lia].
  revert s Hr Hrun. induction Hl as [|[i a] l Ha _ IH]; intros s Hr; cbn [run length]; [intros [= <-]; lia|].
  destruct (advance i a s) as [s1|] eqn:E; [|done]. cbn -[left]. intros Hrun.
  pose proof (advance_left i a s s1 Ha Hr E). specialize (IH s1 (advance_ok _ _ _ _ Hr E) Hrun). lia.
Qed.
End laws.

(** * The middleware *)

(** The handler leaves the channels as it finds them. *)
Definition balanced {A} (m : GoM (World * channels) A) : Prop := ∀ wd c, ((m (wd, c)).2).2 = c.

Lemma balanced_defer {A} (m : GoM (World * channels) A) wd c : balanced m →
  let out := go_defer (on_snd release_slot) m (wd, Channels (S (in_slots c)) (in_queue c)) in
  out.2.2 = c ∧ out.1 = (m (wd, Channels (S (in_slots c)) (in_queue c))).1.
Proof.
  intros Hm. unfold go_defer. specialize (Hm wd (Channels (S (in_slots c)) (in_queue c))).
  destruct (m _) as [o [wd' c']]. cbn in *. subst c'. by destruct c.
Qed.

Lemma acquire_cases cfg c : acquire cfg c =
  if free_slot cfg c then (Ret true, Channels (S (in_slots c)) (in_queue c)) else (Ret false, c).
Proof.
  unfold acquire. change (free_slot cfg (Channels (in_slots c) (S (in_queue c)))) with (free_slot cfg c).
  destruct (free_slot cfg c); [done|]. destruct (_ =? _)%Z; [done|]. destruct (_ <? _)%Z; [|done]. by destruct c.
Qed.

(** A request by itself gives its slot back, whether its handler returns or panics, and the
    handler's result is the middleware's; without a slot the handler does not run. *)
Theorem slot_given_back status_text cfg next wd c : balanced next →
  let out := native status_text cfg next (wd, c) in
  out.2.2 = c ∧
  (shouldSkipNative cfg wd = true → out = next (wd, c)) ∧
  (shouldSkipNative cfg wd = false → free_slot cfg c = true →
     out.1 = (next (wd, Channels (S (in_slots c)) (in_queue c))).1) ∧
  (shouldSkipNative cfg wd = false → free_slot cfg c = false → cfg_Handler cfg = None → ∀ next',
     native status_text cfg next' (wd, c) =
       (Ret (Some (AsApp (NewError (StatusCode cfg) (codeForStatus status_text (StatusCode cfg)) (Message cfg)))), (wd, c))).
Proof.
  intros Hn. unfold native, go_bind, on_fst, on_snd, go_get. cbn zeta.
  destruct (shouldSkipNative cfg wd); [by rewrite Hn|]. rewrite acquire_cases. destruct (free_slot cfg c).
  - destruct (balanced_defer next wd c Hn) as [H1 H2]. done.
  - split_and!; try done; [|by intros _ _ ->]. destruct (cfg_Handler cfg) as [h|]; [|done]. by destruct (h wd).
Qed.

(** The steps of one goroutine. *)
Definition alone (i : nat) (l : list (nat * action)) : Prop := Forall (λ x : nat * action, x.1 = i) l.

Lemma run_step max places skipped i a l s s1 s' :
  advance max places skipped i a s = Some s1 → run max places skipped l s1 = Some s' →
  run max places skipped ((i, a) :: l) s = Some s'.
Proof. intros H1 H2. cbn [run]. by rewrite H1. Qed.

Ltac goroutine_step :=
  eapply run_step;
    [unfold advance; cbn [requests becomes]; rewrite ?lookup_insert_eq;
     repeat match goal with H : _ !! _ = Some _ |- _ => rewrite H | H : Nat.ltb _ _ = _ |- _ => rewrite H
       | H : Nat.eqb _ _ = _ |- _ => rewrite H end; cbn [queue slots becomes];
     repeat match goal with H : Nat.ltb _ _ = _ |- _ => rewrite H end; reflexivity|].

(** What [acquire] answers by itself and does to the channels is what the steps of its
    goroutine do, its timer included, in whatever state the channels are. *)
Theorem acquire_steps cfg skipped s i c ok c' : (0 < MaxConcurrent cfg)%Z → (0 <= QueueSize cfg)%Z →
  requests s !! i = Some Trying → c = Channels (slots s) (queue s) → acquire cfg c = (Ret ok, c') →
  ∃ l s', alone i l ∧
    run (Z.to_nat (MaxConcurrent cfg)) (Z.to_nat (QueueSize cfg)) skipped l s = Some s' ∧
    requests s' = <[i := if ok then Running true else Finished Refused]> (requests s) ∧
    slots s' = in_slots c' ∧ queue s' = in_queue c'.
Proof.
  intros Hm Hq Hi -> Ha. set (max := Z.to_nat (MaxConcurrent cfg)). set (places := Z.to_nat (QueueSize cfg)).
  assert (free_slot cfg (Channels (slots s) (queue s)) = (slots s <? max)%nat) as Ef.
  { apply eq_true_iff_eq. unfold free_slot. cbn -[Nat.ltb]. rewrite Z.ltb_lt, Nat.ltb_lt. lia. }
  rewrite acquire_cases, Ef in Ha. destruct (slots s <? max) eqn:Es; injection Ha as <- <-;
    [|destruct (places =? 0) eqn:Ep; [|destruct (queue s <? places) eqn:Eq]].
  - exists [(i, Step)]. eexists. split; [by repeat constructor|]. split; [goroutine_step; reflexivity|done].
  - exists [(i, Step)]. eexists. split; [by repeat constructor|]. split; [goroutine_step; reflexivity|done].
  - exists [(i, Step); (i, Step); (i, Timeout); (i, Step)]. eexists. split; [by repeat constructor|].
    split; [do 4 goroutine_step; reflexivity|]. cbn. by rewrite !insert_insert_eq.
  - exists [(i, Step); (i, Step)]. eexists. split; [by repeat constructor|].
    split; [do 2 goroutine_step; reflexivity|]. cbn. by rewrite !insert_insert_eq.
Qed.

(** * Examples and witnesses *)

(** Two slots and one place in the queue: the first two requests run, the third waits, the
    fourth is refused, and the third runs as soon as the first panics. *)
Definition crowd : list (nat * action) :=
  [(1, Arrive); (1, Step); (1, Step); (2, Arrive); (2, Step); (2, Step);
   (3, Arrive); (3, Step); (3, Step); (3, Step); (3, Step);
   (4, Arrive); (4, Step); (4, Step); (4, Step);
   (1, HandlerEnds Panicked); (1, Step); (3, Step)].
Definition after_crowd : option state := run 2 1 (λ _, false) crowd initial.

Example crowd_served :
  (λ s, (slots s, queue s, parked s, map (λ i, requests s !! i) [1; 2; 3; 4])) <$> after_crowd =
  Some (2, 0, [], [Some (Finished (Ended Panicked)); Some (Running true); Some (Running true); Some (Finished Refused)]).
Proof. vm_compute. reflexivity. Qed.

Lemma run_reachable max places skipped l s s' :
  reachable max places skipped s → run max places skipped l s = Some s' → reachable max places skipped s'.
Proof.
  revert s. induction l as [|[i a] l IH]; intros s Hs; cbn [run]; [by intros [= <-]|].
  destruct (advance _ _ _ i a s) as [s1|] eqn:E; [|done]. cbn. apply IH. eapply reachable_step; [exact Hs|by exists i, a].
Qed.

Lemma throttle_bounds_witness : ∃ s, after_crowd = Some s ∧ tally in_handler (requests s) ≤ 2.
Proof.
  destruct after_crowd as [s|] eqn:E; [|vm_compute in E; discriminate E]. exists s. split; [reflexivity|].
  apply (throttle_bounds 2 1 (λ _, false) s). eapply run_reachable; [apply reachable_initial|exact E].
Defined.

(** The second of two requests waits for the only slot; the first one is done. *)
Definition waiting : list (nat * action) :=
  [(1, Arrive); (1, Step); (1, Step); (2, Arrive); (2, Step); (2, Step); (2, Step); (2, Step); (1, HandlerEnds Returned)].

Lemma throttle_fair_witness : ∃ s s', run 1 1 (λ _, false) waiting initial = Some s ∧
  advance 1 1 (λ _, false) 1 Step s = Some s' ∧ requests s' !! 2 = Some (Leaving true) ∧
  head (parked s) = Some 2 ∧ in_turn s s'.
Proof.
  destruct (run 1 1 (λ _, false) waiting initial) as [s|] eqn:E; [|vm_compute in E; discriminate E].
  destruct (advance 1 1 (λ _, false) 1 Step s) as [s'|] eqn:E'; [|vm_compute in E; injection E as <-; vm_compute in E'; discriminate E'].
  exists s, s'. assert (reachable 1 1 (λ _, false) s) as Hr by (eapply run_reachable; [apply reachable_initial|exact E]).
  destruct (throttle_fair 1 1 (λ _, false) s 1 Step s' Hr E') as [H _]. split; [done|]. split; [done|].
  assert (requests s' !! 2 = Some (Leaving true) ∧ head (parked s) = Some 2) as [H1 H2]; [|done].
  vm_compute in E. injection E as <-. vm_compute in E'. injection E' as <-. split; reflexivity.
Defined.

Lemma throttle_ends_witness : ∃ s, after_crowd = Some s ∧
  ∀ l s', Forall (λ x : nat * action, x.2 ≠ Arrive) l → run 2 1 (λ _, false) l s = Some s' → length l ≤ 32.
Proof.
  destruct after_crowd as [s|] eqn:E; [|vm_compute in E; discriminate E]. exists s. split; [reflexivity|].
  assert (reachable 2 1 (λ _, false) s) as Hr by (eapply run_reachable; [apply reachable_initial|exact E]).
  destruct (throttle_ends 2 1 (λ _, false) s Hr) as [_ H]. intros l s' Hl Hrun.
  vm_compute in E. injection E as <-. exact (H l s' Hl Hrun).
Defined.

(** One slot, taken, and a queue with a free place: the request waits and gives up. *)
Lemma acquire_steps_witness :
  let cfg := MkConfig 1 2 503 "busy" None None ∅ in
  let s := State 1 1 [] {[5 := Trying]} in
  ∃ l s', alone 5 l ∧ run 1 2 (λ _, false) l s = Some s' ∧
    requests s' = <[5 := Finished Refused]> (requests s) ∧ slots s' = 1 ∧ queue s' = 1.
Proof.
  intros cfg s.
  exact (acquire_steps cfg (λ _, false) s 5 (Channels 1 1) false (Channels 1 1)
    ltac:(cbn; lia) ltac:(cbn; lia) ltac:(reflexivity) ltac:(reflexivity) ltac:(reflexivity)).
Defined.
