(* ===== verification/Sha256.v ===== *)
(** SHA-256 (crypto/sha256) and HMAC over it (crypto/hmac), executable: strings are bytes,
    words are integers of 32 bits. *)
From S2P Require Import Prelude GoStrings.
Local Open Scope Z_scope.

Definition w32 (z : Z) : Z := Z.land z 0xffffffff.
Definition rotr (n x : Z) : Z := Z.lor (Z.shiftr x n) (w32 (Z.shiftl x (32 - n))).

(** The constants are the first 32 bits of the fractional parts of roots of primes. *)
Definition primes (below : nat) : list Z :=
  map Z.of_nat (List.filter (λ n, forallb (λ d, negb (n mod d =? 0)%nat) (seq 2 (n - 2))) (seq 2 (below - 2))).
Fixpoint cube_root (bits : nat) (n r : Z) : Z :=
  match bits with
  | O => r
  | S k => let r' := r + Z.shiftl 1 (Z.of_nat k) in cube_root k n (if r' ^ 3 <=? n then r' else r)
  end.

Definition round_constants : list Z := Eval vm_compute in
  map (λ p, w32 (cube_root 36 (Z.shiftl p 96) 0)) (primes 312).
Definition initial_hash : list Z := Eval vm_compute in
  map (λ p, w32 (Z.sqrt (Z.shiftl p 64))) (primes 20).

(** The bytes of a string, and the string of bytes. *)
Fixpoint codes (s : string) : list Z :=
  match s with EmptyString => [] | String a s' => code a :: codes s' end.

(** Big-endian words: [n] bytes of a number, and the words of bytes. *)
Fixpoint big_endian (n : nat) (z : Z) : list Z :=
  match n with O => [] | S k => Z.land (Z.shiftr z (8 * Z.of_nat k)) 255 :: big_endian k z end.
Fixpoint words (l : list Z) : list Z :=
  match l with
  | a :: b :: c :: d :: l' => (Z.shiftl a 24 + Z.shiftl b 16 + Z.shiftl c 8 + d) :: words l'
  | _ => []
  end.

(** The message with its padding: a bit, zeros up to 8 bytes before a block ends, and its
    length in bits. *)
Definition padded (l : list Z) : list Z :=
  let n := Z.of_nat (length l) in
  l ++ 0x80 :: replicate (Z.to_nat ((55 - n) mod 64)) 0 ++ big_endian 8 (8 * n).

Definition sigma (a b c x : Z) : Z := Z.lxor (Z.lxor (rotr a x) (rotr b x)) c.

(** The schedule of a block, its newest word first. *)
Fixpoint schedule (n : nat) (w : list Z) : list Z :=
  match n with
  | O => w
  | S k =>
      let at_ i := nth i w 0 in
      let s0 := sigma 7 18 (Z.shiftr (at_ 14%nat) 3) (at_ 14%nat) in
      let s1 := sigma 17 19 (Z.shiftr (at_ 1%nat) 10) (at_ 1%nat) in
      schedule k (w32 (at_ 15%nat + s0 + at_ 6%nat + s1) :: w)
  end.

Definition round (h : list Z) (kw : Z * Z) : list Z :=
  match h with
  | [a; b; c; d; e; f; g; x] =>
      let s1 := sigma 6 11 (rotr 25 e) e in
      let ch := Z.lxor (Z.land e f) (Z.land (Z.lxor e 0xffffffff) g) in
      let t1 := x + s1 + ch + kw.1 + kw.2 in
      let s0 := sigma 2 13 (rotr 22 a) a in
      let maj := Z.lxor (Z.lxor (Z.land a b) (Z.land a c)) (Z.land b c) in
      [w32 (t1 + s0 + maj); a; b; c; w32 (d + t1); e; f; g]
  | _ => h
  end.

Definition compress (h block : list Z) : list Z :=
  let w := rev (schedule 48 (rev block)) in
  zip_with (λ x y, w32 (x + y)) h (foldl round h (zip round_constants w)).

Fixpoint blocks (fuel : nat) (h w : list Z) : list Z :=
  match fuel, w with
  | S n, _ :: _ => blocks n (compress h (take 16 w)) (drop 16 w)
  | _, _ => h
  end.

Definition digest (l : list Z) : list Z :=
  let w := words (padded l) in
  concat (map (big_endian 4) (blocks (length w) initial_hash w)).

(** [sha256.Sum256] and [hmac.New(sha256.New, key)] with one write. *)
Definition Sum256 (s : string) : string := of_codes (digest (codes s)).

Definition hmac_sha256 (key msg : string) : string :=
  let k := codes key in
  let k := if (64 <? length k)%nat then digest k else k in
  let k := k ++ replicate (64 - length k) 0 in
  of_codes (digest (map (Z.lxor 0x5c) k ++ digest (map (Z.lxor 0x36) k ++ codes msg))).

(** The digests of the standard's examples. *)
Definition hex_of (s : string) : Z := foldl (λ z b, 256 * z + b) 0 (codes s).
Example digest_empty :
  hex_of (Sum256 "") = 0xe3b0c44298fc1c149afbf4c8996fb92427ae41e4649b934ca495991b7852b855.
Proof. vm_compute. reflexivity. Qed.
Example digest_abc :
  hex_of (Sum256 "abc") = 0xba7816bf8f01cfea414140de5dae2223b00361a396177a9cb410ff61f20015ad.
Proof. vm_compute. reflexivity. Qed.
Example digest_two_blocks :
  hex_of (Sum256 "abcdbcdecdefdefgefghfghighijhijkijkljklmklmnlmnomnopnopq") =
  0x248d6a61d20638b8e5c026930c3e6039a33ce45964ff2167f6ecedd419db06c1.
Proof. vm_compute. reflexivity. Qed.
Example hmac_jefe :
  hex_of (hmac_sha256 "Jefe" "what do ya want for nothing?") =
  0x5bdcc146bf60754e6a042426089575c75a003f089d2739839dec58b964ec3843.
Proof. vm_compute. reflexivity. Qed.

(** * Lengths *)

Lemma big_endian_length n z : length (big_endian n z) = n.
Proof. induction n as [|n IH]; cbn; [done|]. by rewrite IH. Qed.

Lemma of_codes_length l : String.length (of_codes l) = length l.
Proof. induction l as [|z l IH]; cbn; [done|]. by rewrite <-IH. Qed.

Lemma round_length h kw : length h = 8%nat → length (round h kw) = 8%nat.
Proof. by destruct h as [|? [|? [|? [|? [|? [|? [|? [|? [|? ?]]]]]]]]]. Qed.

Lemma rounds_length l h : length h = 8%nat → length (foldl round h l) = 8%nat.
Proof. revert h. induction l as [|kw l IH]; intros h Hh; [done|]. cbn. apply IH. by apply round_length. Qed.

Lemma blocks_length n h w : length h = 8%nat → length (blocks n h w) = 8%nat.
Proof.
  revert h w. induction n as [|n IH]; intros h w Hh; [done|]. destruct w; [done|]. apply IH.
  unfold compress. rewrite length_zip_with, rounds_length by done. by rewrite Hh.
Qed.

Lemma digest_length l : length (digest l) = 32%nat.
Proof.
  unfold digest. set (h := blocks _ _ _). assert (length h = 8%nat) as Hh by (by apply blocks_length).
  destruct h as [|? [|? [|? [|? [|? [|? [|? [|? [|? ?]]]]]]]]]; try done.
Qed.

Lemma Sum256_length s : String.length (Sum256 s) = 32%nat.
Proof. unfold Sum256. by rewrite of_codes_length, digest_length. Qed.
Lemma hmac_sha256_length k s : String.length (hmac_sha256 k s) = 32%nat.
Proof. unfold hmac_sha256. by rewrite of_codes_length, digest_length. Qed.
