(* ===== verification/HmacCanonical.v ===== *)
(** The text that a client signs (plugins/hmacauth/canonical.go): method, path, query, digest
    of the body, time and nonce. Requests with one text agree in all of these. *)
From S2P Require Import Prelude GoStrings Sha256.
From stdpp Require Import gmap sorting pretty.

(** * Queries *)

(** [url.Values], and [r.URL.Query()], which leaves out what it cannot decode. *)
Abbreviation Values := (gmap string (list string)).

Definition plus_to_space (s : string) : string := string_map (λ a, if Ascii.eqb a "+" then " "%char else a) s.
Definition QueryUnescape (s : string) : option string := path_unescape (plus_to_space s).
Definition cut_pair (s : string) : string * string :=
  match cut_byte "=" s with Some kv => kv | None => (s, "") end.
Definition Query (raw : string) : Values :=
  foldl (λ m part,
    if String.eqb part "" || contains_byte ";" part then m
    else
      let '(k, v) := cut_pair part in
      match QueryUnescape k, QueryUnescape v with
      | Some k, Some v => <[k := default [] (m !! k) ++ [v]]> m
      | _, _ => m
      end) ∅ (split_byte "&" raw).

(** [sort.Strings]. *)
Definition sort_Strings (l : list string) : list string := merge_sort String.le l.

Definition hex_digit (upper : bool) (d : Z) : ascii :=
  of_code (if (d <? 10)%Z then 48 + d else if upper then 55 + d else 87 + d)%Z.

Definition isUnreserved (c : ascii) : bool :=
  is_upper c || is_lower c || is_digit c ||
  Ascii.eqb c "-" || Ascii.eqb c "." || Ascii.eqb c "_" || Ascii.eqb c "~".

Fixpoint percent_bytes (s : string) : string :=
  match s with
  | EmptyString => EmptyString
  | String c s' =>
      if isUnreserved c then String c (percent_bytes s')
      else String "%" (String (hex_digit true (Z.shiftr (code c) 4))
             (String (hex_digit true (Z.land (code c) 15)) (percent_bytes s')))
  end.
Definition percentEncode (s : string) : string :=
  if string_all isUnreserved s then s else percent_bytes s.

(** The builder of [canonicalQuery] and its flag [first]. *)
Definition write_pair (ek : string) (st : string * bool) (v : string) : string * bool :=
  let '(b, first) := st in
  ((if first : bool then b else b +:+ "&") +:+ ek +:+ "=" +:+ percentEncode v, false).
Definition write_key (values : Values) (st : string * bool) (k : string) : string * bool :=
  foldl (write_pair (percentEncode k)) st (sort_Strings (default [] (values !! k))).

Definition canonicalQuery (values : Values) : string :=
  if (size values =? 0)%nat then ""
  else (foldl (write_key values) ("", true) (sort_Strings (map fst (map_to_list values)))).1.

(** * Requests *)

Fixpoint appendHex (dst src : string) : string :=
  match src with
  | EmptyString => dst
  | String b src' =>
      appendHex (dst +:+ String (hex_digit false (Z.shiftr (code b) 4))
        (String (hex_digit false (Z.land (code b) 15)) "")) src'
  end.

Definition newline : string := String "010" "".

(** Methods are tokens of ASCII, for which [strings.ToUpper] maps bytes. *)
Definition ToUpper (s : string) : string := string_map to_upper_byte s.

Definition canonicalRequest (method path : string) (query : Values) (body : string)
    (timestamp : Z) (nonce : string) : string :=
  let bodyHash := Sum256 body in
  let q := canonicalQuery query in
  let ts := itoa timestamp in
  let out := ToUpper method +:+ newline +:+ path +:+ newline +:+ q +:+ newline in
  appendHex out bodyHash +:+ newline +:+ ts +:+ newline +:+ nonce.

(** * Laws

    Laws of the signed text: its parts can be read back from it. *)
(** * Bytes *)

Ltac all_bytes c := destruct c as [[] [] [] [] [] [] [] []]; vm_compute; done.

(** The bytes of an encoded word. *)
Definition encoded_byte (c : ascii) : bool := isUnreserved c || Ascii.eqb c "%".

Lemma hex_digits_encoded c upper :
  let d := hex_digit upper (Z.shiftr (code c) 4) in let e := hex_digit upper (Z.land (code c) 15) in
  isUnreserved d = true ∧ isUnreserved e = true ∧ unhex d = Some (Z.shiftr (code c) 4) ∧
  unhex e = Some (Z.land (code c) 15) ∧ of_code (16 * Z.shiftr (code c) 4 + Z.land (code c) 15) = c.
Proof. destruct upper; all_bytes c. Qed.

Lemma unreserved_not_percent c : isUnreserved c = true → Ascii.eqb c "%" = false.
Proof. all_bytes c. Qed.

Lemma percentEncode_bytes s : percentEncode s = percent_bytes s.
Proof.
  unfold percentEncode. destruct (string_all isUnreserved s) eqn:E; [|done].
  induction s as [|c s IH]; [done|]. cbn in *. apply andb_true_iff in E as [Hc Hs]. rewrite Hc. f_equal. by apply IH.
Qed.

Lemma percent_bytes_encoded s : string_all encoded_byte (percent_bytes s) = true.
Proof.
  unfold encoded_byte. induction s as [|c s IH]; [done|]. cbn. destruct (isUnreserved c) eqn:Ec; cbn; [by rewrite Ec|].
  destruct (hex_digits_encoded c true) as (H1 & H2 & _). by rewrite H1, H2.
Qed.

Lemma percent_bytes_decoded s : path_unescape (percent_bytes s) = Some s.
Proof.
  induction s as [|c s IH]; [done|]. cbn. destruct (isUnreserved c) eqn:Ec.
  - cbn. by rewrite unreserved_not_percent, IH.
  - destruct (hex_digits_encoded c true) as (_ & _ & H1 & H2 & H3). cbn in *. by rewrite H1, H2, IH, H3.
Qed.

Lemma percentEncode_free c s : encoded_byte c = false → contains_byte c (percentEncode s) = false.
Proof. intros H. rewrite percentEncode_bytes. eapply string_all_contains; [apply percent_bytes_encoded|done]. Qed.

(** * Queries *)

Lemma sort_perm l : sort_Strings l ≡ₚ l.
Proof. apply merge_sort_Permutation. Qed.

Global Instance sort_proper : Proper ((≡ₚ) ==> (=)) sort_Strings.
Proof.
  intros l k H. apply (Sorted_unique String.le); [apply Sorted_merge_sort, _..|]. by rewrite !sort_perm.
Qed.

(** The pairs of a query, in the order of the text. *)
Definition values_of (m : Values) (k : string) : list string := default [] (m !! k).
Definition pairs (m : Values) : list (string * string) :=
  sort_Strings (map fst (map_to_list m)) ≫= λ k, map (pair k) (sort_Strings (values_of m k)).
Definition encode_pair (kv : string * string) : string := percentEncode kv.1 +:+ "=" +:+ percentEncode kv.2.

Definition write_one (st : string * bool) (kv : string * string) : string * bool := write_pair (percentEncode kv.1) st kv.2.

Lemma write_key_pairs m st k : write_key m st k = foldl write_one st (map (pair k) (sort_Strings (values_of m k))).
Proof. unfold write_key, values_of. revert st. induction (sort_Strings _) as [|v l IH]; intros st; [done|]. cbn. apply IH. Qed.

Lemma write_keys_pairs m ks st :
  foldl (write_key m) st ks = foldl write_one st (ks ≫= λ k, map (pair k) (sort_Strings (values_of m k))).
Proof. revert st. induction ks as [|k ks IH]; intros st; [done|]. cbn. by rewrite IH, write_key_pairs, <-foldl_app. Qed.

Lemma write_all_join l b :
  foldl write_one (b, false) l = (match l with [] => b | _ => b +:+ "&" +:+ GoStrings.join "&" (map encode_pair l) end, false).
Proof.
  revert b. induction l as [|kv l IH]; intros b; [done|]. cbn [foldl].
  change (write_one (b, false) kv) with ((b +:+ "&") +:+ encode_pair kv, false). rewrite IH. f_equal.
  destruct l; cbn [map GoStrings.join]; by rewrite !string_app_assoc.
Qed.

Lemma canonicalQuery_join m : canonicalQuery m = GoStrings.join "&" (map encode_pair (pairs m)).
Proof.
  unfold canonicalQuery. destruct (Nat.eqb_spec (size m) 0) as [E|_].
  { apply map_size_empty_inv in E as ->. unfold pairs. by rewrite map_to_list_empty. }
  rewrite write_keys_pairs. fold (pairs m). destruct (pairs m) as [|kv l]; [done|].
  cbn [foldl]. change (write_one ("", true) kv) with (encode_pair kv, false). rewrite write_all_join. by destruct l.
Qed.

Lemma encode_pair_free c kv : encoded_byte c = false → c ≠ "="%char → contains_byte c (encode_pair kv) = false.
Proof.
  intros Hc Hne. unfold encode_pair. rewrite !contains_byte_app, !percentEncode_free, contains_byte_cons by done.
  destruct (Ascii.eqb_spec "=" c); [congruence|done].
Qed.

Lemma join_free c sep l : contains_byte c sep = false → Forall (λ s, contains_byte c s = false) l → contains_byte c (GoStrings.join sep l) = false.
Proof.
  intros Hs. induction 1 as [|s l Hc _ IH]; [done|]. destruct l; [done|]. cbn in *.
  by rewrite !contains_byte_app, Hc, Hs, IH.
Qed.

Lemma canonicalQuery_line m : contains_byte "010" (canonicalQuery m) = false.
Proof.
  rewrite canonicalQuery_join. apply join_free; [done|]. apply Forall_map, Forall_true. intros kv. by apply encode_pair_free.
Qed.

(** The pairs are read back from the text. *)
Definition decode_pair (s : string) : option (string * string) :=
  '(k, v) ← cut_byte "=" s; k ← path_unescape k; v ← path_unescape v; Some (k, v).

Lemma decode_encode_pair kv : decode_pair (encode_pair kv) = Some kv.
Proof.
  unfold decode_pair, encode_pair. change ("=" +:+ percentEncode kv.2) with (String "=" (percentEncode kv.2)).
  rewrite cut_byte_app by (by apply percentEncode_free). cbn. rewrite !percentEncode_bytes, !percent_bytes_decoded.
  by destruct kv.
Qed.

Global Instance encode_pair_inj : Inj (=) (=) encode_pair.
Proof. intros kv kv' E. apply (inj Some). by rewrite <-!decode_encode_pair, E. Qed.

Lemma encode_pair_nonempty kv : encode_pair kv ≠ "".
Proof. intros E. pose proof (decode_encode_pair kv) as H. by rewrite E in H. Qed.

Lemma join_pairs_inj l l' : GoStrings.join "&" (map encode_pair l) = GoStrings.join "&" (map encode_pair l') → l = l'.
Proof.
  intros E. apply (inj (map encode_pair)).
  assert (∀ l, Forall (λ s, contains_byte "&" s = false) (map encode_pair l)) as Hf.
  { intros k. apply Forall_map, Forall_true. intros kv. by apply encode_pair_free. }
  assert (∀ kv k, GoStrings.join "&" (map encode_pair (kv :: k)) ≠ "") as Hn.
  { intros kv k. cbn. pose proof (encode_pair_nonempty kv). destruct (encode_pair kv) eqn:Ek; [done|]. by destruct (map encode_pair k). }
  destruct l as [|kv l], l' as [|kv' l']; [done|by destruct (Hn kv' l')|by destruct (Hn kv l)|].
  rewrite <-(split_join "&" (map encode_pair (kv :: l))), <-(split_join "&" (map encode_pair (kv' :: l'))) by done.
  by f_equal.
Qed.

(** The pairs determine the values of every key up to their order. *)
Definition nonempty_key (m : Values) (k : string) : bool := match values_of m k with [] => false | _ => true end.

Lemma pairs_of_key m k : map snd (filter (λ kv, kv.1 = k) (pairs m)) = sort_Strings (values_of m k).
Proof.
  unfold pairs. assert (NoDup (sort_Strings (map fst (map_to_list m)))) as Hn by (rewrite sort_perm; apply NoDup_fst_map_to_list).
  assert (k ∉ sort_Strings (map fst (map_to_list m)) → values_of m k = []) as Hk.
  { rewrite sort_perm. intros H. unfold values_of. destruct (m !! k) as [vs|] eqn:E; [|done]. destruct H.
    apply list_elem_of_fmap. exists (k, vs). split; [done|]. by apply elem_of_map_to_list. }
  revert Hn Hk. generalize (sort_Strings (map fst (map_to_list m))). intros ks.
  assert (∀ j, map snd (filter (λ kv, kv.1 = k) (map (pair j) (sort_Strings (values_of m j)))) =
    if decide (j = k) then sort_Strings (values_of m k) else []) as Hf.
  { intros j. destruct (decide (j = k)) as [->|Hj].
    - induction (sort_Strings (values_of m k)) as [|v l IH]; [done|]. cbn [map]. by rewrite filter_cons_True, map_cons, IH.
    - induction (sort_Strings (values_of m j)) as [|v l IH]; [done|]. cbn [map]. by rewrite filter_cons_False. }
  induction ks as [|j ks IH]; intros Hn Hk; cbn [mbind list_bind].
  { rewrite Hk by apply not_elem_of_nil. reflexivity. }
  apply NoDup_cons in Hn as [Hj Hn]. rewrite filter_app, map_app, Hf. destruct (decide (j = k)) as [->|Hne].
  - rewrite <-(app_nil_r (sort_Strings (values_of m k))) at 2. f_equal. clear IH Hk. induction ks as [|i ks IH]; [done|].
    apply not_elem_of_cons in Hj as [Hi Hj]. apply NoDup_cons in Hn as [_ Hn]. cbn [mbind list_bind].
    rewrite filter_app, map_app, Hf, decide_False by done. by apply IH.
  - apply IH; [done|]. intros H. apply Hk, not_elem_of_cons. done.
Qed.

Lemma pairs_nonempty m : pairs m = sort_Strings (filter (λ k, nonempty_key m k = true) (map fst (map_to_list m))) ≫=
  λ k, map (pair k) (sort_Strings (values_of m k)).
Proof.
  unfold pairs. assert (sort_Strings (filter (λ k, nonempty_key m k = true) (map fst (map_to_list m))) =
    filter (λ k, nonempty_key m k = true) (sort_Strings (map fst (map_to_list m)))) as ->.
  { apply (Sorted_unique String.le); [apply Sorted_merge_sort, _| |by rewrite !sort_perm].
    apply StronglySorted_Sorted. assert (StronglySorted String.le (sort_Strings (map fst (map_to_list m)))) as H.
    { apply (StronglySorted_merge_sort String.le); apply _. }
    induction H as [|k l Hl IH Hk]; [constructor|]. rewrite filter_cons. destruct (decide _); [|done]. constructor; [done|].
    apply Forall_forall. intros j [_ Hj]%list_elem_of_filter. rewrite Forall_forall in Hk. by apply Hk. }
  induction (sort_Strings (map fst (map_to_list m))) as [|k l IH]; [done|]. rewrite filter_cons. rewrite bind_cons.
  destruct (decide _) as [|H]; [by rewrite bind_cons, IH|]. rewrite <-IH.
  unfold nonempty_key in H. by destruct (values_of m k).
Qed.

Lemma pairs_same m m' : pairs m = pairs m' ↔ ∀ k, values_of m k ≡ₚ values_of m' k.
Proof.
  split.
  - intros E k. rewrite <-(sort_perm (values_of m k)), <-(sort_perm (values_of m' k)). by rewrite <-!pairs_of_key, E.
  - intros H. rewrite !pairs_nonempty. assert (∀ k, sort_Strings (values_of m k) = sort_Strings (values_of m' k)) as Hs
      by (intros k; by rewrite H).
    assert (filter (λ k, nonempty_key m k = true) (map fst (map_to_list m)) ≡ₚ
      filter (λ k, nonempty_key m' k = true) (map fst (map_to_list m'))) as Hk.
    { apply NoDup_Permutation; [apply NoDup_filter, NoDup_fst_map_to_list..|]. intros k. rewrite !list_elem_of_filter.
      assert (∀ n : Values, nonempty_key n k = true → k ∈ map fst (map_to_list n)) as Hin.
      { intros n. unfold nonempty_key, values_of. destruct (n !! k) as [vs|] eqn:E; [|done]. intros _.
        apply list_elem_of_fmap. exists (k, vs). split; [done|]. by apply elem_of_map_to_list. }
      assert (nonempty_key m k = nonempty_key m' k) as E.
      { unfold nonempty_key. specialize (H k). destruct (values_of m k), (values_of m' k); try done;
          [by apply Permutation_nil_cons in H|by symmetry in H; apply Permutation_nil_cons in H]. }
      pose proof (Hin m). pose proof (Hin m'). rewrite E in *. tauto. }
    rewrite Hk. clear -Hs. induction (sort_Strings _) as [|k l IH]; [done|]. cbn [mbind list_bind]. by rewrite Hs, IH.
Qed.

(** * Requests *)

Lemma appendHex_app dst src : appendHex dst src = dst +:+ appendHex "" src.
Proof.
  revert dst. induction src as [|c src IH]; intros dst; cbn [appendHex]; [by rewrite string_app_nil_r|].
  rewrite IH, (IH ("" +:+ _)). by rewrite string_app_nil_l, string_app_assoc.
Qed.

Lemma appendHex_bytes c src : appendHex "" (String c src) =
  String (hex_digit false (Z.shiftr (code c) 4)) (String (hex_digit false (Z.land (code c) 15)) (appendHex "" src)).
Proof. cbn [appendHex]. by rewrite appendHex_app. Qed.

Global Instance appendHex_inj : Inj (=) (=) (appendHex "").
Proof.
  intros s. induction s as [|c s IH]; intros [|c' s']; rewrite ?appendHex_bytes; try done. intros [= E1 E2 E3]. f_equal; [|by apply IH].
  destruct (hex_digits_encoded c false) as (_ & _ & H1 & H2 & H3), (hex_digits_encoded c' false) as (_ & _ & H1' & H2' & H3').
  rewrite E1, H1' in H1. rewrite E2, H2' in H2. rewrite <-H3, <-H3'. injection H1 as ->. injection H2 as ->. done.
Qed.

Lemma appendHex_line src : contains_byte "010" (appendHex "" src) = false.
Proof.
  induction src as [|c src IH]; [done|]. rewrite appendHex_bytes, !contains_byte_cons, IH.
  destruct (hex_digits_encoded c false) as (H1 & H2 & _).
  assert (∀ a, isUnreserved a = true → Ascii.eqb a "010" = false) as H by (intros a; all_bytes a). by rewrite !H.
Qed.

Lemma pretty_N_go_free c x s : (∀ d, pretty_N_char d ≠ c) → contains_byte c s = false → contains_byte c (pretty_N_go x s) = false.
Proof.
  intros Hc. revert s. induction (N.lt_wf_0 x) as [x _ IH]. intros s Hs. destruct (decide (0 < x)%N) as [Hx|Hx].
  - rewrite pretty_N_go_step by done. apply IH; [by apply N.div_lt|]. rewrite contains_byte_cons, Hs, orb_false_r.
    apply Ascii.eqb_neq, Hc.
  - assert (x = 0)%N as -> by lia. by rewrite pretty_N_go_0.
Qed.

Lemma itoa_line z : contains_byte "010" (itoa z) = false.
Proof.
  assert (∀ p, contains_byte "010" (pretty (Npos p)) = false) as H.
  { intros p. unfold pretty, pretty_N. rewrite decide_False by done. apply pretty_N_go_free; [|done].
    intros d. unfold pretty_N_char. by repeat case_match. }
  destruct z as [|p|p]; [done|apply H|]. unfold itoa, pretty, pretty_Z. rewrite contains_byte_app.
  apply orb_false_iff. split; [done|apply H].
Qed.

Lemma newline_app s : newline +:+ s = String "010" s.
Proof. done. Qed.

(** The last line of a text. *)
Lemma last_line a a' b b' : contains_byte "010" b = false → contains_byte "010" b' = false →
  a +:+ newline +:+ b = a' +:+ newline +:+ b' → a = a' ∧ b = b'.
Proof.
  intros Hb Hb'. rewrite !newline_app. revert a'.
  induction a as [|c a IH]; intros [|c' a']; rewrite ?string_app_nil_l, ?string_app_cons.
  - intros [= ->]. done.
  - intros [= <- ->]. by rewrite contains_byte_app, orb_true_r in Hb.
  - intros [= -> <-]. by rewrite contains_byte_app, orb_true_r in Hb'.
  - intros [= -> E]. by destruct (IH a' E) as [-> ->].
Qed.

Lemma ToUpper_line s : contains_byte "010" (ToUpper s) = contains_byte "010" s.
Proof.
  unfold ToUpper. induction s as [|c s IH]; [done|]. cbn [string_map]. rewrite !contains_byte_cons, IH. f_equal. all_bytes c.
Qed.

(** [C5] Signing is unambiguous: requests whose signed texts are equal have the same method up
    to case, the same path, the same values of every query key up to their order, bodies of
    one digest, the same time and the same nonce, and the other way round. The path may hold
    anything, newlines too; methods are tokens, and fields of a header have no newline. *)
Theorem canonical_unambiguous method path query body ts nonce method' path' query' body' ts' nonce' :
  contains_byte "010" method = false → contains_byte "010" method' = false →
  contains_byte "010" nonce = false → contains_byte "010" nonce' = false →
  canonicalRequest method path query body ts nonce = canonicalRequest method' path' query' body' ts' nonce' ↔
  ToUpper method = ToUpper method' ∧ path = path' ∧
  (∀ k, default [] (query !! k) ≡ₚ default [] (query' !! k)) ∧
  Sum256 body = Sum256 body' ∧ ts = ts' ∧ nonce = nonce'.
Proof.
  intros Hm Hm' Hn Hn'. unfold canonicalRequest. cbv zeta. rewrite !(appendHex_app (_ +:+ _)), !canonicalQuery_join.
  split; [|intros (-> & -> & Hq & -> & -> & ->); by rewrite (proj2 (pairs_same query query') Hq)].
  rewrite <-!canonicalQuery_join, !string_app_assoc. intros E.
  pose proof (λ a b c, string_app_assoc a b c) as A.
  assert (∀ m p q h t n, m +:+ newline +:+ p +:+ newline +:+ q +:+ newline +:+ h +:+ newline +:+ t +:+ newline +:+ n =
    ((((m +:+ newline +:+ p) +:+ newline +:+ q) +:+ newline +:+ h) +:+ newline +:+ t) +:+ newline +:+ n) as Hl
    by (intros; by rewrite !string_app_assoc).
  rewrite !Hl in E. apply last_line in E as [E ->]; [|done..].
  apply last_line in E as [E Et]; [|apply itoa_line..]. apply last_line in E as [E Eh]; [|apply appendHex_line..].
  apply last_line in E as [E Eq]; [|apply canonicalQuery_line..].
  apply (f_equal (cut_byte "010")) in E. unfold newline in E. rewrite !string_app_cons, !string_app_nil_l in E.
  rewrite !cut_byte_app in E by (by rewrite ToUpper_line). injection E as -> ->.
  split_and!; try done; [|by apply (inj (appendHex ""))|by apply (inj (pretty : Z → string))].
  apply pairs_same, join_pairs_inj. by rewrite <-!canonicalQuery_join.
Qed.

(** * Examples and witnesses *)

(** Pairs with the separators of the text in keys and values, in another order and with
    an empty list of values. *)
Definition query_1 : Values := {["a&b" := ["x=y"; "1"]; "q" := ["hello world"]]}.
Definition query_2 : Values := {["q" := ["hello world"]; "a&b" := ["1"; "x=y"]; "none" := []]}.

Example query_text : canonicalQuery query_1 = "a%26b=1&a%26b=x%3Dy&q=hello%20world" ∧ canonicalQuery query_2 = canonicalQuery query_1.
Proof. vm_compute. done. Qed.

(** A path with a newline does not pass for the lines below it. *)
Lemma canonical_unambiguous_witness :
  canonicalRequest "get" "/a" query_1 "body" 7 "n" = canonicalRequest "GET" "/a" query_2 "body" 7 "n" ∧
  canonicalRequest "GET" ("/a" +:+ newline +:+ "x=1") ∅ "" 7 "n" ≠ canonicalRequest "GET" "/a" {["x" := ["1"]]} "" 7 "n".
Proof.
  split.
  - apply (canonical_unambiguous "get" "/a" query_1 "body" 7 "n" "GET" "/a" query_2 "body" 7 "n");
      [reflexivity..|]. split_and!; try reflexivity. intros k. unfold query_1, query_2.
    destruct (decide (k = "a&b")) as [->|H1]; [apply Permutation_swap|].
    destruct (decide (k = "q")) as [->|H2]; [done|]. rewrite !lookup_insert_ne by done.
    destruct (decide (k = "none")) as [->|H3]; [done|]. by rewrite !lookup_singleton_ne.
  - intros E. apply canonical_unambiguous in E as (_ & E & _); [discriminate E|reflexivity..].
Defined.
