(* ===== verification/NonceStore.v ===== *)
(** The store of nonces in memory (plugins/hmacauth/noncestore.go): entries that live for a
    time, bounded in number, and the janitor that removes the others. *)
From S2P Require Import Prelude GoStrings Errors.
From stdpp Require Import gmap.
Open Scope go_scope.
Local Open Scope Z_scope.

(** * The interface *)

(** [NonceStore]: [SetNX(ctx, key, ttl)] at a moment, with the error of [ctx]. *)
Class NonceStore (S : Type) : Type := {
  SetNX : Z → option error → string → Z → GoM S (bool * option error)
}.

(** * The store in memory *)

Record memoryEntry : Type := MkEntry { expires : Z; added : Z }.
Record MemoryNonceStore : Type := MkStore {
  entries : gmap string memoryEntry;
  max : Z
}.

Definition NewMemoryNonceStore (maxEntries : Z) : outcome MemoryNonceStore :=
  if maxEntries <=? 0 then Panic "hmacauth: NewMemoryNonceStore requires maxEntries > 0"
  else Ret (MkStore ∅ maxEntries).

Definition Before (t u : Z) : bool := t <? u.

Section store.
(** The order in which a map is iterated. *)
Context (iteration : gmap string memoryEntry → list (string * memoryEntry)).

(** The loop of [evictLocked] and of the janitor over expired entries, with [removed]. *)
Definition expire_one (now : Z) (st : gmap string memoryEntry * bool) (ke : string * memoryEntry) :=
  if negb (Before now (expires ke.2)) then (delete ke.1 st.1, true) else st.
Definition remove_expired (now : Z) (m : gmap string memoryEntry) : gmap string memoryEntry * bool :=
  foldl (expire_one now) (m, false) (iteration m).

(** The loop that finds the oldest entry: [oldestKey], [oldestAt] and [first]. *)
Definition older (st : string * Z * bool) (ke : string * memoryEntry) : string * Z * bool :=
  let '(_, oldestAt, first) := st in
  if (first : bool) || Before (added ke.2) oldestAt then (ke.1, added ke.2, false) else st.
Definition oldest (m : gmap string memoryEntry) : string := (foldl older ("", 0, true) (iteration m)).1.1.

Definition evictLocked (now : Z) (m : gmap string memoryEntry) : gmap string memoryEntry :=
  if (size m =? 0)%nat then m
  else
    let (m', removed) := remove_expired now m in
    if (removed : bool) then m' else delete (oldest m') m'.

Definition mem_SetNX (now : Z) (ctx : option error) (key : string) (ttl : Z)
    : GoM MemoryNonceStore (bool * option error) := λ s,
  match ctx with
  | Some err => (Ret (false, Some err), s)
  | None =>
      let live := match entries s !! key with Some e => Before now (expires e) | None => false end in
      if live then (Ret (false, None), s)
      else
        let m := if max s <=? Z.of_nat (size (entries s)) then evictLocked now (entries s) else entries s in
        (Ret (true, None), MkStore (<[key := MkEntry (now + ttl) now]> m) (max s))
  end.

(** A tick of the janitor. *)
Definition sweep (now : Z) (s : MemoryNonceStore) : MemoryNonceStore :=
  MkStore (remove_expired now (entries s)).1 (max s).

Definition store_size (s : MemoryNonceStore) : nat := size (entries s).

(** * Runs *)

(** What happens to the store, one mutex section after the other. *)
Inductive store_event : Type :=
  | Claim (now : Z) (key : string) (ttl : Z)
  | Sweep (now : Z).
Definition event_time (e : store_event) : Z := match e with Claim now _ _ | Sweep now => now end.

(** The nonces accepted in a run, with the times they were, the last one first. *)
Record history : Type := History { current : MemoryNonceStore; accepted : list (Z * string) }.

Definition store_step (h : history) (e : store_event) : history :=
  match e with
  | Claim now key ttl =>
      match mem_SetNX now None key ttl (current h) with
      | (Ret (true, _), s) => History s ((now, key) :: accepted h)
      | (_, s) => History s (accepted h)
      end
  | Sweep now => History (sweep now (current h)) (accepted h)
  end.
Definition store_run (h : history) (l : list store_event) : history := foldl store_step h l.
End store.

#[export] Instance memory_NonceStore (iteration : gmap string memoryEntry → list (string * memoryEntry)) :
  NonceStore MemoryNonceStore := { SetNX := mem_SetNX iteration }.
