(* ===== verification/NonceStoreLaws.v ===== *)
(** Laws of the store of nonces: it is bounded, and a nonce it accepted is not accepted again
    while it lives, unless as many others were. *)
From S2P Require Import Prelude GoStrings Errors NonceStore.
From stdpp Require Import gmap.
Local Open Scope Z_scope.
Local Notation max := NonceStore.max.

Section laws.
Context (iteration : gmap string memoryEntry → list (string * memoryEntry)).
Hypothesis iteration_all : ∀ m, iteration m ≡ₚ map_to_list m.
Local Notation remove_expired := (remove_expired iteration).
Local Notation oldest := (oldest iteration).
Local Notation evictLocked := (evictLocked iteration).
Local Notation store_step := (store_step iteration).
Local Notation store_run := (store_run iteration).

Lemma iteration_in m k e : (k, e) ∈ iteration m ↔ m !! k = Some e.
Proof. rewrite iteration_all. apply elem_of_map_to_list. Qed.

Lemma expire_fold now l m b k e :
  (foldl (expire_one now) (m, b) l).1 !! k = Some e ↔
  m !! k = Some e ∧ ∀ e', (k, e') ∈ l → now < expires e'.
Proof.
  revert m b. induction l as [|[j e0] l IH]; intros m b; cbn [foldl].
  { split; [|by intros [? _]]. intros H. split; [done|]. by intros e' ?%elem_of_nil. }
  unfold expire_one at 2, Before. cbn [fst snd]. destruct (Z.ltb_spec now (expires e0)); cbn [negb]; rewrite IH; split.
  - intros [Hm Hl]. split; [done|]. intros e' [[= -> ->]|He]%elem_of_cons; [done|by apply Hl].
  - intros [Hm Hl]. split; [done|]. intros e' He. apply Hl. by right.
  - intros [[Hj Hm]%lookup_delete_Some Hl]. split; [done|]. intros e' [[= -> ->]|He]%elem_of_cons; [done|by apply Hl].
  - intros [Hm Hl]. destruct (decide (j = k)) as [->|Hj]; [specialize (Hl e0 ltac:(left)); lia|].
    rewrite lookup_delete_ne by done. split; [done|]. intros e' He. apply Hl. by right.
Qed.

Lemma expire_fold_kept now l m b : (foldl (expire_one now) (m, b) l).2 = false → (foldl (expire_one now) (m, b) l).1 = m.
Proof.
  revert m b. induction l as [|ke l IH]; intros m b; [done|]. cbn [foldl]. unfold expire_one at 2 4.
  destruct (negb _); [|apply IH]. assert (∀ l m, (foldl (expire_one now) (m, true) l).2 = true) as H.
  { clear. induction l as [|ke l IH]; intros m; [done|]. cbn [foldl]. unfold expire_one at 2. by destruct (negb _). }
  by rewrite H.
Qed.

Lemma expire_fold_removed now l m : (foldl (expire_one now) (m, false) l).2 = true → ∃ k e, (k, e) ∈ l ∧ expires e <= now.
Proof.
  induction l as [|[k e] l IH]; [done|]. cbn [foldl]. unfold expire_one at 2, Before. cbn [fst snd].
  destruct (Z.ltb_spec now (expires e)); cbn [negb].
  - intros (k' & e' & Hl & He)%IH. exists k', e'. split; [by right|done].
  - intros _. exists k, e. split; [left|lia].
Qed.

(** Live entries are kept. *)
Lemma remove_expired_live now m k e : (remove_expired now m).1 !! k = Some e ↔ m !! k = Some e ∧ now < expires e.
Proof.
  unfold NonceStore.remove_expired. rewrite expire_fold. split.
  - intros [Hm Hl]. split; [done|]. by apply Hl, iteration_in.
  - intros [Hm He]. split; [done|]. intros e' Hi%iteration_in. congruence.
Qed.

Lemma older_fold l k a :
  let r := foldl older (k, a, false) l in
  r.2 = false ∧ r.1.2 ≤ a ∧ (∀ j e, (j, e) ∈ l → r.1.2 ≤ added e) ∧
  (r.1 = (k, a) ∨ ∃ e, (r.1.1, e) ∈ l ∧ added e = r.1.2).
Proof.
  revert k a. induction l as [|[j e] l IH]; intros k a; cbn [foldl].
  { split_and!; [done|cbn; lia|by intros ? ? ?%elem_of_nil|by left]. }
  unfold older at 2 4 6 8 10 12. cbn [fst snd orb]. unfold Before. destruct (Z.ltb_spec (added e) a).
  - destruct (IH j (added e)) as (H1 & H2 & H3 & H4). split_and!; [done|lia| |].
    + intros j' e' [[= -> ->]|Hj]%elem_of_cons; [done|by eapply H3].
    + right. destruct H4 as [H4|(e' & He & Ha)]; [exists e; rewrite H4; split; [left|done]|exists e'; split; [by right|done]].
  - destruct (IH k a) as (H1 & H2 & H3 & H4). split_and!; [done|lia| |].
    + intros j' e' [[= -> ->]|Hj]%elem_of_cons; [lia|by eapply H3].
    + destruct H4 as [H4|(e' & He & Ha)]; [by left|]. right. exists e'. split; [by right|done].
Qed.

Lemma oldest_added m : m ≠ ∅ → ∃ e, m !! oldest m = Some e ∧ ∀ k e', m !! k = Some e' → added e ≤ added e'.
Proof.
  intros Hm. unfold NonceStore.oldest. assert (∀ k e, (k, e) ∈ iteration m ↔ m !! k = Some e) as Hi by (intros; apply iteration_in).
  destruct (iteration m) as [|[j e] l] eqn:E.
  { destruct Hm. apply map_to_list_empty_iff, Permutation_nil. by rewrite <-iteration_all, E. }
  cbn [foldl]. change (older ("", 0, true) (j, e)) with (j, added e, false).
  destruct (older_fold l j (added e)) as (H1 & H2 & H3 & H4).
  assert (∃ e', m !! (foldl older (j, added e, false) l).1.1 = Some e' ∧ added e' = (foldl older (j, added e, false) l).1.2) as (e' & He' & Ha).
  { destruct H4 as [H4|(e' & He & Ha)]; [exists e; rewrite H4; split; [by apply Hi; left|done]|].
    exists e'. split; [by apply Hi; right|done]. }
  exists e'. split; [done|]. intros k e0 [[= -> ->]|Hk]%Hi%elem_of_cons; [lia|]. specialize (H3 k e0 Hk). lia.
Qed.

(** * The invariant *)

(** The store is no larger than it may be, and what it holds was accepted. *)
Record history_ok (h : history) : Prop := {
  max_positive : 0 < max (current h);
  size_bound : Z.of_nat (size (entries (current h))) ≤ max (current h);
  entries_accepted k e : entries (current h) !! k = Some e → (added e, k) ∈ accepted h
}.

(** Nonces accepted at a time or later. *)
Definition accepted_since (t : Z) (h : history) : nat := length (filter (λ a : Z * string, t ≤ a.1) (accepted h)).

(** All entries at or after a time were accepted since. *)
Lemma entries_since h t : history_ok h → (∀ k e, entries (current h) !! k = Some e → t ≤ added e) →
  (size (entries (current h)) ≤ accepted_since t h)%nat.
Proof.
  intros Hok Ht. unfold accepted_since. rewrite <-length_map_to_list.
  set (f := λ ke : string * memoryEntry, (added ke.2, ke.1)).
  rewrite <-(length_fmap f). apply submseteq_length, NoDup_submseteq.
  - assert (NoDup (snd <$> (f <$> map_to_list (entries (current h))))) as H; [|by eapply NoDup_fmap_1].
    rewrite <-list_fmap_compose. apply NoDup_fst_map_to_list.
  - intros x ([k e] & -> & Hx%elem_of_map_to_list)%list_elem_of_fmap. cbn.
    apply list_elem_of_filter. split; [by eapply Ht|by apply (entries_accepted _ Hok)].
Qed.

Lemma evict_some now m k e : evictLocked now m !! k = Some e → m !! k = Some e.
Proof.
  unfold NonceStore.evictLocked. destruct (size m =? 0)%nat; [done|].
  pose proof (remove_expired_live now m k e) as H. destruct (remove_expired now m) as [m' []]; cbn [fst] in H.
  - rewrite H. by intros [? _].
  - rewrite lookup_delete_Some, H. by intros (_ & ? & _).
Qed.

Lemma evict_smaller now m : m ≠ ∅ → (size (evictLocked now m) < size m)%nat.
Proof.
  intros Hm. unfold NonceStore.evictLocked.
  destruct (Nat.eqb_spec (size m) 0) as [E|_]; [by apply map_size_empty_inv in E|].
  assert (∀ m' j, m' ⊆ m → is_Some (m !! j) → m' !! j = None → (size m' < size m)%nat) as Hlt.
  { intros m' j Hs [e Hj] Hn. rewrite <-(insert_delete_id m j e Hj), map_size_insert_None by apply lookup_delete_eq.
    apply Nat.lt_succ_r, map_subseteq_size. apply map_subseteq_spec. intros i x Hi.
    rewrite lookup_delete_ne by (intros ->; congruence). by eapply map_subseteq_spec. }
  destruct (remove_expired now m) as [m' b] eqn:E.
  assert (m' ⊆ m) as Hs.
  { apply map_subseteq_spec. intros k e He. assert ((remove_expired now m).1 !! k = Some e) as H by (by rewrite E).
    by apply remove_expired_live in H as [? _]. }
  destruct b.
  - assert ((remove_expired now m).2 = true) as H by (by rewrite E).
    apply expire_fold_removed in H as (k & e & Hk%iteration_in & He). apply (Hlt m' k); [done|by eexists|].
    destruct (m' !! k) as [e'|] eqn:Ek; [|done]. exfalso.
    assert ((remove_expired now m).1 !! k = Some e') as H by (by rewrite E). apply remove_expired_live in H as [H1 H2].
    rewrite Hk in H1. injection H1 as <-. lia.
  - unfold NonceStore.remove_expired in E. pose proof (expire_fold_kept now (iteration m) m false) as H. rewrite E in H.
    cbn in H. rewrite H by done. destruct (oldest_added m Hm) as (e & He & _).
    apply (Hlt _ (oldest m)); [apply delete_subseteq|by eexists|apply lookup_delete_eq].
Qed.
(** What a call of [SetNX] does. *)
Lemma SetNX_cases now key ttl (s : MemoryNonceStore) :
  (∃ e, entries s !! key = Some e ∧ now < expires e ∧ mem_SetNX iteration now None key ttl s = (Ret (false, None), s)) ∨
  ((∀ e, entries s !! key = Some e → expires e ≤ now) ∧
   mem_SetNX iteration now None key ttl s =
     (Ret (true, None), MkStore (<[key := MkEntry (now + ttl) now]>
        (if max s <=? Z.of_nat (size (entries s)) then evictLocked now (entries s) else entries s)) (max s))).
Proof.
  unfold mem_SetNX. destruct (entries s !! key) as [e|] eqn:E; [|by right].
  unfold Before. destruct (Z.ltb_spec now (expires e)); [left; by exists e|right]. split; [|done]. by intros e' [= <-].
Qed.

Lemma insert_size_le (m : gmap string memoryEntry) k e : (size (<[k := e]> m) ≤ S (size m))%nat.
Proof.
  destruct (m !! k) as [e'|] eqn:E; [rewrite map_size_insert_Some by eauto; lia|by rewrite map_size_insert_None].
Qed.

Lemma store_step_ok h e : history_ok h → history_ok (store_step h e).
Proof.
  intros [Hp Hs Ha]. destruct e as [now key ttl|now]; cbn [NonceStore.store_step].
  - destruct (SetNX_cases now key ttl (current h)) as [(e & He & _ & ->)|[_ ->]]; [done|]. split; cbn [current entries max accepted]; [done| |].
    + destruct (Z.leb_spec (max (current h)) (Z.of_nat (size (entries (current h))))) as [Hfull|Hroom].
      * assert (entries (current h) ≠ ∅) as Hne by (intros E; rewrite E, map_size_empty in Hfull; lia).
        pose proof (evict_smaller now _ Hne). pose proof (insert_size_le (evictLocked now (entries (current h))) key (MkEntry (now + ttl) now)). lia.
      * pose proof (insert_size_le (entries (current h)) key (MkEntry (now + ttl) now)). lia.
    + intros k e. destruct (decide (key = k)) as [<-|Hk]; [rewrite lookup_insert_eq; intros [= <-]; left|].
      rewrite lookup_insert_ne by done. intros H. right. apply Ha. destruct (_ <=? _); [by eapply evict_some|done].
  - assert (∀ k e, (remove_expired now (entries (current h))).1 !! k = Some e → entries (current h) !! k = Some e) as H
      by (by intros k e [? _]%remove_expired_live).
    split; cbn; [done| |by intros k e ?%H%Ha]. etransitivity; [|exact Hs]. apply Nat2Z.inj_le, map_subseteq_size, map_subseteq_spec, H.
Qed.

Lemma run_ok h l : history_ok h → history_ok (store_run h l).
Proof. revert h. induction l as [|e l IH]; intros h Hh; [done|]. by apply IH, store_step_ok. Qed.

Lemma initial_history_ok M s : NewMemoryNonceStore M = Ret s → history_ok (History s []).
Proof.
  unfold NewMemoryNonceStore. destruct (Z.leb_spec M 0); [done|]. intros [= <-].
  split; cbn; [done|rewrite map_size_empty; lia|]. intros k e. by rewrite lookup_empty.
Qed.

Lemma step_max h e : max (current (store_step h e)) = max (current h).
Proof.
  destruct e as [now key ttl|now]; cbn [NonceStore.store_step]; [|done].
  by destruct (SetNX_cases now key ttl (current h)) as [(e & _ & _ & ->)|[_ ->]].
Qed.

Lemma step_accepted h e t : (accepted_since t h ≤ accepted_since t (store_step h e))%nat.
Proof.
  unfold accepted_since. destruct e as [now key ttl|now]; cbn [NonceStore.store_step]; [|done].
  destruct (SetNX_cases now key ttl (current h)) as [(e & _ & _ & ->)|[_ ->]]; [done|]. cbn [accepted].
  rewrite filter_cons. destruct (decide _); cbn; lia.
Qed.

Lemma run_max h l : max (current (store_run h l)) = max (current h).
Proof. revert h. induction l as [|e l IH]; intros h; [done|]. unfold NonceStore.store_run. cbn [foldl]. etransitivity; [apply IH|apply step_max]. Qed.

(** A nonce that was accepted is held while it lives, unless as many other nonces as the store
    has room for were accepted since. *)
Definition held (t1 : Z) (k : string) (ttl : Z) (h : history) : Prop :=
  entries (current h) !! k = Some (MkEntry (t1 + ttl) t1) ∨ max (current h) < Z.of_nat (accepted_since t1 h).

Lemma held_step t1 k ttl h e : history_ok h → t1 ≤ event_time e < t1 + ttl → held t1 k ttl h → held t1 k ttl (store_step h e).
Proof.
  intros Hok Ht [Hk|Hn]; [|right; rewrite step_max; pose proof (step_accepted h e t1); lia].
  destruct e as [now key ttl'|now]; cbn in Ht; cbn [NonceStore.store_step].
  - destruct (SetNX_cases now key ttl' (current h)) as [(e & _ & _ & ->)|[He ->]]; [by left|].
    assert (key ≠ k) as Hne by (intros ->; specialize (He _ Hk); cbn in He; lia).
    unfold held. cbn [current entries max accepted]. rewrite lookup_insert_ne by done.
    destruct (Z.leb_spec (max (current h)) (Z.of_nat (size (entries (current h))))) as [Hfull|_]; [|by left].
    unfold NonceStore.evictLocked. destruct (Nat.eqb_spec (size (entries (current h))) 0) as [E|_].
    { apply map_size_empty_inv in E. rewrite E, lookup_empty in Hk. done. }
    pose proof (remove_expired_live now (entries (current h)) k (MkEntry (t1 + ttl) t1)) as Hl.
    pose proof (expire_fold_kept now (iteration (entries (current h))) (entries (current h)) false) as Hkept.
    fold (remove_expired now (entries (current h))) in Hkept.
    destruct (remove_expired now (entries (current h))) as [m' []]; cbn in Hl, Hkept; [left; apply Hl; split; [done|lia]|].
    rewrite Hkept by done. destruct (decide (oldest (entries (current h)) = k)) as [Ho|Ho].
    + right. assert (entries (current h) ≠ ∅) as Hne' by (intros E; by rewrite E, lookup_empty in Hk).
      destruct (oldest_added _ Hne') as (e & He' & Hall). rewrite Ho, Hk in He'. injection He' as <-.
      pose proof (entries_since h t1 Hok Hall) as Hc. unfold accepted_since in *. cbn [accepted]. rewrite filter_cons.
      rewrite decide_True by (cbn; lia). cbn [length]. lia.
    + left. by rewrite lookup_delete_ne.
  - left. cbn. apply remove_expired_live. split; [done|]. cbn. lia.
Qed.

Lemma held_run t1 k ttl h l : history_ok h → Forall (λ e, t1 ≤ event_time e < t1 + ttl) l → held t1 k ttl h → held t1 k ttl (store_run h l).
Proof.
  intros Hok Hl. revert h Hok. induction Hl as [|e l He _ IH]; intros h Hok Hh; [done|].
  apply IH; [by apply store_step_ok|by apply held_step].
Qed.

(** A nonce is not accepted twice while it lives, unless as many others were accepted since as
    the store has room for. *)
Lemma accepted_once h1 t1 k ttl l t2 ttl2 : history_ok h1 →
  (mem_SetNX iteration t1 None k ttl (current h1)).1 = Ret (true, None) →
  Forall (λ e, t1 ≤ event_time e < t1 + ttl) l → t2 < t1 + ttl →
  let h3 := store_run (store_step h1 (Claim t1 k ttl)) l in
  (mem_SetNX iteration t2 None k ttl2 (current h3)).1 = Ret (true, None) →
  max (current h1) < Z.of_nat (accepted_since t1 h3).
Proof.
  intros Hok H1 Hl Ht h3 H2. set (h2 := store_step h1 (Claim t1 k ttl)).
  assert (held t1 k ttl h2) as Hh.
  { left. unfold h2. cbn [NonceStore.store_step]. destruct (SetNX_cases t1 k ttl (current h1)) as [(e & _ & _ & E)|[_ E]];
      rewrite E in *; [done|]. cbn. apply lookup_insert_eq. }
  apply (held_run _ _ _ h2 l) in Hh; [|by apply store_step_ok|done]. fold h3 in Hh. destruct Hh as [Hk|Hn].
  - destruct (SetNX_cases t2 k ttl2 (current h3)) as [(e & _ & _ & E)|[He E]]; rewrite E in H2; [done|].
    specialize (He _ Hk). cbn in He. lia.
  - assert (max (current h3) = max (current h1)) as <-; [|done]. unfold h3. by rewrite run_max, step_max.
Qed.
End laws.
