(* ===== verification/HmacAuth.v ===== *)
(** Signed requests (plugins/hmacauth): the clients and their secrets, the verification of a
    request, and the middleware around it. *)
From S2P Require Import Prelude GoStrings Http Response.
From S2P Require Import Errors RequestContext App Sha256 HmacCanonical NonceStore.
From stdpp Require Import gmap countable.
Open Scope go_scope.

(** * Clients *)

Record Client : Type := MkClient {
  ClientID : string;
  Secret : string;
  Secrets : list string;
  Identity : option any
}.
Record Principal : Type := MkPrincipal {
  p_ClientID : string;
  p_Identity : option any
}.
Definition no_client : Client := MkClient "" "" [] None.
Definition principalOf (c : Client) : Principal := MkPrincipal (ClientID c) (Identity c).

Definition Validator : Type := string → Client + error.
Definition errUnknownClient : error := ErrorText "hmacauth: unknown client".

(** The loop of [StaticClients], over the clients in the order of the map's iteration. *)
Fixpoint snapshot_of (l : list (string * Client)) (snapshot : gmap string Client) : outcome (gmap string Client) :=
  match l with
  | [] => Ret snapshot
  | (id, c) :: l' =>
      if String.eqb id "" then Panic "hmacauth: StaticClients map cannot contain an empty client ID"
      else if String.eqb (ClientID c) "" then
        snapshot_of l' (<[id := MkClient id (Secret c) (Secrets c) (Identity c)]> snapshot)
      else if String.eqb (ClientID c) id then snapshot_of l' (<[id := c]> snapshot)
      else Panic ("hmacauth: StaticClients Client.ClientID does not match map key " +:+ id)
  end.
Definition StaticClients (clients : list (string * Client)) : outcome Validator :=
  match snapshot_of clients ∅ with
  | Ret snapshot => Ret (λ id, match snapshot !! id with Some c => inl c | None => inr errUnknownClient end)
  | Panic msg => Panic msg
  end.

(** * Configuration *)

Inductive Outcome : Type :=
  | OutcomeOK
  | OutcomeUnauthorized
  | OutcomeClockSkew
  | OutcomeSignatureInvalid
  | OutcomeReplayDetected
  | OutcomeBodyTooLarge.
Record Event : Type := MkEvent {
  ev_Outcome : Outcome;
  ev_ClientID : string;
  ev_Status : Z;
  ev_SkewSeconds : Z;
  ev_Duration : Z
}.

(** [Config]: whether there is a [NonceStore]; the store itself is state. An observer of the
    stdlib form may be called without a context. *)
Record Config : Type := MkConfig {
  cfg_Validator : option Validator;
  cfg_NonceStore : bool;
  ClientIDHeader : string;
  TimestampHeader : string;
  NonceHeader : string;
  SignatureHeader : string;
  SkewSeconds : Z;
  NonceTTL : Z;
  MaxBodyBytes : Z;
  ErrorMessage : string;
  cfg_ErrorHandler : option (Z → string → HandlerFunc);
  cfg_Skipper : option (World → bool);
  cfg_Observer : option (bool → Event → GoM World unit)
}.

Definition DefaultSkewSeconds : Z := 300.
Definition DefaultMaxBodyBytes : Z := 1048576.
Definition DefaultConfig : Config :=
  MkConfig None false "X-Client-Id" "X-Timestamp" "X-Nonce" "X-Signature" DefaultSkewSeconds 0
    DefaultMaxBodyBytes "missing or invalid authentication" None None None.

Definition defaulted (s d : string) : string := if String.eqb s "" then d else s.

(** [normalized], in which the validator is there. *)
Record normalized : Type := MkNormalized {
  validator : Validator;
  n_cfg : Config
}.

Definition Second : Z := 1000000000.
Definition normalize (cfg : Config) : outcome normalized :=
  match cfg_Validator cfg with
  | None => Panic "hmacauth: Config.Validator is required"
  | Some v =>
      if (SkewSeconds cfg <? 0)%Z then Panic "hmacauth: Config.SkewSeconds must be >= 0"
      else if (NonceTTL cfg <? 0)%Z then Panic "hmacauth: Config.NonceTTL must not be negative"
      else if (MaxBodyBytes cfg <? 0)%Z then Panic "hmacauth: Config.MaxBodyBytes must not be negative"
      else
        let skew := if (SkewSeconds cfg =? 0)%Z then DefaultSkewSeconds else SkewSeconds cfg in
        let maxBody := if (MaxBodyBytes cfg =? 0)%Z then DefaultMaxBodyBytes else MaxBodyBytes cfg in
        let ttl := if (NonceTTL cfg =? 0)%Z
                   then wrap64 (wrap64 (wrap64 (2 * skew) * Second) + 60 * Second) else NonceTTL cfg in
        Ret (MkNormalized v (MkConfig (Some v) (cfg_NonceStore cfg)
          (defaulted (ClientIDHeader cfg) "X-Client-Id") (defaulted (TimestampHeader cfg) "X-Timestamp")
          (defaulted (NonceHeader cfg) "X-Nonce") (defaulted (SignatureHeader cfg) "X-Signature")
          skew ttl maxBody (defaulted (ErrorMessage cfg) "missing or invalid authentication")
          (cfg_ErrorHandler cfg) (cfg_Skipper cfg) (cfg_Observer cfg)))
  end.

(** * Verification *)

(** [hex.DecodeString], without the texts of its errors. *)
Fixpoint DecodeString (s : string) : option string :=
  match s with
  | EmptyString => Some EmptyString
  | String h (String l s') =>
      match unhex h, unhex l with
      | Some x, Some y => String (of_code (16 * x + y)) <$> DecodeString s'
      | _, _ => None
      end
  | _ => None
  end.

(** The readings of the clock and the error of the request's context at [SetNX]. *)
Record moments : Type := MkMoments {
  at_start : Z;
  at_check : Z;
  at_store : Z;
  at_end : Z;
  ctx_Err : option error
}.

Record verifyResult : Type := MkResult {
  res_client : Client;
  res_ok : bool;
  res_status : Z;
  res_outcome : Outcome;
  res_skewSeconds : Z
}.
Definition rejected (outcome : Outcome) : verifyResult := MkResult no_client false 401 outcome 0.

Definition maxSafeTimestamp : Z := 9007199254740992.
Definition abs64 (x : Z) : Z := if (x <? 0)%Z then wrap64 (- x) else x.

(** The loop of [compareAllSecrets] over one more secret, with [matched]. *)
Definition compare_secret (canonical received : string) (matched : bool) (s : string) : bool :=
  if String.eqb s "" then matched
  else if String.eqb (hmac_sha256 s canonical) received then true
  else matched.
Definition compareAllSecrets (canonical received primary : string) (rotation : list string) : bool :=
  foldl (compare_secret canonical received) (compare_secret canonical received false primary) rotation.

(** What of a request is verified. *)
Record signed : Type := MkSigned {
  s_clientID : string;
  s_ts : string;
  s_nonce : string;
  s_sig : string;
  s_method : string;
  s_path : string;
  s_query : Values;
  s_body : string
}.

Section verify.
Context {S : Type} {store : NonceStore S}.

Definition verify (n : normalized) (now : moments) (s : signed) : GoM S verifyResult :=
  if String.eqb (s_clientID s) "" || String.eqb (s_ts s) "" || String.eqb (s_nonce s) "" || String.eqb (s_sig s) ""
  then go_ret (rejected OutcomeUnauthorized)
  else match ParseInt (s_ts s) with
  | None => go_ret (rejected OutcomeUnauthorized)
  | Some ts =>
      if (ts <=? 0)%Z || (maxSafeTimestamp <? ts)%Z then go_ret (rejected OutcomeUnauthorized)
      else
        let drift := abs64 (wrap64 (at_check now / Second - ts)) in
        if (SkewSeconds (n_cfg n) <? drift)%Z then go_ret (MkResult no_client false 401 OutcomeClockSkew drift)
        else match DecodeString (s_sig s) with
        | None => go_ret (rejected OutcomeSignatureInvalid)
        | Some receivedSig =>
            if negb (String.length receivedSig =? 32)%nat then go_ret (rejected OutcomeSignatureInvalid)
            else match validator n (s_clientID s) with
            | inr _ => go_ret (rejected OutcomeUnauthorized)
            | inl client =>
                if String.eqb (ClientID client) "" then go_ret (rejected OutcomeUnauthorized)
                else if String.eqb (Secret client) "" && bool_decide (Secrets client = [])
                then go_ret (rejected OutcomeUnauthorized)
                else
                  let canonical := canonicalRequest (s_method s) (s_path s) (s_query s) (s_body s) ts (s_nonce s) in
                  if negb (compareAllSecrets canonical receivedSig (Secret client) (Secrets client))
                  then go_ret (rejected OutcomeSignatureInvalid)
                  else if cfg_NonceStore (n_cfg n) then
                    let! (fresh, err) := SetNX (at_store now) (ctx_Err now)
                      ("nonce:" +:+ s_clientID s +:+ ":" +:+ s_nonce s) (NonceTTL (n_cfg n)) in
                    match err : option error with
                    | Some _ => go_ret (rejected OutcomeUnauthorized)
                    | None => if (fresh : bool) then go_ret (MkResult client true 0 OutcomeOK 0)
                              else go_ret (rejected OutcomeReplayDetected)
                    end
                  else go_ret (MkResult client true 0 OutcomeOK 0)
            end
        end
  end.
End verify.

(** * The identity of a request *)

(** Clients as values of type [any]: a code of the value under the name of its type. *)
#[export] Instance any_eq_dec : EqDecision any.
Proof. solve_decision. Defined.
#[export] Instance any_countable : Countable any.
Proof.
  refine (inj_countable'
    (λ a, match a with
     | AnyString s => inl (inl s) | AnyInt z => inl (inr z) | AnyBool b => inr (inl b) | AnyOther t i => inr (inr (t, i)) end)
    (λ x, match x with
     | inl (inl s) => AnyString s | inl (inr z) => AnyInt z | inr (inl b) => AnyBool b | inr (inr (t, i)) => AnyOther t i end)
    _); by intros [].
Defined.
#[export] Instance Client_eq_dec : EqDecision Client.
Proof. solve_decision. Defined.
#[export] Instance Client_countable : Countable Client.
Proof.
  refine (inj_countable' (λ c, (ClientID c, Secret c, Secrets c, Identity c))
    (λ x, let '(i, s, l, a) := x in MkClient i s l a) _); by intros [].
Defined.
#[export] Instance Principal_eq_dec : EqDecision Principal.
Proof. solve_decision. Defined.
#[export] Instance Principal_countable : Countable Principal.
Proof.
  refine (inj_countable' (λ c, (p_ClientID c, p_Identity c)) (λ x, let '(i, a) := x in MkPrincipal i a) _); by intros [].
Defined.

Definition any_of `{Countable T} (type : string) (t : T) : any := AnyOther type (Zpos (encode t)).
Definition as_type `{Countable T} (type : string) (a : any) : option T :=
  match a with
  | AnyOther type' (Zpos p) => if String.eqb type type' then decode p else None
  | _ => None
  end.

Definition identityStoreKey : string := "hmacAuthClient".
Definition principalStoreKey : string := "hmacAuthPrincipal".

Definition From_ (c : Ctx) : option Client := v ← CtxGet identityStoreKey c; as_type "hmacauth.Client" v.
Definition PrincipalFrom (c : Ctx) : option Principal := v ← CtxGet principalStoreKey c; as_type "hmacauth.Principal" v.

(** What both forms do with a verified client when there is a context. *)
Definition set_identity (client : Client) : GoM World unit :=
  mod_ctx (CtxSet identityStoreKey (any_of "hmacauth.Client" client)) ;;;
  mod_ctx (CtxSet principalStoreKey (any_of "hmacauth.Principal" (principalOf client))) ;;;
  SetContext ;;; SetContext.

(** * The middleware *)

Section middleware.
Context {S : Type} {store : NonceStore S}.
(** [http.StatusText] and the encoding of the error body by encoding/json. *)
Context (status_text : Z → string) (json_encode : payload → string).

Definition is_MaxBytes (e : error) : option unit :=
  match e with ErrorText m => if String.eqb m "http: request body too large" then Some tt else None | _ => None end.

(** The readers of the body: the bytes, or the status and outcome of a failure. *)
Definition readBody (n : normalized) : GoM World (string + Z * Outcome) :=
  let! r := get_ctx c_req in
  let! body := go_get (λ w, w_bodies w !! r_id r) in
  match body with
  | None => go_ret (inl "")
  | Some rd =>
      let limited := MaxBytesReader (MaxBodyBytes (n_cfg n)) rd in
      go_mod (λ w, set_w_bodies (<[r_id r := MkReader "" (rd_err limited)]> (w_bodies w)) w) ;;;
      match rd_err limited with
      | Some err =>
          go_ret (inr match errors_As is_MaxBytes err with
                      | Some _ => (413%Z, OutcomeBodyTooLarge)
                      | None => (401%Z, OutcomeUnauthorized)
                      end)
      | None => SetBody (MkReader (rd_data limited) None) ;;; go_ret (inl (rd_data limited))
      end
  end.

(** How much of a body that is too large was read depends on the sizes of its reads; nobody
    reads on. *)
Definition readBodyStdlib (n : normalized) (r : request) : GoM World (string + Z * Outcome) :=
  let! body := go_get (λ w, w_bodies w !! r_id r) in
  match body with
  | None => go_ret (inl "")
  | Some rd =>
      go_mod (λ w, set_w_bodies (<[r_id r := MkReader "" (rd_err rd)]> (w_bodies w)) w) ;;;
      if (MaxBodyBytes (n_cfg n) <? Z.of_nat (String.length (rd_data rd)))%Z
      then go_ret (inr (413%Z, OutcomeBodyTooLarge))
      else match rd_err rd with
      | Some _ => go_ret (inr (401%Z, OutcomeUnauthorized))
      | None =>
          go_mod (λ w, set_w_bodies (<[r_id r := MkReader (rd_data rd) None]> (w_bodies w)) w) ;;;
          let! ok := contextFromRequest r in
          (if (ok : bool) then SetBody (MkReader (rd_data rd) None) else go_ret tt) ;;;
          go_ret (inl (rd_data rd))
      end
  end.

Definition codeForStatus (status : Z) : string :=
  if (status =? 401)%Z then "unauthorized"
  else if (status =? 413)%Z then "payload_too_large"
  else status_text status.

Definition writeJSONError (w : wref) (r : request) (status : Z) (message : string) : GoM World unit :=
  let! ok := contextFromRequest r in
  let! rid := if (ok : bool) then get_ctx RequestID else go_ret "" in
  go_mod (wr_mod_header (header_set "Content-Type" "application/json; charset=utf-8")) ;;;
  go_mod (wr_WriteHeader w status) ;;;
  go_mod (wr_Write w (json_encode (PError (codeForStatus status) message "" rid))).

Definition errNative (n : normalized) (status : Z) (message : string) : HandlerFunc :=
  let status := if (status =? 0)%Z then 401%Z else status in
  match cfg_ErrorHandler (n_cfg n) with
  | Some h => h status message
  | None =>
      go_ret (Some (AsApp (if (status =? 413)%Z then NewError status "payload_too_large" message
                           else ErrUnauthorized message)))
  end.

Definition errStdlib (n : normalized) (w : wref) (r : request) (status : Z) (message : string) : GoM World unit :=
  let status := if (status =? 0)%Z then 401%Z else status in
  match cfg_ErrorHandler (n_cfg n) with
  | Some h =>
      let! ok := contextFromRequest r in
      if (ok : bool) then
        let! err := h status message in
        match err with Some _ => writeJSONError w r status message | None => go_ret tt end
      else writeJSONError w r status message
  | None => writeJSONError w r status message
  end.

Definition observe (n : normalized) (hasCtx : bool) (e : Event) : GoM World unit :=
  match cfg_Observer (n_cfg n) with Some f => f hasCtx e | None => go_ret tt end.
Definition failure_event (clientID : string) (outcome : Outcome) (status skew : Z) (now : moments) : Event :=
  MkEvent outcome clientID status skew (at_end now - at_start now).

(** What is verified of a request, its query decoded. *)
Definition signed_of (n : normalized) (r : request) (body : string) : signed :=
  let get h := header_get h (r_Header r) in
  MkSigned (get (ClientIDHeader (n_cfg n))) (get (TimestampHeader (n_cfg n))) (get (NonceHeader (n_cfg n)))
    (get (SignatureHeader (n_cfg n))) (r_Method r) (r_Path r) (Query (r_RawQuery r)) body.

Definition verifyNative (n : normalized) (now : moments) : GoM (World * S) (option error) :=
  let! r := on_fst (get_ctx c_req) in
  let clientID := header_get (ClientIDHeader (n_cfg n)) (r_Header r) in
  let! body := on_fst (readBody n) in
  match body with
  | inr (status, outcome) =>
      on_fst (observe n true (failure_event clientID outcome status 0 now) ;;;
              errNative n status (ErrorMessage (n_cfg n)))
  | inl body =>
      let! res := on_snd (verify n now (signed_of n r body)) in
      on_fst (
        if negb (res_ok res) then
          observe n true (failure_event clientID (res_outcome res) (res_status res) (res_skewSeconds res) now) ;;;
          errNative n (res_status res) (ErrorMessage (n_cfg n))
        else
          set_identity (res_client res) ;;;
          observe n true (failure_event (ClientID (res_client res)) OutcomeOK 0 0 now) ;;;
          go_ret None)
  end.

(** [r.WithContext(ctx)] with values added to the context of [r]: a copy of the request. *)
Definition with_values (r : request) : GoM World request := λ w,
  let r' := MkRequest (w_next w) (r_Method r) (r_Path r) (r_RawQuery r) (r_Header r)
              (r_RemoteAddr r) (r_TLS r) (r_ContentLength r) (r_marked r) in
  let bodies := match w_bodies w !! r_id r with
                | Some b => <[w_next w := b]> (w_bodies w)
                | None => w_bodies w
                end in
  (Ret r', set_w_next (Datatypes.S (w_next w)) (set_w_bodies bodies w)).

(** The request for the next handler, unless the answer is written. *)
Definition verifyStdlib (n : normalized) (now : moments) (w : wref) (r : request)
    : GoM (World * S) (option request) :=
  let clientID := header_get (ClientIDHeader (n_cfg n)) (r_Header r) in
  let! bridged := on_fst (contextFromRequest r) in
  let! body := on_fst (readBodyStdlib n r) in
  match body with
  | inr (status, outcome) =>
      on_fst (observe n bridged (failure_event clientID outcome status 0 now) ;;;
              errStdlib n w r status (ErrorMessage (n_cfg n)) ;;; go_ret None)
  | inl body =>
      let! res := on_snd (verify n now (signed_of n r body)) in
      on_fst (
        if negb (res_ok res) then
          observe n bridged (failure_event clientID (res_outcome res) (res_status res) (res_skewSeconds res) now) ;;;
          errStdlib n w r (res_status res) (ErrorMessage (n_cfg n)) ;;; go_ret None
        else
          let ok := failure_event (ClientID (res_client res)) OutcomeOK 0 0 now in
          if (bridged : bool) then
            set_identity (res_client res) ;;;
            observe n true ok ;;;
            let! raw := get_ctx c_req in go_ret (Some raw)
          else
            observe n false ok ;;;
            let! r' := with_values r in go_ret (Some r'))
  end.

Definition skip_native (n : normalized) (wd : World) : bool :=
  match cfg_Skipper (n_cfg n) with Some skip => skip wd | None => false end.

Definition native (n : normalized) (now : moments) (next : GoM (World * S) (option error))
    : GoM (World * S) (option error) :=
  let! skip := on_fst (go_get (skip_native n)) in
  if (skip : bool) then next
  else
    let! err := verifyNative n now in
    match err with Some err => go_ret (Some err) | None => next end.

Definition stdlib (n : normalized) (now : moments) (next : wref → request → GoM (World * S) unit)
    (w : wref) (r : request) : GoM (World * S) unit :=
  let! hasCtx := on_fst (contextFromRequest r) in
  let! skip := on_fst (go_get (λ wd, hasCtx && skip_native n wd)) in
  if (skip : bool) then next w r
  else
    let! r2 := verifyStdlib n now w r in
    match r2 with Some r2 => next w r2 | None => go_ret tt end.
End middleware.
