(* ===== verification/HmacAuthLaws.v ===== *)
(** Laws of signed requests: what is accepted is authentic and fresh, and nothing else reaches
    the handler. *)
From S2P Require Import Prelude GoStrings Http Response.
From S2P Require Import Errors RequestContext App Sha256 HmacCanonical NonceStore NonceStoreLaws HmacAuth.
From stdpp Require Import gmap countable.
Local Open Scope Z_scope.

(** * Verification *)

(** A request is authentic: its time is in the window, its client is known, and its signature
    is the HMAC of its text under a secret of the client. *)
Record authentic (n : normalized) (now : moments) (s : signed) (client : Client) : Prop := {
  au_id : s_clientID s ≠ "";
  au_nonce : s_nonce s ≠ "";
  au_client : validator n (s_clientID s) = inl client;
  au_named : ClientID client ≠ "";
  au_signature : ∃ ts secret, ParseInt (s_ts s) = Some ts ∧ 0 < ts <= maxSafeTimestamp ∧
    Z.abs (at_check now / Second - ts) <= SkewSeconds (n_cfg n) ∧
    secret ≠ "" ∧ (secret = Secret client ∨ secret ∈ Secrets client) ∧
    DecodeString (s_sig s) = Some (hmac_sha256 secret
      (canonicalRequest (s_method s) (s_path s) (s_query s) (s_body s) ts (s_nonce s)))
}.

Lemma authentic_client n now s c c' : authentic n now s c → authentic n now s c' → c = c'.
Proof. intros [_ _ H _ _] [_ _ H' _ _]. congruence. Qed.

Lemma compare_secret_spec canonical received b s :
  compare_secret canonical received b s = true ↔ b = true ∨ (s ≠ "" ∧ hmac_sha256 s canonical = received).
Proof.
  unfold compare_secret. destruct (String.eqb_spec s ""); [naive_solver|].
  destruct (String.eqb_spec (hmac_sha256 s canonical) received); naive_solver.
Qed.

Lemma compareAllSecrets_spec canonical received primary rotation :
  compareAllSecrets canonical received primary rotation = true ↔
  ∃ s, s ≠ "" ∧ (s = primary ∨ s ∈ rotation) ∧ hmac_sha256 s canonical = received.
Proof.
  unfold compareAllSecrets.
  assert (∀ b, foldl (compare_secret canonical received) b rotation = true ↔
    b = true ∨ ∃ s, s ≠ "" ∧ s ∈ rotation ∧ hmac_sha256 s canonical = received) as ->.
  { induction rotation as [|s l IH]; intros b; cbn [foldl].
    - split; [by left|]. intros [?|(s & _ & Hs & _)]; [done|]. by apply elem_of_nil in Hs.
    - rewrite IH, compare_secret_spec. setoid_rewrite elem_of_cons. naive_solver. }
  rewrite compare_secret_spec. naive_solver.
Qed.

Lemma drift_exact now ts : in_int64 now → 0 < ts <= maxSafeTimestamp →
  abs64 (wrap64 (now / Second - ts)) = Z.abs (now / Second - ts).
Proof.
  unfold in_int64, min_int64, max_int64, maxSafeTimestamp, Second. intros Hn Ht.
  assert (-9223372037 <= now / 1000000000 <= 9223372037).
  { split; [apply Z.div_le_lower_bound; lia|apply Z.div_le_upper_bound; lia]. }
  rewrite wrap64_small by (unfold in_int64, min_int64, max_int64; lia). unfold abs64.
  destruct (Z.ltb_spec (now / 1000000000 - ts) 0); [|lia].
  rewrite wrap64_small by (unfold in_int64, min_int64, max_int64; lia). lia.
Qed.

Lemma ParseInt_nonempty s ts : ParseInt s = Some ts → s ≠ "".
Proof. by intros H ->. Qed.

Section verify_laws.
Context {S : Type} {store : NonceStore S}.

Definition nonce_key (s : signed) : string := "nonce:" +:+ s_clientID s +:+ ":" +:+ s_nonce s.

(** What is left of the verification of an authentic request. *)
Definition check_nonce (n : normalized) (now : moments) (s : signed) (client : Client) : GoM S verifyResult :=
  let accepted := MkResult client true 0 OutcomeOK 0 in
  if cfg_NonceStore (n_cfg n) then
    go_bind (SetNX (at_store now) (ctx_Err now) (nonce_key s) (NonceTTL (n_cfg n))) (λ '(fresh, err),
      match err : option error with
      | Some _ => go_ret (rejected OutcomeUnauthorized)
      | None => if (fresh : bool) then go_ret accepted else go_ret (rejected OutcomeReplayDetected)
      end)
  else go_ret accepted.

Lemma verify_cases n now s : in_int64 (at_check now) →
  (∃ client, authentic n now s client ∧ verify n now s = check_nonce n now s client) ∨
  ((∀ client, ¬ authentic n now s client) ∧
   ∃ res, verify n now s = go_ret res ∧ res_ok res = false ∧ res_status res = 401 ∧ res_client res = no_client).
Proof.
  intros Hnow. unfold verify. unfold nonce_key, check_nonce.
  assert (∀ res, res_ok res = false → res_status res = 401 → res_client res = no_client →
    (∀ client, ¬ authentic n now s client) → (∃ client, authentic n now s client ∧ go_ret res = check_nonce n now s client) ∨
    ((∀ client, ¬ authentic n now s client) ∧
     ∃ res' : verifyResult, (go_ret res : GoM S verifyResult) = go_ret res' ∧ res_ok res' = false ∧ res_status res' = 401 ∧ res_client res' = no_client)) as Hrej.
  { intros res ????. right. split; [done|]. by exists res. }
  destruct (String.eqb_spec (s_clientID s) "") as [E|Hid]; [apply Hrej; try done; by intros c []|].
  destruct (String.eqb_spec (s_ts s) "") as [E|Hts].
  { apply Hrej; try done. intros c [_ _ _ _ (ts & ? & H & _)]. by apply ParseInt_nonempty in H. }
  destruct (String.eqb_spec (s_nonce s) "") as [E|Hnonce]; [apply Hrej; try done; by intros c []|].
  destruct (String.eqb_spec (s_sig s) "") as [E|Hsig].
  { apply Hrej; try done. intros c [_ _ _ _ (ts & k & _ & _ & _ & _ & _ & H)]. rewrite E in H. injection H as H.
    pose proof (hmac_sha256_length k (canonicalRequest (s_method s) (s_path s) (s_query s) (s_body s) ts (s_nonce s))) as Hl.
    by rewrite <-H in Hl. }
  cbn [orb]. destruct (ParseInt (s_ts s)) as [ts|] eqn:Ets.
  2: { apply Hrej; try done. intros c [_ _ _ _ (ts & ? & H & _)]. congruence. }
  destruct ((ts <=? 0) || (maxSafeTimestamp <? ts)) eqn:Erange.
  { apply Hrej; try done. intros c [_ _ _ _ (ts' & ? & H & Hr & _)]. rewrite Ets in H. injection H as ->.
    apply orb_true_iff in Erange as [?%Z.leb_le|?%Z.ltb_lt]; lia. }
  apply orb_false_iff in Erange as [H1%Z.leb_gt H2%Z.ltb_ge]. cbv zeta. rewrite drift_exact by done.
  destruct (Z.ltb_spec (SkewSeconds (n_cfg n)) (Z.abs (at_check now / Second - ts))) as [Hskew|Hskew].
  { apply Hrej; try done. intros c [_ _ _ _ (ts' & ? & H & _ & Hr & _)]. rewrite Ets in H. injection H as ->. lia. }
  destruct (DecodeString (s_sig s)) as [received|] eqn:Esig.
  2: { apply Hrej; try done. intros c [_ _ _ _ (ts' & ? & _ & _ & _ & _ & _ & H)]. congruence. }
  destruct (Nat.eqb_spec (String.length received) 32) as [Hlen|Hlen]; cbn [negb].
  2: { apply Hrej; try done. intros c [_ _ _ _ (ts' & k & _ & _ & _ & _ & _ & H)]. rewrite Esig in H. injection H as ->.
       by rewrite hmac_sha256_length in Hlen. }
  destruct (validator n (s_clientID s)) as [client|err] eqn:Ev.
  2: { apply Hrej; try done. intros c [_ _ H]. congruence. }
  destruct (String.eqb_spec (ClientID client) "") as [E|Hnamed].
  { apply Hrej; try done. intros c [_ _ H]. congruence. }
  destruct (String.eqb (Secret client) "" && bool_decide (Secrets client = [])) eqn:Enone.
  { apply Hrej; try done. apply andb_true_iff in Enone as [E1%String.eqb_eq E2%bool_decide_eq_true].
    intros c [_ _ H _ (ts' & k & _ & _ & _ & Hk & Hin & _)]. rewrite Ev in H. injection H as <-.
    rewrite E1, E2 in Hin. destruct Hin as [?|?%elem_of_nil]; done. }
  match goal with |- context [compareAllSecrets ?c ?r ?p ?l] => pose proof (compareAllSecrets_spec c r p l) as Hc;
    destruct (compareAllSecrets c r p l) end; cbn [negb].
  - left. exists client. split; [|done]. destruct Hc as [(k & Hk & Hin & <-) _]; [done|].
    split; try done. exists ts, k. split_and!; try done; lia.
  - apply Hrej; try done. intros c [_ _ H _ (ts' & k & Hts' & _ & _ & Hk & Hin & Hs)]. rewrite Ev in H. injection H as <-.
    rewrite Ets in Hts'. injection Hts' as <-. rewrite Esig in Hs. injection Hs as Hs.
    destruct Hc as [_ Hc]. discriminate Hc. by exists k.
Qed.

(** [C10] A request is accepted exactly if it is authentic and, with a store of nonces, its nonce
    is fresh: the headers are there, the time parses and lies in the window, the client is
    known, and the signature is the HMAC-SHA256 of the request's text under one of the client's
    secrets that is not empty. Every other request is answered with 401, and one that is not
    authentic leaves the store alone. *)
Theorem verify_accepts n now s st : in_int64 (at_check now) →
  let fresh st' := if cfg_NonceStore (n_cfg n)
    then SetNX (at_store now) (ctx_Err now) (nonce_key s) (NonceTTL (n_cfg n)) st = (Ret (true, None), st')
    else st' = st in
  (∀ client st', authentic n now s client → fresh st' →
     verify n now s st = (Ret (MkResult client true 0 OutcomeOK 0), st')) ∧
  (∀ res st', verify n now s st = (Ret res, st') → res_ok res = true →
     authentic n now s (res_client res) ∧ fresh st') ∧
  (∀ res st', verify n now s st = (Ret res, st') → res_ok res = false → res_status res = 401 ∧ res_client res = no_client) ∧
  ((∀ client, ¬ authentic n now s client) → (verify n now s st).2 = st).
Proof.
  intros Hnow. cbn zeta. destruct (verify_cases n now s Hnow) as [(client & Ha & ->)|(Hn & res & -> & Hok & Hst & Hc)].
  2: { split_and!; [by intros c ? ?%Hn|intros ?? [= <- <-]; congruence|by intros ?? [= <- <-]|done]. }
  unfold check_nonce. destruct (cfg_NonceStore (n_cfg n)).
  - rewrite go_bind_eq. split; [|split; [|split; [|intros H; by destruct (H client)]]].
    + intros c st' Hc ->. by rewrite (authentic_client _ _ _ _ _ Hc Ha).
    + intros res st'. destruct (SetNX _ _ _ _ st) as [[[[] []]|] st1]; intros [= <- <-] H; done.
    + intros res st'. destruct (SetNX _ _ _ _ st) as [[[[] []]|] st1]; intros [= <- <-] H; done.
  - split; [|split; [|split; [|intros H; by destruct (H client)]]].
    + intros c st' Hc ->. by rewrite (authentic_client _ _ _ _ _ Hc Ha).
    + by intros res st' [= <- <-].
    + by intros res st' [= <- <-].
Qed.
End verify_laws.

(** * Replays *)

(** Requests and ticks of the janitor, in the order in which they reach the store: what a
    verification does before is its own. *)
Inductive auth_event : Type :=
  | Attempt (now : moments) (s : signed)
  | Tick (now : Z).
Definition store_time (e : auth_event) : Z := match e with Attempt now _ => at_store now | Tick now => now end.
Definition clocked (e : auth_event) : Prop := match e with Attempt now _ => in_int64 (at_check now) | Tick _ => True end.

Section replay.
Context (iteration : gmap string memoryEntry → list (string * memoryEntry)).
Hypothesis iteration_all : ∀ m, iteration m ≡ₚ map_to_list m.
#[local] Instance in_memory : NonceStore MemoryNonceStore := memory_NonceStore iteration.

Definition auth_step (n : normalized) (h : history) (e : auth_event) : history :=
  match e with
  | Attempt now s =>
      match verify n now s (current h) with
      | (Ret res, st) => History st (if res_ok res then (at_store now, nonce_key s) :: accepted h else accepted h)
      | (Panic _, st) => History st (accepted h)
      end
  | Tick now => store_step iteration h (Sweep now)
  end.
Definition auth_run (n : normalized) (h : history) (l : list auth_event) : history := foldl (auth_step n) h l.

Lemma attempt_cases n h now s : in_int64 (at_check now) → cfg_NonceStore (n_cfg n) = true →
  (∃ res, verify n now s (current h) = (Ret res, current h) ∧ res_ok res = false ∧ auth_step n h (Attempt now s) = h) ∨
  (∃ client, authentic n now s client ∧
     mem_SetNX iteration (at_store now) None (nonce_key s) (NonceTTL (n_cfg n)) (current h) =
       (Ret (true, None), current (auth_step n h (Attempt now s))) ∧
     auth_step n h (Attempt now s) = store_step iteration h (Claim (at_store now) (nonce_key s) (NonceTTL (n_cfg n)))).
Proof.
  intros Hnow Hs. unfold auth_step. destruct (verify_cases n now s Hnow) as [(client & Ha & ->)|(Hn & res & -> & Hok & Hst & Hc)].
  2: { left. exists res. cbn. rewrite Hok. by destruct h. }
  unfold check_nonce. rewrite Hs, go_bind_eq. cbn [SetNX in_memory memory_NonceStore].
  destruct (ctx_Err now) as [err|]; [left; exists (rejected OutcomeUnauthorized); by destruct h|].
  destruct (SetNX_cases iteration (at_store now) (nonce_key s) (NonceTTL (n_cfg n)) (current h)) as [(e & _ & _ & E)|[_ E]].
  - left. exists (rejected OutcomeReplayDetected). rewrite E. by destruct h.
  - right. exists client. cbn [store_step]. by rewrite E.
Qed.

Lemma auth_step_store n h e : clocked e → cfg_NonceStore (n_cfg n) = true →
  auth_step n h e = h ∨ ∃ ev, auth_step n h e = store_step iteration h ev ∧ event_time ev = store_time e.
Proof.
  intros Hc Hs. destruct e as [now s|now]; [|right; by exists (Sweep now)].
  destruct (attempt_cases n h now s Hc Hs) as [(res & _ & _ & E)|(client & _ & _ & E)]; [by left|right].
  by exists (Claim (at_store now) (nonce_key s) (NonceTTL (n_cfg n))).
Qed.

Lemma auth_run_store n l h t0 t : Forall clocked l → Forall (λ e, t0 ≤ store_time e ≤ t) l → cfg_NonceStore (n_cfg n) = true →
  ∃ evs, auth_run n h l = store_run iteration h evs ∧ Forall (λ e, t0 ≤ event_time e ≤ t) evs.
Proof.
  intros Hc Ht Hs. revert h. induction l as [|e l IH]; intros h; [by exists []|].
  destruct (Forall_cons_1 _ _ _ Hc) as [He Hcl], (Forall_cons_1 _ _ _ Ht) as [Hte Htl]. unfold auth_run. cbn [foldl].
  destruct (IH Hcl Htl (auth_step n h e)) as (evs & E & Hev).
  destruct (auth_step_store n h e He Hs) as [E'|(ev & E' & Et)]; rewrite E' in E.
  - exists evs. rewrite E'. done.
  - exists (ev :: evs). rewrite E'. split; [exact E|]. constructor; [lia|done].
Qed.

Lemma auth_run_max n l h : Forall clocked l → cfg_NonceStore (n_cfg n) = true →
  NonceStore.max (current (auth_run n h l)) = NonceStore.max (current h).
Proof.
  intros Hc Hs. revert h. induction Hc as [|e l He _ IH]; intros h; [done|]. unfold auth_run. cbn [foldl].
  etransitivity; [apply IH|]. destruct (auth_step_store n h e He Hs) as [->|(ev & -> & _)]; [done|apply step_max].
Qed.

Lemma auth_history_ok n l h : Forall clocked l → cfg_NonceStore (n_cfg n) = true → history_ok h → history_ok (auth_run n h l).
Proof.
  intros Hc Hs. revert h. induction Hc as [|e l He _ IH]; intros h Hh; [done|]. apply IH.
  destruct (auth_step_store n h e He Hs) as [->|(ev & -> & _)]; [done|by apply store_step_ok].
Qed.

Lemma normalize_default cfg n : normalize cfg = Ret n → NonceTTL cfg = 0 → SkewSeconds cfg <= 4000000000 →
  0 < SkewSeconds (n_cfg n) ∧ NonceTTL (n_cfg n) = (2 * SkewSeconds (n_cfg n) + 60) * Second ∧
  cfg_NonceStore (n_cfg n) = cfg_NonceStore cfg.
Proof.
  unfold normalize. intros H Ht Hk. destruct (cfg_Validator cfg); [|done]. rewrite Ht in H. cbn in H.
  destruct (Z.ltb_spec (SkewSeconds cfg) 0); [done|]. destruct (_ <? 0); [done|]. injection H as <-. cbn [n_cfg SkewSeconds NonceTTL cfg_NonceStore].
  set (skew := if SkewSeconds cfg =? 0 then DefaultSkewSeconds else SkewSeconds cfg).
  assert (0 < skew <= 4000000000) as Hskew by (unfold skew, DefaultSkewSeconds; destruct (Z.eqb_spec (SkewSeconds cfg) 0); lia).
  split_and!; [lia| |done]. unfold Second.
  rewrite (wrap64_small (2 * skew)), (wrap64_small (2 * skew * 1000000000)), wrap64_small;
    unfold in_int64, min_int64, max_int64; lia.
Qed.

(** [C11] A request that was accepted is not accepted again, however requests to the store are
    interleaved: with the default lifetime of nonces a copy of it is either out of the window
    of time or its nonce is remembered, unless since then as many other requests were accepted
    as the store has room for. The lifetime covers verifications that take up to 59 seconds from
    their check of the time to the store. *)
Theorem replay_refused cfg n M st0 before now1 s1 between now2 s2 :
  normalize cfg = Ret n → cfg_NonceStore cfg = true → NonceTTL cfg = 0 → SkewSeconds cfg <= 4000000000 →
  NewMemoryNonceStore M = Ret st0 →
  Forall clocked before → Forall clocked (Attempt now1 s1 :: between) → in_int64 (at_check now2) →
  at_check now1 <= at_store now1 → at_store now2 < at_check now2 + 59 * Second →
  Forall (λ e, at_store now1 <= store_time e <= at_store now2) between →
  s_clientID s2 = s_clientID s1 → s_nonce s2 = s_nonce s1 → s_ts s2 = s_ts s1 →
  let h1 := auth_run n (History st0 []) before in
  let h2 := auth_run n h1 (Attempt now1 s1 :: between) in
  (∃ client, (verify n now1 s1 (current h1)).1 = Ret (MkResult client true 0 OutcomeOK 0)) →
  (∃ res, verify n now2 s2 (current h2) = (Ret res, current h2) ∧ res_ok res = false) ∨
  M < Z.of_nat (accepted_since (at_store now1) h2).
Proof.
  intros Hn Hs Ht Hskew HM Hb Hcs Hc2 Hclock1 Hclock2 Htimes Hid Hnonce Hts h1 h2 (c1 & Hv1).
  destruct (Forall_cons_1 _ _ _ Hcs) as [Hc1 Hbt]. cbn in Hc1.
  destruct (normalize_default cfg n Hn Ht Hskew) as (Hpos & Httl & Hs'). rewrite Hs in Hs'.
  assert (history_ok h1) as Hok1 by (by apply auth_history_ok; [..|eapply initial_history_ok]).
  destruct (attempt_cases n h2 now2 s2 Hc2 Hs') as [(res & E & Hr & _)|(client & Ha2 & E2 & _)]; [left; by exists res|right].
  destruct (attempt_cases n h1 now1 s1 Hc1 Hs') as [(res & E & Hr & _)|(client1 & Ha1 & E1 & Estep)].
  { rewrite E in Hv1. cbn in Hv1. injection Hv1 as ->. done. }
  assert (NonceStore.max (current h1) = M) as HMax.
  { unfold h1. rewrite (auth_run_max n before) by done.
    unfold NewMemoryNonceStore in HM. destruct (M <=? 0); [done|]. by injection HM as <-. }
  assert (at_store now2 < at_store now1 + NonceTTL (n_cfg n)) as Hlive.
  { destruct (au_signature _ _ _ _ Ha1) as (ts & k & Hp & _ & Hw & _), (au_signature _ _ _ _ Ha2) as (ts' & k' & Hp' & _ & Hw' & _).
    rewrite Hts, Hp in Hp'. injection Hp' as <-. rewrite Httl. unfold Second in *.
    pose proof (Z.mul_div_le (at_check now1) 1000000000). pose proof (Z.mul_succ_div_gt (at_check now2) 1000000000). lia. }
  destruct (auth_run_store n between (auth_step n h1 (Attempt now1 s1)) (at_store now1) (at_store now2)) as (evs & Erun & Hevs); try done.
  rewrite <-HMax. unfold h2. unfold auth_run in *. cbn [foldl]. rewrite Erun, Estep.
  eapply (accepted_once iteration iteration_all _ _ _ (NonceTTL (n_cfg n))); [done|by rewrite E1| |exact Hlive|].
  { eapply Forall_impl; [|exact Hevs]. cbn. lia. }
  rewrite <-Estep, <-Erun. change (foldl (auth_step n) (auth_step n h1 (Attempt now1 s1)) between) with h2.
  unfold nonce_key in *. rewrite Hid, Hnonce in E2. by rewrite E2.
Qed.
End replay.

(** * The middleware *)

Lemma as_type_any `{Countable T} type (t : T) : as_type type (any_of type t) = Some t.
Proof. unfold as_type, any_of. by rewrite String.eqb_refl, decode_encode. Qed.

(** A copy of the context's request has the body of the one before. *)
Lemma SetContext_spec wd : ∃ wd', SetContext wd = (Ret tt, wd') ∧ c_store (w_ctx wd') = c_store (w_ctx wd) ∧
  c_requestIDSet (w_ctx wd') = c_requestIDSet (w_ctx wd) ∧
  ∀ b, w_bodies wd !! r_id (c_req (w_ctx wd)) = Some b → w_bodies wd' !! r_id (c_req (w_ctx wd')) = Some b.
Proof.
  unfold SetContext, forget_request, WithContext, deleteRequestContext. go_step.
  destruct (negb _ && negb _); (eexists; split; [reflexivity|]; world_simpl; split_and!; try done;
    cbn [r_id]; intros b Hb; rewrite Hb; apply lookup_insert_eq).
Qed.

Lemma set_identity_spec client wd : ∃ wd', set_identity client wd = (Ret tt, wd') ∧
  From_ (w_ctx wd') = Some client ∧ PrincipalFrom (w_ctx wd') = Some (principalOf client) ∧
  ∀ b, w_bodies wd !! r_id (c_req (w_ctx wd)) = Some b → w_bodies wd' !! r_id (c_req (w_ctx wd')) = Some b.
Proof.
  unfold set_identity. set (wd1 := set_w_ctx (CtxSet principalStoreKey (any_of "hmacauth.Principal" (principalOf client))
    (CtxSet identityStoreKey (any_of "hmacauth.Client" client) (w_ctx wd))) wd).
  destruct (SetContext_spec wd1) as (wd2 & E2 & Hs2 & _ & Hb2), (SetContext_spec wd2) as (wd3 & E3 & Hs3 & _ & Hb3).
  exists wd3. split; [|split; [|split]].
  - transitivity (go_bind SetContext (λ _, SetContext) wd1); [reflexivity|]. by rewrite go_bind_eq, E2.
  - unfold From_, CtxGet, store_lookup. cbn [String.eqb andb]. rewrite Hs3, Hs2. cbn.
    rewrite lookup_insert_ne, lookup_insert_eq by done. apply as_type_any.
  - unfold PrincipalFrom, CtxGet, store_lookup. cbn [String.eqb andb]. rewrite Hs3, Hs2. cbn.
    rewrite lookup_insert_eq. apply as_type_any.
  - intros b Hb. apply Hb3, Hb2. done.
Qed.

Section guard.
Context {S : Type} {store : NonceStore S}.
Hypothesis SetNX_returns : ∀ t err k ttl (st : S), ∃ o st', SetNX t err k ttl st = (Ret o, st').

Lemma verify_returns n now s st :
  (∃ client st', verify n now s st = (Ret (MkResult client true 0 OutcomeOK 0), st')) ∨
  (∃ res st', verify n now s st = (Ret res, st') ∧ res_ok res = false ∧ res_status res = 401).
Proof.
  unfold verify. repeat case_match; try by (right; do 2 eexists; split; [reflexivity|done]).
  - cbn zeta. rewrite go_bind_eq. destruct (SetNX_returns (at_store now) (ctx_Err now) (nonce_key s) (NonceTTL (n_cfg n)) st) as ([fresh err] & st' & E).
    unfold nonce_key in E. rewrite E. destruct err; [right; do 2 eexists; split; [reflexivity|done]|].
    destruct fresh; [left; by do 2 eexists|right; do 2 eexists; split; [reflexivity|done]].
  - left. by do 2 eexists.
Qed.

Lemma readBody_cases n wd : let r := c_req (w_ctx wd) in
  (∃ b wd1, readBody n wd = (Ret (inl b), wd1) ∧ c_req (w_ctx wd1) = r ∧
     ∀ rd, w_bodies wd !! r_id r = Some rd → w_bodies wd1 !! r_id r = Some (MkReader b None)) ∨
  (∃ status outcome wd1, readBody n wd = (Ret (inr (status, outcome)), wd1) ∧ (status = 401 ∨ status = 413)).
Proof.
  intros r. unfold readBody, SetBody. go_step. fold r. destruct (w_bodies wd !! r_id r) as [rd|] eqn:E.
  - destruct (rd_err (MaxBytesReader _ rd)) as [err|] eqn:Er.
    + right. destruct (errors_As is_MaxBytes err); (do 3 eexists; split; [reflexivity|]); auto.
    + left. do 2 eexists. split; [reflexivity|]. world_simpl. split; [done|]. intros _ _. apply lookup_insert_eq.
  - left. do 2 eexists. split; [reflexivity|]. split; [done|]. intros rd. fold r. congruence.
Qed.

Lemma readBodyStdlib_cases n wd r : c_req (w_ctx wd) = r → contextFromRequest r wd = (Ret true, wd) →
  (∃ b wd1, readBodyStdlib n r wd = (Ret (inl b), wd1) ∧ c_req (w_ctx wd1) = r ∧ w_registry wd1 = w_registry wd ∧
     ∀ rd, w_bodies wd !! r_id r = Some rd → w_bodies wd1 !! r_id r = Some (MkReader b None)) ∨
  (∃ status outcome wd1, readBodyStdlib n r wd = (Ret (inr (status, outcome)), wd1) ∧ (status = 401 ∨ status = 413)).
Proof.
  rewrite contextFromRequest_eq. intros Hr [= Hc]. unfold readBodyStdlib, SetBody, contextFromRequest. go_step.
  destruct (w_bodies wd !! r_id r) as [rd|] eqn:E.
  - destruct (_ <? _); [right; do 3 eexists; split; [reflexivity|auto]|].
    destruct (rd_err rd); [right; do 3 eexists; split; [reflexivity|auto]|]. left. world_simpl. rewrite Hc. world_simpl. rewrite Hr.
    do 2 eexists. split; [reflexivity|]. world_simpl. split; [done|]. split; [done|]. intros _ _. apply lookup_insert_eq.
  - left. do 2 eexists. split; [reflexivity|]. split; [done|]. split; [done|]. congruence.
Qed.

(** What a handler finds after a verification: the client, and the verified bytes as its body. *)
Definition identified (client : Client) (body : string) (wd wd' : World) : Prop :=
  From_ (w_ctx wd') = Some client ∧ PrincipalFrom (w_ctx wd') = Some (principalOf client) ∧
  ∀ rd, w_bodies wd !! r_id (c_req (w_ctx wd)) = Some rd →
    w_bodies wd' !! r_id (c_req (w_ctx wd')) = Some (MkReader body None).

Lemma verifyNative_cases n now wd st r :
  cfg_ErrorHandler (n_cfg n) = None → cfg_Observer (n_cfg n) = None → c_req (w_ctx wd) = r →
  (∃ body client wd' st', verify n now (signed_of n r body) st = (Ret (MkResult client true 0 OutcomeOK 0), st') ∧
     identified client body wd wd' ∧ verifyNative n now (wd, st) = (Ret None, (wd', st'))) ∨
  (∃ err wd' st', (StatusCode err = 401 ∨ StatusCode err = 413) ∧
     verifyNative n now (wd, st) = (Ret (Some (AsApp err)), (wd', st'))).
Proof.
  intros Heh Hobs Hr. unfold verifyNative, observe, errNative. rewrite Heh, Hobs.
  erewrite on_fst_bind by reflexivity. cbv beta. rewrite Hr.
  destruct (readBody_cases n wd) as [(b & wd1 & Eb & Hr1 & Hb)|(status & outcome & wd1 & Eb & Hst)];
    rewrite (on_fst_bind _ _ _ _ _ _ Eb).
  2: { right. destruct Hst as [-> | ->]; do 3 eexists; (split; [|apply on_fst_run; reflexivity]); auto. }
  destruct (verify_returns n now (signed_of n r b) st) as [(client & st' & Ev)|(res & st' & Ev & Hok & Hst)];
    rewrite (on_snd_bind _ _ _ _ _ _ Ev).
  - left. destruct (set_identity_spec client wd1) as (wd' & Ei & Hf & Hp & Hbd). exists b, client, wd', st'.
    split; [done|]. split.
    + split; [done|]. split; [done|]. intros rd Hrd. apply Hbd. rewrite Hr1. by apply (Hb rd).
    + cbn [res_ok negb res_client]. apply on_fst_run. by rewrite go_bind_eq, Ei.
  - right. rewrite Hok, Hst. do 3 eexists. split; [|apply on_fst_run; reflexivity]. by left.
Qed.

Lemma verifyStdlib_cases status_text json_encode n now wd st w r :
  cfg_ErrorHandler (n_cfg n) = None → cfg_Observer (n_cfg n) = None →
  c_req (w_ctx wd) = r → contextFromRequest r wd = (Ret true, wd) →
  (∃ body client wd' st', verify n now (signed_of n r body) st = (Ret (MkResult client true 0 OutcomeOK 0), st') ∧
     identified client body wd wd' ∧
     verifyStdlib status_text json_encode n now w r (wd, st) = (Ret (Some (c_req (w_ctx wd'))), (wd', st'))) ∨
  (∃ status wd1 st', (status = 401 ∨ status = 413) ∧
     verifyStdlib status_text json_encode n now w r (wd, st) =
       (Ret None, ((writeJSONError status_text json_encode w r status (ErrorMessage (n_cfg n)) wd1).2, st'))).
Proof.
  intros Heh Hobs Hr Hctx. unfold verifyStdlib, observe, errStdlib. rewrite Heh, Hobs.
  rewrite (on_fst_bind _ _ _ _ _ _ Hctx). cbv beta.
  assert (∀ status wd1, go_bind (writeJSONError status_text json_encode w r status (ErrorMessage (n_cfg n)))
    (λ _, go_ret (None : option request)) wd1 =
    (Ret None, (writeJSONError status_text json_encode w r status (ErrorMessage (n_cfg n)) wd1).2)) as Hw.
  { intros status wd1. unfold writeJSONError, contextFromRequest. go_step. by destruct (r_marked r || _). }
  destruct (readBodyStdlib_cases n wd r Hr Hctx) as [(b & wd1 & Eb & Hr1 & Hreg & Hb)|(status & outcome & wd1 & Eb & Hst)];
    rewrite (on_fst_bind _ _ _ _ _ _ Eb).
  2: { right. exists status, wd1, st. split; [done|]. apply on_fst_run. rewrite go_bind_eq. cbn [go_ret].
       assert ((status =? 0) = false) as -> by (destruct Hst as [-> | ->]; done). apply Hw. }
  destruct (verify_returns n now (signed_of n r b) st) as [(client & st' & Ev)|(res & st' & Ev & Hok & Hst)];
    rewrite (on_snd_bind _ _ _ _ _ _ Ev).
  - left. destruct (set_identity_spec client wd1) as (wd' & Ei & Hf & Hp & Hbd). exists b, client, wd', st'.
    split; [done|]. split.
    + split; [done|]. split; [done|]. intros rd Hrd. apply Hbd. rewrite Hr1. apply (Hb rd). by rewrite <-Hr.
    + cbn [res_ok negb res_client]. apply on_fst_run. by rewrite go_bind_eq, Ei.
  - right. exists 401, wd1, st'. split; [by left|]. rewrite Hok. apply on_fst_run. cbn [negb]. rewrite go_bind_eq, Hst. apply Hw.
Qed.

(** [C19] Without an error handler and an observer in the configuration, for a request that is not
    skipped and whose context is found: in both forms a handler runs only for a request whose
    verification accepts it, with its body read whole, and it finds the verified client and exactly
    the verified bytes; every other request is answered with 401 or 413, whatever the handler is. *)
Theorem handler_guarded status_text json_encode n now wd st w r :
  cfg_ErrorHandler (n_cfg n) = None → cfg_Observer (n_cfg n) = None → skip_native n wd = false →
  c_req (w_ctx wd) = r → contextFromRequest r wd = (Ret true, wd) →
  ((∃ body client wd' st', verify n now (signed_of n r body) st = (Ret (MkResult client true 0 OutcomeOK 0), st') ∧
      identified client body wd wd' ∧ ∀ next, native n now next (wd, st) = next (wd', st')) ∨
   (∃ err wd' st', (StatusCode err = 401 ∨ StatusCode err = 413) ∧
      ∀ next, native n now next (wd, st) = (Ret (Some (AsApp err)), (wd', st')))) ∧
  ((∃ body client wd' st', verify n now (signed_of n r body) st = (Ret (MkResult client true 0 OutcomeOK 0), st') ∧
      identified client body wd wd' ∧
      ∀ next, stdlib status_text json_encode n now next w r (wd, st) = next w (c_req (w_ctx wd')) (wd', st')) ∨
   (∃ status wd1 st', (status = 401 ∨ status = 413) ∧
      ∀ next, stdlib status_text json_encode n now next w r (wd, st) =
        (Ret tt, ((writeJSONError status_text json_encode w r status (ErrorMessage (n_cfg n)) wd1).2, st')))).
Proof.
  intros Heh Hobs Hskip Hr Hctx. split.
  - unfold native. destruct (verifyNative_cases n now wd st r Heh Hobs Hr) as
      [(b & client & wd' & st' & Hv & Hi & E)|(err & wd' & st' & Hst & E)]; [left; exists b, client, wd', st'; split; [done|]; split; [done|]|right; exists err, wd', st'; split; [done|]];
      intros next; erewrite on_fst_bind by reflexivity; cbv beta; rewrite Hskip; by rewrite go_bind_eq, E.
  - unfold stdlib. destruct (verifyStdlib_cases status_text json_encode n now wd st w r Heh Hobs Hr Hctx) as
      [(b & client & wd' & st' & Hv & Hi & E)|(status & wd1 & st' & Hst & E)]; [left; exists b, client, wd', st'; split; [done|]; split; [done|]|right; exists status, wd1, st'; split; [done|]];
      intros next; rewrite (on_fst_bind _ _ _ _ _ _ Hctx); erewrite on_fst_bind by reflexivity; cbv beta; rewrite Hskip; cbn [andb]; by rewrite go_bind_eq, E.
Qed.
End guard.

(** A configured error handler that answers the request itself, as one that ends in [c.JSON]
    does, returns nil, and the native form takes that for an accepted request: the handler
    runs for a request whose verification failed. *)
Theorem error_handler_lets_pass {S} {store : NonceStore S} n now wd st h body wd1 res st' wd2 :
  cfg_ErrorHandler (n_cfg n) = Some h → cfg_Observer (n_cfg n) = None → skip_native n wd = false →
  readBody n wd = (Ret (inl body), wd1) → verify n now (signed_of n (c_req (w_ctx wd)) body) st = (Ret res, st') →
  res_ok res = false → h (if res_status res =? 0 then 401 else res_status res) (ErrorMessage (n_cfg n)) wd1 = (Ret None, wd2) →
  ∀ next, native n now next (wd, st) = next (wd2, st').
Proof.
  intros Heh Hobs Hskip Hb Hv Hok Hh next. unfold native. erewrite on_fst_bind by reflexivity. cbv beta. rewrite Hskip.
  assert (verifyNative n now (wd, st) = (Ret None, (wd2, st'))) as E; [|by rewrite go_bind_eq, E].
  unfold verifyNative, observe, errNative. rewrite Heh, Hobs. erewrite on_fst_bind by reflexivity. cbv beta.
  rewrite (on_fst_bind _ _ _ _ _ _ Hb), (on_snd_bind _ _ _ _ _ _ Hv), Hok. by apply on_fst_run.
Qed.

(** * Examples and witnesses *)

(** The published test vectors (plugins/hmacauth/testdata/vectors.json). *)
Inductive vector : Type :=
  | Vector (client_id secret_hex method path query body : string) (timestamp : Z) (nonce sig_hex : string).
Definition published : list vector := [
  Vector "alpha" "00112233445566778899aabbccddeeff00112233445566778899aabbccddeeff"
    "GET" "/health" ""
    "" 1735689600 "00000000000000000000000000000001"
    "acbae383e46a07d69402fd46e15066f99f2e689fe3efbdb70940993f721b6735";
  Vector "beta" "deadbeefcafef00d0102030405060708090a0b0c0d0e0f101112131415161718"
    "POST" "/v1/links" ""
    (of_codes [123; 34; 116; 97; 114; 103; 101; 116; 34; 58; 34; 104; 116; 116; 112; 115; 58; 47; 47; 101; 120; 97; 109; 112; 108; 101; 46; 99; 111; 109; 34; 125]%Z) 1735689601 "00000000000000000000000000000002"
    "e5eef85cb5650475768f552a1c80b23fca5e1213bfe514b140c19919214679be";
  Vector "gamma" "11223344556677889900aabbccddeeff"
    "PATCH" "/v1/links/abc" "actor=admin"
    (of_codes [123; 34; 108; 97; 98; 101; 108; 34; 58; 34; 195; 169; 45; 195; 174; 45; 195; 191; 34; 125]%Z) 1735689602 "00000000000000000000000000000003"
    "4a58805b7d98ce3fc08bc5b95d239449ebada291f4fa72156fd1d7710b205b5e";
  Vector "delta" "ff"
    "PUT" "/v1/blobs/01" ""
    (of_codes [0; 1; 2; 3; 4; 5; 6; 7; 8; 9; 10; 11; 12; 13; 14; 15; 16; 17; 18; 19; 20; 21; 22; 23; 24; 25; 26; 27; 28; 29; 30; 31]%Z) 1735689603 "00000000000000000000000000000004"
    "2db6bedc59e6cde8166e16d48dc911b24f2499a33de249478c27b509f5cf05ed";
  Vector "alpha" "00112233445566778899aabbccddeeff00112233445566778899aabbccddeeff"
    "GET" "/v1/search" "q=hello+world"
    "" 1735689604 "00000000000000000000000000000005"
    "99ccb7947680d2a4bef90a77efbc9377a312d0b809b45f32f966909c24bb7bf4";
  Vector "alpha" "00112233445566778899aabbccddeeff00112233445566778899aabbccddeeff"
    "GET" "/v1/search" "tag=zoo&tag=alpha&tag=bravo"
    "" 1735689605 "00000000000000000000000000000006"
    "6a96c2cfb22b1d9e426e2c1c02ac711ab77eefac6f6681010ee5717c86f57efd";
  Vector "alpha" "00112233445566778899aabbccddeeff00112233445566778899aabbccddeeff"
    "GET" "/v1/search" "q=hello%20world&filter=name%3Dfoo"
    "" 1735689606 "00000000000000000000000000000007"
    "afef9187a90786f2060015b0e372805d6e4272d9bfbdd3db1d2a9705cecc7c06";
  Vector "alpha" "00112233445566778899aabbccddeeff00112233445566778899aabbccddeeff"
    "GET" "/v1/orgs/acme/projects/widgets/issues/12345/comments/0001/replies/abcdef0123456789abcdef0123456789" ""
    "" 1735689607 "00000000000000000000000000000008"
    "de6b3adf77ffbd2d02286a57b5aab995c337fa3eeb8fdf9cd68570b353a03768";
  Vector "alpha" "00112233445566778899aabbccddeeff00112233445566778899aabbccddeeff"
    "POST" "/v1/blocks" ""
    "AAAAAAAAAAAAAAAAAAAAAAAAAAAAAAAAAAAAAAAAAAAAAAAAAAAAAAAAAAAAAAAAA" 1735689608 "00000000000000000000000000000009"
    "07ce15ce318ca7f19cb162a7ae91af59e5096c718886380a54ff3cdfe4f448d1";
  Vector "alpha" "00112233445566778899aabbccddeeff00112233445566778899aabbccddeeff"
    "DELETE" "/v1/links/xyz" ""
    "" 1735689609 "0000000000000000000000000000000a"
    "3cec0dc96c65921f51f5b20766fa67e9b22b7879e6e4f18e4accdf81f7e18885" ].

(** Every vector is accepted by a server that knows its client, at the time it was signed. *)
Definition at_time (t : Z) : moments := MkMoments (t * Second) (t * Second) (t * Second) (t * Second) None.
Definition knows (id secret : string) : Config :=
  MkConfig (Some (λ i, if String.eqb i id then inl (MkClient id secret [] None) else inr errUnknownClient))
    true "" "" "" "" 0 0 0 "" None None None.
Definition by_map : gmap string memoryEntry → list (string * memoryEntry) := map_to_list.
Definition accepts (v : vector) : bool :=
  let '(Vector id secret_hex method path query body ts nonce sig) := v in
  match DecodeString secret_hex, NewMemoryNonceStore 8 with
  | Some secret, Ret st =>
      match normalize (knows id secret) with
      | Ret n =>
          match verify (store := memory_NonceStore by_map) n (at_time ts)
            (MkSigned id (itoa ts) nonce sig method path (Query query) body) st with
          | (Ret res, _) => res_ok res
          | _ => false
          end
      | _ => false
      end
  | _, _ => false
  end.
Example vectors_accepted : forallb accepts published = true.
Proof. vm_compute. reflexivity. Qed.

(** A signed request, the server that knows its client, and a store for two nonces. *)
Definition demo_n : normalized :=
  match normalize (knows "alpha" "secret") with Ret n => n | Panic _ => MkNormalized (λ _, inr errUnknownClient) DefaultConfig end.
Definition demo_text : string := canonicalRequest "GET" "/x" (Query "b=2&a=1") "body" 1735689600 "n1".
Definition demo_signed : signed :=
  MkSigned "alpha" "1735689600" "n1" (appendHex "" (hmac_sha256 "secret" demo_text)) "GET" "/x" (Query "a=1&b=2") "body".
Definition two_nonces : MemoryNonceStore := MkStore ∅ 2.
Definition memory : NonceStore MemoryNonceStore := memory_NonceStore by_map.

Lemma verify_accepts_witness : ∃ st',
  verify (store := memory) demo_n (at_time 1735689700) demo_signed two_nonces =
    (Ret (MkResult (MkClient "alpha" "secret" [] None) true 0 OutcomeOK 0), st').
Proof.
  destruct (verify_accepts (store := memory) demo_n (at_time 1735689700) demo_signed two_nonces) as [H _].
  { vm_compute. split; discriminate. }
  eexists. apply H; [|reflexivity]. split; [discriminate|discriminate|reflexivity|discriminate|].
  exists 1735689600, "secret". split_and!; try (vm_compute; done); by left.
Defined.

(** The same request 100 seconds later, and a copy of it after that. *)
Lemma replay_refused_witness :
  let now1 := at_time 1735689600 in let now2 := at_time 1735689700 in
  let h := auth_run by_map demo_n (History two_nonces []) [Attempt now1 demo_signed] in
  ∃ res, verify (store := memory) demo_n now2 demo_signed (current h) = (Ret res, current h) ∧ res_ok res = false.
Proof.
  intros now1 now2 h.
  assert (∀ t, 0 <= t <= 2000000000 → in_int64 (at_check (at_time t))) as Ht.
  { intros t. unfold in_int64, min_int64, max_int64, at_time, Second. cbn [at_check]. lia. }
  destruct (replay_refused by_map (λ m, Permutation_refl _) (knows "alpha" "secret") demo_n 2 two_nonces [] now1 demo_signed [] now2 demo_signed)
    as [H|H];
    [vm_compute; reflexivity|reflexivity|reflexivity|cbn; lia|reflexivity|constructor
    |constructor; [apply Ht; lia|constructor]|apply Ht; lia|apply Z.le_refl|reflexivity|constructor
    |reflexivity|reflexivity|reflexivity|exists (MkClient "alpha" "secret" [] None); vm_compute; reflexivity
    |exact H|exfalso; vm_compute in H; discriminate H].
Defined.

(** An unsigned request does not reach the handler, in either form. *)
Definition auth_request : request := MkRequest 0 "GET" "/x" "" ∅ "10.0.0.7:4711" false 5 true.
Definition auth_world : World := set_w_ctx (reset WBase auth_request ∅ demo_ctx) demo_world.
Definition ran : GoM (World * MemoryNonceStore) (option error) := go_panic "the handler ran".

Lemma handler_guarded_witness :
  (native (store := memory) demo_n (at_time 0) ran (auth_world, two_nonces)).1 ≠ Panic "the handler ran" ∧
  (stdlib (store := memory) (λ _, "") (λ _, "") demo_n (at_time 0) (λ _ _, go_panic "the handler ran") WBase auth_request
     (auth_world, two_nonces)).1 ≠ Panic "the handler ran".
Proof.
  destruct (handler_guarded (store := memory) ltac:(intros t err k ttl st; unfold SetNX, memory, memory_NonceStore, mem_SetNX;
      destruct err; [by do 2 eexists|]; case_match; by do 2 eexists)
    (λ _, "") (λ _, "") demo_n (at_time 0) auth_world two_nonces WBase auth_request) as [H1 H2]; try reflexivity.
  split.
  - destruct H1 as [(b & client & wd' & st' & Hv & _)|(err & wd' & st' & _ & H)]; [discriminate Hv|].
    rewrite H. discriminate.
  - destruct H2 as [(b & client & wd' & st' & Hv & _)|(status & wd1 & st' & _ & H)]; [discriminate Hv|].
    rewrite H. discriminate.
Defined.

(** With an error handler that writes the refusal itself, the unsigned request gets the
    refusal and then the answer of the handler. *)
Definition with_refusal : normalized :=
  let c := n_cfg demo_n in
  MkNormalized (validator demo_n) (MkConfig (cfg_Validator c) (cfg_NonceStore c) (ClientIDHeader c) (TimestampHeader c)
    (NonceHeader c) (SignatureHeader c) (SkewSeconds c) (NonceTTL c) (MaxBodyBytes c) (ErrorMessage c)
    (Some (λ status _, Text status "refused ")) None None).
Example unsigned_request_served :
  let '(o, (wd, _)) := native (store := memory) with_refusal (at_time 0) (on_fst (Text 200 "the secret")) (auth_world, two_nonces) in
  (o, final_status (bw_under (w_bw wd)), w_body (bw_under (w_bw wd))) = (Ret None, 401, "refused the secret").
Proof. vm_compute. reflexivity. Qed.

(** The nonces of two clients collide when an identifier holds a colon: after client a used
    the nonce b:c, the first request of client a:b with the nonce c is taken for a replay. *)
Example nonces_collide :
  nonce_key (MkSigned "a" "" "b:c" "" "" "" ∅ "") = nonce_key (MkSigned "a:b" "" "c" "" "" "" ∅ "").
Proof. reflexivity. Qed.

(** A limit on bodies below the verification: the native form answers 413, the stdlib form
    401. *)
Example smaller_limit :
  let wd := set_w_bodies {[0%nat := MaxBytesReader 3 (MkReader "hello" None)]} auth_world in
  ((readBody demo_n wd).1, (readBodyStdlib demo_n auth_request wd).1) =
    (Ret (inr (413, OutcomeBodyTooLarge)), Ret (inr (401, OutcomeUnauthorized))).
Proof. reflexivity. Qed.
