(* ===== verification/HmacSigner.v ===== *)
(** The signing of outgoing requests (plugins/hmacauth/signer.go), what [net/http] makes of a request
    on its way, and that a signed request is accepted by a server that knows the client. *)
From S2P Require Import Prelude GoStrings Http Response.
From S2P Require Import Errors RequestContext App Sha256 HmacCanonical NonceStore NonceStoreLaws HmacAuth HmacAuthLaws.
From stdpp Require Import gmap pretty.
Local Open Scope Z_scope.

(** * Signing *)

(** An outgoing request: its body ([None] for nil and [http.NoBody]), what [GetBody] gives, if
    it is set, and its length. *)
Record outgoing : Type := MkOutgoing {
  o_Method : string;
  o_Path : string;
  o_RawQuery : string;
  o_Header : header;
  o_Body : option reader;
  o_GetBody : option (reader + error);
  o_ContentLength : Z
}.
Definition set_o_Header (h : header) (req : outgoing) : outgoing :=
  MkOutgoing (o_Method req) (o_Path req) (o_RawQuery req) h (o_Body req) (o_GetBody req) (o_ContentLength req).
Definition set_o_Body (b : option reader) (get : option (reader + error)) (req : outgoing) : outgoing :=
  MkOutgoing (o_Method req) (o_Path req) (o_RawQuery req) (o_Header req) b get (o_ContentLength req).

(** The names of the four headers. *)
Record names : Type := MkNames { hClient : string; hTs : string; hNonce : string; hSig : string }.
Definition default_names : names := MkNames "X-Client-Id" "X-Timestamp" "X-Nonce" "X-Signature".

(** [io.ReadAll]. *)
Definition ReadAll (r : reader) : string + error :=
  match rd_err r with None => inl (rd_data r) | Some err => inr err end.

Definition resolveSignBody (req : outgoing) (body : option string) : string + error :=
  match body, o_Body req, o_GetBody req with
  | Some b, _, _ => inl b
  | None, None, _ => inl ""
  | None, Some _, None => inr (ErrorText "hmacauth: Sign called with body == nil and req.Body is unreplayable")
  | None, Some _, Some (inr err) => inr err
  | None, Some _, Some (inl rc) => ReadAll rc
  end.

(** The choice of the secret: the primary one, or the first of the rotation that is not empty. *)
Definition signing_secret (client : Client) : string :=
  if String.eqb (Secret client) ""
  then default "" (find_first (λ s, negb (String.eqb s "")) (Secrets client))
  else Secret client.

Definition signWithHeaders (req : outgoing) (client : Client) (body : option string) (ts : Z) (nonce : string)
    (h : names) : outgoing + error :=
  if String.eqb (ClientID client) "" then inr (ErrorText "hmacauth: signWithHeaders requires Client.ClientID")
  else
    let secret := signing_secret client in
    if String.eqb secret "" then inr (ErrorText "hmacauth: signWithHeaders requires at least one non-empty secret")
    else match resolveSignBody req body with
    | inr err => inr err
    | inl hashBody =>
        let canonical := canonicalRequest (o_Method req) (o_Path req) (Query (o_RawQuery req)) hashBody ts nonce in
        let sig := appendHex "" (hmac_sha256 secret canonical) in
        inl (set_o_Header
          (header_set (hSig h) sig (header_set (hNonce h) nonce
            (header_set (hTs h) (itoa ts) (header_set (hClient h) (ClientID client) (o_Header req))))) req)
    end.

(** [Sign], whose order of checks and headers is the same; [nonceFn] draws a nonce. *)
Definition signWithNonce (req : option outgoing) (client : Client) (body : option string) (ts : Z) (nonce : string)
    (nonceFn : string + error) : outgoing + error :=
  match req with
  | None => inr (ErrorText "hmacauth: Sign requires a non-nil request")
  | Some req =>
      if String.eqb (ClientID client) "" then inr (ErrorText "hmacauth: Sign requires Client.ClientID")
      else if String.eqb (signing_secret client) ""
      then inr (ErrorText "hmacauth: Sign requires at least one non-empty secret on the Client")
      else match (if String.eqb nonce "" then nonceFn else inl nonce) with
      | inr err => inr err
      | inl nonce => signWithHeaders req client body ts nonce default_names
      end
  end.

(** [randomNonceFrom] on the 16 bytes that were read. *)
Definition randomNonceFrom (bytes : string + error) : string + error :=
  match bytes with inl b => inl (appendHex "" b) | inr err => inr err end.

(** [readReplayableBody]: the bytes, [None] for no body, and the request, whose body it may have
    read and put back. *)
Definition readReplayableBody (req : outgoing) : (option string + error) * outgoing :=
  match o_Body req, o_GetBody req with
  | None, _ => (inl None, req)
  | Some _, Some (inr err) => (inr err, req)
  | Some _, Some (inl rc) => (match ReadAll rc with inl b => inl (Some b) | inr err => inr err end, req)
  | Some rd, None =>
      if o_ContentLength req <=? 0 then (inr (ErrorText "hmacauth: req.GetBody is nil"), req)
      else match ReadAll rd with
      | inr err => (inr err, set_o_Body (Some (MkReader "" (rd_err rd))) None req)
      | inl b => (inl (Some b), set_o_Body (Some (MkReader b None)) (Some (inl (MkReader b None))) req)
      end
  end.

(** The transport: what it sends, and the request it was given. *)
Record transport : Type := MkTransport {
  t_client : Client;
  t_names : names
}.
Definition NewSigningTransport (client : Client) : transport := MkTransport client default_names.
Definition WithTransportHeaders (clientID timestamp nonce signature : string) (t : transport) : transport :=
  let pick s d := if String.eqb s "" then d else s in
  MkTransport (t_client t) (MkNames (pick clientID (hClient (t_names t))) (pick timestamp (hTs (t_names t)))
    (pick nonce (hNonce (t_names t))) (pick signature (hSig (t_names t)))).

Definition RoundTrip (t : transport) (ts : Z) (nonce : string + error) (req : outgoing) : (outgoing + error) * outgoing :=
  let '(body, req) := readReplayableBody req in
  match body with
  | inr err => (inr err, req)
  | inl body =>
      match nonce with
      | inr err => (inr err, req)
      | inl nonce => (signWithHeaders req (t_client t) body ts nonce (t_names t), req)
      end
  end.

(** [CheckRedirect]: the request of the next hop is signed in place. *)
Definition CheckRedirect (t : transport) (ts : Z) (nonce : string + error) (req : outgoing) : outgoing + error :=
  let '(body, req) := readReplayableBody req in
  match body with
  | inr err => inr err
  | inl body =>
      let req := match body with Some b => set_o_Body (Some (MkReader b None)) (o_GetBody req) req | None => req end in
      match nonce with
      | inr err => inr err
      | inl nonce => signWithHeaders req (t_client t) body ts nonce (t_names t)
      end
  end.

(** * The wire

    What [net/http] does with a request between a client and a server: it refuses to send some,
    and what arrives is not always what was signed. *)

Definition blank (a : ascii) : bool := Ascii.eqb a " " || Ascii.eqb a "009".
Definition visible (a : ascii) : bool := (32 <? code a) && negb (code a =? 127).
Fixpoint trim_blanks_left (s : string) : string :=
  match s with
  | EmptyString => EmptyString
  | String a s' => if blank a then trim_blanks_left s' else s
  end.
Fixpoint trim_blanks_right (s : string) : string :=
  match s with
  | EmptyString => EmptyString
  | String a s' =>
      match trim_blanks_right s' with
      | EmptyString => if blank a then EmptyString else String a EmptyString
      | t => String a t
      end
  end.
(** A value of a header loses the blanks around it. *)
Definition wire_value (v : string) : string := trim_blanks_right (trim_blanks_left v).

(** The fields [net/http] writes, reads or drops itself, whatever the header holds. *)
Definition transport_fields : list string :=
  ["Host"; "User-Agent"; "Content-Length"; "Transfer-Encoding"; "Trailer"; "Connection"; "Proxy-Connection";
   "Keep-Alive"; "Te"; "Upgrade"; "Expect"; "Accept-Encoding"; "Cookie"].

(** The requests that are sent and whose request line and fields a server can read. *)
Definition sendable (req : outgoing) : Prop :=
  string_all token_byte (o_Method req) = true ∧
  (o_Path req = "" ∨ has_prefix (o_Path req) "/" = true) ∧
  string_all visible (o_RawQuery req) = true ∧
  map_Forall (λ k vs, CanonicalHeaderKey k = k ∧ k ≠ "" ∧ string_all token_byte k = true ∧
    Forall (λ v, string_all (λ a, visible a || blank a) v = true) vs) (o_Header req).
(** The bytes of the body a request is sent with. *)
Definition carries (req : outgoing) (b : string) : Prop :=
  match o_Body req with
  | None => b = ""
  | Some rd => rd = MkReader b None ∧ (o_ContentLength req <= 0 ∨ o_ContentLength req = Z.of_nat (String.length b))
  end.

(** The request the server reads on the connection of [conn]: no method is GET, no path is the
    root, and the fields of the transport are [own]. *)
Definition received (conn : request) (own : header) (req : outgoing) (b : string) : request :=
  MkRequest (r_id conn) (if String.eqb (o_Method req) "" then "GET" else o_Method req)
    (if String.eqb (o_Path req) "" then "/" else o_Path req) (o_RawQuery req)
    (filter (λ kv, kv.1 ∈ transport_fields) own ∪
     filter (λ kv, kv.1 ∉ transport_fields) (map wire_value <$> o_Header req))
    (r_RemoteAddr conn) (r_TLS conn)
    (match o_Body req with Some _ => if o_ContentLength req <=? 0 then -1 else Z.of_nat (String.length b) | None => 0 end)
    (r_marked conn).
Definition arrives (own : header) (req : outgoing) (b : string) (r : request) : Prop :=
  sendable req ∧ carries req b ∧ r = received r own req b.

Lemma trim_blanks_right_id s : string_all (λ a, negb (blank a)) s = true → trim_blanks_right s = s.
Proof.
  induction s as [|a s IH]; [done|]. cbn [string_all trim_blanks_right]. intros [Ha Hs]%andb_true_iff.
  rewrite IH by done. destruct s; [|done]. by destruct (blank a).
Qed.
Lemma wire_value_id s : string_all (λ a, negb (blank a)) s = true → wire_value s = s.
Proof.
  intros H. unfold wire_value. rewrite <-(trim_blanks_right_id s H) at 2. f_equal.
  destruct s as [|a s]; [done|]. cbn [string_all trim_blanks_left] in *. by destruct (blank a).
Qed.

Lemma received_field conn own req b k v : CanonicalHeaderKey k ∉ transport_fields →
  o_Header req !! CanonicalHeaderKey k = Some [v] → header_get k (r_Header (received conn own req b)) = wire_value v.
Proof.
  intros Hk Hv. unfold header_get, received. cbn [r_Header].
  rewrite lookup_union_r by (apply map_lookup_filter_None; right; by intros).
  assert (filter (λ kv : string * list string, kv.1 ∉ transport_fields) (map wire_value <$> o_Header req) !! CanonicalHeaderKey k
    = Some [wire_value v]) as ->; [|done].
  apply map_lookup_filter_Some. split; [|done]. by rewrite lookup_fmap, Hv.
Qed.

(** * A signed request is accepted *)

Lemma decode_hex s : DecodeString (appendHex "" s) = Some s.
Proof.
  induction s as [|c s IH]; [done|]. rewrite appendHex_bytes. cbn [DecodeString].
  destruct (hex_digits_encoded c false) as (_ & _ & H1 & H2 & H3). cbn zeta in *. rewrite H1, H2, IH. cbn. by rewrite H3.
Qed.

Lemma ParseInt_itoa z : 0 < z <= max_int64 → ParseInt (itoa z) = Some z.
Proof.
  intros Hz. destruct z as [|p|p]; try lia.
  assert (decimal 0 (itoa (Zpos p)) = Some (Zpos p)) as H by (by apply decimal_itoa).
  unfold ParseInt. destruct (itoa (Zpos p)) as [|a s] eqn:E; [discriminate H|].
  pose proof (decimal_digits _ _ _ _ H) as Ha.
  assert (digits_of (String a s) = Some (Zpos p)) as Hd by exact H.
  assert ((match String a s with String "-" s' => Z.opp <$> digits_of s' | String "+" s' => digits_of s' | _ => digits_of (String a s) end)
    = Some (Zpos p)) as ->.
  { rewrite <-Hd. destruct a as [[] [] [] [] [] [] [] []]; (reflexivity || (vm_compute in Ha; discriminate Ha)). }
  cbn [mbind option_bind]. unfold min_int64, max_int64 in *. by rewrite !(proj2 (Z.leb_le _ _)) by lia.
Qed.

Lemma hex_unblank s : string_all (λ a, negb (blank a)) (appendHex "" s) = true.
Proof.
  induction s as [|c s IH]; [done|]. rewrite appendHex_bytes. cbn [string_all]. rewrite IH.
  assert (∀ a, isUnreserved a = true → blank a = false) as H by (intros a; all_bytes a).
  destruct (hex_digits_encoded c false) as (H1 & H2 & _). cbn zeta in *. by rewrite !H.
Qed.
Lemma itoa_unblank z : 0 < z → string_all (λ a, negb (blank a)) (itoa z) = true.
Proof.
  intros [_ H]%itoa_digits. revert H. induction (itoa z) as [|a s IH]; [done|]. cbn [string_all].
  intros [Ha Hs]%andb_true_iff. rewrite IH, andb_true_r by done. revert Ha. clear. all_bytes a.
Qed.

(** Names for the four headers that differ and that the transport leaves alone. *)
Definition usable_names (h : names) : Prop :=
  NoDup (map CanonicalHeaderKey [hClient h; hTs h; hNonce h; hSig h]) ∧
  Forall (λ k, CanonicalHeaderKey k ∉ transport_fields) [hClient h; hTs h; hNonce h; hSig h].

Lemma signed_headers h id ts nonce sig hd : NoDup (map CanonicalHeaderKey [hClient h; hTs h; hNonce h; hSig h]) →
  let hd' := header_set (hSig h) sig (header_set (hNonce h) nonce (header_set (hTs h) ts (header_set (hClient h) id hd))) in
  hd' !! CanonicalHeaderKey (hClient h) = Some [id] ∧ hd' !! CanonicalHeaderKey (hTs h) = Some [ts] ∧
  hd' !! CanonicalHeaderKey (hNonce h) = Some [nonce] ∧ hd' !! CanonicalHeaderKey (hSig h) = Some [sig].
Proof.
  cbn [map]. rewrite !NoDup_cons, !not_elem_of_cons. intros ((H1 & H2 & H3 & _) & (H4 & H5 & _) & (H6 & _) & _).
  cbn zeta. unfold header_set. split_and!; repeat first [by rewrite lookup_insert_eq | rewrite lookup_insert_ne by congruence].
Qed.

Lemma signing_secret_of client : signing_secret client ≠ "" →
  signing_secret client = Secret client ∨ signing_secret client ∈ Secrets client.
Proof.
  unfold signing_secret. destruct (String.eqb_spec (Secret client) ""); [|by left].
  destruct (find_first _ (Secrets client)) as [s|] eqn:E; [|done]. intros _. right.
  apply find_first_Some in E as (l1 & l2 & -> & _ & _). cbn. apply elem_of_app. right. left.
Qed.

Section accepted.
Context {S : Type} {store : NonceStore S} (n : normalized).

(** What the server verifies of a signed request that arrived. *)
Lemma signed_received req client body b ts nonce h req' conn own :
  signWithHeaders req client body ts nonce h = inl req' → resolveSignBody req body = inl b →
  h = MkNames (ClientIDHeader (n_cfg n)) (TimestampHeader (n_cfg n)) (NonceHeader (n_cfg n)) (SignatureHeader (n_cfg n)) →
  usable_names h → 0 < ts → wire_value (ClientID client) = ClientID client → wire_value nonce = nonce →
  o_Method req ≠ "" → o_Path req ≠ "" →
  ClientID client ≠ "" ∧ signing_secret client ≠ "" ∧
  signed_of n (received conn own req' b) b = MkSigned (ClientID client) (itoa ts) nonce
    (appendHex "" (hmac_sha256 (signing_secret client)
      (canonicalRequest (o_Method req) (o_Path req) (Query (o_RawQuery req)) b ts nonce)))
    (o_Method req) (o_Path req) (Query (o_RawQuery req)) b.
Proof.
  unfold signWithHeaders. destruct (String.eqb_spec (ClientID client) "") as [|Hid]; [done|].
  destruct (String.eqb_spec (signing_secret client) "") as [|Hk]; [done|]. destruct (resolveSignBody req body) as [b'|]; [|done].
  intros [= <-] [= ->] -> [Hd Ht] Hts Hi Hn Hm Hp. split; [done|]. split; [done|]. unfold signed_of.
  cbn [hClient hTs hNonce hSig] in *. rewrite !Forall_cons in Ht. destruct Ht as (T1 & T2 & T3 & T4 & _).
  edestruct (signed_headers (MkNames (ClientIDHeader (n_cfg n)) (TimestampHeader (n_cfg n)) (NonceHeader (n_cfg n)) (SignatureHeader (n_cfg n)))
    (ClientID client) (itoa ts) nonce
    (appendHex "" (hmac_sha256 (signing_secret client) (canonicalRequest (o_Method req) (o_Path req) (Query (o_RawQuery req)) b ts nonce)))
    (o_Header req) Hd) as (E1 & E2 & E3 & E4). cbn [hClient hTs hNonce hSig] in *.
  erewrite !received_field by eassumption. rewrite Hi, Hn, !wire_value_id by (apply hex_unblank || by apply itoa_unblank).
  unfold received. cbn [r_Method r_Path r_RawQuery o_Method o_Path o_RawQuery set_o_Header].
  apply String.eqb_neq in Hm as ->. by apply String.eqb_neq in Hp as ->.
Qed.

Lemma signed_authentic now client ts nonce method path query body :
  ClientID client ≠ "" → signing_secret client ≠ "" → validator n (ClientID client) = inl client →
  nonce ≠ "" → 0 < ts <= maxSafeTimestamp → Z.abs (at_check now / Second - ts) <= SkewSeconds (n_cfg n) →
  authentic n now (MkSigned (ClientID client) (itoa ts) nonce
    (appendHex "" (hmac_sha256 (signing_secret client) (canonicalRequest method path query body ts nonce))) method path query body) client.
Proof.
  intros Hid Hk Hv Hn Hts Hw. split; cbn [s_clientID s_nonce s_ts s_sig s_method s_path s_query s_body]; try done.
  exists ts, (signing_secret client). split_and!; try done; try lia.
  - apply ParseInt_itoa. unfold maxSafeTimestamp, max_int64 in *. lia.
  - by apply signing_secret_of.
  - apply decode_hex.
Qed.

Lemma authentic_verified now s client st st' : in_int64 (at_check now) → authentic n now s client → cfg_NonceStore (n_cfg n) = true →
  SetNX (at_store now) (ctx_Err now) (nonce_key s) (NonceTTL (n_cfg n)) st = (Ret (true, None), st') →
  verify n now s st = (Ret (MkResult client true 0 OutcomeOK 0), st').
Proof.
  intros Hnow Ha Hst Hset. destruct (verify_cases n now s Hnow) as [(c & Hc & ->)|(Hno & _)]; [|by destruct (Hno client)].
  rewrite (authentic_client _ _ _ _ _ Hc Ha). unfold check_nonce. rewrite Hst, go_bind_eq. by rewrite Hset.
Qed.

(** A body within the limit is read whole and put back, in both forms. *)
Lemma readBody_within wd b : let r := c_req (w_ctx wd) in
  w_bodies wd !! r_id r = Some (MkReader b None) → Z.of_nat (String.length b) <= MaxBodyBytes (n_cfg n) →
  ∃ wd1, readBody n wd = (Ret (inl b), wd1) ∧ c_req (w_ctx wd1) = r ∧ w_bodies wd1 !! r_id r = Some (MkReader b None).
Proof.
  intros r Hb Hl. unfold readBody, SetBody. go_step. fold r. rewrite Hb. unfold MaxBytesReader. cbn [rd_data].
  rewrite (proj2 (Z.leb_le _ _) Hl). cbn [rd_err rd_data]. eexists. split; [reflexivity|]. world_simpl. split; [done|]. apply lookup_insert_eq.
Qed.
Lemma readBodyStdlib_within wd r b : c_req (w_ctx wd) = r → contextFromRequest r wd = (Ret true, wd) →
  w_bodies wd !! r_id r = Some (MkReader b None) → Z.of_nat (String.length b) <= MaxBodyBytes (n_cfg n) →
  ∃ wd1, readBodyStdlib n r wd = (Ret (inl b), wd1) ∧ c_req (w_ctx wd1) = r ∧ w_bodies wd1 !! r_id r = Some (MkReader b None).
Proof.
  rewrite contextFromRequest_eq. intros Hr [= Hc] Hb Hl. unfold readBodyStdlib, SetBody, contextFromRequest. go_step.
  rewrite Hb. cbn [rd_data rd_err]. rewrite (proj2 (Z.ltb_ge _ _)) by done. world_simpl. rewrite Hc. world_simpl. rewrite Hr.
  eexists. split; [reflexivity|]. world_simpl. split; [done|]. apply lookup_insert_eq.
Qed.

(** [C12] A signed request is accepted, in both forms, by every server that knows the client, uses
    the same names of headers, has a clock within the window of the signer's and room for the body,
    if its nonce is fresh; the handler finds the client and the bytes that were sent. The
    request names its method and its path, [net/http] can send it, and neither the identifier nor
    the nonce begins or ends with a blank. *)
Theorem signed_accepted status_text json_encode now req client body b ts nonce h req' own r wd st st' :
  signWithHeaders req client body ts nonce h = inl req' → resolveSignBody req body = inl b →
  o_Method req ≠ "" → o_Path req ≠ "" → arrives own req' b r →
  wire_value (ClientID client) = ClientID client → wire_value nonce = nonce → nonce ≠ "" →
  validator n (ClientID client) = inl client → usable_names h →
  h = MkNames (ClientIDHeader (n_cfg n)) (TimestampHeader (n_cfg n)) (NonceHeader (n_cfg n)) (SignatureHeader (n_cfg n)) →
  0 < ts <= maxSafeTimestamp → in_int64 (at_check now) → Z.abs (at_check now / Second - ts) <= SkewSeconds (n_cfg n) →
  Z.of_nat (String.length b) <= MaxBodyBytes (n_cfg n) → cfg_Observer (n_cfg n) = None → cfg_NonceStore (n_cfg n) = true →
  SetNX (at_store now) (ctx_Err now) ("nonce:" +:+ ClientID client +:+ ":" +:+ nonce) (NonceTTL (n_cfg n)) st = (Ret (true, None), st') →
  c_req (w_ctx wd) = r → w_bodies wd !! r_id r = Some (MkReader b None) →
  (∃ wd', verifyNative n now (wd, st) = (Ret None, (wd', st')) ∧ identified client b wd wd') ∧
  (contextFromRequest r wd = (Ret true, wd) → ∀ w, ∃ wd',
    verifyStdlib status_text json_encode n now w r (wd, st) = (Ret (Some (c_req (w_ctx wd'))), (wd', st')) ∧
    identified client b wd wd').
Proof.
  intros Hs Hb Hm Hp (_ & _ & Hrd) Hi Hwn Hn Hv Hu Hh Hts Hnow Hw Hl Hobs Hst Hset Hr Hbd.
  destruct (signed_received _ _ _ _ _ _ _ _ r own Hs Hb Hh Hu (proj1 Hts) Hi Hwn Hm Hp) as (Hid & Hk & Hsig). rewrite <-Hrd in Hsig.
  pose proof (signed_authentic now client ts nonce (o_Method req) (o_Path req) (Query (o_RawQuery req)) b Hid Hk Hv Hn Hts Hw) as Ha.
  rewrite <-Hsig in Ha. pose proof (authentic_verified now _ client st st' Hnow Ha Hst) as Ev.
  rewrite Hsig in Ev at 1. specialize (Ev Hset). split.
  - destruct (readBody_within wd b) as (wd1 & Eb & Hr1 & Hb1); [by rewrite Hr|done|].
    destruct (set_identity_spec client wd1) as (wd' & Ei & Hf & Hpr & Hbd'). exists wd'.
    unfold verifyNative, observe. rewrite Hobs. erewrite on_fst_bind by reflexivity. rewrite (on_fst_bind _ _ _ _ _ _ Eb), Hr.
    rewrite (on_snd_bind _ _ _ _ _ _ Ev). split; [apply on_fst_run; cbn [res_ok negb res_client]; by rewrite go_bind_eq, Ei|].
    split; [done|]. split; [done|]. intros rd _. apply Hbd'. by rewrite Hr1.
  - intros Hctx w. destruct (readBodyStdlib_within wd _ b Hr Hctx) as (wd1 & Eb & Hr1 & Hb1); [done..|].
    destruct (set_identity_spec client wd1) as (wd' & Ei & Hf & Hpr & Hbd'). exists wd'.
    unfold verifyStdlib, observe. rewrite Hobs, (on_fst_bind _ _ _ _ _ _ Hctx), (on_fst_bind _ _ _ _ _ _ Eb).
    rewrite (on_snd_bind _ _ _ _ _ _ Ev). split; [apply on_fst_run; cbn [res_ok negb res_client]; by rewrite go_bind_eq, Ei|].
    split; [done|]. split; [done|]. intros rd _. apply Hbd'. by rewrite Hr1.
Qed.
End accepted.

(** * Examples and witnesses *)

Definition rotating : Client := MkClient "alpha" "" [""; "new"; "old"] None.
Definition demo_out : outgoing := MkOutgoing "POST" "/x y" "q=a+b&q=c" ∅ (Some (MkReader "hello" None)) None 5.
Definition rotating_n : normalized :=
  match normalize (MkConfig (Some (λ _, inl rotating)) true "" "" "" "" 0 0 0 "" None None None) with
  | Ret n => n | Panic _ => MkNormalized (λ _, inl rotating) DefaultConfig end.

Definition demo_own : header := {["User-Agent" := ["Go-http-client/1.1"]; "Accept-Encoding" := ["gzip"]]}.
Definition connection : request := MkRequest 0 "" "" "" ∅ "10.0.0.7:4711" false 0 true.
(** The world of a handler that was given the request with its body. *)
Definition arrived (r : request) (b : string) : World :=
  set_w_bodies {[0%nat := MkReader b None]} (set_w_ctx (reset WBase r ∅ demo_ctx) demo_world).

Definition demo_signed : outgoing :=
  match (RoundTrip (NewSigningTransport rotating) 1735689600 (inl "n1") demo_out).1 with inl req => req | inr _ => demo_out end.
Definition demo_received : request := received connection demo_own demo_signed "hello".

Lemma signed_accepted_witness : ∃ wd,
  (verifyNative (store := memory) rotating_n (at_time 1735689700) (arrived demo_received "hello", two_nonces)).1 = Ret None ∧
  identified rotating "hello" (arrived demo_received "hello") wd.
Proof.
  edestruct (signed_accepted (store := memory) rotating_n (λ _, "") (λ _, "") (at_time 1735689700)
    (set_o_Body (Some (MkReader "hello" None)) (Some (inl (MkReader "hello" None))) demo_out) rotating (Some "hello") "hello"
    1735689600 "n1" default_names demo_signed demo_own demo_received (arrived demo_received "hello") two_nonces) as [(wd & H & Hi) _].
  - vm_compute. reflexivity.
  - reflexivity.
  - discriminate.
  - discriminate.
  - split; [|split; [by vm_compute; auto|reflexivity]]. split; [reflexivity|]. split; [by right|]. split; [reflexivity|].
    apply (bool_decide_unpack _). vm_compute. exact I.
  - reflexivity.
  - reflexivity.
  - discriminate.
  - reflexivity.
  - split; apply (bool_decide_unpack _); vm_compute; exact I.
  - reflexivity.
  - by split.
  - unfold in_int64, min_int64, max_int64, at_time, Second. cbn. lia.
  - vm_compute. discriminate.
  - vm_compute. discriminate.
  - reflexivity.
  - reflexivity.
  - vm_compute. reflexivity.
  - reflexivity.
  - reflexivity.
  - exists wd. split; [by rewrite H|exact Hi].
Defined.

(** A request without a path, as [http.NewRequest] makes one of "http://host", is signed as it is
    and arrives with the path of the root; one without a method arrives as GET. Both are refused. *)
Definition refused_of (req : outgoing) : Outcome + Outcome :=
  match signWithHeaders req rotating None 1735689600 "n1" default_names with
  | inl req' =>
      match (verify (store := memory) rotating_n (at_time 1735689700)
        (signed_of rotating_n (received connection demo_own req' "") "") two_nonces).1 with
      | Ret res => if res_ok res then inl (res_outcome res) else inr (res_outcome res)
      | Panic _ => inr OutcomeUnauthorized
      end
  | inr _ => inr OutcomeUnauthorized
  end.
Example no_path_no_method_refused :
  refused_of (MkOutgoing "GET" "/" "" ∅ None None 0) = inl OutcomeOK ∧
  refused_of (MkOutgoing "GET" "" "" ∅ None None 0) = inr OutcomeSignatureInvalid ∧
  refused_of (MkOutgoing "" "/" "" ∅ None None 0) = inr OutcomeSignatureInvalid.
Proof. vm_compute. split_and!; reflexivity. Qed.
