(* ===== verification/IdempotencyWriter.v ===== *)
(** The writer that captures a response to be replayed (plugins/idempotency/writer.go), and the
    responses it stores. *)
From S2P Require Import Prelude GoStrings Http.
From stdpp Require Import gmap.

(** * Stored responses *)

Record Response : Type := MkResponse {
  StatusCode : Z;
  Headers : header;
  Body : string;
  PayloadHash : string
}.

(** The zero value of [[32]byte]: a hash that is not set. *)
Definition zero_hash : string := of_codes (replicate 32 0%Z).

(** [hardStrippedHeaders]. *)
Definition hardStrippedHeaders : gset string := list_to_set
  ["Set-Cookie"; "Authorization"; "Www-Authenticate"; "X-Request-Id"; "Connection"; "Keep-Alive"; "Proxy-Authenticate";
   "Proxy-Authorization"; "Te"; "Trailer"; "Transfer-Encoding"; "Upgrade"].
Definition isHardStripped (name : string) : bool := bool_decide (CanonicalHeaderKey name ∈ hardStrippedHeaders).

(** The check of a field against the fields to strip and the fields to keep, [None] for all. *)
Definition kept_field (allow : option (gset string)) (k : string) : bool :=
  let canon := CanonicalHeaderKey k in
  negb (isHardStripped canon) && match allow with Some a => bool_decide (canon ∈ a) | None => true end.

(** * The writer *)

Section captureWriter.
Context {W : Type} `{ResponseWriter W}.

Record captureWriter : Type := MkCapture {
  cw_under : W;
  cw_cap : Z;
  cw_written : Z;
  cw_body : string;
  cw_headers : header;
  cw_statusCode : Z;
  cw_overflowed : bool;
  cw_headerSent : bool;
  cw_committed : bool
}.

Definition acquireCaptureWriter (w : W) (cap : Z) : captureWriter := MkCapture w cap 0 "" ∅ 0 false false false.

Definition cw_Header (cw : captureWriter) : header :=
  if cw_headerSent cw then rw_header (cw_under cw) else cw_headers cw.
Definition cw_set_header (h : header) (cw : captureWriter) : captureWriter :=
  if cw_headerSent cw
  then MkCapture (rw_set_header h (cw_under cw)) (cw_cap cw) (cw_written cw) (cw_body cw) (cw_headers cw)
         (cw_statusCode cw) (cw_overflowed cw) (cw_headerSent cw) (cw_committed cw)
  else MkCapture (cw_under cw) (cw_cap cw) (cw_written cw) (cw_body cw) h
         (cw_statusCode cw) (cw_overflowed cw) (cw_headerSent cw) (cw_committed cw).

Definition cw_WriteHeader (code : Z) (cw : captureWriter) : captureWriter :=
  if cw_headerSent cw then cw
  else MkCapture (cw_under cw) (cw_cap cw) (cw_written cw) (cw_body cw) (cw_headers cw)
         (if (cw_statusCode cw =? 0)%Z then code else cw_statusCode cw)
         (cw_overflowed cw) (cw_headerSent cw) (cw_committed cw).

Definition status_or_ok (status : Z) : Z := if (status =? 0)%Z then 200%Z else status.
Definition write_nonempty (b : string) (w : W) : W := if (0 <? String.length b)%nat then Write b w else w.

(** Headers, status and body to the writer below, after [edit] of its headers. *)
Definition send (edit : header → header) (cw : captureWriter) : W :=
  write_nonempty (cw_body cw) (WriteHeader (status_or_ok (cw_statusCode cw))
    (rw_set_header (edit (header_add_all (cw_headers cw) (rw_header (cw_under cw)))) (cw_under cw))).

Definition flushOverflow (cw : captureWriter) : captureWriter :=
  if cw_overflowed cw then cw
  else MkCapture (send (header_set "Idempotency-Cached" "false; reason=size") cw) (cw_cap cw) (cw_written cw) ""
         (cw_headers cw) (cw_statusCode cw) true true (cw_committed cw).

Definition forward (b : string) (cw : captureWriter) : captureWriter :=
  MkCapture (Write b (cw_under cw)) (cw_cap cw) (cw_written cw) (cw_body cw) (cw_headers cw)
    (cw_statusCode cw) (cw_overflowed cw) (cw_headerSent cw) (cw_committed cw).
Definition cw_Write (b : string) (cw : captureWriter) : captureWriter :=
  let n := Z.of_nat (String.length b) in
  if cw_overflowed cw then forward b cw
  else if (0 <? cw_cap cw)%Z && (cw_cap cw <? cw_written cw + n)%Z then forward b (flushOverflow cw)
  else MkCapture (cw_under cw) (cw_cap cw) (cw_written cw + n) (cw_body cw +:+ b) (cw_headers cw)
         (cw_statusCode cw) (cw_overflowed cw) (cw_headerSent cw) (cw_committed cw).

Definition FlushUnderCap (cw : captureWriter) : captureWriter :=
  if cw_overflowed cw || cw_committed cw then cw
  else MkCapture (send (λ h, h) cw) (cw_cap cw) (cw_written cw) (cw_body cw) (cw_headers cw)
         (cw_statusCode cw) (cw_overflowed cw) true true.

Definition Snapshot (allow : option (gset string)) (cw : captureWriter) : option Response :=
  if cw_overflowed cw then None
  else
    let hdrs := map_fold (λ k vs hdrs, if kept_field allow k then <[CanonicalHeaderKey k := vs]> hdrs else hdrs)
                  ∅ (cw_headers cw) in
    Some (MkResponse (status_or_ok (cw_statusCode cw)) hdrs (cw_body cw) zero_hash).

Definition cw_Status (cw : captureWriter) : Z := status_or_ok (cw_statusCode cw).

#[export] Instance captureWriter_writer : ResponseWriter captureWriter := {
  rw_header := cw_Header;
  rw_set_header := cw_set_header;
  WriteHeader := cw_WriteHeader;
  Write := cw_Write
}.

(** * Replays *)

(** [replayHeadersTo] and the rest of [replayNative] and [replayStdlib]. *)
Definition replayHeadersTo (allow : option (gset string)) (src dst : header) : header :=
  map_fold (λ k vs dst, if kept_field allow k then foldl (λ d v, header_add (CanonicalHeaderKey k) v d) dst vs else dst)
    dst src.
Definition replay (allow : option (gset string)) (resp : Response) (w : W) : W :=
  write_nonempty (Body resp) (WriteHeader (status_or_ok (StatusCode resp))
    (rw_set_header (header_set "Idempotency-Replayed" "true" (replayHeadersTo allow (Headers resp) (rw_header w))) w)).
End captureWriter.
Arguments captureWriter W : clear implicits.

(** * Laws

    Laws of the capturing writer: the client gets what it would have got, and a replay gives the
    stored part of it again. *)
(** * Names of fields *)

Lemma canonical_byte a : token_byte a = true →
  token_byte (to_upper_byte a) = true ∧ token_byte (to_lower_byte a) = true ∧
  to_upper_byte (to_upper_byte a) = to_upper_byte a ∧ to_lower_byte (to_lower_byte a) = to_lower_byte a.
Proof. destruct a as [[] [] [] [] [] [] [] []]; vm_compute; intros; try discriminate; done. Qed.

Lemma canon_case_twice u s : string_all token_byte s = true →
  string_all token_byte (canon_case u s) = true ∧ canon_case u (canon_case u s) = canon_case u s.
Proof.
  revert u. induction s as [|a s IH]; intros u; [done|]. cbn [string_all canon_case]. intros [Ha Hs]%andb_true_iff.
  destruct (canonical_byte a Ha) as (H1 & H2 & H3 & H4).
  destruct u; cbv zeta; rewrite ?H1, ?H2, ?H3, ?H4; cbn [andb];
    match goal with |- context [canon_case ?f s] => destruct (IH f Hs) as [-> E] end; by rewrite E.
Qed.

Lemma CanonicalHeaderKey_twice s : CanonicalHeaderKey (CanonicalHeaderKey s) = CanonicalHeaderKey s.
Proof.
  unfold CanonicalHeaderKey at 2 3. destruct (string_all token_byte s) eqn:E; unfold CanonicalHeaderKey.
  - destruct (canon_case_twice true s E) as [H1 H2]. by rewrite H1, H2.
  - by rewrite E.
Qed.

(** Headers as the setters leave them: canonical names, and values. *)
Definition canonical_header (h : header) : Prop := ∀ k vs, h !! k = Some vs → CanonicalHeaderKey k = k ∧ vs ≠ [].

Lemma canonical_header_insert h k vs : canonical_header h → CanonicalHeaderKey k = k → vs ≠ [] → canonical_header (<[k:=vs]> h).
Proof. intros Hh Hk Hv j us [[<- <-]|[_ H]]%lookup_insert_Some; [done|by apply Hh]. Qed.

Lemma add_values k vs d : CanonicalHeaderKey k = k →
  foldl (λ d v, header_add k v d) d vs = match vs with [] => d | _ => <[k := default [] (d !! k) ++ vs]> d end.
Proof.
  intros Hk. revert d. induction vs as [|v vs IH]; intros d; [done|]. cbn [foldl]. rewrite IH. unfold header_add. rewrite Hk.
  destruct vs as [|v' vs]; [done|]. rewrite lookup_insert_eq, insert_insert_eq. cbn. by rewrite <-app_assoc.
Qed.

(** Adding fields that are not there yet. *)
Lemma header_add_all_union h d : canonical_header h → h ##ₘ d → header_add_all h d = h ∪ d.
Proof.
  unfold header_add_all. revert h. refine (map_fold_weak_ind (λ r h, canonical_header h → h ##ₘ d → r = h ∪ d) _ d _ _).
  { intros _ _. by rewrite (left_id_L ∅ (∪)). }
  intros k vs m r Hk IH Hc Hd. apply map_disjoint_insert_l in Hd as [Hdk Hd].
  destruct (Hc k vs (lookup_insert_eq _ _ _)) as [Ek Hv]. rewrite IH; [|intros j us Hj; apply (Hc j us)|done].
  - rewrite add_values by done. destruct vs as [|v vs]; [done|].
    rewrite lookup_union_r, Hdk by done. cbn. by rewrite insert_union_l.
  - rewrite lookup_insert_ne by congruence. done.
Qed.

(** * What the client gets *)

(** An operation on a field that the outer writer does not have, named canonically, or a status
    that is neither zero nor informational. *)
Definition regular (h : header) (o : wop) : Prop :=
  match o with
  | HSet k _ | HAdd k _ | HDel k => h !! CanonicalHeaderKey k = None
  | HPut k vs => h !! k = None ∧ CanonicalHeaderKey k = k ∧ vs ≠ []
  | OWriteHeader code => code ≠ 0%Z ∧ informational code = false
  | OWrite _ => True
  end.
(** No status is set after the first bytes. *)
Fixpoint status_first (ops : list wop) : Prop :=
  match ops with
  | [] => True
  | OWriteHeader _ :: _ => True
  | OWrite _ :: ops' => Forall (λ o, match o with OWriteHeader _ => False | _ => True end) ops'
  | _ :: ops' => status_first ops'
  end.

Lemma header_op_regular h o d : regular h o → canonical_header d → d ##ₘ h →
  header_op o (d ∪ h) = header_op o d ∪ h ∧ canonical_header (header_op o d) ∧ header_op o d ##ₘ h.
Proof.
  intros Ho Hc Hd. destruct o as [k v|k v|k|k vs|code|b]; cbn in *; unfold header_set, header_add, header_del; try done.
  - split; [by rewrite insert_union_l|]. split; [apply canonical_header_insert; [done|apply CanonicalHeaderKey_twice|done]|].
    by apply map_disjoint_insert_l_2.
  - rewrite lookup_union_l by done. split; [by rewrite insert_union_l|].
    split; [apply canonical_header_insert; [done|apply CanonicalHeaderKey_twice|by destruct (default [] _)]|].
    by apply map_disjoint_insert_l_2.
  - split; [rewrite delete_union; f_equal; by apply delete_id|]. split; [|by apply map_disjoint_delete_l].
    intros j us [_ Hj]%lookup_delete_Some. by apply Hc.
  - destruct Ho as (Hk & Ek & Hv). split; [by rewrite insert_union_l|]. split; [by apply canonical_header_insert|].
    by apply map_disjoint_insert_l_2.
Qed.

Definition cached_no : header → header := header_set "Idempotency-Cached" "false; reason=size".

(** A script is its header operations and then writes. *)
Definition header_only (o : wop) : Prop := match o with OWriteHeader _ | OWrite _ => False | _ => True end.
Definition write_only (status : Z) (o : wop) : Prop :=
  match o with OWriteHeader _ => status ≠ 0%Z | OWrite _ => True | _ => False end.

Lemma script_parts ops : headers_first ops → status_first ops →
  ∃ hs ws, ops = hs ++ ws ∧ Forall header_only hs ∧
    match ws with
    | [] => True
    | OWriteHeader code :: ws' => Forall (write_only code) ws' ∨ code = 0%Z
    | OWrite _ :: _ => Forall (write_only 0) ws
    | _ => False
    end.
Proof.
  induction ops as [|o ops IH]; [by exists [], []|]. intros Hh Hs.
  destruct o as [k v|k v|k|k vs|code|b]; cbn in Hh, Hs;
    try (destruct (IH Hh Hs) as (hs & ws & -> & H1 & H2); by eexists (_ :: hs), ws; split_and!; [reflexivity|by constructor|]).
  - exists [], (OWriteHeader code :: ops). split_and!; [done|constructor|]. destruct (decide (code = 0%Z)); [by right|left].
    eapply Forall_impl; [exact Hh|]. by intros [].
  - exists [], (OWrite b :: ops). split_and!; [done|constructor|]. constructor; [done|].
    rewrite Forall_forall in Hh, Hs. apply Forall_forall. intros o Ho. specialize (Hh o Ho). specialize (Hs o Ho). by destruct o.
Qed.

(** What is sent below at a flush. *)
Lemma send_RW edit h cap n body hd status o1 o2 o3 : informational (status_or_ok status) = false → canonical_header hd → hd ##ₘ h →
  let u := send edit (MkCapture (new_RW h) cap n body hd status o1 o2 o3) in
  w_sent u = Some (status_or_ok status, edit (hd ∪ h)) ∧ w_body u = body.
Proof.
  intros Hi Hc Hd. unfold send. cbn [cw_body cw_statusCode cw_headers cw_under].
  change (rw_header (new_RW h)) with h. rewrite header_add_all_union by done.
  cbn [WriteHeader RW_writer]. rewrite RW_WriteHeader_first by done. unfold write_nonempty. by destruct body as [|a body].
Qed.

Lemma capture_headers h cap hs hd : Forall header_only hs → Forall (regular h) hs → canonical_header hd → hd ##ₘ h →
  run_ops hs (MkCapture (new_RW h) cap 0 "" hd 0 false false false) =
    MkCapture (new_RW h) cap 0 "" (ops_header hs hd) 0 false false false ∧
  canonical_header (ops_header hs hd) ∧ ops_header hs hd ##ₘ h ∧ ops_header hs (hd ∪ h) = ops_header hs hd ∪ h.
Proof.
  revert hd. induction hs as [|o hs IH]; intros hd Hh Hr Hc Hd; [done|].
  apply Forall_cons_iff in Hh as [Ho Hh]. apply Forall_cons_iff in Hr as [Hro Hr].
  destruct (header_op_regular h o hd Hro Hc Hd) as (E & Hc' & Hd'). rewrite run_ops_cons.
  assert (do_op (MkCapture (new_RW h) cap 0 "" hd 0 false false false) o =
    MkCapture (new_RW h) cap 0 "" (header_op o hd) 0 false false false) as -> by (by destruct o).
  unfold ops_header in *. cbn [foldl]. rewrite E. by apply IH.
Qed.

(** Writes that pass through. *)
Lemma capture_through ws u cap n body hd status code hd' : Forall (write_only status) ws → w_sent u = Some (code, hd') →
  let cw := run_ops ws (MkCapture u cap n body hd status true true false) in
  cw_overflowed cw = true ∧ w_sent (cw_under cw) = Some (code, hd') ∧ w_body (cw_under cw) = w_body u +:+ ops_body ws.
Proof.
  revert u. induction ws as [|o ws IH]; intros u Hw Hu; [cbn; by rewrite string_app_nil_r|].
  apply Forall_cons_iff in Hw as [Ho Hw]. rewrite run_ops_cons. destruct o as [| | | |c|b]; try done.
  - by apply IH.
  - assert (w_sent (RW_Write b u) = Some (code, hd') ∧ w_body (RW_Write b u) = w_body u +:+ b) as [H1 H2].
    { unfold RW_Write. by rewrite (RW_WriteHeader_sent _ _ _ Hu). }
    destruct (IH (RW_Write b u) Hw H1) as (E1 & E2 & E3). cbn [ops_body]. rewrite <-string_app_assoc, <-H2. done.
Qed.

(** Writes to the buffer, until it is full. *)
Lemma capture_writes ws h cap n body hd status : informational (status_or_ok status) = false → Forall (write_only status) ws → canonical_header hd → hd ##ₘ h →
  let cw := run_ops ws (MkCapture (new_RW h) cap n body hd status false false false) in
  (∃ n', cw = MkCapture (new_RW h) cap n' (body +:+ ops_body ws) hd status false false false) ∨
  (cw_overflowed cw = true ∧ w_sent (cw_under cw) = Some (status_or_ok status, cached_no (hd ∪ h)) ∧
   w_body (cw_under cw) = body +:+ ops_body ws).
Proof.
  intros Hi Hw Hc Hd. revert n body. induction ws as [|o ws IH]; intros n body.
  { left. exists n. cbn. by rewrite string_app_nil_r. }
  apply Forall_cons_iff in Hw as [Ho Hw]. rewrite run_ops_cons. destruct o as [| | | |c|b]; try done.
  - assert (do_op (MkCapture (new_RW h) cap n body hd status false false false) (OWriteHeader c) =
      MkCapture (new_RW h) cap n body hd status false false false) as ->.
    { cbn. unfold cw_WriteHeader. cbn. cbn in Ho. by destruct (Z.eqb_spec status 0). }
    by apply IH.
  - set (cw := MkCapture (new_RW h) cap n body hd status false false false).
    assert (do_op cw (OWrite b) = if (0 <? cap)%Z && (cap <? n + Z.of_nat (String.length b))%Z then forward b (flushOverflow cw)
      else MkCapture (new_RW h) cap (n + Z.of_nat (String.length b)) (body +:+ b) hd status false false false) as -> by reflexivity.
    cbn [ops_body]. rewrite <-string_app_assoc. destruct (_ && _); [|by apply IH]. right.
    unfold flushOverflow, forward, cw. cbn [cw_overflowed cw_cap cw_written cw_under cw_body cw_headers cw_statusCode cw_headerSent cw_committed].
    destruct (send_RW cached_no h cap n body hd status false false false Hi Hc Hd) as [E1 E2].
    assert (∀ u, w_sent u = Some (status_or_ok status, cached_no (hd ∪ h)) →
      w_sent (RW_Write b u) = Some (status_or_ok status, cached_no (hd ∪ h)) ∧ w_body (RW_Write b u) = w_body u +:+ b) as Hwr.
    { intros u Hu. unfold RW_Write. by rewrite (RW_WriteHeader_sent _ _ _ Hu). }
    destruct (Hwr _ E1) as [E3 E4]. rewrite E2 in E4. rewrite <-E4. by apply (capture_through ws _ cap n "" hd status _ _ Hw E3).
Qed.

(** What a handler's script sends directly. *)
Definition script_status (ws : list wop) : Z := match ws with OWriteHeader code :: _ => code | _ => 200 end.

Lemma direct_headers hs h : Forall header_only hs →
  run_ops hs (new_RW h) = new_RW (ops_header hs h).
Proof.
  intros Hh. revert h. induction Hh as [|o hs Ho _ IH]; intros h; [done|]. rewrite run_ops_cons.
  assert (do_op (new_RW h) o = new_RW (header_op o h)) as -> by (by destruct o). by rewrite IH.
Qed.

Lemma ops_status_writes s ws : Forall (write_only s) ws → s = 0%Z → ops_status ws = match ws with [] => None | _ => Some 200%Z end.
Proof. intros Hw ->. destruct Hw as [|o ws Ho _]; [done|]. by destruct o. Qed.

Lemma direct_final hs ws h : Forall header_only hs →
  match ws with
  | [] => True
  | OWriteHeader code :: ws' => informational code = false ∧ Forall (write_only code) ws'
  | OWrite _ :: _ => Forall (write_only 0) ws
  | _ => False
  end →
  let d := run_ops (hs ++ ws) (new_RW h) in
  final_status d = script_status ws ∧ w_body d = ops_body ws ∧ final_header d = ops_header hs h.
Proof.
  intros Hh Hw. cbn zeta. rewrite run_ops_app, direct_headers by done.
  destruct (run_ops_RW ws (new_RW (ops_header hs h)) _ _ eq_refl eq_refl eq_refl) as [Es Eb].
  unfold final_status, final_header. rewrite Es, Eb. cbn [w_body new_RW]. destruct ws as [|o ws]; [done|].
  destruct o as [| | | |code|b]; try done. destruct Hw as [Hi _]. cbn [ops_status ops_sent_header]. by rewrite Hi.
Qed.

Lemma ops_body_headers hs ws : Forall header_only hs → ops_body (hs ++ ws) = ops_body ws.
Proof. induction 1 as [|o hs Ho _ IH]; [done|]. destruct o; done. Qed.

(** The capturing writer after a script: it holds everything, or it passed everything on. *)
Lemma capture_final ops h cap : headers_first ops → status_first ops → Forall (regular h) ops →
  let cw := run_ops ops (acquireCaptureWriter (new_RW h) cap) in
  let d := run_ops ops (new_RW h) in
  ∃ hd status, canonical_header hd ∧ hd ##ₘ h ∧ final_header d = hd ∪ h ∧ final_status d = status_or_ok status ∧
    informational (status_or_ok status) = false ∧
    ((∃ n, cw = MkCapture (new_RW h) cap n (w_body d) hd status false false false) ∨
     (cw_overflowed cw = true ∧ w_sent (cw_under cw) = Some (status_or_ok status, cached_no (hd ∪ h)) ∧
      w_body (cw_under cw) = w_body d)).
Proof.
  intros Hh Hs Hr. destruct (script_parts ops Hh Hs) as (hs & ws & -> & Hhs & Hws). cbn zeta.
  apply Forall_app in Hr as [Hrh Hrw].
  assert (match ws with
    | [] => True
    | OWriteHeader code :: ws' => informational code = false ∧ Forall (write_only code) ws'
    | OWrite _ :: _ => Forall (write_only 0) ws
    | _ => False
    end) as Hws'.
  { destruct ws as [|[| | | |code|b] ws]; try done. apply Forall_cons_iff in Hrw as [[Hz Hi] _]. by destruct Hws. }
  clear Hws. rename Hws' into Hws.
  destruct (direct_final hs ws h Hhs Hws) as (Es & Eb & Eh). rewrite Es, Eb, Eh.
  assert (canonical_header ∅) as Hc0 by (intros k vs; by rewrite lookup_empty).
  destruct (capture_headers h cap hs ∅ Hhs Hrh Hc0 (map_disjoint_empty_l h)) as (Ec & Hc & Hd & Eu).
  rewrite (left_id_L ∅ (∪)) in Eu. rewrite Eu, run_ops_app. unfold acquireCaptureWriter. rewrite Ec. clear Ec.
  destruct ws as [|o ws]; [exists (ops_header hs ∅), 0%Z; split_and!; try done; left; by exists 0%Z|].
  destruct o as [| | | |code|b]; try done.
  - apply Forall_cons_iff in Hrw as [[Hcode _] _]. destruct Hws as [Hi Hws].
    exists (ops_header hs ∅), code. split; [done|]. split; [done|]. split; [done|].
    assert (status_or_ok code = code) as Hok by (unfold status_or_ok; by rewrite (proj2 (Z.eqb_neq _ _) Hcode)).
    split; [by rewrite Hok|]. split; [by rewrite Hok|]. rewrite run_ops_cons.
    change (do_op _ (OWriteHeader code)) with (MkCapture (new_RW h) cap 0 "" (ops_header hs ∅) code false false false).
    refine (capture_writes ws h cap 0 "" (ops_header hs ∅) code _ Hws Hc Hd). by rewrite Hok.
  - exists (ops_header hs ∅), 0%Z. split; [done|]. split; [done|]. split; [done|]. split; [done|].
    split; [done|]. exact (capture_writes (OWrite b :: ws) h cap 0 "" (ops_header hs ∅) 0 eq_refl Hws Hc Hd).
Qed.

(** Capturing is invisible to the client: a handler that sets its headers and its status
    before it writes is answered with the same status, body and headers as without the
    middleware, whether the response is held until it is stored or outgrows the limit and
    passes through, which only adds a header that says so. *)
Theorem capture_transparent ops h cap : headers_first ops → status_first ops → Forall (regular h) ops →
  let cw := run_ops ops (acquireCaptureWriter (new_RW h) cap) in
  let captured := cw_under (FlushUnderCap cw) in
  let direct := run_ops ops (new_RW h) in
  final_status captured = final_status direct ∧ w_body captured = w_body direct ∧
  final_header captured = (if cw_overflowed cw then cached_no (final_header direct) else final_header direct).
Proof.
  intros Hh Hs Hr. destruct (capture_final ops h cap Hh Hs Hr) as (hd & status & Hc & Hd & Eh & Es & Hi & [(n & Ecw)|(Ho & Esent & Eb)]).
  - cbn zeta. rewrite Ecw, Eh, Es. cbn [FlushUnderCap cw_overflowed cw_committed orb cw_under].
    destruct (send_RW (λ h, h) h cap n (w_body (run_ops ops (new_RW h))) hd status false false false Hi Hc Hd) as [E1 E2].
    unfold FlushUnderCap. cbn [cw_overflowed cw_committed orb cw_under]. unfold final_status, final_header. by rewrite E1, E2.
  - cbn zeta. unfold FlushUnderCap. rewrite Ho. cbn [orb]. rewrite Eh, Es, <-Eb. unfold final_status, final_header. by rewrite Esent.
Qed.

(** * Replays *)

Lemma kept_twice allow k : kept_field allow (CanonicalHeaderKey k) = kept_field allow k.
Proof. unfold kept_field. by rewrite CanonicalHeaderKey_twice. Qed.

Lemma Snapshot_headers allow (hd : header) k : canonical_header hd →
  map_fold (λ k vs (hdrs : header), if kept_field allow k then <[CanonicalHeaderKey k := vs]> hdrs else hdrs) ∅ hd !! k =
  if kept_field allow k then hd !! k else None.
Proof.
  revert hd. refine (map_fold_weak_ind (λ (r hd : header), canonical_header hd → r !! k = if kept_field allow k then hd !! k else None) _ ∅ _ _).
  { intros _. rewrite !lookup_empty. by destruct (kept_field allow k). }
  intros j vs m r Hj IH Hc. destruct (Hc j vs (lookup_insert_eq _ _ _)) as [Ej _].
  assert (r !! k = if kept_field allow k then m !! k else None) as Er.
  { apply IH. intros i us Hi. apply (Hc i us). rewrite lookup_insert_ne by congruence. done. }
  destruct (decide (j = k)) as [<-|Hne].
  - rewrite lookup_insert_eq. destruct (kept_field allow j) eqn:E; rewrite ?Ej, ?lookup_insert_eq; done.
  - rewrite (lookup_insert_ne m) by done. destruct (kept_field allow j); rewrite ?Ej, ?lookup_insert_ne by done; done.
Qed.

Lemma replay_headers allow src dst k : canonical_header src → dst !! k = None →
  replayHeadersTo allow src dst !! k = if kept_field allow k then src !! k else None.
Proof.
  unfold replayHeadersTo. intros Hsrc Hk. revert src Hsrc.
  refine (map_fold_weak_ind (λ (r src : header), canonical_header src → r !! k = if kept_field allow k then src !! k else None) _ dst _ _).
  { intros _. rewrite lookup_empty, Hk. by destruct (kept_field allow k). }
  intros j vs m r Hj IH Hc. destruct (Hc j vs (lookup_insert_eq _ _ _)) as [Ej Hv].
  assert (r !! k = if kept_field allow k then m !! k else None) as Er.
  { apply IH. intros i us Hi. apply (Hc i us). rewrite lookup_insert_ne by congruence. done. }
  rewrite Ej, add_values by done. destruct vs as [|v vs]; [done|]. destruct (decide (j = k)) as [<-|Hne].
  - rewrite lookup_insert_eq. rewrite Hj in Er. destruct (kept_field allow j) eqn:E; rewrite ?lookup_insert_eq, Er; done.
  - rewrite (lookup_insert_ne m) by done. destruct (kept_field allow j); rewrite ?lookup_insert_ne by done; done.
Qed.

(** [C31] A replay repeats the response: from what a handler sent under the limit, another
    writer is sent the same status and the same bytes; of the fields the handler set it gets
    those that are allowed and not on the list that is always stripped, with their values, and
    the mark of a replay. The handler sets its fields and its status before it writes, the
    status neither zero nor informational (1xx), and its fields are none of the outer writer's. *)
Theorem replay_faithful ops h cap allow resp h' : headers_first ops → status_first ops → Forall (regular h) ops →
  let cw := run_ops ops (acquireCaptureWriter (new_RW h) cap) in
  let direct := run_ops ops (new_RW h) in
  Snapshot allow cw = Some resp →
  let replayed := replay allow resp (new_RW h') in
  final_status replayed = final_status direct ∧ w_body replayed = w_body direct ∧
  final_header replayed !! "Idempotency-Replayed" = Some ["true"] ∧
  ∀ k, CanonicalHeaderKey k = k → k ≠ "Idempotency-Replayed" → h !! k = None → h' !! k = None →
    final_header replayed !! k = if kept_field allow k then final_header direct !! k else None.
Proof.
  intros Hh Hs Hr cw direct Hsnap replayed.
  pose proof (capture_final ops h cap Hh Hs Hr) as Hf. cbn zeta in Hf. fold cw in Hf. fold direct in Hf.
  destruct Hf as (hd & status & Hc & Hd & Eh & Es & Hi & [(n & Ecw)|(Ho & _)]).
  2: { unfold Snapshot in Hsnap. by rewrite Ho in Hsnap. }
  rewrite Ecw in Hsnap. unfold Snapshot in Hsnap. cbn [cw_overflowed cw_headers cw_statusCode cw_body] in Hsnap.
  injection Hsnap as <-. set (hdrs := map_fold _ _ _) in *.
  assert (status_or_ok (status_or_ok status) = status_or_ok status) as Hst by (unfold status_or_ok; destruct (status =? 0)%Z eqn:E; [done|by rewrite E]).
  set (h'' := header_set "Idempotency-Replayed" "true" (replayHeadersTo allow hdrs h')).
  assert (w_sent replayed = Some (status_or_ok status, h'') ∧ w_body replayed = w_body direct) as [E1 E2].
  { unfold replayed, replay. cbn [StatusCode Headers Body]. rewrite Hst. cbn [WriteHeader RW_writer].
    rewrite RW_WriteHeader_first by done. unfold write_nonempty.
    destruct (w_body direct) as [|a b]; done. }
  assert (canonical_header hdrs) as Hch.
  { intros k vs Hk. unfold hdrs in Hk. rewrite Snapshot_headers in Hk by done. destruct (kept_field allow k); [by apply Hc|done]. }
  unfold final_status at 1, final_header at 1 2. rewrite E1, Es, E2. split_and!; [done|done|by apply lookup_insert_eq|].
  intros k Hk Hne Hhk Hhk'. unfold h'', header_set. rewrite lookup_insert_ne by (by vm_compute CanonicalHeaderKey; intros ?).
  rewrite replay_headers by done. unfold hdrs. rewrite Snapshot_headers, Eh, lookup_union_l by done. by destruct (kept_field allow k).
Qed.

(** * Examples and witnesses *)

Definition sample : list wop :=
  [HSet "content-type" "text/plain"; HAdd "Set-Cookie" "id=1"; OWriteHeader 201; OWrite "hello"; OWrite " world"].

Lemma sample_regular : headers_first sample ∧ status_first sample ∧ Forall (regular {["X-Request-Id" := ["7"]]}) sample.
Proof. split; [repeat constructor|]. split; [done|]. repeat constructor; done. Qed.

Lemma capture_transparent_witness :
  let direct := run_ops sample (new_RW {["X-Request-Id" := ["7"]]}) in
  let captured cap := cw_under (FlushUnderCap (run_ops sample (acquireCaptureWriter (new_RW {["X-Request-Id" := ["7"]]}) cap))) in
  final_header (captured 64%Z) = final_header direct ∧ final_header (captured 8%Z) = cached_no (final_header direct).
Proof.
  destruct sample_regular as (H1 & H2 & H3). split.
  - destruct (capture_transparent sample {["X-Request-Id" := ["7"]]} 64 H1 H2 H3) as (_ & _ & H). exact H.
  - destruct (capture_transparent sample {["X-Request-Id" := ["7"]]} 8 H1 H2 H3) as (_ & _ & H). exact H.
Defined.

Lemma replay_faithful_witness :
  ∃ resp, Snapshot None (run_ops sample (acquireCaptureWriter (new_RW ∅) 64)) = Some resp ∧
    final_status (replay None resp (new_RW ∅)) = 201%Z ∧ w_body (replay None resp (new_RW ∅)) = "hello world" ∧
    final_header (replay None resp (new_RW ∅)) !! "Set-Cookie" = None.
Proof.
  destruct (Snapshot None (run_ops sample (acquireCaptureWriter (new_RW ∅) 64))) as [resp|] eqn:E; [|vm_compute in E; discriminate E].
  assert (Forall (regular ∅) sample) as H3 by (repeat constructor; done).
  destruct (replay_faithful sample ∅ 64 None resp ∅ (proj1 sample_regular) (proj1 (proj2 sample_regular)) H3 E) as (Hs & Hb & _ & Hk).
  exists resp. split; [reflexivity|]. split; [rewrite Hs; reflexivity|]. split; [rewrite Hb; reflexivity|].
  rewrite Hk; [reflexivity|reflexivity|discriminate|reflexivity|reflexivity].
Defined.

(** A status set after the first bytes is honoured, where net/http has sent 200 already. *)
Example late_status :
  let ops := [OWrite "partial"; OWriteHeader 500] in
  (final_status (cw_under (FlushUnderCap (run_ops ops (acquireCaptureWriter (new_RW ∅) 64)))), final_status (run_ops ops (new_RW ∅))) =
    (500, 200)%Z.
Proof. reflexivity. Qed.

(** An informational status is taken for the one of the response, where net/http waits for
    the next. *)
Example early_hints_captured :
  let ops := [OWriteHeader 103; OWriteHeader 201; OWrite "x"] in
  (cw_statusCode (run_ops ops (acquireCaptureWriter (new_RW ∅) 64)), final_status (run_ops ops (new_RW ∅))) =
    (103, 201)%Z.
Proof. reflexivity. Qed.

(** A field of the outer writer that the handler sets anew is sent with both values. *)
Example outer_field_kept :
  let h := {["Cache-Control" := ["no-store"]]} : header in let ops := [HSet "Cache-Control" "max-age=60"; OWrite "x"] in
  (final_header (cw_under (FlushUnderCap (run_ops ops (acquireCaptureWriter (new_RW h) 64)))) !! "Cache-Control",
   final_header (run_ops ops (new_RW h)) !! "Cache-Control") = (Some ["no-store"; "max-age=60"], Some ["max-age=60"]).
Proof. reflexivity. Qed.
