(* ===== verification/IdempotencyStore.v ===== *)
(** The store of responses under idempotency keys (plugins/idempotency/store.go): its interface,
    and the store in memory, whose entries are objects that waiting requests hold on to. *)
From S2P Require Import Prelude GoStrings Http Errors IdempotencyWriter.
From stdpp Require Import gmap.
Open Scope go_scope.

(** * The interface *)

(** [Store], at a moment. [Wait], of [WaitableStore], is not one step: see [wait_turn]. *)
Class Store (S : Type) : Type := {
  Lock : Z → string → GoM S (bool + error);
  Unlock : Z → string → GoM S (option error);
  Get : Z → string → GoM S (option Response + error);
  Save : Z → string → Response → Z → GoM S (option error)
}.

(** * The store in memory *)

(** [memEntry]; a zero time is [None], and [cond] counts the broadcasts of the condition. *)
Record memEntry : Type := MkEntry {
  resp : option Response;
  expiry : option Z;
  holder : bool;
  released : bool;
  cond : nat
}.
(** The map of pointers, the entries themselves, and the next pointer. *)
Record MemoryStore : Type := MkStore {
  entries : gmap string nat;
  heap : gmap nat memEntry;
  fresh : nat
}.
Definition NewMemoryStore : MemoryStore := MkStore ∅ ∅ 0.

Definition set_entry (p : nat) (e : memEntry) (s : MemoryStore) : MemoryStore :=
  MkStore (entries s) (<[p := e]> (heap s)) (fresh s).
Definition new_entry (key : string) (e : memEntry) (s : MemoryStore) : MemoryStore :=
  MkStore (<[key := fresh s]> (entries s)) (<[fresh s := e]> (heap s)) (Datatypes.S (fresh s)).
Definition drop_entry (key : string) (s : MemoryStore) : MemoryStore :=
  MkStore (delete key (entries s)) (heap s) (fresh s).

(** The entry of a key. *)
Definition entry_of (key : string) (s : MemoryStore) : option (nat * memEntry) :=
  p ← entries s !! key; e ← heap s !! p; Some (p, e).
Definition expired (now : Z) (e : memEntry) : bool :=
  match expiry e with Some t => (t <? now)%Z | None => false end.

Definition mem_Lock (now : Z) (key : string) (s : MemoryStore) : bool * MemoryStore :=
  let shell := MkEntry None None true false 0 in
  match entry_of key s with
  | Some (_, e) => if expired now e then (true, new_entry key shell (drop_entry key s)) else (false, s)
  | None => (true, new_entry key shell s)
  end.

Definition mem_Unlock (key : string) (s : MemoryStore) : MemoryStore :=
  match entry_of key s with
  | None => s
  | Some (p, e) =>
      match resp e with
      | None => drop_entry key (set_entry p (MkEntry None (expiry e) false (released e) (Datatypes.S (cond e))) s)
      | Some r => set_entry p (MkEntry (Some r) (expiry e) false true (Datatypes.S (cond e))) s
      end
  end.

Definition mem_Get (now : Z) (key : string) (s : MemoryStore) : option Response * MemoryStore :=
  match entry_of key s with
  | None => (None, s)
  | Some (_, e) => if expired now e then (None, drop_entry key s) else (resp e, s)
  end.

Definition mem_Save (now : Z) (key : string) (r : Response) (ttl : Z) (s : MemoryStore) : MemoryStore :=
  let save e := MkEntry (Some r) (if (0 <? ttl)%Z then Some (now + ttl)%Z else expiry e) (holder e) (released e) (cond e) in
  match entry_of key s with
  | Some (p, e) => set_entry p (save e) s
  | None => new_entry key (save (MkEntry None None false false 0)) s
  end.

(** [sweepExpired]. *)
Definition sweepExpired (now : Z) (s : MemoryStore) : MemoryStore :=
  let live (p : nat) := match heap s !! p with Some e => holder e || negb (expired now e) | None => true end in
  MkStore (filter (λ kp : string * nat, live kp.2 = true) (entries s)) (heap s) (fresh s).

#[export] Instance MemoryStore_Store : Store MemoryStore := {
  Lock now key := λ s, let (b, s') := mem_Lock now key s in (Ret (inl b), s');
  Unlock now key := λ s, (Ret None, mem_Unlock key s);
  Get now key := λ s, let (r, s') := mem_Get now key s in (Ret (inl r), s');
  Save now key r ttl := λ s, (Ret None, mem_Save now key r ttl s)
}.

(** A turn of the loop of [Wait] on an entry, with the flag [cancelled] and the error of the
    context: an answer, or another wait for the condition. *)
Definition wait_turn (e : memEntry) (cancelled : bool) (err : error) : option (option Response + error) :=
  if negb (released e) && negb cancelled then
    if negb (holder e) && match resp e with None => true | Some _ => false end then Some (inl None) else None
  else if cancelled && negb (released e) then Some (inr err)
  else Some (inl (resp e)).
