(* ===== verification/Idempotency.v ===== *)
(** Idempotency keys (plugins/idempotency/idempotency.go): the middleware as a program over the
    operations of the store and the run of the handler, so that the requests of one key can be
    interleaved at each of them. *)
From S2P Require Import Prelude GoStrings Http Errors RequestContext Sha256 IdempotencyWriter IdempotencyStore.
From stdpp Require Import gmap.

(** * Programs *)

(** How a handler ends, and what it did to its writer. *)
Inductive ending : Type :=
  | Returned (err : option error)
  | Panicked (msg : string).

(** A program up to its next operation: an answer, an operation of the store under a key, or
    the handler with its body. *)
Inductive prog (A : Type) : Type :=
  | Done (a : A)
  | DoGet (key : string) (k : option Response + error → prog A)
  | DoLock (key : string) (k : bool + error → prog A)
  | DoWait (key : string) (k : option Response + error → prog A)
  | DoHandle (body : option reader) (k : list wop * ending → prog A)
  | DoSave (key : string) (r : Response) (ttl : Z) (k : option error → prog A)
  | DoUnlock (key : string) (k : prog A).
Arguments Done {A} a.
Arguments DoGet {A} key k.
Arguments DoLock {A} key k.
Arguments DoWait {A} key k.
Arguments DoHandle {A} body k.
Arguments DoSave {A} key r ttl k.
Arguments DoUnlock {A} key k.

(** * Configuration *)

Inductive ConflictBehavior : Type := ConflictReject | ConflictWait.

(** [Config], the slices that may be nil as options. An error handler gives what it does to the
    writer and its error. *)
Record Config : Type := MkConfig {
  HeaderName : string;
  TTL : Z;
  SafeMethods : option (list string);
  RequireKey : bool;
  HashRequestBody : bool;
  MaxRequestBodyBytes : Z;
  cfg_ConflictBehavior : ConflictBehavior;
  WaitTimeout : Z;
  CacheStatuses : option (list Z);
  CacheStatusFunc : option (Z → bool);
  CachedHeaders : option (list string);
  MaxResponseBytes : Z;
  SkipPaths : list string;
  cfg_ErrorHandler : option (Z → string → list wop * option error)
}.
Definition day : Z := 86400000000000.
Definition DefaultConfig : Config :=
  MkConfig "Idempotency-Key" day None false false 1048576 ConflictReject 0 None None None 4194304 [] None.

Record normalized : Type := MkNormalized {
  headerName : string;
  waitable : bool;
  ttl : Z;
  safeMethods : gset string;
  requireKey : bool;
  hashRequestBody : bool;
  maxRequestBodyBytes : Z;
  conflictBehavior : ConflictBehavior;
  cacheStatuses : option (gset Z);
  cacheNothing : bool;
  cacheStatusFunc : option (Z → bool);
  cachedHeaders : gset string;
  maxResponseBytes : Z;
  skipPaths : gset string;
  errFn : option (Z → string → list wop * option error)
}.

Definition defaultCachedHeaders : gset string :=
  list_to_set ["Content-Type"; "Content-Encoding"; "Cache-Control"; "Location"; "Etag"].

(** [normalize], given whether the store is a [WaitableStore]. *)
Definition normalize (is_waitable : bool) (cfg : Config) : normalized :=
  let maxRequest := Z.max 0 (MaxRequestBodyBytes cfg) in
  MkNormalized
    (if String.eqb (HeaderName cfg) "" then "Idempotency-Key" else HeaderName cfg)
    is_waitable
    (if (TTL cfg <=? 0)%Z then day else TTL cfg)
    (list_to_set (default ["GET"; "HEAD"; "OPTIONS"] (SafeMethods cfg)))
    (RequireKey cfg) (HashRequestBody cfg)
    (if HashRequestBody cfg && (maxRequest =? 0)%Z then 1048576 else maxRequest)
    (cfg_ConflictBehavior cfg)
    match CacheStatuses cfg with Some (s :: l) => Some (list_to_set (s :: l)) | _ => None end
    match CacheStatuses cfg with Some [] => true | _ => false end
    (CacheStatusFunc cfg)
    match CachedHeaders cfg with Some l => list_to_set (map CanonicalHeaderKey l) | None => defaultCachedHeaders end
    (if (MaxResponseBytes cfg <=? 0)%Z then 4194304 else MaxResponseBytes cfg)
    (list_to_set (SkipPaths cfg)) (cfg_ErrorHandler cfg).

(** * Requests *)

(** A request, and what its context gives, if it has one: the answer of the skipper, the
    lifetime of its route, its identifier. *)
Record context : Type := MkContext {
  q_skip : bool;
  q_routeTTL : option Z;
  q_requestID : string
}.
Record request : Type := MkRequest {
  q_Method : string;
  q_Path : string;
  q_Header : header;
  q_Body : option reader;
  q_ctx : option context
}.

(** [readCapped]: the bytes, or that there are too many, or an error. *)
Definition readCapped (r : option reader) (maxBytes : Z) : (string * bool) + error :=
  match r with
  | None => inl ("", false)
  | Some rd =>
      if (0 <? maxBytes)%Z && (maxBytes <? Z.of_nat (String.length (rd_data rd)))%Z then inl ("", true)
      else match rd_err rd with None => inl (rd_data rd, false) | Some err => inr err end
  end.

Definition shouldCache (n : normalized) (status : Z) : bool :=
  match cacheStatusFunc n with
  | Some f => f status
  | None =>
      if cacheNothing n then false
      else match cacheStatuses n with
      | None => (200 <=? status)%Z && (status <? 400)%Z
      | Some s => bool_decide (status ∈ s)
      end
  end.
Definition route_ttl (q : request) : option Z := c ← q_ctx q; q_routeTTL c.
Definition resolveTTL (n : normalized) (q : request) : Z := default (ttl n) (route_ttl q).
Definition shouldCacheForRequest (n : normalized) (q : request) (status : Z) : bool :=
  match route_ttl q with
  | Some d => if (d =? 0)%Z then false else shouldCache n status
  | None => shouldCache n status
  end.

Definition shouldSkip (n : normalized) (q : request) : bool :=
  bool_decide (q_Path q ∈ skipPaths n) || match q_ctx q with Some c => q_skip c | None => false end.

Definition PayloadMismatchErrorCode : string := "idempotency_key_reused_with_different_payload".
Definition payloadMismatchMessage : string := "Idempotency-Key reused with a different request payload".
Definition in_flight : string := "idempotency: concurrent request in flight".

Definition DeadlineExceeded : error := ErrorText "context deadline exceeded".
Definition Canceled : error := ErrorText "context canceled".
Definition is_context_error (e : error) : option unit :=
  match e with
  | ErrorText m => if String.eqb m "context deadline exceeded" || String.eqb m "context canceled" then Some tt else None
  | _ => None
  end.

(** * The middleware *)

Section middleware.
Context {W : Type} `{ResponseWriter W}.
(** [http.StatusText] and the encoding of the error body by encoding/json. *)
Context (status_text : Z → string) (json_encode : payload → string).

Definition codeForStatus (status : Z) : string :=
  if (status =? 400)%Z then "bad_request"
  else if (status =? 409)%Z then "conflict"
  else if (status =? 422)%Z then "unprocessable_entity"
  else if (status =? 500)%Z then "internal_error"
  else status_text status.

(** The handler without the middleware. *)
Definition pass (q : request) (body : option reader) (w : W) : prog (W * ending) :=
  DoHandle body (λ '(ops, e), Done (run_ops ops w, e)).

(** The first request of a key, which holds it: the handler on a capturing writer, what is
    stored of it, and the deferred [Unlock]. *)
Definition first_request (n : normalized) (q : request) (key : string) (hash : option string) (body : option reader) (w : W)
    : prog (W * ending) :=
  DoHandle body (λ '(ops, e),
    let cw := run_ops ops (acquireCaptureWriter w (maxResponseBytes n)) in
    match e with
    | Panicked msg => DoUnlock key (Done (cw_under cw, Panicked msg))
    | Returned err =>
        if cw_overflowed cw then DoUnlock key (Done (cw_under cw, Returned err))
        else
          let finish := DoUnlock key (Done (cw_under (FlushUnderCap cw), Returned err)) in
          match Snapshot (Some (cachedHeaders n)) cw with
          | Some snap =>
              if shouldCacheForRequest n q (cw_Status cw) then
                DoSave key (MkResponse (StatusCode snap) (Headers snap) (Body snap) (default zero_hash hash)) (resolveTTL n q) (λ _, finish)
              else finish
          | None => finish
          end
    end).

(** A stored response against the hash of the request's body, if it is set. *)
Definition mismatch (hash : option string) (r : Response) : bool :=
  match hash with
  | Some hash => negb (String.eqb (PayloadHash r) zero_hash) && negb (String.eqb (PayloadHash r) hash)
  | None => false
  end.

(** ** The native form *)

Definition errNative (n : normalized) (status : Z) (message : string) (w : W) : prog (W * ending) :=
  match errFn n with
  | Some f => let (ops, err) := f status message in Done (run_ops ops w, Returned err)
  | None => Done (w, Returned (Some (AsApp (NewError status (codeForStatus status) message))))
  end.
Definition errPayloadMismatchNative (n : normalized) (w : W) : prog (W * ending) :=
  match errFn n with
  | Some f => let (ops, err) := f 422%Z payloadMismatchMessage in Done (run_ops ops w, Returned err)
  | None => Done (w, Returned (Some (AsApp (NewError 422 PayloadMismatchErrorCode payloadMismatchMessage))))
  end.
Definition replayNative (n : normalized) (r : Response) (w : W) : prog (W * ending) :=
  Done (replay (Some (cachedHeaders n)) r w, Returned None).
Definition fail (e : AppError) (w : W) : prog (W * ending) := Done (w, Returned (Some (AsApp e))).

Definition handleConflictNative (n : normalized) (key : string) (hash : option string) (w : W) : prog (W * ending) :=
  match conflictBehavior n, waitable n with
  | ConflictWait, true =>
      DoWait key (λ res,
        match res with
        | inr err =>
            match errors_As is_context_error err with
            | Some _ => errNative n 409 in_flight w
            | None => fail (WithDetail "idempotency: store Wait failed" (ErrInternal (Some err))) w
            end
        | inl None => errNative n 409 in_flight w
        | inl (Some r) => if mismatch hash r then errPayloadMismatchNative n w else replayNative n r w
        end)
  | _, _ => errNative n 409 in_flight w
  end.

(** From the hash of the body on. *)
Definition keyed_native (n : normalized) (q : request) (key : string) (hash : option string) (body : option reader) (w : W)
    : prog (W * ending) :=
  DoGet key (λ cached,
    match cached with
    | inr err => fail (WithDetail "idempotency: store Get failed" (ErrInternal (Some err))) w
    | inl (Some r) => if mismatch hash r then errPayloadMismatchNative n w else replayNative n r w
    | inl None =>
        DoLock key (λ acquired,
          match acquired with
          | inr err => fail (WithDetail "idempotency: store Lock failed" (ErrInternal (Some err))) w
          | inl false => handleConflictNative n key hash w
          | inl true => first_request n q key hash body w
          end)
    end).

Definition handleNative (n : normalized) (q : request) (w : W) : prog (W * ending) :=
  if shouldSkip n q then pass q (q_Body q) w
  else if bool_decide (q_Method q ∈ safeMethods n) then pass q (q_Body q) w
  else
    let key := header_get (headerName n) (q_Header q) in
    if String.eqb key "" then
      if requireKey n then errNative n 400 ("missing " +:+ headerName n +:+ " header") w else pass q (q_Body q) w
    else if hashRequestBody n then
      match readCapped (q_Body q) (maxRequestBodyBytes n) with
      | inr err => fail (WithInternal (Some err) (ErrBadRequest "failed to read request body")) w
      | inl (_, true) => fail (ErrPayloadTooLarge "request body exceeds idempotency hash cap") w
      | inl (data, false) => keyed_native n q key (Some (Sum256 data)) (Some (MkReader data None)) w
      end
    else keyed_native n q key None (q_Body q) w.

(** ** The stdlib form *)

Definition request_id (q : request) : string := match q_ctx q with Some c => q_requestID c | None => "" end.
Definition write_error (status : Z) (code message rid : string) (w : W) : W :=
  run_ops [HSet "Content-Type" "application/json; charset=utf-8"; OWriteHeader status;
           OWrite (json_encode (PError code message "" rid))] w.
Definition errStdlib_with (n : normalized) (q : request) (status : Z) (code message : string) (w : W) : prog (W * ending) :=
  match q_ctx q, errFn n with
  | Some _, Some f =>
      let (ops, err) := f status message in
      let w := run_ops ops w in
      Done (match err with Some _ => write_error status code message (request_id q) w | None => w end, Returned None)
  | _, _ => Done (write_error status code message (request_id q) w, Returned None)
  end.
Definition errStdlib (n : normalized) (q : request) (status : Z) (message : string) (w : W) : prog (W * ending) :=
  errStdlib_with n q status (codeForStatus status) message w.
Definition errPayloadMismatchStdlib (n : normalized) (q : request) (w : W) : prog (W * ending) :=
  errStdlib_with n q 422 PayloadMismatchErrorCode payloadMismatchMessage w.
Definition replayStdlib (n : normalized) (r : Response) (w : W) : prog (W * ending) :=
  Done (replay (Some (cachedHeaders n)) r w, Returned None).

Definition handleConflictStdlib (n : normalized) (q : request) (key : string) (hash : option string) (w : W) : prog (W * ending) :=
  match conflictBehavior n, waitable n with
  | ConflictWait, true =>
      DoWait key (λ res,
        match res with
        | inr err =>
            match errors_As is_context_error err with
            | Some _ => errStdlib n q 409 in_flight w
            | None => errStdlib n q 500 "idempotency: store Wait failed" w
            end
        | inl None => errStdlib n q 409 in_flight w
        | inl (Some r) => if mismatch hash r then errPayloadMismatchStdlib n q w else replayStdlib n r w
        end)
  | _, _ => errStdlib n q 409 in_flight w
  end.

Definition keyed_stdlib (n : normalized) (q : request) (key : string) (hash : option string) (body : option reader) (w : W)
    : prog (W * ending) :=
  DoGet key (λ cached,
    match cached with
    | inr _ => errStdlib n q 500 "idempotency: store Get failed" w
    | inl (Some r) => if mismatch hash r then errPayloadMismatchStdlib n q w else replayStdlib n r w
    | inl None =>
        DoLock key (λ acquired,
          match acquired with
          | inr _ => errStdlib n q 500 "idempotency: store Lock failed" w
          | inl false => handleConflictStdlib n q key hash w
          | inl true => first_request n q key hash body w
          end)
    end).

(** The server's requests have a body; closing one that is nil panics. *)
Definition handleStdlib (n : normalized) (q : request) (w : W) : prog (W * ending) :=
  if shouldSkip n q then pass q (q_Body q) w
  else if bool_decide (q_Method q ∈ safeMethods n) then pass q (q_Body q) w
  else
    let key := header_get (headerName n) (q_Header q) in
    if String.eqb key "" then
      if requireKey n then errStdlib n q 400 ("missing " +:+ headerName n +:+ " header") w else pass q (q_Body q) w
    else if hashRequestBody n then
      match readCapped (q_Body q) (maxRequestBodyBytes n) with
      | inr _ => errStdlib n q 400 "failed to read request body" w
      | inl (_, true) => errStdlib n q 413 "request body exceeds idempotency hash cap" w
      | inl (data, false) =>
          match q_Body q with
          | None => Done (w, Panicked "invalid memory address or nil pointer dereference")
          | Some _ => keyed_stdlib n q key (Some (Sum256 data)) (Some (MkReader data None)) w
          end
      end
    else keyed_stdlib n q key None (q_Body q) w.
End middleware.
