(* ===== verification/IdempotencyMachine.v ===== *)
(** Requests under the idempotency plugin, together (plugins/idempotency/idempotency.go, store.go):
    a machine whose requests take their operations of one store in memory in any order, while the
    clock runs, the janitor sweeps and contexts are cancelled. *)
From S2P Require Import Prelude GoStrings Http Errors RequestContext IdempotencyWriter IdempotencyStore Idempotency.
From stdpp Require Import gmap relations.

Section machine.
Context {A : Type}.

(** What a request does: it is at its next operation, a handler that runs being at [DoHandle] until
    it ends; or it sleeps in [cond.Wait] of an entry, with the broadcasts it has seen and the error of
    its context once that is cancelled. *)
Inductive activity : Type :=
  | Runs (p : prog A)
  | Waits (ptr seen : nat) (cancelled : option error) (k : option Response + error → prog A).

(** A request: the key its handler runs under, if it has one, what it does, and the key it holds,
    with whether it has saved. The last is a record of its operations which none of them reads. *)
Record thread : Type := MkThread {
  its_key : option string;
  todo : activity;
  held : option (string * bool)
}.
Record machine : Type := MkMachine {
  now : Z;
  store : MemoryStore;
  threads : list thread
}.
Definition start (t : Z) : machine := MkMachine t NewMemoryStore [].

Inductive event : Type :=
  | Tick (d : Z)                                (* time passes *)
  | Arrive (key : option string) (p : prog A)   (* a request arrives *)
  | Advance (i : nat)                           (* a request does an operation of the store *)
  | Ends (i : nat) (res : list wop * ending)    (* its handler ends *)
  | Wake (i : nat)                              (* a broadcast wakes it *)
  | ContextDone (i : nat) (err : error)              (* its context is done while it waits *)
  | Late (p : nat)                              (* the same, of a wait that is over *)
  | Janitor.                                    (* the sweep *)

Definition set_store (s : MemoryStore) (m : machine) : machine := MkMachine (now m) s (threads m).
Definition set_thread (i : nat) (t : thread) (m : machine) : machine :=
  MkMachine (now m) (store m) (<[i := t]> (threads m)).
Definition broadcast (p : nat) (s : MemoryStore) : MemoryStore :=
  match heap s !! p with
  | Some e => set_entry p (MkEntry (resp e) (expiry e) (holder e) (released e) (S (cond e))) s
  | None => s
  end.

(** A turn of the loop of [Wait] on an entry. *)
Definition turn (p : nat) (e : memEntry) (cancelled : option error) (k : option Response + error → prog A) : activity :=
  match wait_turn e (if cancelled then true else false) (default Canceled cancelled) with
  | Some res => Runs (k res)
  | None => Waits p (cond e) cancelled k
  end.

(** An operation of the store by the request [i]. *)
Definition operate (i : nat) (t : thread) (m : machine) : option machine :=
  let next s a h := Some (set_thread i (MkThread (its_key t) a h) (set_store s m)) in
  match todo t with
  | Runs (DoGet key k) => let (r, s) := mem_Get (now m) key (store m) in next s (Runs (k (inl r))) (held t)
  | Runs (DoLock key k) =>
      let (b, s) := mem_Lock (now m) key (store m) in
      next s (Runs (k (inl b))) (if b then Some (key, false) else held t)
  | Runs (DoWait key k) =>
      match entry_of key (store m) with
      | None => next (store m) (Runs (k (inl None))) (held t)
      | Some (p, e) => next (store m) (turn p e None k) (held t)
      end
  | Runs (DoSave key r ttl k) => next (mem_Save (now m) key r ttl (store m)) (Runs (k None)) (Some (key, true))
  | Runs (DoUnlock key k) => next (mem_Unlock key (store m)) (Runs k) None
  | _ => None
  end.

Definition step (ev : event) (m : machine) : option machine :=
  match ev with
  | Tick d => if (0 <=? d)%Z then Some (MkMachine (now m + d) (store m) (threads m)) else None
  | Arrive key p => Some (MkMachine (now m) (store m) (threads m ++ [MkThread key (Runs p) None]))
  | Advance i => t ← threads m !! i; operate i t m
  | Ends i res =>
      t ← threads m !! i;
      match todo t with
      | Runs (DoHandle _ k) => Some (set_thread i (MkThread (its_key t) (Runs (k res)) (held t)) m)
      | _ => None
      end
  | Wake i =>
      t ← threads m !! i;
      match todo t with
      | Waits p seen c k =>
          e ← heap (store m) !! p;
          if (seen <? cond e)%nat then Some (set_thread i (MkThread (its_key t) (turn p e c k) (held t)) m) else None
      | _ => None
      end
  | ContextDone i err =>
      t ← threads m !! i;
      match todo t with
      | Waits p seen _ k =>
          Some (set_thread i (MkThread (its_key t) (Waits p seen (Some err) k) (held t))
            (set_store (broadcast p (store m)) m))
      | _ => None
      end
  | Late p => Some (set_store (broadcast p (store m)) m)
  | Janitor => Some (set_store (sweepExpired (now m) (store m)) m)
  end.

(** A lookup of a key whose entry has run out although its holder has not released it: the time to
    live was shorter than the time from the holder's save to its release. *)
Definition premature (ev : event) (m : machine) : bool :=
  match ev with
  | Advance i =>
      match threads m !! i with
      | Some (MkThread _ (Runs (DoGet key _)) _) | Some (MkThread _ (Runs (DoLock key _)) _) =>
          match entry_of key (store m) with Some (_, e) => holder e && expired (now m) e | None => false end
      | _ => false
      end
  | _ => false
  end.

(** Steps in which the requests that arrive are of a given kind, and none looks up a key
    prematurely. *)
Definition trans (arrives : option string → prog A → Prop) (m m' : machine) : Prop :=
  ∃ ev, step ev m = Some m' ∧ premature ev m = false ∧
    match ev with Arrive key p => arrives key p | _ => True end.

(** A request whose handler runs. *)
Definition in_handler (m : machine) (i : nat) (key : string) : Prop :=
  ∃ t body k, threads m !! i = Some t ∧ todo t = Runs (DoHandle body k) ∧ its_key t = Some key.

Fixpoint run (evs : list event) (m : machine) : option machine :=
  match evs with [] => Some m | ev :: evs => m' ← step ev m; run evs m' end.
End machine.
Arguments activity A : clear implicits.
Arguments thread A : clear implicits.
Arguments machine A : clear implicits.
Arguments event A : clear implicits.

(** * The requests of the middleware *)

(** The key under which the middleware guards a request. *)
Definition request_key (n : normalized) (q : request) : option string :=
  if shouldSkip n q || bool_decide (q_Method q ∈ safeMethods n) then None
  else let key := header_get (headerName n) (q_Header q) in if String.eqb key "" then None else Some key.

Section arrivals.
Context {W : Type} `{ResponseWriter W} (status_text : Z → string) (json_encode : payload → string).
(** A request in one of the two forms, in an application with any configuration. *)
Inductive arrives : option string → prog (W * ending) → Prop :=
  | arrives_native n q w : arrives (request_key n q) (handleNative status_text n q w)
  | arrives_stdlib n q w : arrives (request_key n q) (handleStdlib status_text json_encode n q w).
Definition reachable (m : machine (W * ending)) : Prop := ∃ t, rtc (trans arrives) (start t) m.
End arrivals.
