(* ===== verification/IdempotencyLaws.v ===== *)
(** What requests under the idempotency plugin may rely on, whatever their interleaving: one
    handler per key, a saved answer until it runs out, and no request that sleeps for ever. *)
From S2P Require Import Prelude GoStrings Http Errors RequestContext Sha256 IdempotencyWriter IdempotencyStore Idempotency IdempotencyMachine.
From stdpp Require Import gmap relations.

(** * Requests that keep the protocol of the store *)

Section protocol.
Context {A : Type}.

(** From holding [h] on, a request takes one key at a time, saves once and releases; its handler
    runs, before the save, while it holds [key], if there is one. *)
Fixpoint obeys (key : option string) (h : option (string * bool)) (p : prog A) : Prop :=
  match p with
  | Done _ => h = None
  | DoGet _ k => h = None ∧ ∀ r, obeys key None (k r)
  | DoLock x k =>
      h = None ∧ key = Some x ∧ obeys key (Some (x, false)) (k (inl true)) ∧ ∀ r, r ≠ inl true → obeys key None (k r)
  | DoWait _ k => h = None ∧ ∀ r, obeys key None (k r)
  | DoHandle _ k => h = option_map (λ x, (x, false)) key ∧ ∀ r, obeys key h (k r)
  | DoSave x _ _ k => h = Some (x, false) ∧ ∀ r, obeys key (Some (x, true)) (k r)
  | DoUnlock x k => (∃ b, h = Some (x, b)) ∧ obeys key None k
  end.
End protocol.

Section middleware.
Context {W : Type} `{ResponseWriter W} (status_text : Z → string) (json_encode : payload → string).

Local Ltac obey := repeat first [done | case_match | split | intros ? | eexists]; simplify_eq/=; eauto.

Lemma obeys_first n q key hash body (w : W) : obeys (Some key) (Some (key, false)) (first_request n q key hash body w).
Proof. split; [done|]. intros [ops []]; cbn; obey. Qed.

Lemma obeys_conflict_native n key hash (w : W) : obeys (Some key) None (handleConflictNative status_text n key hash w).
Proof.
  unfold handleConflictNative, errNative, errPayloadMismatchNative.
  destruct (conflictBehavior n), (waitable n), (errFn n); obey.
Qed.
Lemma obeys_conflict_stdlib n q key hash (w : W) :
  obeys (Some key) None (handleConflictStdlib status_text json_encode n q key hash w).
Proof.
  unfold handleConflictStdlib, errPayloadMismatchStdlib, errStdlib, errStdlib_with.
  destruct (conflictBehavior n), (waitable n), (q_ctx q), (errFn n); obey.
Qed.

Lemma obeys_keyed_native n q key hash body (w : W) :
  obeys (Some key) None (keyed_native status_text n q key hash body w).
Proof.
  split; [done|]. intros [[r|]|err]; [| |done].
  - cbn. unfold errPayloadMismatchNative. obey.
  - split_and!; [done..|apply obeys_first|]. intros [[]|] ?; [done|apply obeys_conflict_native|done].
Qed.
Lemma obeys_keyed_stdlib n q key hash body (w : W) :
  obeys (Some key) None (keyed_stdlib status_text json_encode n q key hash body w).
Proof.
  assert (∀ s c m, obeys (Some key) None (errStdlib_with json_encode n q s c m w)) as Herr.
  { intros. unfold errStdlib_with. obey. }
  split; [done|]. intros [[r|]|err]; [| |apply Herr].
  - cbn. unfold errPayloadMismatchStdlib. case_match; [apply Herr|done].
  - split_and!; [done..|apply obeys_first|]. intros [[]|] ?; [done|apply obeys_conflict_stdlib|apply Herr].
Qed.

Lemma obeys_pass q body (w : W) : obeys None None (pass q body w).
Proof. split; [done|]. by intros []. Qed.

(** Both forms keep the protocol, with the handler under the request's key. *)
Lemma arrives_obeys key p : arrives status_text json_encode key p → obeys key None p.
Proof.
  destruct 1 as [n q w|n q w]; unfold request_key, handleNative, handleStdlib.
  - destruct (shouldSkip n q), (bool_decide _); [apply obeys_pass..|]. cbn.
    destruct (String.eqb _ ""); [destruct (requireKey n); [|apply obeys_pass]; unfold errNative; obey|].
    destruct (hashRequestBody n); [|apply obeys_keyed_native].
    destruct (readCapped _ _) as [[? []]|]; [done|apply obeys_keyed_native|done].
  - assert (∀ k s c m, obeys k None (errStdlib_with json_encode n q s c m w)) as Herr.
    { intros. unfold errStdlib_with. obey. }
    destruct (shouldSkip n q), (bool_decide _); [apply obeys_pass..|]. cbn.
    destruct (String.eqb _ ""); [destruct (requireKey n); [apply Herr|apply obeys_pass]|].
    destruct (hashRequestBody n); [|apply obeys_keyed_stdlib].
    destruct (readCapped _ _) as [[? []]|]; [apply Herr| |apply Herr].
    destruct (q_Body q); [apply obeys_keyed_stdlib|done].
Qed.
End middleware.

(** * The store and those that hold its keys *)

Lemma entry_of_Some key s p e : entry_of key s = Some (p, e) ↔ entries s !! key = Some p ∧ heap s !! p = Some e.
Proof.
  unfold entry_of. split.
  - intros (p' & Hp & (e' & He & [= -> ->])%bind_Some)%bind_Some. done.
  - intros [-> He]. cbn. by rewrite He.
Qed.
Lemma entry_of_None key s :
  (∀ p, entries s !! key = Some p → is_Some (heap s !! p)) → entry_of key s = None → entries s !! key = None.
Proof.
  unfold entry_of. intros Hwf. destruct (entries s !! key) as [p|] eqn:E; [|done]. cbn.
  destruct (Hwf p eq_refl) as [e ->]. done.
Qed.

Local Notation holders := (list (option (string * bool))).

(** The store [s] when the requests hold [hs]: a held key has an entry, held and not yet released,
    with a response once it is saved; an entry is held by one request or has a saved and released
    response; and an entry that is neither is no key's any more. *)
Record consistent (s : MemoryStore) (hs : holders) : Prop := {
  c_heap : ∀ key p, entries s !! key = Some p → is_Some (heap s !! p);
  c_fresh : ∀ p, is_Some (heap s !! p) → (p < IdempotencyStore.fresh s)%nat;
  c_inj : ∀ key key' p, entries s !! key = Some p → entries s !! key' = Some p → key = key';
  c_held : ∀ i key b, hs !! i = Some (Some (key, b)) →
    ∃ p e, entry_of key s = Some (p, e) ∧ holder e = true ∧ (is_Some (resp e) ↔ b = true);
  c_unique : ∀ i j key b c, hs !! i = Some (Some (key, b)) → hs !! j = Some (Some (key, c)) → i = j;
  c_owner : ∀ p e, heap s !! p = Some e → holder e = true →
    released e = false ∧ ∃ key i b, entries s !! key = Some p ∧ hs !! i = Some (Some (key, b));
  c_idle : ∀ p e, heap s !! p = Some e → holder e = false →
    if resp e then released e = true else released e = false ∧ ∀ key, entries s !! key ≠ Some p
}.

Lemma consistent_new : consistent NewMemoryStore [].
Proof. split; cbn; intros *; rewrite ?lookup_empty; done || intros []; done. Qed.
Lemma consistent_arrive s hs : consistent s hs → consistent s (hs ++ [None]).
Proof.
  intros Hc.
  assert (∀ i x, (hs ++ [None]) !! i = Some (Some x) → hs !! i = Some (Some x)) as Hsnoc.
  { intros i x [Hi|[_ Hi]]%lookup_app_Some; [done|]. by apply list_lookup_singleton_Some in Hi as [_ ?]. }
  split; try apply Hc.
  - intros i key b Hi%Hsnoc. by eapply c_held.
  - intros i j key b c Hi%Hsnoc Hj%Hsnoc. by eapply c_unique.
  - intros p e He Hh. destruct (c_owner _ _ Hc p e He Hh) as (? & key & i & b & ? & ?).
    split; [done|]. exists key, i, b. split; [done|]. by apply lookup_app_l_Some.
Qed.

(** [s'] may follow [s] under the requests that sleep: an entry stays, and it stays as it was, or
    it has been broadcast, or it is held. *)
Definition follows (s s' : MemoryStore) : Prop :=
  ∀ p e, heap s !! p = Some e → ∃ e', heap s' !! p = Some e' ∧
    (e' = e ∨ (cond e < cond e')%nat ∨ (cond e' = cond e ∧ holder e' = true ∧ released e' = false)).
Lemma follows_heap s s' : heap s' = heap s → follows s s'.
Proof. intros Hh p e He. exists e. rewrite Hh. auto. Qed.

(** Keys whose entries are not held may be forgotten. *)
Lemma consistent_forget s s' hs :
  consistent s hs → heap s' = heap s → IdempotencyStore.fresh s' = IdempotencyStore.fresh s →
  (∀ key p, entries s' !! key = Some p → entries s !! key = Some p) →
  (∀ key p e, entries s !! key = Some p → heap s !! p = Some e → holder e = true → entries s' !! key = Some p) →
  consistent s' hs.
Proof.
  intros Hc Hh Hf Hsub Hkeep. split; rewrite ?Hh, ?Hf; try apply Hc.
  - intros key p Hp%Hsub. by eapply c_heap.
  - intros key key' p Hp%Hsub Hp'%Hsub. by eapply c_inj.
  - intros i key b Hi. destruct (c_held _ _ Hc i key b Hi) as (p & e & [Hp He]%entry_of_Some & Hho & Hr).
    exists p, e. rewrite entry_of_Some, Hh. eauto.
  - intros p e He Ht. destruct (c_owner _ _ Hc p e He Ht) as (? & key & i & b & Hp & Hi).
    split; [done|]. exists key, i, b. eauto.
  - intros p e He Ht. pose proof (c_idle _ _ Hc p e He Ht) as Hi. destruct (resp e); [done|].
    destruct Hi as [? Hi]. split; [done|]. intros key Hp%Hsub. by eapply Hi.
Qed.

Lemma consistent_drop s hs key p e :
  consistent s hs → entries s !! key = Some p → heap s !! p = Some e → holder e = false → consistent (drop_entry key s) hs.
Proof.
  intros Hc Hp He Hh. eapply consistent_forget; eauto; cbn.
  - by intros k p' [_ ?]%lookup_delete_Some.
  - intros k p' e' Hp' He' Hh'. rewrite lookup_delete_ne; [done|]. intros <-. congruence.
Qed.

Lemma consistent_sweep t s hs : consistent s hs → consistent (sweepExpired t s) hs.
Proof.
  intros Hc. eapply consistent_forget; eauto; cbn.
  - by intros k p [? _]%map_lookup_filter_Some.
  - intros k p e Hp He Hh. apply map_lookup_filter_Some. cbn. by rewrite He, Hh.
Qed.

(** A change of the entry of a key, with what the requests hold. *)
Lemma consistent_broadcast p s hs : consistent s hs → consistent (broadcast p s) hs.
Proof.
  intros Hc. unfold broadcast. destruct (heap s !! p) as [e|] eqn:He; [|done].
  assert (∀ p' e', heap (set_entry p (MkEntry (resp e) (expiry e) (holder e) (released e) (S (cond e))) s) !! p' = Some e' →
    ∃ e0, heap s !! p' = Some e0 ∧ resp e' = resp e0 ∧ holder e' = holder e0 ∧ released e' = released e0) as Hback.
  { cbn. intros p' e' [[-> <-]|[? ?]]%lookup_insert_Some; eauto. }
  assert (∀ p' e0, heap s !! p' = Some e0 → ∃ e',
    heap (set_entry p (MkEntry (resp e) (expiry e) (holder e) (released e) (S (cond e))) s) !! p' = Some e' ∧
    resp e' = resp e0 ∧ holder e' = holder e0) as Hforth.
  { cbn. intros p' e0 H0. destruct (decide (p = p')) as [->|]; [|rewrite lookup_insert_ne; eauto].
    rewrite lookup_insert_eq. simplify_eq. eauto. }
  split; try apply Hc.
  - intros key p' Hp'. destruct (c_heap _ _ Hc key p' Hp') as [e' He']. destruct (Hforth _ _ He') as (? & ? & _). eauto.
  - intros p' [e' (e0 & H0 & _)%Hback]. apply (c_fresh _ _ Hc). eauto.
  - intros i key b Hi. destruct (c_held _ _ Hc i key b Hi) as (p' & e' & [Hp' He']%entry_of_Some & Hho & Hr).
    destruct (Hforth _ _ He') as (e1 & H1 & Hr1 & Hh1). exists p', e1. rewrite entry_of_Some, Hr1, Hh1. done.
  - intros p' e' (e0 & H0 & _ & -> & ->)%Hback Ht. by apply (c_owner _ _ Hc).
  - intros p' e' (e0 & H0 & -> & -> & ->)%Hback Ht. by apply (c_idle _ _ Hc).
Qed.

Lemma consistent_lock s hs i key e :
  consistent s hs → hs !! i = Some None → entries s !! key = None →
  holder e = true → released e = false → resp e = None →
  consistent (new_entry key e s) (<[i := Some (key, false)]> hs).
Proof.
  intros Hc Hi Hk Hho Hrel Hr.
  pose proof (lookup_lt_Some _ _ _ Hi) as Hlen.
  assert (heap s !! IdempotencyStore.fresh s = None) as Hnew.
  { apply eq_None_not_Some. intros ?%(c_fresh _ _ Hc). lia. }
  assert (∀ k p, entries s !! k = Some p → p ≠ IdempotencyStore.fresh s) as Hptr.
  { intros k p Hp ->. destruct (c_heap _ _ Hc _ _ Hp) as [? ?]. congruence. }
  split; cbn.
  - intros k p [[-> <-]|[? Hp]]%lookup_insert_Some; [by rewrite lookup_insert_eq|].
    rewrite lookup_insert_ne; [by eapply c_heap|]. intros <-. by eapply Hptr.
  - intros p [e' [[<- _]|[? Hp]]%lookup_insert_Some]; [lia|]. apply Nat.lt_lt_succ_r, (c_fresh _ _ Hc). eauto.
  - intros k k' p [[<- <-]|[? Hp]]%lookup_insert_Some [[<- Hq]|[? Hq]]%lookup_insert_Some; try done.
    + by eapply Hptr in Hq.
    + subst. by eapply Hptr in Hp.
    + by eapply c_inj.
  - intros j k b [(<- & [= <- <-] & _)|[? Hj]]%list_lookup_insert_Some.
    + exists (IdempotencyStore.fresh s), e. rewrite entry_of_Some. cbn. rewrite !lookup_insert_eq, Hr.
      split; [done|]. split; [done|]. by split; [intros []|].
    + destruct (c_held _ _ Hc j k b Hj) as (p & e' & [Hp He]%entry_of_Some & ?). exists p, e'. rewrite entry_of_Some. cbn.
      rewrite !lookup_insert_ne; [done|by eapply not_eq_sym, Hptr|congruence].
  - intros j j' k b c [(<- & [= <- <-] & _)|[? Hj]]%list_lookup_insert_Some
      [(<- & [= <-] & _)|[? Hj']]%list_lookup_insert_Some; try done.
    + destruct (c_held _ _ Hc _ _ _ Hj') as (? & ? & [? _]%entry_of_Some & _). congruence.
    + destruct (c_held _ _ Hc _ _ _ Hj) as (? & ? & [? _]%entry_of_Some & _). congruence.
    + by eapply c_unique.
  - intros p e' [[<- <-]|[? He]]%lookup_insert_Some Ht.
    + split; [done|]. exists key, i, false. by rewrite lookup_insert_eq, list_lookup_insert_eq.
    + destruct (c_owner _ _ Hc p e' He Ht) as (? & k & j & b & Hp & Hj). split; [done|]. exists k, j, b.
      rewrite lookup_insert_ne by congruence. rewrite list_lookup_insert_ne by congruence. done.
  - intros p e' [[<- <-]|[? He]]%lookup_insert_Some Ht; [congruence|].
    pose proof (c_idle _ _ Hc p e' He Ht) as Hidle. destruct (resp e'); [done|]. destruct Hidle as [? Hidle].
    split; [done|]. intros k [[_ ?]|[_ Hp]]%lookup_insert_Some; [done|by eapply Hidle].
Qed.

(** The entry of a held key changes: it stays held, or it is released with its response. *)
Lemma consistent_set s hs i key b p e e' h :
  consistent s hs → hs !! i = Some (Some (key, b)) → entries s !! key = Some p → heap s !! p = Some e →
  match h with
  | Some (k, b') => k = key ∧ holder e' = true ∧ released e' = false ∧ (is_Some (resp e') ↔ b' = true)
  | None => holder e' = false ∧ released e' = true ∧ is_Some (resp e')
  end →
  consistent (set_entry p e' s) (<[i := h]> hs).
Proof.
  intros Hc Hi Hk He Hnew.
  pose proof (lookup_lt_Some _ _ _ Hi) as Hlen.
  assert (∀ j k c, j ≠ i → hs !! j = Some (Some (k, c)) → k ≠ key) as Hother.
  { intros j k c Hji Hj ->. by eapply Hji, c_unique. }
  split; cbn; try apply Hc.
  - intros k p' Hp'. destruct (decide (p = p')) as [->|]; [by rewrite lookup_insert_eq|].
    rewrite lookup_insert_ne by done. by eapply c_heap.
  - intros p' [x [[<- _]|[_ Hx]]%lookup_insert_Some]; apply (c_fresh _ _ Hc); eauto.
  - intros j k c [(<- & -> & _)|[Hij Hj]]%list_lookup_insert_Some.
    + destruct Hnew as (-> & ? & _ & ?). exists p, e'. rewrite entry_of_Some. cbn. by rewrite lookup_insert_eq.
    + destruct (c_held _ _ Hc j k c Hj) as (p' & x & [Hp Hx]%entry_of_Some & ?). exists p', x. rewrite entry_of_Some. cbn.
      rewrite lookup_insert_ne; [done|]. intros ->. by eapply (Hother j k c), c_inj.
  - intros j j' k c c' [(<- & -> & _)|[? Hj]]%list_lookup_insert_Some
      [(<- & Hq & _)|[? Hj']]%list_lookup_insert_Some; try done; subst.
    + destruct Hnew as (-> & _). exfalso. by eapply (Hother j' key c').
    + destruct Hnew as (-> & _). exfalso. by eapply (Hother j key c).
    + by eapply c_unique.
  - intros p' x [[<- <-]|[? Hx]]%lookup_insert_Some Ht.
    + destruct h as [[k b']|]; [|destruct Hnew; congruence]. destruct Hnew as (-> & _ & ? & _). split; [done|].
      exists key, i, b'. by rewrite list_lookup_insert_eq.
    + destruct (c_owner _ _ Hc p' x Hx Ht) as (? & k & j & c & Hp & Hj). split; [done|]. exists k, j, c.
      rewrite list_lookup_insert_ne; [done|]. intros ->. simplify_eq.
  - intros p' x [[<- <-]|[? Hx]]%lookup_insert_Some Ht; [|by apply (c_idle _ _ Hc)].
    destruct h as [[k b']|]; [destruct Hnew as (_ & ? & _); congruence|]. destruct Hnew as (_ & ? & [r ->]). done.
Qed.

(** The key of a request that has not saved is forgotten when it is released. *)
Lemma consistent_abandon s hs i key p e :
  consistent s hs → hs !! i = Some (Some (key, false)) → entries s !! key = Some p → heap s !! p = Some e →
  consistent (drop_entry key (set_entry p (MkEntry None (expiry e) false (released e) (S (cond e))) s)) (<[i := None]> hs).
Proof.
  intros Hc Hi Hk He. destruct (c_held _ _ Hc _ _ _ Hi) as (? & ? & [? ?]%entry_of_Some & Hho & Hr). simplify_eq.
  destruct (c_owner _ _ Hc _ _ He Hho) as (Hrel & _).
  pose proof (lookup_lt_Some _ _ _ Hi) as Hlen.
  split; cbn.
  - intros k q [? Hq]%lookup_delete_Some. destruct (decide (p = q)) as [->|]; [by rewrite lookup_insert_eq|].
    rewrite lookup_insert_ne by done. by eapply c_heap.
  - intros q [y [[<- _]|[_ Hy]]%lookup_insert_Some]; apply (c_fresh _ _ Hc); eauto.
  - intros k k' q [_ Hq]%lookup_delete_Some [_ Hq']%lookup_delete_Some. by eapply c_inj.
  - intros j k c [(_ & ? & _)|[Hij Hj]]%list_lookup_insert_Some; [done|].
    destruct (c_held _ _ Hc j k c Hj) as (q & y & [Hq Hy]%entry_of_Some & ?). exists q, y. rewrite entry_of_Some. cbn.
    assert (key ≠ k) as Hkk by (intros <-; by eapply Hij, c_unique).
    rewrite lookup_delete_ne, lookup_insert_ne; [done| |done]. intros ->. by eapply Hkk, c_inj.
  - intros j j' k c c' [(_ & ? & _)|[? Hj]]%list_lookup_insert_Some [(_ & ? & _)|[? Hj']]%list_lookup_insert_Some; try done.
    by eapply c_unique.
  - intros q y [[<- <-]|[? Hy]]%lookup_insert_Some Ht; [done|].
    destruct (c_owner _ _ Hc q y Hy Ht) as (? & k & j & c & Hq & Hj). split; [done|]. exists k, j, c.
    rewrite lookup_delete_ne, list_lookup_insert_ne; [done| |]; intros ->; simplify_eq.
  - intros q y [[<- <-]|[? Hy]]%lookup_insert_Some Ht; cbn.
    + split; [done|]. intros k [Hkk Hq]%lookup_delete_Some. by eapply Hkk, c_inj.
    + pose proof (c_idle _ _ Hc q y Hy Ht) as Hidle. destruct (resp y); [done|]. destruct Hidle as [? Hidle].
      split; [done|]. intros k [_ Hq]%lookup_delete_Some. by eapply Hidle.
Qed.

(** * The invariant of the machine *)

Section invariants.
Context {A : Type}.
Implicit Types (m : machine A) (t : thread A) (s : MemoryStore).

(** A request that sleeps has a broadcast to see, or its entry is held and its context not done. *)
Definition sound_wait (s : MemoryStore) (p seen : nat) (c : option error) : Prop :=
  ∃ e, heap s !! p = Some e ∧ (seen ≤ cond e)%nat ∧ (seen = cond e → holder e = true ∧ released e = false ∧ c = None).
Definition thread_ok (s : MemoryStore) (t : thread A) : Prop :=
  match todo t with
  | Runs p => obeys (its_key t) (held t) p
  | Waits p seen c k => held t = None ∧ (∀ r, obeys (its_key t) None (k r)) ∧ sound_wait s p seen c
  end.
Record invariant (m : machine A) : Prop := {
  i_store : consistent (store m) (held <$> threads m);
  i_threads : ∀ i t, threads m !! i = Some t → thread_ok (store m) t
}.

Lemma sound_wait_follows s s' p seen c : follows s s' → sound_wait s p seen c → sound_wait s' p seen c.
Proof.
  intros Hf (e & He & Hle & Heq). destruct (Hf p e He) as (e' & He' & [->|[Hlt|(Hc & Hh & Hr)]]); [by exists e|exists e'..].
  - split; [done|]. split; [lia|]. intros. lia.
  - split; [done|]. split; [lia|]. intros ->. destruct (Heq Hc) as (_ & _ & ?). done.
Qed.
Lemma thread_ok_follows s s' t : follows s s' → thread_ok s t → thread_ok s' t.
Proof.
  unfold thread_ok. destruct (todo t); [done|]. intros Hf (? & ? & Hw). eauto using sound_wait_follows.
Qed.

Lemma wait_turn_None s hs p e (c : option error) err : consistent s hs → heap s !! p = Some e →
  wait_turn e (if c then true else false) err = None → holder e = true ∧ released e = false ∧ c = None.
Proof.
  intros Hc He. pose proof (c_idle _ _ Hc p e He) as Hidle. unfold wait_turn.
  destruct (released e), c, (holder e), (resp e); cbn; try done. by specialize (Hidle eq_refl).
Qed.
Lemma turn_ok s hs key p e c k : consistent s hs → heap s !! p = Some e → (∀ r, obeys key None (k r)) →
  thread_ok s (MkThread key (turn p e c k) None).
Proof.
  intros Hc He Hk. unfold thread_ok, turn. cbn.
  destruct (wait_turn _ _ _) eqn:Hw; [by apply Hk|]. split_and!; [done..|]. exists e.
  split_and!; [done..|]. intros _. by eapply wait_turn_None.
Qed.

Lemma invariant_set m s i t t' : invariant m → threads m !! i = Some t → consistent s (<[i := held t']> (held <$> threads m)) →
  follows (store m) s → thread_ok s t' → invariant (set_thread i t' (set_store s m)).
Proof.
  intros Hm Hi Hs Hf Ht. split; cbn.
  - by rewrite list_fmap_insert.
  - intros j u [(<- & <- & _)|[? Hj]]%list_lookup_insert_Some; [done|]. eapply thread_ok_follows, i_threads; eauto.
Qed.
Lemma invariant_store m s : invariant m → consistent s (held <$> threads m) → follows (store m) s → invariant (set_store s m).
Proof. intros Hm Hs Hf. split; cbn; [done|]. intros i t Hi. eapply thread_ok_follows, i_threads; eauto. Qed.

Lemma held_id m i t h : threads m !! i = Some t → held t = h → <[i := h]> (held <$> threads m) = held <$> threads m.
Proof. intros Hi <-. apply list_insert_id. by rewrite list_lookup_fmap, Hi. Qed.
Lemma held_lookup m i t : threads m !! i = Some t → (held <$> threads m) !! i = Some (held t).
Proof. intros Hi. by rewrite list_lookup_fmap, Hi. Qed.

Lemma follows_refl s : follows s s.
Proof. by apply follows_heap. Qed.
Lemma follows_broadcast p s : follows s (broadcast p s).
Proof.
  unfold broadcast. destruct (heap s !! p) as [e|] eqn:He; [|apply follows_refl].
  intros q x Hx. cbn. destruct (decide (p = q)) as [->|]; [|rewrite lookup_insert_ne by done; eauto].
  rewrite lookup_insert_eq. simplify_eq. eexists. split; [done|]. cbn. right. left. lia.
Qed.
Lemma follows_set p e e' s : heap s !! p = Some e →
  (cond e < cond e')%nat ∨ (cond e' = cond e ∧ holder e' = true ∧ released e' = false) → follows s (set_entry p e' s).
Proof.
  intros He Hcase q x Hx. cbn. destruct (decide (p = q)) as [->|]; [|rewrite lookup_insert_ne by done; eauto].
  rewrite lookup_insert_eq. simplify_eq. eauto.
Qed.
Lemma follows_new key e s hs : consistent s hs → follows s (new_entry key e s).
Proof.
  intros Hc q x Hx. cbn. rewrite lookup_insert_ne; [by eauto|]. intros <-.
  pose proof (c_fresh _ _ Hc _ (mk_is_Some _ _ Hx)). lia.
Qed.
Lemma follows_drop key s : follows s (drop_entry key s).
Proof. by apply follows_heap. Qed.

Lemma not_premature m i key a kh h p e :
  premature (Advance i) m = false → threads m !! i = Some (MkThread kh (Runs a) h) →
  match a with DoGet k _ | DoLock k _ => k = key | _ => False end →
  entry_of key (store m) = Some (p, e) → expired (now m) e = true → holder e = false.
Proof.
  cbn. intros Hp Hi Ha He Hx. rewrite Hi in Hp. destruct a; try done; subst key0;
    rewrite He, Hx, andb_true_r in Hp; done.
Qed.

(** ** Each operation of the store *)

Lemma invariant_get m m' i kh h key k : invariant m → threads m !! i = Some (MkThread kh (Runs (DoGet key k)) h) →
  premature (Advance i) m = false → step (Advance i) m = Some m' → invariant m'.
Proof.
  intros Hm Hi Hp. cbn [step]. rewrite Hi. cbn. destruct (i_threads _ Hm _ _ Hi) as [Hh Hk]. cbn in Hh, Hk. subst h.
  assert (∀ s r, consistent s (held <$> threads m) → follows (store m) s →
    invariant (set_thread i (MkThread kh (Runs (k (inl r))) None) (set_store s m))) as Hnext.
  { intros s r Hs Hf. eapply invariant_set; eauto; [|by apply Hk]. cbn. by rewrite (held_id _ _ _ None Hi eq_refl). }
  unfold mem_Get. destruct (entry_of key (store m)) as [[p e]|] eqn:He.
  - destruct (expired (now m) e) eqn:Hx; intros [= <-]; [|apply Hnext, follows_refl; apply Hm].
    pose proof He as [Hkp Hpe]%entry_of_Some. apply Hnext; [|apply follows_drop].
    eapply consistent_drop; eauto; [apply Hm|]. by eapply not_premature.
  - intros [= <-]. apply Hnext, follows_refl; apply Hm.
Qed.

Lemma invariant_lock m m' i kh h key k : invariant m → threads m !! i = Some (MkThread kh (Runs (DoLock key k)) h) →
  premature (Advance i) m = false → step (Advance i) m = Some m' → invariant m'.
Proof.
  intros Hm Hi Hp. cbn [step]. rewrite Hi. cbn.
  destruct (i_threads _ Hm _ _ Hi) as (Hh & Hkey & Hk & Hno). cbn in Hh, Hkey, Hk, Hno. subst h kh.
  assert (∀ s, consistent s (held <$> threads m) → heap s = heap (store m) → entries s !! key = None →
    invariant (set_thread i (MkThread (Some key) (Runs (k (inl true))) (Some (key, false)))
      (set_store (new_entry key (MkEntry None None true false 0) s) m))) as Hnext.
  { intros s Hs Hf Hnone. eapply invariant_set; eauto.
    - apply consistent_lock; try done. by rewrite (held_lookup _ _ _ Hi).
    - intros q x Hx. rewrite <- Hf in Hx. eapply follows_new; eauto. }
  unfold mem_Lock. destruct (entry_of key (store m)) as [[p e]|] eqn:He.
  - pose proof He as [Hkp Hpe]%entry_of_Some. destruct (expired (now m) e) eqn:Hx; intros [= <-].
    + apply Hnext; [|done|apply lookup_delete_eq]. eapply consistent_drop; eauto; [apply Hm|]. by eapply not_premature.
    + eapply invariant_set; eauto using follows_refl; cbn; [rewrite (held_id _ _ _ None Hi eq_refl); apply Hm|]. by apply Hno.
  - intros [= <-]. apply Hnext; [apply Hm|done|]. eapply entry_of_None; [|done]. apply (c_heap _ _ (i_store _ Hm)).
Qed.

Lemma invariant_save m m' i kh h key r ttl k : invariant m →
  threads m !! i = Some (MkThread kh (Runs (DoSave key r ttl k)) h) → step (Advance i) m = Some m' → invariant m'.
Proof.
  intros Hm Hi. cbn [step]. rewrite Hi. cbn. intros [= <-].
  destruct (i_threads _ Hm _ _ Hi) as (Hh & Hk). cbn in Hh, Hk. subst h.
  pose proof (held_lookup _ _ _ Hi) as Hheld. cbn in Hheld.
  destruct (c_held _ _ (i_store _ Hm) _ _ _ Hheld) as (p & e & He & Hho & Hr).
  pose proof He as [Hkp Hpe]%entry_of_Some. destruct (c_owner _ _ (i_store _ Hm) _ _ Hpe Hho) as (Hrel & _).
  unfold mem_Save. rewrite He. eapply invariant_set; eauto; [| |by apply Hk].
  - eapply consistent_set; eauto; [apply Hm|]. cbn. by rewrite is_Some_alt.
  - eapply follows_set; eauto.
Qed.

Lemma invariant_unlock m m' i kh h key k : invariant m →
  threads m !! i = Some (MkThread kh (Runs (DoUnlock key k)) h) → step (Advance i) m = Some m' → invariant m'.
Proof.
  intros Hm Hi. cbn [step]. rewrite Hi. cbn. intros [= <-].
  destruct (i_threads _ Hm _ _ Hi) as ([b Hh] & Hk). cbn in Hh, Hk. subst h.
  pose proof (held_lookup _ _ _ Hi) as Hheld. cbn in Hheld.
  destruct (c_held _ _ (i_store _ Hm) _ _ _ Hheld) as (p & e & He & Hho & Hr).
  pose proof He as [Hkp Hpe]%entry_of_Some.
  unfold mem_Unlock. rewrite He. eapply invariant_set; eauto; destruct (resp e) as [r|] eqn:Er; try done.
  - eapply consistent_set; eauto; [apply Hm|]. cbn. eauto.
  - destruct b; [by destruct (proj2 Hr eq_refl)|]. eapply consistent_abandon; eauto. apply Hm.
  - eapply follows_set; eauto.
  - apply (follows_set p e (MkEntry None (expiry e) false (released e) (S (cond e))) (store m)); [done|left; cbn; lia].
Qed.
End invariants.

Section steps.
Context {A : Type}.
Implicit Types (m : machine A) (t : thread A).

Lemma invariant_turn m i kh h p e c k : invariant m → threads m !! i = Some (MkThread kh h None) →
  heap (store m) !! p = Some e → (∀ r, obeys kh None (k r)) →
  invariant (set_thread i (MkThread kh (turn p e c k) None) (set_store (store m) m)).
Proof.
  intros Hm Hi He Hk. eapply invariant_set; eauto using follows_refl.
  - cbn. rewrite (held_id _ _ _ None Hi eq_refl). apply Hm.
  - eapply turn_ok; eauto. apply Hm.
Qed.

Lemma invariant_advance m m' i : invariant m → premature (Advance i) m = false → step (Advance i) m = Some m' → invariant m'.
Proof.
  intros Hm Hp Hstep. pose proof Hstep as ([kh a h] & Hi & Hop)%bind_Some.
  destruct a as [[| | | | | |]|]; try done;
    [by eapply invariant_get|by eapply invariant_lock| |by eapply invariant_save|by eapply invariant_unlock].
  destruct (i_threads _ Hm _ _ Hi) as (Hh & Hk). cbn in Hh, Hk. subst h. cbn in Hop.
  destruct (entry_of key (store m)) as [[p e]|] eqn:He; injection Hop as <-.
  - apply entry_of_Some in He as [_ He]. by eapply invariant_turn.
  - eapply invariant_set; eauto using follows_refl; [|by apply Hk]. cbn. rewrite (held_id _ _ _ None Hi eq_refl). apply Hm.
Qed.

Lemma invariant_wake m m' i : invariant m → step (Wake i) m = Some m' → invariant m'.
Proof.
  intros Hm ([kh a h] & Hi & Hop)%bind_Some. destruct a as [|p seen c k]; [done|].
  destruct (i_threads _ Hm _ _ Hi) as (Hh & Hk & _). cbn in Hh, Hk. subst h.
  apply bind_Some in Hop as (e & He & Hop). destruct (seen <? cond e)%nat; [injection Hop as <-|done].
  by eapply (invariant_turn m i kh) in He.
Qed.

Lemma invariant_cancel m m' i err : invariant m → step (ContextDone i err) m = Some m' → invariant m'.
Proof.
  intros Hm ([kh a h] & Hi & Hop)%bind_Some. destruct a as [|p seen c k]; [done|]. injection Hop as <-.
  destruct (i_threads _ Hm _ _ Hi) as (Hh & Hk & e & He & Hle & _). cbn in Hh, Hk. subst h.
  eapply invariant_set; eauto using follows_broadcast.
  - cbn. rewrite (held_id _ _ _ None Hi eq_refl). apply consistent_broadcast, Hm.
  - split_and!; [done..|]. unfold broadcast. rewrite He. eexists. split; [apply lookup_insert_eq|]. cbn.
    split; [lia|]. intros. lia.
Qed.

Lemma invariant_ends m m' i res : invariant m → step (Ends i res) m = Some m' → invariant m'.
Proof.
  intros Hm ([kh a h] & Hi & Hop)%bind_Some. destruct a as [[]|]; try done. injection Hop as <-.
  destruct (i_threads _ Hm _ _ Hi) as (Hh & Hk). cbn in Hh, Hk.
  eapply (invariant_set m (store m)); eauto using follows_refl; [|by apply Hk].
  erewrite held_id by eauto. apply Hm.
Qed.

Definition lawful (arrives : option string → prog A → Prop) : Prop := ∀ key p, arrives key p → obeys key None p.

Lemma invariant_step arrives m m' : lawful arrives → trans arrives m m' → invariant m → invariant m'.
Proof.
  intros Hlaw (ev & Hstep & Hp & Ha) Hm. destruct ev.
  - cbn in Hstep. destruct (0 <=? d)%Z; [|done]. injection Hstep as <-. split; apply Hm.
  - injection Hstep as <-. split; cbn; [rewrite fmap_app; apply consistent_arrive, Hm|].
    intros i t [Hi|[_ [_ <-]%list_lookup_singleton_Some]]%lookup_app_Some; [by eapply i_threads|by apply Hlaw].
  - by eapply invariant_advance.
  - by eapply invariant_ends.
  - by eapply invariant_wake.
  - by eapply invariant_cancel.
  - injection Hstep as <-. apply invariant_store; [done|apply consistent_broadcast, Hm|apply follows_broadcast].
  - injection Hstep as <-. apply invariant_store; [done|apply consistent_sweep, Hm|by apply follows_heap].
Qed.
Lemma invariant_steps arrives m m' : lawful arrives → rtc (trans arrives) m m' → invariant m → invariant m'.
Proof. intros Hlaw. induction 1; eauto using invariant_step. Qed.
Lemma invariant_start z : invariant (start z : machine A).
Proof. split; [apply consistent_new|done]. Qed.
End steps.

(** * What is kept of a saved response *)

Definition saved (s : MemoryStore) (key : string) (r : Response) (until : Z) : Prop :=
  ∃ p e, entry_of key s = Some (p, e) ∧ resp e = Some r ∧ expiry e = Some until.

Section saved.
Implicit Types (s : MemoryStore).

Lemma saved_get s key r z t : saved s key r z → (t ≤ z)%Z → mem_Get t key s = (Some r, s).
Proof.
  intros (p & e & He & Hr & Hx) Ht. unfold mem_Get, expired. rewrite He, Hx, (proj2 (Z.ltb_ge z t) Ht). by rewrite Hr.
Qed.
Lemma saved_forget s s' key r z : saved s key r z → heap s' = heap s → entries s' !! key = entries s !! key → saved s' key r z.
Proof. intros (p & e & He & ?) Hh Hk. exists p, e. split; [|done]. unfold entry_of. by rewrite Hh, Hk. Qed.

Lemma saved_get_any s key r z t key' : saved s key r z → (t ≤ z)%Z → saved (mem_Get t key' s).2 key r z.
Proof.
  intros Hs Ht. destruct (decide (key' = key)) as [->|Hne]; [by rewrite (saved_get s key r z t)|].
  unfold mem_Get. destruct (entry_of key' s) as [[p e]|]; [destruct (expired t e)|]; [|done..].
  eapply saved_forget; eauto. cbn. by rewrite lookup_delete_ne.
Qed.
Lemma saved_new s hs key r z key' e : consistent s hs → saved s key r z → key' ≠ key → saved (new_entry key' e s) key r z.
Proof.
  intros Hc (p & x & [Hp Hx]%entry_of_Some & ?) Hne. exists p, x. split; [|done]. apply entry_of_Some. cbn.
  rewrite !lookup_insert_ne; [done|intros <-|done]. pose proof (c_fresh _ _ Hc _ (mk_is_Some _ _ Hx)). lia.
Qed.
Lemma saved_lock s hs key r z t key' : consistent s hs → saved s key r z → (t ≤ z)%Z → saved (mem_Lock t key' s).2 key r z.
Proof.
  intros Hc Hs Ht. destruct (decide (key' = key)) as [->|Hne].
  - pose proof Hs as (p & e & He & Hr & Hx). unfold mem_Lock, expired. by rewrite He, Hx, (proj2 (Z.ltb_ge z t) Ht).
  - unfold mem_Lock. destruct (entry_of key' s) as [[p e]|]; [destruct (expired t e)|]; [|done|by eapply saved_new].
    destruct Hs as (q & x & [Hq Hx]%entry_of_Some & ?). exists q, x. split; [|done]. apply entry_of_Some. cbn.
    rewrite !lookup_insert_ne, lookup_delete_ne by (done || intros <-; pose proof (c_fresh _ _ Hc _ (mk_is_Some _ _ Hx)); lia).
    done.
Qed.
Lemma saved_set s hs key r z p e e' : consistent s hs → saved s key r z → heap s !! p = Some e →
  (resp e' = resp e ∧ expiry e' = expiry e) ∨ (∃ key', entries s !! key' = Some p ∧ key' ≠ key) →
  saved (set_entry p e' s) key r z.
Proof.
  intros Hc (q & x & [Hq Hx]%entry_of_Some & Hr & Hz) He Hcase. destruct (decide (p = q)) as [->|Hne].
  - destruct Hcase as [[Hr' Hz']|(k & Hk & Hkk)]; [|destruct Hkk; by eapply c_inj]. simplify_eq.
    exists q, e'. rewrite entry_of_Some. cbn. rewrite lookup_insert_eq. split_and!; congruence.
  - exists q, x. rewrite entry_of_Some. cbn. by rewrite lookup_insert_ne.
Qed.
Lemma saved_broadcast s hs key r z p : consistent s hs → saved s key r z → saved (broadcast p s) key r z.
Proof.
  intros Hc Hs. unfold broadcast. destruct (heap s !! p) as [e|] eqn:He; [|done]. eapply saved_set; eauto.
Qed.
Lemma saved_sweep s key r z t : saved s key r z → (t ≤ z)%Z → saved (sweepExpired t s) key r z.
Proof.
  intros (p & e & [Hp He]%entry_of_Some & Hr & Hx) Ht. exists p, e. rewrite entry_of_Some. split_and!; [|done..].
  apply map_lookup_filter_Some. split; [done|]. cbn. unfold expired. rewrite He, Hx, (proj2 (Z.ltb_ge z t) Ht). apply orb_true_r.
Qed.
Lemma saved_unlock s hs key r z key' : consistent s hs → saved s key r z → saved (mem_Unlock key' s) key r z.
Proof.
  intros Hc Hs. unfold mem_Unlock. destruct (entry_of key' s) as [[p e]|] eqn:Hk; [|done].
  pose proof Hk as [Hp He]%entry_of_Some. destruct (resp e) as [r'|] eqn:Hr; [eapply saved_set; eauto; by left|].
  assert (key' ≠ key) as Hne by (intros ->; destruct Hs as (? & ? & ? & ? & _); simplify_eq).
  eapply saved_forget; [eapply saved_set; eauto|done|]. cbn. by rewrite lookup_delete_ne.
Qed.
Lemma saved_save s hs key r z t key' r' ttl : consistent s hs → saved s key r z → key' ≠ key →
  saved (mem_Save t key' r' ttl s) key r z.
Proof.
  intros Hc Hs Hne. unfold mem_Save. destruct (entry_of key' s) as [[p e]|] eqn:Hk; [|by eapply saved_new].
  apply entry_of_Some in Hk as [Hp He]. eapply saved_set; eauto.
Qed.
End saved.

Lemma not_saved (o : option Response) r : (is_Some o ↔ false = true) → o = Some r → False.
Proof. intros Ho ->. by discriminate (proj1 Ho (mk_is_Some _ _ eq_refl)). Qed.

Section kept.
Context {A : Type}.
Implicit Types (m : machine A).

Lemma now_step ev m m' : step ev m = Some m' → (now m ≤ now m')%Z.
Proof.
  destruct ev; cbn.
  - destruct (Z.leb_spec 0 d); [|done]. intros [= <-]. cbn. lia.
  - by intros [= <-].
  - intros ([? [[]|] ?] & _ & Hop)%bind_Some; cbn in Hop; repeat case_match; simplify_eq; cbn; lia.
  - intros (t & _ & Hop)%bind_Some. repeat case_match; simplify_eq. done.
  - intros (t & _ & Hop)%bind_Some. case_match; [done|]. apply bind_Some in Hop as (e & _ & Hop). case_match; by simplify_eq.
  - intros (t & _ & Hop)%bind_Some. repeat case_match; simplify_eq. done.
  - by intros [= <-].
  - by intros [= <-].
Qed.
Lemma now_steps arrives m m' : rtc (trans arrives) m m' → (now m ≤ now m')%Z.
Proof. induction 1 as [|x y z (ev & Hs & _) _ IH]; [done|]. apply now_step in Hs. lia. Qed.

(** A saved response is there until it runs out: its key is held by nobody that could save. *)
Lemma saved_advance m m' i key r z : invariant m → saved (store m) key r z → (now m ≤ z)%Z →
  step (Advance i) m = Some m' → saved (store m') key r z.
Proof.
  intros Hm Hs Hz ([kh a h] & Hi & Hop)%bind_Some. pose proof (i_store _ Hm) as Hc.
  pose proof (i_threads _ Hm _ _ Hi) as Hok. destruct a as [[]|]; try done; cbn in Hop.
  - pose proof (saved_get_any _ _ _ _ (now m) key0 Hs Hz) as Hg.
    destruct (mem_Get _ _ _). by injection Hop as <-.
  - pose proof (saved_lock _ _ _ _ _ (now m) key0 Hc Hs Hz) as Hg.
    destruct (mem_Lock _ _ _). by injection Hop as <-.
  - destruct (entry_of key0 (store m)) as [[]|]; by injection Hop as <-.
  - injection Hop as <-. eapply saved_save; eauto. intros ->. destruct Hok as [Hh _]. cbn in Hh. subst h.
    destruct (c_held _ _ Hc _ _ _ (held_lookup _ _ _ Hi)) as (p & e & He & _ & Hr).
    destruct Hs as (? & ? & ? & ? & _). simplify_eq. by eapply not_saved.
  - injection Hop as <-. by eapply saved_unlock.
Qed.

Lemma saved_step arrives m m' key r z : invariant m → trans arrives m m' → saved (store m) key r z → (now m ≤ z)%Z →
  saved (store m') key r z.
Proof.
  intros Hm (ev & Hstep & _) Hs Hz. pose proof (i_store _ Hm) as Hc. destruct ev; cbn in Hstep.
  - case_match; by simplify_eq.
  - by simplify_eq.
  - by eapply saved_advance.
  - apply bind_Some in Hstep as (t & _ & Hop). repeat case_match; by simplify_eq.
  - apply bind_Some in Hstep as (t & _ & Hop). case_match; [done|]. apply bind_Some in Hop as (e & _ & Hop).
    case_match; by simplify_eq.
  - apply bind_Some in Hstep as (t & _ & Hop). case_match; simplify_eq. by eapply saved_broadcast.
  - simplify_eq. by eapply saved_broadcast.
  - simplify_eq. by apply saved_sweep.
Qed.
Lemma saved_steps arrives m m' key r z : lawful arrives → rtc (trans arrives) m m' → invariant m →
  saved (store m) key r z → (now m' ≤ z)%Z → saved (store m') key r z.
Proof.
  intros Hlaw. induction 1 as [|m m1 m' Hstep Hsteps IH]; [done|]. intros Hm Hs Hz.
  pose proof (now_steps _ _ _ Hsteps) as Hn. destruct Hstep as (ev & Hev & Hrest) eqn:E. clear E.
  pose proof (now_step _ _ _ Hev). apply IH; [|eapply saved_step; [exact Hm|exists ev; eauto|exact Hs|lia]|lia].
  eapply invariant_step; [done|exists ev; eauto|done].
Qed.

(** A handler under a key holds it and has not saved. *)
Lemma handler_holds m i key : invariant m → in_handler m i key → (held <$> threads m) !! i = Some (Some (key, false)).
Proof.
  intros Hm (t & body & k & Hi & Ht & Hk). pose proof (i_threads _ Hm _ _ Hi) as Hok. unfold thread_ok in Hok.
  rewrite Ht, Hk in Hok. destruct Hok as [Hh _]. rewrite list_lookup_fmap, Hi. cbn. by rewrite Hh.
Qed.
Lemma saved_no_handler m key r z i : invariant m → saved (store m) key r z → ¬ in_handler m i key.
Proof.
  intros Hm (p & e & He & Hr & _) Hin%handler_holds; [|done].
  destruct (c_held _ _ (i_store _ Hm) _ _ _ Hin) as (? & ? & ? & _ & Hs). simplify_eq. by eapply not_saved.
Qed.

(** A request that has a key and not yet released it. *)
Definition busy (m : machine A) (key : string) : Prop :=
  ∃ j u, threads m !! j = Some u ∧
    match todo u with
    | Runs (DoHandle _ _) => its_key u = Some key
    | Runs (DoSave x _ _ _) | Runs (DoUnlock x _) => x = key
    | _ => False
    end.
Lemma held_busy m i key b : invariant m → (held <$> threads m) !! i = Some (Some (key, b)) → busy m key.
Proof.
  intros Hm Hi. apply list_lookup_fmap_Some in Hi as (u & Hh & Hu). pose proof (i_threads _ Hm _ _ Hu) as Hok.
  exists i, u. split; [done|]. unfold thread_ok in Hok. rewrite <-Hh in Hok.
  destruct (todo u) as [[]|]; try (by destruct Hok as [? _]); try done.
  - destruct Hok as [Hok _]. destruct (its_key u); by simplify_eq/=.
  - by destruct Hok as [[= ->] _].
  - by destruct Hok as [[? [= ->]] _].
Qed.
End kept.

(** * The guarantees *)

Section guarantees.
Context {W : Type} `{ResponseWriter W} (status_text : Z → string) (json_encode : payload → string).
Implicit Types (m : machine (W * ending)).
Local Notation arriving := (arrives status_text json_encode).
Local Notation reached := (reachable status_text json_encode).

Lemma arriving_lawful : lawful arriving.
Proof. intros key p. apply arrives_obeys. Qed.
Lemma reached_invariant m : reached m → invariant m.
Proof. intros [z Hz]. eapply invariant_steps; [apply arriving_lawful|done|apply invariant_start]. Qed.

(** [C13] The handler of at most one request runs under a key at a time: however requests with any
    configurations and in either form are interleaved at the operations of the store, with the clock,
    the janitor and contexts that end, as long as no entry runs out before its holder releases it. *)
Theorem one_handler m i j key : reached m → in_handler m i key → in_handler m j key → i = j.
Proof.
  intros Hm%reached_invariant Hi%handler_holds Hj%handler_holds; [|done..]. eapply c_unique; eauto using i_store.
Qed.

(** [C14] Once a request saves its response for a time, every request that looks its key up within that
    time finds exactly this response, and no handler runs under the key: the effects of the handler
    happen once, whatever else happens meanwhile (a lookup of an entry that ran out under its holder
    apart). The request that looks the key up is over with that, in either form: it replays the
    response, or it is refused as a mismatch if the payload it hashed is another one. *)
Theorem saved_replayed m m1 m2 i kh key r d k h :
  reached m → threads m !! i = Some (MkThread kh (Runs (DoSave key r d k)) h) → (0 < d)%Z →
  step (Advance i) m = Some m1 → rtc (trans arriving) m1 m2 → (now m2 ≤ now m + d)%Z →
  mem_Get (now m2) key (store m2) = (Some r, store m2) ∧ (∀ j, ¬ in_handler m2 j key) ∧
  ∀ j n q hash body w p,
    threads m2 !! j = Some (MkThread (Some key) (Runs p) None) →
    (p = keyed_native status_text n q key hash body w →
     ∃ m3, step (Advance j) m2 = Some m3 ∧
       threads m3 !! j = Some (MkThread (Some key)
         (Runs (if mismatch hash r then errPayloadMismatchNative n w
                else Done (replay (Some (cachedHeaders n)) r w, Returned None))) None)) ∧
    (p = keyed_stdlib status_text json_encode n q key hash body w →
     ∃ m3, step (Advance j) m2 = Some m3 ∧
       threads m3 !! j = Some (MkThread (Some key)
         (Runs (if mismatch hash r then errPayloadMismatchStdlib json_encode n q w
                else Done (replay (Some (cachedHeaders n)) r w, Returned None))) None)).
Proof.
  intros Hm%reached_invariant Hi Hd Hstep Hsteps Hz.
  assert (invariant m1) as Hm1 by by eapply invariant_save.
  assert (saved (store m1) key r (now m + d)) as Hs.
  { cbn in Hstep. rewrite Hi in Hstep. injection Hstep as <-. destruct (i_threads _ Hm _ _ Hi) as [Hh _]. cbn in Hh. subst h.
    destruct (c_held _ _ (i_store _ Hm) _ _ _ (held_lookup _ _ _ Hi)) as (p & e & He & _). cbn.
    unfold mem_Save. rewrite He. apply entry_of_Some in He as [Hp He]. rewrite (proj2 (Z.ltb_lt 0 d) Hd).
    eexists p, _. rewrite entry_of_Some. cbn. by rewrite lookup_insert_eq. }
  assert (invariant m2) as Hm2 by (eapply invariant_steps; eauto using arriving_lawful).
  assert (saved (store m2) key r (now m + d)) as Hs2 by (eapply saved_steps; eauto using arriving_lawful).
  pose proof (saved_get _ _ _ _ _ Hs2 Hz) as Hget.
  split; [done|]. split; [intros j; by eapply saved_no_handler|]. intros j n q hash body w p Hj.
  split; intros ->; (eexists; split; [cbn; rewrite Hj; cbn; rewrite Hget; done|]); cbn;
    rewrite list_lookup_insert_eq by (by eapply lookup_lt_Some); by destruct (mismatch hash r).
Qed.

(** [C20] No request sleeps for ever, as long as no entry is looked up that ran out before its
    holder released it: one that waits for the response of another finds, in every state reached so,
    either the other still on its way to release the key, or a broadcast it has not seen, which
    gives it its answer. *)
Theorem sleeper_woken m i t p seen c k :
  reached m → threads m !! i = Some t → todo t = Waits p seen c k →
  (∃ key, entries (store m) !! key = Some p ∧ busy m key) ∨
  ∃ m' res, step (Wake i) m = Some m' ∧ threads m' !! i = Some (MkThread (its_key t) (Runs (k res)) None).
Proof.
  intros Hm%reached_invariant Hi Ht. pose proof (i_threads _ Hm _ _ Hi) as Hok. unfold thread_ok in Hok. rewrite Ht in Hok.
  destruct Hok as (Hh & _ & e & He & Hle & Heq). pose proof (i_store _ Hm) as Hc.
  destruct (holder e) eqn:Hho.
  - left. destruct (c_owner _ _ Hc _ _ He Hho) as (_ & key & j & b & Hp & Hj). eauto using held_busy.
  - right. destruct (wait_turn e (if c then true else false) (default Canceled c)) as [res|] eqn:Hw;
      [|by destruct (wait_turn_None _ _ _ _ _ _ Hc He Hw) as (? & _); congruence].
    assert (seen < cond e)%nat as Hlt by (destruct (decide (seen = cond e)) as [->|]; [by destruct (Heq eq_refl)|lia]).
    eexists _, res. split.
    + unfold step. rewrite Hi. unfold mbind, option_bind. by rewrite Ht, He, (proj2 (Nat.ltb_lt _ _) Hlt).
    + cbn. rewrite list_lookup_insert_eq by by eapply lookup_lt_Some. unfold turn. by rewrite Hw, Hh.
Qed.

(** A key that no request holds is never stuck: the next request is answered with a saved
    response or may run its handler. *)
Theorem idle_key_open m key : reached m → ¬ busy m key →
  let (found, s) := mem_Get (now m) key (store m) in is_Some found ∨ (mem_Lock (now m) key s).1 = true.
Proof.
  intros Hm%reached_invariant Hidle. pose proof (i_store _ Hm) as Hc.
  unfold mem_Get. destruct (entry_of key (store m)) as [[p e]|] eqn:He.
  - pose proof He as [Hp Hpe]%entry_of_Some. destruct (holder e) eqn:Hho.
    + destruct Hidle. destruct (c_owner _ _ Hc _ _ Hpe Hho) as (_ & key' & j & b & Hp' & Hj).
      rewrite (c_inj _ _ Hc _ _ _ Hp Hp'). by eapply held_busy.
    + destruct (expired (now m) e).
      * right. unfold mem_Lock, entry_of. cbn. by rewrite lookup_delete_eq.
      * left. pose proof (c_idle _ _ Hc _ _ Hpe Hho) as Hi. destruct (resp e); [by eexists|].
        destruct Hi as [_ Hi]. by destruct (Hi key).
  - right. unfold mem_Lock. by rewrite He.
Qed.
End guarantees.

(** * Examples and witnesses *)

(** A run whose requests are of the kind [arrives], checked for premature lookups. *)
Fixpoint prompt {A : Type} (evs : list (event A)) (m : machine A) : bool :=
  match evs with
  | [] => true
  | ev :: evs => negb (premature ev m) && match step ev m with Some m' => prompt evs m' | None => true end
  end.
Lemma run_trans {A : Type} (arrives : option string → prog A → Prop) evs m m' :
  Forall (λ ev, match ev with Arrive key p => arrives key p | _ => True end) evs → prompt evs m = true →
  run evs m = Some m' → rtc (trans arrives) m m'.
Proof.
  intros Ha. revert m. induction Ha as [|ev evs Hev _ IH]; cbn; intros m Hp Hr; [by injection Hr as ->|].
  apply andb_true_iff in Hp as [Hp1 Hp2]. destruct (step ev m) as [m1|] eqn:E; [|done]. cbn in Hr.
  eapply rtc_l; [|by apply IH]. exists ev. split; [done|]. split; [by apply negb_true_iff|done].
Qed.

Definition waiting_config (ttl : Z) : normalized :=
  normalize true (MkConfig "" ttl None false false 0 ConflictWait 0 None None None 0 [] None).
Definition order : request := MkRequest "POST" "/orders" {["Idempotency-Key" := ["k1"]]} None None.
Definition arrival (ttl : Z) : event (RW * ending) :=
  Arrive (Some "k1") (handleNative (λ _, "") (waiting_config ttl) order (new_RW ∅)).
Definition sample_run (ttl : Z) (evs : list (event (RW * ending))) : machine (RW * ending) :=
  default (start 0) (run (arrival ttl :: arrival ttl :: evs) (start 0)).

Definition runs {A : Type} (evs : list (event A)) (m : machine A) : bool := if run evs m then true else false.
Lemma run_app {A : Type} (evs evs' : list (event A)) m : run (evs ++ evs') m = m' ← run evs m; run evs' m'.
Proof. revert m. induction evs as [|ev evs IH]; intros m; [done|]. cbn. destruct (step ev m); cbn; [apply IH|done]. Qed.
Lemma sample_run_app ttl evs evs' : runs (arrival ttl :: arrival ttl :: evs) (start 0) = true →
  runs evs' (sample_run ttl evs) = true → run evs' (sample_run ttl evs) = Some (sample_run ttl (evs ++ evs')).
Proof.
  unfold runs, sample_run. rewrite !app_comm_cons, run_app.
  destruct (run (_ :: _ :: evs) _) as [m|]; [|done]. cbn. by destruct (run evs' m).
Qed.

(** Two requests of a key: one holds it, the other waits for it. *)
Definition first_holds : list (event (RW * ending)) :=
  [Advance 0; Advance 0; Advance 1; Advance 1; Advance 1].
(** The handler of the first has ended; it is about to save. *)
Definition handled : list (event (RW * ending)) := first_holds ++ [Ends 0 ([OWrite "done"], Returned None)].

Lemma sample_reachable ttl evs : request_key (waiting_config ttl) order = Some "k1" →
  Forall (λ ev, match ev with Arrive _ _ => False | _ => True end) evs →
  prompt (arrival ttl :: arrival ttl :: evs) (start 0) = true →
  runs (arrival ttl :: arrival ttl :: evs) (start 0) = true →
  reachable (λ _, "") (λ _, "") (sample_run ttl evs).
Proof.
  intros Hk Hevs Hp Hr. exists 0%Z. unfold runs in Hr. unfold sample_run.
  destruct (run _ _) as [m|] eqn:E; [cbn; clear Hr; rename E into Hr|done]. eapply run_trans; [|exact Hp|exact Hr].
  assert (arrives (λ _, "") (λ _, "") (Some "k1") (handleNative (λ _, "") (waiting_config ttl) order (new_RW ∅))) as Ha.
  { rewrite <-Hk. constructor. }
  repeat (constructor; [exact Ha|]). eapply Forall_impl; [exact Hevs|]. by intros [].
Qed.

(** A time to live shorter than the time between the save and the release of a key lets a second
    handler run under the key, before the first request has released it. *)
Example short_ttl_two_holders :
  let m := sample_run 5 (handled ++ [Advance 0; Tick 10; arrival 5; Advance 2; Advance 2]) in
  (held <$> threads m, match threads m !! 2 with Some (MkThread _ (Runs (DoHandle _ _)) _) => true | _ => false end) =
    ([Some ("k1", true); None; Some ("k1", false)], true).
Proof. vm_compute. reflexivity. Qed.

(** The release by the first then drops the entry of the second, under which a third handler may
    run, and the request that waits for the first is not woken. *)
Example short_ttl_release :
  let m := sample_run 5 (handled ++ [Advance 0; Tick 10; arrival 5; Advance 2; Advance 2; Advance 0; arrival 5; Advance 3; Advance 3]) in
  (held <$> threads m, match threads m !! 1 with
    | Some (MkThread _ (Waits p seen _ _) _) => option_map (λ e, (seen =? cond e)%nat) (heap (store m) !! p) | _ => None end) =
    ([None; None; Some ("k1", false); Some ("k1", false)], Some true).
Proof. vm_compute. reflexivity. Qed.

(** A handler that returns an error without having written: an empty success is saved for the key. *)
Example error_saved_as_success :
  let m := sample_run 100 (first_holds ++ [Ends 0 ([], Returned (Some (ErrorText "boom"))); Advance 0]) in
  option_map (λ r, (StatusCode r, Body r)) (mem_Get 0 "k1" (store m)).1 = Some (200%Z, "").
Proof. vm_compute. reflexivity. Qed.

Ltac run_sample evs :=
  apply (sample_reachable 100 evs); [vm_compute; reflexivity|repeat constructor|vm_compute; reflexivity|vm_compute; reflexivity].

Lemma one_handler_witness : let m := sample_run 100 first_holds in
  in_handler m 0 "k1" ∧ ∀ j, in_handler m j "k1" → 0%nat = j.
Proof.
  assert (in_handler (sample_run 100 first_holds) 0 "k1") as H0 by (eexists _, _, _; repeat split).
  split; [exact H0|]. intros j Hj. apply (one_handler (λ _, "") (λ _, "") (sample_run 100 first_holds) 0 j "k1"); [|exact H0|exact Hj].
  run_sample first_holds.
Defined.

(** A third request, long after the first is done, and well before the response runs out. *)
Definition much_later : list (event (RW * ending)) := handled ++ [Advance 0; Advance 0; Tick 90; arrival 100].

Lemma sample_arrives : arrives (λ _, "") (λ _, "") (Some "k1") (handleNative (λ _, "") (waiting_config 100) order (new_RW ∅)).
Proof.
  assert (request_key (waiting_config 100) order = Some "k1") as <- by (vm_compute; reflexivity). constructor.
Qed.

Lemma saved_replayed_witness :
  let m := sample_run 100 much_later in
  mem_Get 90 "k1" (store m) = (Some (MkResponse 200 ∅ "done" zero_hash), store m) ∧ (∀ j, ¬ in_handler m j "k1") ∧
  ∃ m' w, step (Advance 2) m = Some m' ∧ w_body w = "done" ∧
    threads m' !! 2%nat = Some (MkThread (Some "k1") (Runs (Done (w, Returned None))) None).
Proof.
  destruct (threads (sample_run 100 handled) !! 0%nat) as [[kh [[| | | | |key r d k|]|] h]|] eqn:E; try discriminate E.
  pose proof E as E'. vm_compute in E'. injection E'. intros _ _ Hd Hr Hkey _. subst key r d.
  destruct (saved_replayed (λ _, "") (λ _, "") (sample_run 100 handled) (sample_run 100 (handled ++ [Advance 0]))
    (sample_run 100 much_later) 0 kh "k1" _ _ k h ltac:(run_sample handled) E) as (Hg & Hn & Hj).
  - reflexivity.
  - pose proof (sample_run_app 100 handled [Advance 0] ltac:(vm_compute; reflexivity) ltac:(vm_compute; reflexivity)) as Hr.
    cbn [run] in Hr. destruct (step _ _); [exact Hr|discriminate Hr].
  - apply (run_trans _ [Advance 0; Tick 90; arrival 100]); [repeat constructor; exact sample_arrives|vm_compute; reflexivity|].
    apply (sample_run_app 100 (handled ++ [Advance 0])); vm_compute; reflexivity.
  - vm_compute. discriminate.
  - split; [exact Hg|]. split; [exact Hn|].
    destruct (Hj 2%nat (waiting_config 100) order None None (new_RW ∅) (handleNative (λ _, "") (waiting_config 100) order (new_RW ∅))
      eq_refl) as [H _].
    destruct (H eq_refl) as (m' & Hs & Ht). exists m'. eexists. split; [exact Hs|]. split; [|exact Ht]. reflexivity.
Defined.

Lemma sleeper_woken_witness : ∃ m',
  step (Wake 1) (sample_run 100 (handled ++ [Advance 0; Advance 0])) = Some m' ∧
  match todo <$> threads m' !! 1%nat with Some (Runs (Done (w, _))) => w_body w = "done" | _ => False end.
Proof.
  destruct (threads (sample_run 100 (handled ++ [Advance 0; Advance 0])) !! 1%nat) as [[kh [|p seen c k] h]|] eqn:E; try discriminate E.
  destruct (sleeper_woken (λ _, "") (λ _, "") (sample_run 100 (handled ++ [Advance 0; Advance 0])) 1 _ p seen c k
    ltac:(run_sample (handled ++ [Advance 0; Advance 0])) E eq_refl) as [(key & _ & Hb)|(m' & res & Hs & Ht)].
  - exfalso. destruct Hb as ([|[|j]] & u & Hu & Hb); cbn in Hu; try discriminate Hu; injection Hu as <-; vm_compute in Hb; contradiction.
  - exists m'. split; [exact Hs|]. vm_compute in Hs. injection Hs as <-. reflexivity.
Defined.
