(* ===== verification/Base64.v ===== *)
(** encoding/base64: the encoding [RawURLEncoding], computed. *)
From S2P Require Import Prelude GoStrings Sha256.
Open Scope Z_scope.

Definition alphabet : string := "ABCDEFGHIJKLMNOPQRSTUVWXYZabcdefghijklmnopqrstuvwxyz0123456789-_".
Definition symbol (z : Z) : ascii := default "A"%char (byte_at (Z.to_nat z) alphabet).
Definition value (a : ascii) : option Z := Z.of_nat <$> index_byte a alphabet.

Fixpoint symbols (l : list Z) : list Z :=
  match l with
  | a :: b :: c :: l' => a / 4 :: a mod 4 * 16 + b / 16 :: b mod 16 * 4 + c / 64 :: c mod 64 :: symbols l'
  | [a; b] => [a / 4; a mod 4 * 16 + b / 16; b mod 16 * 4]
  | [a] => [a / 4; a mod 4 * 16]
  | [] => []
  end.
Fixpoint of_symbols (l : list Z) : string :=
  match l with [] => "" | z :: l => String (symbol z) (of_symbols l) end.
Definition EncodeToString (s : string) : string := of_symbols (symbols (codes s)).

(** Line breaks are skipped, the bits left over at the end are not looked at. *)
Fixpoint values (s : string) : option (list Z) :=
  match s with
  | "" => Some []
  | String a s =>
      if Ascii.eqb a "010" || Ascii.eqb a "013" then values s
      else z ← value a; l ← values s; Some (z :: l)
  end.
Fixpoint octets (l : list Z) : option (list Z) :=
  match l with
  | a :: b :: c :: d :: l' => r ← octets l'; Some (a * 4 + b / 16 :: b mod 16 * 16 + c / 4 :: c mod 4 * 64 + d :: r)
  | [a; b; c] => Some [a * 4 + b / 16; b mod 16 * 16 + c / 4]
  | [a; b] => Some [a * 4 + b / 16]
  | [_] => None
  | [] => Some []
  end.
Definition DecodeString (s : string) : option string := l ← values s; of_codes <$> octets l.

(** * Round trip *)

Definition six (z : Z) : Prop := 0 ≤ z < 64.

Lemma value_symbol_nat n : (n < 64)%nat →
  value (symbol (Z.of_nat n)) = Some (Z.of_nat n) ∧ symbol (Z.of_nat n) ≠ "010"%char ∧ symbol (Z.of_nat n) ≠ "013"%char.
Proof. intros Hn. do 64 (destruct n as [|n]; [by repeat split|]). lia. Qed.
Lemma value_symbol z : six z → value (symbol z) = Some z ∧ symbol z ≠ "010"%char ∧ symbol z ≠ "013"%char.
Proof. unfold six. intros Hz. rewrite <-(Z2Nat.id z) by lia. apply value_symbol_nat. lia. Qed.

Lemma values_symbols l : Forall six l → values (of_symbols l) = Some l.
Proof.
  induction 1 as [|z l Hz _ IH]; [done|]. cbn -[value symbol].
  destruct (value_symbol z Hz) as (-> & Hn & Hr).
  apply Ascii.eqb_neq in Hn as ->. apply Ascii.eqb_neq in Hr as ->. cbn. by rewrite IH.
Qed.

Definition octet (z : Z) : Prop := 0 ≤ z < 256.
Lemma codes_octets s : Forall octet (codes s).
Proof. induction s as [|a s IH]; constructor; [apply code_range|done]. Qed.
Lemma of_codes_codes s : of_codes (codes s) = s.
Proof. induction s as [|a s IH]; [done|]. change (String (of_code (code a)) (of_codes (codes s)) = String a s). by rewrite of_code_code, IH. Qed.

Ltac divs := unfold six, octet in *; Z.to_euclidean_division_equations; lia.
Lemma symbols_octets l : Forall octet l → Forall six (symbols l) ∧ octets (symbols l) = Some l.
Proof.
  induction l as [l IH] using (induction_ltof1 _ length). intros Hl.
  destruct l as [|a [|b [|c l]]]; repeat apply Forall_cons_iff in Hl as [? Hl].
  - done.
  - cbn. split; [repeat constructor; divs|]. f_equal. f_equal. divs.
  - cbn. split; [repeat constructor; divs|]. do 2 f_equal; [divs|f_equal; divs].
  - destruct (IH l) as [Hx Ho]; [unfold ltof; cbn; lia|done|]. cbn. rewrite Ho. cbn.
    split; [repeat apply Forall_cons_2; [divs..|done]|]. do 2 f_equal; [divs|f_equal; [divs|f_equal; divs]].
Qed.

Lemma decode_encode s : DecodeString (EncodeToString s) = Some s.
Proof.
  destruct (symbols_octets (codes s) (codes_octets s)) as [H1 H2]. unfold DecodeString, EncodeToString.
  rewrite values_symbols by done. cbn. rewrite H2. cbn. by rewrite of_codes_codes.
Qed.
Lemma EncodeToString_inj s t : EncodeToString s = EncodeToString t → s = t.
Proof. intros He. pose proof (decode_encode s) as Hs. rewrite He, decode_encode in Hs. by injection Hs. Qed.
Lemma encode_nonempty s : s ≠ "" → EncodeToString s ≠ "".
Proof. intros Hs He. by apply Hs, EncodeToString_inj. Qed.

(** The alphabet has no separators. *)
Lemma symbol_not_bar z : symbol z ≠ "|"%char.
Proof.
  unfold symbol. intros Hs. assert (∀ n, byte_at n alphabet ≠ Some "|"%char) as Hn.
  { intros n. do 65 (destruct n as [|n]; [done|]). done. }
  specialize (Hn (Z.to_nat z)). destruct (byte_at _ _); cbn in Hs; congruence.
Qed.
Lemma encode_no_bar s : contains_byte "|" (EncodeToString s) = false.
Proof.
  unfold EncodeToString. induction (symbols (codes s)) as [|z l IH]; [done|]. cbn [of_symbols].
  rewrite contains_byte_cons, IH, orb_false_r. apply Ascii.eqb_neq. intros Hz. by eapply symbol_not_bar.
Qed.

Example encoded : EncodeToString "light work." = "bGlnaHQgd29yay4" ∧ DecodeString "_-8=" = None ∧
  EncodeToString (of_codes [255; 239]) = "_-8".
Proof. by vm_compute. Qed.

(** [StdEncoding]: plus and slash for the last two symbols, and padding to a multiple of four. *)
Definition to_std (a : ascii) : ascii := if Ascii.eqb a "-" then "+"%char else if Ascii.eqb a "_" then "/"%char else a.
Definition of_std (a : ascii) : ascii := if Ascii.eqb a "+" then "-"%char else if Ascii.eqb a "/" then "_"%char else a.
Definition std_encode (s : string) : string :=
  let r := string_map to_std (EncodeToString s) in
  r +:+ (match (String.length r mod 4)%nat with 2%nat => "==" | 3%nat => "=" | _ => "" end).
Fixpoint drop_newlines (s : string) : string :=
  match s with
  | "" => ""
  | String a s => if Ascii.eqb a "010" || Ascii.eqb a "013" then drop_newlines s else String a (drop_newlines s)
  end.
Definition std_decode (s : string) : option string :=
  let s := drop_newlines s in
  if negb (String.length s mod 4 =? 0)%nat then None
  else
    let r := if has_suffix s "==" then trim_suffix s "==" else trim_suffix s "=" in
    if contains_byte "=" r || contains_byte "-" r || contains_byte "_" r then None
    else DecodeString (string_map of_std r).

Example std_check :
  map std_decode [std_encode "light work."; std_encode "light wor"; std_encode "light work"; "QUI"; "Q==="; "QQ==QQ=="; std_encode (of_codes [255; 239])] =
    [Some "light work."; Some "light wor"; Some "light work"; None; None; None; Some (of_codes [255; 239])] ∧
  std_encode "user:pass" = "dXNlcjpwYXNz" ∧ std_encode (of_codes [255; 239]) = "/+8=".
Proof. by vm_compute. Qed.
