(* ===== verification/Cookie.v ===== *)
(** Cookies of net/http: their fields, and how a response sets one. *)
From S2P Require Import Prelude GoStrings Http.

Inductive SameSite : Type := SameSiteZero | SameSiteDefault | SameSiteLax | SameSiteStrict | SameSiteNone.
(** [http.Cookie]; [Expires] in nanoseconds. *)
Record Cookie : Type := MkCookie {
  ck_Name : string;
  ck_Value : string;
  ck_Path : string;
  ck_Domain : string;
  ck_Expires : option Z;
  ck_MaxAge : Z;
  ck_Secure : bool;
  ck_HttpOnly : bool;
  ck_SameSite : SameSite
}.
Definition Second : Z := 1000000000.

(** [http.SetCookie], given the text of a cookie, which is empty if its name is not valid. *)
Definition SetCookie {W : Type} `{ResponseWriter W} (cookie_string : Cookie → string) (c : Cookie) (w : W) : W :=
  if String.eqb (cookie_string c) "" then w else rw_set_header (header_add "Set-Cookie" (cookie_string c) (rw_header w)) w.
