(* ===== verification/Session.v ===== *)
(** Sessions (plugins/session): the session of a request, its backends, and the middleware, as a
    program over the operations of the store, of the random source and of the clock, so that
    requests can be interleaved at each of them. *)
From S2P Require Import Prelude GoStrings Http Errors Float64 Base64 Cookie.
From stdpp Require Import gmap.

(** * Programs *)

(** A session as it is stored; a nil map reads as an empty one. *)
Record Stored {V : Type} : Type := MkStored { Data : gmap string V; Flash : gmap string V; CSRF : string }.
Arguments Stored V : clear implicits.

(** A program up to its next operation. [DoRead] fills a buffer from the random source, [DoNow] reads
    the clock, in nanoseconds. *)
Inductive prog (V A : Type) : Type :=
  | Done (a : A)
  | DoRead (len : Z) (k : string + error → prog V A)
  | DoNow (k : Z → prog V A)
  | DoGet (id : string) (k : option (Stored V) + error → prog V A)
  | DoSave (id : string) (st : Stored V) (ttl : Z) (k : option error → prog V A)
  | DoDelete (id : string) (k : option error → prog V A).
Arguments Done {V A} a.
Arguments DoRead {V A} len k.
Arguments DoNow {V A} k.
Arguments DoGet {V A} id k.
Arguments DoSave {V A} id st ttl k.
Arguments DoDelete {V A} id k.

Fixpoint pbind {V A B : Type} (p : prog V A) (f : A → prog V B) : prog V B :=
  match p with
  | Done a => f a
  | DoRead n k => DoRead n (λ r, pbind (k r) f)
  | DoNow k => DoNow (λ r, pbind (k r) f)
  | DoGet id k => DoGet id (λ r, pbind (k r) f)
  | DoSave id st ttl k => DoSave id st ttl (λ r, pbind (k r) f)
  | DoDelete id k => DoDelete id (λ r, pbind (k r) f)
  end.
Notation "'do' p <- m ; k" := (pbind m (λ p, k)) (at level 10, p pattern, m at level 100, k at level 200).

(** * The session *)

Definition defaultIDLen : Z := 32.
Definition csrfTokenLen : Z := 32.
Definition generateID {V : Type} (rawLen : Z) : prog V (string + error) :=
  DoRead rawLen (λ r, Done match r with inl b => inl (EncodeToString b) | inr err => inr err end).
Definition ErrSessionDestroyed : error := ErrorText "session: destroyed".

Section session.
Context {V : Type}.

Record Session : Type := MkSession {
  s_id : string;
  s_oldID : string;
  s_data : gmap string V;
  s_flash : gmap string V;
  s_csrf : string;
  s_consumed : gset string;
  s_dirty : bool;
  s_regenerated : bool;
  s_destroyed : bool;
  s_isNew : bool;
  s_idLen : Z
}.
Definition newSession (id : string) (isNew : bool) (idLen : Z) : Session :=
  MkSession id "" ∅ ∅ "" ∅ false false false isNew idLen.
Definition sessionFromStored (id : string) (st : Stored V) (idLen : Z) : Session :=
  MkSession id "" (Data st) (Flash st) (CSRF st) ∅ false false false false idLen.
Definition toStored (s : Session) : Stored V := MkStored V (s_data s) (s_flash s) (s_csrf s).

(** The fields that the methods change, together. *)
Definition with_maps (data flash : gmap string V) (consumed : gset string) (dirty : bool) (s : Session) : Session :=
  MkSession (s_id s) (s_oldID s) data flash (s_csrf s) consumed dirty (s_regenerated s) (s_destroyed s) (s_isNew s) (s_idLen s).

Definition Get (key : string) (s : Session) : option V := if s_destroyed s then None else s_data s !! key.
Definition SetKey (key : string) (v : V) (s : Session) : Session :=
  if s_destroyed s then s else with_maps (<[key := v]> (s_data s)) (s_flash s) (s_consumed s) true s.
Definition Delete (key : string) (s : Session) : Session :=
  if s_destroyed s then s
  else match s_data s !! key with
  | Some _ => with_maps (delete key (s_data s)) (s_flash s) (s_consumed s) true s
  | None => s
  end.
Definition SetFlash (key : string) (v : V) (s : Session) : Session :=
  if s_destroyed s then s else with_maps (s_data s) (<[key := v]> (s_flash s)) (s_consumed s) true s.
Definition ConsumeFlash (key : string) (s : Session) : option V * Session :=
  if s_destroyed s then (None, s)
  else match s_flash s !! key with
  | Some v => (Some v, with_maps (s_data s) (delete key (s_flash s)) ({[key]} ∪ s_consumed s) (s_dirty s) s)
  | None => (None, s)
  end.
Definition Regenerate (s : Session) : prog V (option error * Session) :=
  if s_destroyed s then Done (Some ErrSessionDestroyed, s)
  else
    do r <- generateID (if (s_idLen s <=? 0)%Z then defaultIDLen else s_idLen s);
    Done match r with
    | inr err => (Some err, s)
    | inl id =>
        (None, MkSession id (if String.eqb (s_oldID s) "" then s_id s else s_oldID s) (s_data s) (s_flash s) (s_csrf s)
                 (s_consumed s) true true (s_destroyed s) (s_isNew s) (s_idLen s))
    end.
Definition Destroy (s : Session) : Session :=
  MkSession (s_id s) (s_oldID s) (s_data s) (s_flash s) (s_csrf s) (s_consumed s) (s_dirty s) (s_regenerated s) true
    (s_isNew s) (s_idLen s).
Definition CSRFToken (s : Session) : prog V ((string + error) * Session) :=
  if s_destroyed s then Done (inr ErrSessionDestroyed, s)
  else if negb (String.eqb (s_csrf s) "") then Done (inl (s_csrf s), s)
  else
    do r <- generateID csrfTokenLen;
    Done match r with
    | inr err => (inr err, s)
    | inl tok =>
        (inl tok, MkSession (s_id s) (s_oldID s) (s_data s) (s_flash s) tok (s_consumed s) true (s_regenerated s)
                    (s_destroyed s) (s_isNew s) (s_idLen s))
    end.
Definition shouldSave (s : Session) : bool :=
  s_dirty s || negb (bool_decide (s_consumed s = ∅)) || s_regenerated s.
End session.
Arguments Session V : clear implicits.

(** * Configuration and cookies *)

Definition DefaultMaxAge : Z := 24 * 3600 * Second.

(** [int(d.Seconds())]. *)
Definition int_Seconds (d : Z) : Z :=
  f64_to_int64 (f64_add (f64_of_int (Z.quot d Second)) (f64_div (f64_of_int (Z.rem d Second)) (f64_of_int Second))).

(** The hooks give what they do to the writer; an error handler also its error. *)
Record Config : Type := MkConfig {
  CookieName : string;
  MaxAge : Z;
  IDLength : Z;
  CookiePath : string;
  CookieDomain : string;
  DisableSecure : bool;
  DisableHTTPOnly : bool;
  CookieSameSite : SameSite;
  ErrorHandler : option (error → list wop * option error)
}.
Record normalized : Type := MkNormalized {
  cookieName : string;
  maxAge : Z;
  cookieMaxAgeSec : Z;
  idLength : Z;
  cookiePath : string;
  cookieDomain : string;
  cookieSecure : bool;
  cookieHTTPOnly : bool;
  cookieSameSite : SameSite;
  errFn : option (error → list wop * option error)
}.
Definition MinIDLength : Z := 16.
(** [None] for a panic. *)
Definition validateIDLength (n : Z) : option unit := if (0 <? n)%Z && (n <? MinIDLength)%Z then None else Some tt.
Definition normalizeConfig (cfg : Config) : normalized :=
  MkNormalized
    (if String.eqb (CookieName cfg) "" then "_session" else CookieName cfg)
    (if (MaxAge cfg <=? 0)%Z then DefaultMaxAge else MaxAge cfg)
    (if (MaxAge cfg =? 0)%Z then int_Seconds DefaultMaxAge else if (MaxAge cfg <? 0)%Z then (-1)%Z else int_Seconds (MaxAge cfg))
    (if (IDLength cfg <=? 0)%Z then defaultIDLen else IDLength cfg)
    (if String.eqb (CookiePath cfg) "" then "/" else CookiePath cfg)
    (CookieDomain cfg) (negb (DisableSecure cfg)) (negb (DisableHTTPOnly cfg))
    match CookieSameSite cfg with SameSiteZero => SameSiteLax | s => s end
    (ErrorHandler cfg).
Definition New (cfg : Config) : option normalized := validateIDLength (IDLength cfg) ;; Some (normalizeConfig cfg).

Definition buildSessionCookie {V : Type} (cfg : normalized) (value : string) (expire : bool) : prog V Cookie :=
  let cookie expires age := MkCookie (cookieName cfg) value (cookiePath cfg) (cookieDomain cfg) expires age
    (cookieSecure cfg) (cookieHTTPOnly cfg) (cookieSameSite cfg) in
  if expire then Done (cookie (Some Second) (-1)%Z)
  else if (0 <? cookieMaxAgeSec cfg)%Z
  then DoNow (λ now, Done (cookie (Some (now + cookieMaxAgeSec cfg * Second)%Z) (cookieMaxAgeSec cfg)))
  else Done (cookie None 0%Z).

(** * Backends *)

Section middleware.
Context {V W : Type} `{ResponseWriter W}.
Context (cookie_string : Cookie → string).

(** [sessionBackend]. Saving and destroying also give the errors they report themselves. *)
Record sessionBackend : Type := MkBackend {
  load : (string → option string) → prog V (Session V + error);
  freshSession : prog V (Session V + error);
  save : Session V → W → prog V (list error * option error * W);
  destroy : Session V → W → prog V (list error * option error * W)
}.

Definition fresh_session (idLen : Z) : prog V (Session V + error) :=
  do r <- generateID idLen; Done match r with inl id => inl (newSession id true idLen) | inr err => inr err end.
Definition set_session_cookie (cfg : normalized) (value : string) (expire : bool) (w : W) : prog V W :=
  do c <- buildSessionCookie cfg value expire; Done (SetCookie cookie_string c w).
Definition errs (r : option error) : list error := match r with Some err => [err] | None => [] end.

(** ** A store on the server *)

Definition store_load (cfg : normalized) (cookie : string → option string) : prog V (Session V + error) :=
  match cookie (cookieName cfg) with
  | None => fresh_session (idLength cfg)
  | Some v =>
      if String.eqb v "" then fresh_session (idLength cfg)
      else DoGet v (λ r,
        match r with
        | inr err => Done (inr err)
        | inl None => fresh_session (idLength cfg)
        | inl (Some st) => Done (inl (sessionFromStored v st (idLength cfg)))
        end)
  end.
Definition store_save (cfg : normalized) (s : Session V) (w : W) : prog V (list error * option error * W) :=
  let put reported :=
    DoSave (s_id s) (toStored s) (maxAge cfg) (λ r,
      match r with
      | Some err => Done (reported, Some err, w)
      | None => do w <- set_session_cookie cfg (s_id s) false w; Done (reported, None, w)
      end) in
  if s_regenerated s && negb (String.eqb (s_oldID s) "") then DoDelete (s_oldID s) (λ r, put (errs r)) else put [].
Definition store_destroy (cfg : normalized) (s : Session V) (w : W) : prog V (list error * option error * W) :=
  let rest e :=
    DoDelete (s_id s) (λ r,
      do w <- set_session_cookie cfg "" true w; Done ([], match r with Some err => Some err | None => e end, w)) in
  if negb (String.eqb (s_oldID s) "") && negb (String.eqb (s_oldID s) (s_id s)) then DoDelete (s_oldID s) rest else rest None.
Definition storeBackend (cfg : normalized) : sessionBackend :=
  MkBackend (store_load cfg) (fresh_session (idLength cfg)) (store_save cfg) (store_destroy cfg).

(** ** The cookie itself *)

(** AES-GCM under the key of the store, sealing and opening with a nonce and additional data, and
    the JSON form of a session with its time. *)
Context (Seal : string → string → string → string) (Open : string → string → string → option string).
Context (Marshal : Z → Stored V → string + error) (Unmarshal : string → option (Z * option (Stored V))).

Definition NonceSize : nat := 12.
Definition maxCookieEncodedLen : nat := 3584.
Definition ErrCookiePayloadTooLarge : error := ErrorText "session: cookie payload exceeds 3.5 KiB browser-safe limit".
Definition aadFor (cfg : normalized) : string := "aarv/session:" +:+ cookieName cfg.
Definition encode (cfg : normalized) (issued : Z) (st : Stored V) : prog V (string + error) :=
  match Marshal issued st with
  | inr err => Done (inr err)
  | inl plain =>
      DoRead (Z.of_nat NonceSize) (λ r, Done
        match r with
        | inr err => inr err
        | inl nonce => inl (EncodeToString (nonce +:+ Seal nonce plain (aadFor cfg)))
        end)
  end.
(** [time.Since] a time in seconds. *)
Definition Since (now issued : Z) : Z := Z.max min_int64 (Z.min max_int64 (now - issued * Second)).
Definition decode (cfg : normalized) (encoded : string) : prog V (option (option (Stored V))) :=
  match DecodeString encoded with
  | None => Done None
  | Some raw =>
      if (String.length raw <? NonceSize)%nat then Done None
      else match Open (take_bytes NonceSize raw) (drop_bytes NonceSize raw) (aadFor cfg) with
      | None => Done None
      | Some plain =>
          match Unmarshal plain with
          | None => Done None
          | Some (issued, st) =>
              if (0 <? maxAge cfg)%Z && (0 <? issued)%Z
              then DoNow (λ now, Done (if (maxAge cfg <? Since now issued)%Z then None else Some st))
              else Done (Some st)
          end
      end
  end.
Definition cookie_load (cfg : normalized) (cookie : string → option string) : prog V (Session V + error) :=
  match cookie (cookieName cfg) with
  | None => fresh_session (idLength cfg)
  | Some v =>
      if String.eqb v "" then fresh_session (idLength cfg)
      else
        do r <- decode cfg v;
        match r with
        | None => fresh_session (idLength cfg)
        | Some st => Done (inl (sessionFromStored v (default (MkStored V ∅ ∅ "") st) (idLength cfg)))
        end
  end.
Definition cookie_save (cfg : normalized) (s : Session V) (w : W) : prog V (list error * option error * W) :=
  DoNow (λ now,
    do r <- encode cfg (now / Second)%Z (toStored s);
    match r with
    | inr err => Done ([], Some err, w)
    | inl encoded =>
        if (maxCookieEncodedLen <? String.length encoded)%nat then Done ([], Some ErrCookiePayloadTooLarge, w)
        else do w <- set_session_cookie cfg encoded false w; Done ([], None, w)
    end).
Definition CookieStore (cfg : normalized) : sessionBackend :=
  MkBackend (cookie_load cfg) (fresh_session (idLength cfg)) (cookie_save cfg)
    (λ _ w, do w <- set_session_cookie cfg "" true w; Done ([], None, w)).

(** * The middleware *)

(** A handler up to its next operation on its session or its writer. *)
Inductive script : Type :=
  | Finish (o : outcome (option error))
  | Respond (o : wop) (h : script)
  | WithID (k : string → script)
  | WithGet (key : string) (k : option V → script)
  | ThenSet (key : string) (v : V) (h : script)
  | ThenDelete (key : string) (h : script)
  | ThenFlash (key : string) (v : V) (h : script)
  | WithConsumed (key : string) (k : option V → script)
  | WithRegenerate (k : option error → script)
  | ThenDestroy (h : script)
  | WithCSRFToken (k : string + error → script).

(** The session of a request, the writer below the wrapper, whether the wrapper has committed, and
    the errors that were reported. *)
Record local : Type := MkLocal {
  l_sess : Session V;
  l_writer : W;
  l_committed : bool;
  l_reports : list error
}.
Definition set_sess (s : Session V) (l : local) : local := MkLocal s (l_writer l) (l_committed l) (l_reports l).
Definition set_writer (w : W) (l : local) : local := MkLocal (l_sess l) w (l_committed l) (l_reports l).

(** [makeCommit], once. *)
Definition commit (bk : sessionBackend) (l : local) : prog V local :=
  if l_committed l then Done l
  else
    let close '(reported, err, w) := Done (MkLocal (l_sess l) w true (l_reports l ++ reported ++ errs err)) in
    if s_destroyed (l_sess l) then pbind (destroy bk (l_sess l) (l_writer l)) close
    else if shouldSave (l_sess l) then pbind (save bk (l_sess l) (l_writer l)) close
    else Done (MkLocal (l_sess l) (l_writer l) true (l_reports l)).

(** The wrapper's [WriteHeader] and [Write]; the header map is the writer's own. *)
Definition sw_op (bk : sessionBackend) (o : wop) (l : local) : prog V local :=
  match o with
  | OWriteHeader _ | OWrite _ => do l <- commit bk l; Done (set_writer (do_op (l_writer l) o) l)
  | _ => Done (set_writer (do_op (l_writer l) o) l)
  end.

Fixpoint handle (bk : sessionBackend) (h : script) (l : local) : prog V (outcome (option error) * local) :=
  match h with
  | Finish o => Done (o, l)
  | Respond o h => do l <- sw_op bk o l; handle bk h l
  | WithID k => handle bk (k (s_id (l_sess l))) l
  | WithGet key k => handle bk (k (Get key (l_sess l))) l
  | ThenSet key v h => handle bk h (set_sess (SetKey key v (l_sess l)) l)
  | ThenDelete key h => handle bk h (set_sess (Delete key (l_sess l)) l)
  | ThenFlash key v h => handle bk h (set_sess (SetFlash key v (l_sess l)) l)
  | WithConsumed key k => let (v, s) := ConsumeFlash key (l_sess l) in handle bk (k v) (set_sess s l)
  | WithRegenerate k => do (err, s) <- Regenerate (l_sess l); handle bk (k err) (set_sess s l)
  | ThenDestroy h => handle bk h (set_sess (Destroy (l_sess l)) l)
  | WithCSRFToken k => do (r, s) <- CSRFToken (l_sess l); handle bk (k r) (set_sess s l)
  end.
(** A handler whose request has no session: a method of it panics. *)
Fixpoint handle_plain (h : script) (w : W) : outcome (option error) * W :=
  match h with
  | Finish o => (o, w)
  | Respond o h => handle_plain h (do_op w o)
  | _ => (Panic "invalid memory address or nil pointer dereference", w)
  end.

(** How a request ends: the outcome, the writer, and the errors reported. *)
Definition reply : Type := outcome (option error) * W * list error.
(** A handler is given whether the request has a session. *)
Definition plain (h : bool → script) (w : W) : prog V reply := let (o, w) := handle_plain (h false) w in Done (o, w, []).

(** The session wraps the handler; a panic passes the commit by. *)
Definition with_session (bk : sessionBackend) (h : bool → script) (s : Session V) (w : W) (reports : list error) : prog V reply :=
  do (o, l) <- handle bk (h true) (MkLocal s w false reports);
  match o with
  | Panic msg => Done (Panic msg, l_writer l, l_reports l)
  | Ret err => do l <- commit bk l; Done (Ret err, l_writer l, l_reports l)
  end.

Definition native (cfg : normalized) (bk : sessionBackend) (skip : bool) (cookie : string → option string)
    (h : bool → script) (w : W) : prog V reply :=
  if skip then plain h w
  else
    do r <- load bk cookie;
    match r with
    | inl s => with_session bk h s w []
    | inr err =>
        let (ops, stop) := match errFn cfg with Some f => f err | None => ([], None) end in
        let reports := match errFn cfg with Some _ => [] | None => [err] end in
        let w := run_ops ops w in
        match stop with
        | Some hErr => Done (Ret (Some hErr), w, reports)
        | None =>
            do r <- freshSession bk;
            match r with
            | inr fErr => Done (Ret (Some fErr), w, reports)
            | inl s => with_session bk h s w reports
            end
        end
    end.

(** [http.Error] with the text of this middleware. *)
Definition session_error : list wop :=
  [HDel "Content-Length"; HSet "Content-Type" "text/plain; charset=utf-8"; HSet "X-Content-Type-Options" "nosniff";
   OWriteHeader 500; OWrite ("session error" +:+ String "010" "")].
(** A request without a context has its session loaded and committed, but the handler cannot reach it. *)
Definition stdlib (cfg : normalized) (bk : sessionBackend) (hasCtx skip : bool) (cookie : string → option string)
    (h : bool → script) (w : W) : prog V reply :=
  if hasCtx && skip then plain h w
  else
    let run s w reports :=
      if hasCtx then with_session bk h s w reports
      else
        let '(o, w) := handle_plain (h false) w in Done (o, w, reports) in
    do r <- load bk cookie;
    match r with
    | inl s => run s w []
    | inr err =>
        let fn := if hasCtx then errFn cfg else None in
        let (ops, stop) := match fn with Some f => f err | None => ([], None) end in
        let reports := match fn with Some _ => [] | None => [err] end in
        let w := run_ops ops w in
        match stop with
        | Some _ => Done (Ret None, run_ops session_error w, reports)
        | None =>
            do r <- freshSession bk;
            match r with
            | inr _ => Done (Ret None, run_ops session_error w, reports)
            | inl s => run s w reports
            end
        end
    end.
End middleware.
Arguments sessionBackend V W : clear implicits.
Arguments local V W : clear implicits.
Arguments script V : clear implicits.
Arguments reply W : clear implicits.
