(* ===== verification/SessionStore.v ===== *)
(** The stores of sessions (plugins/session/store.go, memory_store.go), and the machine that runs
    requests on the one in memory, each operation of each request at any time. *)
From S2P Require Import Prelude GoStrings Http Errors Base64 Cookie Session.
From stdpp Require Import gmap relations.
Open Scope go_scope.

(** * The interface *)

(** [Store], at a moment: a session by its id, kept for a time. *)
Class Store (S V : Type) : Type := {
  store_Get : Z → string → GoM S (option (Stored V) + error);
  store_Save : Z → string → Stored V → Z → GoM S (option error);
  store_Delete : string → GoM S (option error)
}.

(** * The store in memory *)

Section memory.
Context {V : Type}.

(** [memEntry], the store being a map of them; a zero time is [None]. *)
Record memEntry : Type := MkEntry { stored : Stored V; expiry : option Z }.
Definition NewMemoryStore : gmap string memEntry := ∅.
Definition expired (now : Z) (e : memEntry) : bool := match expiry e with Some t => (t <? now)%Z | None => false end.

Definition mem_Get (now : Z) (id : string) (s : gmap string memEntry) : option (Stored V) * gmap string memEntry :=
  match s !! id with
  | None => (None, s)
  | Some e => if expired now e then (None, delete id s) else (Some (stored e), s)
  end.
Definition mem_Save (now : Z) (id : string) (st : Stored V) (ttl : Z) (s : gmap string memEntry) : gmap string memEntry :=
  <[id := MkEntry st (if (0 <? ttl)%Z then Some (now + ttl)%Z else None)]> s.
Definition mem_Delete (id : string) (s : gmap string memEntry) : gmap string memEntry := delete id s.
Definition sweepExpired (now : Z) (s : gmap string memEntry) : gmap string memEntry := filter (λ ke : string * memEntry, expired now ke.2 = false) s.

#[export] Instance MemoryStore_Store : Store (gmap string memEntry) V := {
  store_Get now id := λ s, let (r, s') := mem_Get now id s in (Ret (inl r), s');
  store_Save now id st ttl := λ s, (Ret None, mem_Save now id st ttl s);
  store_Delete id := λ s, (Ret None, mem_Delete id s)
}.
End memory.
Arguments memEntry V : clear implicits.

(** * The machine *)

Section machine.
Context {V A : Type}.
(** The random source: its [n]-th reading of a length. *)
Context (ReadFull : nat → Z → string + error).

(** The world that requests share: the clock, the store, and the readings made. *)
Record world : Type := MkWorld { now : Z; store : gmap string (memEntry V); reads : nat }.

(** A request takes its next operation. *)
Definition operate (p : prog V A) (w : world) : option (prog V A * world) :=
  match p with
  | Done _ => None
  | DoRead n k => Some (k (ReadFull (reads w) n), MkWorld (now w) (store w) (S (reads w)))
  | DoNow k => Some (k (now w), w)
  | DoGet id k => let (r, s) := mem_Get (now w) id (store w) in Some (k (inl r), MkWorld (now w) s (reads w))
  | DoSave id st ttl k => Some (k None, MkWorld (now w) (mem_Save (now w) id st ttl (store w)) (reads w))
  | DoDelete id k => Some (k None, MkWorld (now w) (mem_Delete id (store w)) (reads w))
  end.

Record machine : Type := MkMachine { shared : world; requests : list (prog V A) }.
Definition start (t : Z) : machine := MkMachine (MkWorld t NewMemoryStore 0) [].

Inductive event : Type :=
  | Tick (d : Z)
  | Arrive (p : prog V A)
  | Advance (i : nat)
  | Janitor.

Definition step (ev : event) (m : machine) : option machine :=
  let w := shared m in
  match ev with
  | Tick d => if (0 <=? d)%Z then Some (MkMachine (MkWorld (now w + d) (store w) (reads w)) (requests m)) else None
  | Arrive p => Some (MkMachine w (requests m ++ [p]))
  | Advance i =>
      p ← requests m !! i;
      '(p', w') ← operate p w;
      Some (MkMachine w' (<[i := p']> (requests m)))
  | Janitor => Some (MkMachine (MkWorld (now w) (sweepExpired (now w) (store w)) (reads w)) (requests m))
  end.

Definition trans (arrives : prog V A → Prop) (m m' : machine) : Prop :=
  ∃ ev, step ev m = Some m' ∧ match ev with Arrive p => arrives p | _ => True end.
Fixpoint run (evs : list event) (m : machine) : option machine :=
  match evs with [] => Some m | ev :: evs => m' ← step ev m; run evs m' end.
End machine.
Arguments world V : clear implicits.
Arguments machine V A : clear implicits.
Arguments event V A : clear implicits.

(** A request that runs alone. *)
Fixpoint exec {V A : Type} (ReadFull : nat → Z → string + error) (p : prog V A) (w : world V) : A * world V :=
  match p with
  | Done a => (a, w)
  | DoRead n k => exec ReadFull (k (ReadFull (reads w) n)) (MkWorld (now w) (store w) (S (reads w)))
  | DoNow k => exec ReadFull (k (now w)) w
  | DoGet id k => let (r, s) := mem_Get (now w) id (store w) in exec ReadFull (k (inl r)) (MkWorld (now w) s (reads w))
  | DoSave id st ttl k => exec ReadFull (k None) (MkWorld (now w) (mem_Save (now w) id st ttl (store w)) (reads w))
  | DoDelete id k => exec ReadFull (k None) (MkWorld (now w) (mem_Delete id (store w)) (reads w))
  end.

Section arrivals.
Context {V W : Type} `{ResponseWriter W} (cookie_string : Cookie → string).
(** Requests in either form to the middleware with a store in memory: their cookies and handlers are
    whatever clients and the application make them. *)
Inductive arrives : prog V (reply W) → Prop :=
  | arrives_native cfg n skip cookie h w : New cfg = Some n →
      arrives (native n (storeBackend cookie_string n) skip cookie h w)
  | arrives_stdlib cfg n hasCtx skip cookie h w : New cfg = Some n →
      arrives (stdlib n (storeBackend cookie_string n) hasCtx skip cookie h w).
Definition reachable (ReadFull : nat → Z → string + error) (m : machine V (reply W)) : Prop :=
  ∃ t, rtc (trans ReadFull arrives) (start t) m.
End arrivals.
