(* ===== verification/SessionLaws.v ===== *)
(** What holds of sessions, whatever cookies clients send and however requests are interleaved: no
    fixation, no revival of what was destroyed, and what a handler leaves is what the next finds. *)
From S2P Require Import Prelude GoStrings Http Errors Base64 Cookie Session SessionStore.
From stdpp Require Import gmap relations.

(** * Which ids a request may save under *)

Section knowledge.
Context {V : Type}.
Implicit Types (K : string → Prop).

(** What a request that knows the ids [K] may do, until it ends with [Q]: it saves under ids it knows,
    and comes to know an id by making it from random bytes or by finding it in the store. *)
Fixpoint wp {A : Type} (Q : A → (string → Prop) → Prop) K (p : prog V A) : Prop :=
  match p with
  | Done a => Q a K
  | DoRead n k => (∀ err, wp Q K (k (inr err))) ∧ ∀ b, wp Q (λ x, x = EncodeToString b ∨ K x) (k (inl b))
  | DoNow k => ∀ t, wp Q K (k t)
  | DoGet id k =>
      (∀ err, wp Q K (k (inr err))) ∧ wp Q K (k (inl None)) ∧ ∀ st, wp Q (λ x, x = id ∨ K x) (k (inl (Some st)))
  | DoSave id _ _ k => K id ∧ ∀ r, wp Q K (k r)
  | DoDelete _ k => ∀ r, wp Q K (k r)
  end.
Definition honest {A : Type} K (p : prog V A) : Prop := wp (λ _ _, True) K p.

Lemma wp_mono {A} (Q Q' : A → (string → Prop) → Prop) K K' (p : prog V A) :
  (∀ x, K x → K' x) → (∀ a L L', (∀ x, K x → L x) → (∀ x, L x → L' x) → Q a L → Q' a L') → wp Q K p → wp Q' K' p.
Proof.
  revert K K'. induction p as [a|n k IH|k IH|id k IH|id st ttl k IH|id k IH]; cbn; intros K K' HK HQ.
  - intros Ha. by apply (HQ a K K').
  - intros [He Hb]. split; [eauto|]. intros b. eapply IH; [| |apply Hb]; [intros x [->|]; auto|intros a L L' HL ?; apply HQ; [|done]; auto].
  - eauto.
  - intros (He & Hn & Hs). split_and!; [eauto..|]. intros st. eapply IH; [| |apply Hs]; [intros x [->|]; auto|intros a L L' HL ?; apply HQ; [|done]; auto].
  - intros [Hi Hr]. eauto.
  - eauto.
Qed.
Lemma wp_post {A} (Q Q' : A → (string → Prop) → Prop) K (p : prog V A) :
  (∀ a L, (∀ x, K x → L x) → Q a L → Q' a L) → (∀ a L L', (∀ x, L x → L' x) → Q' a L → Q' a L') → wp Q K p → wp Q' K p.
Proof. intros HQ HQ'. apply wp_mono; [done|]. eauto. Qed.
Lemma wp_bind {A B} (Q : B → (string → Prop) → Prop) K (p : prog V A) (f : A → prog V B) :
  wp (λ a L, wp Q L (f a)) K p → wp Q K (pbind p f).
Proof.
  revert K. induction p as [a|n k IH|k IH|id k IH|id st ttl k IH|id k IH]; cbn; intros K; intuition.
Qed.
Lemma wp_then {A B} (P : A → (string → Prop) → Prop) (Q : B → (string → Prop) → Prop) K (p : prog V A) (f : A → prog V B) :
  wp P K p → (∀ a L, P a L → wp Q L (f a)) → (∀ b L L', (∀ x, L x → L' x) → Q b L → Q b L') → wp Q K (pbind p f).
Proof.
  intros Hp Hf HQ. apply wp_bind. eapply wp_post; [| |exact Hp]; [auto|].
  intros a L L' HL. apply wp_mono; [done|]. eauto.
Qed.
Lemma honest_mono {A} K K' (p : prog V A) : (∀ x, K x → K' x) → honest K p → honest K' p.
Proof. intros HK. by apply wp_mono. Qed.
End knowledge.

(** ** The middleware only saves under ids that it made or found *)

Section middleware.
Context {V W : Type} `{ResponseWriter W} (cookie_string : Cookie → string).
Implicit Types (K : string → Prop).
Local Notation server n := (storeBackend (V:=V) (W:=W) cookie_string n).

Definition knows (l : local V W) K : Prop := K (s_id (l_sess l)).

Lemma wp_fresh n K : wp (λ r L, match r with inl s => L (s_id s) | inr _ => True end) K (fresh_session (V:=V) n).
Proof. cbn. split; [done|]. intros b. by left. Qed.
Lemma wp_load n cookie K : wp (λ r L, match r with inl s => L (s_id s) | inr _ => True end) K (load (server n) cookie).
Proof.
  cbn. unfold store_load. destruct (cookie _) as [v|]; [|apply wp_fresh]. destruct (String.eqb v ""); [apply wp_fresh|].
  split; [done|]. split; [apply wp_fresh|]. intros st. by left.
Qed.

Lemma wp_cookie {A} n value expire (w : W) (f : W → prog V A) Q K : (∀ w, wp Q K (f w)) →
  wp Q K (pbind (set_session_cookie cookie_string n value expire w) f).
Proof.
  intros Hf. unfold set_session_cookie, buildSessionCookie. destruct expire; [apply Hf|].
  destruct (0 <? cookieMaxAgeSec n)%Z; cbn; intros; apply Hf.
Qed.

Lemma wp_commit n l K : knows l K → wp knows K (commit (server n) l).
Proof.
  intros Hl. unfold commit. destruct (l_committed l); [done|].
  destruct (s_destroyed (l_sess l)); [|destruct (shouldSave (l_sess l)); [|done]]; apply wp_bind; cbn [save destroy storeBackend].
  - unfold store_destroy. destruct (_ && _); cbn -[set_session_cookie]; intros; by apply wp_cookie.
  - unfold store_save. destruct (_ && _); cbn -[set_session_cookie]; intros; (split; [done|]); intros [err|]; try done; by apply wp_cookie.
Qed.

Lemma wp_regenerate s K : K (s_id s) → wp (λ '(_, s') L, L (s_id s')) K (Regenerate (V:=V) s).
Proof. intros Hs. unfold Regenerate. destruct (s_destroyed s); [done|]. cbn. split; [done|]. intros b. by left. Qed.
Lemma wp_token s K : K (s_id s) → wp (λ '(_, s') L, L (s_id s')) K (CSRFToken (V:=V) s).
Proof.
  intros Hs. unfold CSRFToken. destruct (s_destroyed s); [done|]. destruct (negb _); [done|].
  cbn. split; [done|]. intros b. by right.
Qed.

Definition knows' (r : outcome (option error) * local V W) K : Prop := knows r.2 K.
Lemma knows'_mono r K K' : (∀ x, K x → K' x) → knows' r K → knows' r K'.
Proof. unfold knows', knows. auto. Qed.

Lemma wp_sw_op n o l K : knows l K → wp knows K (sw_op (server n) o l).
Proof.
  intros Hl. destruct o; cbn [sw_op]; try done.
  all: eapply wp_then; [by apply wp_commit|intros l' L Hl'; exact Hl'|unfold knows; auto].
Qed.

Lemma wp_handle n h l K : knows l K → wp knows' K (handle (server n) h l).
Proof.
  revert l K. induction h as [o|o h IH|k IH|key k IH|key v h IH|key h IH|key v h IH|key k IH|k IH|h IH|k IH];
    cbn [handle]; intros l K Hl.
  - done.
  - eapply wp_then; [by apply wp_sw_op|intros; by apply IH|apply knows'_mono].
  - by apply IH.
  - by apply IH.
  - apply IH. unfold knows, SetKey in *. cbn. by destruct (s_destroyed (l_sess l)).
  - apply IH. unfold knows, Session.Delete in *. cbn. destruct (s_destroyed (l_sess l)); [done|]. by destruct (_ !! key).
  - apply IH. unfold knows, SetFlash in *. cbn. by destruct (s_destroyed (l_sess l)).
  - destruct (ConsumeFlash key (l_sess l)) as [v s] eqn:E. apply IH. unfold knows in *. cbn. revert E. unfold ConsumeFlash.
    destruct (s_destroyed (l_sess l)); [by intros [= _ <-]|]. destruct (_ !! key); by intros [= _ <-].
  - eapply wp_then; [by apply wp_regenerate|intros [err s] L Hs; by apply IH|apply knows'_mono].
  - by apply IH.
  - eapply wp_then; [by apply wp_token|intros [err s] L Hs; by apply IH|apply knows'_mono].
Qed.

Lemma honest_with_session n h (s : Session V) w reports K : K (s_id s) → honest (V:=V) K (with_session (server n) h s w reports).
Proof.
  intros Hs. eapply wp_then; [by apply wp_handle| |done].
  intros [[err|msg] l] L Hl; [|done]. by eapply wp_then; [by apply wp_commit| |].
Qed.
Lemma honest_plain (h : bool → script V) (w : W) K : honest (V:=V) K (plain (V:=V) h w).
Proof. unfold plain. by destruct (handle_plain _ _). Qed.

Lemma arrives_honest (p : prog V (reply W)) : arrives cookie_string p → honest (λ _, False) p.
Proof.
  assert (∀ (cont : Session V → prog V (reply W)) (e : error → prog V (reply W)) n,
    (∀ s K, K (s_id s) → honest K (cont s)) → (∀ err K, honest K (e err)) →
    ∀ K, honest K (do r <- fresh_session (V:=V) n; match r with inr err => e err | inl s => cont s end)) as Hfresh.
  { intros cont e n Hc He K. cbn. split; [intros; apply He|]. intros b. apply Hc. by left. }
  destruct 1 as [cfg n skip cookie h w _|cfg n hasCtx skip cookie h w _].
  - unfold native. destruct skip; [apply honest_plain|]. eapply wp_then; [apply wp_load| |done].
    intros [s|err] L Hs; [by apply honest_with_session|].
    destruct (match errFn n with Some f => _ | None => _ end) as [ops [|]]; [done|].
    apply (Hfresh (λ s, with_session (server n) h s _ _) (λ err, Done (Ret (Some err), _, _))); [|done].
    intros. by apply honest_with_session.
  - unfold stdlib. destruct (hasCtx && skip); [apply honest_plain|].
    assert (∀ s w reports L, L (s_id s) → honest L (if hasCtx then with_session (server n) h s w reports
      else let '(o, w) := handle_plain (h false) w in Done (o, w, reports))) as Hrun.
    { intros. destruct hasCtx; [by apply honest_with_session|]. by destruct (handle_plain _ _). }
    eapply wp_then; [apply wp_load| |done]. intros [s|err] L Hs; [by apply Hrun|].
    destruct (match (if hasCtx then errFn n else None) with Some f => _ | None => _ end) as [ops [|]]; [done|].
    apply (Hfresh (λ s, if hasCtx then with_session (server n) h s _ _ else _) (λ _, Done (Ret None, _, _))); [|done].
    intros. by apply Hrun.
Qed.
End middleware.

(** * What requests keep together *)

Section machine.
Context {V A : Type} (ReadFull : nat → Z → string + error).
Implicit Types (m : machine V A) (w : world V) (P : string → Prop).

(** All ids in the store satisfy [P], and so do those that requests may save under. *)
Definition keeps P m : Prop :=
  (∀ id, is_Some (store (shared m) !! id) → P id) ∧ ∀ i p, requests m !! i = Some p → honest P p.

Lemma operate_keeps P P' (p p' : prog V A) w w' : (∀ x, P x → P' x) →
  honest P p → (∀ id, is_Some (store w !! id) → P id) →
  (∀ n b, ReadFull (reads w) n = inl b → reads w' = S (reads w) → P' (EncodeToString b)) →
  operate ReadFull p w = Some (p', w') → honest P' p' ∧ (∀ id, is_Some (store w' !! id) → P' id).
Proof.
  intros HP Hp Hs Hr. assert (∀ id, is_Some (store w !! id) → P' id) as Hs' by auto.
  assert (∀ x, P x → P' x) as HPx by done. destruct p as [a|n k|k|id k|id st ttl k|id k]; cbn; [done|..].
  - intros [= <- <-]. split; [|done]. destruct Hp as [He Hb]. destruct (ReadFull _ _) as [b|err] eqn:E.
    + eapply honest_mono; [|apply Hb]. intros x [->|]; eauto.
    + eapply honest_mono; [|apply He]. done.
  - intros [= <- <-]. split; [|done]. eapply honest_mono; [done|apply Hp].
  - destruct Hp as (_ & Hn & Hf). unfold mem_Get. destruct (store w !! id) as [e|] eqn:E; [destruct (expired _ e)|];
      intros [= <- <-]; cbn; (split; [|try done]).
    + by eapply honest_mono.
    + intros x [? [_ Hx]%lookup_delete_Some]. eauto.
    + eapply honest_mono; [|apply Hf]. intros x [->|]; eauto.
    + by eapply honest_mono.
  - intros [= <- <-]. destruct Hp as [Hi Hk]. split; [eapply honest_mono; [done|apply Hk]|]. cbn. unfold mem_Save.
    intros x [? [[<- _]|[_ Hx]]%lookup_insert_Some]; eauto.
  - intros [= <- <-]. split; [eapply honest_mono; [done|apply Hp]|]. cbn. unfold mem_Delete. intros x [? [_ Hx]%lookup_delete_Some]. eauto.
Qed.

Lemma step_keeps P P' arrives ev m m' : (∀ x, P x → P' x) → (∀ p, arrives p → honest P' p) → keeps P m →
  (∀ n b, ReadFull (reads (shared m)) n = inl b → reads (shared m') = S (reads (shared m)) → P' (EncodeToString b)) →
  step ReadFull ev m = Some m' → match ev with Arrive p => arrives p | _ => True end → keeps P' m'.
Proof.
  intros HP Ha [Hs Hp] Hr Hstep Hev. destruct ev as [d|p|i|]; cbn in Hstep.
  - case_match; [|done]. injection Hstep as <-. split; cbn; eauto using honest_mono.
  - injection Hstep as <-. split; cbn; [eauto|]. intros i q [Hi|[_ [_ <-]%list_lookup_singleton_Some]]%lookup_app_Some; [|auto].
    eapply honest_mono; eauto.
  - apply bind_Some in Hstep as (p & Hi & ([p' w'] & Hop & [= <-])%bind_Some). cbn in Hr.
    assert (honest P' p' ∧ (∀ id, is_Some (store w' !! id) → P' id)) as [Hp' Hs'].
    { eapply (operate_keeps P P'); eauto. }
    split; cbn; [done|]. intros j q [(<- & <- & _)|[_ Hj]]%list_lookup_insert_Some; [done|]. eapply honest_mono; eauto.
  - injection Hstep as <-. split; cbn; [|eauto using honest_mono].
    intros id [? [Hx _]%map_lookup_filter_Some]. eauto.
Qed.

Lemma reads_step ev m m' : step ReadFull ev m = Some m' → (reads (shared m) ≤ reads (shared m'))%nat.
Proof.
  destruct ev as [d|p|i|]; cbn.
  - case_match; [|done]. by intros [= <-].
  - by intros [= <-].
  - intros (p & _ & ([p' w'] & Hop & [= <-])%bind_Some)%bind_Some. cbn.
    destruct p; cbn in Hop; try (destruct (mem_Get _ _ _)); simplify_eq; cbn; lia.
  - by intros [= <-].
Qed.

(** An id that one of the first [n] readings of the random source made. *)
Definition issued (n : nat) (id : string) : Prop := ∃ i len b, (i < n)%nat ∧ ReadFull i len = inl b ∧ id = EncodeToString b.
End machine.

(** * Guarantees *)

Section guarantees.
Context {V W : Type} `{ResponseWriter W} (cookie_string : Cookie → string) (ReadFull : nat → Z → string + error).
Implicit Types (m : machine V (reply W)).

Lemma arriving_honest (P : string → Prop) (p : prog V (reply W)) : arrives cookie_string p → honest P p.
Proof. intros Hp. eapply honest_mono; [|by apply arrives_honest in Hp]. done. Qed.

(** [C21] No fixation: whatever cookies clients send, every id under which the store ever holds a session
    is one that the server has drawn from its random source before. *)
Theorem no_fixation m id : reachable cookie_string ReadFull m → is_Some (store (shared m) !! id) →
  issued ReadFull (reads (shared m)) id.
Proof.
  intros [t Hm] Hid. enough (keeps (issued ReadFull (reads (shared m))) m) as [Hk _] by eauto. clear id Hid.
  eapply (rtc_ind_r (λ m, keeps (issued ReadFull (reads (shared m))) m)); [| |exact Hm].
  - split; cbn; [|done]. intros id [? Hx]. unfold NewMemoryStore in Hx. by rewrite lookup_empty in Hx.
  - intros m1 m2 _ (ev & Hstep & Hev) IH. pose proof (reads_step _ _ _ _ Hstep) as Hle.
    refine (step_keeps ReadFull _ _ _ ev m1 m2 _ (arriving_honest _) IH _ Hstep Hev).
    + intros x (i & len & b & ? & ?). exists i, len, b. split; [lia|done].
    + intros n b Hb ->. exists (reads (shared m1)), n, b. split; [lia|done].
Qed.

(** A request that does not know an id: it will not save under it unless it draws it. *)
Definition innocent (id : string) (p : prog V (reply W)) : Prop := honest (λ x, x ≠ id) p.
(** The random source never gives the same bytes twice. *)
Definition never_repeats : Prop := ∀ i j n n' b, ReadFull i n = inl b → ReadFull j n' = inl b → i = j.

(** [C22] What is gone stays gone: when a session has been destroyed, renamed by Regenerate or has run
    out, and no request in progress knows its id, no later request brings it back, whatever cookies it
    carries: a stolen or replayed cookie finds no session under it ever again. *)
Theorem stays_dead m m' id : never_repeats → issued ReadFull (reads (shared m)) id →
  store (shared m) !! id = None → (∀ i p, requests m !! i = Some p → innocent id p) →
  rtc (trans ReadFull (arrives cookie_string)) m m' →
  store (shared m') !! id = None ∧ ∀ i p, requests m' !! i = Some p → innocent id p.
Proof.
  intros Hfresh (i & len & b & Hi & Hb & ->) Hnone Hreq Hsteps.
  enough ((i < reads (shared m'))%nat ∧ keeps (λ x, x ≠ EncodeToString b) m') as (_ & Hs & Hp).
  { split; [|done]. apply eq_None_not_Some. intros Hx. by apply (Hs _ Hx). }
  eapply (rtc_ind_r (λ m', (i < reads (shared m'))%nat ∧ keeps (λ x, x ≠ EncodeToString b) m')); [| |exact Hsteps].
  - split; [done|]. split; [|done]. intros x [? Hx] ->. congruence.
  - intros m1 m2 _ (ev & Hstep & Hev) [Hlt IH]. pose proof (reads_step _ _ _ _ Hstep) as Hle. split; [lia|].
    refine (step_keeps ReadFull (λ x, x ≠ EncodeToString b) _ _ ev m1 m2 _ (arriving_honest _) IH _ Hstep Hev); [done|].
    intros n b' Hb' _ ->%EncodeToString_inj. pose proof (Hfresh _ _ _ _ _ Hb Hb'). lia.
Qed.

(** * A request that runs alone *)

(** The session up to the handler's first write or end, with whether the handler has panicked. *)
Fixpoint until_write (h : script V) (s : Session V) (w : world V) : Session V * bool * world V :=
  match h with
  | Finish (Ret _) => (s, false, w)
  | Finish (Panic _) => (s, true, w)
  | Respond (OWriteHeader _) _ | Respond (OWrite _) _ => (s, false, w)
  | Respond _ h => until_write h s w
  | WithID k => until_write (k (s_id s)) s w
  | WithGet key k => until_write (k (Get key s)) s w
  | ThenSet key v h => until_write h (SetKey key v s) w
  | ThenDelete key h => until_write h (Session.Delete key s) w
  | ThenFlash key v h => until_write h (SetFlash key v s) w
  | WithConsumed key k => let (v, s) := ConsumeFlash key s in until_write (k v) s w
  | WithRegenerate k => let '(err, s, w) := exec ReadFull (Regenerate s) w in until_write (k err) s w
  | ThenDestroy h => until_write h (Destroy s) w
  | WithCSRFToken k => let '(r, s, w) := exec ReadFull (CSRFToken s) w in until_write (k r) s w
  end.
(** What becomes of the store: the session is forgotten under its present and its first id, or it is
    kept under its present id alone, or nothing changes. *)
Definition committed (n : normalized) (s : Session V) (t : Z) (st : gmap string (memEntry V)) : gmap string (memEntry V) :=
  let without := if String.eqb (s_oldID s) "" then st else delete (s_oldID s) st in
  if s_destroyed s then delete (s_id s) without
  else if shouldSave s then
    <[s_id s := MkEntry (toStored s) (if (0 <? maxAge n)%Z then Some (t + maxAge n)%Z else None)]>
      (if s_regenerated s then without else st)
  else st.

Lemma exec_bind {A B} (p : prog V A) (f : A → prog V B) w :
  exec ReadFull (pbind p f) w = let (a, w') := exec ReadFull p w in exec ReadFull (f a) w'.
Proof.
  revert w. induction p as [a|n k IH|k IH|id k IH|id st ttl k IH|id k IH]; cbn; intros w; try done.
  destruct (mem_Get _ _ _); done.
Qed.

Lemma exec_now {A} (p : prog V A) w : now (exec ReadFull p w).2 = now w.
Proof.
  revert w. induction p as [a|n k IH|k IH|id k IH|id st ttl k IH|id k IH]; cbn; intros w; rewrite ?IH; try done.
  destruct (mem_Get _ _ _). by rewrite IH.
Qed.

Local Notation server n := (storeBackend (V:=V) (W:=W) cookie_string n).

Lemma exec_cookie n value expire (w : W) wd :
  exec ReadFull (set_session_cookie (V:=V) cookie_string n value expire w) wd =
    ((exec ReadFull (set_session_cookie (V:=V) cookie_string n value expire w) wd).1, wd).
Proof.
  unfold set_session_cookie, buildSessionCookie. destruct expire; [done|]. by destruct (0 <? cookieMaxAgeSec n)%Z.
Qed.

Lemma commit_store n (l : local V W) wd : l_committed l = false →
  l_committed (exec ReadFull (commit (server n) l) wd).1 = true ∧
  store (exec ReadFull (commit (server n) l) wd).2 = committed n (l_sess l) (now wd) (store wd).
Proof.
  intros Hl. unfold commit, committed. rewrite Hl. set (s := l_sess l).
  destruct (s_destroyed s); [|destruct (shouldSave s); [|done]]; rewrite exec_bind; cbn [save destroy storeBackend].
  - unfold store_destroy. destruct (String.eqb_spec (s_oldID s) ""); cbn [negb andb];
      [|destruct (String.eqb_spec (s_oldID s) (s_id s)) as [Ho|]; cbn [negb]];
      cbn [exec]; rewrite exec_bind, exec_cookie; [done| |done]. cbn. unfold mem_Delete. rewrite Ho.
      split; [done|]. apply map_eq. intros i. by destruct (decide (i = s_id s)) as [->|]; rewrite ?lookup_delete_eq, ?lookup_delete_ne.
  - unfold store_save. destruct (s_regenerated s), (String.eqb_spec (s_oldID s) ""); cbn [negb andb exec];
      rewrite exec_bind, exec_cookie; done.
Qed.

(** A session method that only reads the random source. *)
Lemma regenerate_store (s : Session V) wd : store (exec ReadFull (Regenerate s) wd).2 = store wd.
Proof. unfold Regenerate. destruct (s_destroyed s); [done|]. done. Qed.
Lemma token_store (s : Session V) wd : store (exec ReadFull (CSRFToken s) wd).2 = store wd.
Proof. unfold CSRFToken. destruct (s_destroyed s); [done|]. destruct (negb _); [done|]. done. Qed.

(** Once the session is committed the store is left alone. *)
Lemma handle_committed n h (l : local V W) wd : l_committed l = true →
  l_committed (exec ReadFull (handle (server n) h l) wd).1.2 = true ∧
  store (exec ReadFull (handle (server n) h l) wd).2 = store wd.
Proof.
  revert l wd. induction h as [o|o h IH|k IH|key k IH|key v h IH|key h IH|key v h IH|key k IH|k IH|h IH|k IH];
    cbn [handle]; intros l wd Hl; try by apply IH.
  - done.
  - destruct o; cbn [sw_op pbind]; try by apply IH. all: unfold commit; rewrite Hl; by apply IH.
  - destruct (ConsumeFlash key (l_sess l)). by apply IH.
  - rewrite exec_bind. pose proof (regenerate_store (l_sess l) wd) as Hs.
    destruct (exec ReadFull (Regenerate (l_sess l)) wd) as [[err s] wd']. rewrite <-Hs. by apply IH.
  - rewrite exec_bind. pose proof (token_store (l_sess l) wd) as Hs.
    destruct (exec ReadFull (CSRFToken (l_sess l)) wd) as [[err s] wd']. rewrite <-Hs. by apply IH.
Qed.

Definition is_panic (o : outcome (option error)) : bool := match o with Panic _ => true | Ret _ => false end.

Lemma handle_write n o h (l : local V W) wd : l_committed l = false →
  let '(_, l', wd') := exec ReadFull (pbind (pbind (commit (server n) l) (λ l, Done (set_writer (do_op (l_writer l) o) l)))
    (handle (server n) h)) wd in
  l_committed l' = true ∧ store wd' = committed n (l_sess l) (now wd) (store wd).
Proof.
  intros Hl. rewrite !exec_bind. destruct (commit_store n l wd Hl) as [Hc Hs].
  destruct (exec ReadFull (commit (server n) l) wd) as [l1 wd1]. cbn [fst snd] in Hc, Hs. cbn [exec].
  destruct (handle_committed n h (set_writer (do_op (l_writer l1) o) l1) wd1 Hc) as [Hc2 Hs2].
  destruct (exec ReadFull (handle (server n) h _) wd1) as [[o' l'] wd']. cbn [fst snd] in Hc2, Hs2. by rewrite Hs2.
Qed.
Lemma handle_until n h (l : local V W) wd : l_committed l = false →
  let '(o, l', wd') := exec ReadFull (handle (server n) h l) wd in
  let '(s, panicked, _) := until_write h (l_sess l) wd in
  if l_committed l' then panicked = false ∧ store wd' = committed n s (now wd) (store wd)
  else l_sess l' = s ∧ store wd' = store wd ∧ panicked = is_panic o.
Proof.
  revert l wd. induction h as [o|o h IH|k IH|key k IH|key v h IH|key h IH|key v h IH|key k IH|k IH|h IH|k IH];
    cbn [handle until_write]; intros l wd Hl; try by apply IH.
  - destruct o; cbn; by rewrite Hl.
  - destruct o; cbn [sw_op pbind]; try by apply (IH (set_writer _ l)).
    + pose proof (handle_write n (OWriteHeader code) h l wd Hl) as Hw.
      destruct (exec _ _ _) as [[o' l'] wd']. destruct Hw as [-> ->]. done.
    + pose proof (handle_write n (OWrite b) h l wd Hl) as Hw.
      destruct (exec _ _ _) as [[o' l'] wd']. destruct Hw as [-> ->]. done.
  - destruct (ConsumeFlash key (l_sess l)). by apply (IH _ (set_sess _ l)).
  - rewrite exec_bind. pose proof (regenerate_store (l_sess l) wd) as Hs. pose proof (exec_now (Regenerate (l_sess l)) wd) as Hn.
    destruct (exec ReadFull (Regenerate (l_sess l)) wd) as [[err s] wd1]. cbn [fst snd] in Hs, Hn.
    specialize (IH err (set_sess s l) wd1 Hl). by rewrite Hs, Hn in IH.
  - rewrite exec_bind. pose proof (token_store (l_sess l) wd) as Hs. pose proof (exec_now (CSRFToken (l_sess l)) wd) as Hn.
    destruct (exec ReadFull (CSRFToken (l_sess l)) wd) as [[err s] wd1]. cbn [fst snd] in Hs, Hn.
    specialize (IH err (set_sess s l) wd1 Hl). by rewrite Hs, Hn in IH.
Qed.

Lemma with_session_store n h s (w : W) wd :
  let '(s', panicked, _) := until_write (h true) s wd in
  store (exec ReadFull (with_session (server n) h s w []) wd).2 =
    if panicked then store wd else committed n s' (now wd) (store wd).
Proof.
  unfold with_session. rewrite exec_bind. pose proof (handle_until n (h true) (MkLocal s w false []) wd eq_refl) as Hh.
  pose proof (exec_now (handle (server n) (h true) (MkLocal s w false [])) wd) as Hn.
  destruct (exec ReadFull (handle _ _ _) wd) as [[o l] wd']. cbn [l_sess fst snd] in Hh, Hn.
  destruct (until_write (h true) s wd) as [[s' panicked] wd1]. destruct (l_committed l) eqn:Hl.
  - destruct Hh as [-> Hs]. destruct o as [err|msg]; [|done]. rewrite exec_bind.
    unfold commit. by rewrite Hl.
  - destruct Hh as (Hs' & Hs & ->). destruct o as [err|msg]; [|done]. cbn [is_panic]. rewrite exec_bind.
    destruct (commit_store n l wd' Hl) as [_ Hc]. rewrite Hs', Hs, Hn in Hc.
    by destruct (exec ReadFull (commit (server n) l) wd').
Qed.

Lemma New_maxAge cfg n : New cfg = Some n → (0 < maxAge n)%Z.
Proof.
  unfold New. destruct (validateIDLength _); [|done]. intros [= <-]. cbn. destruct (Z.leb_spec (MaxAge cfg) 0); [done|lia].
Qed.

(** [C23] What a request leaves is what the next one finds: a request that runs alone gives its handler
    the stored session; what the handler has made of it at its first write (or at its end) decides the
    store: a destroyed session is forgotten, a changed one is kept under its id, and under no earlier
    one, an unchanged one leaves the store alone, as a panic does. A request with the cookie, before the
    session's time is over, finds exactly this session, flash values that were read excepted. *)
Theorem visit_kept cfg n cookie h (w : W) wd s wd0 : New cfg = Some n →
  exec ReadFull (load (server n) cookie) wd = (inl s, wd0) →
  let '(s', panicked, _) := until_write (h true) s wd0 in
  let after := store (exec ReadFull (native n (server n) false cookie h w) wd).2 in
  after = (if panicked then store wd0 else committed n s' (now wd0) (store wd0)) ∧
  ∀ t jar made, panicked = false → s_destroyed s' = false → shouldSave s' = true →
    (t ≤ now wd + maxAge n)%Z → jar (cookieName n) = Some (s_id s') → s_id s' ≠ "" →
    (exec ReadFull (load (server n) jar) (MkWorld t after made)).1 =
      inl (sessionFromStored (s_id s') (MkStored V (s_data s') (s_flash s') (s_csrf s')) (idLength n)).
Proof.
  intros Hcfg Hload. pose proof (New_maxAge _ _ Hcfg) as Hage.
  assert (now wd0 = now wd) as Hnow by (pose proof (exec_now (load (server n) cookie) wd) as Hn; by rewrite Hload in Hn).
  unfold native. rewrite exec_bind, Hload. pose proof (with_session_store n h s w wd0) as Hstore.
  destruct (until_write (h true) s wd0) as [[s' panicked] wd1]. cbn zeta. rewrite Hstore. split; [done|].
  intros t jar made -> Hd Hsave Ht Hjar Hid. cbn [load storeBackend]. unfold store_load. rewrite Hjar.
  apply String.eqb_neq in Hid as ->. cbn [exec]. unfold mem_Get, committed. cbn [now store]. rewrite Hd, Hsave, lookup_insert_eq.
  rewrite (proj2 (Z.ltb_lt 0 (maxAge n)) Hage). unfold expired. cbn [expiry]. by rewrite (proj2 (Z.ltb_ge (now wd0 + maxAge n) t)) by lia.
Qed.
End guarantees.

(** * The session in the cookie *)

Section sealed.
Context {V : Type} (ReadFull : nat → Z → string + error).
Context (Seal : string → string → string → string) (Open : string → string → string → option string).
Context (Marshal : Z → Stored V → string + error) (Unmarshal : string → option (Z * option (Stored V))).
(** AES-GCM opens what it has sealed under the same nonce and additional data, and nothing under other
    data; JSON reads back what it has written, the session being JSON-compatible. *)
Hypothesis Open_Seal : ∀ nonce plain aad, Open nonce (Seal nonce plain aad) aad = Some plain.
Hypothesis Open_other : ∀ nonce plain aad aad', aad ≠ aad' → Open nonce (Seal nonce plain aad) aad' = None.
Hypothesis Unmarshal_Marshal : ∀ t st plain, Marshal t st = inl plain → Unmarshal plain = Some (t, Some st).

(** A sealed session is read back until its time is over, and not under the name of another cookie. *)
Theorem sealed_kept n issued st c wd wd' t : exec ReadFull (Session.encode Seal Marshal n issued st) wd = (inl c, wd') →
  (∀ nonce, ReadFull (reads wd) 12 = inl nonce → String.length nonce = 12%nat) →
  (0 < maxAge n ≤ max_int64)%Z → (0 < issued)%Z → (t - issued * Second ≤ max_int64)%Z →
  (exec ReadFull (Session.decode Open Unmarshal n c) (MkWorld t (store wd') (reads wd'))).1 =
    (if (maxAge n <? t - issued * Second)%Z then None else Some (Some st)) ∧
  ∀ n' : normalized, cookieName n' ≠ cookieName n → exec ReadFull (Session.decode Open Unmarshal n' c) wd' = (None, wd').
Proof.
  unfold Session.encode. intros He Hlen Hage Hissued Ht. destruct (Marshal issued st) as [plain|err] eqn:Hm; [|done].
  change (Z.of_nat NonceSize) with 12%Z in He. cbn [exec] in He. destruct (ReadFull (reads wd) 12) as [nonce|err] eqn:Hr; [|done]. injection He as <- <-.
  specialize (Hlen nonce eq_refl). apply Unmarshal_Marshal in Hm.
  assert (take_bytes NonceSize (nonce +:+ Seal nonce plain (aadFor n)) = nonce) as Htake.
  { unfold NonceSize. rewrite <-Hlen. apply take_bytes_app. }
  assert (drop_bytes NonceSize (nonce +:+ Seal nonce plain (aadFor n)) = Seal nonce plain (aadFor n)) as Hdrop.
  { unfold NonceSize. rewrite <-Hlen. apply drop_bytes_app. }
  assert (String.length (nonce +:+ Seal nonce plain (aadFor n)) <? NonceSize = false)%nat as Hl.
  { apply Nat.ltb_ge. rewrite string_length_app. unfold NonceSize. lia. }
  split.
  - unfold Session.decode. rewrite Base64.decode_encode, Hl, Htake, Hdrop, Open_Seal, Hm.
    rewrite (proj2 (Z.ltb_lt 0 (maxAge n)) (proj1 Hage)), (proj2 (Z.ltb_lt 0 issued) Hissued). cbn [andb exec fst now].
    unfold Since. rewrite Z.min_r by done. destruct (Z.ltb_spec (maxAge n) (t - issued * Second)).
    + rewrite (proj2 (Z.ltb_lt _ _)); [done|]. lia.
    + rewrite (proj2 (Z.ltb_ge _ _)); [done|]. unfold min_int64. lia.
  - intros n' Hn. unfold Session.decode. rewrite Base64.decode_encode, Hl, Htake, Hdrop, Open_other; [done|].
    unfold aadFor. intros Ha. apply Hn. by injection Ha.
Qed.
End sealed.

(** * Examples and witnesses *)

Definition demo_config : Config := MkConfig "" 0 0 "" "" false false SameSiteZero None.
Definition demo_n : normalized := normalizeConfig demo_config.
Definition demo_read (i : nat) (len : Z) : string + error := inl (itoa (Z.of_nat i)).
Definition demo_server : sessionBackend string RW := storeBackend ck_Value demo_n.
Definition jar (value : string) (name : string) : option string :=
  if String.eqb name "_session" && negb (String.eqb value "") then Some value else None.
Definition demo_world : world string := MkWorld 1000 ∅ 0.
Definition visit (value : string) (h : script string) (w : world string) : RW * world string :=
  let '((_, rw, _), w) := exec demo_read (native demo_n demo_server false (jar value) (λ _, h) (new_RW ∅)) w in (rw, w).
Definition done : script string := Respond (OWrite "ok") (Finish (Ret None)).
(** The values under which the store holds the key user. *)
Definition users (w : world string) : list (string * option string) :=
  (λ ke : string * memEntry string, (ke.1, Data (stored ke.2) !! "user")) <$> map_to_list (store w).

(** The first visit signs a user in; the cookie is the first id that the server draws. *)
Definition signed_in : world string := (visit "" (ThenSet "user" "ann" done) demo_world).2.
Example first_visit :
  users signed_in = [(EncodeToString "0", Some "ann")] ∧
  final_header (visit "planted" (ThenSet "user" "ann" done) demo_world).1 !! "Set-Cookie" = Some [EncodeToString "0"].
Proof. by vm_compute. Qed.

(** What a handler does to its session after its first write is lost, [Destroy] included. *)
Example late_destroy :
  users (visit (EncodeToString "0") (Respond (OWrite "bye") (ThenDestroy (Finish (Ret None)))) signed_in).2 =
    [(EncodeToString "0", Some "ann")].
Proof. by vm_compute. Qed.

(** [Regenerate] keeps the session's CSRF token. *)
Example token_survives :
  let w := (visit "" (WithCSRFToken (λ _, done)) demo_world).2 in
  let w' := (visit (EncodeToString "0") (WithRegenerate (λ _, done)) w).2 in
  (λ ke : string * memEntry string, (ke.1, CSRF (stored ke.2))) <$> map_to_list (store w') =
    [(EncodeToString "2", EncodeToString "1")].
Proof. by vm_compute. Qed.

(** A request in progress that changes the session brings it back after a logout. *)
Definition demo_request (h : script string) : prog string (reply RW) :=
  native demo_n demo_server false (jar (EncodeToString "0")) (λ _, h) (new_RW ∅).
Definition demo_machine (evs : list (event string (reply RW))) : option (machine string (reply RW)) :=
  run demo_read evs (MkMachine signed_in []).
Example logout_undone :
  let evs := [Arrive (demo_request (ThenSet "page" "2" done)); Arrive (demo_request (ThenDestroy done));
              Advance 0; Advance 1; Advance 1; Advance 0] in
  (λ m, users (shared m)) <$> demo_machine evs = Some [(EncodeToString "0", Some "ann")].
Proof. by vm_compute. Qed.

Lemma run_reaches {V A : Type} ReadFull (arrives : prog V A → Prop) evs m m' :
  Forall (λ ev, match ev with Arrive p => arrives p | _ => True end) evs → run ReadFull evs m = Some m' →
  rtc (trans ReadFull arrives) m m'.
Proof.
  intros Ha. revert m. induction Ha as [|ev evs Hev _ IH]; cbn; intros m Hr; [by injection Hr as ->|].
  apply bind_Some in Hr as (m1 & Hs & Hr). eapply rtc_l; [|by apply IH]. by exists ev.
Qed.
Definition demo_run (evs : list (event string (reply RW))) (m : machine string (reply RW)) : machine string (reply RW) :=
  default m (run demo_read evs m).
Definition demo_visit (value : string) (h : script string) : event string (reply RW) :=
  Arrive (native demo_n demo_server false (jar value) (λ _, h) (new_RW ∅)).
Lemma demo_steps evs m : Forall (λ ev, match ev with Arrive p => arrives ck_Value p | _ => True end) evs →
  (if run demo_read evs m then true else false) = true →
  rtc (trans demo_read (arrives ck_Value)) m (demo_run evs m).
Proof. intros Ha Hr. unfold demo_run. destruct (run _ _ _) as [m'|] eqn:E; [|done]. by eapply run_reaches. Qed.
Lemma demo_arrives value h : arrives ck_Value (native demo_n demo_server false (jar value) (λ _, h) (new_RW ∅)).
Proof. by apply (arrives_native ck_Value demo_config). Qed.

(** A user signs in under a planted cookie; then signs out. *)
Definition sign_in : list (event string (reply RW)) :=
  [demo_visit "planted" (ThenSet "user" "ann" done); Advance 0; Advance 0; Advance 0; Advance 0].
Definition sign_out : list (event string (reply RW)) :=
  [demo_visit (EncodeToString "0") (ThenDestroy done); Advance 1; Advance 1].
Definition come_back : list (event string (reply RW)) :=
  [demo_visit (EncodeToString "0") (ThenSet "user" "eve" done); Advance 2; Advance 2; Advance 2; Advance 2].
Ltac demo_evs := repeat (constructor; [first [exact I|apply demo_arrives]|]); constructor.

Lemma no_fixation_witness : let m := demo_run sign_in (start 1000) in
  store (shared m) !! "planted" = None ∧ issued demo_read (reads (shared m)) (EncodeToString "0").
Proof.
  split; [vm_compute; reflexivity|].
  apply (no_fixation ck_Value demo_read (demo_run sign_in (start 1000)) (EncodeToString "0")).
  - exists 1000%Z. apply demo_steps; [demo_evs|vm_compute; reflexivity].
  - vm_compute. eexists. reflexivity.
Defined.

Lemma stays_dead_witness : let m := demo_run (sign_in ++ sign_out) (start 1000) in
  store (shared (demo_run come_back m)) !! EncodeToString "0" = None.
Proof.
  refine (proj1 (stays_dead ck_Value demo_read (demo_run (sign_in ++ sign_out) (start 1000)) _ (EncodeToString "0") _ _ _ _ _)).
  - intros i j n n' b Hi Hj. unfold demo_read, itoa in Hi, Hj. injection Hi as Hi. injection Hj as Hj.
    rewrite <-Hj in Hi. apply (inj (stdpp.pretty.pretty : Z → string)) in Hi. lia.
  - exists 0%nat, 0%Z, "0". split; [vm_compute; lia|split; reflexivity].
  - vm_compute. reflexivity.
  - intros [|[|i]] p Hp; vm_compute in Hp; [| |discriminate Hp]; injection Hp as <-; exact I.
  - apply demo_steps; [demo_evs|vm_compute; reflexivity].
Defined.

Lemma visit_kept_witness :
  (exec demo_read (load demo_server (jar (EncodeToString "0"))) (MkWorld 2000 (store signed_in) 7)).1 =
    inl (sessionFromStored (EncodeToString "0") (MkStored string {["user" := "ann"]} ∅ "") 32).
Proof.
  pose proof (visit_kept ck_Value demo_read demo_config demo_n (jar "") (λ _, ThenSet "user" "ann" done) (new_RW ∅) demo_world
    (newSession (EncodeToString "0") true 32) (MkWorld 1000 ∅ 1) eq_refl ltac:(vm_compute; reflexivity)) as Hk.
  apply (proj2 Hk 2000%Z (jar (EncodeToString "0")) 7%nat); vm_compute; congruence.
Defined.
