(* ===== verification/SecureCookie.v ===== *)
(** Signed and encrypted cookies (securecookie.go, context.go), with HMAC-SHA256 computed. *)
From S2P Require Import Prelude GoStrings Http Errors Sha256 Base64 Cookie HmacCanonical HmacAuth.
From S2P Require Import HmacCanonical HmacSigner.

(** * Errors *)

Definition ErrEmptySecret : error := ErrorText "aarv: signing secret must not be empty".
Definition ErrInvalidCookieSignature : error := ErrorText "aarv: invalid cookie signature".
Definition ErrCookieExpired : error := ErrorText "aarv: secure cookie expired".
Definition ErrInvalidCookieFormat : error := ErrorText "aarv: invalid secure cookie format".
Definition ErrInvalidEncryptionKey : error := ErrorText "aarv: encryption key must be 32 bytes".
Definition ErrCookieDecryptFailed : error := ErrorText "aarv: cookie decryption failed".
(** [http.ErrNoCookie]. *)
Definition ErrNoCookie : error := ErrorText "http: named cookie not present".

(** * Attributes *)

Record CookieOptions : Type := MkOptions {
  co_Path : string;
  co_Domain : string;
  co_MaxAge : Z;
  co_Secure : bool;
  co_DisableHttpOnly : bool;
  co_SameSite : SameSite
}.
Definition defaultCookieOptions : CookieOptions := MkOptions "/" "" 0 false false SameSiteLax.
Definition resolveCookieOptions (opts : option CookieOptions) : CookieOptions :=
  match opts with
  | None => defaultCookieOptions
  | Some o =>
      MkOptions (if String.eqb (co_Path o) "" then co_Path defaultCookieOptions else co_Path o) (co_Domain o) (co_MaxAge o)
        (co_Secure o) (co_DisableHttpOnly o)
        match co_SameSite o with SameSiteZero => co_SameSite defaultCookieOptions | s => s end
  end.
(** [now] in nanoseconds. *)
Definition buildHTTPCookie (now : Z) (name encodedValue : string) (o : CookieOptions) : Cookie :=
  let cookie expires age := MkCookie name encodedValue (co_Path o) (co_Domain o) expires age (co_Secure o)
    (negb (co_DisableHttpOnly o)) (co_SameSite o) in
  if (0 <? co_MaxAge o)%Z then cookie (Some (now + wrap64 (co_MaxAge o * Cookie.Second))%Z) (co_MaxAge o)
  else if (co_MaxAge o <? 0)%Z then cookie (Some Cookie.Second) (-1)%Z
  else cookie None 0%Z.

(** * Signing *)

(** What is signed, and its signature in hexadecimal. *)
Definition signed_text (name payload timestamp : string) : string := name +:+ "|" +:+ payload +:+ "|" +:+ timestamp.
Definition computeMAC (name payload timestamp secret : string) : string :=
  appendHex "" (hmac_sha256 secret (signed_text name payload timestamp)).
Definition encodeSignedAt (name payload secret : string) (unixTime : Z) : string :=
  payload +:+ "|" +:+ itoa unixTime +:+ "|" +:+ computeMAC name payload (itoa unixTime) secret.
Definition encodeSigned (now : Z) (name payload secret : string) : string :=
  encodeSignedAt name payload secret (now / Cookie.Second).
Definition decodeSigned (now : Z) (name raw secret : string) (maxAge : Z) : string + error :=
  match split_byte "|" raw with
  | [payload; tsStr; storedMAC] =>
      match ParseInt tsStr with
      | None => inr ErrInvalidCookieFormat
      | Some ts =>
          if negb (String.eqb storedMAC (computeMAC name payload tsStr secret)) then inr ErrInvalidCookieSignature
          else if (0 <? maxAge)%Z && (maxAge <? wrap64 (now / Cookie.Second - ts))%Z then inr ErrCookieExpired
          else inl payload
      end
  | _ => inr ErrInvalidCookieFormat
  end.

(** * Keys and encryption *)

Definition deriveKeys (masterKey : string) : (string * string) + error :=
  if negb (String.length masterKey =? 32)%nat then inr ErrInvalidEncryptionKey
  else inl (hmac_sha256 masterKey "aarv-cookie-enc", hmac_sha256 masterKey "aarv-cookie-mac").

Section cipher.
(** AES-256-GCM under a key, by nonce; [None] for a reading of the random source that fails. *)
Context (Seal : string → string → string → string) (Open : string → string → string → option string).

Definition gcmNonceSize : nat := 12.
Definition encryptValue (nonce : option string) (plaintext encKey : string) : string + error :=
  match nonce with
  | None => inr ErrCookieDecryptFailed
  | Some nonce => inl (EncodeToString (nonce +:+ Seal encKey nonce plaintext))
  end.
Definition decryptValue (encoded encKey : string) : string + error :=
  match Base64.DecodeString encoded with
  | None => inr ErrCookieDecryptFailed
  | Some data =>
      if (String.length data <? gcmNonceSize)%nat then inr ErrCookieDecryptFailed
      else match Open encKey (take_bytes gcmNonceSize data) (drop_bytes gcmNonceSize data) with
      | None => inr ErrCookieDecryptFailed
      | Some plaintext => inl plaintext
      end
  end.

(** * The methods of the context *)

Section context.
Context {W : Type} `{ResponseWriter W} (cookie_string : Cookie → string).

Definition SetSecureCookie (now : Z) (name value secret : string) (opts : option CookieOptions) (w : W) : option error * W :=
  if String.eqb secret "" then (Some ErrEmptySecret, w)
  else
    let encoded := encodeSigned now name (EncodeToString value) secret in
    (None, SetCookie cookie_string (buildHTTPCookie now name encoded (resolveCookieOptions opts)) w).
(** [cookie] gives the value of a cookie of the request. *)
Definition SecureCookie (now : Z) (cookie : string → option string) (name secret : string) (maxAge : Z) : string + error :=
  if String.eqb secret "" then inr ErrEmptySecret
  else match cookie name with
  | None => inr ErrNoCookie
  | Some raw =>
      match decodeSigned now name raw secret maxAge with
      | inr err => inr err
      | inl payload =>
          match Base64.DecodeString payload with
          | None => inr ErrInvalidCookieFormat
          | Some value => inl value
          end
      end
  end.
Definition SetEncryptedCookie (now : Z) (nonce : option string) (name value key : string) (opts : option CookieOptions)
    (w : W) : option error * W :=
  match deriveKeys key with
  | inr err => (Some err, w)
  | inl (encKey, macKey) =>
      match encryptValue nonce value encKey with
      | inr err => (Some err, w)
      | inl encrypted =>
          (None, SetCookie cookie_string (buildHTTPCookie now name (encodeSigned now name encrypted macKey)
            (resolveCookieOptions opts)) w)
      end
  end.
Definition EncryptedCookie (now : Z) (cookie : string → option string) (name key : string) (maxAge : Z) : string + error :=
  match deriveKeys key with
  | inr err => inr err
  | inl (encKey, macKey) =>
      match cookie name with
      | None => inr ErrNoCookie
      | Some raw =>
          match decodeSigned now name raw macKey maxAge with
          | inr err => inr err
          | inl encrypted => decryptValue encrypted encKey
          end
      end
  end.
End context.
End cipher.

(** * Laws

    Signed and encrypted cookies read back, and only under their own name, key and time. *)
Lemma split_three a b c : contains_byte "|" a = false → contains_byte "|" b = false → contains_byte "|" c = false →
  split_byte "|" (a +:+ "|" +:+ b +:+ "|" +:+ c) = [a; b; c].
Proof.
  intros Ha Hb Hc. change (a +:+ "|" +:+ b +:+ "|" +:+ c) with (join "|" [a; b; c]).
  apply (split_join "|"); [done|]. by repeat constructor.
Qed.

Lemma split_byte_free c s : Forall (λ p, contains_byte c p = false) (split_byte c s).
Proof.
  induction s as [|a s IH]; [by repeat constructor|]. cbn. destruct (Ascii.eqb a c) eqn:E; [by constructor|].
  destruct (split_byte c s) as [|p l]; [repeat constructor; by rewrite contains_byte_cons, E|].
  apply Forall_cons_iff in IH as [Hp Hl]. constructor; [|done]. by rewrite contains_byte_cons, E.
Qed.

(** The last separator of a text. *)
Lemma last_bar a a' b b' : contains_byte "|" b = false → contains_byte "|" b' = false →
  a +:+ "|" +:+ b = a' +:+ "|" +:+ b' → a = a' ∧ b = b'.
Proof.
  assert (∀ x y : string, contains_byte "|" (x +:+ "|" +:+ y) = true) as Hbar.
  { intros x y. rewrite !contains_byte_app. cbn. by rewrite orb_true_r. }
  intros Hb Hb'. revert a'. induction a as [|c a IH]; intros [|c' a'] He.
  - by injection He.
  - injection He as _ He. change (b = a' +:+ "|" +:+ b') in He. subst b. by rewrite Hbar in Hb.
  - injection He as _ He. change (a +:+ "|" +:+ b = b') in He. subst b'. by rewrite Hbar in Hb'.
  - injection He as -> He. by destruct (IH a' He) as [-> ->].
Qed.
Lemma signed_text_inj n n' p p' t t' : contains_byte "|" p = false → contains_byte "|" p' = false →
  contains_byte "|" t = false → contains_byte "|" t' = false →
  signed_text n p t = signed_text n' p' t' → n = n' ∧ p = p' ∧ t = t'.
Proof.
  assert (∀ n p t, signed_text n p t = (n +:+ "|" +:+ p) +:+ "|" +:+ t) as Hs.
  { intros. unfold signed_text. by rewrite !string_app_assoc. }
  rewrite !Hs. intros Hp Hp' Ht Ht' [He ->]%last_bar; [|done..]. by apply last_bar in He as [-> ->].
Qed.

Lemma appendHex_no_bar s : contains_byte "|" (appendHex "" s) = false.
Proof.
  induction s as [|c s IH]; [done|]. rewrite appendHex_bytes, !contains_byte_cons, IH.
  destruct c as [[] [] [] [] [] [] [] []]; reflexivity.
Qed.

Lemma bar_digits s z : decimal z s ≠ None → contains_byte "|" s = false.
Proof.
  revert z. induction s as [|a s IH]; intros z; [done|]. cbn [decimal]. rewrite contains_byte_cons.
  destruct (is_digit a) eqn:Ha; [|done]. intros Hz. rewrite (IH _ Hz), orb_false_r. apply Ascii.eqb_neq. by intros ->.
Qed.
Lemma itoa_no_bar z : (0 < z <= max_int64)%Z → contains_byte "|" (itoa z) = false.
Proof.
  intros Hz. apply ParseInt_itoa in Hz. revert Hz. generalize (itoa z) as s. intros s. unfold ParseInt.
  assert (∀ s x, digits_of s = Some x → contains_byte "|" s = false) as Hd.
  { intros r x. unfold digits_of. destruct (String.eqb_spec r "") as [->|]; [done|]. intros Hr. apply (bar_digits r 0). congruence. }
  destruct s as [|[[] [] [] [] [] [] [] []] s]; intros (x & Hx & _)%bind_Some; try (by eapply Hd).
  all: rewrite contains_byte_cons; cbn; try (by eapply Hd).
  apply fmap_Some in Hx as (y & Hy & _). by eapply Hd.
Qed.

(** * The guarantees *)

Lemma decodeSigned_inl now name raw secret maxAge payload : decodeSigned now name raw secret maxAge = inl payload ↔
  ∃ tsStr ts, raw = payload +:+ "|" +:+ tsStr +:+ "|" +:+ computeMAC name payload tsStr secret ∧
    contains_byte "|" payload = false ∧ contains_byte "|" tsStr = false ∧ ParseInt tsStr = Some ts ∧
    ((0 < maxAge)%Z → (wrap64 (now / Cookie.Second - ts) ≤ maxAge)%Z).
Proof.
  unfold decodeSigned. split.
  - pose proof (join_split "|" raw) as Hj. pose proof (split_byte_free "|" raw) as Hf.
    destruct (split_byte "|" raw) as [|p [|tsStr [|mac [|? ?]]]]; try done.
    destruct (ParseInt tsStr) as [ts|] eqn:Ets; [|done].
    destruct (String.eqb_spec mac (computeMAC name p tsStr secret)) as [->|]; [cbn [negb]|done].
    destruct ((0 <? maxAge)%Z && _) eqn:Eage; [done|]. intros [= <-]. exists tsStr, ts.
    apply Forall_cons_iff in Hf as [Hp [Ht _]%Forall_cons_iff]. split_and!; [done..|].
    intros Hpos. rewrite (proj2 (Z.ltb_lt _ _) Hpos) in Eage. by apply Z.ltb_ge in Eage.
  - intros (tsStr & ts & -> & Hp & Ht & Hts & Hage). rewrite split_three by (done || apply appendHex_no_bar).
    rewrite Hts, String.eqb_refl. cbn [negb]. destruct (Z.ltb_spec 0 maxAge); [|done].
    by rewrite (proj2 (Z.ltb_ge _ _)) by auto.
Qed.

(** [C32] A signed cookie is accepted exactly if it is a payload and a time with the HMAC-SHA256 of the
    cookie's name, the payload and the time under the secret, and its time is not over. So a cookie
    that is accepted under a second name has a signature that is the HMAC both of the text with the
    first name and of the other text with the second, its payload and its time the same. *)
Theorem signed_cookie_genuine now jar name raw secret maxAge value : secret ≠ "" → jar name = Some raw →
  (SecureCookie now jar name secret maxAge = inl value ↔
    ∃ payload tsStr ts,
      raw = payload +:+ "|" +:+ tsStr +:+ "|" +:+ appendHex "" (hmac_sha256 secret (name +:+ "|" +:+ payload +:+ "|" +:+ tsStr)) ∧
      contains_byte "|" payload = false ∧ contains_byte "|" tsStr = false ∧
      ParseInt tsStr = Some ts ∧ Base64.DecodeString payload = Some value ∧
      ((0 < maxAge)%Z → (wrap64 (now / Cookie.Second - ts) ≤ maxAge)%Z)) ∧
  ∀ now' name' value', SecureCookie now jar name secret maxAge = inl value → name' ≠ name → jar name' = Some raw →
    SecureCookie now' jar name' secret maxAge = inl value' →
    ∃ payload tsStr mac, split_byte "|" raw = [payload; tsStr; appendHex "" mac] ∧
      name +:+ "|" +:+ payload +:+ "|" +:+ tsStr ≠ name' +:+ "|" +:+ payload +:+ "|" +:+ tsStr ∧
      mac = hmac_sha256 secret (name +:+ "|" +:+ payload +:+ "|" +:+ tsStr) ∧
      mac = hmac_sha256 secret (name' +:+ "|" +:+ payload +:+ "|" +:+ tsStr).
Proof.
  intros Hsec Hjar. apply String.eqb_neq in Hsec.
  assert (∀ now name value, jar name = Some raw → SecureCookie now jar name secret maxAge = inl value ↔
    ∃ payload, decodeSigned now name raw secret maxAge = inl payload ∧ Base64.DecodeString payload = Some value) as Hread.
  { intros now0 name0 value0 Hj. unfold SecureCookie. rewrite Hsec, Hj.
    destruct (decodeSigned now0 name0 raw secret maxAge) as [p|err]; [|split; [done|by intros (? & ? & _)]].
    destruct (Base64.DecodeString p) as [v|] eqn:Ev; split.
    - intros [= <-]. eauto.
    - intros (? & [= <-] & Hv). congruence.
    - done.
    - intros (? & [= <-] & Hv). congruence. }
  split.
  - rewrite Hread by done. split.
    + intros (p & (tsStr & ts & ? & ? & ? & ? & ?)%decodeSigned_inl & Hv). eauto 10.
    + intros (p & tsStr & ts & ? & ? & ? & ? & Hv & ?). exists p. rewrite decodeSigned_inl. eauto 10.
  - intros now' name' value' (p & (t & ts & Hraw & Hp & Ht & _)%decodeSigned_inl & _)%Hread Hne Hjar'
      (p' & (t' & ts' & Hraw' & Hp' & Ht' & _)%decodeSigned_inl & _)%Hread; [|done..].
    rewrite Hraw in Hraw'. pose proof (split_three p t _ Hp Ht (appendHex_no_bar (hmac_sha256 secret (signed_text name p t)))) as Hs.
    unfold computeMAC in Hraw'. rewrite Hraw', split_three in Hs by (done || apply appendHex_no_bar). injection Hs as -> -> Hmac.
    apply appendHex_inj in Hmac. exists p, t, (hmac_sha256 secret (signed_text name p t)).
    rewrite Hraw. split; [apply split_three; done || apply appendHex_no_bar|]. split; [|by split].
    intros He%(signed_text_inj name name'); [|done..]. by destruct He as [-> _].
Qed.

Lemma decode_encodeSigned now now' name payload secret maxAge : contains_byte "|" payload = false →
  (0 < now / Cookie.Second ≤ max_int64)%Z → (0 ≤ now' / Cookie.Second - now / Cookie.Second ≤ max_int64)%Z →
  decodeSigned now' name (encodeSigned now name payload secret) secret maxAge =
    if (0 <? maxAge)%Z && (maxAge <? now' / Cookie.Second - now / Cookie.Second)%Z then inr ErrCookieExpired else inl payload.
Proof.
  intros Hp Hts Hage. unfold encodeSigned, encodeSignedAt, decodeSigned.
  rewrite split_three by (done || apply appendHex_no_bar || by apply itoa_no_bar).
  rewrite ParseInt_itoa by done. rewrite String.eqb_refl. cbn [negb]. rewrite wrap64_small; [done|].
  unfold in_int64, min_int64. lia.
Qed.
Lemma ck_Value_build now name v o : ck_Value (buildHTTPCookie now name v o) = v.
Proof. unfold buildHTTPCookie. by destruct (0 <? co_MaxAge o)%Z, (co_MaxAge o <? 0)%Z. Qed.

(** What is set is read back: the value of a signed or encrypted cookie is the one that was set, by
    the same name and secret, until the server's time for it is over, whatever attributes it has. *)
Theorem cookies_read_back {W : Type} `{ResponseWriter W} (cookie_string : Cookie → string)
    (Seal : string → string → string → string) (Open : string → string → string → option string)
    now now' name value key nonce maxAge opts (w : W) :
  (∀ k n p, Open k n (Seal k n p) = Some p) → String.length nonce = 12%nat →
  (0 < now / Cookie.Second ≤ max_int64)%Z → (0 ≤ now' / Cookie.Second - now / Cookie.Second ≤ max_int64)%Z →
  let result := if (0 <? maxAge)%Z && (maxAge <? now' / Cookie.Second - now / Cookie.Second)%Z
                then inr ErrCookieExpired else inl value in
  (key ≠ "" → ∃ c, SetSecureCookie cookie_string now name value key opts w = (None, SetCookie cookie_string c w) ∧
    ∀ jar, jar name = Some (ck_Value c) → SecureCookie now' jar name key maxAge = result) ∧
  (String.length key = 32%nat →
    ∃ c, SetEncryptedCookie Seal cookie_string now (Some nonce) name value key opts w = (None, SetCookie cookie_string c w) ∧
    ∀ jar, jar name = Some (ck_Value c) → EncryptedCookie Open now' jar name key maxAge = result).
Proof.
  intros Hopen Hnonce Hts Hage. split.
  - intros Hkey%String.eqb_neq. unfold SetSecureCookie. rewrite Hkey. eexists. split; [done|].
    intros jar Hjar. unfold SecureCookie. rewrite Hkey, Hjar, ck_Value_build, decode_encodeSigned by (done || apply encode_no_bar).
    destruct (_ && _); [done|]. by rewrite Base64.decode_encode.
  - intros Hlen. unfold SetEncryptedCookie, EncryptedCookie, deriveKeys. rewrite Hlen. cbn [Nat.eqb negb encryptValue].
    eexists. split; [done|]. intros jar ->. rewrite ck_Value_build, decode_encodeSigned by (done || apply encode_no_bar).
    destruct (_ && _); [done|]. unfold decryptValue. rewrite Base64.decode_encode, string_length_app, Hnonce.
    unfold gcmNonceSize. rewrite (proj2 (Nat.ltb_ge _ _)) by lia. rewrite <-Hnonce, take_bytes_app, drop_bytes_app.
    by rewrite Hopen.
Qed.

(** * Witnesses *)

Definition demo_seal (k n p : string) : string := p.
Definition demo_open (k n c : string) : option string := Some c.
Definition demo_now : Z := 1700000000 * Cookie.Second.
Definition demo_cookie : Cookie :=
  buildHTTPCookie demo_now "id" (encodeSigned demo_now "id" (EncodeToString "ann") "secret") (resolveCookieOptions None).

Lemma signed_cookie_genuine_witness :
  SecureCookie demo_now (λ _, Some (ck_Value demo_cookie)) "id" "secret" 60 = inl "ann" ∧
  SecureCookie demo_now (λ _, Some (ck_Value demo_cookie)) "role" "secret" 60 ≠ inl "ann".
Proof.
  split; [|vm_compute; discriminate].
  apply (proj1 (signed_cookie_genuine demo_now (λ _, Some (ck_Value demo_cookie)) "id" (ck_Value demo_cookie) "secret" 60 "ann"
    ltac:(discriminate) eq_refl)).
  exists (EncodeToString "ann"), "1700000000", 1700000000%Z.
  split; [vm_compute; reflexivity|]. repeat (split; [vm_compute; reflexivity|]). intros _. vm_compute. discriminate.
Defined.

Lemma cookies_read_back_witness :
  ∃ c, SetSecureCookie ck_Value demo_now "id" "ann" "secret" None (new_RW ∅) = (None, SetCookie ck_Value c (new_RW ∅)) ∧
    ∀ jar, jar "id" = Some (ck_Value c) → SecureCookie (demo_now + 61 * Cookie.Second) jar "id" "secret" 60 = inr ErrCookieExpired.
Proof.
  apply (proj1 (cookies_read_back ck_Value demo_seal demo_open demo_now (demo_now + 61 * Cookie.Second) "id" "ann" "secret"
    "twelve bytes" 60 None (new_RW ∅) (λ _ _ _, eq_refl) eq_refl ltac:(split; vm_compute; congruence) ltac:(split; vm_compute; congruence))).
  discriminate.
Defined.
