(* ===== verification/Csrf.v ===== *)
(** Protection against forged requests (plugins/csrf/csrf.go): tokens in a cookie, sent a second time by
    the page. *)
From S2P Require Import Prelude GoStrings Http Errors Base64 Cookie.
From stdpp Require Import gmap.

(** * Configuration *)

(** [Config]; a slice that may be nil is an option. An error handler gives what it does to the writer and
    its error. *)
Record Config : Type := MkConfig {
  CookieName : string;
  HeaderName : string;
  FormField : string;
  TokenLength : Z;
  CookiePath : string;
  CookieDomain : string;
  CookieMaxAge : Z;
  CookieSecure : bool;
  CookieHTTPOnly : bool;
  CookieSameSite : SameSite;
  SafeMethods : option (list string);
  SkipPaths : list string;
  ErrorHandler : option (string → list wop * option error)
}.
Definition DefaultConfig : Config :=
  MkConfig "_csrf" "X-CSRF-Token" "" 32 "/" "" (12 * 60 * 60) true false SameSiteLax None [] None.

Record normalized : Type := MkNormalized {
  cookieName : string;
  headerName : string;
  formField : string;
  tokenLength : Z;
  cookiePath : string;
  cookieDomain : string;
  cookieMaxAge : Z;
  cookieSecure : bool;
  cookieHTTPOnly : bool;
  cookieSameSite : SameSite;
  safeMethods : gset string;
  skipPaths : gset string;
  errFn : option (string → list wop * option error)
}.
Definition or_default (s d : string) : string := if String.eqb s "" then d else s.
(** [None] for a panic. *)
Definition normalize (cfg : Config) : option normalized :=
  let len := if (TokenLength cfg =? 0)%Z then 32%Z else TokenLength cfg in
  if (len <? 16)%Z then None
  else Some (MkNormalized
    (or_default (CookieName cfg) "_csrf") (or_default (HeaderName cfg) "X-CSRF-Token") (FormField cfg) len
    (or_default (CookiePath cfg) "/") (CookieDomain cfg)
    (if (CookieMaxAge cfg =? 0)%Z then 12 * 60 * 60 else CookieMaxAge cfg)%Z (CookieSecure cfg) (CookieHTTPOnly cfg)
    match CookieSameSite cfg with SameSiteZero => SameSiteLax | s => s end
    (list_to_set (default ["GET"; "HEAD"; "OPTIONS"; "TRACE"] (SafeMethods cfg)))
    (list_to_set (SkipPaths cfg)) (ErrorHandler cfg)).

(** * Tokens *)

(** [bytes] is what the random source fills the buffer with. *)
Definition generateToken (bytes : string + error) : string + error :=
  match bytes with inl b => inl (EncodeToString b) | inr err => inr err end.
Definition tokensEqual (a b : string) : bool :=
  match DecodeString a, DecodeString b with
  | Some ab, Some bb => String.eqb ab bb
  | _, _ => false
  end.

(** * The middleware *)

(** What the middleware reads of a request: its cookies, headers and form, the answer of the skipper, and
    whether it has a context, with its request id. *)
Record request : Type := MkRequest {
  q_Method : string;
  q_Path : string;
  q_cookie : string → option string;
  q_Header : header;
  q_form : string → string;
  q_skipper : bool;
  q_ctx : option string
}.

Section middleware.
Context {W : Type} `{ResponseWriter W}.
Context (cookie_string : Cookie → string) (status_text : Z → string) (json_encode : payload → string).
(** The random source and the clock at this request. *)
Context (bytes : string + error) (now : Z).

(** The rest of the chain, given the token in the context. *)
Definition Next : Type := option string → W → outcome (option error) * W.

Definition shouldSkip (n : normalized) (q : request) : bool := bool_decide (q_Path q ∈ skipPaths n) || q_skipper q.

Definition token_cookie (n : normalized) (token : string) : Cookie :=
  MkCookie (cookieName n) token (cookiePath n) (cookieDomain n) (Some (now + wrap64 (cookieMaxAge n * Second))%Z)
    (cookieMaxAge n) (cookieSecure n) (cookieHTTPOnly n) (cookieSameSite n).
(** The value of the request's cookie, if it is there and not empty. *)
Definition cookie_value (n : normalized) (q : request) : option string :=
  v ← q_cookie q (cookieName n); if String.eqb v "" then None else Some v.
Definition ensureToken (n : normalized) (q : request) (w : W) : (string + error) * W :=
  match cookie_value n q with
  | Some v => (inl v, w)
  | None =>
      match generateToken bytes with
      | inr err => (inr err, w)
      | inl token => (inl token, SetCookie cookie_string (token_cookie n token) w)
      end
  end.

Definition codeForStatus (status : Z) : string := if (status =? 403)%Z then "forbidden" else status_text status.
Definition writeJSONError (status : Z) (message rid : string) (w : W) : W :=
  run_ops [HSet "Content-Type" "application/json; charset=utf-8"; OWriteHeader status;
           OWrite (json_encode (PError (codeForStatus status) message "" rid))] w.
Definition failed : string := "CSRF token validation failed".

Definition rejectNative (n : normalized) (reason : string) (w : W) : outcome (option error) * W :=
  match errFn n with
  | Some f => let (ops, err) := f reason in (Ret err, run_ops ops w)
  | None => (Ret (Some (AsApp (WithDetail reason (NewError 403 "forbidden" failed)))), w)
  end.
Definition rejectStdlib (n : normalized) (q : request) (reason : string) (w : W) : outcome (option error) * W :=
  match q_ctx q, errFn n with
  | Some rid, Some f =>
      let (ops, err) := f reason in
      let w := run_ops ops w in
      (Ret None, match err with Some _ => writeJSONError 403 failed rid w | None => w end)
  | ctx, _ => (Ret None, writeJSONError 403 failed (default "" ctx) w)
  end.

Definition submitted (n : normalized) (q : request) : string :=
  let t := header_get (headerName n) (q_Header q) in
  if String.eqb t "" && negb (String.eqb (formField n) "") then q_form q (formField n) else t.
(** The checks of an unsafe request: the token, or the reason against it. *)
Definition check (n : normalized) (q : request) : string + string :=
  match cookie_value n q with
  | None => inr "missing CSRF cookie"
  | Some v =>
      if String.eqb (submitted n q) "" then inr "missing CSRF token"
      else if negb (tokensEqual v (submitted n q)) then inr "CSRF token mismatch"
      else inl v
  end.

Definition native (n : normalized) (q : request) (next : Next) (w : W) : outcome (option error) * W :=
  if shouldSkip n q then next None w
  else if bool_decide (q_Method q ∈ safeMethods n) then
    match ensureToken n q w with
    | (inr err, w) => (Ret (Some (AsApp (WithDetail "csrf: failed to issue token" (ErrInternal (Some err))))), w)
    | (inl token, w) => next (Some token) w
    end
  else match check n q with
  | inr reason => rejectNative n reason w
  | inl token => next (Some token) w
  end.
Definition stdlib (n : normalized) (q : request) (next : Next) (w : W) : outcome (option error) * W :=
  let in_ctx token := match q_ctx q with Some _ => Some token | None => None end in
  if match q_ctx q with Some _ => shouldSkip n q | None => false end then next None w
  else if bool_decide (q_Method q ∈ safeMethods n) then
    match ensureToken n q w with
    | (inr _, w) => (Ret None, writeJSONError 500 "csrf: failed to issue token" "" w)
    | (inl token, w) => next (in_ctx token) w
    end
  else match check n q with
  | inr reason => rejectStdlib n q reason w
  | inl token => next (in_ctx token) w
  end.
End middleware.

(** * What it protects *)

Section guarantees.
Context {W : Type} `{ResponseWriter W}.
Context (cookie_string : Cookie → string) (status_text : Z → string) (json_encode : payload → string).

(** The request shows a token twice: in its cookie, and in its header or form, as the same bytes. *)
Definition shows_token (n : normalized) (q : request) : Prop :=
  ∃ v b, cookie_value n q = Some v ∧ DecodeString v = Some b ∧ submitted n q ≠ "" ∧ DecodeString (submitted n q) = Some b.

Lemma check_spec n q : match check n q with
  | inl v => shows_token n q ∧ cookie_value n q = Some v
  | inr _ => ¬ shows_token n q
  end.
Proof.
  unfold check, shows_token, tokensEqual. destruct (cookie_value n q) as [v|]; [|by intros (? & ? & ? & _)].
  destruct (String.eqb_spec (submitted n q) "") as [->|Hs]; [by intros (? & ? & _ & _ & ? & _)|].
  destruct (DecodeString v) as [a|] eqn:Ea; [|intros (? & ? & [= <-] & ? & _); congruence].
  destruct (DecodeString (submitted n q)) as [b|] eqn:Eb; [|intros (? & ? & _ & _ & _ & ?); congruence].
  destruct (String.eqb_spec a b) as [->|Hab]; cbn [negb]; [split; [|done]; by exists v, b|].
  intros (? & ? & [= <-] & ? & _ & ?). congruence.
Qed.

(** [C33] The rest of the chain runs for an unsafe request that is not skipped exactly if the request
    shows the token of its cookie a second time; a request that does not is answered the same whatever
    the chain would do. And a page can show it: the token that a safe request without a cookie is given,
    in its context and its cookie, lets the next request pass. *)
Theorem unsafe_shows_token bytes now n q (w : W) : shouldSkip n q = false → q_Method q ∉ safeMethods n →
  (shows_token n q → ∃ token, cookie_value n q = Some token ∧ ∀ next,
    native cookie_string bytes now n q next w = next (Some token) w ∧
    ∃ seen, stdlib cookie_string status_text json_encode bytes now n q next w = next seen w) ∧
  (¬ shows_token n q → ∀ next next',
    native cookie_string bytes now n q next w = native cookie_string bytes now n q next' w ∧
    stdlib cookie_string status_text json_encode bytes now n q next w =
      stdlib cookie_string status_text json_encode bytes now n q next' w) ∧
  ∀ token w' q0, ensureToken cookie_string bytes now n q0 w = (inl token, w') → cookie_value n q0 = None → token ≠ "" →
    w' = SetCookie cookie_string (token_cookie now n token) w ∧
    (q_cookie q (cookieName n) = Some token → header_get (headerName n) (q_Header q) = token → shows_token n q).
Proof.
  intros Hskip Hmethod. unfold native, stdlib. rewrite Hskip, bool_decide_false by done.
  assert ((match q_ctx q with Some _ => false | None => false end) = false) as -> by by destruct (q_ctx q).
  pose proof (check_spec n q) as Hc. split_and!.
  - intros Hs. destruct (check n q) as [v|reason]; [|done]. destruct Hc as [_ Hv]. exists v. split; [done|]. eauto.
  - intros Hs next next'. destruct (check n q) as [v|reason]; [by destruct Hs, Hc|done].
  - intros token w' q0 He Hnone Hne. unfold ensureToken in He. rewrite Hnone in He.
    destruct bytes as [b|err]; [|done]. cbn in He. injection He as <- <-. split; [done|].
    intros Hcookie Hheader. exists (EncodeToString b), b. unfold cookie_value, submitted. rewrite Hcookie, Hheader. cbn.
    apply String.eqb_neq in Hne as He. rewrite He. cbn [andb]. by rewrite Base64.decode_encode.
Qed.
End guarantees.

Definition demo_n : normalized := default (MkNormalized "" "" "" 0 "" "" 0 false false SameSiteZero ∅ ∅ None) (normalize DefaultConfig).
Definition demo_request (cookie token : string) : request :=
  MkRequest "POST" "/pay" (λ _, Some cookie) (header_set "X-CSRF-Token" token ∅) (λ _, "") false None.

Lemma unsafe_shows_token_witness :
  ∃ token, ∀ next, native ck_Value (inl "") 0 demo_n (demo_request "AAEC" "AAEC") next (new_RW ∅) = next (Some token) (new_RW ∅).
Proof.
  destruct (unsafe_shows_token ck_Value (λ _, "") (λ _, "") (inl "") 0 demo_n (demo_request "AAEC" "AAEC") (new_RW ∅)
    ltac:(vm_compute; reflexivity) ltac:(vm_decide)) as [H _].
  destruct H as (token & _ & H).
  - exists "AAEC", (of_codes [0; 1; 2]%Z). split; [vm_compute; reflexivity|]. split; [vm_compute; reflexivity|].
    split; [discriminate|vm_compute; reflexivity].
  - exists token. intros next. apply H.
Defined.

(** A cookie that is no token is never replaced: safe requests keep it, and unsafe ones are refused with it. *)
Example garbage_cookie_kept :
  ensureToken ck_Value (inl "x") 0 demo_n (demo_request "not-a-token!" "") (new_RW ∅) = (inl "not-a-token!", new_RW ∅) ∧
  check demo_n (demo_request "not-a-token!" "not-a-token!") = inr "CSRF token mismatch".
Proof. by vm_compute. Qed.
