(* ===== verification/Cors.v ===== *)
(** Cross-origin requests (plugins/cors/cors.go). *)
From S2P Require Import Prelude GoStrings Http.
From stdpp Require Import gmap.

Record Config : Type := MkConfig {
  AllowOrigins : list string;
  AllowMethods : list string;
  AllowHeaders : list string;
  ExposeHeaders : list string;
  AllowCredentials : bool;
  MaxAge : Z;
  AllowOriginFunc : option (string → bool)
}.
Definition DefaultConfig : Config :=
  MkConfig ["*"] ["GET"; "POST"; "PUT"; "DELETE"; "PATCH"; "HEAD"; "OPTIONS"]
    ["Origin"; "Content-Type"; "Accept"; "Authorization"] [] false 0 None.

(** What [New] computes once; [None] for its panic. *)
Record policy : Type := MkPolicy {
  allowAll : bool;
  isOriginAllowed : string → bool;
  credentials : bool;
  allowMethodsStr : string;
  allowHeadersStr : string;
  exposeHeadersStr : string;
  maxAgeStr : string
}.
Definition or_list (l d : list string) : list string := match l with [] => d | _ => l end.
Definition New (config : option Config) : option policy :=
  let cfg := default DefaultConfig config in
  let all := existsb (String.eqb "*") (AllowOrigins cfg) in
  if all && AllowCredentials cfg then None
  else Some (MkPolicy all
    (λ origin, all || match AllowOriginFunc cfg with
                      | Some f => f origin
                      | None => bool_decide (origin ∈ AllowOrigins cfg)
                      end)
    (AllowCredentials cfg)
    (GoStrings.join ", " (or_list (AllowMethods cfg) (AllowMethods DefaultConfig)))
    (GoStrings.join ", " (or_list (AllowHeaders cfg) (AllowHeaders DefaultConfig)))
    (GoStrings.join ", " (ExposeHeaders cfg))
    (if (0 <? MaxAge cfg)%Z then itoa (MaxAge cfg) else "")).

(** The fields that the answer to an allowed origin carries. *)
Definition origin_fields (p : policy) (origin : string) : list wop :=
  (if allowAll p && negb (credentials p) then [HSet "Access-Control-Allow-Origin" "*"]
   else [HSet "Access-Control-Allow-Origin" origin; HAdd "Vary" "Origin"]) ++
  (if credentials p then [HSet "Access-Control-Allow-Credentials" "true"] else []) ++
  (if String.eqb (exposeHeadersStr p) "" then [] else [HSet "Access-Control-Expose-Headers" (exposeHeadersStr p)]).
Definition preflight_fields (p : policy) : list wop :=
  [HSet "Access-Control-Allow-Methods" (allowMethodsStr p); HSet "Access-Control-Allow-Headers" (allowHeadersStr p)] ++
  (if String.eqb (maxAgeStr p) "" then [] else [HSet "Access-Control-Max-Age" (maxAgeStr p)]).

(** The middleware, in both forms: what it does to the writer, and whether it goes on. The native form
    answers a preflight through [NoContent], which writes the same status. *)
Definition handle {W : Type} `{ResponseWriter W} (p : policy) (method : string) (h : header) (w : W) : bool * W :=
  let origin := header_get "Origin" h in
  if String.eqb origin "" then (true, w)
  else if negb (isOriginAllowed p origin) then (true, w)
  else
    let w := run_ops (origin_fields p origin) w in
    if String.eqb method "OPTIONS" then (false, run_ops (preflight_fields p ++ [OWriteHeader 204]) w)
    else (true, w).

(** * What a browser is told *)

Definition field_op (o : wop) : Prop := match o with HSet _ _ | HAdd _ _ => True | _ => False end.
Definition op_name (o : wop) : string := match o with HSet k _ | HAdd k _ => CanonicalHeaderKey k | _ => "" end.

(** Fields set before a writer has sent anything are what it sends. *)
Lemma fields_sent ops h : Forall field_op ops →
  final_header (run_ops ops (new_RW h)) = ops_header ops h ∧
  final_header (run_ops [OWriteHeader 204] (run_ops ops (new_RW h))) = ops_header ops h.
Proof.
  intros Hops. assert (run_ops ops (new_RW h) = new_RW (ops_header ops h)) as ->; [|done].
  revert h. induction Hops as [|o ops Ho _ IH]; intros h; [done|].
  rewrite run_ops_cons. destruct o; try done; apply IH.
Qed.

Lemma field_last k v ops h : Forall field_op ops → Forall (λ o, op_name o ≠ CanonicalHeaderKey k) ops →
  ops_header (HSet k v :: ops) h !! CanonicalHeaderKey k = Some [v].
Proof.
  intros Hf Hops. unfold ops_header. cbn [foldl header_op].
  assert (header_set k v h !! CanonicalHeaderKey k = Some [v]) as Hh by (unfold header_set; by rewrite lookup_insert_eq).
  revert Hh. generalize (header_set k v h) as h'. induction Hops as [|o ops Ho _ IH]; intros h' Hh'; [done|].
  inversion Hf; subst. cbn [foldl]. apply IH; [done|].
  destruct o; try done; cbn; unfold header_set, header_add; by rewrite lookup_insert_ne.
Qed.

Lemma fields_only p origin : ∃ ops, origin_fields p origin =
    HSet "Access-Control-Allow-Origin" (if allowAll p && negb (credentials p) then "*" else origin) :: ops ∧
  Forall field_op ops ∧ Forall (λ o, op_name o ≠ "Access-Control-Allow-Origin") ops.
Proof.
  unfold origin_fields.
  destruct (_ && _), (credentials p), (String.eqb (exposeHeadersStr p) "");
    (eexists; split; [reflexivity|]; split; repeat constructor; vm_compute; discriminate).
Qed.
Lemma preflight_only p : Forall field_op (preflight_fields p) ∧
  Forall (λ o, op_name o ≠ "Access-Control-Allow-Origin") (preflight_fields p).
Proof. unfold preflight_fields. destruct (String.eqb (maxAgeStr p) ""); split; repeat constructor; vm_compute; discriminate. Qed.

(** Whatever the method, the field a browser reads is sent. *)
Lemma handle_allows p method h h0 : header_get "Origin" h ≠ "" → isOriginAllowed p (header_get "Origin" h) = true →
  (handle p method h (new_RW h0)).1 = negb (String.eqb method "OPTIONS") ∧
  final_header (handle p method h (new_RW h0)).2 !! "Access-Control-Allow-Origin" =
    Some [if allowAll p && negb (credentials p) then "*" else header_get "Origin" h].
Proof.
  intros Ho Hal. unfold handle. rewrite (proj2 (String.eqb_neq _ _) Ho), Hal. cbn [negb].
  destruct (fields_only p (header_get "Origin" h)) as (ops & E & Hf & Hn), (preflight_only p) as [Hf' Hn'].
  rewrite E. pose proof (field_last "Access-Control-Allow-Origin") as Hl. change (CanonicalHeaderKey "Access-Control-Allow-Origin") with "Access-Control-Allow-Origin" in Hl.
  destruct (String.eqb method "OPTIONS"); (split; [done|]); cbn [snd].
  - rewrite (run_ops_app (preflight_fields p)), <-(run_ops_app (_ :: ops) (preflight_fields p)), <-app_comm_cons. edestruct fields_sent as [_ ->]; [constructor; [done|by apply Forall_app]|].
    apply Hl; by apply Forall_app.
  - edestruct fields_sent as [-> _]; [by constructor|]. by apply Hl.
Qed.

(** An origin is let in exactly if the configuration allows it, all origins with a star and never with
    credentials; a request without an origin, or from another, is passed on untouched. *)
Theorem origin_decided config p method h h0 : New config = Some p →
  let cfg := default DefaultConfig config in
  let origin := header_get "Origin" h in
  let allowed := origin ≠ "" ∧ ("*" ∈ AllowOrigins cfg ∨
    match AllowOriginFunc cfg with Some f => f origin = true | None => origin ∈ AllowOrigins cfg end) in
  (¬ allowed → handle p method h (new_RW h0) = (true, new_RW h0)) ∧
  (allowed →
    (handle p method h (new_RW h0)).1 = negb (String.eqb method "OPTIONS") ∧
    final_header (handle p method h (new_RW h0)).2 !! "Access-Control-Allow-Origin" = Some [if decide ("*" ∈ AllowOrigins cfg) then "*" else origin] ∧
    (AllowCredentials cfg = true → "*" ∉ AllowOrigins cfg)).
Proof.
  intros Hnew cfg origin allowed. unfold New in Hnew. fold cfg in Hnew.
  assert (existsb (String.eqb "*") (AllowOrigins cfg) = bool_decide ("*" ∈ AllowOrigins cfg)) as Hall.
  { apply eq_bool_prop_intro. rewrite bool_decide_spec, Is_true_true, existsb_Exists, Exists_exists.
    split; [by intros (x & Hx & <-%String.eqb_eq)|]. intros Hx. exists "*". by split. }
  rewrite Hall in Hnew. destruct (bool_decide _ && _) eqn:Hpanic; [done|]. injection Hnew as Hp.
  assert (allowed ↔ origin ≠ "" ∧ (bool_decide ("*" ∈ AllowOrigins cfg) || match AllowOriginFunc cfg with
    Some f => f origin | None => bool_decide (origin ∈ AllowOrigins cfg) end) = true) as Ha.
  { unfold allowed. rewrite orb_true_iff, bool_decide_eq_true. destruct (AllowOriginFunc cfg); [done|]. by rewrite bool_decide_eq_true. }
  split; intros Hal; rewrite Ha in Hal.
  - subst p. unfold handle. fold origin. cbn [isOriginAllowed]. destruct (String.eqb_spec origin ""); [done|]. destruct (_ || _) eqn:E; [by destruct Hal|done].
  - destruct Hal as [Ho Hal]. destruct (handle_allows p method h h0 Ho) as [E1 E2]; [by subst p|].
    split; [done|]. split; [|intros Hc; rewrite Hc, andb_true_r in Hpanic; by apply bool_decide_eq_false in Hpanic].
    rewrite E2. subst p. cbn [allowAll credentials]. destruct (decide _) as [Hs|Hs];
      [rewrite (bool_decide_true _ Hs) in *|by rewrite (bool_decide_false _ Hs)].
    cbn [andb] in *. by rewrite Hpanic.
Qed.

(** Every OPTIONS request of an allowed origin is answered here, preflight or not: the test does not look
    at Access-Control-Request-Method, so a route for OPTIONS cannot be called across origins. *)
Example plain_options_answered :
  option_map (λ p, (handle p "OPTIONS" {["Origin" := ["https://a.test"]]} (new_RW ∅)).1) (New None) = Some false.
Proof. vm_compute. reflexivity. Qed.

(** With a list of origins the answer depends on the Origin of the request, which [Vary] only says when
    the origin was let in. *)
Example vary_only_when_allowed :
  let config := MkConfig ["https://a.test"] [] [] [] false 0 None in
  let vary h := option_map (λ p, final_header (handle p "GET" h (new_RW ∅)).2 !! "Vary") (New (Some config)) in
  vary {["Origin" := ["https://a.test"]]} = Some (Some ["Origin"]) ∧ vary ∅ = Some None.
Proof. vm_compute. done. Qed.
