(* ===== verification/Reflect.v ===== *)
(** The part of [reflect] that binding and validation are written against: types, struct fields with their
    tags, and values. A type is what [reflect.Type] tells of it; the fields of the struct types of a program
    are a function of their names. *)
From S2P Require Import Prelude GoStrings Float64.
From Stdlib Require Import SpecFloat.
Local Open Scope Z_scope.

Inductive gtype : Type :=
  | TBool
  | TInt (bits : Z)
  | TUint (bits : Z)
  | TUintptr
  | TFloat (bits : Z)
  | TString
  | TSlice (elem : gtype)
  | TArray (n : nat) (elem : gtype)
  | TMap (key elem : gtype)
  | TPtr (elem : gtype)
  | TInterface
  | TStruct (name : string)
  | TNamed (name : string) (underlying : gtype)
  | TOther.
#[export] Instance gtype_eq_dec : EqDecision gtype.
Proof. solve_decision. Defined.

(** [int] is a type of its own, of 64 bits here, next to [int64]. *)
Definition int_type : gtype := TNamed "int" (TInt 64).

Inductive kind : Type :=
  Bool | Int | Uint | Uintptr | Float32 | Float64 | String_ | Slice | Array | Map | Ptr | Interface | Struct | Other.
#[export] Instance kind_eq_dec : EqDecision kind.
Proof. solve_decision. Defined.

Fixpoint under (t : gtype) : gtype := match t with TNamed _ u => under u | _ => t end.
Definition Kind (t : gtype) : kind :=
  match under t with
  | TBool => Bool
  | TInt _ => Int
  | TUint _ => Uint
  | TUintptr => Uintptr
  | TFloat bits => if bits =? 32 then Float32 else Float64
  | TString => String_
  | TSlice _ => Slice
  | TArray _ _ => Array
  | TMap _ _ => Map
  | TPtr _ => Ptr
  | TInterface => Interface
  | TStruct _ => Struct
  | TNamed _ _ | TOther => Other
  end.
(** [t.Elem()], for the kinds that have one. *)
Definition Elem (t : gtype) : gtype :=
  match under t with TSlice e | TArray _ e | TMap _ e | TPtr e => e | _ => t end.
Definition pointed (t : gtype) : gtype := if decide (Kind t = Ptr) then Elem t else t.

(** [reflect.StructField]. *)
Record StructField : Type := MkField {
  f_Name : string;
  f_Type : gtype;
  f_Exported : bool;
  f_Anonymous : bool;
  f_Tag : list (string * string)
}.
Fixpoint tag_lookup (key : string) (tag : list (string * string)) : string :=
  match tag with
  | [] => ""
  | (k, v) :: tag' => if String.eqb k key then v else tag_lookup key tag'
  end.
Definition Get (key : string) (f : StructField) : string := tag_lookup key (f_Tag f).

(** Values. A pointer has its address, a slice or map may be nil, a map is listed in the order in which a
    range over it goes, and an interface holds a value with its dynamic type. *)
Inductive gval : Type :=
  | VBool (b : bool)
  | VInt (z : Z)
  | VUint (z : Z)
  | VUintptr (z : Z)
  | VFloat32 (x : float64)
  | VFloat64 (x : float64)
  | VString (s : string)
  | VSlice (l : option (list gval))
  | VArray (l : list gval)
  | VMap (l : option (list (gval * gval)))
  | VPtr (p : option (Z * gval))
  | VInterface (x : option (gtype * gval))
  | VStruct (name : string) (fields : list gval)
  | VOther (isNil : bool).

Definition ValueKind (v : gval) : kind :=
  match v with
  | VBool _ => Bool
  | VInt _ => Int
  | VUint _ => Uint
  | VUintptr _ => Uintptr
  | VFloat32 _ => Float32
  | VFloat64 _ => Float64
  | VString _ => String_
  | VSlice _ => Slice
  | VArray _ => Array
  | VMap _ => Map
  | VPtr _ => Ptr
  | VInterface _ => Interface
  | VStruct _ _ => Struct
  | VOther _ => Other
  end.

(** [v.IsZero()]; a negative zero is not. *)
Fixpoint IsZero (v : gval) : bool :=
  match v with
  | VBool b => negb b
  | VInt z | VUint z | VUintptr z => z =? 0
  | VFloat32 x | VFloat64 x => match x with S754_zero s => negb s | _ => false end
  | VString s => String.eqb s ""
  | VSlice l => match l with None => true | Some _ => false end
  | VMap l => match l with None => true | Some _ => false end
  | VPtr p => match p with None => true | Some _ => false end
  | VInterface x => match x with None => true | Some _ => false end
  | VArray l => forallb IsZero l
  | VStruct _ l => forallb IsZero l
  | VOther n => n
  end.

(** [v.Len()]. *)
Definition Len (v : gval) : Z :=
  match v with
  | VString s => Z.of_nat (String.length s)
  | VSlice l => Z.of_nat (length (default [] l))
  | VArray l => Z.of_nat (length l)
  | VMap l => Z.of_nat (length (default [] l))
  | _ => 0
  end.

(** Equality of values as map keys, [None] where the runtime panics because the type of a key is not
    comparable. NaN equals nothing, and values in interfaces are equal only if their dynamic types are the same. (An array of no elements is taken to be comparable.) *)
Fixpoint hashable (v : gval) : bool :=
  match v with
  | VSlice _ | VMap _ => false
  | VArray l | VStruct _ l => forallb hashable l
  | VInterface (Some (_, x)) => hashable x
  | _ => true
  end.
Fixpoint key_eq (a b : gval) : bool :=
  let fix keys_eq (l l' : list gval) : bool :=
    match l, l' with
    | [], [] => true
    | x :: l, y :: l' => key_eq x y && keys_eq l l'
    | _, _ => false
    end in
  match a, b with
  | VBool x, VBool y => Bool.eqb x y
  | VInt x, VInt y | VUint x, VUint y | VUintptr x, VUintptr y => x =? y
  | VFloat32 x, VFloat32 y | VFloat64 x, VFloat64 y => SFeqb x y
  | VString x, VString y => String.eqb x y
  | VArray l, VArray l' => keys_eq l l'
  | VPtr None, VPtr None => true
  | VPtr (Some (x, _)), VPtr (Some (y, _)) => x =? y
  | VInterface None, VInterface None => true
  | VInterface (Some (t, x)), VInterface (Some (t', y)) => bool_decide (t = t') && key_eq x y
  | VStruct n l, VStruct n' l' => String.eqb n n' && keys_eq l l'
  | VOther true, VOther true => true
  | _, _ => false
  end.

(** The fields of the struct types of a program. *)
Class Types : Type := struct_fields : string → list StructField.

(** [strings.Fields]. *)
Definition space_at (s : string) : option string := head (filter (λ p, has_prefix s p = true) space_runes).
Fixpoint next_word (fuel : nat) (s : string) : string * string :=
  match fuel, s with
  | S f, String a s' =>
      match space_at s with
      | Some _ => ("", s)
      | None => let '(w, r) := next_word f s' in (String a w, r)
      end
  | _, _ => ("", s)
  end.
Fixpoint Fields_fuel (fuel : nat) (s : string) : list string :=
  match fuel with
  | O => []
  | S f =>
      let s := trim_space_left (String.length s) s in
      if String.eqb s "" then []
      else let '(w, r) := next_word (String.length s) s in w :: Fields_fuel f r
  end.
Definition Fields (s : string) : list string := Fields_fuel (S (String.length s)) s.

Example fields_check : Fields "  one two	three " = ["one"; "two"; "three"] ∧ Fields "" = [] ∧ Fields " " = [].
Proof. vm_compute. done. Qed.

(** The runes of a string, as a range over it gives them: an invalid byte is U+FFFD. *)
Definition cont (a : ascii) : bool := (128 <=? code a) && (code a <? 192).
Definition second_ok (b0 b1 : Z) : bool :=
  (if b0 =? 0xE0 then 0xA0 <=? b1 else if b0 =? 0xF0 then 0x90 <=? b1 else 0x80 <=? b1) &&
  (if b0 =? 0xED then b1 <=? 0x9F else if b0 =? 0xF4 then b1 <=? 0x8F else b1 <=? 0xBF).
Definition decode_rune (a : ascii) (s : string) : Z * nat :=
  let b0 := code a in
  let bad := (0xFFFD, 0%nat) in
  if b0 <? 0x80 then (b0, 0%nat)
  else if (b0 <? 0xC2) || (0xF4 <? b0) then bad
  else
    match s with
    | String b s1 =>
        if negb (second_ok b0 (code b)) then bad
        else if b0 <? 0xE0 then (Z.lor (Z.shiftl (Z.land b0 0x1F) 6) (Z.land (code b) 0x3F), 1%nat)
        else
          match s1 with
          | String c s2 =>
              if negb (cont c) then bad
              else if b0 <? 0xF0 then
                (Z.lor (Z.shiftl (Z.land b0 0x0F) 12) (Z.lor (Z.shiftl (Z.land (code b) 0x3F) 6) (Z.land (code c) 0x3F)), 2%nat)
              else
                match s2 with
                | String d _ =>
                    if negb (cont d) then bad
                    else (Z.lor (Z.shiftl (Z.land b0 0x07) 18) (Z.lor (Z.shiftl (Z.land (code b) 0x3F) 12)
                      (Z.lor (Z.shiftl (Z.land (code c) 0x3F) 6) (Z.land (code d) 0x3F))), 3%nat)
                | _ => bad
                end
          | _ => bad
          end
    | _ => bad
    end.
Fixpoint runes_skip (skip : nat) (s : string) : list Z :=
  match s with
  | EmptyString => []
  | String a s' =>
      match skip with
      | S k => runes_skip k s'
      | O => let '(r, n) := decode_rune a s' in r :: runes_skip n s'
      end
  end.
Definition runes (s : string) : list Z := runes_skip 0 s.

Example runes_check : runes (of_codes [97; 0xC3; 0xA9; 0xE2; 0x82; 0xAC; 0xF0; 0x9F; 0x98; 0x80; 0xC3; 98]) =
  [97; 0xE9; 0x20AC; 0x1F600; 0xFFFD; 98].
Proof. vm_compute. reflexivity. Qed.
