(* ===== verification/Validator.v ===== *)
(** Validation (validator.go): rules read from struct tags into a plan, once per type, and the walk of a plan
    over a value. *)
From S2P Require Import Prelude GoStrings Float64 Errors Reflect.
From Stdlib Require Import SpecFloat.

(** * What the plan and the walk ask of the program around them *)

(** The library behind single rules: numbers, networks, URLs, JSON, times, regular expressions, the classes of
    runes, their small letters and the printing of values. [Interface] is the value of a field as an interface. *)
Class RuleLib : Type := {
  ParseFloat : string → float64 * bool;
  ParseRequestURI : string → bool;
  ParseIP : string → option (list Z);
  ParseCIDR : string → bool;
  json_Valid : string → bool;
  time_Parse : string → string → bool;
  regexp_Compile : string → option (string → bool);
  IsLetter : Z → bool;
  IsDigit : Z → bool;
  ToLower : string → string;
  FormatFloat : Z → float64 → string;
  Sprint : gval → string;
  Interface_ : gval → any
}.

(** What has been registered, and the methods of the types of the program. *)
Record Registry : Type := MkRegistry {
  customRules : gmap string (gval → string → bool);
  validationMessageTemplates : gmap string (string → string → string);
  structLevelValidators : gmap string (gval → list ValidationError)
}.
Class ValidatorMethods : Type := {
  SelfValidator : string → option (gval → list ValidationError);
  StructLevelValidator : string → option (gval → list ValidationError)
}.

Definition RegisterRule (name : string) (fn : gval → string → bool) (g : Registry) : Registry :=
  MkRegistry (<[name := fn]> (customRules g)) (validationMessageTemplates g) (structLevelValidators g).
Definition SetValidationMessageTemplate (tag : string) (fn : option (string → string → string)) (g : Registry) : Registry :=
  MkRegistry (customRules g)
    (match fn with
     | None => base.delete tag (validationMessageTemplates g)
     | Some f => <[tag := f]> (validationMessageTemplates g)
     end) (structLevelValidators g).
Definition RegisterStructValidation (t : gtype) (fn : gval → list ValidationError) (g : Registry) : Registry :=
  match under (pointed t) with
  | TStruct name => MkRegistry (customRules g) (validationMessageTemplates g) (<[name := fn]> (structLevelValidators g))
  | _ => g
  end.

(** * Plans *)

Record validationRule : Type := MkRule { tag : string; param : string; num : float64; hasNum : bool; oneOf : option (list string) }.

Record fieldValidator (SV : Type) : Type := MkFieldValidator {
  name : string;
  fieldIndex : nat;
  fv_kind : kind;
  rules : list validationRule;
  hasOmitEmpty : bool;
  nested : option SV;
  dive : option SV;
  hasDive : bool;
  diveRules : list validationRule
}.
Arguments MkFieldValidator {SV} _ _ _ _ _ _ _ _ _.
Arguments name {SV} _.
Arguments fieldIndex {SV} _.
Arguments fv_kind {SV} _.
Arguments rules {SV} _.
Arguments hasOmitEmpty {SV} _.
Arguments nested {SV} _.
Arguments dive {SV} _.
Arguments hasDive {SV} _.
Arguments diveRules {SV} _.
Inductive structValidator : Type := SV (fields : list (fieldValidator structValidator)).

Section plans.
Context {lib : RuleLib} {types : Types}.

Definition parseNumValue (s : string) : float64 * bool := ParseFloat s.
Definition parseNum (s : string) : float64 := (ParseFloat s).1.

Definition numeric_tag (t : string) : bool := bool_decide (t ∈ ["min"; "max"; "gte"; "lte"; "gt"; "lt"; "len"]).
Definition compileValidationRule (t p : string) : validationRule :=
  if numeric_tag t then let '(n, ok) := parseNumValue p in MkRule t p n ok None
  else if String.eqb t "oneof" then MkRule t p f64_zero false (Some (Fields p))
  else MkRule t p f64_zero false None.

Definition rule_of (p : string) : validationRule :=
  match cut_byte "=" p with
  | Some (t, q) => compileValidationRule t q
  | None => compileValidationRule p ""
  end.
Definition parseValidateTag (tag : string) : list validationRule :=
  map rule_of (filter (λ p, p ≠ "") (map TrimSpace (split_byte "," tag))).

(** The index of the first [dive], [None] for -1. *)
Fixpoint findDiveIndex (rs : list validationRule) : option nat :=
  match rs with
  | [] => None
  | r :: rs' => if String.eqb (tag r) "dive" then Some O else S <$> findDiveIndex rs'
  end.
Definition hasOmitEmptyRule (rs : list validationRule) : bool := existsb (λ r, String.eqb (tag r) "omitempty") rs.

(** The name of a field in errors: of its json, param or query tag, or its own in small letters. *)
Definition field_name (f : StructField) : string :=
  let n := Get "json" f in
  let n := if String.eqb n "" || String.eqb n "-" then Get "param" f else n in
  let n := if String.eqb n "" then Get "query" f else n in
  let n := if String.eqb n "" then ToLower (f_Name f) else n in
  match cut_byte "," n with Some (n, _) => n | None => n end.

Abbreviation cache := (gmap string structValidator).

Section fields.
Context (build : gtype → cache → option (option structValidator * cache)).

(** The types of the nested plans of a field: a struct that is not a time, and the struct elements of a
    slice or map that is dived into. *)
Definition nested_type (f : StructField) : option gtype :=
  let ft := pointed (f_Type f) in
  if decide (Kind ft = Struct) then if decide (ft = TStruct "time.Time") then None else Some ft else None.
Definition dives_into (f : StructField) (dives : bool) : bool :=
  let ft := pointed (f_Type f) in dives && (bool_decide (Kind ft = Slice) || bool_decide (Kind ft = Map)).
Definition dive_type (f : StructField) (dives : bool) : option gtype :=
  if dives_into f dives then
    let et := pointed (Elem (pointed (f_Type f))) in if decide (Kind et = Struct) then Some et else None
  else None.
Definition build_option (t : option gtype) (c : cache) : option (option structValidator * cache) :=
  match t with Some t => build t c | None => Some (None, c) end.

(** The rules of a field and those of its elements, and whether there is a [dive] between them. *)
Definition rules_of (f : StructField) : list validationRule * list validationRule * bool :=
  let t := Get "validate" f in
  let rs := if String.eqb t "" then [] else parseValidateTag t in
  match findDiveIndex rs with
  | Some k => (take k rs, drop (S k) rs, true)
  | None => (rs, [], false)
  end.

(** One turn of the loop over the fields: the field's plan if it has one, and whether it sets [hasRules]. *)
Definition build_field (i : nat) (f : StructField) (c : cache)
  : option (option (fieldValidator structValidator) * bool * cache) :=
  if negb (f_Exported f) then Some (None, false, c)
  else
    let t := Get "validate" f in
    if String.eqb t "" && negb (bool_decide (Kind (f_Type f) = Struct)) then Some (None, false, c)
    else
      let '(before, after, dives) := rules_of f in
      '(n, c) ← build_option (nested_type f) c;
      '(d, c) ← build_option (dive_type f dives) c;
      Some (Some (MkFieldValidator (field_name f) i (Kind (f_Type f)) before (hasOmitEmptyRule before) n d dives after),
        negb (String.eqb t "") || bool_decide (is_Some n) || dives_into f dives, c).

Fixpoint build_fields (i : nat) (fs : list StructField) (c : cache)
  : option (list (fieldValidator structValidator) * bool * cache) :=
  match fs with
  | [] => Some ([], false, c)
  | f :: fs' =>
      '(fv, has, c) ← build_field i f c;
      '(fvs, has', c) ← build_fields (S i) fs' c;
      Some (match fv with Some fv => fv :: fvs | None => fvs end, has || has', c)
  end.
End fields.

(** [None] when the recursion has not ended within the fuel; the second component is the cache, which a plan
    enters when it is done. *)
Fixpoint buildStructValidator (fuel : nat) (t : gtype) (c : cache) : option (option structValidator * cache) :=
  match fuel with
  | O => None
  | S fuel =>
      match under (pointed t) with
      | TStruct n =>
          match c !! n with
          | Some sv => Some (Some sv, c)
          | None =>
              '(fvs, has, c) ← build_fields (buildStructValidator fuel) 0 (struct_fields n) c;
              if (has : bool) then Some (Some (SV fvs), <[n := SV fvs]> c) else Some (None, c)
          end
      | _ => Some (None, c)
      end
  end.
End plans.

(** * Rules *)

Definition isZero (v : gval) : bool :=
  match v with
  | VString s => String.eqb s ""
  | VInt z | VUint z => (z =? 0)%Z
  | VFloat32 x | VFloat64 x => SFeqb x f64_zero
  | VBool b => negb b
  | VSlice l => match l with None => true | Some l => (length l =? 0)%nat end
  | VMap l => match l with None => true | Some l => (length l =? 0)%nat end
  | VPtr p => match p with None => true | Some _ => false end
  | VInterface x => match x with None => true | Some _ => false end
  | _ => IsZero v
  end.

(** The runtime would panic if [k] were not the kind of [v]; the plan took it from the type of the field. *)
Definition fieldLen (v : gval) (k : kind) : float64 :=
  match k, v with
  | String_, VString s => f64_of_int (Z.of_nat (String.length s))
  | (Slice | Map | Array), _ => f64_of_int (Len v)
  | Int, VInt z => f64_of_int z
  | Uint, VUint z => f64_of_int z
  | Float32, VFloat32 x => x
  | Float64, VFloat64 x => x
  | _, _ => f64_zero
  end.
Definition f64_same (x y : float64) : bool := SFeqb x y.

Definition is_ascii_letter (a : ascii) : bool := is_upper a || is_lower a.
Definition local_byte (a : ascii) : bool := is_ascii_letter a || is_digit a || contains_byte a "._%+-".
Definition domain_byte (a : ascii) : bool := is_ascii_letter a || is_digit a || contains_byte a ".-".
(** [emailRegex]: a local part, an at sign, and a domain whose last label is two letters or more. *)
Fixpoint last_label (s : string) : option (string * string) :=
  match s with
  | EmptyString => None
  | String a s' =>
      match last_label s' with
      | Some (h, l) => Some (String a h, l)
      | None => if Ascii.eqb a "." then Some ("", s') else None
      end
  end.
Definition emailRegex (s : string) : bool :=
  match cut_byte "@" s with
  | Some (local, domain) =>
      negb (String.eqb local "") && string_all local_byte local &&
      match last_label domain with
      | Some (h, l) => negb (String.eqb h "") && string_all domain_byte h &&
                       (2 <=? String.length l)%nat && string_all is_ascii_letter l
      | None => false
      end
  | None => false
  end.
Definition is_hex (a : ascii) : bool := match unhex a with Some _ => true | None => false end.
Definition uuidRegex (s : string) : bool :=
  match split_byte "-" s with
  | [a; b; c; d; e] =>
      forallb (string_all is_hex) [a; b; c; d; e] &&
      bool_decide (map String.length [a; b; c; d; e] = [8; 4; 4; 4; 12])
  | _ => false
  end.

Definition isAllFunc (s : string) (fn : Z → bool) : bool :=
  if String.eqb s "" then false else forallb fn (runes s).

(** [ip.To4() != nil], of the sixteen bytes of an address. *)
Definition To4 (ip : list Z) : bool :=
  match length ip with
  | 4 => true
  | 16 => bool_decide (take 12 ip = [0; 0; 0; 0; 0; 0; 0; 0; 0; 0; 255; 255]%Z)
  | _ => false
  end.

Section rules.
Context {lib : RuleLib}.

Definition numericRuleValue (r : validationRule) : float64 := if hasNum r then num r else parseNum (param r).
Definition checkMinRule (v : gval) (k : kind) (r : validationRule) : bool := f64_le (numericRuleValue r) (fieldLen v k).
Definition checkMaxRule (v : gval) (k : kind) (r : validationRule) : bool := f64_le (fieldLen v k) (numericRuleValue r).
Definition checkGteRule (v : gval) (k : kind) (r : validationRule) : bool := f64_le (numericRuleValue r) (fieldLen v k).
Definition checkLteRule (v : gval) (k : kind) (r : validationRule) : bool := f64_le (fieldLen v k) (numericRuleValue r).
Definition checkGtRule (v : gval) (k : kind) (r : validationRule) : bool := f64_lt (numericRuleValue r) (fieldLen v k).
Definition checkLtRule (v : gval) (k : kind) (r : validationRule) : bool := f64_lt (fieldLen v k) (numericRuleValue r).
Definition checkLenRule (v : gval) (k : kind) (r : validationRule) : bool :=
  match k with
  | String_ | Slice | Map | Array => f64_same (f64_of_int (Len v)) (numericRuleValue r)
  | _ => true
  end.

Definition stringifyValue (v : gval) : string :=
  match v with
  | VString s => s
  | VBool b => if b then "true" else "false"
  | VInt z | VUint z | VUintptr z => itoa z
  | VFloat32 x => FormatFloat 32 x
  | VFloat64 x => FormatFloat 64 x
  | _ => Sprint v
  end.
Definition checkOneOfRule (v : gval) (r : validationRule) : bool :=
  existsb (String.eqb (stringifyValue v)) (default (Fields (param r)) (oneOf r)).

(** [None] for the panic of a key that is not comparable. *)
Fixpoint unique_loop (seen l : list gval) : option bool :=
  match l with
  | [] => Some true
  | v :: l' =>
      if negb (hashable v) then None
      else if existsb (key_eq v) seen then Some false
      else unique_loop (v :: seen) l'
  end.
Definition checkUnique (v : gval) : option bool :=
  match v with VSlice l => unique_loop [] (default [] l) | _ => Some true end.

Definition matchRegex (pattern value : string) : bool :=
  match regexp_Compile pattern with Some re => re value | None => false end.

(** Rules of strings hold of everything else. *)
Definition on_string (f : string → bool) (v : gval) : bool := match v with VString s => f s | _ => true end.

Fixpoint contains_string (sub s : string) : bool :=
  has_prefix s sub || match s with EmptyString => false | String _ s' => contains_string sub s' end.

Definition string_rule (tag param : string) : option (string → bool) :=
  match tag with
  | "email" => Some emailRegex
  | "url" => Some ParseRequestURI
  | "uuid" => Some uuidRegex
  | "alpha" => Some (λ s, isAllFunc s IsLetter)
  | "numeric" => Some (λ s, isAllFunc s IsDigit)
  | "alphanum" => Some (λ s, isAllFunc s (λ r, IsLetter r || IsDigit r))
  | "ip" => Some (λ s, bool_decide (is_Some (ParseIP s)))
  | "ipv4" => Some (λ s, match ParseIP s with Some ip => To4 ip | None => false end)
  | "ipv6" => Some (λ s, match ParseIP s with Some ip => negb (To4 ip) | None => false end)
  | "cidr" => Some ParseCIDR
  | "json" => Some json_Valid
  | "datetime" => Some (time_Parse param)
  | "regex" => Some (matchRegex param)
  | "contains" => Some (contains_string param)
  | "startswith" => Some (λ s, has_prefix s param)
  | "endswith" => Some (λ s, has_suffix s param)
  | "excludes" => Some (λ s, negb (contains_string param s))
  | _ => None
  end.

Definition checkRule (g : Registry) (v : gval) (k : kind) (r : validationRule) : option bool :=
  match tag r with
  | "required" => Some (negb (isZero v))
  | "min" => Some (checkMinRule v k r)
  | "max" => Some (checkMaxRule v k r)
  | "gte" => Some (checkGteRule v k r)
  | "lte" => Some (checkLteRule v k r)
  | "gt" => Some (checkGtRule v k r)
  | "lt" => Some (checkLtRule v k r)
  | "len" => Some (checkLenRule v k r)
  | "oneof" => Some (checkOneOfRule v r)
  | "unique" => checkUnique v
  | _ =>
      match string_rule (tag r) (param r) with
      | Some f => Some (on_string f v)
      | None => match customRules g !! tag r with Some fn => Some (fn v (param r)) | None => Some true end
      end
  end.

Definition default_message (field : string) (r : validationRule) : string :=
  let p := param r in
  match tag r with
  | "required" => field +:+ " is required"
  | "min" => field +:+ " must be at least " +:+ p
  | "max" => field +:+ " must be at most " +:+ p
  | "gte" => field +:+ " must be >= " +:+ p
  | "lte" => field +:+ " must be <= " +:+ p
  | "gt" => field +:+ " must be > " +:+ p
  | "lt" => field +:+ " must be < " +:+ p
  | "len" => field +:+ " must have length " +:+ p
  | "oneof" => field +:+ " must be one of [" +:+ p +:+ "]"
  | "email" => field +:+ " must be a valid email"
  | "url" => field +:+ " must be a valid URL"
  | "uuid" => field +:+ " must be a valid UUID"
  | "regex" => field +:+ " must match pattern " +:+ p
  | t => field +:+ " failed " +:+ t +:+ " validation"
  end.
Definition formatMessage (g : Registry) (field : string) (r : validationRule) : string :=
  let custom := match validationMessageTemplates g !! tag r with Some tmpl => tmpl field (param r) | None => "" end in
  if String.eqb custom "" then default_message field r else custom.

Definition fieldValue (v : gval) : option any := Some (Interface_ v).
Definition failure (g : Registry) (field : string) (r : validationRule) (v : gval) : ValidationError :=
  {| ve_Field := field; ve_Tag := tag r; ve_Param := param r; ve_Value := fieldValue v; ve_Message := formatMessage g field r |}.
Definition under_path (path : string) (e : ValidationError) : ValidationError :=
  {| ve_Field := path +:+ "." +:+ ve_Field e; ve_Tag := ve_Tag e; ve_Param := ve_Param e; ve_Value := ve_Value e; ve_Message := ve_Message e |}.
End rules.

(** * The walk *)

(** The errors of a list, in order; a panic ends it. *)
Section gather.
Context {A B : Type} (f : A → option (list B)).
Fixpoint gather (l : list A) : option (list B) :=
  match l with
  | [] => Some []
  | x :: l' => es ← f x; es' ← gather l'; Some (es ++ es')
  end.
End gather.

Section walk.
Context {lib : RuleLib} {methods : ValidatorMethods} (g : Registry).

(** The loop over the rules of a field or an element; [skipped] are the tags that are no rules there. *)
Definition check_rules (skipped : list string) (path : string) (v : gval) (k : kind) (rs : list validationRule)
  : option (list ValidationError) :=
  gather (λ r,
    if bool_decide (tag r ∈ skipped) then Some []
    else ok ← checkRule g v k r; Some (if (ok : bool) then [] else [failure g path r v])) rs.

Section elements.
Context (validate : structValidator → gval → option (list ValidationError)).

Definition validateDiveElement (rs : list validationRule) (sv : option structValidator) (path : string) (elem : gval)
  : option (list ValidationError) :=
  if hasOmitEmptyRule rs && isZero elem then Some []
  else
    let target := match elem with VPtr (Some (_, x)) => x | _ => elem end in
    errs ← check_rules ["omitempty"] path target (ValueKind target) rs;
    match sv, target with
    | Some sv, VStruct _ _ => es ← validate sv target; Some (errs ++ map (under_path path) es)
    | _, _ => Some errs
    end.

Definition indexed (path : string) (i : nat) : string := path +:+ "[" +:+ itoa (Z.of_nat i) +:+ "]".
(** The elements that are dived into, with their paths. *)
Definition elements (path : string) (v : gval) : list (string * gval) :=
  match v with
  | VSlice l => imap (λ i x, (indexed path i, x)) (default [] l)
  | VMap l => map (λ '(key, x), (path +:+ "[" +:+ Sprint key +:+ "]", x)) (default [] l)
  | _ => []
  end.
Definition validateDiveRules (path : string) (dives : bool) (rs : list validationRule) (sv : option structValidator) (v : gval)
  : option (list ValidationError) :=
  if negb dives then Some [] else gather (λ '(p, x), validateDiveElement rs sv p x) (elements path v).
End elements.

(** A nested struct is validated if it is not zero. *)
Definition nested_target (v : gval) : option gval :=
  if IsZero v then None else match v with VPtr (Some (_, x)) => Some x | _ => Some v end.

(** One turn of the loop of [validate] over the fields. *)
Definition validate_field (validate : structValidator → gval → option (list ValidationError))
    (fv : fieldValidator structValidator) (v : gval) : option (list ValidationError) :=
  errs ← (if hasOmitEmpty fv && isZero v then Some [] else check_rules ["dive"; "omitempty"] (name fv) v (fv_kind fv) (rules fv));
  inner ← match nested fv, nested_target v with
          | Some sv, Some x => es ← validate sv x; Some (map (under_path (name fv)) es)
          | _, _ => Some []
          end;
  elems ← validateDiveRules validate (name fv) (hasDive fv) (diveRules fv) (dive fv) v;
  Some (errs ++ inner ++ elems).

Definition struct_level (n : string) (v : gval) : list ValidationError :=
  match StructLevelValidator n with Some f => f v | None => [] end ++
  match structLevelValidators g !! n with Some f => f v | None => [] end.
Definition self_level (n : string) (v : gval) : list ValidationError :=
  match SelfValidator n with Some f => f v | None => [] end.

(** [None] for a panic. *)
Fixpoint validate (sv : structValidator) (v : gval) {struct sv} : option (list ValidationError) :=
  match sv, v with
  | SV fields, VStruct n vals =>
      match self_level n v with
      | [] => errs ← gather (λ fv, x ← vals !! fieldIndex fv; validate_field validate fv x) fields;
              Some (errs ++ struct_level n v)
      | errs => Some errs
      end
  | _, _ => None
  end.
End walk.
