(* ===== verification/ValidatorLaws.v ===== *)
(** What validation promises: the errors of a value are exactly the rules that it breaks, read off the types
    and their tags; a plan is made for every type that does not contain itself. *)
From S2P Require Import Prelude GoStrings Float64 Errors Reflect Validator.
From Stdlib Require Import SpecFloat.

Section collect_laws.
Context {A B : Type} (f : A → option (list B)).

Lemma collect_elem l es : gather f l = Some es → ∀ e, e ∈ es ↔ ∃ x es', x ∈ l ∧ f x = Some es' ∧ e ∈ es'.
Proof.
  revert es. induction l as [|x l IH]; cbn; intros es.
  - intros [= <-] e. split; [by intros ?%elem_of_nil|]. by intros (? & ? & ?%elem_of_nil & _).
  - destruct (f x) as [es1|] eqn:E; [|done]. cbn. destruct (gather f l) as [es2|]; [|done]. cbn. intros [= <-] e.
    rewrite elem_of_app, (IH es2 eq_refl). split.
    + intros [H|(y & es' & Hy & H)]; [by exists x, es1; repeat constructor|]. exists y, es'. by split; [right|].
    + intros (y & es' & [->|Hy]%elem_of_cons & H & He); [left; congruence|right; by exists y, es'].
Qed.
Lemma collect_total l : (∀ x, x ∈ l → is_Some (f x)) → is_Some (gather f l).
Proof.
  induction l as [|x l IH]; intros H; [by eexists|]. cbn. destruct (H x ltac:(left)) as [es ->]. cbn.
  destruct IH as [es' ->]; [intros y Hy; apply H; by right|]. by eexists.
Qed.
Lemma collect_each l es : gather f l = Some es → ∀ x, x ∈ l → is_Some (f x).
Proof.
  revert es. induction l as [|y l IH]; cbn; intros es H x; [by intros ?%elem_of_nil|].
  destruct (f y) eqn:E; [|done]. cbn in H. destruct (gather f l) as [es'|]; [|done].
  intros [->|Hx]%elem_of_cons; [rewrite E; by eexists|by eapply IH].
Qed.
End collect_laws.

Section laws.
Context {lib : RuleLib} {types : Types} {methods : ValidatorMethods} (g : Registry).

(** * What the tags say *)

(** Field [i] of a struct of type [n], which holds [v]. *)
Definition field_at (n : string) (vals : list gval) (i : nat) (f : StructField) (v : gval) : Prop :=
  struct_fields n !! i = Some f ∧ vals !! i = Some v ∧ f_Exported f = true ∧
  (Get "validate" f ≠ "" ∨ Kind (f_Type f) = Struct).
Definition own_rules (f : StructField) : list validationRule := (rules_of f).1.1.
Definition element_rules (f : StructField) : list validationRule := (rules_of f).1.2.
Definition dives (f : StructField) : bool := (rules_of f).2.
Definition pointee (v : gval) : gval := match v with VPtr (Some (_, x)) => x | _ => v end.

(** What a field holds of a nested struct: the struct, or the one behind a pointer. *)
Definition inner_target (v : gval) : option gval :=
  match v with VPtr None => None | VPtr (Some (_, x)) => Some x | _ => Some v end.

(** A struct breaks a rule at a path if a field does: one of the field's own, one of the struct in a field,
    one of the rules after [dive] at an element, or one of a struct that is an element. The first argument
    says whether this is inside a struct field that is zero as a whole. *)
Inductive violates : bool → string → list gval → string → string → string → Prop :=
  | at_field z n vals i f v p tg q : field_at n vals i f v → field_violates z f v p tg q → violates z n vals p tg q
with field_violates : bool → StructField → gval → string → string → string → Prop :=
  | own_rule f v r :
      r ∈ own_rules f → tag r ∉ ["dive"; "omitempty"] → hasOmitEmptyRule (own_rules f) && isZero v = false →
      checkRule g v (Kind (f_Type f)) r = Some false →
      field_violates false f v (field_name f) (tag r) (param r)
  | in_struct z f v t m m' vals p tg q :
      nested_type f = Some t → under (pointed t) = TStruct m → inner_target v = Some (VStruct m' vals) →
      violates z m vals p tg q → field_violates (IsZero v || z) f v (field_name f +:+ "." +:+ p) tg q
  | at_element f v p x tg q :
      dives f = true → (p, x) ∈ elements (field_name f) v → hasOmitEmptyRule (element_rules f) && isZero x = false →
      element_violates f p x tg q → field_violates false f v p tg q
  | in_element z f v p x t m m' vals p' tg q :
      dives f = true → (p, x) ∈ elements (field_name f) v → hasOmitEmptyRule (element_rules f) && isZero x = false →
      dive_type f true = Some t → under (pointed t) = TStruct m → pointee x = VStruct m' vals →
      violates z m vals p' tg q → field_violates z f v (p +:+ "." +:+ p') tg q
with element_violates : StructField → string → gval → string → string → Prop :=
  | element_rule f p x r : r ∈ element_rules f → tag r ≠ "omitempty" →
      checkRule g (pointee x) (ValueKind (pointee x)) r = Some false → element_violates f p x (tag r) (param r).

Lemma nested_inner v x : nested_target v = Some x ↔ IsZero v = false ∧ inner_target v = Some x.
Proof.
  unfold nested_target, inner_target. destruct v as [| | | | | | | | | |[[]|]| | |]; cbn [IsZero];
    try (case_match; naive_solver); naive_solver.
Qed.

(** An error that names the path, the tag and the parameter. *)
Definition reported (errs : list ValidationError) (p tg q : string) : Prop :=
  ∃ e, e ∈ errs ∧ ve_Field e = p ∧ ve_Tag e = tg ∧ ve_Param e = q.

Lemma reported_app es1 es2 p tg q : reported (es1 ++ es2) p tg q ↔ reported es1 p tg q ∨ reported es2 p tg q.
Proof. unfold reported. setoid_rewrite elem_of_app. naive_solver. Qed.
Lemma reported_nil p tg q : ¬ reported [] p tg q.
Proof. intros (e & ?%elem_of_nil & _). done. Qed.
Lemma reported_under path es p tg q : reported (map (under_path path) es) p tg q ↔ ∃ p', p = path +:+ "." +:+ p' ∧ reported es p' tg q.
Proof.
  unfold reported. setoid_rewrite list_elem_of_fmap. split.
  - intros (e & (e' & -> & He) & <- & <- & <-). exists (ve_Field e'). split; [done|]. by exists e'.
  - intros (p' & -> & e & He & <- & <- & <-). exists (under_path path e). by split; [exists e|].
Qed.

Lemma check_rules_reported skipped path v k rs es : check_rules g skipped path v k rs = Some es → ∀ p tg q,
  reported es p tg q ↔ p = path ∧ ∃ r, r ∈ rs ∧ tag r ∉ skipped ∧ checkRule g v k r = Some false ∧ tag r = tg ∧ param r = q.
Proof.
  unfold check_rules. intros Hes p tg q. unfold reported. setoid_rewrite (collect_elem _ _ _ Hes). split.
  - intros (e & (r & es' & Hr & H & He) & <- & <- & <-). case_bool_decide; [injection H as <-; by apply elem_of_nil in He|].
    destruct (checkRule g v k r) as [[]|] eqn:Ec; cbn in H; try done; injection H as <-; [by apply elem_of_nil in He|].
    apply list_elem_of_singleton in He as ->. split; [done|]. by exists r.
  - intros (-> & r & Hr & Hs & Hc & <- & <-). exists (failure g path r v). split; [|done]. exists r, [failure g path r v].
    rewrite bool_decide_false, Hc by done. by repeat constructor.
Qed.

(** ** Rules that panic *)

(** Only [unique] can, on elements that are not comparable. *)
Definition safe (v : gval) (rs : list validationRule) : Prop :=
  ∀ r, r ∈ rs → tag r = "unique" → match v with VSlice (Some l) => Forall (λ x, hashable x = true) l | _ => True end.
Lemma unique_total seen l : Forall (λ x, hashable x = true) l → is_Some (unique_loop seen l).
Proof.
  intros Hl. revert seen. induction Hl as [|x l Hx _ IH]; intros seen; [by eexists|]. cbn. rewrite Hx. cbn.
  destruct (existsb _ _); [by eexists|apply IH].
Qed.
Lemma checkRule_total v k rs r : safe v rs → r ∈ rs → is_Some (checkRule g v k r).
Proof.
  intros Hs Hr. unfold checkRule. repeat case_match; try by eexists.
  unfold checkUnique. repeat case_match; try by eexists. subst.
  specialize (Hs r Hr ltac:(congruence)). cbn in Hs. destruct l as [l|]; [|by eexists]. by apply unique_total.
Qed.
Lemma check_rules_total skipped path v k rs : safe v rs → is_Some (check_rules g skipped path v k rs).
Proof.
  intros Hs. apply collect_total. intros r Hr. case_bool_decide; [by eexists|].
  destruct (checkRule_total v k rs r Hs Hr) as [b ->]. by eexists.
Qed.

(** * Typed values *)

Inductive has_type : gtype → gval → Prop :=
  | T_bool b : has_type TBool (VBool b)
  | T_int bits z : has_type (TInt bits) (VInt z)
  | T_uint bits z : has_type (TUint bits) (VUint z)
  | T_uintptr z : has_type TUintptr (VUintptr z)
  | T_float32 x : has_type (TFloat 32) (VFloat32 x)
  | T_float64 x : has_type (TFloat 64) (VFloat64 x)
  | T_string s : has_type TString (VString s)
  | T_slice t l : Forall (has_type t) l → has_type (TSlice t) (VSlice (Some l))
  | T_nil_slice t : has_type (TSlice t) (VSlice None)
  | T_array t l : Forall (has_type t) l → has_type (TArray (length l) t) (VArray l)
  | T_map k t l : Forall (λ kv, has_type t kv.2) l → has_type (TMap k t) (VMap (Some l))
  | T_nil_map k t : has_type (TMap k t) (VMap None)
  | T_ptr t a v : has_type t v → has_type (TPtr t) (VPtr (Some (a, v)))
  | T_nil_ptr t : has_type (TPtr t) (VPtr None)
  | T_interface x : has_type TInterface (VInterface x)
  | T_struct n vals : Forall2 (λ f v, has_type (f_Type f) v) (struct_fields n) vals → has_type (TStruct n) (VStruct n vals)
  | T_named name t v : has_type t v → has_type (TNamed name t) v
  | T_other n : has_type TOther (VOther n).
Definition fields_typed (n : string) (vals : list gval) : Prop := Forall2 (λ f v, has_type (f_Type f) v) (struct_fields n) vals.

Lemma has_type_under t v : has_type t v → has_type (under t) v.
Proof. induction t; cbn; try done. intros H. inversion H; subst. by apply IHt. Qed.

(** What a struct field or element holds behind a pointer. *)
Lemma under_not_named t name u : under t ≠ TNamed name u.
Proof. by induction t. Qed.
Lemma typed_pointee t v : has_type t v → v = VPtr None ∨ has_type (pointed t) (pointee v).
Proof.
  intros H. pose proof (has_type_under _ _ H) as Hu. unfold pointed, Kind, Elem. destruct (under t) as [| | | | | | | | |e| | | |] eqn:E;
    try (right; by inversion Hu; subst); [|by apply under_not_named in E].
  cbn. inversion Hu; subst; [right|left]; done.
Qed.
Lemma typed_struct t v m : has_type t v → under t = TStruct m → ∃ vals, v = VStruct m vals ∧ fields_typed m vals.
Proof. intros H%has_type_under E. rewrite E in H. inversion H; subst. by eexists. Qed.
Lemma struct_named t m : under (pointed t) = TStruct m → Kind t = Struct → under t = TStruct m.
Proof. unfold pointed. intros H E. rewrite E in H. by destruct (decide (Struct = Ptr)). Qed.

Definition scalar (t : gtype) : bool :=
  match under t with TBool | TInt _ | TUint _ | TUintptr | TFloat _ | TString | TPtr _ => true | _ => false end.
Lemma scalar_hashable t v : scalar t = true → has_type t v → hashable v = true.
Proof. unfold scalar. intros Hs H%has_type_under. by inversion H as [| | | | | | | | |? ? ? E|? ? ? ? E| | | | | | |]; subst; simplify_eq; destruct (under t). Qed.
Definition scalar_elems (t : gtype) : Prop := Kind t = Slice → scalar (Elem t) = true.
Lemma slice_safe t v (rs : list validationRule) : has_type t v → (∀ r, r ∈ rs → tag r = "unique" → scalar_elems t) → safe v rs.
Proof.
  intros H%has_type_under Hu r Hr Ht. specialize (Hu r Hr Ht). unfold scalar_elems, Kind, Elem in Hu.
  destruct v as [| | | | | | |[l|]| | | | | |]; try done. destruct (under t) eqn:E; try (by inversion H); [|by apply under_not_named in E].
  inversion H as [| | | | | | |? ? Hl| | | | | | | | | |]; subst. eapply Forall_impl; [exact Hl|]. intros x. apply scalar_hashable. by apply Hu.
Qed.

(** * Plans *)

(** Rules that look at elements are used where elements can be compared. *)
Definition unique_comparable : Prop := ∀ n f r, f ∈ struct_fields n → tag r = "unique" →
  (r ∈ own_rules f → scalar_elems (f_Type f)) ∧ (r ∈ element_rules f → scalar_elems (pointed (Elem (pointed (f_Type f))))).
(** No type has methods or functions of its own for validation. *)
Definition tags_only : Prop := ∀ n v, self_level n v = [] ∧ struct_level g n v = [].

Hypothesis Htags : tags_only.
Hypothesis Hunique : unique_comparable.

(** A plan is right for a struct type if its errors are what the fields break and it never panics. *)
Definition right_plan (n : string) (sv : structValidator) : Prop :=
  (∀ name vals errs, validate g sv (VStruct name vals) = Some errs → ∀ p tg q, reported errs p tg q ↔ violates false n vals p tg q) ∧
  (∀ name vals, fields_typed n vals → is_Some (validate g sv (VStruct name vals))).
Definition right_option (t : gtype) (o : option structValidator) : Prop :=
  match o with
  | Some sv => ∃ n, under (pointed t) = TStruct n ∧ right_plan n sv
  | None => ∀ z n vals p tg q, under (pointed t) = TStruct n → ¬ violates z n vals p tg q
  end.
Definition right_choice (t : option gtype) (o : option structValidator) : Prop :=
  match t with Some t => right_option t o | None => o = None end.

(** The plan of field [i]. *)
Definition plan_of (i : nat) (f : StructField) (fv : fieldValidator structValidator) : Prop :=
  f_Exported f = true ∧ (Get "validate" f ≠ "" ∨ Kind (f_Type f) = Struct) ∧
  ∃ n d, fv = MkFieldValidator (field_name f) i (Kind (f_Type f)) (own_rules f) (hasOmitEmptyRule (own_rules f)) n d (dives f) (element_rules f) ∧
    right_choice (nested_type f) n ∧ right_choice (dive_type f (dives f)) d.

Lemma nested_type_struct f t : nested_type f = Some t → t = pointed (f_Type f) ∧ Kind t = Struct.
Proof. unfold nested_type. case_decide; [|done]. case_decide; [done|]. by intros [= <-]. Qed.
Lemma deref_struct t : Kind t = Struct → pointed t = t.
Proof. unfold pointed. by intros ->. Qed.
Lemma dive_type_struct f t : dive_type f true = Some t → t = pointed (Elem (pointed (f_Type f))) ∧ Kind t = Struct.
Proof. unfold dive_type. case_match; [|done]. case_decide; [|done]. by intros [= <-]. Qed.

Lemma nested_reported f fv i v es p tg q : plan_of i f fv →
  match nested fv, nested_target v with
  | Some sv, Some x => es ← validate g sv x; Some (map (under_path (name fv)) es)
  | _, _ => Some []
  end = Some es →
  reported es p tg q ↔ ∃ t m m' vals p', p = field_name f +:+ "." +:+ p' ∧ nested_type f = Some t ∧ under (pointed t) = TStruct m ∧
    nested_target v = Some (VStruct m' vals) ∧ violates false m vals p' tg q.
Proof using.
  intros (_ & _ & n & d & -> & Hn & _). cbn [nested name]. destruct n as [sv|].
  - destruct (nested_type f) as [t|]; [|done]. destruct Hn as (m & Hm & Hv & _).
    destruct (nested_target v) as [x|].
    + destruct sv as [fs]. destruct x as [| | | | | | | | | | | |m' vals|]; try (by intros H; inversion H).
      destruct (validate g (SV fs) (VStruct m' vals)) as [es'|] eqn:E; [|done]. intros [= <-].
      rewrite reported_under. split.
      * intros (p' & -> & H). exists t, m, m', vals, p'. split_and!; try done. by apply (Hv _ _ _ E).
      * intros (t' & m1 & m2 & vals' & p' & -> & [= <-] & Hm1 & [= <- <-] & H). exists p'. split; [done|].
        rewrite Hm in Hm1. injection Hm1 as <-. by apply (Hv _ _ _ E).
    + intros [= <-]. split; [by intros ?%reported_nil|naive_solver].
  - intros [= <-]. split; [by intros ?%reported_nil|]. intros (t & m & m' & vals & p' & _ & Ht & Hm & _ & H).
    rewrite Ht in Hn. exfalso. by apply (Hn false m vals p' tg q).
Qed.

Lemma element_reported f i fv p x es : plan_of i f fv → dives f = true →
  validateDiveElement g (validate g) (diveRules fv) (dive fv) p x = Some es → ∀ q tg pr,
  reported es q tg pr ↔ hasOmitEmptyRule (element_rules f) && isZero x = false ∧
    (q = p ∧ element_violates f p x tg pr ∨
     ∃ t m m' vals p', q = p +:+ "." +:+ p' ∧ dive_type f true = Some t ∧ under (pointed t) = TStruct m ∧ pointee x = VStruct m' vals ∧ violates false m vals p' tg pr).
Proof using.
  intros (_ & _ & n & d & -> & _ & Hd) Hdives. cbn [dive diveRules]. rewrite Hdives in Hd. unfold validateDiveElement.
  destruct (hasOmitEmptyRule (element_rules f) && isZero x) eqn:Eo.
  { intros [= <-] q tg pr. split; [by intros ?%reported_nil|by intros []]. }
  fold (pointee x). destruct (check_rules _ _ _ _ _ _) as [es1|] eqn:E1; [|done]. cbn.
  assert (∀ q tg pr, reported es1 q tg pr ↔ q = p ∧ element_violates f p x tg pr) as H1.
  { intros q tg pr. rewrite (check_rules_reported _ _ _ _ _ _ E1). setoid_rewrite list_elem_of_singleton. split.
    - intros (-> & r & Hr & Hs & Hc & <- & <-). by split; [|constructor].
    - intros (-> & H). split; [done|]. inversion H; subst. by eexists. }
  destruct d as [sv|].
  - destruct (dive_type f true) as [t|]; [|done]. destruct Hd as (m & Hm & Hv & _).
    destruct (pointee x) as [| | | | | | | | | | | |m' vals|] eqn:Ex;
      try (intros [= <-] q tg pr; rewrite H1; naive_solver).
    destruct (validate g sv (VStruct m' vals)) as [es2|] eqn:E2; [|done]. intros [= <-] q tg pr.
    rewrite reported_app, reported_under, H1. split.
    + intros [H|(p' & -> & H)]; (split; [done|]); [by left|]. right. exists t, m, m', vals, p'. split_and!; try done.
      by apply (Hv _ _ _ E2).
    + intros (_ & [H|(t' & m1 & m2 & vals' & p' & -> & [= <-] & Hm1 & [= <- <-] & H)]); [by left|]. right. exists p'. split; [done|].
      rewrite Hm in Hm1. injection Hm1 as <-. by apply (Hv _ _ _ E2).
  - intros [= <-] q tg pr. rewrite H1. split; [naive_solver|]. intros (_ & [H|(t & m & m' & vals & p' & _ & Ht & Hm & _ & H)]); [done|].
    rewrite Ht in Hd. exfalso. by apply (Hd false m vals p' tg pr).
Qed.

Lemma field_reported f i fv v es : plan_of i f fv → validate_field g (validate g) fv v = Some es →
  ∀ p tg q, reported es p tg q ↔ field_violates false f v p tg q.
Proof using.
  intros Hp. unfold validate_field. intros H.
  destruct (if hasOmitEmpty fv && isZero v then _ else _) as [es1|] eqn:E1; [|done]. cbn in H.
  destruct (match nested fv with Some _ => _ | None => _ end) as [es2|] eqn:E2; [|done]. cbn in H.
  destruct (validateDiveRules _ _ _ _ _ _ _) as [es3|] eqn:E3; [|done]. cbn in H. injection H as <-.
  intros p tg q. rewrite !reported_app, (nested_reported _ _ _ _ _ p tg q Hp E2).
  assert (reported es3 p tg q ↔ dives f = true ∧ ∃ p1 x, (p1, x) ∈ elements (field_name f) v ∧
    hasOmitEmptyRule (element_rules f) && isZero x = false ∧
    (p = p1 ∧ element_violates f p1 x tg q ∨
     ∃ t m m' vals p', p = p1 +:+ "." +:+ p' ∧ dive_type f true = Some t ∧ under (pointed t) = TStruct m ∧ pointee x = VStruct m' vals ∧ violates false m vals p' tg q)) as ->.
  { pose proof Hp as (_ & _ & n & d & Hfv & _). unfold validateDiveRules in E3. rewrite Hfv in E3. cbn [hasDive name diveRules dive] in E3.
    destruct (dives f) eqn:Ed; cbn [negb] in E3; [|injection E3 as <-; split; [by intros ?%reported_nil|by intros []]].
    unfold reported. setoid_rewrite (collect_elem _ _ _ E3).
    pose proof (λ p1 x es', element_reported f i fv p1 x es' Hp Ed) as Hel. rewrite Hfv in Hel. cbn [diveRules dive] in Hel.
    split.
    - intros (e & ([p1 x] & es' & Hin & He & Hes) & He2). split; [done|]. exists p1, x. split; [done|].
      apply (Hel _ _ _ He p tg q). by exists e.
    - intros (_ & p1 & x & Hin & Ho & H).
      assert (is_Some (validateDiveElement g (validate g) (element_rules f) d p1 x)) as [es' He].
      { exact (collect_each _ _ _ E3 (p1, x) Hin). }
      assert (reported es' p tg q) as (e & Hes & He2) by (apply (Hel _ _ _ He p tg q); by split).
      exists e. split; [|done]. by exists (p1, x), es'. }
  pose proof Hp as (_ & _ & n & d & Hfv & _). rewrite Hfv in E1. cbn [hasOmitEmpty name fv_kind rules] in E1.
  split.
  - intros [H|[H|H]].
    + destruct (_ && _) eqn:Eo; [injection E1 as <-; by apply reported_nil in H|].
      apply (check_rules_reported _ _ _ _ _ _ E1) in H as (-> & r & Hr & Hs & Hc & <- & <-). by constructor.
    + destruct H as (t & m & m' & vals & p' & -> & Ht & Hm & [Hz Hx]%nested_inner & Hv).
      pose proof (in_struct false _ _ _ _ _ _ _ _ _ Ht Hm Hx Hv) as Hin. by rewrite Hz in Hin.
    + destruct H as (Hd & p1 & x & Hin & Ho & [[-> H]|(t & m & m' & vals & p' & -> & ?)]); [by econstructor|].
      destruct_and!. by eapply in_element.
  - intros H. inversion H as [? ? r Hr Hs Ho Hck|z ? ? t m m' vals p' ? ? Ht Hm Hx Hv Ez| |]; subst.
    + left. rewrite Ho in E1. apply (check_rules_reported _ _ _ _ _ _ E1). split; [done|]. by eexists.
    + right. left. apply orb_false_iff in Ez as [Ez ->]. exists t, m, m', vals, p'. split_and!; [done..| |by rewrite Ez]. by apply nested_inner.
    + right. right. split; [done|]. do 2 eexists. split_and!; [done..|]. by left.
    + right. right. split; [done|]. do 2 eexists. split_and!; [done..|]. right. by do 5 eexists.
Qed.

(** ** No panic *)

Lemma plan_total t o vals m : right_option t (Some o) → under (pointed t) = TStruct m → fields_typed m vals →
  is_Some (validate g o (VStruct m vals)).
Proof using. intros (m' & Hm & _ & Hr) E Ht. rewrite Hm in E. injection E as ->. by apply Hr. Qed.

Lemma elements_typed t path v p x : has_type t v → (p, x) ∈ elements path v → has_type (Elem (pointed t)) x.
Proof using.
  intros H Hin. pose proof (has_type_under _ _ H) as Hu.
  assert (pointed t = t ∧ has_type (Elem t) x) as [-> ?]; [|done]. unfold pointed, Kind, Elem.
  destruct v as [| | | | | | |[l|]| |[l|]| | | |]; cbn [elements default] in Hin; try by apply elem_of_nil in Hin.
  - destruct (under t) eqn:E; try (by inversion Hu); [|by apply under_not_named in E].
    inversion Hu as [| | | | | | |? ? Hl| | | | | | | | | |]; subst. split; [done|]. apply elem_of_lookup_imap in Hin as (i & y & [= -> ->] & Hy).
    exact (Forall_lookup_1 _ _ _ _ Hl Hy).
  - destruct (under t) eqn:E; try (by inversion Hu); [|by apply under_not_named in E].
    inversion Hu as [| | | | | | | | | |? ? ? Hl| | | | | | |]; subst. split; [done|].
    apply list_elem_of_fmap in Hin as ([k' y] & [= -> ->] & Hy). rewrite Forall_forall in Hl. exact (Hl _ Hy).
Qed.

Lemma nested_typed f v x : has_type (f_Type f) v → nested_target v = Some x → has_type (pointed (f_Type f)) x.
Proof using.
  unfold nested_target. intros H. destruct (typed_pointee _ _ H) as [->|Hp]; [done|]. destruct (IsZero v); [done|].
  assert (match v with VPtr (Some (_, y)) => Some y | _ => Some v end = Some (pointee v)) as -> by (by destruct v as [| | | | | | | | | |[[]|]| | |]).
  by intros [= <-].
Qed.

Lemma field_total n f i fv v : plan_of i f fv → f ∈ struct_fields n → has_type (f_Type f) v →
  is_Some (validate_field g (validate g) fv v).
Proof using Hunique.
  intros (_ & _ & o & d & -> & Hn & Hd) Hf Hv. unfold validate_field. cbn [hasOmitEmpty rules fv_kind name nested hasDive diveRules dive].
  assert (is_Some (if hasOmitEmptyRule (own_rules f) && isZero v then Some [] else
    check_rules g ["dive"; "omitempty"] (field_name f) v (Kind (f_Type f)) (own_rules f))) as [es1 ->].
  { destruct (_ && _); [by eexists|]. apply check_rules_total. eapply slice_safe; [exact Hv|]. intros r Hr Ht. by apply (Hunique n f r). }
  cbn.
  assert (is_Some (match o, nested_target v with
    | Some sv, Some x => es ← validate g sv x; Some (map (under_path (field_name f)) es) | _, _ => Some [] end)) as [es2 ->].
  { destruct o as [sv|]; [|by eexists]. destruct (nested_target v) as [x|] eqn:Ex; [|by eexists].
    destruct (nested_type f) as [t|] eqn:Et; [|done]. apply nested_type_struct in Et as [-> Hk]. destruct Hn as (m & Hm & Hr).
    destruct (typed_struct _ _ m (nested_typed _ _ _ Hv Ex)) as (vals & -> & Hvals); [by apply struct_named|].
    destruct (plan_total (pointed (f_Type f)) sv vals m) as [es ->]; [by exists m|done..|]. by eexists. }
  cbn. unfold validateDiveRules. destruct (dives f) eqn:Ed; cbn [negb]; [|by eexists].
  edestruct (collect_total (λ '(p, x), validateDiveElement g (validate g) (element_rules f) d p x) (elements (field_name f) v)) as [es3 ->]; [|by eexists].
  intros [p x] Hin. pose proof (elements_typed _ _ _ _ _ Hv Hin) as Hx. unfold validateDiveElement.
  destruct (_ && _); [by eexists|]. fold (pointee x). pose proof (typed_pointee _ _ Hx) as Hpx.
  destruct (check_rules_total ["omitempty"] p (pointee x) (ValueKind (pointee x)) (element_rules f)) as [es ->].
  { destruct Hpx as [->|Hpx]; [by intros ???|]. eapply slice_safe; [exact Hpx|]. intros r Hr Ht. by apply (Hunique n f r). }
  cbn. destruct d as [sv|]; [|by eexists]. destruct (pointee x) as [| | | | | | | | | | | |m' vals|] eqn:Epx; try by eexists.
  destruct Hpx as [->|Hpx]; [done|].
  destruct (dive_type f true) as [t|] eqn:Et; [|done]. apply dive_type_struct in Et as [-> Hk]. destruct Hd as (m & Hm & Hr).
  destruct (typed_struct _ _ m Hpx) as (vals' & [= -> ->] & Hvals); [by apply struct_named|].
  destruct (plan_total _ sv vals' m (ex_intro _ m (conj Hm Hr)) Hm Hvals) as [es' ->]. by eexists.
Qed.

(** ** Building *)

Definition cache_ok (c : gmap string structValidator) : Prop := ∀ n sv, c !! n = Some sv → right_plan n sv.
Definition considered (f : StructField) : Prop := f_Exported f = true ∧ (Get "validate" f ≠ "" ∨ Kind (f_Type f) = Struct).

Lemma no_tag_rules f : Get "validate" f = "" → rules_of f = ([], [], false).
Proof using. unfold rules_of. by intros ->. Qed.

Section building.
Context (rec : gtype → gmap string structValidator → option (option structValidator * gmap string structValidator)).
Hypothesis Hrec : ∀ t c o c', cache_ok c → rec t c = Some (o, c') → cache_ok c' ∧ right_option t o.

Lemma build_option_right t c o c' : cache_ok c → build_option rec t c = Some (o, c') → cache_ok c' ∧ right_choice t o.
Proof using Hrec. destruct t; cbn; [by apply Hrec|]. by intros ? [= <- <-]. Qed.

Lemma build_field_right i f c fvo has c' : cache_ok c → build_field rec i f c = Some (fvo, has, c') →
  cache_ok c' ∧
  match fvo with Some fv => plan_of i f fv | None => ¬ considered f end ∧
  (has = false → considered f → ∀ z v p tg q, ¬ field_violates z f v p tg q).
Proof using Hrec.
  intros Hc. unfold build_field, considered. destruct (f_Exported f) eqn:Ex; cbn [negb]; [|intros [= <- <- <-]; split_and!; naive_solver].
  case_bool_decide as Hk.
  2: destruct (String.eqb_spec (Get "validate" f) "") as [Ht|Ht]; cbn [negb andb]; [intros [= <- <- <-]; split_and!; naive_solver|].
  1: rewrite andb_false_r.
  all: destruct (rules_of f) as [[before after] dv] eqn:Er; destruct (build_option rec (nested_type f) c) as [[n c1]|] eqn:E1; [|done];
    apply build_option_right in E1 as [Hc1 Hn]; [|done]; cbn;
    destruct (build_option rec (dive_type f dv) c1) as [[d c2]|] eqn:E2; [|done];
    apply build_option_right in E2 as [Hc2 Hd]; [|done]; cbn; intros [= <- <- <-]; (split; [done|]);
    (split; [split; [done|]; split; [naive_solver|]; exists n, d; unfold own_rules, element_rules, dives; rewrite Er; by split_and!|]).
  - intros [[Ht%negb_false_iff%String.eqb_eq Hnn%bool_decide_eq_false]%orb_false_iff _]%orb_false_iff _ z v p tg q H.
    pose proof (no_tag_rules f Ht) as Hr. inversion H; subst; unfold own_rules, element_rules, dives in *; rewrite Hr in *; cbn in *; try done.
    + by apply elem_of_nil in H0.
    + destruct n as [sv|]; [by destruct Hnn; eexists|]. rewrite H0 in Hn. by eapply (Hn z0 m vals p0 tg q).
  - done.
Qed.

Lemma build_fields_right i fs c fvs has c' : cache_ok c → build_fields rec i fs c = Some (fvs, has, c') →
  cache_ok c' ∧
  (∀ fv, fv ∈ fvs → ∃ k f, fs !! k = Some f ∧ plan_of (i + k) f fv) ∧
  (∀ k f, fs !! k = Some f → considered f → ∃ fv, fv ∈ fvs ∧ plan_of (i + k) f fv) ∧
  (has = false → ∀ k f, fs !! k = Some f → considered f → ∀ z v p tg q, ¬ field_violates z f v p tg q).
Proof using Hrec.
  revert i c fvs has c'. induction fs as [|f fs IH]; intros i c fvs has c' Hc; cbn [build_fields].
  { intros [= <- <- <-]. split_and!; [done|by intros ? ?%elem_of_nil|done|done]. }
  destruct (build_field rec i f c) as [[[fvo h1] c1]|] eqn:E1; [|done]. cbn.
  destruct (build_field_right _ _ _ _ _ _ Hc E1) as (Hc1 & Hf & Hh1).
  destruct (build_fields rec (S i) fs c1) as [[[fvs2 h2] c2]|] eqn:E2; [|done]. cbn. intros [= <- <- <-].
  destruct (IH _ _ _ _ _ Hc1 E2) as (Hc2 & H1 & H2 & H3). split; [done|]. split_and!.
  - intros fv Hfv. assert (fvo = Some fv ∨ fv ∈ fvs2) as [->|Hin] by (destruct fvo; [apply elem_of_cons in Hfv as [->|]; auto|auto]).
    + exists 0, f. by rewrite Nat.add_0_r.
    + destruct (H1 fv Hin) as (k & f' & Hk & Hp). exists (S k), f'. by rewrite Nat.add_succ_r.
  - intros [|k] f' Hk Hcons.
    + injection Hk as <-. rewrite Nat.add_0_r. destruct fvo as [fv|]; [|done]. exists fv. by split; [left|].
    + destruct (H2 k f' Hk Hcons) as (fv & Hin & Hp). rewrite Nat.add_succ_r. exists fv. split; [|done]. destruct fvo; [by right|done].
  - intros [-> ->]%orb_false_iff [|k] f' Hk Hcons; [injection Hk as <-; by apply Hh1|by eapply H3].
Qed.
End building.

Lemma fields_right n fvs : (∀ fv, fv ∈ fvs → ∃ k f, struct_fields n !! k = Some f ∧ plan_of k f fv) →
  (∀ k f, struct_fields n !! k = Some f → considered f → ∃ fv, fv ∈ fvs ∧ plan_of k f fv) → right_plan n (SV fvs).
Proof using Htags Hunique.
  intros H1 H2. assert (∀ f k fv, plan_of k f fv → fieldIndex fv = k ∧ considered f) as Hidx.
  { intros f k fv (? & ? & o & d & -> & _). by split. }
  split.
  - intros name vals errs. cbn [validate]. destruct (Htags name (VStruct name vals)) as [-> Hs]. rewrite Hs.
    destruct (gather _ fvs) as [es|] eqn:E; [|done]. cbn. rewrite app_nil_r. intros [= <-] p tg q. unfold reported.
    setoid_rewrite (collect_elem _ _ _ E). split.
    + intros (e & (fv & es' & Hfv & He & Hin) & Hrep). destruct (H1 fv Hfv) as (k & f & Hk & Hp).
      destruct (Hidx _ _ _ Hp) as [Hi [Hx Hcons]]. rewrite Hi in He. destruct (vals !! k) as [v|] eqn:Ev; [|done]. cbn in He.
      apply (at_field false n vals k f v); [done|]. apply (field_reported f k fv v es' Hp He). by exists e.
    + intros H. inversion H as [? ? ? k f v ? ? ? (Hk & Hv & Hx & Hcons) Hfield]; subst.
      destruct (H2 k f Hk (conj Hx Hcons)) as (fv & Hfv & Hp). destruct (collect_each _ _ _ E fv Hfv) as [es' He].
      destruct (Hidx _ _ _ Hp) as [Hi _]. pose proof He as He'. rewrite Hi, Hv in He'. cbn in He'.
      apply (field_reported f k fv v es' Hp He') in Hfield as (e & Hin & Hrep). exists e. split; [|done]. by exists fv, es'.
  - intros name vals Hty. cbn [validate]. destruct (Htags name (VStruct name vals)) as [-> Hs]. rewrite Hs.
    edestruct (collect_total (λ fv, x ← vals !! fieldIndex fv; validate_field g (validate g) fv x) fvs) as [es ->]; [|by eexists].
    intros fv Hfv. destruct (H1 fv Hfv) as (k & f & Hk & Hp). destruct (Hidx _ _ _ Hp) as [-> _].
    destruct (Forall2_lookup_l _ _ _ _ _ Hty Hk) as (v & -> & Hv). cbn.
    apply (field_total n f k); [done| |done]. by eapply list_elem_of_lookup_2.
Qed.

Lemma build_right fuel t c o c' : cache_ok c → buildStructValidator fuel t c = Some (o, c') → cache_ok c' ∧ right_option t o.
Proof using Htags Hunique.
  revert t c o c'. induction fuel as [|fuel IH]; intros t c o c' Hc; [done|]. cbn [buildStructValidator].
  destruct (under (pointed t)) as [| | | | | | | | | | |n| |] eqn:Et; try (intros [= <- <-]; split; [done|]; by intros ? m ? ? ? ?; rewrite Et).
  destruct (c !! n) as [sv|] eqn:En; [intros [= <- <-]; split; [done|]; exists n; split; [done|by apply Hc]|].
  destruct (build_fields _ 0 (struct_fields n) c) as [[[fvs has] c1]|] eqn:E; [|done]. cbn.
  destruct (build_fields_right _ IH _ _ _ _ _ _ Hc E) as (Hc1 & H1 & H2 & H3). pose proof (fields_right n fvs H1 H2) as Hr.
  destruct has; intros [= <- <-].
  - split; [|by exists n]. intros m sv. rewrite lookup_insert. case_decide as Hm; [by subst; intros [= <-]|apply Hc1].
  - split; [done|]. intros z m vals p tg q Hm H. rewrite Et in Hm. injection Hm as <-.
    inversion H as [? ? ? k f v ? ? ? (Hk & Hv & Hx & Hcons) Hfield]; subst. by eapply (H3 eq_refl k f Hk (conj Hx Hcons)).
Qed.

(** The caches that earlier builds leave. *)
Inductive cache_reached : gmap string structValidator → Prop :=
  | at_start : cache_reached ∅
  | after_build fuel t c o c' : cache_reached c → buildStructValidator fuel t c = Some (o, c') → cache_reached c'.
Lemma reached_ok c : cache_reached c → cache_ok c.
Proof using Htags Hunique. induction 1 as [|fuel t c o c' _ IH E]; [by intros ? ? ?%lookup_empty_Some|]. by eapply build_right. Qed.

End laws.

(** * Which types have plans *)

Section ends.
Context {lib : RuleLib} {types : Types}.

(** A struct type is part of another's plan. *)
Definition part_of (m n : string) : Prop :=
  ∃ f t, f ∈ struct_fields n ∧ considered f ∧ (nested_type f = Some t ∨ dive_type f (dives f) = Some t) ∧ under (pointed t) = TStruct m.

Lemma build_option_ends rec t c : (∀ x, t = Some x → is_Some (rec x c)) → is_Some (build_option rec t c).
Proof. destruct t as [x|]; cbn; [by intros H; apply H|]. by eexists. Qed.

Lemma build_field_ends rec i f c :
  (considered f → ∀ x c, nested_type f = Some x ∨ dive_type f (dives f) = Some x → is_Some (rec x c)) →
  is_Some (build_field rec i f c).
Proof.
  intros H. unfold build_field. destruct (f_Exported f) eqn:Ex; cbn [negb]; [|by eexists].
  destruct (String.eqb_spec (Get "validate" f) "") as [Et|Et]; cbn [andb]; [case_bool_decide as Hk; cbn [negb]; [|by eexists]|].
  all: assert (considered f) as Hcons by (split; [done|]; auto); specialize (H Hcons).
  all: unfold dives in H; destruct (rules_of f) as [[before after] dv]; cbn in H.
  all: edestruct (build_option_ends rec (nested_type f) c) as [[n c1] ->]; [intros x Hx; apply H; by left|]; cbn.
  all: edestruct (build_option_ends rec (dive_type f dv) c1) as [[d c2] ->]; [intros x Hx; apply H; by right|]; cbn; by eexists.
Qed.

Lemma build_fields_ends rec i fs c :
  (∀ f, f ∈ fs → considered f → ∀ x c, nested_type f = Some x ∨ dive_type f (dives f) = Some x → is_Some (rec x c)) →
  is_Some (build_fields rec i fs c).
Proof.
  revert i c. induction fs as [|f fs IH]; intros i c H; cbn; [by eexists|].
  edestruct (build_field_ends rec i f c) as [[[fv h] c1] ->]; [apply H; left|]. cbn.
  edestruct (IH (S i) c1) as [[[fvs h2] c2] ->]; [intros f' Hf'; apply H; by right|]. cbn. by eexists.
Qed.

Lemma nested_is_struct f x : nested_type f = Some x ∨ dive_type f (dives f) = Some x → ∃ m, under (pointed x) = TStruct m.
Proof.
  intros H. assert (Kind x = Struct) as Hk.
  { destruct H as [[_ ?]%nested_type_struct|H]; [done|]. destruct (dives f); [by apply dive_type_struct in H as [_ ?]|done]. }
  rewrite deref_struct by done. unfold Kind in Hk. destruct (under x); try done; [by case_match|by eexists].
Qed.

(** What a build that ends has gone through. *)
Definition avoids (P : string → Prop) (c : gmap string structValidator) : Prop := ∀ n, P n → c !! n = None.

Section loops.
Context (P : string → Prop) (Hloop : ∀ n, P n → ∃ m, P m ∧ part_of m n).
Context (rec : gtype → gmap string structValidator → option (option structValidator * gmap string structValidator)).
Hypothesis Hrec : ∀ t c o c', avoids P c → rec t c = Some (o, c') → avoids P c' ∧ ∀ n, under (pointed t) = TStruct n → ¬ P n.

Lemma build_option_avoids t c o c' : avoids P c → build_option rec t c = Some (o, c') →
  avoids P c' ∧ ∀ x n, t = Some x → under (pointed x) = TStruct n → ¬ P n.
Proof using Hrec.
  destruct t as [x|]; cbn; [|by intros ? [= <- <-]]. intros Hc E. destruct (Hrec _ _ _ _ Hc E) as [? H]. split; [done|].
  intros y n [= <-]. apply H.
Qed.
Lemma build_fields_avoids i fs c r h c' : avoids P c → build_fields rec i fs c = Some (r, h, c') →
  avoids P c' ∧ ∀ f x n, f ∈ fs → considered f → nested_type f = Some x ∨ dive_type f (dives f) = Some x → under (pointed x) = TStruct n → ¬ P n.
Proof using Hrec.
  revert i c r h c'. induction fs as [|f fs IH]; intros i c r h c' Hc; cbn; [intros [= <- <- <-]; split; [done|by intros ??? ?%elem_of_nil]|].
  destruct (build_field rec i f c) as [[[fv h1] c1]|] eqn:E; [|done]. cbn.
  destruct (build_fields rec (S i) fs c1) as [[[fvs h2] c2]|] eqn:E2; [|done]. cbn. intros [= <- <- <-].
  assert (avoids P c1 ∧ ∀ x n, considered f → nested_type f = Some x ∨ dive_type f (dives f) = Some x → under (pointed x) = TStruct n → ¬ P n) as [Hc1 H1].
  { unfold build_field in E. unfold considered. destruct (f_Exported f); cbn [negb] in E; [|injection E as <- <- <-; split; [done|by intros ?? []]].
    destruct (_ && _) eqn:Eb.
    - injection E as <- <- <-. split; [done|]. apply andb_prop in Eb as [->%String.eqb_eq Hk%negb_true_iff%bool_decide_eq_false]. by intros ?? [_ []].
    - unfold dives. destruct (rules_of f) as [[before after] dv]. cbn.
      destruct (build_option rec (nested_type f) c) as [[n1 c3]|] eqn:E3; [|done]. cbn in E.
      destruct (build_option rec (dive_type f dv) c3) as [[n2 c4]|] eqn:E4; [|done]. cbn in E. injection E as <- <- <-.
      destruct (build_option_avoids _ _ _ _ Hc E3) as [Hc3 H3], (build_option_avoids _ _ _ _ Hc3 E4) as [Hc4 H4].
      split; [done|]. intros x n _ [?|?]; [by apply H3|by apply H4]. }
  destruct (IH _ _ _ _ _ Hc1 E2) as [Hc2 H2]. split; [done|]. intros f' x n [->|Hf]%elem_of_cons; [by apply H1|by apply H2].
Qed.
End loops.

Lemma build_avoids P fuel t c o c' : (∀ n, P n → ∃ m, P m ∧ part_of m n) → avoids P c →
  buildStructValidator fuel t c = Some (o, c') → avoids P c' ∧ ∀ n, under (pointed t) = TStruct n → ¬ P n.
Proof.
  intros Hloop. revert t c o c'. induction fuel as [|fuel IH]; intros t c o c' Hc; [done|]. cbn [buildStructValidator].
  destruct (under (pointed t)) as [| | | | | | | | | | |n| |]; try (by intros [= <- <-]).
  destruct (c !! n) as [sv|] eqn:En.
  { intros [= <- <-]. split; [done|]. intros m [= <-] Hm. by rewrite (Hc _ Hm) in En. }
  destruct (build_fields _ 0 (struct_fields n) c) as [[[fvs has] c1]|] eqn:E; [|done]. cbn.
  destruct (build_fields_avoids P _ IH _ _ _ _ _ _ Hc E) as [Hc1 H1].
  assert (¬ P n) as Hn.
  { intros (m & Hm & f & x & Hf & Hcons & Hx & Hu)%Hloop. by eapply H1. }
  destruct has; intros [= <- <-]; (split; [|by intros m [= <-]]); [|done].
  intros m Hm. rewrite lookup_insert_ne; [by apply Hc1|]. by intros ->.
Qed.

(** [C25] The recursion that makes a plan ends, with fuel for as many levels as structs are nested, for the
    types that are made of finitely deep structs; for those that contain themselves through validated fields, directly or
    through others, it never does, since a plan enters the cache only when it is done. *)
Theorem plan_ends_or_recurs :
  (∀ (D : string → Prop) (rank : string → nat) t n c fuel, (∀ m n, D n → part_of m n → D m ∧ rank m < rank n) →
    under (pointed t) = TStruct n → D n → rank n < fuel → is_Some (buildStructValidator fuel t c)) ∧
  (∀ (P : string → Prop) t n c fuel, (∀ n, P n → ∃ m, P m ∧ part_of m n) → avoids P c →
    under (pointed t) = TStruct n → P n → buildStructValidator fuel t c = None).
Proof.
  split.
  - intros D rank t n c fuel Hrank. revert t n c. induction fuel as [|fuel IH]; intros t n c Ht HD Hn; [lia|]. cbn [buildStructValidator].
    rewrite Ht. destruct (c !! n); [by eexists|].
    edestruct (build_fields_ends (buildStructValidator fuel) 0 (struct_fields n) c) as [[[fvs has] c1] ->]; [|cbn; destruct has; by eexists].
    intros f Hf Hcons x c1 Hx. destruct (nested_is_struct _ _ Hx) as [m Hm]. 
    destruct (Hrank m n HD) as [Hm' Hlt]; [by exists f, x|]. apply (IH x m c1 Hm Hm'). lia.
  - intros P t n c fuel Hloop Hc Ht Hn. destruct (buildStructValidator fuel t c) as [[o c']|] eqn:E; [|done].
    destruct (build_avoids P fuel t c o c' Hloop Hc E) as [_ H]. by destruct (H n Ht).
Qed.
End ends.

(** * A program with some types *)

#[local] Instance demo_lib : RuleLib := {
  ParseFloat s := match digits_of s with Some z => (f64_of_int z, true) | None => (f64_zero, false) end;
  ParseRequestURI _ := true; ParseIP _ := None; ParseCIDR _ := false; json_Valid _ := true; time_Parse _ _ := true;
  regexp_Compile _ := None; IsLetter r := (97 <=? r)%Z; IsDigit r := (r <? 58)%Z; ToLower := string_map to_lower_byte; FormatFloat _ _ := ""; Sprint _ := "";
  Interface_ _ := AnyOther "value" 0
}.
#[local] Instance demo_methods : ValidatorMethods := { SelfValidator _ := None; StructLevelValidator _ := None }.
Definition demo_field (n : string) (t : gtype) (json rules : string) : StructField :=
  MkField n t true false [("json", json); ("validate", rules)].
#[local] Instance demo_types : Types := λ n,
  if String.eqb n "User" then
    [demo_field "Name" TString "name,omitempty" "required,min=2"; demo_field "Home" (TStruct "Address") "home" "";
     demo_field "Emails" (TSlice TString) "emails" "max=2,dive,email"; demo_field "Age" (TPtr (TInt 64)) "age" "omitempty,min=18";
     demo_field "Others" (TPtr (TSlice (TStruct "Address"))) "others" "dive"; demo_field "Count" (TInt 64) "count" "max=9007199254740992"]
  else if String.eqb n "Address" then [demo_field "City" TString "city" "required"; demo_field "Zip" TString "zip" "omitempty,len=5"]
  else if String.eqb n "Node" then [demo_field "Children" (TSlice (TPtr (TStruct "Node"))) "children" "dive"]
  else if String.eqb n "Window" then [demo_field "Start" (TInt 64) "start" ""; demo_field "End" (TInt 64) "end" ""]
  else [].
Definition demo_registry : Registry := MkRegistry ∅ ∅ ∅.
Definition address (city zip : string) : gval := VStruct "Address" [VString city; VString zip].
Definition user (name : string) (home : gval) (emails : list gval) (age : option Z) (others : option (list gval)) (count : Z) : list gval :=
  [VString name; home; VSlice (Some emails); VPtr ((λ z, (1%Z, VInt z)) <$> age);
   VPtr ((λ l, (2%Z, VSlice (Some l))) <$> others); VInt count].
Definition demo_errors (n : string) (vals : list gval) : option (list (string * string)) :=
  match buildStructValidator 5 (TPtr (TStruct n)) ∅ with
  | Some (Some sv, _) => map (λ e, (ve_Field e, ve_Tag e)) <$> validate demo_registry sv (VStruct n vals)
  | _ => None
  end.

Example errors_check :
  demo_errors "User" (user "x" (address "" "123") [VString "a@b.cd"; VString "nobody"; VString ""] None None 1%Z) =
  Some [("name", "min"); ("home.city", "required"); ("home.zip", "len"); ("emails", "max"); ("emails[1]", "email"); ("emails[2]", "email")].
Proof. vm_compute. reflexivity. Qed.

(** A struct in a field is left out when it is zero, so what it requires is not required of a request that
    leaves all of it out. *)
Example zero_struct_skipped :
  demo_errors "User" (user "Ann" (address "" "") [] None None 1%Z) = Some [] ∧
  demo_errors "User" (user "Ann" (address "" "12345") [] None None 1%Z) = Some [("home.city", "required")].
Proof. vm_compute. done. Qed.

(** The rules of a field that is a pointer look at the pointer: a number behind it counts as zero, and the
    elements of a slice behind it are not looked at. *)
Example pointer_not_followed :
  demo_errors "User" (user "Ann" (address "Oslo" "") [] (Some 40%Z) None 1%Z) = Some [("age", "min")] ∧
  demo_errors "User" (user "Ann" (address "Oslo" "") [] None (Some [address "" "1"]) 1%Z) = Some [].
Proof. vm_compute. done. Qed.

(** Integers are compared as floating-point numbers. *)
Example large_integer_rounded :
  demo_errors "User" (user "Ann" (address "Oslo" "") [] None None (2 ^ 53 + 1)%Z) = Some [] ∧
  demo_errors "User" (user "Ann" (address "Oslo" "") [] None None (2 ^ 53 + 2)%Z) = Some [("count", "max")].
Proof. vm_compute. done. Qed.

(** Elements of an interface type are compared with their dynamic types: [int(1)] and [int64(1)] differ.
    Elements that cannot be compared make [unique] panic. *)
Example unique_interfaces :
  let ints t := VInterface (Some (t, VInt 1)) in
  checkUnique (VSlice (Some [ints int_type; ints (TInt 64)])) = Some true ∧
  checkUnique (VSlice (Some [ints int_type; ints int_type])) = Some false.
Proof. vm_compute. done. Qed.
Example unique_panics :
  let sv := SV [MkFieldValidator "tags" 0 Slice [MkRule "unique" "" f64_zero false None] false None None false []] in
  checkUnique (VSlice (Some [VSlice None; VSlice None])) = None ∧
  validate demo_registry sv (VStruct "Query" [VSlice (Some [VSlice None; VSlice None])]) = None.
Proof. vm_compute. done. Qed.

(** A type without tags has no plan, and without one its methods are not asked. *)
Example methods_need_tags : buildStructValidator 5 (TStruct "Window") ∅ = Some (None, ∅).
Proof. vm_compute. reflexivity. Qed.

Lemma demo_tags_only : tags_only demo_registry.
Proof. intros n v. split; [done|]. unfold struct_level. cbn. by rewrite lookup_empty. Qed.
Lemma demo_unique : unique_comparable.
Proof.
  intros n f r Hf Ht. assert (∀ f, f ∈ struct_fields n → Forall (λ r, tag r ≠ "unique") (own_rules f ++ element_rules f)) as H.
  { unfold struct_fields, demo_types. clear. intros f Hf. apply (Forall_forall (λ f, Forall (λ r, tag r ≠ "unique") (own_rules f ++ element_rules f))) in Hf; [done|].
    repeat case_match; try (by constructor); apply (bool_decide_unpack _); vm_compute; done. }
  specialize (H f Hf). apply Forall_app in H as [H1 H2]. rewrite !Forall_forall in *. split; intros Hr; [by destruct (H1 r Hr)|by destruct (H2 r Hr)].
Qed.

Lemma demo_parts m n : part_of m n → n = "User" ∧ m = "Address" ∨ n = "Node" ∧ m = "Node".
Proof.
  intros (f & t & Hf & _ & Ht & Hm). unfold struct_fields, demo_types in Hf.
  destruct (String.eqb_spec n "User") as [->|_]; [|destruct (String.eqb_spec n "Address") as [->|_];
    [|destruct (String.eqb_spec n "Node") as [->|_]; [|destruct (String.eqb n "Window")]]].
  all: repeat (apply elem_of_cons in Hf as [->|Hf]); try (by apply elem_of_nil in Hf).
  all: destruct Ht as [Ht|Ht]; vm_compute in Ht; try discriminate Ht; injection Ht as <-; vm_compute in Hm; injection Hm as <-; auto.
Qed.

Lemma plan_ends_or_recurs_witness :
  is_Some (buildStructValidator 2 (TPtr (TStruct "User")) ∅) ∧
  ∀ fuel, buildStructValidator fuel (TStruct "Node") ∅ = None.
Proof.
  split.
  - apply (proj1 plan_ends_or_recurs (λ n, n ≠ "Node") (λ n, if String.eqb n "User" then 1 else 0) (TPtr (TStruct "User")) "User");
      [|reflexivity|done|vm_compute; lia].
    intros m n Hn [[-> ->]|[-> _]]%demo_parts; [|done]. split; [done|]. vm_compute. lia.
  - intros fuel. apply (proj2 plan_ends_or_recurs (λ n, n = "Node") (TStruct "Node") "Node"); [|by intros n _; apply lookup_empty|reflexivity|reflexivity].
    intros n ->. exists "Node". split; [reflexivity|]. exists (demo_field "Children" (TSlice (TPtr (TStruct "Node"))) "children" "dive"), (TStruct "Node").
    split; [left|]. split; [split; [reflexivity|left; vm_compute; discriminate]|]. split; [right|]; reflexivity.
Defined.

