(* ===== verification/Binder.v ===== *)
(** Binding (binder.go): which field of a request type comes from where, read from its tags into a plan, and
    the walk of the plan that fills a value from the request. *)
From S2P Require Import Prelude GoStrings Float64 Errors Reflect Validator.
From Stdlib Require Import SpecFloat.

(** What the plan asks of the program and of the library: new values, the types with a [ParseParam] or a
    [BindFromContext] of their own, and the texts of errors. *)
Class BindLib : Type := {
  New : gtype → Z * gval;
  ParseParam : gtype → option (string → gval → gval * option error);
  BindFromContext : string → option (gval → gval * option error);
  num_error : string → string → error;
  Quote : string → string;
  kind_text : gtype → string
}.

(** What the context of a request gives for a name: path, query, header and form values are empty when absent;
    a form is absent when it cannot be parsed. *)
Inductive file_result : Type := FileOk (v : gval) | FileMissing | FileError (e : error).
Record Inputs : Type := MkInputs {
  in_Param : string → string;
  in_query : string → string;
  in_header : string → string;
  in_cookie : string → option string;
  in_form : string → string;
  ParseForm : option error;
  parseMultipart : option error;
  FormFile : string → file_result;
  FormFiles : string → file_result
}.

(** * Setting a field from a string *)

(** Integers of [bits] bits. *)
Definition wrap_int (bits z : Z) : Z := ((z + 2 ^ (bits - 1)) mod 2 ^ bits - 2 ^ (bits - 1))%Z.
Definition wrap_uint (bits z : Z) : Z := (z mod 2 ^ bits)%Z.
Definition ParseUint (s : string) : option Z :=
  n ← digits_of s; if (n <=? 2 ^ 64 - 1)%Z then Some n else None.
Definition ParseBool (s : string) : option bool :=
  if bool_decide (s ∈ ["1"; "t"; "T"; "TRUE"; "true"; "True"]) then Some true
  else if bool_decide (s ∈ ["0"; "f"; "F"; "FALSE"; "false"; "False"]) then Some false
  else None.
(** [float32(x)], as a [float64]. *)
Definition to_float32 (x : float64) : float64 :=
  match x with
  | S754_finite s m e =>
      match binary_normalize 24 128 (cond_Zopp s (Zpos m)) e s with
      | S754_finite s' m' e' => binary_normalize 53 1024 (cond_Zopp s' (Zpos m')) e' s'
      | y => y
      end
  | _ => x
  end.

Section binder.
Context {lib : RuleLib} {blib : BindLib} {types : Types}.

Definition cannot_parse (raw what : string) (e : error) : error :=
  Wrapped ("cannot parse " +:+ Quote raw +:+ " as " +:+ what +:+ ": " +:+ error_string e) e.

(** [buildFieldSetter(t)(field, raw)]: the new value of the field or an error; [None] for the panic of
    [Set] on a slice whose elements are strings of another name. *)
Definition buildFieldSetter (t : gtype) (raw : string) : option (gval + error) :=
  let unsupported := Some (inr (ErrorText ("unsupported field kind: " +:+ kind_text t))) in
  match under t with
  | TString => Some (inl (VString raw))
  | TInt bits =>
      match ParseInt raw with
      | Some n => Some (inl (VInt (wrap_int bits n)))
      | None => Some (inr (cannot_parse raw "int" (num_error "ParseInt" raw)))
      end
  | TUint bits =>
      match ParseUint raw with
      | Some n => Some (inl (VUint (wrap_uint bits n)))
      | None => Some (inr (cannot_parse raw "uint" (num_error "ParseUint" raw)))
      end
  | TFloat bits =>
      match ParseFloat raw with
      | (x, true) => Some (inl (if (bits =? 32)%Z then VFloat32 (to_float32 x) else VFloat64 x))
      | (_, false) => Some (inr (cannot_parse raw "float" (num_error "ParseFloat" raw)))
      end
  | TBool =>
      match ParseBool raw with
      | Some b => Some (inl (VBool b))
      | None => Some (inr (cannot_parse raw "bool" (num_error "ParseBool" raw)))
      end
  | TSlice e =>
      if decide (Kind e = String_) then
        if decide (e = TString) then Some (inl (VSlice (Some (map VString (split_byte "," raw))))) else None
      else unsupported
  | _ => unsupported
  end.

(** * Plans *)

Inductive bindSource : Type := sourceParam | sourceQuery | sourceHeader | sourceCookie | sourceForm.
#[export] Instance bindSource_eq_dec : EqDecision bindSource.
Proof. solve_decision. Defined.

Record fieldBinding : Type := MkBinding {
  source : bindSource;
  fb_name : string;
  fb_index : list nat;
  fb_type : gtype;
  defaultValue : string;
  hasDefault : bool;
  hasParamParser : bool
}.
Record fileFieldBinding : Type := MkFileBinding { ff_name : string; ff_index : list nat; isSlice : bool }.
Record structBinder : Type := MkBinder {
  fields : list fieldBinding;
  fileFields : list fileFieldBinding;
  defaults : list fieldBinding;
  hasDefaults : bool;
  needBody : bool;
  needForm : bool;
  needMultipart : bool
}.
Definition no_binder : structBinder := MkBinder [] [] [] false false false false.

Definition uploadedFileType : gtype := TPtr (TStruct "UploadedFile").
Definition uploadedFileSliceType : gtype := TSlice uploadedFileType.

(** The source that the tags of a field name, the first of them that is there. *)
Definition source_tags : list (string * bindSource) :=
  [("param", sourceParam); ("query", sourceQuery); ("header", sourceHeader); ("cookie", sourceCookie); ("form", sourceForm)].
Definition source_of (f : StructField) : option (bindSource * string) :=
  head (omap (λ '(tag, s), let n := Get tag f in if String.eqb n "" then None else Some (s, n)) source_tags).

Definition with_parent (i : nat) (fb : fieldBinding) : fieldBinding :=
  MkBinding (source fb) (fb_name fb) (i :: fb_index fb) (fb_type fb) (defaultValue fb) (hasDefault fb) (hasParamParser fb).
Definition file_with_parent (i : nat) (ff : fileFieldBinding) : fileFieldBinding :=
  MkFileBinding (ff_name ff) (i :: ff_index ff) (isSlice ff).
(** The plan of an embedded struct is taken over. *)
Definition embed (i : nat) (e sb : structBinder) : structBinder :=
  MkBinder (fields sb ++ map (with_parent i) (fields e)) (fileFields sb ++ map (file_with_parent i) (fileFields e))
    (defaults sb ++ map (with_parent i) (defaults e)) (hasDefaults sb || hasDefaults e) (needBody sb || needBody e)
    (needForm sb || needForm e) (needMultipart sb || needMultipart e).

Definition binding_of (i : nat) (f : StructField) : fieldBinding :=
  let '(s, n) := default (sourceParam, "") (source_of f) in
  let d := Get "default" f in
  MkBinding s n [i] (f_Type f) d (negb (String.eqb d "")) (bool_decide (is_Some (ParseParam (pointed (f_Type f))))).

(** What a field that is not embedded adds to the plan; the panic is for a file tag on another type. *)
Definition add_field (i : nat) (f : StructField) (sb : structBinder) : outcome structBinder :=
  let fb := binding_of i f in
  let file := Get "file" f in
  let is_file := negb (bool_decide (is_Some (source_of f))) && negb (String.eqb file "") in
  if is_file && negb (bool_decide (f_Type f = uploadedFileType ∨ f_Type f = uploadedFileSliceType)) then
    Panic ("aarv: file tag on field " +:+ Quote (f_Name f) +:+ " requires *UploadedFile or []*UploadedFile")
  else
    let json := Get "json" f in
    Ret (MkBinder
      (if bool_decide (is_Some (source_of f)) then fields sb ++ [fb] else fields sb)
      (if is_file then fileFields sb ++ [MkFileBinding file [i] (bool_decide (f_Type f = uploadedFileSliceType))] else fileFields sb)
      (if hasDefault fb then defaults sb ++ [fb] else defaults sb)
      (hasDefaults sb || hasDefault fb)
      (needBody sb || negb (String.eqb json "") && negb (String.eqb json "-"))
      (needForm sb || bool_decide (fst <$> source_of f = Some sourceForm))
      (needMultipart sb || is_file)).

Section binder_fields.
Context (build : gtype → option (outcome (option structBinder))).
Fixpoint add_fields (i : nat) (fs : list StructField) (sb : structBinder) : option (outcome structBinder) :=
  match fs with
  | [] => Some (Ret sb)
  | f :: fs' =>
      if negb (f_Exported f) then add_fields (S i) fs' sb
      else if f_Anonymous f && bool_decide (Kind (f_Type f) = Struct) then
        e ← build (f_Type f);
        match e with
        | Ret (Some e) => add_fields (S i) fs' (embed i e sb)
        | Ret None => add_fields (S i) fs' sb
        | Panic msg => Some (Panic msg)
        end
      else
        match add_field i f sb with
        | Ret sb => add_fields (S i) fs' sb
        | Panic msg => Some (Panic msg)
        end
  end.
End binder_fields.

(** The fuel is for structs embedded in structs. (The cache keeps what a type gave before.) *)
Fixpoint buildStructBinder (fuel : nat) (t : gtype) : option (outcome (option structBinder)) :=
  match fuel with
  | O => None
  | S fuel =>
      match under (pointed t) with
      | TStruct n =>
          sb ← add_fields (buildStructBinder fuel) 0 (struct_fields n) no_binder;
          Some (match sb with Ret sb => Ret (Some sb) | Panic msg => Panic msg end)
      | _ => Some (Ret None)
      end
  end.

(** * Filling a value *)

(** [v.FieldByIndex(index)], and setting it. *)
Fixpoint FieldByIndex (index : list nat) (v : gval) : option gval :=
  match index, v with
  | [], _ => Some v
  | i :: index', VStruct _ l => x ← l !! i; FieldByIndex index' x
  | _, _ => None
  end.
Fixpoint set_field (index : list nat) (x v : gval) : option gval :=
  match index, v with
  | [], _ => Some x
  | i :: index', VStruct n l => y ← l !! i; y' ← set_field index' x y; Some (VStruct n (<[i := y']> l))
  | _, _ => None
  end.

(** The text that the request has for a binding; a cookie may be there and empty. *)
Definition found (inp : Inputs) (fb : fieldBinding) : option string :=
  let nonempty s := if String.eqb s "" then None else Some s in
  match source fb with
  | sourceParam => nonempty (in_Param inp (fb_name fb))
  | sourceQuery => nonempty (in_query inp (fb_name fb))
  | sourceHeader => nonempty (in_header inp (fb_name fb))
  | sourceCookie => in_cookie inp (fb_name fb)
  | sourceForm => match ParseForm inp with None => nonempty (in_form inp (fb_name fb)) | Some _ => None end
  end.
Definition raw_value (inp : Inputs) (fb : fieldBinding) : option string :=
  match found inp fb with
  | Some raw => Some raw
  | None => if hasDefault fb then Some (defaultValue fb) else None
  end.

Definition parseWithParamParser (t : gtype) (v : gval) (raw : string) : gval * option error :=
  match ParseParam (pointed t), v with
  | Some parse, VPtr p =>
      let '(a, x) := default (New (pointed t)) p in
      let '(x, err) := parse raw x in (VPtr (Some (a, x)), err)
  | Some parse, _ => parse raw v
  | None, _ => (v, None)
  end.

Definition in_field (name : string) (e : error) : error :=
  Wrapped ("field " +:+ name +:+ ": " +:+ error_string e) e.

(** One turn of the loop of [bind]: [None] for a panic. *)
Definition bind_field (inp : Inputs) (fb : fieldBinding) (v : gval) : option (gval * option error) :=
  match raw_value inp fb with
  | None => Some (v, None)
  | Some raw =>
      x ← FieldByIndex (fb_index fb) v;
      if hasParamParser fb then
        let '(y, err) := parseWithParamParser (fb_type fb) x raw in
        v' ← set_field (fb_index fb) y v; Some (v', in_field (fb_name fb) <$> err)
      else
        r ← buildFieldSetter (fb_type fb) raw;
        match r with
        | inl y => v' ← set_field (fb_index fb) y v; Some (v', None)
        | inr err => Some (v, Some (in_field (fb_name fb) err))
        end
  end.
Definition bind_file (inp : Inputs) (ff : fileFieldBinding) (v : gval) : option (gval * option error) :=
  match (if isSlice ff then FormFiles inp (ff_name ff) else FormFile inp (ff_name ff)) with
  | FileMissing => Some (v, None)
  | FileError e => Some (v, Some (AsBind "file" (Some e)))
  | FileOk x => v' ← set_field (ff_index ff) x v; Some (v', None)
  end.

(** A loop that ends at the first error. *)
Fixpoint bind_loop {A : Type} (step : A → gval → option (gval * option error)) (l : list A) (v : gval)
  : option (gval * option error) :=
  match l with
  | [] => Some (v, None)
  | x :: l' =>
      '(v', err) ← step x v;
      match err with Some e => Some (v', Some e) | None => bind_loop step l' v' end
  end.

(** [None] for a panic. *)
Definition bind (sb : structBinder) (inp : Inputs) (v : gval) : option (gval * option error) :=
  match v with
  | VStruct n _ =>
      match BindFromContext n with
      | Some own => Some (own v)
      | None =>
          match (if needMultipart sb then parseMultipart inp else None) with
          | Some e => Some (v, Some (AsBind "file" (Some e)))
          | None =>
              '(v', err) ← bind_loop (bind_field inp) (fields sb) v;
              match err with
              | Some e => Some (v', Some e)
              | None => if needMultipart sb then bind_loop (bind_file inp) (fileFields sb) v' else Some (v', None)
              end
          end
      end
  | _ => None
  end.

(** [applyDefaults]: a default that does not fit its field is left out. *)
Definition apply_default (fb : fieldBinding) (v : gval) : option gval :=
  x ← FieldByIndex (fb_index fb) v;
  if IsZero x then
    r ← buildFieldSetter (fb_type fb) (defaultValue fb);
    match r with inl y => set_field (fb_index fb) y v | inr _ => Some v end
  else Some v.
Fixpoint apply_defaults (fbs : list fieldBinding) (v : gval) : option gval :=
  match fbs with
  | [] => Some v
  | fb :: fbs' => v' ← apply_default fb v; apply_defaults fbs' v'
  end.
Definition applyDefaults (sb : structBinder) (v : gval) : option gval := apply_defaults (defaults sb) v.

(** * Query and form structs *)

Record simpleFieldBinding : Type := MkSimple { sf_name : string; sf_index : nat; sf_type : gtype; defaultVal : string }.
Definition buildQueryBinder (t : gtype) : option (list simpleFieldBinding) :=
  match under (pointed t) with
  | TStruct n => Some (omap (λ '(i, f),
      let q := Get "query" f in
      if f_Exported f && negb (String.eqb q "") then Some (MkSimple q i (f_Type f) (Get "default" f)) else None)
      (imap pair (struct_fields n)))
  | _ => None
  end.
Definition form_name (f : StructField) : string :=
  let n := Get "form" f in
  let n := if String.eqb n "" then Get "json" f else n in
  if String.eqb n "-" then "" else match cut_byte "," n with Some (n, _) => n | None => n end.
Definition buildFormBinder (t : gtype) : option (list simpleFieldBinding) :=
  match under (pointed t) with
  | TStruct n => Some (omap (λ '(i, f),
      if f_Exported f && negb (String.eqb (form_name f) "") then Some (MkSimple (form_name f) i (f_Type f) "") else None)
      (imap pair (struct_fields n)))
  | _ => None
  end.

Definition bind_simple (kind : string) (values : string → string) (sf : simpleFieldBinding) (v : gval)
  : option (gval * option error) :=
  let raw := values (sf_name sf) in
  let raw := if String.eqb raw "" then defaultVal sf else raw in
  if String.eqb raw "" then Some (v, None)
  else
    r ← buildFieldSetter (sf_type sf) raw;
    match r with
    | inl y => v' ← set_field [sf_index sf] y v; Some (v', None)
    | inr err => Some (v, Some (Wrapped (kind +:+ " field " +:+ sf_name sf +:+ ": " +:+ error_string err) err))
    end.
Definition bindQueryParams (inp : Inputs) (t : gtype) (v : gval) : option (gval * option error) :=
  match buildQueryBinder t with
  | None => Some (v, None)
  | Some sfs => bind_loop (bind_simple "query" (in_query inp)) sfs v
  end.
Definition bindFormValues (inp : Inputs) (t : gtype) (v : gval) : option (gval * option error) :=
  match buildFormBinder t with
  | None => Some (v, None)
  | Some sfs =>
      match ParseForm inp with
      | Some e => Some (v, Some e)
      | None => bind_loop (bind_simple "form" (in_form inp)) sfs v
      end
  end.
End binder.
