(* ===== verification/Bind.v ===== *)
(** Typed handlers (bind.go): binding, body, defaults and validation around a handler of the user, with the
    hooks between them; [Bind] answers with its result as JSON, [BindReq] leaves the answer to it, [BindRes]
    takes no request. *)
From S2P Require Import Prelude GoStrings Http Errors RequestContext Hooks App Reflect Validator Binder.
Open Scope go_scope.

(** The steps of a handler that return at the first error. *)
Definition go_try (step k : HandlerFunc) : HandlerFunc :=
  let! err := step in
  match err with Some e => go_ret (Some e) | None => k end.

(** A panic in reflection. *)
Definition or_panic {A : Type} (o : option A) : GoM World A :=
  match o with Some a => go_ret a | None => go_panic "reflect" end.

(** What the codec and the context give to a typedHandler handler. *)
Class BindContext : Type := {
  codecUnmarshal : string → gval → gval * option error;
  codecDecode : gval → GoM World (gval * option error);
  inputs : World → Inputs
}.

Section bind.
Context {lib : RuleLib} {blib : BindLib} {types : Types} {methods : ValidatorMethods} {ctx : BindContext}.

(** [c.BindJSON(&req)]. *)
Definition BindJSON (v : gval) : GoM World (gval * option error) :=
  let! n := get_ctx (λ c, r_ContentLength (c_req c)) in
  if (0 <? n)%Z && (n <? 10240)%Z then
    let! body := Body in
    match body with
    | inr err => go_ret (v, Some err)
    | inl data => go_ret (codecUnmarshal data v)
    end
  else codecDecode v.

(** [c.BindQuery(&v)] and [c.BindForm(&v)]. *)
Definition BindQuery (t : gtype) (v : gval) : GoM World (gval * option error) :=
  let! inp := go_get inputs in or_panic (bindQueryParams inp t v).
Definition BindForm (t : gtype) (v : gval) : GoM World (gval * option error) :=
  let! inp := go_get inputs in or_panic (bindFormValues inp t v).

(** A typedHandler handler as registration leaves it: its plans and the zero request. *)
Record typedHandler : Type := MkTyped {
  binder : option structBinder;
  validator : option structValidator;
  zero : gval
}.
Definition needs_body (h : typedHandler) : bool := match binder h with Some b => needBody b | None => false end.
Definition needs_binding (h : typedHandler) : bool :=
  match binder h with
  | Some b => (0 <? length (fields b))%nat || (0 <? length (fileFields b))%nat
  | None => false
  end.
Definition needs_defaults (h : typedHandler) : bool := match binder h with Some b => hasDefaults b | None => false end.

(** Registration: the plans of the request type, with fuel for its nesting; [None] while it has not ended. *)
Definition register (fuel : nat) (t : gtype) (z : gval) (c : gmap string structValidator)
  : option (outcome typedHandler * gmap string structValidator) :=
  match buildStructBinder fuel t with
  | None => None
  | Some (Panic msg) => Some (Panic msg, c)
  | Some (Ret b) =>
      '(v, c) ← buildStructValidator fuel t c; Some (Ret (MkTyped b v z), c)
  end.

Section handler.
Context (rt : Runtime) (g : Registry) (h : typedHandler).

Definition phase_hooks (phase : HookPhase) : HandlerFunc :=
  if hasHook rt phase then run phase (hooks rt) else go_ret None.

(** The body, if there is one. *)
Definition parse_body (v : gval) (k : gval → HandlerFunc) : HandlerFunc :=
  let! n := get_ctx (λ c, r_ContentLength (c_req c)) in
  if (n =? 0)%Z then k v
  else
    go_try (phase_hooks PreParsing) (
      let! r := BindJSON v in
      match r.2 with
      | Some err => go_ret (Some (AsBind "body" (Some err)))
      | None => k r.1
      end).

Definition check_value (v : gval) (k : HandlerFunc) : HandlerFunc :=
  match validator h with
  | None => k
  | Some sv =>
      let! errs := or_panic (validate g sv v) in
      if (0 <? length errs)%nat then go_ret (Some (AsValidation errs)) else k
  end.

(** What follows the value: hooks, validation, hooks, and the handler. *)
Definition checked (call : gval → HandlerFunc) (v : gval) : HandlerFunc :=
  go_try (phase_hooks PreValidation) (check_value v (go_try (phase_hooks PreHandler) (call v))).

(** The handler of a type that only has a body. *)
Definition fast_path (call : gval → HandlerFunc) : HandlerFunc := parse_body (zero h) (checked call).

(** The handler of any type. *)
Definition bind_step (k : gval → HandlerFunc) : HandlerFunc :=
  match binder h with
  | Some b =>
      if needs_binding h then
        let! inp := go_get inputs in
        let! r := or_panic (bind b inp (zero h)) in
        match r.2 with
        | Some err => go_ret (Some (AsBind "binding" (Some err)))
        | None => k r.1
        end
      else k (zero h)
  | None => k (zero h)
  end.
Definition body_step (v : gval) (k : gval → HandlerFunc) : HandlerFunc :=
  if needs_body h then parse_body v k else k v.
Definition default_step (v : gval) (k : gval → HandlerFunc) : HandlerFunc :=
  match binder h with
  | Some b => if needs_defaults h then let! v := or_panic (applyDefaults b v) in k v else k v
  | None => k v
  end.
Definition full_path (call : gval → HandlerFunc) : HandlerFunc :=
  bind_step (λ v, body_step v (λ v, default_step v (checked call))).

Definition typed_handler (call : gval → HandlerFunc) : HandlerFunc :=
  if needs_body h && negb (needs_binding h) && negb (needs_defaults h) then fast_path call else full_path call.

(** The answer of a handler that returns a result. *)
Definition respond (result : GoM World (any + error)) : HandlerFunc :=
  let! r := result in
  match r with
  | inr err => go_ret (Some err)
  | inl res =>
      let! written := get_ctx Written in
      if (written : bool) then go_ret None else JSON 200 (PValue res)
  end.

Definition Bind (fn : gval → GoM World (any + error)) : HandlerFunc := typed_handler (λ v, respond (fn v)).
Definition BindReq (fn : gval → HandlerFunc) : HandlerFunc := typed_handler fn.
Definition BindRes (fn : GoM World (any + error)) : HandlerFunc :=
  go_try (phase_hooks PreHandler) (respond fn).
End handler.
End bind.
