(* ===== verification/BindLaws.v ===== *)
(** What typedHandler handlers promise: a value is filled field by field from the sources its tags name, and the
    handler is called once, with a value that validation accepts, or not at all. *)
From S2P Require Import Prelude GoStrings Float64 Http Errors RequestContext Hooks App Reflect Validator Binder Bind.
From Stdlib Require Import SpecFloat.
Open Scope go_scope.

(** * Filling a value *)

Section filling.
Context {lib : RuleLib} {blib : BindLib} {types : Types}.

(** Two places of a value, neither within the other. *)
Fixpoint apart (i j : list nat) : Prop :=
  match i, j with a :: i', b :: j' => a ≠ b ∨ apart i' j' | _, _ => False end.
Lemma apart_sym i j : apart i j → apart j i.
Proof. revert j. induction i as [|a i IH]; intros [|b j]; cbn; try done. intros [?|?]; [by left|right; by apply IH]. Qed.

Lemma set_field_get index x v v' : set_field index x v = Some v' →
  FieldByIndex index v' = Some x ∧ ∀ j, apart index j → FieldByIndex j v' = FieldByIndex j v.
Proof.
  revert v v'. induction index as [|i index IH]; intros v v'; cbn [set_field].
  { intros [= <-]. split; [done|]. by intros []. }
  destruct v as [| | | | | | | | | | | |n l|]; try done. destruct (l !! i) as [y|] eqn:Ey; [|done]. cbn.
  destruct (set_field index x y) as [y'|] eqn:E; [|done]. cbn. intros [= <-]. destruct (IH _ _ E) as [H1 H2]. cbn.
  apply lookup_lt_Some in Ey as Hlt. rewrite list_lookup_insert_eq by done. split; [done|].
  intros [|b j]; [done|]. intros H. cbn. destruct (decide (i = b)) as [<-|Hne].
  - rewrite list_lookup_insert_eq, Ey by done. cbn. apply H2. by destruct H as [|].
  - by rewrite list_lookup_insert_ne.
Qed.
Lemma set_field_total index x v : is_Some (FieldByIndex index v) → is_Some (set_field index x v).
Proof.
  revert v. induction index as [|i index IH]; intros v; cbn; [by eexists|].
  destruct v as [| | | | | | | | | | | |n l|]; try (by intros []; done). destruct (l !! i) as [y|]; [|by intros []]. cbn.
  intros [y' ->]%IH. by eexists.
Qed.

(** The places of a plan are apart. *)
Definition places (l : list fieldBinding) : Prop := ∀ i j a b, l !! i = Some a → l !! j = Some b → i ≠ j → apart (fb_index a) (fb_index b).
Definition under_index (k : nat) (l : list fieldBinding) : Prop := Forall (λ fb, ∃ i r, fb_index fb = i :: r ∧ i < k) l.

Lemma places_app l1 l2 : places l1 → places l2 → (∀ a b, a ∈ l1 → b ∈ l2 → apart (fb_index a) (fb_index b)) → places (l1 ++ l2).
Proof.
  intros H1 H2 H12 i j a b Ha Hb Hij. apply lookup_app_Some in Ha as [Ha|[Hi Ha]], Hb as [Hb|[Hj Hb]].
  - by eapply H1.
  - apply H12; by eapply list_elem_of_lookup_2.
  - apply apart_sym, H12; by eapply list_elem_of_lookup_2.
  - eapply H2; [done..|lia].
Qed.
Lemma places_parent i l : places l → places (map (with_parent i) l).
Proof.
  intros H k j a b Ha Hb Hkj. apply list_lookup_fmap_Some in Ha as (a' & -> & Ha), Hb as (b' & -> & Hb). cbn. right. by eapply H.
Qed.
Lemma below_apart k l fb : under_index k l → (∃ r, fb_index fb = k :: r) → ∀ a, a ∈ l → apart (fb_index a) (fb_index fb).
Proof. intros Hl [r E] a Ha. unfold under_index in Hl. rewrite Forall_forall in Hl. destruct (Hl a Ha) as (i & r' & -> & Hi). rewrite E. cbn. left. lia. Qed.
Lemma below_mono k k' l : k ≤ k' → under_index k l → under_index k' l.
Proof. intros Hk H. eapply Forall_impl; [exact H|]. intros fb (i & r & ? & ?). exists i, r. split; [done|lia]. Qed.

Lemma add_field_fields i f sb sb' : add_field i f sb = Ret sb' →
  fields sb' = fields sb ∨ ∃ fb, fields sb' = fields sb ++ [fb] ∧ fb_index fb = [i].
Proof.
  unfold add_field. case_match; [done|]. intros [= <-]. cbn. case_bool_decide; [right|by left].
  exists (binding_of i f). split; [done|]. unfold binding_of. by destruct (default _ _).
Qed.

Lemma add_fields_places build i fs sb sb' :
  (∀ t e, build t = Some (Ret (Some e)) → places (fields e)) →
  places (fields sb) → under_index i (fields sb) → add_fields build i fs sb = Some (Ret sb') → places (fields sb').
Proof.
  intros Hb. revert i sb. induction fs as [|f fs IH]; intros i sb Hp Hl; cbn [add_fields]; [by intros [= <-]|].
  assert (∀ l, (∀ fb, fb ∈ l → ∃ r, fb_index fb = i :: r) → places l → places (fields sb ++ l) ∧ under_index (S i) (fields sb ++ l)) as Happ.
  { intros l H Hpl. split.
    - apply places_app; [done..|]. intros a b Ha Hbl. by eapply below_apart; [|apply H|].
    - apply Forall_app. split; [by apply (below_mono i); [lia|]|]. apply Forall_forall. intros fb Hfb. destruct (H fb Hfb) as [r ->].
      exists i, r. split; [done|lia]. }
  destruct (negb _); [apply IH; [done|by apply (below_mono i); [lia|]]|].
  destruct (f_Anonymous f && _).
  - destruct (build (f_Type f)) as [[[e|]|msg]|] eqn:E; cbn; try done.
    + destruct (Happ (map (with_parent i) (fields e))) as [H1 H2].
      * intros fb (fb' & -> & _)%list_elem_of_fmap. by eexists.
      * by eapply places_parent, Hb.
      * by apply IH.
    + apply IH; [done|by apply (below_mono i); [lia|]].
  - destruct (add_field i f sb) as [sb1|] eqn:E; [|done]. destruct (add_field_fields _ _ _ _ E) as [Ef|(fb & Ef & Hfb)].
    + apply IH; rewrite Ef; [done|by apply (below_mono i); [lia|]].
    + destruct (Happ [fb]) as [H1 H2].
      * intros fb' ->%list_elem_of_singleton. by exists [].
      * intros [|a] [|b] ? ? Ha Hb' ?; cbn in *; try done; by rewrite lookup_nil in *.
      * apply IH; by rewrite Ef.
Qed.
Lemma plan_places fuel t sb : buildStructBinder fuel t = Some (Ret (Some sb)) → places (fields sb).
Proof.
  revert t sb. induction fuel as [|fuel IH]; intros t sb; [done|]. cbn [buildStructBinder].
  destruct (under (pointed t)) as [| | | | | | | | | | |n| |]; try done.
  destruct (add_fields _ 0 (struct_fields n) no_binder) as [[sb'|msg]|] eqn:E; cbn; try done. intros [= <-].
  eapply add_fields_places; [exact IH| | |exact E]; [by intros [] ? ? ? ?|constructor].
Qed.

(** What a field becomes that held [x]: [None] for a panic. *)
Definition field_value (inp : Inputs) (fb : fieldBinding) (x : gval) : option (gval + error) :=
  match raw_value inp fb with
  | None => Some (inl x)
  | Some raw =>
      if hasParamParser fb then
        let '(y, err) := parseWithParamParser (fb_type fb) x raw in Some (match err with None => inl y | Some e => inr e end)
      else buildFieldSetter (fb_type fb) raw
  end.
Definition becomes (inp : Inputs) (v v' : gval) (fb : fieldBinding) : Prop :=
  ∃ x y, FieldByIndex (fb_index fb) v = Some x ∧ field_value inp fb x = Some (inl y) ∧ FieldByIndex (fb_index fb) v' = Some y.

Lemma bind_field_step inp fb v x : FieldByIndex (fb_index fb) v = Some x →
  match bind_field inp fb v with
  | None => field_value inp fb x = None
  | Some (v', err) => (∀ j, apart (fb_index fb) j → FieldByIndex j v' = FieldByIndex j v) ∧
      match err with
      | None => becomes inp v v' fb
      | Some e => ∃ e', field_value inp fb x = Some (inr e') ∧ e = in_field (fb_name fb) e'
      end
  end.
Proof.
  intros Hx. unfold bind_field, becomes, field_value. destruct (raw_value inp fb) as [raw|]; [|split; [done|by exists x, x]].
  rewrite Hx. cbn. destruct (hasParamParser fb).
  - destruct (parseWithParamParser (fb_type fb) x raw) as [y err] eqn:Ep.
    destruct (set_field_total (fb_index fb) y v) as [v' E]; [by rewrite Hx|]. destruct (set_field_get _ _ _ _ E) as [H1 H2].
    rewrite E. cbn. split; [done|]. destruct err as [e|]; cbn; [by exists e|]. exists x, y. by rewrite Ep.
  - destruct (buildFieldSetter (fb_type fb) raw) as [[y|e]|]; [|split; [done|by exists e]|done].
    destruct (set_field_total (fb_index fb) y v) as [v' E]; [by rewrite Hx|]. destruct (set_field_get _ _ _ _ E) as [H1 H2].
    cbn. rewrite E. cbn. split; [done|by exists x, y].
Qed.

Lemma places_cons fb l : places (fb :: l) → places l ∧ ∀ a, a ∈ l → apart (fb_index fb) (fb_index a).
Proof.
  intros H. split.
  - intros i j a b Ha Hb Hij. apply (H (S i) (S j) a b Ha Hb). lia.
  - intros a (i & Hi)%list_elem_of_lookup_1. by apply (H 0 (S i)).
Qed.

(** The first binding of a list that does not set its field, and what its field's text makes of it. *)
Definition stops_at (inp : Inputs) (v : gval) (l : list fieldBinding) (fb : fieldBinding) (r : option (gval + error)) : Prop :=
  ∃ l1 l2 x, l = l1 ++ fb :: l2 ∧ FieldByIndex (fb_index fb) v = Some x ∧ field_value inp fb x = r ∧
    ∀ a, a ∈ l1 → ∃ xa ya, FieldByIndex (fb_index a) v = Some xa ∧ field_value inp a xa = Some (inl ya).

Lemma stops_here inp v fb l x r : FieldByIndex (fb_index fb) v = Some x → field_value inp fb x = r → stops_at inp v (fb :: l) fb r.
Proof. intros Hx Hr. exists [], l, x. split_and!; try done. by intros ? ?%elem_of_nil. Qed.
Lemma stops_later inp v v1 fb l fb' r : becomes inp v v1 fb →
  (∀ a, a ∈ l → FieldByIndex (fb_index a) v1 = FieldByIndex (fb_index a) v) →
  stops_at inp v1 l fb' r → stops_at inp v (fb :: l) fb' r.
Proof.
  intros (x & y & Hx & Hy & _) Hsame (l1 & l2 & x' & -> & Hx' & Hr & Hl1). exists (fb :: l1), l2, x'. split_and!; [done| |done|].
  - rewrite <-Hsame; [done|apply elem_of_app; right; left].
  - intros a [->|Ha]%elem_of_cons; [by exists x, y|]. destruct (Hl1 a Ha) as (xa & ya & ? & ?). exists xa, ya.
    rewrite <-Hsame; [done|apply elem_of_app; by left].
Qed.

Lemma bind_loop_fills inp l v : places l → (∀ fb, fb ∈ l → is_Some (FieldByIndex (fb_index fb) v)) →
  match bind_loop (bind_field inp) l v with
  | Some (v', None) => (∀ fb, fb ∈ l → becomes inp v v' fb) ∧
      ∀ j, (∀ fb, fb ∈ l → apart (fb_index fb) j) → FieldByIndex j v' = FieldByIndex j v
  | Some (_, Some e) => ∃ fb e', stops_at inp v l fb (Some (inr e')) ∧ e = in_field (fb_name fb) e'
  | None => ∃ fb, stops_at inp v l fb None
  end.
Proof.
  revert v. induction l as [|fb l IH]; intros v Hp Hin; cbn [bind_loop]; [split; [by intros ? ?%elem_of_nil|done]|].
  apply places_cons in Hp as [Hp Hap]. destruct (Hin fb ltac:(left)) as (x & Hx).
  pose proof (bind_field_step inp fb v x Hx) as Hstep. destruct (bind_field inp fb v) as [[v1 err]|]; cbn; [|exists fb; by eapply stops_here].
  destruct Hstep as [Hkeep Herr]. destruct err as [e|].
  { destruct Herr as (e' & He & ->). exists fb, e'. split; [by eapply stops_here|done]. }
  assert (∀ a, a ∈ l → FieldByIndex (fb_index a) v1 = FieldByIndex (fb_index a) v) as Hsame by (intros a Ha; by apply Hkeep, Hap).
  specialize (IH v1 Hp). destruct (bind_loop (bind_field inp) l v1) as [[v' [e|]]|].
  - destruct IH as (fb' & e' & Hs & ->); [intros a Ha; rewrite Hsame by done; apply Hin; by right|].
    exists fb', e'. split; [by eapply stops_later|done].
  - destruct IH as [H1 H2]; [intros a Ha; rewrite Hsame by done; apply Hin; by right|]. split.
    + intros a [->|Ha]%elem_of_cons.
      * destruct Herr as (xa & ya & ? & ? & Hya). exists xa, ya. split_and!; [done..|]. rewrite H2; [done|]. intros b Hb. by apply apart_sym, Hap.
      * destruct (H1 a Ha) as (xa & ya & Hxa & ? & ?). exists xa, ya. rewrite Hsame in Hxa by done. by split_and!.
    + intros j Hj. rewrite H2 by (intros b Hb; apply Hj; by right). apply Hkeep, Hj. left.
  - destruct IH as (fb' & Hs); [intros a Ha; rewrite Hsame by done; apply Hin; by right|]. exists fb'. by eapply stops_later.
Qed.

(** Only a slice whose elements are strings of another name makes a setter panic. *)
Definition named_strings (t : gtype) : Prop := ∃ e, under t = TSlice e ∧ under e = TString ∧ e ≠ TString.
Lemma field_value_panics inp fb x : field_value inp fb x = None → named_strings (fb_type fb).
Proof.
  unfold field_value, named_strings. destruct (raw_value inp fb) as [raw|]; [|done]. destruct (hasParamParser fb).
  { by destruct (parseWithParamParser _ _ _). }
  unfold buildFieldSetter, Kind. destruct (under (fb_type fb)) as [| | | | | |e| | | | | | |] eqn:E; try (by repeat case_match).
  destruct (decide _) as [Hk|]; [|done]. destruct (decide (e = TString)) as [|Hne]; [done|]. intros _. exists e. split; [done|].
  split; [|done]. by destruct (under e); try case_match.
Qed.

(** [C26] Binding fills every field of the plan with what the field's tags say, read from the request or its
    default, and leaves every other field alone; or it stops at the first field whose text cannot be parsed
    for it, with an error that names the field, or whose elements are strings of another name, with a panic.
    An integer is parsed with 64 bits and cut to the width of its field ([int_field]). The value has the
    fields of the plan, its type no method of its own to bind it, and the plan no files. *)
Theorem bind_fills fuel t sb inp n vals : buildStructBinder fuel t = Some (Ret (Some sb)) →
  needMultipart sb = false → BindFromContext n = None →
  (∀ fb, fb ∈ fields sb → is_Some (FieldByIndex (fb_index fb) (VStruct n vals))) →
  let v := VStruct n vals in
  match bind sb inp v with
  | Some (v', None) => (∀ fb, fb ∈ fields sb → becomes inp v v' fb) ∧
      ∀ j, (∀ fb, fb ∈ fields sb → apart (fb_index fb) j) → FieldByIndex j v' = FieldByIndex j v
  | Some (_, Some e) => ∃ fb e', stops_at inp v (fields sb) fb (Some (inr e')) ∧ e = in_field (fb_name fb) e'
  | None => ∃ fb, stops_at inp v (fields sb) fb None ∧ named_strings (fb_type fb)
  end.
Proof.
  intros Hb Hm Hown Hin. cbn zeta. unfold bind. rewrite Hown, Hm.
  pose proof (bind_loop_fills inp (fields sb) (VStruct n vals) (plan_places _ _ _ Hb) Hin) as H.
  destruct (bind_loop (bind_field inp) (fields sb) (VStruct n vals)) as [[v' [e|]]|]; cbn; [done..|].
  destruct H as (fb & Hs). exists fb. split; [done|]. destruct Hs as (l1 & l2 & x & _ & _ & Hn & _). by eapply field_value_panics.
Qed.

(** ** Numbers *)

Lemma wrap_int_small bits n : (0 < bits)%Z → (- 2 ^ (bits - 1) ≤ n < 2 ^ (bits - 1))%Z → wrap_int bits n = n.
Proof.
  intros Hb Hn. unfold wrap_int. replace (2 ^ bits)%Z with (2 * 2 ^ (bits - 1))%Z; [rewrite Z.mod_small; lia|].
  rewrite <-Z.pow_succ_r by lia. f_equal. lia.
Qed.

(** An integer field takes what fits in it as it is. What does not is no error: it is taken modulo the width. *)
Theorem int_field bits raw n : (0 < bits)%Z → ParseInt raw = Some n →
  ∃ z, buildFieldSetter (TInt bits) raw = Some (inl (VInt z)) ∧
    (- 2 ^ (bits - 1) ≤ z < 2 ^ (bits - 1))%Z ∧ (∃ k, z = n + k * 2 ^ bits)%Z ∧
    (z = n ↔ (- 2 ^ (bits - 1) ≤ n < 2 ^ (bits - 1))%Z).
Proof.
  intros Hb Hn. exists (wrap_int bits n). unfold buildFieldSetter. cbn [under]. rewrite Hn. split; [done|].
  assert (2 ^ bits = 2 * 2 ^ (bits - 1))%Z as E by (rewrite <-Z.pow_succ_r by lia; f_equal; lia).
  assert (0 < 2 ^ (bits - 1))%Z as Hpos by (apply Z.pow_pos_nonneg; lia).
  assert (- 2 ^ (bits - 1) ≤ wrap_int bits n < 2 ^ (bits - 1))%Z as Hr.
  { unfold wrap_int. pose proof (Z.mod_pos_bound (n + 2 ^ (bits - 1)) (2 ^ bits) ltac:(lia)). lia. }
  split; [done|]. split.
  - exists (- ((n + 2 ^ (bits - 1)) / 2 ^ bits))%Z. unfold wrap_int.
    pose proof (Z.div_mod (n + 2 ^ (bits - 1)) (2 ^ bits) ltac:(lia)). lia.
  - split; [by intros <-|]. by apply wrap_int_small.
Qed.
End filling.

(** * Typed handlers *)

Section handlers.
Context {lib : RuleLib} {blib : BindLib} {types : Types} {methods : ValidatorMethods} {ctx : BindContext}.
Context (rt : Runtime) (g : Registry) (h : typedHandler).

(** A part of a handler either ends it, without regard to what would follow and not with success, or goes on
    once, with a value of which [P] holds. *)
Definition passes (m : (gval → HandlerFunc) → HandlerFunc) (P : gval → Prop) : Prop := ∀ w,
  (∃ o w', o ≠ Ret None ∧ ∀ k, m k w = (o, w')) ∨ (∃ v w', P v ∧ ∀ k, m k w = k v w').

Lemma passes_then m P m' Q : passes m P → (∀ v, P v → passes (m' v) Q) → passes (λ k, m (λ v, m' v k)) Q.
Proof.
  intros Hm Hm' w. destruct (Hm w) as [(o & w' & Ho & H)|(v & w' & HP & H)].
  - left. exists o, w'. split; [done|]. intros k. apply H.
  - destruct (Hm' v HP w') as [(o & w2 & Ho & H2)|(v2 & w2 & HQ & H2)].
    + left. exists o, w2. split; [done|]. intros k. by rewrite H, H2.
    + right. exists v2, w2. split; [done|]. intros k. by rewrite H, H2.
Qed.
Lemma passes_ret v : passes (λ k, k v) (eq v).
Proof. intros w. right. by exists v, w. Qed.
Lemma passes_weaken m P Q : (∀ v, P v → Q v) → passes m P → passes m Q.
Proof. intros HPQ Hm w. destruct (Hm w) as [?|(v & w' & ? & ?)]; [by left|right; exists v, w'; auto]. Qed.

Lemma passes_try step v : passes (λ k, go_try step (k v)) (eq v).
Proof.
  intros w. unfold go_try, go_bind, go_ret. destruct (step w) as [[[e|]|msg] w'].
  - left. by exists (Ret (Some e)), w'.
  - right. by exists v, w'.
  - left. by exists (Panic msg), w'.
Qed.
(** A step that gives a value or an error. *)
Lemma passes_step (m : GoM World (gval * option error)) (f : error → error) :
  passes (λ k, let! r := m in match r.2 with Some err => go_ret (Some (f err)) | None => k r.1 end) (λ _, True).
Proof.
  intros w. unfold go_bind, go_ret. destruct (m w) as [[[v [e|]]|msg] w'] eqn:E; cbn.
  - left. by exists (Ret (Some (f e))), w'.
  - right. by exists v, w'.
  - left. by exists (Panic msg), w'.
Qed.
Lemma passes_panic (o : option gval) : passes (λ k, let! v := or_panic o in k v) (λ _, True).
Proof.
  intros w. unfold go_bind, or_panic, go_panic, go_ret. destruct o as [v|]; [right; by exists v, w|left; by eexists (Panic _), w].
Qed.

Lemma parse_body_passes v : passes (parse_body rt v) (λ _, True).
Proof.
  intros w. unfold parse_body, get_ctx, go_get. cbn [go_bind]. unfold go_bind at 1 2.
  destruct (_ =? 0)%Z; [right; by exists v, w|].
  apply (passes_then (λ k, go_try (phase_hooks rt PreParsing) (k v)) (eq v)
    (λ v k, let! r := BindJSON v in match r.2 with Some err => go_ret (Some (AsBind "body" (Some err))) | None => k r.1 end));
    [apply passes_try|]. intros v' _. apply (passes_step (BindJSON v') (λ e, AsBind "body" (Some e))).
Qed.

Lemma bind_step_passes : passes (bind_step h) (λ _, True).
Proof.
  unfold bind_step. destruct (binder h) as [b|]; [|by apply (passes_weaken _ _ _ (λ _ _, I) (passes_ret _))].
  destruct (needs_binding h); [|by apply (passes_weaken _ _ _ (λ _ _, I) (passes_ret _))].
  intros w. unfold go_get. unfold go_bind at 1 3.
  apply (passes_step (or_panic (bind b (inputs w) (zero h))) (λ e, AsBind "binding" (Some e))).
Qed.
Lemma body_step_passes v : passes (body_step rt h v) (λ _, True).
Proof. unfold body_step. destruct (needs_body h); [apply parse_body_passes|by apply (passes_weaken _ _ _ (λ _ _, I) (passes_ret _))]. Qed.
Lemma default_step_passes v : passes (default_step h v) (λ _, True).
Proof.
  unfold default_step. destruct (binder h) as [b|]; [|by apply (passes_weaken _ _ _ (λ _ _, I) (passes_ret _))].
  destruct (needs_defaults h); [apply passes_panic|by apply (passes_weaken _ _ _ (λ _ _, I) (passes_ret _))].
Qed.

(** The validator has no error for a value. *)
Definition accepted (v : gval) : Prop :=
  match validator h with Some sv => validate g sv v = Some [] | None => True end.
Lemma check_value_passes v : passes (λ k, check_value g h v (k v)) (λ x, x = v ∧ accepted v).
Proof.
  unfold check_value, accepted. intros w. destruct (validator h) as [sv|]; [|right; by exists v, w].
  unfold go_bind, or_panic, go_panic, go_ret. destruct (validate g sv v) as [[|e errs]|]; cbn.
  - right. by exists v, w.
  - left. by eexists (Ret (Some _)), w.
  - left. by eexists (Panic _), w.
Qed.
Lemma checked_passes v : passes (λ k, checked rt g h k v) accepted.
Proof.
  unfold checked.
  apply (passes_then (λ k, go_try (phase_hooks rt PreValidation) (k v)) (eq v)
    (λ x k, check_value g h v (go_try (phase_hooks rt PreHandler) (k v)))); [apply passes_try|]. intros _ _.
  apply (passes_then (λ k, check_value g h v (k v)) (λ x, x = v ∧ accepted v)
    (λ x k, go_try (phase_hooks rt PreHandler) (k v))); [apply check_value_passes|]. intros _ [_ Ha].
  by apply (passes_weaken _ (eq v)); [by intros ? <-|apply passes_try].
Qed.

Lemma full_path_passes : passes (full_path rt g h) accepted.
Proof.
  unfold full_path.
  apply (passes_then (bind_step h) (λ _, True)); [apply bind_step_passes|]. intros v _.
  apply (passes_then (body_step rt h v) (λ _, True)); [apply body_step_passes|]. intros v' _.
  apply (passes_then (default_step h v') (λ _, True)); [apply default_step_passes|]. intros v'' _. apply checked_passes.
Qed.

(** The path for types that only have a body is the general one. *)
Theorem paths_agree call w : typed_handler rt g h call w = full_path rt g h call w.
Proof.
  unfold typed_handler. destruct (needs_body h) eqn:E1, (needs_binding h) eqn:E2, (needs_defaults h) eqn:E3; cbn [andb negb]; try done.
  unfold fast_path, full_path, bind_step, body_step. rewrite E1. unfold needs_body in E1. destruct (binder h) as [b|] eqn:Eb; [|done].
  rewrite E2. unfold parse_body, go_bind at 1 3, get_ctx, go_get. destruct (_ =? 0)%Z.
  - unfold default_step. by rewrite Eb, E3.
  - unfold go_try, go_bind. destruct (phase_hooks rt PreParsing w) as [[[e|]|msg] w1]; try done.
    destruct (BindJSON (zero h) w1) as [[[v [e|]]|msg] w2]; try done. cbn. unfold default_step. by rewrite Eb, E3.
Qed.

(** [C15] Whatever the request, the hooks and the codec do, the handler of the user is called once, with a value
    that the validator accepts, and its answer is the answer; or it is not called and the request ends in an
    error. *)
Theorem handler_gets_valid w :
  (∃ o w', o ≠ Ret None ∧ (∀ fn, Bind rt g h fn w = (o, w')) ∧ ∀ fn, BindReq rt g h fn w = (o, w')) ∨
  (∃ v w', accepted v ∧ (∀ fn, Bind rt g h fn w = respond (fn v) w') ∧ ∀ fn, BindReq rt g h fn w = fn v w').
Proof.
  destruct (full_path_passes w) as [(o & w' & Ho & H)|(v & w' & Ha & H)]; [left|right].
  - exists o, w'. split; [done|]. unfold Bind, BindReq. split; intros fn; by rewrite paths_agree.
  - exists v, w'. split; [done|]. unfold Bind, BindReq. split; intros fn; by rewrite paths_agree.
Qed.
End handlers.

(** * A request type *)

#[local] Instance demo_lib : RuleLib := {
  ParseFloat s := match digits_of s with Some z => (f64_of_int z, true) | None => (f64_zero, false) end;
  ParseRequestURI _ := true; ParseIP _ := None; ParseCIDR _ := false; json_Valid _ := true; time_Parse _ _ := true;
  regexp_Compile _ := None; IsLetter r := (97 <=? r)%Z; IsDigit r := (r <? 58)%Z; ToLower := string_map to_lower_byte; FormatFloat _ _ := ""; Sprint _ := "";
  Interface_ _ := AnyOther "value" 0
}.
#[local] Instance demo_blib : BindLib := {
  New _ := (0%Z, VInt 0); ParseParam _ := None; BindFromContext _ := None;
  num_error f raw := ErrorText (f +:+ ": " +:+ raw); Quote s := s; kind_text _ := "kind"
}.
Definition demo_field (n : string) (t : gtype) (tags : list (string * string)) : StructField := MkField n t true false tags.
#[local] Instance demo_types : Types := λ n,
  if String.eqb n "Req" then
    [MkField "Paging" (TStruct "Paging") true true []; demo_field "ID" TString [("param", "id")];
     demo_field "Active" TBool [("json", "active"); ("default", "true")]; demo_field "Note" TString []]
  else if String.eqb n "Paging" then
    [demo_field "Page" (TInt 8) [("query", "page"); ("default", "1")]; demo_field "Sort" (TSlice TString) [("query", "sort")]]
  else [].
Definition demo_value : list gval := [VStruct "Paging" [VInt 0; VSlice None]; VString ""; VBool false; VString "kept"].
Definition demo_inputs (page sort : string) : Inputs :=
  MkInputs (λ n, if String.eqb n "id" then "7" else "")
    (λ n, if String.eqb n "page" then page else if String.eqb n "sort" then sort else "") (λ _, "") (λ _, None) (λ _, "") None None
    (λ _, FileMissing) (λ _, FileMissing).
Definition demo_binder : structBinder := Eval vm_compute in
  match buildStructBinder 3 (TStruct "Req") with Some (Ret (Some sb)) => sb | _ => no_binder end.
Definition demo_bind (page sort : string) : option (gval * option error) :=
  bind demo_binder (demo_inputs page sort) (VStruct "Req" demo_value).

Example bind_check :
  demo_bind "2" "name,date" = Some (VStruct "Req"
    [VStruct "Paging" [VInt 2; VSlice (Some [VString "name"; VString "date"])]; VString "7"; VBool false; VString "kept"], None) ∧
  (∃ v e, demo_bind "two" "name" = Some (v, Some e) ∧ error_string e = "field page: cannot parse two as int: ParseInt: two").
Proof. split; [vm_compute; reflexivity|]. do 2 eexists. split; [vm_compute; reflexivity|]. vm_compute. reflexivity. Qed.

(** A number that does not fit its field is no error. *)
Example narrow_integer_wraps :
  option_map (λ r, FieldByIndex [0; 0] r.1) (demo_bind "300" "") = Some (Some (VInt 44)).
Proof. vm_compute. reflexivity. Qed.

(** Zero sent by a client is taken for no value, and replaced by the default. *)
Example zero_becomes_default :
  match demo_bind "0" "" with Some (v, _) => x ← applyDefaults demo_binder v; FieldByIndex [0; 0] x | None => None end = Some (VInt 1).
Proof. vm_compute. reflexivity. Qed.

(** A slice of strings of a named type is accepted as a field when the plan is made and panics when it is set. *)
Example named_strings_panic : buildFieldSetter (TSlice (TNamed "Role" TString)) "admin" = None.
Proof. vm_compute. reflexivity. Qed.

Lemma bind_fills_witness :
  (∃ v', demo_bind "2" "name,date" = Some (v', None) ∧
    FieldByIndex [0; 0] v' = Some (VInt 2) ∧ FieldByIndex [3] v' = Some (VString "kept")) ∧
  ∃ fb e', stops_at (demo_inputs "two" "name") (VStruct "Req" demo_value) (fields demo_binder) fb (Some (inr e')) ∧ fb_name fb = "page".
Proof.
  assert (∀ fb, fb ∈ fields demo_binder → is_Some (FieldByIndex (fb_index fb) (VStruct "Req" demo_value))) as Hin.
  { assert (Forall (λ fb, is_Some (FieldByIndex (fb_index fb) (VStruct "Req" demo_value))) (fields demo_binder)) as Hall
      by (repeat constructor; by eexists).
    rewrite Forall_forall in Hall. exact Hall. }
  assert (buildStructBinder 3 (TStruct "Req") = Some (Ret (Some demo_binder))) as Hb by (vm_compute; reflexivity).
  pose proof (λ p q, bind_fills 3 (TStruct "Req") demo_binder (demo_inputs p q) "Req" demo_value
    Hb eq_refl eq_refl Hin) as H.
  split.
  - specialize (H "2" "name,date"). change (bind demo_binder _ _) with (demo_bind "2" "name,date") in H. cbn zeta in H.
    destruct (demo_bind "2" "name,date") as [[v' err]|] eqn:E; [|vm_compute in E; discriminate E].
    assert (err = None) as -> by (vm_compute in E; injection E as _ <-; reflexivity).
    exists v'. split; [reflexivity|]. destruct H as [H1 H2]. split.
    + destruct (H1 (MkBinding sourceQuery "page" [0; 0] (TInt 8) "1" true false)) as (x & y & _ & Hf & Hy); [left|].
      cbn [fb_index] in Hy. rewrite Hy. vm_compute in Hf. injection Hf as <-. reflexivity.
    + rewrite H2; [reflexivity|]. assert (Forall (λ fb, apart (fb_index fb) [3]) (fields demo_binder)) as Hall
        by (repeat (apply Forall_cons_2; [left; discriminate|]); apply Forall_nil_2).
      rewrite Forall_forall in Hall. exact Hall.
  - specialize (H "two" "name"). change (bind demo_binder _ _) with (demo_bind "two" "name") in H. cbn zeta in H.
    destruct (demo_bind "two" "name") as [[v' [err|]]|] eqn:E; [|vm_compute in E; discriminate E..].
    destruct H as (fb & e' & Hs & He). exists fb, e'. split; [exact Hs|]. vm_compute in E. injection E as _ <-.
    destruct Hs as ([|a l1] & l2 & x & Hl & _ & _ & Hl1); injection Hl as <- _; [reflexivity|].
    destruct (Hl1 (MkBinding sourceQuery "page" [0; 0] (TInt 8) "1" true false)) as (xa & ya & _ & Hv); [left|].
    vm_compute in Hv. discriminate Hv.
Defined.
