(* ===== verification/Sse.v ===== *)
(** Server-sent events (sse.go): the text of an event, and the writer that [Context.SSE] returns. The text is
    read back by the client of the event stream format, as its specification has it. *)
From S2P Require Import Prelude GoStrings Errors.

Definition ErrSSEClosed : error := ErrorText "aarv: SSE writer is closed".
Definition ErrInvalidSSEField : error := ErrorText "aarv: SSE Event or ID field contains invalid newline".

Record SSEEvent : Type := MkEvent { Event : string; Data : string; ID : string; Retry : Z }.

Abbreviation CR := ("013"%char : ascii).
Abbreviation LF := ("010"%char : ascii).
Definition line_of (s : string) : string := s +:+ String LF "".

(** [strings.ContainsAny(s, "\r\n")] *)
Definition has_newline (s : string) : bool := contains_byte CR s || contains_byte LF s.

Definition formatSSEEvent (event : SSEEvent) : string + error :=
  if has_newline (Event event) then inr ErrInvalidSSEField
  else if has_newline (ID event) then inr ErrInvalidSSEField
  else inl (
    (if String.eqb (Event event) "" then "" else line_of ("event: " +:+ Event event)) +:+
    (if String.eqb (ID event) "" then "" else line_of ("id: " +:+ ID event)) +:+
    (if (0 <? Retry event)%Z then line_of ("retry: " +:+ itoa (Retry event)) else "") +:+
    String.concat "" (map (λ line, line_of ("data: " +:+ line)) (split_byte LF (Data event))) +:+
    String LF "").

(** [strings.NewReplacer("\r", " ", "\n", " ")] *)
Definition normalize_comment (text : string) : string :=
  string_map (λ a, if Ascii.eqb a CR || Ascii.eqb a LF then " "%char else a) text.

(** [SSEWriter]. [ctx] is the error of the request's context once the client is gone, [flusher] whether the
    response is an [http.Flusher]. *)
Record SSEWriter (W : Type) : Type := MkSSE {
  w : W;
  flusher : bool;
  ctx : option error;
  closed : bool
}.
Arguments MkSSE {W} _ _ _ _.
Arguments w {W} _.
Arguments flusher {W} _.
Arguments ctx {W} _.
Arguments closed {W} _.

Section sse.
Context {W : Type} (write : string → W → option error * W) (flush : W → W).

Definition with_w (x : W) (s : SSEWriter W) : SSEWriter W := MkSSE x (flusher s) (ctx s) (closed s).
Definition flushed (s : SSEWriter W) : SSEWriter W := if flusher s then with_w (flush (w s)) s else s.

Definition write_and_flush (data : string) (s : SSEWriter W) : option error * SSEWriter W :=
  let '(err, x) := write data (w s) in
  match err with
  | Some e => (Some e, with_w x s)
  | None => (None, flushed (with_w x s))
  end.

Definition Send (event : SSEEvent) (s : SSEWriter W) : option error * SSEWriter W :=
  if closed s then (Some ErrSSEClosed, s)
  else match ctx s with
       | Some e => (Some e, s)
       | None => match formatSSEEvent event with
                 | inr err => (Some err, s)
                 | inl data => write_and_flush data s
                 end
       end.
Definition Comment (text : string) (s : SSEWriter W) : option error * SSEWriter W :=
  if closed s then (Some ErrSSEClosed, s)
  else match ctx s with
       | Some e => (Some e, s)
       | None => write_and_flush (": " +:+ normalize_comment text +:+ String LF (String LF "")) s
       end.
Definition Flush (s : SSEWriter W) : option error * SSEWriter W :=
  if closed s then (Some ErrSSEClosed, s)
  else match ctx s with
       | Some e => (Some e, s)
       | None => (None, flushed s)
       end.
Definition Close (s : SSEWriter W) : option error * SSEWriter W := (None, MkSSE (w s) (flusher s) (ctx s) true).
(** Whether the channel of [Done] is closed. *)
Definition Done (s : SSEWriter W) : bool := bool_decide (is_Some (ctx s)).

(** What happens to a writer: the calls of its handler, and the client that goes away. *)
Inductive sse_call : Type :=
  | CSend (event : SSEEvent)
  | CComment (text : string)
  | CFlush
  | CClose
  | Gone (err : error).
Definition sse_step (c : sse_call) (s : SSEWriter W) : option error * SSEWriter W :=
  match c with
  | CSend event => Send event s
  | CComment text => Comment text s
  | CFlush => Flush s
  | CClose => Close s
  | Gone err => (None, MkSSE (w s) (flusher s) (Some (default err (ctx s))) (closed s))
  end.
Fixpoint sse_run (calls : list sse_call) (s : SSEWriter W) : list (option error) * SSEWriter W :=
  match calls with
  | [] => ([], s)
  | c :: calls' => let '(e, s1) := sse_step c s in let '(es, s2) := sse_run calls' s1 in (e :: es, s2)
  end.
End sse.

(** * The client *)

(** An [EventSource] between two bytes of its stream: the line read so far, whether a CR has just ended one,
    the buffers of the event, and what the page has been given: type, data and last event id. *)
Record client : Type := MkClient {
  line : string;
  after_cr : bool;
  event_type : string;
  data : string;
  last_id : string;
  reconnection : option Z;
  messages : list (string * string * string)
}.
Definition new_client : client := MkClient "" false "" "" "" None [].

Definition field (name value : string) (c : client) : client :=
  if String.eqb name "event" then MkClient (line c) (after_cr c) value (data c) (last_id c) (reconnection c) (messages c)
  else if String.eqb name "data" then
    MkClient (line c) (after_cr c) (event_type c) (data c +:+ line_of value) (last_id c) (reconnection c) (messages c)
  else if String.eqb name "id" then
    if contains_byte "000" value then c
    else MkClient (line c) (after_cr c) (event_type c) (data c) value (reconnection c) (messages c)
  else if String.eqb name "retry" then
    match digits_of value with
    | Some ms => MkClient (line c) (after_cr c) (event_type c) (data c) (last_id c) (Some ms) (messages c)
    | None => c
    end
  else c.
Definition dispatch (c : client) : client :=
  if String.eqb (data c) "" then MkClient (line c) (after_cr c) "" "" (last_id c) (reconnection c) (messages c)
  else MkClient (line c) (after_cr c) "" "" (last_id c) (reconnection c)
    (messages c ++ [(if String.eqb (event_type c) "" then "message" else event_type c, trim_suffix (data c) (String LF ""), last_id c)]).
Definition process (l : string) (c : client) : client :=
  match l with
  | EmptyString => dispatch c
  | String ":" _ => c
  | _ => match cut_byte ":" l with
         | Some (name, value) => field name (trim_prefix value " ") c
         | None => field l "" c
         end
  end.
Definition byte (a : ascii) (c : client) : client :=
  let start cr := MkClient "" cr (event_type c) (data c) (last_id c) (reconnection c) (messages c) in
  if Ascii.eqb a LF then if after_cr c then start false else process (line c) (start false)
  else if Ascii.eqb a CR then process (line c) (start true)
  else MkClient (line c +:+ String a "") false (event_type c) (data c) (last_id c) (reconnection c) (messages c).
Fixpoint receive (s : string) (c : client) : client :=
  match s with EmptyString => c | String a s' => receive s' (byte a c) end.

(** * Laws

    What the client of an event stream receives: the events whose [Send] succeeded, one by one and whole,
    whatever comments and refused calls come between. *)
Lemma receive_app s t c : receive (s +:+ t) c = receive t (receive s c).
Proof. revert c. induction s as [|a s IH]; intros c; [done|]. rewrite string_app_cons. cbn. by rewrite IH. Qed.

Lemma has_newline_cons a l : has_newline (String a l) = false →
  Ascii.eqb a LF = false ∧ Ascii.eqb a CR = false ∧ has_newline l = false.
Proof.
  unfold has_newline. rewrite !contains_byte_cons. destruct (Ascii.eqb a CR), (Ascii.eqb a LF); try done.
  cbn [orb]. by destruct (contains_byte CR l).
Qed.
Lemma has_newline_app s t : has_newline (s +:+ t) = has_newline s || has_newline t.
Proof. unfold has_newline. rewrite !contains_byte_app. by destruct (contains_byte CR s), (contains_byte LF s), (contains_byte CR t). Qed.

(** A line reaches the client as one. *)
Lemma receive_line l t d i r ms : has_newline l = false →
  receive (line_of l) (MkClient "" false t d i r ms) = process l (MkClient "" false t d i r ms).
Proof.
  intros Hl. assert (∀ l acc, has_newline l = false →
    receive (line_of l) (MkClient acc false t d i r ms) = process (acc +:+ l) (MkClient "" false t d i r ms)) as H; [|by rewrite H].
  clear. induction l as [|a l IH]; intros acc Hl; [by rewrite string_app_nil_r|].
  apply has_newline_cons in Hl as (Ha & Ha' & Hl). unfold line_of. rewrite string_app_cons. cbn [receive].
  unfold byte. rewrite Ha, Ha'. cbn [line event_type data last_id reconnection messages].
  change (l +:+ String LF "") with (line_of l). rewrite IH by done. by rewrite string_app_assoc.
Qed.

(** The client between two events. *)
Definition ready (i : string) (r : option Z) (ms : list (string * string * string)) : client :=
  MkClient "" false "" "" i r ms.

(** What an event is to the page. *)
Definition deliver (e : SSEEvent) (c : client) : client :=
  let i := if String.eqb (ID e) "" then last_id c else ID e in
  ready i (if (0 <? Retry e)%Z then Some (Retry e) else reconnection c)
    (messages c ++ [(if String.eqb (Event e) "" then "message" else Event e, Data e, i)]).

Lemma process_field name value c : name ≠ "" → cut_byte ":" (name +:+ ":") = Some (name, "") →
  process (name +:+ ": " +:+ value) c = field name value c.
Proof.
  intros Hn Hc. unfold process. apply cut_byte_Some in Hc as [_ Hc].
  assert (cut_byte ":" (name +:+ ": " +:+ value) = Some (name, " " +:+ value)) as E by (by apply cut_byte_Some).
  rewrite E. assert (trim_prefix (" " +:+ value) " " = value) as -> by (by destruct value).
  destruct name as [|a name]; [done|]. rewrite string_app_cons. rewrite contains_byte_cons in Hc.
  destruct a as [[] [] [] [] [] [] [] []]; done.
Qed.

Lemma split_parts b s : Forall (λ p, contains_byte b p = false ∧ ∀ x, contains_byte x s = false → contains_byte x p = false) (split_byte b s).
Proof.
  induction s as [|a s IH]; [constructor; [done|constructor]|]. cbn [split_byte]. destruct (Ascii.eqb a b) eqn:E.
  - constructor; [done|]. eapply Forall_impl; [exact IH|]. cbn. intros p [H1 H2]. split; [done|].
    intros x. rewrite contains_byte_cons. intros [_ ?]%orb_false_iff. by apply H2.
  - pose proof (split_byte_nonempty b s). destruct (split_byte b s) as [|h l]; [done|].
    apply Forall_cons_iff in IH as [[H1 H2] IH]. constructor.
    + rewrite contains_byte_cons, E, H1. split; [done|]. intros x. rewrite !contains_byte_cons.
      intros [-> ?]%orb_false_iff. by apply H2.
    + eapply Forall_impl; [exact IH|]. cbn. intros p [H3 H4]. split; [done|].
      intros x. rewrite contains_byte_cons. intros [_ ?]%orb_false_iff. by apply H4.
Qed.

Lemma concat_lines l : l ≠ [] → String.concat "" (map line_of l) = line_of (join (String LF "") l).
Proof.
  induction l as [|x l IH]; [done|]. intros _. destruct l as [|y l]; [done|].
  change (line_of x +:+ String.concat "" (map line_of (y :: l)) = line_of (x +:+ String LF "" +:+ join (String LF "") (y :: l))).
  rewrite IH by done. unfold line_of. by rewrite !string_app_assoc.
Qed.
Lemma concat_cons x l : String.concat "" (x :: l) = x +:+ String.concat "" l.
Proof. destruct l; cbn; [by rewrite string_app_nil_r|done]. Qed.

Lemma receive_data lines t d i r ms : Forall (λ l, has_newline l = false) lines →
  receive (String.concat "" (map (λ l, line_of ("data: " +:+ l)) lines)) (MkClient "" false t d i r ms) =
    MkClient "" false t (d +:+ String.concat "" (map line_of lines)) i r ms.
Proof.
  intros Hl. revert d. induction Hl as [|l lines Hl _ IH]; intros d; [cbn; by rewrite string_app_nil_r|].
  cbn [map]. rewrite !concat_cons, receive_app, receive_line by (by rewrite has_newline_app).
  change ("data: " +:+ l) with ("data" +:+ ": " +:+ l). rewrite process_field by done.
  change (field "data" l _) with (MkClient "" false t (d +:+ line_of l) i r ms). rewrite IH. by rewrite string_app_assoc.
Qed.

(** One event: its text gives the client the event. *)
Lemma receive_event e text i r ms : formatSSEEvent e = inl text →
  contains_byte CR (Data e) = false → contains_byte "000" (ID e) = false →
  receive text (ready i r ms) = deliver e (ready i r ms).
Proof.
  unfold formatSSEEvent. destruct (has_newline (Event e)) eqn:He; [done|]. destruct (has_newline (ID e)) eqn:Hi; [done|].
  intros [= <-] Hd Hz. rewrite !receive_app. unfold ready.
  set (c1 := MkClient "" false (Event e) "" i r ms).
  replace (receive (if String.eqb (Event e) "" then "" else line_of ("event: " +:+ Event e)) _) with c1.
  2: { unfold c1. destruct (String.eqb_spec (Event e) "") as [->|]; [done|]. rewrite receive_line by (by rewrite has_newline_app).
       change ("event: " +:+ Event e) with ("event" +:+ ": " +:+ Event e). by rewrite process_field. }
  set (i' := if String.eqb (ID e) "" then i else ID e). set (c2 := MkClient "" false (Event e) "" i' r ms).
  replace (receive (if String.eqb (ID e) "" then "" else line_of ("id: " +:+ ID e)) c1) with c2.
  2: { unfold c2, c1, i'. destruct (String.eqb_spec (ID e) "") as [_|]; [done|]. rewrite receive_line by (by rewrite has_newline_app).
       change ("id: " +:+ ID e) with ("id" +:+ ": " +:+ ID e). rewrite process_field by done. unfold field. by rewrite Hz. }
  set (r' := if (0 <? Retry e)%Z then Some (Retry e) else r). set (c3 := MkClient "" false (Event e) "" i' r' ms).
  replace (receive (if (0 <? Retry e)%Z then line_of ("retry: " +:+ itoa (Retry e)) else "") c2) with c3.
  2: { unfold c3, c2, r'. destruct (Z.ltb_spec 0 (Retry e)) as [Hr|]; [|done].
       destruct (itoa_digits _ Hr) as [Hdig Hall]. rewrite receive_line.
       - change ("retry: " +:+ itoa (Retry e)) with ("retry" +:+ ": " +:+ itoa (Retry e)). rewrite process_field by done.
         unfold field. by rewrite Hdig.
       - rewrite has_newline_app. unfold has_newline at 2.
         by rewrite (string_all_contains is_digit CR _ Hall), (string_all_contains is_digit LF _ Hall) by done. }
  unfold c3. rewrite receive_data.
  2: { eapply Forall_impl; [apply (split_parts LF)|]. cbn. intros p [H1 H2]. unfold has_newline. by rewrite H1, (H2 _ Hd). }
  rewrite concat_lines, join_split by apply split_byte_nonempty. rewrite string_app_nil_l. change (String LF "") with (line_of "").
  rewrite receive_line by done. cbn [process]. unfold dispatch. cbn [data].
  destruct (String.eqb_spec (line_of (Data e)) "") as [E|]; [unfold line_of in E; by destruct (Data e)|].
  unfold line_of. by rewrite trim_suffix_app.
Qed.

Lemma normalized text : has_newline (normalize_comment text) = false.
Proof.
  unfold normalize_comment. induction text as [|a s IH]; [done|]. cbn [string_map].
  assert (∀ b t, Ascii.eqb b CR = false → Ascii.eqb b LF = false → has_newline t = false → has_newline (String b t) = false) as H.
  { intros b t H1 H2. unfold has_newline. by rewrite !contains_byte_cons, H1, H2. }
  destruct (Ascii.eqb a CR) eqn:E1, (Ascii.eqb a LF) eqn:E2; cbn [orb]; by apply H.
Qed.

Lemma receive_comment text i r ms :
  receive (": " +:+ normalize_comment text +:+ String LF (String LF "")) (ready i r ms) = ready i r ms.
Proof.
  change (String LF (String LF "")) with (String LF "" +:+ line_of ""). rewrite <-!string_app_assoc, receive_app.
  change ((": " +:+ normalize_comment text) +:+ String LF "") with (line_of (": " +:+ normalize_comment text)).
  unfold ready. rewrite receive_line by (rewrite has_newline_app; by rewrite normalized).
  rewrite string_app_cons. cbn [process]. by rewrite receive_line.
Qed.

(** ** Cut short

    Only an empty line gives the page an event, so that an event which is cut short gives none. *)
Fixpoint no_blank (empty : bool) (s : string) : bool :=
  match s with
  | EmptyString => true
  | String a s' => if Ascii.eqb a LF || Ascii.eqb a CR then negb empty && no_blank true s' else no_blank false s'
  end.

Lemma field_kept name value c : line (field name value c) = line c ∧ messages (field name value c) = messages c.
Proof. unfold field. repeat case_match; done. Qed.
Lemma process_kept l c : line (process l c) = line c ∧ (l ≠ "" → messages (process l c) = messages c).
Proof.
  unfold process. destruct l as [|a l]; [split; [|done]; unfold dispatch; by case_match|].
  split; [|intros _]; repeat case_match; try done; apply field_kept.
Qed.
Lemma receive_no_blank s c : no_blank (String.eqb (line c) "") s = true → messages (receive s c) = messages c.
Proof.
  revert c. induction s as [|a s IH]; intros c; [done|]. cbn [no_blank receive].
  destruct (Ascii.eqb a LF) eqn:El; [|destruct (Ascii.eqb a CR) eqn:Ec]; cbn [orb].
  3: { intros H. unfold byte. rewrite El, Ec, IH; [done|]. cbn [line]. by destruct (line c). }
  all: intros [Hl H]%andb_true_iff; apply negb_true_iff, String.eqb_neq in Hl; unfold byte; rewrite El, ?Ec.
  - destruct (after_cr c); [by rewrite IH|].
    match goal with |- context [process (line c) ?c0] => destruct (process_kept (line c) c0) as [E1 E2] end.
    rewrite IH; [by rewrite E2|by rewrite E1].
  - match goal with |- context [process (line c) ?c0] => destruct (process_kept (line c) c0) as [E1 E2] end.
    rewrite IH; [by rewrite E2|by rewrite E1].
Qed.

Lemma no_blank_app b s t : no_blank b (s +:+ t) = true → no_blank b s = true.
Proof.
  revert b. induction s as [|a s IH]; intros b; [done|]. rewrite string_app_cons. cbn [no_blank].
  destruct (_ || _); [|apply IH]. intros [-> H]%andb_true_iff. by apply IH in H.
Qed.
Lemma no_blank_line l s : l ≠ "" → has_newline l = false → no_blank true (line_of l +:+ s) = no_blank true s.
Proof.
  destruct l as [|a l]; [done|]. intros _ (Ha & Ha' & Hl)%has_newline_cons. unfold line_of. rewrite !string_app_cons.
  cbn [no_blank]. rewrite Ha, Ha'. cbn [orb]. clear Ha Ha'. induction l as [|b l IH]; [done|].
  apply has_newline_cons in Hl as (Hb & Hb' & Hl). rewrite !string_app_cons. cbn [no_blank]. rewrite Hb, Hb'. by apply IH.
Qed.
(** A text cut short ends before the last of its bytes. *)
Lemma cut_before t u s a : s +:+ String a "" = t +:+ u → u ≠ "" → ∃ v, s = t +:+ v.
Proof.
  revert t. induction s as [|b s IH]; intros t E Hu.
  - destruct t as [|c t]; [by exists ""|]. rewrite string_app_cons in E. injection E as _ E. by destruct t, u.
  - destruct t as [|c t]; [by eexists|]. rewrite !string_app_cons in E. injection E as <- E.
    destruct (IH t E Hu) as [v ->]. by exists v.
Qed.

Lemma event_cut e text t u i r ms : formatSSEEvent e = inl text → contains_byte CR (Data e) = false → text = t +:+ u → u ≠ "" →
  messages (receive t (ready i r ms)) = ms.
Proof.
  unfold formatSSEEvent. destruct (has_newline (Event e)) eqn:He; [done|]. destruct (has_newline (ID e)) eqn:Hi; [done|].
  intros [= <-] Hd E Hu. apply (receive_no_blank t (ready i r ms)). cbn [ready line String.eqb].
  rewrite <-!string_app_assoc in E. destruct (cut_before _ _ _ _ E Hu) as [v Hv]. apply (no_blank_app _ _ v). rewrite <-Hv.
  rewrite !string_app_assoc. clear E Hv Hu t u v.
  assert (∀ l s, no_blank true s = true → has_newline l = false → ∀ p, p ≠ "" → has_newline p = false →
    no_blank true (line_of (p +:+ l) +:+ s) = true) as Hline.
  { intros l s Hs Hl q Hq Hq'. rewrite no_blank_line; [done|by destruct q|]. by rewrite has_newline_app, Hl, Hq'. }
  assert (no_blank true (String.concat "" (map (λ line, line_of ("data: " +:+ line)) (split_byte LF (Data e)))) = true) as Hdata.
  { generalize (split_parts LF (Data e)). induction (split_byte LF (Data e)) as [|l lines IH]; [done|].
    intros [[H1 H2] Hl]%Forall_cons. cbn [map]. rewrite concat_cons. apply Hline; [by apply IH| |done..].
    unfold has_newline. by rewrite H1, (H2 _ Hd). }
  assert (∀ s, no_blank true s = true → no_blank true ((if (0 <? Retry e)%Z then line_of ("retry: " +:+ itoa (Retry e)) else "") +:+ s) = true) as Hretry.
  { intros s Hs. destruct (Z.ltb_spec 0 (Retry e)) as [Hr|]; [|done]. destruct (itoa_digits _ Hr) as [_ Hall]. apply Hline; try done.
    unfold has_newline. by rewrite (string_all_contains is_digit CR _ Hall), (string_all_contains is_digit LF _ Hall) by done. }
  destruct (String.eqb_spec (Event e) ""), (String.eqb_spec (ID e) ""); rewrite ?string_app_nil_l;
    repeat (apply Hline; [|done..]); by apply Hretry.
Qed.
Lemma comment_cut text t u i r ms : ": " +:+ normalize_comment text +:+ String LF (String LF "") = t +:+ u →
  messages (receive t (ready i r ms)) = ms.
Proof.
  destruct (String.eqb_spec u "") as [->|Hu]; intros E.
  - rewrite string_app_nil_r in E. by rewrite <-E, receive_comment.
  - apply (receive_no_blank t (ready i r ms)). cbn [ready line String.eqb].
    replace (": " +:+ normalize_comment text +:+ String LF (String LF ""))
      with (line_of (": " +:+ normalize_comment text) +:+ String LF "") in E by (unfold line_of; by rewrite !string_app_assoc).
    destruct (cut_before _ _ _ _ E Hu) as [v Hv]. apply (no_blank_app _ _ v). rewrite <-Hv, <-(string_app_nil_r (line_of _)).
    by rewrite no_blank_line by (rewrite ?has_newline_app, ?normalized; done).
Qed.

(** What a response does: a write takes all of its bytes, or fails after some of them, and then takes no
    more; flushing adds none. *)
Record response {W : Type} (write : string → W → option error * W) (flush : W → W) (out : W → string)
    (broken : W → bool) : Prop := {
  write_taken : ∀ b x, (write b x).1 = None → out (write b x).2 = out x +:+ b;
  write_cut : ∀ b x, (write b x).1 ≠ None →
    broken (write b x).2 = true ∧ ∃ t u, b = t +:+ u ∧ out (write b x).2 = out x +:+ t;
  write_broken : ∀ b x, broken x = true →
    (write b x).1 ≠ None ∧ out (write b x).2 = out x ∧ broken (write b x).2 = true;
  flush_kept : ∀ x, out (flush x) = out x ∧ (broken x = true → broken (flush x) = true)
}.

Section client.
Context {W : Type} {write : string → W → option error * W} {flush : W → W} {out : W → string} {broken : W → bool}.
Context (R : response write flush out broken).

Lemma flushed_kept s : out (w (flushed flush s)) = out (w s) ∧
  (broken (w s) = true → broken (w (flushed flush s)) = true).
Proof using R. unfold flushed. destruct (flusher s); [apply (flush_kept _ _ _ _ R)|done]. Qed.
Lemma write_and_flush_taken b s : (write_and_flush write flush b s).1 = None →
  out (w (write_and_flush write flush b s).2) = out (w s) +:+ b.
Proof using R.
  unfold write_and_flush. pose proof (write_taken _ _ _ _ R b (w s)) as H. destruct (write b (w s)) as [[err|] x]; [done|].
  intros _. cbn [snd]. rewrite (proj1 (flushed_kept _)). by apply H.
Qed.
Lemma write_and_flush_cut b s : (write_and_flush write flush b s).1 ≠ None →
  broken (w (write_and_flush write flush b s).2) = true ∧
  ∃ t u, b = t +:+ u ∧ out (w (write_and_flush write flush b s).2) = out (w s) +:+ t.
Proof using R.
  unfold write_and_flush. pose proof (write_cut _ _ _ _ R b (w s)) as H. destruct (write b (w s)) as [[err|] x]; [|done].
  intros _. by apply H.
Qed.
Lemma write_and_flush_broken b s : broken (w s) = true →
  (write_and_flush write flush b s).1 ≠ None ∧ out (w (write_and_flush write flush b s).2) = out (w s) ∧
  broken (w (write_and_flush write flush b s).2) = true.
Proof using R.
  intros Hs. unfold write_and_flush. destruct (write_broken _ _ _ _ R b (w s) Hs) as (H1 & H2 & H3).
  by destruct (write b (w s)) as [[err|] x].
Qed.

(** Whether a call comes through, and what the client then has. *)
Definition open (s : SSEWriter W) : bool := negb (closed s) && match ctx s with None => true | Some _ => false end.
Definition heard (c : sse_call) (result : option error) (cl : client) : client :=
  match c, result with CSend e, None => deliver e cl | _, _ => cl end.
Definition plain (c : sse_call) : Prop :=
  match c with CSend e => contains_byte CR (Data e) = false ∧ contains_byte "000" (ID e) = false | _ => True end.

(** What the failing call [c] of a response that broke may leave with the client that had [cl]: nothing, or
    its event, when all of it was written. *)
Definition left_by (c : sse_call) (cl : client) (ms : list (string * string * string)) : Prop :=
  ms = messages cl ∨ ∃ e, c = CSend e ∧ ms = messages (deliver e cl).

Lemma step_heard c s i r ms : plain c → receive (out (w s)) new_client = ready i r ms →
  let '(result, s1) := sse_step write flush c s in
  receive (out (w s1)) new_client = heard c result (ready i r ms) ∨
  broken (w s1) = true ∧ (∃ err, result = Some err) ∧ left_by c (ready i r ms) (messages (receive (out (w s1)) new_client)).
Proof using R.
  intros Hc Hs. destruct c as [e|text| | |err]; cbn [sse_step]; try by left.
  - destruct Hc as [Hd Hz]. unfold Send. destruct (closed s); [by left|]. destruct (ctx s); [by left|].
    destruct (formatSSEEvent e) as [text|] eqn:E; [|by left].
    pose proof (write_and_flush_taken text s) as Ht. pose proof (write_and_flush_cut text s) as Hk.
    destruct (write_and_flush write flush text s) as [[err|] s1]; cbn [fst snd] in *.
    + right. destruct Hk as (Hb & t & u & Et & ->); [done|]. split; [done|]. split; [by exists err|].
      rewrite receive_app, Hs. destruct (String.eqb_spec u "") as [->|Hu].
      * right. exists e. split; [done|]. rewrite string_app_nil_r in Et. subst t. by rewrite (receive_event e text).
      * left. by apply (event_cut e text t u).
    + left. rewrite Ht, receive_app, Hs by done. by apply receive_event.
  - unfold Comment. destruct (closed s); [by left|]. destruct (ctx s); [by left|].
    set (b := ": " +:+ normalize_comment text +:+ String LF (String LF "")).
    pose proof (write_and_flush_taken b s) as Ht. pose proof (write_and_flush_cut b s) as Hk.
    destruct (write_and_flush write flush b s) as [[err|] s1]; cbn [fst snd] in *.
    + right. destruct Hk as (Hb & t & u & Et & ->); [done|]. split; [done|]. split; [by exists err|].
      rewrite receive_app, Hs. left. by apply (comment_cut text t u).
    + left. rewrite Ht, receive_app, Hs by done. apply receive_comment.
  - unfold Flush. destruct (closed s); [by left|]. destruct (ctx s); [by left|]. left. by rewrite (proj1 (flushed_kept _)).
Qed.

(** A broken response stays so, takes nothing, and no call that writes succeeds. *)
Definition writes (c : sse_call) : bool := match c with CSend _ | CComment _ => true | _ => false end.
Lemma step_broken c s : broken (w s) = true →
  let '(result, s1) := sse_step write flush c s in
  broken (w s1) = true ∧ out (w s1) = out (w s) ∧ (writes c = true → result ≠ None).
Proof using R.
  intros Hs. destruct c as [e|text| | |err]; cbn [sse_step writes]; [| | |by cbn..].
  - unfold Send. destruct (closed s); [done|]. destruct (ctx s); [done|]. destruct (formatSSEEvent e) as [text|]; [|done].
    pose proof (write_and_flush_broken text s Hs) as H. destruct (write_and_flush write flush text s). naive_solver.
  - unfold Comment. destruct (closed s); [done|]. destruct (ctx s); [done|].
    pose proof (write_and_flush_broken (": " +:+ normalize_comment text +:+ String LF (String LF "")) s Hs) as H.
    destruct (write_and_flush write flush _ s). naive_solver.
  - unfold Flush. destruct (closed s); [done|]. destruct (ctx s); [done|]. destruct (flushed_kept s) as [H1 H2].
    split; [by apply H2|]. by split.
Qed.
Lemma run_broken calls s : broken (w s) = true →
  let '(results, s') := sse_run write flush calls s in
  broken (w s') = true ∧ out (w s') = out (w s) ∧
  (∀ cl, foldl (λ cl '(c, e), heard c e cl) cl (zip calls results) = cl) ∧
  Forall (λ '(c, e), writes c = true → e ≠ None) (zip calls results).
Proof using R.
  revert s. induction calls as [|c calls IH]; intros s Hs; [by cbn|]. cbn [sse_run].
  pose proof (step_broken c s Hs) as H. destruct (sse_step write flush c s) as [e s1]. destruct H as (H1 & H2 & H3).
  specialize (IH s1 H1). destruct (sse_run write flush calls s1) as [es s2]. destruct IH as (H4 & H5 & H6 & H7).
  split; [done|]. split; [by rewrite H5|]. split; [|by constructor].
  intros cl. cbn [zip_with foldl]. rewrite H6. unfold heard. destruct c, e; try done. by destruct H3.
Qed.

(** [C24] The client that reads what the response took has exactly the events whose [Send] returned nil, in their
    order and whole: with their data of however many lines, their type, and the last identifier given up to
    then. Comments, refused calls and calls after the end leave nothing. Once a write has failed, no later
    event or comment is sent, and the one that failed leaves nothing either, unless all of it was
    written. *)
Theorem stream_received calls s : out (w s) = "" → Forall plain calls →
  let '(results, s') := sse_run write flush calls s in
  let sent := foldl (λ cl '(c, e), heard c e cl) new_client (zip calls results) in
  let client := receive (out (w s')) new_client in
  client = sent ∨
  ∃ before c err after, zip calls results = before ++ (c, Some err) :: after ∧
    Forall (λ '(c, e), writes c = true → e ≠ None) after ∧ left_by c sent (messages client).
Proof using R.
  intros Hs Hc. assert (receive (out (w s)) new_client = ready "" None []) as H by (by rewrite Hs).
  change new_client with (ready "" None []) at 1. revert H. generalize (@nil (string * string * string)) as ms, (@None Z) as r, "" as i.
  clear Hs. revert s. induction Hc as [|c calls Hc _ IH]; intros s ms r i Hs; [by left|].
  pose proof (step_heard c s i r ms Hc Hs) as H. cbn [sse_run]. destruct (sse_step write flush c s) as [e s1].
  destruct H as [H|(Hb & [err ->] & Hl)].
  - assert (∃ i' r' ms', heard c e (ready i r ms) = ready i' r' ms') as (i' & r' & ms' & E) by (unfold heard; destruct c, e; by do 3 eexists).
    rewrite E in H. specialize (IH s1 ms' r' i' H). destruct (sse_run write flush calls s1) as [es s2].
    cbn [zip_with foldl]. rewrite E. destruct IH as [IH|(before & c' & err & after & E' & IH)]; [by left|right].
    exists ((c, e) :: before), c', err, after. by rewrite E' at 1.
  - pose proof (run_broken calls s1 Hb) as H. destruct (sse_run write flush calls s1) as [es s2]. destruct H as (_ & Ho & Hf & Ha).
    right. exists [], c, err, (zip calls es). split; [done|]. split; [done|]. cbn [zip_with foldl]. rewrite Hf, Ho. by destruct c.
Qed.

(** [Send] returns what the write of the event's text returns, if the writer is open, the client there, and type
    and identifier without newlines; otherwise it fails and writes nothing. *)
Theorem send_decided e s :
  (∃ text, open s = true ∧ formatSSEEvent e = inl text ∧ has_newline (Event e) = false ∧ has_newline (ID e) = false ∧
     (Send write flush e s).1 = (write text (w s)).1) ∨
  ((open s = false ∨ has_newline (Event e) = true ∨ has_newline (ID e) = true) ∧
   (Send write flush e s).1 ≠ None ∧ (Send write flush e s).2 = s).
Proof.
  unfold Send, open. destruct (closed s); [naive_solver|]. destruct (ctx s); [naive_solver|]. cbn [negb andb].
  unfold formatSSEEvent. destruct (has_newline (Event e)); [naive_solver|]. destruct (has_newline (ID e)); [naive_solver|].
  left. eexists. do 4 (split; [done|]). unfold write_and_flush. by destruct (write _ (w s)) as [[err|] x].
Qed.

(** Closed or without its client, the writer stays so, refuses every call and writes nothing. *)
Theorem ended_stays_ended calls s : open s = false →
  w (sse_run write flush calls s).2 = w s ∧
  Forall (λ '(c, e), match c with CClose | Gone _ => True | _ => e ≠ None end) (zip calls (sse_run write flush calls s).1).
Proof.
  revert s. induction calls as [|c calls IH]; intros s Hs; [by split|]. cbn [sse_run].
  assert (w (sse_step write flush c s).2 = w s ∧ open (sse_step write flush c s).2 = false ∧
    match c with CClose | Gone _ => True | _ => (sse_step write flush c s).1 ≠ None end) as (H1 & H2 & H3).
  { unfold open in *. destruct c; cbn [sse_step]; unfold Send, Comment, Flush, Close; cbn in *; destruct (closed s) eqn:E1, (ctx s) eqn:E2; try done; cbn; by rewrite ?E1, ?E2. }
  destruct (sse_step write flush c s) as [e s1]. cbn [fst snd] in *. destruct (IH s1 H2) as [H4 H5].
  destruct (sse_run write flush calls s1) as [es s2]. cbn [fst snd zip_with] in *. split; [by rewrite H4|]. by constructor.
Qed.
End client.

(** A response is what it took here, and the bytes it still has room for, until a write fails. *)
Definition page : Type := string * option nat.
Definition page_write (b : string) (x : page) : option error * page :=
  match x.2 with
  | None => (Some (ErrorText "write: broken pipe"), x)
  | Some room =>
      if (String.length b <=? room)%nat then (None, (x.1 +:+ b, Some (room - String.length b)%nat))
      else (Some (ErrorText "write: broken pipe"), (x.1 +:+ take_bytes room b, None))
  end.
Definition torn (x : page) : bool := match x.2 with None => true | Some _ => false end.
Lemma page_response : response page_write (λ x, x) fst torn.
Proof.
  split; unfold page_write, torn.
  - intros b [x [room|]]; cbn [fst snd]; [|done]. by destruct (_ <=? _)%nat.
  - intros b [x [room|]]; cbn [fst snd].
    + destruct (_ <=? _)%nat; [done|]. intros _. split; [done|]. exists (take_bytes room b), (drop_bytes room b). by rewrite take_drop_bytes.
    + intros _. split; [done|]. exists "", b. by rewrite string_app_nil_r.
  - by intros b [x [room|]].
  - done.
Qed.

Definition demo_calls : list sse_call :=
  [CSend (MkEvent "news" (line_of "one" +:+ "two") "7" 500); CComment "alive"; CSend (MkEvent "bad" "x" (line_of "8") 0);
   CSend (MkEvent "" "three" "" 0); CSend (MkEvent "" "four" "" 0); CClose; CSend (MkEvent "" "five" "" 0)].
Definition demo_page (room : nat) : SSEWriter page := MkSSE ("", Some room) true None false.
(** There is room for the first event, the comment, and the line of "three", but not for the empty line that
    ends its event. *)
Lemma stream_received_witness :
  let '(results, s') := sse_run page_write (λ x, x) demo_calls (demo_page 71) in
  let sent := foldl (λ cl '(c, e), heard c e cl) new_client (zip demo_calls results) in
  let client := receive (fst (w s')) new_client in
  map (λ r, bool_decide (r = None)) results = [true; true; false; false; false; true; false] ∧
  messages client = [("news", line_of "one" +:+ "two", "7")] ∧
  (client = sent ∨
   ∃ before c err after, zip demo_calls results = before ++ (c, Some err) :: after ∧
     Forall (λ '(c, e), writes c = true → e ≠ None) after ∧ left_by c sent (messages client)).
Proof.
  pose proof (stream_received page_response demo_calls (demo_page 71) eq_refl) as H.
  assert (Forall plain demo_calls) as Hp by (repeat constructor). specialize (H Hp).
  assert (sse_run page_write (λ x, x) demo_calls (demo_page 71) =
    ((sse_run page_write (λ x, x) demo_calls (demo_page 71)).1, (sse_run page_write (λ x, x) demo_calls (demo_page 71)).2)) as E by done.
  rewrite E in *. split; [vm_compute; reflexivity|]. split; [vm_compute; reflexivity|]. exact H.
Defined.
(** With room enough all events but the refused ones arrive. *)
Example all_sent :
  messages (receive (fst (w (sse_run page_write (λ x, x) demo_calls (demo_page 1000)).2)) new_client) =
    [("news", line_of "one" +:+ "two", "7"); ("message", "three", "7"); ("message", "four", "7")].
Proof. vm_compute. reflexivity. Qed.

(** A carriage return in the data ends the line for the client, and what follows is a field of its own: here
    the text that was sent changes the type of the event. *)
Example carriage_return_injects :
  let e := MkEvent "" ("hello" +:+ String CR "event: admin") "" 0 in
  messages (receive (fst (w (Send page_write (λ x, x) e (demo_page 100)).2)) new_client) = [("admin", "hello", "")].
Proof. vm_compute. reflexivity. Qed.
