(* ===== verification/AuthPlugins.v ===== *)
(** Authentication by credentials, tokens and keys (plugins/basicauth/basicauth.go, plugins/bearer/bearer.go,
    plugins/apikey/apikey.go), and by roles after it (plugins/rbac/rbac.go). The first three differ in where
    they find a credential and in the answers that refuse one; what they do with the verdict of a validator
    is the same. *)
From S2P Require Import Prelude GoStrings Http Errors Sha256 Base64.
From stdpp Require Import gmap.

(** * Verdicts *)

(** What a validator returns: the identity, nil or not, and the error. *)
Definition validation : Type := option any * option error.

(** The request is let in with an identity, or refused with an error, with or without a challenge. *)
Inductive verdict : Type := Admit (identity : any) | Refuse (challenged : bool) (err : AppError).
Definition judge (message : string) (v : validation) : verdict :=
  match v with
  | (_, Some err) =>
      match errors_As is_app err with
      | Some a => Refuse (StatusCode a =? 401)%Z a
      | None => Refuse true (ErrUnauthorized message)
      end
  | (None, None) => Refuse true (ErrUnauthorized message)
  | (Some identity, None) => Admit identity
  end.
(** The verdict on what was found of a credential. *)
Definition verdict_of {C : Type} (message : string) (validator : C → validation) (credential : option C) : verdict :=
  match credential with None => Refuse true (ErrUnauthorized message) | Some c => judge message (validator c) end.

Section answers.
Context {W : Type} `{ResponseWriter W} (json_encode : payload → string) (status_text : Z → string).

(** The rest of the chain, given the identity that is stored. *)
Definition Next : Type := any → W → option error * W.

Definition challenge_with (challenge : option string) (challenged : bool) : list wop :=
  match challenge with Some c => if challenged then [HSet "WWW-Authenticate" c] else [] | None => [] end.
Definition native (challenge : option string) (v : verdict) (next : Next) (w : W) : option error * W :=
  match v with
  | Admit identity => next identity w
  | Refuse challenged err => (Some (AsApp err), run_ops (challenge_with challenge challenged) w)
  end.

Definition codeForStatus (status : Z) : string :=
  if (status =? 401)%Z then "unauthorized" else if (status =? 403)%Z then "forbidden" else status_text status.
(** [writeError] of basicauth and apikey: the code is that of the status, and the detail is dropped. *)
Definition writeError (rid : string) (err : AppError) : list wop :=
  [HSet "Content-Type" "application/json; charset=utf-8"; OWriteHeader (StatusCode err);
   OWrite (json_encode (PError (codeForStatus (StatusCode err)) (Message err) "" rid))].
(** [writeUnauthorized] and [writeAppError] of bearer. *)
Definition writeAppError (rid : string) (err : AppError) : list wop :=
  [HSet "Content-Type" "application/json"; OWriteHeader (StatusCode err);
   OWrite (json_encode (PError (Code err) (Message err) (Detail err) rid))].
Definition stdlib (challenge : option string) (write : AppError → list wop) (v : verdict) (next : Next) (w : W)
  : option error * W :=
  match v with
  | Admit identity => next identity w
  | Refuse challenged err => (None, run_ops (challenge_with challenge challenged ++ write err) w)
  end.
End answers.

(** * Schemes *)

(** [strings.EqualFold] with a constant of ASCII letters without k and s. *)
Definition EqualFold (s t : string) : bool := String.eqb (string_map to_lower_byte s) (string_map to_lower_byte t).
Definition validRealm (s : string) : bool :=
  string_all (λ c, negb (Ascii.eqb c "034" || Ascii.eqb c "\" || (code c <? 32)%Z || (code c =? 127)%Z)) s.
Definition quoted (name value : string) : string := " " +:+ name +:+ "=" +:+ String "034" value +:+ String "034" "".

Module Basic.
Record Config : Type := MkConfig { Realm : string; Charset : string; Validator : option (string * string → validation); ErrorMessage : string }.
Definition DefaultConfig : Config := MkConfig "" "" None "missing or invalid credentials".

Definition buildChallenge (realm charset : string) : string :=
  "Basic" +:+ (if String.eqb realm "" then "" else quoted "realm" realm) +:+
  (if String.eqb charset "" then "" else (if String.eqb realm "" then "" else ",") +:+ quoted "charset" charset).

Definition parseAuthHeader (header : string) : option (string * string) :=
  if (String.length header <? 6)%nat then None
  else if negb (EqualFold (take_bytes 6 header) "Basic ") then None
  else
    decoded ← std_decode (trim_left " " (drop_bytes 6 header));
    cut_byte ":" decoded.

(** The challenge and the verdict of a middleware; [None] for the panics of [New]. *)
Definition New (cfg : Config) : option (string * (header → verdict)) :=
  validator ← Validator cfg;
  if negb (validRealm (Realm cfg)) then None
  else if negb (String.eqb (Charset cfg) "") && negb (EqualFold (Charset cfg) "UTF-8") then None
  else
    let message := if String.eqb (ErrorMessage cfg) "" then "missing or invalid credentials" else ErrorMessage cfg in
    Some (buildChallenge (Realm cfg) (Charset cfg),
          λ h, verdict_of message validator (parseAuthHeader (header_get "Authorization" h))).

Definition errInvalidCreds : error := ErrorText "basicauth: invalid credentials".
Definition sentinel : string := String.concat "" (replicate 32 (String "000" "")).
Definition StaticCreds (creds : gmap string string) : string * string → validation :=
  let snapshot : gmap string string := Sum256 <$> creds in
  λ '(user, pass),
    if String.eqb user "" then (None, Some errInvalidCreds)
    else
      let known := bool_decide (is_Some (snapshot !! user)) in
      let matches := String.eqb (Sum256 pass) (default sentinel (snapshot !! user)) in
      if negb known || negb matches then (None, Some errInvalidCreds) else (Some (AnyString user), None).
End Basic.

(** Tokens and keys are looked up by their digests. *)
Definition static_digests (invalid : error) (tokens : gmap string any) : string → validation :=
  let snapshot : gmap string any := list_to_map (map (prod_map Sum256 id) (map_to_list tokens)) in
  λ presented,
    if String.eqb presented "" then (None, Some invalid)
    else match snapshot !! Sum256 presented with Some v => (Some v, None) | None => (None, Some invalid) end.
Definition nonempty (s : string) : option string := if String.eqb s "" then None else Some s.

Module Bearer.
Record Config : Type := MkConfig { Header : string; Query : string; Realm : string; Validator : option (string → validation); ErrorMessage : string }.
Definition DefaultConfig : Config := MkConfig "Authorization" "" "" None "missing or invalid bearer token".
Definition schemeName : string := "Bearer".
Definition buildChallenge (realm : string) : string :=
  if String.eqb realm "" then schemeName else schemeName +:+ quoted "realm" realm.
Definition parseAuthHeader (value : string) : string :=
  if (String.length value <? 7)%nat then ""
  else if negb (EqualFold (take_bytes 6 value) schemeName) then ""
  else match drop_bytes 6 value with
       | String " " (String " " rest) => rest
       | String " " rest => rest
       | _ => ""
       end.
Definition extractToken (cfg : Config) (header query : string → string) : string :=
  if negb (String.eqb (Header cfg) "") && negb (String.eqb (header (Header cfg)) "") then parseAuthHeader (header (Header cfg))
  else if negb (String.eqb (Query cfg) "") then query (Query cfg) else "".
Definition New (cfg : Config) : option (string * ((string → string) → (string → string) → verdict)) :=
  validator ← Validator cfg;
  if String.eqb (Header cfg) "" && String.eqb (Query cfg) "" then None
  else if negb (validRealm (Realm cfg)) then None
  else
    let message := if String.eqb (ErrorMessage cfg) "" then "missing or invalid bearer token" else ErrorMessage cfg in
    Some (buildChallenge (Realm cfg), λ header query, verdict_of message validator (nonempty (extractToken cfg header query))).
Definition errInvalidToken : error := ErrorText "bearer: invalid token".
Definition StaticTokens : gmap string any → string → validation := static_digests errInvalidToken.
End Bearer.

Module ApiKey.
Record Config : Type := MkConfig { Header : string; Query : string; Validator : option (string → validation); ErrorMessage : string }.
Definition DefaultConfig : Config := MkConfig "X-API-Key" "" None "missing or invalid API key".
Definition extractKey (cfg : Config) (header query : string → string) : string :=
  if negb (String.eqb (Header cfg) "") && negb (String.eqb (header (Header cfg)) "") then header (Header cfg)
  else if negb (String.eqb (Query cfg) "") then query (Query cfg) else "".
Definition New (cfg : Config) : option ((string → string) → (string → string) → verdict) :=
  validator ← Validator cfg;
  if String.eqb (Header cfg) "" && String.eqb (Query cfg) "" then None
  else
    let message := if String.eqb (ErrorMessage cfg) "" then "missing or invalid API key" else ErrorMessage cfg in
    Some (λ header query, verdict_of message validator (nonempty (extractKey cfg header query))).
Definition errInvalidKey : error := ErrorText "apikey: invalid key".
Definition StaticKeys : gmap string any → string → validation := static_digests errInvalidKey.
End ApiKey.

Module Rbac.
(** The roles that a caller has against those that a middleware asks for; [None] for a panic. *)
Definition RequireRoles (roles : list string) : option (list string → bool) :=
  match roles with [] => None | _ => Some (λ have, forallb (λ r, bool_decide (r ∈ have)) roles) end.
Definition RequireAnyRole (roles : list string) : option (list string → bool) :=
  match roles with [] => None | _ => Some (λ have, existsb (λ r, bool_decide (r ∈ have)) roles) end.
Definition message_of (m : string) : string := if String.eqb m "" then "insufficient privileges" else m.
Definition writeForbidden {W} `{ResponseWriter W} (json_encode : payload → string) (rid message : string) (w : W) : W :=
  run_ops [HSet "Content-Type" "application/json"; OWriteHeader 403; OWrite (json_encode (PError "forbidden" message "" rid))] w.
Definition rbac_native {W} (allow : list string → bool) (message : string) (roles : list string)
    (next : W → option error * W) (w : W) : option error * W :=
  if allow roles then next w else (Some (AsApp (ErrForbidden message)), w).
(** [ctx] is the request id and the roles that the extractor finds, if the request has a context. *)
Definition rbac_stdlib {W} `{ResponseWriter W} (json_encode : payload → string) (allow : list string → bool) (message : string)
    (ctx : option (string * list string)) (next : W → option error * W) (w : W) : option error * W :=
  match ctx with
  | None => (None, writeForbidden json_encode "" message w)
  | Some (rid, roles) => if allow roles then next w else (None, writeForbidden json_encode rid message w)
  end.
End Rbac.

(** * What they let in *)

(** Both forms let the same requests in, with the same identity. *)
Theorem forms_agree {W} `{ResponseWriter W} challenge write v :
  (∃ identity, v = Admit identity ∧ ∀ (next : Next (W := W)) w,
     native challenge v next w = next identity w ∧ stdlib challenge write v next w = next identity w) ∨
  (∃ c err, v = Refuse c err ∧ ∀ (next next' : Next (W := W)) w, native challenge v next w = native challenge v next' w ∧
     (native challenge v next w).1 = Some (AsApp err) ∧ stdlib challenge write v next w = stdlib challenge write v next' w).
Proof.
  destruct v as [identity|c err]; [left; exists identity|right; exists c, err]; (split; [reflexivity|]); intros; split_and!; reflexivity.
Qed.

(** A user is let in by exactly the passwords that have the digest of the user's own; an empty name never is. *)
Theorem static_creds_exact creds user pass identity : Basic.StaticCreds creds (user, pass) = (Some identity, None) ↔
  identity = AnyString user ∧ user ≠ "" ∧ ∃ p, creds !! user = Some p ∧ Sum256 pass = Sum256 p.
Proof.
  unfold Basic.StaticCreds. destruct (String.eqb_spec user "") as [->|Hu]; [by split; [|intros (_ & ? & _)]|]. rewrite lookup_fmap.
  destruct (creds !! user) as [p|]; cbn [fmap option_fmap option_map default].
  - rewrite bool_decide_true by (by eexists). cbn [negb orb default from_option id].
    destruct (String.eqb_spec (Sum256 pass) (Sum256 p)) as [E|E]; cbn [negb].
    + split; [|by intros (-> & _)]. intros H. injection H as <-. split_and!; [done..|]. by exists p.
    + split; [done|]. by intros (_ & _ & p' & [= <-] & ?).
  - split; [done|]. by intros (_ & _ & p' & ? & _).
Qed.

(** A header, once it is there, is the only place that is looked at: a request cannot pair a bad one with a
    good token in its query. *)
Theorem header_is_exclusive cfg header query query' : Bearer.Header cfg ≠ "" → header (Bearer.Header cfg) ≠ "" →
  Bearer.extractToken cfg header query = Bearer.extractToken cfg header query'.
Proof. intros H1%String.eqb_neq H2%String.eqb_neq. unfold Bearer.extractToken. by rewrite H1, H2. Qed.

(** All of the roles, or any. *)
Theorem roles_exact roles have :
  (∀ allow, Rbac.RequireRoles roles = Some allow → allow have = true ↔ ∀ r, r ∈ roles → r ∈ have) ∧
  (∀ allow, Rbac.RequireAnyRole roles = Some allow → allow have = true ↔ ∃ r, r ∈ roles ∧ r ∈ have) ∧
  (Rbac.RequireRoles roles = None ↔ roles = []).
Proof.
  assert (∀ l, forallb (λ r, bool_decide (r ∈ have)) l = true ↔ ∀ r, r ∈ l → r ∈ have) as Hall.
  { intros l. rewrite forallb_forall. setoid_rewrite bool_decide_eq_true. by split; intros H r Hr; apply H; apply list_elem_of_In. }
  assert (∀ l, existsb (λ r, bool_decide (r ∈ have)) l = true ↔ ∃ r, r ∈ l ∧ r ∈ have) as Hany.
  { intros l. rewrite existsb_exists. setoid_rewrite bool_decide_eq_true.
    split; intros (r & Hr & ?); exists r; (split; [by apply list_elem_of_In|done]). }
  unfold Rbac.RequireRoles, Rbac.RequireAnyRole. destruct roles as [|r0 roles]; [done|]. split_and!; [..|done].
  - intros allow Heq. apply (Some_inj) in Heq. subst allow. apply Hall.
  - intros allow Heq. apply (Some_inj) in Heq. subst allow. apply Hany.
Qed.

Example parsing :
  Basic.parseAuthHeader ("bAsIc  " +:+ std_encode "ann:a:b") = Some ("ann", "a:b") ∧
  Basic.parseAuthHeader ("Basic " +:+ std_encode "ann") = None ∧
  map Bearer.parseAuthHeader ["bearer tok"; "Bearer  tok"; "Bearer"; "Bearer "; "Bearertok"; "Basic tok"] = ["tok"; "tok"; ""; ""; ""; ""] ∧
  Basic.buildChallenge "a" "UTF-8" = "Basic" +:+ quoted "realm" "a" +:+ "," +:+ quoted "charset" "UTF-8".
Proof. by vm_compute. Qed.
