(* ===== verification/Etag.v ===== *)
(** Entity tags (plugins/etag/etag.go): the writer that holds an answer back, its tag, and the comparison
    with If-None-Match. [ChecksumIEEE] is hash/crc32's. *)
From S2P Require Import Prelude GoStrings Errors Http Sha256 HmacCanonical.
Local Open Scope Z_scope.

(** * CRC-32, a bit at a time *)

Definition crc_bit (c : Z) : Z :=
  let c' := Z.shiftr c 1 in if Z.testbit c 0 then Z.lxor c' 0xEDB88320 else c'.
Definition crc_byte (c b : Z) : Z := Nat.iter 8 crc_bit (Z.lxor c b).
Definition ChecksumIEEE (s : string) : Z := Z.lxor (foldl crc_byte 0xffffffff (codes s)) 0xffffffff.

Example checksum_check : ChecksumIEEE "123456789" = 0xCBF43926.
Proof. vm_compute. reflexivity. Qed.

(** [n] hexadecimal digits of a number, as [%08x] prints one of 32 bits. *)
Fixpoint hex_digits (n : nat) (z : Z) : string :=
  match n with
  | O => ""
  | S k => String (hex_digit false (Z.land (Z.shiftr z (4 * Z.of_nat k)) 15)) (hex_digits k z)
  end.
Definition quote : string := String "034" "".

(** * If-None-Match *)

Definition stripWeakPrefix (s : string) : string :=
  if has_prefix s "W/" then drop_bytes 2 s else s.

Fixpoint indexOf (s : string) (sep : ascii) : Z :=
  match s with
  | EmptyString => -1
  | String a s' => if Ascii.eqb a sep then 0 else let i := indexOf s' sep in if i =? -1 then -1 else i + 1
  end.

Definition blank (a : ascii) : bool := Ascii.eqb a " " || Ascii.eqb a "009".
Fixpoint skip_blanks (s : string) : string :=
  match s with
  | String a s' => if blank a then skip_blanks s' else s
  | EmptyString => EmptyString
  end.
(** The loop that moves the end back; it stops at the start. *)
Fixpoint drop_blanks (fuel : nat) (s : string) : string :=
  match fuel with
  | O => s
  | S f =>
      let n := pred (String.length s) in
      match byte_at n s with
      | Some a => if blank a then drop_blanks f (take_bytes n s) else s
      | None => s
      end
  end.
Definition trimSpaces (s : string) : string :=
  let s := skip_blanks s in drop_blanks (String.length s) s.

Fixpoint match_list (fuel : nat) (etagVal ifNoneMatch : string) : bool :=
  match fuel with
  | O => false
  | S f =>
      if String.eqb ifNoneMatch "" then false
      else
        let i := indexOf ifNoneMatch "," in
        let '(candidate, rest) :=
          if 0 <=? i then (trimSpaces (take_bytes (Z.to_nat i) ifNoneMatch), drop_bytes (S (Z.to_nat i)) ifNoneMatch)
          else (trimSpaces ifNoneMatch, "") in
        if String.eqb candidate "" then match_list f etagVal rest
        else if String.eqb (stripWeakPrefix candidate) etagVal then true
        else match_list f etagVal rest
  end.
(** Every turn takes a byte at least. *)
Definition matchETag (ifNoneMatch etag : string) : bool :=
  if String.eqb ifNoneMatch "*" then true
  else match_list (S (String.length ifNoneMatch)) (stripWeakPrefix etag) ifNoneMatch.

(** * The middleware *)

Record Config : Type := MkConfig { Weak : bool; Hash : option (string → Z) }.
Definition DefaultConfig : Config := MkConfig false None.

(** [captureWriter]: the header map is that of the writer it wraps. *)
Record captureWriter (W : Type) : Type := MkCapture {
  ResponseWriter_ : W;
  body : string;
  statusCode : Z;
  headerSent : bool
}.
Arguments MkCapture {W} _ _ _ _.
Arguments ResponseWriter_ {W} _.
Arguments body {W} _.
Arguments statusCode {W} _.
Arguments headerSent {W} _.

Section etag.
Context {W : Type} `{ResponseWriter W}.

Definition acquireCaptureWriter (w : W) : captureWriter W := MkCapture w "" 200 false.

#[export] Instance captureWriter_writer : ResponseWriter (captureWriter W) := {
  rw_header cw := rw_header (ResponseWriter_ cw);
  rw_set_header h cw := MkCapture (rw_set_header h (ResponseWriter_ cw)) (body cw) (statusCode cw) (headerSent cw);
  WriteHeader code cw := if headerSent cw then cw else MkCapture (ResponseWriter_ cw) (body cw) code (headerSent cw);
  Write b cw := MkCapture (ResponseWriter_ cw) (body cw +:+ b) (statusCode cw) (headerSent cw)
}.

Definition hashFn (cfg : Config) : string → Z := default ChecksumIEEE (Hash cfg).
Definition tag_of (cfg : Config) (body : string) : string :=
  (if Weak cfg then "W/" else "") +:+ quote +:+ hex_digits 8 (hashFn cfg body) +:+ quote.

(** What follows the handler, in both forms. *)
Definition finish_etag (cfg : Config) (ifNoneMatch : string) (cw : captureWriter W) : W :=
  let w := ResponseWriter_ cw in
  if (statusCode cw <? 200) || (300 <=? statusCode cw) || String.eqb (body cw) "" then
    let w := WriteHeader (statusCode cw) w in
    if String.eqb (body cw) "" then w else Write (body cw) w
  else
    let etag := tag_of cfg (body cw) in
    let w := rw_set_header (header_set "ETag" etag (rw_header w)) w in
    if negb (String.eqb ifNoneMatch "") && matchETag ifNoneMatch etag then WriteHeader 304 w
    else Write (body cw) (WriteHeader (statusCode cw) w).

Definition tagged_method (method : string) : bool := String.eqb method "GET" || String.eqb method "HEAD".

(** A handler is the list of operations on the writer that it is given, and in the native form the error
    it returns; the capture is dropped with it. *)
Definition stdlib (cfg : Config) (method ifNoneMatch : string) (ops : list wop) (w : W) : W :=
  if tagged_method method then finish_etag cfg ifNoneMatch (run_ops ops (acquireCaptureWriter w)) else run_ops ops w.
Definition native (cfg : Config) (method ifNoneMatch : string) (ops : list wop) (err : option error) (w : W)
  : option error * W :=
  if tagged_method method then
    let cw := run_ops ops (acquireCaptureWriter w) in
    match err with
    | Some e => (Some e, ResponseWriter_ cw)
    | None => (None, finish_etag cfg ifNoneMatch cw)
    end
  else (err, run_ops ops w).
End etag.

(** * Laws

    What entity tags promise: the comparison is the one of a list of tags, a client that sends back the tag
    of an answer is told exactly whether the body is still the same, and an answer is otherwise what the
    handler wrote last. *)
Local Open Scope Z_scope.

(** * Tags *)

Lemma hex_digit_inj u a b : 0 ≤ a < 16 → 0 ≤ b < 16 → hex_digit u a = hex_digit u b → a = b.
Proof.
  intros Ha Hb E. assert (∀ d, 0 ≤ d < 16 → d ∈ map Z.of_nat (seq 0 16)) as Hd.
  { intros d Hd. apply list_elem_of_fmap. exists (Z.to_nat d). split; [lia|apply elem_of_seq; lia]. }
  pose proof (Hd _ Ha) as Ha'. pose proof (Hd _ Hb) as Hb'. revert E.
  assert (forallb (λ a, forallb (λ b, implb (Ascii.eqb (hex_digit u a) (hex_digit u b)) (a =? b))
            (map Z.of_nat (seq 0 16))) (map Z.of_nat (seq 0 16)) = true) as Hall by (by destruct u; vm_compute).
  rewrite forallb_forall in Hall. specialize (Hall a ltac:(by apply list_elem_of_In)). rewrite forallb_forall in Hall.
  specialize (Hall b ltac:(by apply list_elem_of_In)). intros E. rewrite E, Ascii.eqb_refl in Hall. cbn in Hall. lia.
Qed.

Lemma low_digit z : 0 ≤ Z.land z 15 < 16.
Proof. change 15 with (Z.ones 4). rewrite Z.land_ones by lia. apply Z.mod_pos_bound. lia. Qed.

Lemma hex_digits_inj n z z' : 0 ≤ z < 16 ^ Z.of_nat n → 0 ≤ z' < 16 ^ Z.of_nat n → hex_digits n z = hex_digits n z' → z = z'.
Proof.
  assert (∀ n z z', hex_digits n z = hex_digits n z' → z mod 2 ^ (4 * Z.of_nat n) = z' mod 2 ^ (4 * Z.of_nat n)) as Hmod.
  { clear. induction n as [|n IH]; intros z z'; [by rewrite !Z.mod_1_r|]. cbn [hex_digits]. intros E. injection E as Ed En.
    apply IH in En. apply (hex_digit_inj false) in Ed; [|apply low_digit..].
    change 15 with (Z.ones 4) in Ed. rewrite !Z.land_ones, !Z.shiftr_div_pow2 in Ed by lia.
    replace (4 * Z.of_nat (S n)) with (4 * Z.of_nat n + 4) by lia. rewrite Z.pow_add_r by lia.
    rewrite !(Z.rem_mul_r _ (2 ^ (4 * Z.of_nat n)) (2 ^ 4)) by lia. by rewrite En, Ed. }
  intros Hz Hz' E%Hmod. rewrite Z.pow_mul_r in E by lia. change (2 ^ 4) with 16 in E. by rewrite !Z.mod_small in E.
Qed.

Definition tag_byte (a : ascii) : bool := negb (Ascii.eqb a ",") && negb (blank a).
Lemma hex_digit_tag d : 0 ≤ d < 16 → tag_byte (hex_digit false d) = true.
Proof.
  intros Hd. assert (forallb (λ d, tag_byte (hex_digit false (Z.of_nat d))) (seq 0 16) = true) as Hall by (by vm_compute).
  rewrite forallb_forall in Hall. specialize (Hall (Z.to_nat d)). rewrite Z2Nat.id in Hall by lia. apply Hall, in_seq. lia.
Qed.
Lemma hex_digits_tag n z : string_all tag_byte (hex_digits n z) = true.
Proof. induction n as [|n IH]; [done|]. cbn. rewrite IH. by rewrite hex_digit_tag by apply low_digit. Qed.
Lemma tag_of_tag cfg b : string_all tag_byte (tag_of cfg b) = true.
Proof. unfold tag_of. rewrite !string_all_app, hex_digits_tag. by destruct (Weak cfg). Qed.

Lemma strip_tag cfg b : stripWeakPrefix (tag_of cfg b) = quote +:+ hex_digits 8 (hashFn cfg b) +:+ quote.
Proof. unfold tag_of, stripWeakPrefix. by destruct (Weak cfg). Qed.

(** * The list of tags *)

Lemma indexOf_cut c s : indexOf s c = match cut_byte c s with Some (a, _) => Z.of_nat (String.length a) | None => -1 end.
Proof.
  induction s as [|x s IH]; [done|]. cbn. destruct (Ascii.eqb x c); [done|]. rewrite IH.
  destruct (cut_byte c s) as [[a b]|]; cbn; [|done]. destruct (Z.eqb_spec (Z.of_nat (String.length a)) (-1)); lia.
Qed.

Definition names_tag (etagVal candidate : string) : bool :=
  negb (String.eqb (trimSpaces candidate) "") && String.eqb (stripWeakPrefix (trimSpaces candidate)) etagVal.

(** The loop is a search in the parts between commas, and its fuel is enough. *)
Lemma match_list_split v fuel s : (String.length s < fuel)%nat →
  match_list fuel v s = existsb (names_tag v) (split_byte "," s).
Proof.
  revert s. induction fuel as [|f IH]; intros s Hf; [lia|]. cbn [match_list].
  destruct (String.eqb_spec s "") as [->|Hs]; [done|]. rewrite indexOf_cut, split_byte_cut.
  destruct (cut_byte "," s) as [[a b]|] eqn:E.
  - apply cut_byte_Some in E as [-> _]. rewrite (proj2 (Z.leb_le 0 _)) by lia. rewrite Nat2Z.id, take_bytes_app.
    replace (drop_bytes _ _) with b.
    2: { rewrite <-(drop_bytes_app (a +:+ ",") b) at 1. rewrite string_length_app, string_app_assoc. cbn [String.length].
         by rewrite Nat.add_1_r. }
    cbn [existsb]. unfold names_tag at 1. rewrite string_length_app in Hf. cbn in Hf.
    rewrite <-IH by lia. by destruct (String.eqb (trimSpaces a) ""), (String.eqb _ v).
  - cbn [existsb]. change (0 <=? -1) with false. cbn match. unfold names_tag.
    assert (match_list f v "" = false) as Hnil by (by destruct f).
    rewrite Hnil. by destruct (String.eqb (trimSpaces s) ""), (String.eqb _ v).
Qed.

Lemma drop_blanks_last f s a : blank a = false → drop_blanks f (s +:+ String a "") = s +:+ String a "".
Proof.
  intros Ha. destruct f as [|f]; [done|]. cbn. rewrite string_length_app, Nat.add_1_r. cbn [pred].
  assert (byte_at (String.length s) (s +:+ String a "") = Some a) as ->; [|by rewrite Ha].
  induction s as [|x s IH]; [done|]. exact IH.
Qed.
Lemma string_last s : s = "" ∨ ∃ t a, s = t +:+ String a "".
Proof.
  induction s as [|x s IH]; [by left|]. right. destruct IH as [->|(t & a & ->)]; [by exists "", x|by exists (String x t), a].
Qed.
Lemma trim_tag s : string_all tag_byte s = true → trimSpaces s = s.
Proof.
  intros Hs. unfold trimSpaces. assert (skip_blanks s = s) as ->.
  { destruct s as [|a s]; [done|]. cbn in *. unfold tag_byte in Hs. by destruct (blank a); [rewrite andb_false_r in Hs|]. }
  destruct (string_last s) as [->|(t & a & ->)]; [done|]. apply drop_blanks_last.
  rewrite string_all_app in Hs. cbn in Hs. unfold tag_byte in Hs. destruct (blank a); [|done].
  rewrite !andb_false_r in Hs. done.
Qed.
Lemma tag_no_comma s : string_all tag_byte s = true → cut_byte "," s = None.
Proof.
  intros Hs. apply cut_byte_None. induction s as [|a s IH]; [done|]. rewrite contains_byte_cons. cbn in Hs.
  apply andb_prop in Hs as [Ha Hs]. rewrite (IH Hs). unfold tag_byte in Ha. by destruct (Ascii.eqb a ",").
Qed.

(** * The middleware *)

(** The tag of an answer is among the candidates, blanks and the mark of weakness put aside. *)
Theorem if_none_match inm cfg b :
  matchETag inm (tag_of cfg b) = true ↔
  inm = "*" ∨ ∃ c, c ∈ split_byte "," inm ∧ stripWeakPrefix (trimSpaces c) = quote +:+ hex_digits 8 (hashFn cfg b) +:+ quote.
Proof.
  unfold matchETag. destruct (String.eqb_spec inm "*") as [->|Hstar]; [naive_solver|].
  rewrite match_list_split, existsb_exists, strip_tag by lia. split.
  - intros (c & Hc & Hn). right. exists c. split; [by apply list_elem_of_In|]. unfold names_tag in Hn.
    by apply andb_prop in Hn as [_ ?%String.eqb_eq].
  - intros [?|(c & Hc & E)]; [done|]. exists c. split; [by apply list_elem_of_In|]. unfold names_tag.
    rewrite E, String.eqb_refl. by destruct (String.eqb_spec (trimSpaces c) "") as [E'|]; [rewrite E' in E|].
Qed.

(** What the handler leaves in the capture. *)
Definition last_status (ops : list wop) (status : Z) : Z :=
  foldl (λ s o, match o with OWriteHeader code => code | _ => s end) status ops.
Lemma capture_holds ops (h : header) b s :
  run_ops ops (MkCapture (new_RW h) b s false) =
    MkCapture (new_RW (ops_header ops h)) (b +:+ ops_body ops) (last_status ops s) false.
Proof.
  revert h b s. induction ops as [|o ops IH]; intros h b s; [cbn; by rewrite string_app_nil_r|].
  rewrite run_ops_cons. destruct o; cbn [do_op rw_header rw_set_header WriteHeader Write captureWriter_writer headerSent
    ResponseWriter_ body statusCode RW_writer new_RW w_header w_sent w_body]; fold (new_RW h);
    try (change {| w_header := ?x; w_sent := None; w_body := "" |} with (new_RW x)); rewrite IH; try done.
  cbn [ops_body]. by rewrite string_app_assoc.
Qed.

Definition tagged (ops : list wop) : bool :=
  (200 <=? last_status ops 200) && (last_status ops 200 <? 300) && negb (String.eqb (ops_body ops) "").

(** An answer to GET or HEAD that is a success with a body carries the tag of its body, and is replaced by
    304 exactly if the request names that tag; every answer has otherwise the fields the handler set, the
    status it set last, if that is not informational, and the body it wrote. *)
Theorem etag_answer cfg method inm ops h : informational (last_status ops 200) = false → tagged_method method = true →
  let w := stdlib cfg method inm ops (new_RW h) in
  let tag := tag_of cfg (ops_body ops) in
  let hit := tagged ops && negb (String.eqb inm "") && matchETag inm tag in
  final_status w = (if hit then 304 else last_status ops 200) ∧
  w_body w = (if hit then "" else ops_body ops) ∧
  final_header w = (if tagged ops then header_set "ETag" tag (ops_header ops h) else ops_header ops h).
Proof.
  intros Hinf Hm w tag hit. unfold w, hit, stdlib. rewrite Hm. unfold acquireCaptureWriter. rewrite capture_holds.
  change ("" +:+ ops_body ops) with (ops_body ops). unfold finish_etag, tagged. cbn [ResponseWriter_ statusCode body]. fold tag.
  cbn [WriteHeader rw_header rw_set_header RW_writer]. rewrite !(RW_WriteHeader_first (last_status ops 200)) by done.
  destruct (Z.ltb_spec (last_status ops 200) 200), (Z.leb_spec 200 (last_status ops 200)); try lia; cbn [andb orb].
  { by destruct (String.eqb_spec (ops_body ops) "") as [->|]. }
  destruct (Z.leb_spec 300 (last_status ops 200)), (Z.ltb_spec (last_status ops 200) 300); try lia; cbn [andb orb].
  { by destruct (String.eqb_spec (ops_body ops) "") as [->|]. }
  destruct (String.eqb_spec (ops_body ops) "") as [->|]; cbn [negb andb]; [done|].
  by destruct (negb (String.eqb inm "") && matchETag inm tag).
Qed.

Lemma tagged_final ops : tagged ops = true → informational (last_status ops 200) = false.
Proof. unfold tagged, informational. lia. Qed.

(** A client that sends back the tag of an earlier answer is told that nothing has changed exactly if the
    checksum of the body is still the same. *)
Theorem revalidation cfg method old ops h : (∀ s, 0 ≤ hashFn cfg s < 2 ^ 32) →
  tagged_method method = true → tagged ops = true →
  let w := stdlib cfg method (tag_of cfg old) ops (new_RW h) in
  final_status w = 304 ↔ hashFn cfg old = hashFn cfg (ops_body ops).
Proof.
  intros Hh Hm Ht w. pose proof (etag_answer cfg method (tag_of cfg old) ops h (tagged_final ops Ht) Hm) as [E _]. fold w in E. rewrite E, Ht.
  assert (tag_of cfg old ≠ "") as Hne by (unfold tag_of; by destruct (Weak cfg)).
  apply String.eqb_neq in Hne. rewrite Hne. cbn [negb andb].
  pose proof (if_none_match (tag_of cfg old) cfg (ops_body ops)) as Hi.
  assert (tag_of cfg old ≠ "*") as Hstar by (unfold tag_of; by destruct (Weak cfg)).
  rewrite split_byte_cut, tag_no_comma in Hi by apply tag_of_tag.
  assert (matchETag (tag_of cfg old) (tag_of cfg (ops_body ops)) = true ↔ hashFn cfg old = hashFn cfg (ops_body ops)) as Hiff.
  { rewrite Hi. split.
    - intros [?|(c & ->%list_elem_of_singleton & Ec)]; [done|]. rewrite trim_tag, strip_tag in Ec by apply tag_of_tag.
      assert (∀ s t, quote +:+ s = quote +:+ t → s = t) as Hq by (by intros ?? [= ?]).
      apply Hq in Ec. clear Hq. apply (hex_digits_inj 8); [apply Hh..|].
      assert (∀ n z z', hex_digits n z +:+ quote = hex_digits n z' +:+ quote → hex_digits n z = hex_digits n z') as Happ.
      { clear. induction n as [|n IH]; intros z z'; [done|]. cbn [hex_digits]. rewrite !string_app_cons. intros [= -> E%IH]. by rewrite E. }
      by apply Happ.
    - intros Eh. right. exists (tag_of cfg old). split; [by apply list_elem_of_singleton|].
      by rewrite trim_tag, strip_tag, Eh by apply tag_of_tag. }
  rewrite <-Hiff. destruct (matchETag _ _); [done|]. split; [|done]. unfold tagged in Ht. lia.
Qed.

(** * The default checksum *)

Lemma below_land n a : 0 ≤ n → 0 ≤ a < 2 ^ n ↔ Z.land a (Z.ones n) = a.
Proof.
  intros Hn. rewrite Z.land_ones by done. split; [intros; by apply Z.mod_small|].
  intros <-. by apply Z.mod_pos_bound, Z.pow_pos_nonneg.
Qed.
Lemma lxor_below n a b : 0 ≤ n → 0 ≤ a < 2 ^ n → 0 ≤ b < 2 ^ n → 0 ≤ Z.lxor a b < 2 ^ n.
Proof.
  intros Hn Ha%below_land Hb%below_land; [|done..]. apply below_land; [done|].
  rewrite <-Ha, <-Hb at 2. apply Z.bits_inj'. intros i _. rewrite !Z.land_spec, !Z.lxor_spec, !Z.land_spec.
  by destruct (Z.testbit a i), (Z.testbit b i), (Z.testbit (Z.ones n) i).
Qed.
Lemma crc_bit_below c : 0 ≤ c < 2 ^ 32 → 0 ≤ crc_bit c < 2 ^ 32.
Proof.
  intros Hc. unfold crc_bit. assert (0 ≤ Z.shiftr c 1 < 2 ^ 32) as Hs.
  { rewrite Z.shiftr_div_pow2 by lia. change (2 ^ 1) with 2. split; [apply Z.div_pos; lia|]. apply Z.div_lt_upper_bound; lia. }
  destruct (Z.testbit c 0); [|done]. apply lxor_below; lia.
Qed.
Lemma crc_byte_below c b : 0 ≤ c < 2 ^ 32 → 0 ≤ b < 256 → 0 ≤ crc_byte c b < 2 ^ 32.
Proof. intros Hc Hb. unfold crc_byte. repeat apply crc_bit_below. apply lxor_below; lia. Qed.

(** So the hypothesis of [revalidation] holds of the default. *)
Theorem checksum_32_bits s : 0 ≤ ChecksumIEEE s < 2 ^ 32.
Proof.
  unfold ChecksumIEEE. apply lxor_below; [lia| |lia].
  assert (Forall (λ b, 0 ≤ b < 256) (codes s)) as Hc.
  { induction s; constructor; [apply code_range|done]. }
  assert (0 ≤ 0xffffffff < 2 ^ 32) as H0 by lia. revert H0. generalize 0xffffffff. induction Hc as [|b l Hb _ IH]; intros z Hz; [done|].
  cbn [foldl]. by apply IH, crc_byte_below.
Qed.

(** [headerSent] is never set: a second WriteHeader replaces the status, and so does one after the body,
    where the server keeps the first. *)
Example last_status_wins :
  let ops := [OWriteHeader 404; OWrite "x"; OWriteHeader 200] in
  final_status (run_ops ops (new_RW ∅)) = 404 ∧
  final_status (stdlib DefaultConfig "GET" "" ops (new_RW ∅)) = 200.
Proof. vm_compute. done. Qed.

Example revalidation_hit :
  let ops := [OWrite "hello"] in
  let first := stdlib DefaultConfig "GET" "" ops (new_RW ∅) in
  let again := stdlib DefaultConfig "GET" (header_get "ETag" (final_header first)) ops (new_RW ∅) in
  header_get "ETag" (final_header first) = quote +:+ "3610a686" +:+ quote ∧ final_status again = 304 ∧ w_body again = "".
Proof. vm_compute. done. Qed.
