(* ===== verification/JsNumber.v ===== *)
(** Numbers of JavaScript: binary64 (Float64), with the conversions between numbers
    and text that the Redoc bundle relies on (Number::toString, Number(string),
    parseFloat, parseInt, toFixed, Math.round, the 32-bit operators), as the
    language's specification defines them. *)
From S2P Require Import Prelude GoStrings.
From S2P Require Import Float64.
From Stdlib Require Import SpecFloat.
Local Open Scope Z_scope.

(** * Values *)

(** The number nearest to [n / d], with the sign of [s]. *)
Definition f64_of_ratio (s : bool) (n d : positive) : float64 :=
  let '(mz, ez, lz) := SFdiv_core_binary 53 1024 (Zpos n) 0 (Zpos d) 0 in
  binary_round_aux 53 1024 s mz ez lz.

(** The number nearest to [m * 10 ^ e]. *)
Definition f64_of_decimal (s : bool) (m : Z) (e : Z) : float64 :=
  match m with
  | Zpos p =>
      if 0 <=? e then f64_of_ratio s (Z.to_pos (Zpos p * 10 ^ e)) 1
      else f64_of_ratio s p (Z.to_pos (10 ^ (- e)))
  | _ => S754_zero s
  end.

(** [m / 10 ^ k] as a numeric literal writes it: [.15] is [dec 15 2]. *)
Definition dec (m k : Z) : float64 := f64_of_decimal false m (- k).

Definition f64_nan : float64 := S754_nan.
Definition f64_neg (x : float64) : float64 := SFopp x.
Definition f64_eq (x y : float64) : bool := SFeqb x y.
Definition f64_is_nan (x : float64) : bool := match x with S754_nan => true | _ => false end.
Definition f64_is_zero (x : float64) : bool := match x with S754_zero _ => true | _ => false end.

(** The value of a finite number as numerator and denominator. *)
Definition f64_ratio (x : float64) : Z * positive :=
  match x with
  | S754_finite s m e =>
      let n := if 0 <=? e then Zpos m * 2 ^ e else Zpos m in
      (if s then - n else n, if 0 <=? e then 1%positive else Z.to_pos (2 ^ (- e)))
  | _ => (0, 1%positive)
  end.

(** [Math.max(x, y)], [Math.min(x, y)] on numbers other than the two zeros. *)
Definition js_max (x y : float64) : float64 :=
  if f64_is_nan x || f64_is_nan y then f64_nan else if f64_lt x y then y else x.
Definition js_min (x y : float64) : float64 :=
  if f64_is_nan x || f64_is_nan y then f64_nan else if f64_lt y x then y else x.

(** [Math.round(x)] as an integer: the nearest, the larger of two. *)
Definition js_round (x : float64) : Z :=
  let '(n, d) := f64_ratio x in (2 * n + Zpos d) / (2 * Zpos d).

(** [ToInt32]. *)
Definition to_int32 (z : Z) : Z := (z + 2 ^ 31) mod 2 ^ 32 - 2 ^ 31.
Definition to_uint32 (z : Z) : Z := z mod 2 ^ 32.

(** * Printing *)

(** The digits of a number in base 16 ([toString(16)]) and 10. *)
Definition digit_char (d : Z) : ascii := of_code (if d <? 10 then 48 + d else 87 + d).
Fixpoint digits (base : Z) (fuel : nat) (z : Z) (acc : string) : string :=
  match fuel with
  | O => acc
  | S fuel =>
      let acc := String (digit_char (z mod base)) acc in
      if z / base =? 0 then acc else digits base fuel (z / base) acc
  end.
Definition decimal (z : Z) : string := digits 10 (S (Z.to_nat (Z.log2 z))) z "".

(** Removes the factors of ten of a decimal [m * 10 ^ e]. *)
Fixpoint strip_zeros (fuel : nat) (m e : Z) : Z * Z :=
  match fuel with
  | O => (m, e)
  | S fuel => if (m mod 10 =? 0) && negb (m =? 0) then strip_zeros fuel (m / 10) (e + 1) else (m, e)
  end.

(** The shortest decimal that denotes the positive number [x = n / d], searched from one
    digit on; [p] is the exponent of the last digit. *)
Definition candidate (x : float64) (n : Z) (d : positive) (p : Z) : option (Z * Z) :=
  let '(a, b) := if 0 <=? p then (n, Zpos d * 10 ^ p) else (n * 10 ^ (- p), Zpos d) in
  let lo := a / b in
  let ok m := bool_decide (0 < m) && f64_eq (f64_of_decimal false m p) x in
  let near_lo := 2 * (a - lo * b) <=? b in
  let '(c1, c2) := if near_lo then (lo, lo + 1) else (lo + 1, lo) in
  if ok c1 then Some (c1, p) else if ok c2 then Some (c2, p) else None.
Fixpoint shortest (fuel : nat) (x : float64) (n : Z) (d : positive) (p : Z) : option (Z * Z) :=
  match candidate x n d p with
  | Some r => Some r
  | None => match fuel with O => None | S fuel => shortest fuel x n d (p - 1) end
  end.

(** A [q] with [n / d < 10 ^ (q + 1)]: where the search starts. *)
Definition magnitude (n : Z) (d : positive) : Z := (Z.log2 n - Z.log2 (Zpos d) + 1) * 30103 / 100000 + 1.

Definition zeros (n : Z) : string := String.concat "" (replicate (Z.to_nat n) "0").

(** Number::toString for the decimal [m * 10 ^ e] without trailing zeros. *)
Definition show_decimal (m e : Z) : string :=
  let ds := decimal m in
  let k := Z.of_nat (String.length ds) in
  let n := k + e in
  if (k <=? n) && (n <=? 21) then ds +:+ zeros (n - k)
  else if (0 <? n) && (n <=? 21) then take_bytes (Z.to_nat n) ds +:+ "." +:+ drop_bytes (Z.to_nat n) ds
  else if (-6 <? n) && (n <=? 0) then "0." +:+ zeros (- n) +:+ ds
  else
    let ex := (if 0 <=? n - 1 then "e+" else "e-") +:+ decimal (Z.abs (n - 1)) in
    if k =? 1 then ds +:+ ex else take_bytes 1 ds +:+ "." +:+ drop_bytes 1 ds +:+ ex.

(** Number::toString(x). Seventeen digits determine a binary64 number; the search is
    given twenty. *)
Definition number_to_string (x : float64) : string :=
  match x with
  | S754_nan => "NaN"
  | S754_zero _ => "0"
  | S754_infinity s => if s then "-Infinity" else "Infinity"
  | S754_finite s m e =>
      let '(n, d) := f64_ratio (S754_finite false m e) in
      let '(m, e) := default (n, 0) (shortest 20 (S754_finite false m e) n d (magnitude n d)) in
      let '(m, e) := strip_zeros 400 m e in
      (if s then "-" else "") +:+ show_decimal m e
  end.

(** [x.toFixed(f)]: the integer nearest to [x * 10 ^ f], the larger of two, with its
    point; numbers that are not finite, or [10 ^ 21] and more, as [toString] has them. *)
Definition to_fixed (f : Z) (x : float64) : string :=
  let '(n, d) := f64_ratio x in
  match x with
  | S754_nan | S754_infinity _ => number_to_string x
  | _ =>
      if Zpos d * 10 ^ 21 <=? Z.abs n then number_to_string x
      else
        let q := (2 * Z.abs n * 10 ^ f + Zpos d) / (2 * Zpos d) in
        let ds := decimal q in
        let ds := zeros (f + 1 - Z.of_nat (String.length ds)) +:+ ds in
        let cut := (String.length ds - Z.to_nat f)%nat in
        let s := take_bytes cut ds in
        (if n <? 0 then "-" else "") +:+
        (if f =? 0 then s else s +:+ "." +:+ drop_bytes cut ds)
  end.

(** * Reading *)

(** The leading decimal digits of a text: their value, their number, the rest. *)
Fixpoint read_digits (s : string) (acc : Z) (n : nat) : Z * nat * string :=
  match s with
  | String c s' => if is_digit c then read_digits s' (10 * acc + (code c - 48)) (S n) else (acc, n, s)
  | EmptyString => (acc, n, s)
  end.

(** White space of the language's grammar that is one byte long. *)
Definition is_js_space (c : ascii) : bool :=
  existsb (Z.eqb (code c)) [9; 10; 11; 12; 13; 32].
Fixpoint skip_spaces (s : string) : string :=
  match s with
  | String c s' => if is_js_space c then skip_spaces s' else s
  | EmptyString => s
  end.

(** [s.trim()] is [trim_spaces_right (skip_spaces s)]. *)
Fixpoint trim_spaces_right (s : string) : string :=
  match s with
  | String c s' =>
      match trim_spaces_right s' with
      | EmptyString => if is_js_space c then "" else String c ""
      | r => String c r
      end
  | EmptyString => ""
  end.

Definition read_sign (s : string) : bool * string :=
  match s with
  | String "-" s' => (true, s')
  | String "+" s' => (false, s')
  | _ => (false, s)
  end.

(** An exponent part, if there is one: its value and the rest. *)
Definition read_exponent (s : string) : Z * string :=
  match s with
  | String c s' =>
      if (code c =? 101) || (code c =? 69) then
        let '(neg, s1) := read_sign s' in
        let '(v, n, s2) := read_digits s1 0 0 in
        if (n =? 0)%nat then (0, s) else (if (neg : bool) then - v else v, s2)
      else (0, s)
  | EmptyString => (0, s)
  end.

(** The longest prefix that is a decimal literal: its value and the rest. *)
Definition read_decimal (s0 : string) : option (float64 * string) :=
  let '(neg, s) := read_sign s0 in
  if has_prefix s "Infinity" then Some (S754_infinity neg, drop_bytes 8 s)
  else
    let '(v, n, s1) := read_digits s 0 0 in
    let '(v, n, k, s2) :=
      match s1 with
      | String "." s1' =>
          let '(v', n', s2) := read_digits s1' v n in
          (v', n', Z.of_nat (n' - n), s2)
      | _ => (v, n, 0, s1)
      end in
    if (n =? 0)%nat then None
    else let '(e, s3) := read_exponent s2 in Some (f64_of_decimal neg v (e - k), s3).

Definition parseFloat (s : string) : float64 :=
  match read_decimal (skip_spaces s) with Some (x, _) => x | None => f64_nan end.

(** [parseInt(s, 10)]. *)
Definition parseInt (s : string) : float64 :=
  let '(neg, s) := read_sign (skip_spaces s) in
  let '(v, n, _) := read_digits s 0 0 in
  if (n =? 0)%nat then f64_nan else f64_of_decimal neg v 0.

(** The digits of a text in a base, which must be all of it. *)
Fixpoint read_radix (base : Z) (s : string) (acc : Z) : option Z :=
  match s with
  | EmptyString => Some acc
  | String c s' =>
      match unhex c with
      | Some d => if d <? base then read_radix base s' (base * acc + d) else None
      | None => None
      end
  end.

(** [Number(s)]. *)
Definition string_to_number (s : string) : float64 :=
  let s := skip_spaces s in
  if String.eqb s "" then f64_zero
  else
    let radix base :=
      let rest := trim_spaces_right (drop_bytes 2 s) in
      match rest, read_radix base rest 0 with
      | String _ _, Some v => f64_of_decimal false v 0
      | _, _ => f64_nan
      end in
    let tag := string_map to_lower_byte (take_bytes 2 s) in
    if String.eqb tag "0x" then radix 16
    else if String.eqb tag "0o" then radix 8
    else if String.eqb tag "0b" then radix 2
    else
      match read_decimal s with
      | Some (x, rest) => if String.eqb (skip_spaces rest) "" then x else f64_nan
      | None => f64_nan
      end.

(** * The characters of a printed number *)

Lemma string_all_take P n s : string_all P s = true → string_all P (take_bytes n s) = true.
Proof.
  revert n. induction s as [|a s IH]; intros [|n] H; simpl in *; try done.
  apply andb_true_iff in H as [-> H]. by apply IH.
Qed.
Lemma string_all_drop P n s : string_all P s = true → string_all P (drop_bytes n s) = true.
Proof.
  revert n. induction s as [|a s IH]; intros [|n] H; simpl in *; try done.
  apply andb_true_iff in H as [_ H]. by apply IH.
Qed.

Lemma string_app_nonempty s t : s ≠ "" ∨ t ≠ "" → s +:+ t ≠ "".
Proof. destruct s; [by intros [?|?]|done]. Qed.

Lemma digits_nonempty base fuel z acc : digits base (S fuel) z acc ≠ "".
Proof.
  cbn [digits]. case_match; [done|]. set (a := String _ acc). assert (a ≠ "") as Ha by done.
  clearbody a. generalize (z / base). clear -Ha. revert a Ha.
  induction fuel as [|fuel IH]; intros a Ha z; [done|]. cbn [digits].
  case_match; [done|]. by apply IH.
Qed.

Lemma show_decimal_nonempty m e : show_decimal m e ≠ "".
Proof.
  unfold show_decimal. pose proof (digits_nonempty 10 (Z.to_nat (Z.log2 m)) m "") as H. fold (decimal m) in H.
  repeat case_match; apply string_app_nonempty; auto.
Qed.

Lemma number_to_string_nonempty x : number_to_string x ≠ "".
Proof.
  destruct x as [| [] | |s m e]; try done. unfold number_to_string.
  destruct (f64_ratio _) as [n d]. destruct (default _ _) as [m' e']. destruct (strip_zeros _ _ _) as [m'' e''].
  apply string_app_nonempty. right. apply show_decimal_nonempty.
Qed.

(** Every character of a printed number satisfies what digits, letters, a point and
    signs satisfy. *)
Section characters.
Variable P : ascii → bool.
Hypothesis P_digit : ∀ d, (0 ≤ d < 16)%Z → P (digit_char d) = true.
Hypothesis P_text : string_all P "NaN-Infinity.0e+" = true.

Lemma digits_all base fuel z acc :
  (0 < base ≤ 16)%Z → string_all P acc = true → string_all P (digits base fuel z acc) = true.
Proof.
  intros Hb. revert z acc. induction fuel as [|fuel IH]; intros z acc Ha; [done|]. cbn [digits].
  assert (string_all P (String (digit_char (z mod base)) acc) = true) as H.
  { cbn [string_all]. rewrite Ha, P_digit; [done|]. pose proof (Z.mod_pos_bound z base). lia. }
  case_match; auto.
Qed.

Lemma decimal_all z : string_all P (decimal z) = true.
Proof. by apply digits_all. Qed.

Lemma zeros_all n : string_all P (zeros n) = true.
Proof.
  unfold zeros. assert (P "0" = true) as H0 by (apply (P_digit 0); lia).
  induction (Z.to_nat n) as [|[|k] IH]; [done|by simpl; rewrite H0|].
  change (string_all P ("0" +:+ String.concat "" (replicate (S k) "0")) = true).
  rewrite string_all_app, IH. simpl. by rewrite H0.
Qed.

Lemma number_to_string_all x : string_all P (number_to_string x) = true.
Proof.
  cbn in P_text. rewrite !andb_true_iff in P_text. destruct_and? P_text.
  assert (∀ m e, string_all P (show_decimal m e) = true) as Hs.
  { intros m e. pose proof (decimal_all m) as Hd. pose proof (decimal_all (Z.abs (Z.of_nat (String.length (decimal m)) + e - 1))).
    unfold show_decimal. repeat case_match; rewrite ?string_all_app;
      rewrite ?string_all_take, ?string_all_drop, ?zeros_all, ?Hd by done; cbn;
      repeat match goal with H : P _ = true |- _ => rewrite H end; try done.
    all: match goal with H : string_all P ?t = true |- _ => by rewrite H end. }
  destruct x as [| [] | |s m e]; [cbn..|unfold number_to_string];
    repeat match goal with H : P _ = true |- _ => rewrite H end; try done.
  destruct (f64_ratio _) as [n d]. destruct (default _ _) as [m' e']. destruct (strip_zeros _ _ _) as [m'' e''].
  rewrite string_all_app, Hs. destruct s; cbn; repeat match goal with H : P _ = true |- _ => rewrite H end; done.
Qed.
End characters.

(** * Examples *)

Example print_40 : number_to_string (f64_of_int 40) = "40".
Proof. reflexivity. Qed.
Example print_third : number_to_string (f64_of_ratio false 1 3) = "0.3333333333333333".
Proof. vm_compute. reflexivity. Qed.
Example print_sum : number_to_string (f64_add (dec 1 1) (dec 2 1)) = "0.30000000000000004".
Proof. vm_compute. reflexivity. Qed.
Example print_big : number_to_string (f64_of_decimal false 123 21) = "1.23e+23".
Proof. vm_compute. reflexivity. Qed.
Example print_tiny : number_to_string (f64_of_decimal true 5 (-324)) = "-5e-324".
Proof. vm_compute. reflexivity. Qed.
Example print_round : number_to_string (f64_of_decimal false 1 21) = "1e+21" ∧ number_to_string (f64_of_int 1000) = "1000".
Proof. vm_compute. repeat split. Qed.
Example fixed : to_fixed 2 (dec 1005 3) = "1.00" ∧ to_fixed 2 (dec 4 1) = "0.40".
Proof. vm_compute. repeat split. Qed.
Example read : parseFloat "  -1.5e2px" = f64_of_int (-150) ∧ parseInt "40%" = f64_of_int 40 ∧
  string_to_number " 0x1F " = f64_of_int 31 ∧ string_to_number "4px" = f64_nan.
Proof. vm_compute. repeat split. Qed.
