(* ===== verification/JsValue.v ===== *)
(** JavaScript data values (component properties, the theme) and the operators that the
    interpolations of the Redoc style sheets apply to them. An operation that
    throws is [None]. *)
From S2P Require Import Prelude GoStrings.
From S2P Require Import Float64 JsNumber.
Local Open Scope Z_scope.

Inductive value : Type :=
  | Undef
  | Null
  | Bool (b : bool)
  | Num (x : float64)
  | Str (s : string)
  | Arr (l : list value)
  | Obj (fields : list (string * value)).

Definition int (z : Z) : value := Num (f64_of_int z).

Definition is_undef (v : value) : bool := match v with Undef => true | _ => false end.
Definition is_nullish (v : value) : bool := match v with Undef | Null => true | _ => false end.

(** [!!v]. *)
Definition truthy (v : value) : bool :=
  match v with
  | Undef | Null => false
  | Bool b => b
  | Num x => negb (f64_is_nan x || f64_is_zero x)
  | Str s => negb (String.eqb s "")
  | Arr _ | Obj _ => true
  end.

(** [String(v)]. *)
Fixpoint to_string (v : value) : string :=
  match v with
  | Undef => "undefined"
  | Null => "null"
  | Bool b => if b then "true" else "false"
  | Num x => number_to_string x
  | Str s => s
  | Arr l => join "," (map (λ u, if is_nullish u then "" else to_string u) l)
  | Obj _ => "[object Object]"
  end.

(** [Number(v)]. *)
Definition to_number (v : value) : float64 :=
  match v with
  | Undef => f64_nan
  | Null => f64_zero
  | Bool b => f64_of_int (if b then 1 else 0)
  | Num x => x
  | Str s => string_to_number s
  | Arr _ | Obj _ => string_to_number (to_string v)
  end.

(** An own property of an object. *)
Fixpoint field (k : string) (l : list (string * value)) : option value :=
  match l with
  | [] => None
  | (k', v) :: l' => if String.eqb k k' then Some v else field k l'
  end.

(** [v[k]]: a missing property is undefined, and reading from undefined or null throws.
    Inherited properties are not modelled. *)
Definition get (v : value) (k : string) : option value :=
  match v with
  | Undef | Null => None
  | Obj l => Some (default Undef (field k l))
  | Arr l => Some (default Undef (field k (imap (λ i u, (decimal (Z.of_nat i), u)) l)))
  | Str _ | Bool _ | Num _ => Some Undef
  end.

(** [{...v, [k]: u}], which keeps the place of a key. *)
Fixpoint set_field (k : string) (u : value) (l : list (string * value)) : list (string * value) :=
  match l with
  | [] => [(k, u)]
  | (k', v) :: l' => if String.eqb k k' then (k', u) :: l' else (k', v) :: set_field k u l'
  end.

(** * Induction on values, through arrays and objects *)
Section value_induction.
Variable P : value → Prop.
Hypothesis Hprim : ∀ v, (∀ l, v ≠ Arr l) → (∀ l, v ≠ Obj l) → P v.
Hypothesis HArr : ∀ l, Forall P l → P (Arr l).
Hypothesis HObj : ∀ l, Forall (λ kv, P kv.2) l → P (Obj l).

Fixpoint value_nested_ind (v : value) : P v.
Proof.
  refine (match v with
  | Arr l =>
      HArr l ((fix go l : Forall P l :=
        match l with
        | [] => Forall_nil_2 P
        | x :: l' => Forall_cons_2 P x l' (value_nested_ind x) (go l')
        end) l)
  | Obj l =>
      HObj l ((fix go l : Forall (λ kv, P kv.2) l :=
        match l with
        | [] => Forall_nil_2 _
        | (k, x) :: l' => Forall_cons_2 _ (k, x) l' (value_nested_ind x) (go l')
        end) l)
  | _ => Hprim _ _ _
  end); done.
Qed.
End value_induction.

(** * Expressions

    An expression that may throw is an [option value]; operands are evaluated from
    left to right, and only those that JavaScript evaluates. *)
Definition expr : Type := option value.
Definition lit (s : string) : expr := Some (Str s).
Definition num (z : Z) : expr := Some (int z).
Definition undefined : expr := Some Undef.

Definition member (e : expr) (k : string) : expr := v ← e; get v k.
Definition index (e k : expr) : expr := v ← e; i ← k; get v (to_string i).
Definition and_ (a b : expr) : expr := v ← a; if truthy v then b else Some v.
Definition or_ (a b : expr) : expr := v ← a; if truthy v then Some v else b.
Definition not_ (a : expr) : expr := v ← a; Some (Bool (negb (truthy v))).
Definition mul (a b : expr) : expr := v ← a; w ← b; Some (Num (f64_mul (to_number v) (to_number w))).
Definition div (a b : expr) : expr := v ← a; w ← b; Some (Num (f64_div (to_number v) (to_number w))).

(** [cond ? a : b], also where [a] and [b] are not data. *)
Definition ite {A} (cond : expr) (a b : option A) : option A :=
  v ← cond; if truthy v then a else b.

(** [a === b] on primitive values (objects are compared by identity, which the model
    does not have). *)
Definition strict_eq (v w : value) : bool :=
  match v, w with
  | Undef, Undef | Null, Null => true
  | Bool a, Bool b => Bool.eqb a b
  | Num x, Num y => f64_eq x y
  | Str s, Str t => String.eqb s t
  | _, _ => false
  end.
Definition eq_ (a b : expr) : expr := v ← a; w ← b; Some (Bool (strict_eq v w)).

(** [a < b]: numerically, unless both are texts. *)
Definition lt_ (a b : expr) : expr :=
  v ← a; w ← b;
  Some (Bool (match v, w with
              | Str s, Str t => match String.compare s t with Lt => true | _ => false end
              | _, _ => f64_lt (to_number v) (to_number w)
              end)).
Definition gt_ (a b : expr) : expr := v ← a; w ← b; lt_ (Some w) (Some v).

(** [a + b] on primitive values. *)
Definition add (a b : expr) : expr :=
  v ← a; w ← b;
  Some (match v, w with
        | Str _, _ | _, Str _ | Arr _, _ | _, Arr _ | Obj _, _ | _, Obj _ =>
            Str (to_string v +:+ to_string w)
        | _, _ => Num (f64_add (to_number v) (to_number w))
        end).

(** A parameter with a default: [e = d]. *)
Definition or_undefined (e : expr) (d : expr) : expr :=
  v ← e; if is_undef v then d else Some v.

(** An untagged template literal: texts and the values between them. *)
Fixpoint template (s : string) (l : list (expr * string)) : expr :=
  match l with
  | [] => lit s
  | (e, t) :: l' =>
      v ← e; r ← template t l';
      Some (Str (s +:+ to_string v +:+ to_string r))
  end.

(** [s.endsWith(t)], [list.includes(v)], [parseInt(v, 10)]. *)
Definition endsWith (e : expr) (t : string) : expr :=
  v ← e; match v with Str s => Some (Bool (has_suffix s t)) | _ => None end.
Definition includes (l : list value) (e : expr) : expr :=
  v ← e; Some (Bool (existsb (λ w, strict_eq w v) l)).
Definition parse_int (e : expr) : expr := v ← e; Some (Num (parseInt (to_string v))).

Declare Scope js_scope.
Delimit Scope js_scope with js.
Infix "~>" := member (at level 11, left associativity) : js_scope.
Notation "'λ:' x , e" := (fun x : value => let x : expr := Some x in e)
  (at level 200, x name, e at level 200, only parsing) : js_scope.
Notation "'let:' x := e 'in' b" := (mbind (M := option) (fun x : value => let x : expr := Some x in b) e)
  (at level 200, x name, e at level 100, b at level 200, only parsing) : js_scope.

(** A double quote, in texts that have one. *)
Definition dquote : string := String (of_code 34) "".
