(* ===== verification/StyledComponents.v ===== *)
(** styled-components, as the Redoc bundle contains it: the interpolations of a style
    sheet, their flattening ([Wo] in the bundle), the [css] and [keyframes] tags, the
    names of generated classes, and the sequence of rules a component's style produces
    for the properties it is rendered with. *)
From S2P Require Import Prelude GoStrings.
From S2P Require Import Float64 JsNumber JsValue.
Local Open Scope Z_scope.

(** * Interpolations *)

(** The execution context of a style: the properties of the component with the theme
    among them, and the hook that the theme may carry ([theme.extensionsHook], a function
    of the page that embeds Redoc; it answers with data). *)
Record ctx : Type := Ctx {
  c_props : value;
  c_hook : option (string → value → expr)
}.

(** What a style sheet interpolates: data, an array (of interpolations), a function of
    the execution context, a styled component (by its class) or keyframes (by name). *)
Inductive rule : Type :=
  | V (v : value)
  | Rules (l : list rule)
  | Fn (f : ctx → option rule)
  | Sel (styledComponentId : string)
  | Key (name : string).

(** A function that computes data from the properties. *)
Definition dyn (f : value → expr) : rule := Fn (λ c, V <$> f (c_props c)).
(** A function that computes an interpolation from the properties. *)
Definition dynr (f : value → option rule) : rule := Fn (λ c, f (c_props c)).
Definition ret (r : rule) : option rule := Some r.
Definition data (e : expr) : option rule := V <$> e.
(** [a && r] where [r] is not data. *)
Definition andr (a : expr) (r : option rule) : option rule := v ← a; if truthy v then r else Some (V v).

(** [Vo]: what is left out of a style sheet. *)
Definition Vo (v : value) : bool :=
  match v with
  | Undef | Null | Bool false => true
  | Str s => String.eqb s ""
  | _ => false
  end.

(** * Objects as declarations *)

(** [qo]: a property name in CSS. *)
Fixpoint hyphens (s : string) : string :=
  match s with
  | EmptyString => ""
  | String a s' => if is_upper a then String "-" (String (to_lower_byte a) (hyphens s')) else String a (hyphens s')
  end.
Definition qo (s : string) : string :=
  if string_all (λ a, negb (is_upper a)) s then s
  else let t := hyphens s in if has_prefix t "ms-" then "-ms-" +:+ drop_bytes 3 t else t.

(** Numeric properties without a unit. *)
Definition unitless : list string :=
  [
    "animationIterationCount"; "borderImageOutset"; "borderImageSlice"; "borderImageWidth";
    "boxFlex"; "boxFlexGroup"; "boxOrdinalGroup"; "columnCount"; "columns"; "flex"; "flexGrow";
    "flexPositive"; "flexShrink"; "flexNegative"; "flexOrder"; "gridRow"; "gridRowEnd";
    "gridRowSpan"; "gridRowStart"; "gridColumn"; "gridColumnEnd"; "gridColumnSpan";
    "gridColumnStart"; "msGridRow"; "msGridRowSpan"; "msGridColumn"; "msGridColumnSpan";
    "fontWeight"; "lineHeight"; "opacity"; "order"; "orphans"; "tabSize"; "widows"; "zIndex";
    "zoom"; "WebkitLineClamp"; "fillOpacity"; "floodOpacity"; "stopOpacity"; "strokeDasharray";
    "strokeDashoffset"; "strokeMiterlimit"; "strokeOpacity"; "strokeWidth"
  ]%string.

(** The value of a declaration. *)
Definition declared (k : string) (v : value) : string :=
  match v with
  | Undef | Null | Bool _ => ""
  | Num x =>
      if f64_is_zero x || existsb (String.eqb k) unitless || has_prefix k "--"
      then number_to_string x else number_to_string x +:+ "px"
  | _ => trim_spaces_right (skip_spaces (to_string v))
  end.

(** The chunks of an object's declarations; a nested object is a nested block. *)
Fixpoint objToCss (name : option string) (v : value) : list string :=
  match v with
  | Obj l =>
      let body := List.concat (map (λ '(k, u),
        if Vo u then []
        else match u with
             | Obj _ => objToCss (Some k) u
             | _ => [qo k +:+ ": " +:+ declared k u +:+ ";"]
             end) l) in
      match name with
      | Some n => if String.eqb n "" then body else (n +:+ " {") :: body ++ ["}"]
      | None => body
      end
  | _ => []
  end.

(** * Flattening *)

(** An element of a flattened array: an empty text is dropped and an array spliced. *)
Definition splice (r : rule) : list rule :=
  match r with
  | V (Str s) => if String.eqb s "" then [] else [r]
  | Rules l => l
  | _ => [r]
  end.

Fixpoint Wo_data (v : value) : rule :=
  match v with
  | Arr l => Rules (List.concat (map (λ u, splice (Wo_data u)) l))
  | _ =>
      if Vo v then V (Str "")
      else match v with
           | Obj _ => Rules (map (λ s, V (Str s)) (objToCss None v))
           | _ => V (Str (to_string v))
           end
  end.

(** [Wo(e, t)]: without a context, functions and keyframes stay; with one, functions are
    called, and keyframes stand for their name. *)
Fixpoint Wo (t : option ctx) (e : rule) : option rule :=
  match e with
  | V v => Some (Wo_data v)
  | Rules l =>
      (fix go (l : list rule) (acc : list rule) : option rule :=
         match l with
         | [] => Some (Rules acc)
         | x :: l' => r ← Wo t x; go l' (acc ++ splice r)
         end) l []
  | Sel id => Some (V (Str ("." +:+ id)))
  | Fn f =>
      match t with
      | Some c => r ← f c; Wo t r
      | None => Some e
      end
  | Key name => match t with Some _ => Some (V (Str name)) | None => Some e end
  end.

(** [Bi]: the texts of a template and the values between them, interleaved. *)
Definition Bi (s : string) (l : list (rule * string)) : list rule :=
  V (Str s) :: List.concat (map (λ '(h, t), [h; V (Str t)]) l).

(** The tag [css] ([Yo]) on a template: the array of its flattened rules; a template
    without interpolations stays as it is. *)
Definition css (s : string) (l : list (rule * string)) : rule :=
  match l with
  | [] => Rules [V (Str s)]
  | _ => match Wo None (Rules (Bi s l)) with Some r => r | None => Rules [] end
  end.

(** The text of flattened rules: [rules.join("")]. *)
Fixpoint joined (r : rule) : string :=
  match r with
  | V v => to_string v
  | Rules l => String.concat "" (map joined l)
  | Fn _ => ""
  | Sel id => "." +:+ id
  | Key name => name
  end.

(** [isFunction(e) && !isStyledComponent(e)]. *)
Definition is_fn (r : rule) : bool := match r with Fn _ => true | _ => false end.
Definition elements (r : rule) : list rule := match r with Rules l => l | _ => [r] end.

(** [Eo]: no rule depends on the properties. *)
Definition Eo (r : rule) : bool := forallb (λ x, negb (is_fn x)) (elements r).

(** * Names of classes *)

(** [So]: the hash of a text, its characters taken from the last on. *)
Fixpoint So (e : Z) (s : string) : Z :=
  match s with
  | EmptyString => e
  | String a s' => to_int32 (Z.lxor (33 * So e s') (code a))
  end.
Definition Oo (s : string) : Z := So 5381 s.

(** [wo], [ko]: the letters of a hash. *)
Definition wo (e : Z) : ascii := of_code (e + (if 25 <? e then 39 else 97)).
Fixpoint letters (fuel : nat) (t : Z) (acc : string) : string :=
  match fuel with
  | O => acc
  | S fuel =>
      let acc := String (wo (t mod 52)) acc in
      if 52 <? t then letters fuel (t / 52) acc else acc
  end.

(** [replace(/(a)(d)/gi, "$1-$2")]: no class reads "ad". *)
Fixpoint break_ad (s : string) : string :=
  match s with
  | EmptyString => ""
  | String a t =>
      match t with
      | EmptyString => s
      | String b t' =>
          if (code (to_lower_byte a) =? 97) && (code (to_lower_byte b) =? 100)
          then String a (String "-" (String b (break_ad t')))
          else String a (break_ad t)
      end
  end.
Definition ko (e : Z) : string :=
  let t := Z.abs e in break_ad (letters (S (Z.to_nat (Z.log2 t))) t "").
Definition Zo (s : string) : string := ko (to_uint32 (Oo s)).

(** [da], the tag [keyframes]: named by the hash of the rules. *)
Definition keyframes_rules (s : string) (l : list (rule * string)) : string := joined (css s l).
Definition keyframes (s : string) (l : list (rule * string)) : rule := Key (Zo (keyframes_rules s l)).

(** * The style of a component *)

(** [Ao]: the rules of a component, after those of the component it extends. *)
Inductive ComponentStyle : Type :=
  | CStyle (componentId : string) (baseStyle : option ComponentStyle) (rules : rule).

Fixpoint isStatic (cs : ComponentStyle) : bool :=
  match cs with
  | CStyle _ base rules => match base with Some b => isStatic b | None => true end && Eo rules
  end.

(** The rules in a dynamic style, one after the other. *)
Fixpoint dynamic_css (c : ctx) (rules : list rule) : option string :=
  match rules with
  | [] => Some ""
  | d :: rules' =>
      s ← (match d with
           | V (Str s) => Some s
           | V v => if truthy v then joined <$> Wo (Some c) d else Some ""
           | _ => joined <$> Wo (Some c) d
           end);
      u ← dynamic_css c rules'; Some (s +:+ u)
  end.

(** The texts that [generateAndInjectStyles] hands to the style sheet, with the component
    each belongs to: the extended component's first. *)
Fixpoint generate (cs : ComponentStyle) (c : ctx) : option (list (string * string)) :=
  match cs with
  | CStyle id base rules =>
      before ← (match base with Some b => generate b c | None => Some [] end);
      s ← (if isStatic cs then joined <$> Wo (Some c) rules else dynamic_css c (elements rules));
      Some (before ++ [(id, s)])
  end.

(** The classes of a rendering, the extended component's first: a static style is named by its whole text, a dynamic one by
    the parts that the properties determine and their positions. *)
Fixpoint dynamic_hash (c : ctx) (rules : list rule) (p : Z) (h : Z) : option Z :=
  match rules with
  | [] => Some h
  | d :: rules' =>
      h ← (match d with
           | V (Str _) => Some h
           | V v => if truthy v then f ← Wo (Some c) d; Some (So h (joined f +:+ decimal p)) else Some h
           | _ => f ← Wo (Some c) d; Some (So h (joined f +:+ decimal p))
           end);
      dynamic_hash c rules' (p + 1) h
  end.
Definition version : string := "5.3.11".
Fixpoint class_names (cs : ComponentStyle) (c : ctx) : option (list string) :=
  match cs with
  | CStyle id base rules =>
      let baseHash := So (Oo version) id in
      before ← (match base with Some b => class_names b c | None => Some [] end);
      if isStatic cs then
        s ← Wo (Some c) rules;
        Some (before ++ [ko (to_uint32 (So baseHash (joined s)))])
      else
        u ← dynamic_css c (elements rules);
        h ← dynamic_hash c (elements rules) 0 baseHash;
        Some (before ++ (if String.eqb u "" then [] else [ko (to_uint32 h)]))
  end.

(** * Components *)

(** An element of [attrs]: properties, or a function of the execution context. *)
Definition attr : Type := ctx → option (list (string * value)).

(** A styled component: what it renders, its attributes and its style. *)
Record Styled : Type := {
  target : string;
  attrs : list attr;
  componentStyle : ComponentStyle;
  styledComponentId : string
}.

(** Identifiers of components, numbered in the order in which they are created. *)
Definition generated_id (n : Z) : string := "sc-" +:+ Zo (version +:+ "sc" +:+ decimal n).

(** The identifier of each component of the bundle, by the name it is bound to. *)
Class ComponentIds := component_id : string → string.

Section constructors.
Context `{ids : ComponentIds}.

(** [styled.tag.attrs(a)`rules`] and [styled(base).attrs(a)`rules`] ([sa]). *)
Definition styled_attrs (name tag : string) (a : list attr) (rules : rule) : Styled := {|
  target := tag;
  attrs := a;
  componentStyle := CStyle (component_id name) None rules;
  styledComponentId := component_id name
|}.
Definition styled (name tag : string) (rules : rule) : Styled := styled_attrs name tag [] rules.
Definition extend_attrs (name : string) (base : Styled) (a : list attr) (rules : rule) : Styled := {|
  target := target base;
  attrs := attrs base ++ a;
  componentStyle := CStyle (component_id name) (Some (componentStyle base)) rules;
  styledComponentId := component_id name
|}.
Definition extend (name : string) (base : Styled) (rules : rule) : Styled := extend_attrs name base [] rules.
End constructors.

(** A component as an interpolation. *)
Definition sel (c : Styled) : rule := Sel (styledComponentId c).

(** The theme of a rendering ([Go]): the property, if it is set, before the provider's. *)
Definition theme_of (props provided : value) : expr :=
  t ← get props "theme"; Some (if truthy t then t else if truthy provided then provided else Obj []).

(** One property that an attribute sets; class names add up. *)
Definition apply_attr (k : string) (v : value) (r i : list (string * value)) :
    list (string * value) * list (string * value) :=
  let u :=
    if String.eqb k "className" then
      let n := default Undef (field k i) in
      if truthy n then (if truthy v then Str (to_string n +:+ " " +:+ to_string v) else n)
      else v
    else v in
  (set_field k u r, set_field k u i).

(** The execution context of a rendering and the attributes it adds to the element. *)
Fixpoint apply_attrs (l : list attr) (hook : option (string → value → expr))
    (r i : list (string * value)) : option (list (string * value) * list (string * value)) :=
  match l with
  | [] => Some (r, i)
  | a :: l' =>
      kvs ← a (Ctx (Obj r) hook);
      let '(r, i) := fold_left (λ '(r, i) '(k, v), apply_attr k v r i) kvs (r, i) in
      apply_attrs l' hook r i
  end.
Definition execution_context (sc : Styled) (props : list (string * value)) (theme : value)
    (hook : option (string → value → expr)) : option (ctx * list (string * value)) :=
  '(r, i) ← apply_attrs (attrs sc) hook (set_field "theme" theme props) [];
  Some (Ctx (Obj r) hook, i).

(** The style texts of a rendering. *)
Definition render (sc : Styled) (props : list (string * value)) (provided : value)
    (hook : option (string → value → expr)) : option (list (string * string)) :=
  theme ← theme_of (Obj props) provided;
  '(c, _) ← execution_context sc props theme hook;
  generate (componentStyle sc) c.

