(* ===== verification/StyledLaws.v ===== *)
(** Laws of styled-components: the text of a style sheet, defined by recursion on its
    interpolations, and that flattening, in one step or in two, along the static or
    the dynamic path of a component's style, computes that text. *)
From S2P Require Import Prelude GoStrings.
From S2P Require Import Float64 JsNumber JsValue StyledComponents.

(** * The text of a style sheet *)

(** What a rule contributes in a context; [None] when one of its functions throws. *)
Fixpoint text (c : ctx) (e : rule) : option string :=
  match e with
  | V v => Some (joined (Wo_data v))
  | Rules l =>
      (fix go (l : list rule) : option string :=
         match l with
         | [] => Some ""
         | x :: l' => s ← text c x; t ← go l'; Some (s +:+ t)
         end) l
  | Fn f => r ← f c; text c r
  | Sel id => Some ("." +:+ id)
  | Key name => Some name
  end.

(** The texts of a template between and around its interpolations. *)
Fixpoint text_holes (c : ctx) (l : list (rule * string)) : option string :=
  match l with
  | [] => Some ""
  | (h, t) :: l' => s ← text c h; u ← text_holes c l'; Some (s +:+ (t +:+ u))
  end.

Fixpoint texts (c : ctx) (l : list rule) : option string :=
  match l with
  | [] => Some ""
  | x :: l' => s ← text c x; t ← texts c l'; Some (s +:+ t)
  end.

Lemma text_Rules c l : text c (Rules l) = texts c l.
Proof. simpl. induction l as [|x l IH]; simpl; [done|]. by rewrite IH. Qed.

Lemma texts_app c l1 l2 : texts c (l1 ++ l2) = s ← texts c l1; t ← texts c l2; Some (s +:+ t).
Proof.
  induction l1 as [|x l1 IH]; simpl; [by destruct (texts c l2)|].
  destruct (text c x); simpl; [|done]. rewrite IH.
  destruct (texts c l1); simpl; [|done]. destruct (texts c l2); simpl; [|done].
  by rewrite string_app_assoc.
Qed.

(** * Induction on interpolations *)
Section induction.
Variable P : rule → Prop.
Hypothesis HV : ∀ v, P (V v).
Hypothesis HRules : ∀ l, Forall P l → P (Rules l).
Hypothesis HFn : ∀ f, (∀ c r, f c = Some r → P r) → P (Fn f).
Hypothesis HSel : ∀ id, P (Sel id).
Hypothesis HKey : ∀ name, P (Key name).

Fixpoint rule_nested_ind (e : rule) : P e :=
  match e with
  | V v => HV v
  | Rules l =>
      HRules l ((fix go l : Forall P l :=
        match l with
        | [] => Forall_nil_2 P
        | x :: l' => Forall_cons_2 P x l' (rule_nested_ind x) (go l')
        end) l)
  | Fn f =>
      HFn f (λ c,
        match f c as o return (∀ r, o = Some r → P r) with
        | Some r' => λ r H, eq_ind r' P (rule_nested_ind r') r (Some_inj r' r H)
        | None => λ r H, False_ind _ (None_ne_Some r H)
        end)
  | Sel id => HSel id
  | Key name => HKey name
  end.
End induction.

(** A component's style, given those it extends. *)
Lemma ComponentStyle_nested_ind (P : ComponentStyle → Prop) :
  (∀ id base rules, (∀ b, base = Some b → P b) → P (CStyle id base rules)) → ∀ cs, P cs.
Proof.
  intros H. fix IH 1. intros [id [b|] rules].
  - pose proof (IH b) as Hb. apply H. intros b' [= <-]. exact Hb.
  - clear IH. by apply H.
Qed.

(** * Flattening *)

(** The loop of [Wo] over an array. *)
Fixpoint Wo_list (t : option ctx) (l acc : list rule) : option rule :=
  match l with
  | [] => Some (Rules acc)
  | x :: l' => r ← Wo t x; Wo_list t l' (acc ++ splice r)
  end.
Lemma Wo_Rules t l : Wo t (Rules l) = Wo_list t l [].
Proof.
  simpl. generalize (@nil rule). induction l as [|x l IH]; intros acc; simpl; [done|].
  destruct (Wo t x); simpl; [|done]. by rewrite IH.
Qed.

Lemma string_concat_joined l : String.concat "" (map joined l) = foldr (λ x s, joined x +:+ s) "" l.
Proof.
  induction l as [|x [|y l] IH]; [done| |]; simpl in *.
  - by rewrite string_app_nil_r.
  - by rewrite IH.
Qed.

Lemma joined_Rules l : joined (Rules l) = foldr (λ x s, joined x +:+ s) "" l.
Proof. simpl. apply string_concat_joined. Qed.

Lemma joined_app l1 l2 : joined (Rules (l1 ++ l2)) = joined (Rules l1) +:+ joined (Rules l2).
Proof.
  rewrite !joined_Rules. induction l1 as [|x l1 IH]; [done|].
  cbn [foldr app]. by rewrite IH, string_app_assoc.
Qed.

Lemma joined_splice r : joined (Rules (splice r)) = joined r.
Proof.
  destruct r as [[| | | |s| |]| | | |]; rewrite ?joined_Rules; simpl;
    rewrite ?string_app_nil_r, ?string_concat_joined; try done.
  destruct (String.eqb_spec s ""); [by subst|]. simpl. by rewrite string_app_nil_r.
Qed.

Lemma Wo_list_joined c l acc :
  Forall (λ x, joined <$> Wo (Some c) x = text c x) l →
  joined <$> Wo_list (Some c) l acc = s ← texts c l; Some (joined (Rules acc) +:+ s).
Proof.
  intros H. revert acc. induction H as [|x l Hx _ IH]; intros acc; cbn [Wo_list texts].
  { cbn. by rewrite string_app_nil_r. }
  destruct (Wo (Some c) x) as [r|]; simpl in Hx; rewrite <-Hx; [|done].
  cbn [mbind option_bind]. rewrite IH. destruct (texts c l); [|done]. cbn [mbind option_bind].
  by rewrite joined_app, joined_splice, string_app_assoc.
Qed.

(** Flattening in a context and joining gives the text. *)
Lemma Wo_text c e : joined <$> Wo (Some c) e = text c e.
Proof.
  induction e as [v|l IH|f IH|id|name] using rule_nested_ind; try done.
  - rewrite Wo_Rules, Wo_list_joined by done. rewrite text_Rules.
    by destruct (texts c l).
  - simpl. destruct (f c) as [r|] eqn:E; simpl; [|done]. by apply (IH c r).
Qed.

(** Without a context flattening never throws. *)
Lemma Wo_None_total e : ∃ r, Wo None e = Some r.
Proof.
  induction e as [v|l IH|f IH|id|name] using rule_nested_ind; [eauto| |eauto..].
  rewrite Wo_Rules. generalize (@nil rule).
  induction IH as [|x l [r Hr] _ IH]; intros acc; simpl; [eauto|]. rewrite Hr. apply IH.
Qed.

(** An element of a flattened array: a text that is not empty, a function or keyframes. *)
Definition is_word (r : rule) : bool := match r with V (Str s) => negb (String.eqb s "") | _ => false end.
Definition is_flat (r : rule) : bool := match r with Fn _ | Key _ => true | _ => is_word r end.

(** Results of flattening: an array of such elements, one of them, or an empty text. *)
Definition flattened (P : rule → bool) (r : rule) : Prop :=
  (∃ l, r = Rules l ∧ Forall (λ x, P x = true) l) ∨ P r = true ∨ r = V (Str "").

Lemma word_str s : s ≠ "" → is_word (V (Str s)) = true.
Proof. intros ?. cbn. by destruct (String.eqb_spec s ""). Qed.

Lemma flattened_text P s : (∀ s, s ≠ "" → P (V (Str s)) = true) → flattened P (V (Str s)).
Proof. intros HP. destruct (decide (s = "")) as [->|]; right; [by right|left; auto]. Qed.

Lemma splice_flattened P r :
  (∀ l, P (Rules l) = false) → flattened P r → Forall (λ x, P x = true) (splice r).
Proof.
  intros HP [(l & -> & ?)|[Hr| ->]]; [done| |by constructor].
  destruct r as [[]|l| | |]; try (by apply Forall_singleton); [|by rewrite HP in Hr].
  cbn. destruct (String.eqb s ""); [constructor|]. by apply Forall_singleton.
Qed.

Lemma word_flat r : flattened is_word r → flattened is_flat r.
Proof.
  assert (∀ x, is_word x = true → is_flat x = true) as Hw by (by intros []).
  intros [(l & -> & H)|[?|?]]; [left|right; left; auto|right; by right].
  exists l. split; [done|]. eapply Forall_impl; [done|]. auto.
Qed.

Lemma objToCss_nonempty v : Forall (λ s, s ≠ "") (objToCss None v) ∧ ∀ n, Forall (λ s, s ≠ "") (objToCss (Some n) v).
Proof.
  induction v as [v Ha Ho|l IH|l IH] using value_nested_ind.
  - destruct v; try (by split; intros; constructor). exfalso. by eapply Ho.
  - split; intros; constructor.
  - assert (Forall (λ s, s ≠ "") (List.concat (map (λ '(k, u),
      if Vo u then []
      else match u with
           | Obj _ => objToCss (Some k) u
           | _ => [qo k +:+ ": " +:+ declared k u +:+ ";"]
           end) l))) as Hb.
    { induction IH as [|[k u] l [_ Hu] _ IHl]; simpl; [constructor|].
      apply Forall_app. split; [|done]. destruct (Vo u); [constructor|].
      assert (qo k +:+ ": " +:+ declared k u +:+ ";" ≠ "") by (by destruct (qo k)).
      destruct u; by repeat constructor. }
    split; [done|]. intros n. cbn [objToCss]. destruct (String.eqb n ""); [done|].
    constructor; [by destruct n|]. apply Forall_app. by repeat constructor.
Qed.

Lemma Wo_data_words v : flattened is_word (Wo_data v).
Proof.
  induction v as [v Ha Ho|l IH|l IH] using value_nested_ind.
  - destruct v as [| |[]|x|s|l|l]; [by right; right|by right; right|by right; left|by right; right| | | |].
    + apply (flattened_text is_word), word_str.
    + cbn. destruct (String.eqb_spec s "") as [->|]; [by right; right|right; left; by apply word_str].
    + by destruct (Ha l).
    + by destruct (Ho l).
  - left. eexists. split; [done|].
    induction IH as [|v l Hv _ IH]; simpl; [constructor|].
    apply Forall_app. split; [|done]. by apply splice_flattened.
  - left. eexists. split; [done|]. pose proof (proj1 (objToCss_nonempty (Obj l))) as H.
    induction H as [|s ss Hs _ IHs]; simpl; constructor; [|done]. by apply word_str.
Qed.

Lemma Wo_list_flat t l acc r :
  Forall (λ x, ∀ r, Wo t x = Some r → flattened is_flat r) l → Forall (λ x, is_flat x = true) acc →
  Wo_list t l acc = Some r → ∃ l', r = Rules l' ∧ Forall (λ x, is_flat x = true) l'.
Proof.
  intros Hl. revert acc. induction Hl as [|x l Hx _ IH]; intros acc Ha H; simpl in H; [by simplify_eq; eauto|].
  destruct (Wo t x) as [rx|]; simpl in H; [|done]. apply IH in H; [done|].
  apply Forall_app. split; [done|]. apply splice_flattened; [done|auto].
Qed.

Lemma Wo_flat t e r : Wo t e = Some r → flattened is_flat r.
Proof.
  revert r. induction e as [v|l IH|f IH|id|name] using rule_nested_ind; intros r H.
  - simplify_eq/=. apply word_flat, Wo_data_words.
  - rewrite Wo_Rules in H. apply Wo_list_flat in H; [by left|done..].
  - simpl in H. destruct t as [c|]; [|by simplify_eq; right; left].
    destruct (f c) as [r'|] eqn:E; [|done]. by eapply IH.
  - simplify_eq/=. by right; left.
  - destruct t; simplify_eq/=; [|by right; left]. apply flattened_text. apply word_str.
Qed.

(** * One step or two *)

Lemma text_words c r : flattened is_word r → text c r = Some (joined r).
Proof.
  assert (∀ x, is_word x = true → text c x = Some (joined x)) as Hw.
  { intros [[| | | |s| |]| | | |]; try done. cbn. by destruct (String.eqb s ""). }
  intros [(l & -> & H)|[?| ->]]; [|by auto|done].
  rewrite text_Rules, joined_Rules. induction H as [|x l Hx _ IH]; [done|].
  cbn [texts foldr]. by rewrite Hw, IH by done.
Qed.

Lemma text_splice c r : texts c (splice r) = text c r.
Proof.
  destruct r as [v|l|f|id|name].
  - assert (texts c [V v] = text c (V v)) as Hv by (cbn; by rewrite string_app_nil_r).
    destruct v; try done. cbn [splice]. destruct (String.eqb_spec s "") as [->|]; done.
  - by rewrite text_Rules.
  - cbn. destruct (f c); [|done]. cbn. destruct (text c _); [|done]. cbn. by rewrite string_app_nil_r.
  - cbn. by rewrite string_app_nil_r.
  - cbn. by rewrite string_app_nil_r.
Qed.

(** Flattening without a context does not change the text a rule has in any context. *)
Lemma Wo_None_text c e r : Wo None e = Some r → text c r = text c e.
Proof.
  revert r. induction e as [v|l IH|f IH|id|name] using rule_nested_ind; intros r H; try (by simplify_eq/=).
  - simplify_eq/=. apply text_words, Wo_data_words.
  - rewrite Wo_Rules in H. rewrite text_Rules.
    assert (text c r = s ← texts c []; t ← texts c l; Some (s +:+ t)) as ->.
    { revert H. generalize (@nil rule). induction IH as [|x l Hx _ IHl]; intros acc H.
      - injection H as <-. rewrite text_Rules. destruct (texts c acc); [|done]. cbn. by rewrite string_app_nil_r.
      - simpl in H. destruct (Wo None x) as [rx|] eqn:E; simpl in H; [|done].
        rewrite (IHl _ H), texts_app, text_splice, (Hx rx) by done. cbn [texts].
        destruct (texts c acc); [|done]. cbn. destruct (text c x); [|done]. cbn.
        destruct (texts c l); [|done]. cbn. by rewrite string_app_assoc. }
    cbn. by destruct (texts c l).
Qed.

(** * Templates *)

Lemma text_Bi c s l : texts c (Bi s l) = (λ t, s +:+ t) <$> text_holes c l.
Proof.
  unfold Bi. cbn [texts]. assert (∀ s, text c (V (Str s)) = Some s) as Hs.
  { intros u. cbn. by destruct (String.eqb_spec u "") as [->|]. }
  rewrite Hs. cbn [mbind option_bind].
  assert (texts c (List.concat (map (λ '(h, t), [h; V (Str t)]) l)) = text_holes c l) as ->.
  { induction l as [|[h t] l IH]; [done|]. cbn [map List.concat app texts text_holes].
    destruct (text c h); [|done]. cbn [mbind option_bind]. rewrite Hs. cbn [mbind option_bind].
    rewrite IH. by destruct (text_holes c l). }
  by destruct (text_holes c l).
Qed.

(** The text of a template is its texts with those of its interpolations between. *)
Lemma text_css c s l : text c (css s l) = (λ t, s +:+ t) <$> text_holes c l.
Proof.
  destruct l as [|h l].
  - cbn. destruct (String.eqb_spec s "") as [->|]; [done|]. cbn. by rewrite string_app_nil_r.
  - unfold css. destruct (Wo_None_total (Rules (Bi s (h :: l)))) as [r Hr].
    rewrite Hr, (Wo_None_text c _ _ Hr), text_Rules. apply text_Bi.
Qed.

(** * The style of a component *)

Lemma css_elements s l :
  css s l = Rules (elements (css s l)) ∧
  (css s l = Rules [V (Str s)] ∨ Forall (λ x, is_flat x = true) (elements (css s l))).
Proof.
  destruct l as [|h l]; [by auto|]. unfold css.
  destruct (Wo_None_total (Rules (Bi s (h :: l)))) as [r Hr]. rewrite Hr.
  rewrite Wo_Rules in Hr. apply Wo_list_flat in Hr as (l' & -> & ?); [by auto| |done].
  apply Forall_forall. intros x _ r'. apply Wo_flat.
Qed.

Lemma dynamic_css_texts c l :
  Forall (λ x, is_flat x = true ∨ ∃ s, x = V (Str s)) l → dynamic_css c l = texts c l.
Proof.
  induction 1 as [|x l Hx _ IH]; [done|]. cbn [dynamic_css texts]. rewrite IH.
  destruct x as [[| | | |s| |]|l'|f|id|name]; try (by destruct Hx as [?|[? ?]]);
    rewrite ?Wo_text; try done.
  cbn. by destruct (String.eqb_spec s "") as [->|].
Qed.

(** What a component with the template [css s l] adds to the style sheet is the text of
    the template, whether its style is static or dynamic. *)
Lemma generate_css id base s l c :
  generate (CStyle id base (css s l)) c =
  before ← (match base with Some b => generate b c | None => Some [] end);
  t ← text c (css s l);
  Some (before ++ [(id, t)]).
Proof.
  cbn [generate]. destruct (match base with Some b => generate b c | None => Some [] end); [|done].
  cbn [mbind option_bind]. destruct (css_elements s l) as [He Hl].
  case_match.
  - by rewrite Wo_text.
  - rewrite dynamic_css_texts.
    + by rewrite <-text_Rules, <-He.
    + destruct Hl as [Hl|Hl]; [rewrite Hl; apply Forall_singleton; eauto|].
      eapply Forall_impl; [done|]. auto.
Qed.

(** * Names *)

Definition is_letter (a : ascii) : bool := is_upper a || is_lower a.
(** A name that CSS reads as one identifier: letters and hyphens, a letter first. *)
Definition identifier (s : string) : bool :=
  match s with
  | String a s' => is_letter a && string_all (λ b, is_letter b || Ascii.eqb b "-") s'
  | EmptyString => false
  end.

(** No "ad" in any case, which content blockers look for. *)
Fixpoint no_ad (s : string) : bool :=
  match s with
  | String a t =>
      match t with
      | String b _ => negb ((code (to_lower_byte a) =? 97)%Z && (code (to_lower_byte b) =? 100)%Z) && no_ad t
      | EmptyString => true
      end
  | EmptyString => true
  end.

Lemma wo_letter e : (0 ≤ e < 52)%Z → is_letter (wo e) = true.
Proof.
  intros He. assert (∃ n, e = Z.of_nat n ∧ n < 52) as (n & -> & Hn) by (exists (Z.to_nat e); lia).
  do 52 (destruct n as [|n]; [reflexivity|]). lia.
Qed.

Lemma letters_all fuel t acc :
  string_all is_letter acc = true → string_all is_letter (letters fuel t acc) = true.
Proof.
  revert t acc. induction fuel as [|fuel IH]; intros t acc H; [done|]. cbn [letters].
  assert (string_all is_letter (String (wo (t mod 52)) acc) = true).
  { cbn [string_all]. rewrite wo_letter; [done|]. apply Z.mod_pos_bound. lia. }
  case_match; auto.
Qed.

Lemma letters_nonempty fuel t acc : letters (S fuel) t acc ≠ "".
Proof.
  assert (∀ fuel t acc, acc ≠ "" → letters fuel t acc ≠ "") as H.
  { clear. induction fuel as [|fuel IH]; intros t acc Ha; [done|]. cbn [letters]. case_match; [by apply IH|done]. }
  cbn [letters]. case_match; [by apply H|done].
Qed.

Lemma break_ad_eq a b s :
  break_ad (String a (String b s)) =
  if (code (to_lower_byte a) =? 97)%Z && (code (to_lower_byte b) =? 100)%Z
  then String a (String "-" (String b (break_ad s))) else String a (break_ad (String b s)).
Proof. done. Qed.
Lemma no_ad_eq a b s :
  no_ad (String a (String b s)) =
  negb ((code (to_lower_byte a) =? 97)%Z && (code (to_lower_byte b) =? 100)%Z) && no_ad (String b s).
Proof. done. Qed.

Lemma break_ad_cons a s : ∃ t, break_ad (String a s) = String a t.
Proof. cbn [break_ad]. repeat case_match; eauto. Qed.

Lemma break_ad_all s :
  string_all is_letter s = true → string_all (λ b, is_letter b || Ascii.eqb b "-") (break_ad s) = true.
Proof.
  assert (∀ n s, String.length s ≤ n → string_all is_letter s = true →
    string_all (λ b, is_letter b || Ascii.eqb b "-") (break_ad s) = true) as H; [|by eapply H].
  clear. induction n as [|n IH]; intros [|a [|b s]] Hn H; cbn in Hn; try done; try lia.
  { cbn in *. apply andb_true_iff in H as [-> _]. done. }
  cbn [string_all] in H. apply andb_true_iff in H as [Ha [Hb Hs]%andb_true_iff].
  rewrite break_ad_eq. case_match; cbn [string_all]; rewrite ?Ha, ?Hb; cbn [orb andb].
  - apply IH; [lia|done].
  - apply IH; [cbn; lia|]. cbn [string_all]. by rewrite Hb.
Qed.

Lemma break_ad_no_ad s : no_ad (break_ad s) = true.
Proof.
  assert (∀ n s, String.length s ≤ n → no_ad (break_ad s) = true) as H; [|by eapply H].
  clear. induction n as [|n IH]; intros [|a [|b s]] Hn; cbn in Hn; try done; try lia.
  rewrite break_ad_eq. destruct ((code (to_lower_byte a) =? 97)%Z && _) eqn:E.
  - assert ((code (to_lower_byte "-") =? 97)%Z = false ∧ (code (to_lower_byte "-") =? 100)%Z = false)
      as [H1 H2] by (split; reflexivity).
    rewrite !no_ad_eq, H1, H2, andb_false_r. cbn [negb andb].
    apply andb_true_iff in E as [_ E%Z.eqb_eq].
    destruct (break_ad s) as [|d u] eqn:Es; [done|].
    rewrite no_ad_eq, E, <-Es, IH by lia. done.
  - destruct (break_ad_cons b s) as [t Ht]. pose proof (IH (String b s) ltac:(cbn; lia)) as H.
    rewrite Ht in *. by rewrite no_ad_eq, E, H.
Qed.

Lemma ko_identifier e : identifier (ko e) = true ∧ no_ad (ko e) = true.
Proof.
  split; [|apply break_ad_no_ad]. unfold ko. cbn zeta.
  set (t := letters _ _ _). assert (string_all is_letter t = true) as Ht by (by apply letters_all).
  assert (t ≠ "") as Hne by apply letters_nonempty. clearbody t.
  destruct t as [|a s]; [done|]. pose proof (break_ad_all _ Ht) as H.
  destruct (break_ad_cons a s) as [u Hu]. rewrite Hu in *. cbn in *.
  apply andb_true_iff in Ht as [-> _]. by apply andb_true_iff in H as [_ ->].
Qed.

(** The names of the classes of a rendering are identifiers. *)
Lemma class_names_ko cs c L : class_names cs c = Some L → Forall (λ n, ∃ e, n = ko e) L.
Proof.
  revert L. induction cs as [id base rules IH] using ComponentStyle_nested_ind. intros L H.
  cbn [class_names] in H. apply bind_Some in H as (before & Hb & H).
  assert (Forall (λ n, ∃ e, n = ko e) before) as Hbefore.
  { destruct base; [by eapply IH|by simplify_eq]. }
  destruct (isStatic _).
  - apply bind_Some in H as (s & _ & [= <-]). apply Forall_app. split; [done|]. apply Forall_singleton. eauto.
  - apply bind_Some in H as (u & _ & (h & _ & [= <-])%bind_Some). apply Forall_app. split; [done|].
    destruct (String.eqb u ""); [constructor|]. apply Forall_singleton. eauto.
Qed.
