(* ===== verification/JsRegExp.v ===== *)
(** Regular expressions of JavaScript, as far as the Redoc bundle needs them: classes
    of characters repeated greedily, optional parts and capturing groups, matched with
    backtracking in the order the language prescribes. *)
From S2P Require Import Prelude GoStrings.

Inductive re : Type :=
  | Eps
  | Cls (p : ascii → bool) (lo : nat) (hi : option nat)
  | Opt (r : re)
  | Grp (r : re)
  | Cat (r1 r2 : re).

Declare Scope re_scope.
Delimit Scope re_scope with re.
Infix "·" := Cat (at level 45, right associativity) : re_scope.

(** Greedy repetition: the longest run first, then shorter ones. *)
Fixpoint repeat_class {A} (p : ascii → bool) (lo : nat) (hi : option nat) (s : string)
    (k : string → option A) : option A :=
  let stop := match lo with O => k s | S _ => None end in
  match hi, s with
  | Some O, _ | _, EmptyString => stop
  | _, String c s' =>
      if p c then
        match repeat_class p (pred lo) (pred <$> hi) s' k with
        | Some r => Some r
        | None => stop
        end
      else stop
  end.

(** Matches [r] at the start of [s] and continues with the rest and the captures. *)
Fixpoint match_re {A} (r : re) (s : string) (caps : list string)
    (k : string → list string → option A) : option A :=
  match r with
  | Eps => k s caps
  | Cls p lo hi => repeat_class p lo hi s (λ s', k s' caps)
  | Opt r => match match_re r s caps k with Some x => Some x | None => k s caps end
  | Grp r =>
      match_re r s caps (λ s' caps',
        k s' (caps' ++ [take_bytes (String.length s - String.length s') s]))
  | Cat r1 r2 => match_re r1 s caps (λ s' caps', match_re r2 s' caps' k)
  end.

(** [/^r$/.exec(s)]: the captured texts. *)
Definition exec (r : re) (s : string) : option (list string) :=
  match_re r s [] (λ rest caps, match rest with EmptyString => Some caps | _ => None end).

(** * Classes *)
Definition chr (c : ascii) : re := Cls (Ascii.eqb c) 1 (Some 1).
(** A letter under the flag [i]. *)
Definition chr_i (c : ascii) : re := Cls (λ a, Ascii.eqb (to_lower_byte a) c) 1 (Some 1).
Fixpoint word_i (s : string) : re :=
  match s with EmptyString => Eps | String c s' => Cat (chr_i c) (word_i s') end.
Definition star (p : ascii → bool) : re := Cls p 0 None.
Definition plus (p : ascii → bool) : re := Cls p 1 None.
Definition opt (p : ascii → bool) : re := Cls p 0 (Some 1).
Definition between (p : ascii → bool) (lo hi : nat) : re := Cls p lo (Some hi).
Definition one_of (s : string) : ascii → bool := λ a, contains_byte a s.

(** * What a match consumes *)

(** The texts a class repetition can consume. *)
Lemma repeat_class_spec {A} p lo hi s (k : string → option A) x :
  repeat_class p lo hi s k = Some x →
  ∃ u v, s = u +:+ v ∧ string_all p u = true ∧ lo ≤ String.length u ∧
    match hi with Some n => String.length u ≤ n | None => True end ∧ k v = Some x.
Proof.
  revert lo hi. induction s as [|c s IH]; intros lo hi H.
  - assert (lo = 0 ∧ k "" = Some x) as [-> ?] by (destruct hi as [[]|], lo; simplify_eq/=; auto).
    exists "", "". split_and!; try done. destruct hi; simpl; [lia|done].
  - assert (match lo with 0 => k (String c s) | S _ => None end = Some x →
      ∃ u v, String c s = u +:+ v ∧ string_all p u = true ∧ lo ≤ String.length u ∧
        match hi with Some n => String.length u ≤ n | None => True end ∧ k v = Some x) as Hstop.
    { destruct lo; [|done]. intros ?. exists "", (String c s).
        split_and!; try done. destruct hi; simpl; [lia|done]. }
    destruct hi as [[|hi]|]; simpl in H; [by apply Hstop| |];
      (destruct (p c) eqn:Hp; [|by apply Hstop]);
      (destruct (repeat_class p _ _ s k) eqn:E; [simplify_eq|by apply Hstop]);
      apply IH in E as (u & v & -> & ? & ? & ? & ?); exists (String c u), v;
      rewrite ?string_length_cons; simpl; rewrite Hp; repeat split; try done; lia.
Qed.
