(* ===== verification/RedocColor.v ===== *)
(** The colour functions of the Redoc bundle (polished): reading a colour, hue,
    saturation and lightness, and the functions the theme and the style sheets use:
    darken, lighten, desaturate, transparentize, getLuminance, readableColor. A
    colour that cannot be read throws. [Math.pow] is approximated by each engine, so it
    is a parameter of the two functions that use it. *)
From S2P Require Import Prelude GoStrings.
From S2P Require Import Float64 JsNumber JsRegExp JsValue.
From Stdlib Require Import SpecFloat.
Local Open Scope Z_scope.

(** * Colours *)

(** Red, green, blue and, where the text has it, alpha. *)
Record rgb : Type := Rgb { red : Z; green : Z; blue : Z; rgb_alpha : option float64 }.
Record hsl : Type := Hsl { hue : float64; saturation : float64; lightness : float64; hsl_alpha : option float64 }.

(** The named colours ([hr]). *)
Definition hr : list (string * string) :=
  [
   ("aliceblue", "f0f8ff"); ("antiquewhite", "faebd7"); ("aqua", "00ffff"); ("aquamarine",
   "7fffd4"); ("azure", "f0ffff"); ("beige", "f5f5dc"); ("bisque", "ffe4c4"); ("black", "000");
   ("blanchedalmond", "ffebcd"); ("blue", "0000ff"); ("blueviolet", "8a2be2"); ("brown",
   "a52a2a"); ("burlywood", "deb887"); ("cadetblue", "5f9ea0"); ("chartreuse", "7fff00");
   ("chocolate", "d2691e"); ("coral", "ff7f50"); ("cornflowerblue", "6495ed"); ("cornsilk",
   "fff8dc"); ("crimson", "dc143c"); ("cyan", "00ffff"); ("darkblue", "00008b"); ("darkcyan",
   "008b8b"); ("darkgoldenrod", "b8860b"); ("darkgray", "a9a9a9"); ("darkgreen", "006400");
   ("darkgrey", "a9a9a9"); ("darkkhaki", "bdb76b"); ("darkmagenta", "8b008b");
   ("darkolivegreen", "556b2f"); ("darkorange", "ff8c00"); ("darkorchid", "9932cc"); ("darkred",
   "8b0000"); ("darksalmon", "e9967a"); ("darkseagreen", "8fbc8f"); ("darkslateblue", "483d8b");
   ("darkslategray", "2f4f4f"); ("darkslategrey", "2f4f4f"); ("darkturquoise", "00ced1");
   ("darkviolet", "9400d3"); ("deeppink", "ff1493"); ("deepskyblue", "00bfff"); ("dimgray",
   "696969"); ("dimgrey", "696969"); ("dodgerblue", "1e90ff"); ("firebrick", "b22222");
   ("floralwhite", "fffaf0"); ("forestgreen", "228b22"); ("fuchsia", "ff00ff"); ("gainsboro",
   "dcdcdc"); ("ghostwhite", "f8f8ff"); ("gold", "ffd700"); ("goldenrod", "daa520"); ("gray",
   "808080"); ("green", "008000"); ("greenyellow", "adff2f"); ("grey", "808080"); ("honeydew",
   "f0fff0"); ("hotpink", "ff69b4"); ("indianred", "cd5c5c"); ("indigo", "4b0082"); ("ivory",
   "fffff0"); ("khaki", "f0e68c"); ("lavender", "e6e6fa"); ("lavenderblush", "fff0f5");
   ("lawngreen", "7cfc00"); ("lemonchiffon", "fffacd"); ("lightblue", "add8e6"); ("lightcoral",
   "f08080"); ("lightcyan", "e0ffff"); ("lightgoldenrodyellow", "fafad2"); ("lightgray",
   "d3d3d3"); ("lightgreen", "90ee90"); ("lightgrey", "d3d3d3"); ("lightpink", "ffb6c1");
   ("lightsalmon", "ffa07a"); ("lightseagreen", "20b2aa"); ("lightskyblue", "87cefa");
   ("lightslategray", "789"); ("lightslategrey", "789"); ("lightsteelblue", "b0c4de");
   ("lightyellow", "ffffe0"); ("lime", "0f0"); ("limegreen", "32cd32"); ("linen", "faf0e6");
   ("magenta", "f0f"); ("maroon", "800000"); ("mediumaquamarine", "66cdaa"); ("mediumblue",
   "0000cd"); ("mediumorchid", "ba55d3"); ("mediumpurple", "9370db"); ("mediumseagreen",
   "3cb371"); ("mediumslateblue", "7b68ee"); ("mediumspringgreen", "00fa9a");
   ("mediumturquoise", "48d1cc"); ("mediumvioletred", "c71585"); ("midnightblue", "191970");
   ("mintcream", "f5fffa"); ("mistyrose", "ffe4e1"); ("moccasin", "ffe4b5"); ("navajowhite",
   "ffdead"); ("navy", "000080"); ("oldlace", "fdf5e6"); ("olive", "808000"); ("olivedrab",
   "6b8e23"); ("orange", "ffa500"); ("orangered", "ff4500"); ("orchid", "da70d6");
   ("palegoldenrod", "eee8aa"); ("palegreen", "98fb98"); ("paleturquoise", "afeeee");
   ("palevioletred", "db7093"); ("papayawhip", "ffefd5"); ("peachpuff", "ffdab9"); ("peru",
   "cd853f"); ("pink", "ffc0cb"); ("plum", "dda0dd"); ("powderblue", "b0e0e6"); ("purple",
   "800080"); ("rebeccapurple", "639"); ("red", "f00"); ("rosybrown", "bc8f8f"); ("royalblue",
   "4169e1"); ("saddlebrown", "8b4513"); ("salmon", "fa8072"); ("sandybrown", "f4a460");
   ("seagreen", "2e8b57"); ("seashell", "fff5ee"); ("sienna", "a0522d"); ("silver", "c0c0c0");
   ("skyblue", "87ceeb"); ("slateblue", "6a5acd"); ("slategray", "708090"); ("slategrey",
   "708090"); ("snow", "fffafa"); ("springgreen", "00ff7f"); ("steelblue", "4682b4"); ("tan",
   "d2b48c"); ("teal", "008080"); ("thistle", "d8bfd8"); ("tomato", "ff6347"); ("turquoise",
   "40e0d0"); ("violet", "ee82ee"); ("wheat", "f5deb3"); ("white", "fff"); ("whitesmoke",
   "f5f5f5"); ("yellow", "ff0"); ("yellowgreen", "9acd32")
  ]%string.

Definition name_hex (n : string) : option string := snd <$> find_first (λ '(k, _), String.eqb k n) hr.

(** * Numbers *)

Definition show_int (z : Z) : string := (if z <? 0 then "-" else "") +:+ decimal (Z.abs z).
(** [n.toString(16)], with a digit added to a single one ([_r]). *)
Definition _r (z : Z) : string :=
  let t := (if z <? 0 then "-" else "") +:+ digits 16 (S (Z.to_nat (Z.log2 (Z.abs z)))) (Z.abs z) "" in
  if (String.length t =? 1)%nat then "0" +:+ t else t.
(** [Math.round(255 * e)]; a text for a number that is not finite. *)
Definition round255 (show : Z → string) (e : float64) : string :=
  let x := f64_mul (f64_of_int 255) e in
  match x with
  | S754_nan | S754_infinity _ => number_to_string x
  | _ => show (js_round x)
  end.
Definition pr : float64 → string := round255 show_int.
Definition Ar : float64 → string := round255 _r.

(** The remainder [x % y] of finite numbers, with the sign of [x]. *)
Definition f64_rem (x y : float64) : float64 :=
  let '(n1, d1) := f64_ratio x in
  let '(n2, d2) := f64_ratio y in
  if (n2 =? 0) || f64_is_nan x then f64_nan
  else
    let r := Z.rem (n1 * Zpos d2) (n2 * Zpos d1) in
    match Z.abs r with
    | Zpos p => f64_of_ratio (r <? 0) p (d1 * d2)
    | _ => S754_zero (n1 <? 0)
    end.
Definition f64_abs (x : float64) : float64 := SFabs x.

(** [Fr]: a number between two bounds. *)
Definition Fr (lo hi x : float64) : float64 := js_max lo (js_min hi x).

(** * Writing *)

(** [Er]: [#aabbcc] as [#abc]. *)
Definition Er (e : string) : string :=
  match e with
  | String h (String a (String b (String c (String d (String f (String g EmptyString)))))) =>
      if Ascii.eqb a b && Ascii.eqb c d && Ascii.eqb f g
      then String "#" (String a (String c (String f EmptyString))) else e
  | _ => e
  end.
Definition Pr (r g b : Z) : string := Er ("#" +:+ _r r +:+ _r g +:+ _r b).
Definition dr (r g b : float64) : string := pr r +:+ "," +:+ pr g +:+ "," +:+ pr b.
Definition jr (r g b : float64) : string := Er ("#" +:+ Ar r +:+ Ar g +:+ Ar b).

(** [fr]: red, green and blue of a hue, handed to a function that writes them. *)
Definition fr (e t n : float64) (r : float64 → float64 → float64 → string) : string :=
  let int := f64_of_int in
  if f64_eq t (int 0) then r n n n
  else
    let i := f64_div (f64_rem (f64_add (f64_rem e (int 360)) (int 360)) (int 360)) (int 60) in
    let o := f64_mul (f64_sub (int 1) (f64_abs (f64_sub (f64_mul (int 2) n) (int 1)))) t in
    let a := f64_mul o (f64_sub (int 1) (f64_abs (f64_sub (f64_rem i (int 2)) (int 1)))) in
    let z := int 0 in
    let '(s, l, c) :=
      if f64_le (int 0) i && f64_lt i (int 1) then (o, a, z)
      else if f64_le (int 1) i && f64_lt i (int 2) then (a, o, z)
      else if f64_le (int 2) i && f64_lt i (int 3) then (z, o, a)
      else if f64_le (int 3) i && f64_lt i (int 4) then (z, a, o)
      else if f64_le (int 4) i && f64_lt i (int 5) then (a, z, o)
      else if f64_le (int 5) i && f64_lt i (int 6) then (o, z, a)
      else (z, z, z) in
    let u := f64_sub n (f64_div o (int 2)) in
    r (f64_add s u) (f64_add l u) (f64_add c u).

(** [Lr] on a colour with alpha ([Tr]) or hue: hexadecimal unless it is translucent. *)
Definition Tr (c : rgb) (alpha : float64) : string :=
  if f64_le (f64_of_int 1) alpha then Pr (red c) (green c) (blue c)
  else "rgba(" +:+ show_int (red c) +:+ "," +:+ show_int (green c) +:+ "," +:+ show_int (blue c) +:+
       "," +:+ number_to_string alpha +:+ ")".
Definition Lr (c : hsl) : string :=
  match hsl_alpha c with
  | Some a =>
      if f64_le (f64_of_int 1) a then fr (hue c) (saturation c) (lightness c) jr
      else "rgba(" +:+ fr (hue c) (saturation c) (lightness c) dr +:+ "," +:+ number_to_string a +:+ ")"
  | None => fr (hue c) (saturation c) (lightness c) jr
  end.

(** * Reading *)

Definition is_hex (a : ascii) : bool := match unhex a with Some _ => true | None => false end.
Definition hex2 (a b : ascii) : Z := 16 * default 0 (unhex a) + default 0 (unhex b).

(** [\s*(?:,)?\s*] and [\s*(?:,|\/)\s*]. *)
Local Open Scope re_scope.
Definition re_comma : re := star is_js_space · opt (one_of ",") · star is_js_space.
Definition re_alpha_sep : re := star is_js_space · between (one_of ",/") 1 1 · star is_js_space.
Definition re_d13 : re := Grp (between is_digit 1 3).
Definition re_alpha : re := Grp (opt (one_of "-+") · star is_digit · opt (one_of ".") · plus is_digit · opt (one_of "%")).
Definition re_hue : re := Grp (between is_digit 0 3 · opt (one_of ".") · plus is_digit · Opt (word_i "deg")).
Definition re_percent : re := Grp (between is_digit 1 3 · opt (one_of ".") · opt is_digit) · chr "%".
Definition re_close : re := star is_js_space · chr ")".

Definition vr : re :=
  word_i "rgb" · chr "(" · star is_js_space · re_d13 · re_comma · re_d13 · re_comma · re_d13 · re_close.
Definition xr : re :=
  word_i "rgb" · Opt (chr_i "a") · chr "(" · star is_js_space · re_d13 · re_comma · re_d13 · re_comma ·
  re_d13 · re_alpha_sep · re_alpha · re_close.
Definition wr : re :=
  word_i "hsl" · chr "(" · star is_js_space · re_hue · re_comma · re_percent · re_comma · re_percent · re_close.
Definition kr : re :=
  word_i "hsl" · Opt (chr_i "a") · chr "(" · star is_js_space · re_hue · re_comma · re_percent · re_comma ·
  re_percent · re_alpha_sep · re_alpha · re_close.
Local Close Scope re_scope.

(** The digits of a captured integer. *)
Definition read_int (s : string) : Z := (read_digits s 0 0).1.1.
(** A captured alpha: a number above one is a percentage. *)
Definition read_alpha (s : string) : float64 :=
  let a := parseFloat s in if f64_lt (f64_of_int 1) a then f64_div a (f64_of_int 100) else a.

(** [hsl(...)] by way of [rgb(...)]. *)
Definition via_rgb (h s l : string) (alpha : option float64) : option rgb :=
  let pct x := f64_div (f64_of_int (read_int x)) (f64_of_int 100) in
  match exec vr ("rgb(" +:+ fr (parseInt h) (pct s) (pct l) dr +:+ ")") with
  | Some [r; g; b] => Some (Rgb (read_int r) (read_int g) (read_int b) alpha)
  | _ => None
  end.

(** [Sr]: a colour in one of the notations; [None] is the exception. *)
Definition parse_color (e : string) : option rgb :=
  let t := match name_hex (string_map to_lower_byte e) with Some h => "#" +:+ h | None => e end in

  let alpha z := Some (parseFloat (to_fixed 2 (f64_div (f64_of_int z) (f64_of_int 255)))) in
  let functional :=
    match exec vr t with
    | Some [r; g; b] => Some (Rgb (read_int r) (read_int g) (read_int b) None)
    | _ =>
        match exec xr (take_bytes 50 t) with
        | Some [r; g; b; a] => Some (Rgb (read_int r) (read_int g) (read_int b) (Some (read_alpha a)))
        | _ =>
            match exec wr t with
            | Some [h; s; l] => via_rgb h s l None
            | _ =>
                match exec kr (take_bytes 50 t) with
                | Some [h; s; l; a] => via_rgb h s l (Some (read_alpha a))
                | _ => None
                end
            end
        end
    end in
  match t with
  | String "#" t' =>
      if string_all is_hex t' then
        match t' with
        | String a (String b (String c (String d (String f (String g EmptyString))))) =>
            Some (Rgb (hex2 a b) (hex2 c d) (hex2 f g) None)
        | String a (String b (String c (String d (String f (String g (String h (String i EmptyString))))))) =>
            Some (Rgb (hex2 a b) (hex2 c d) (hex2 f g) (alpha (hex2 h i)))
        | String a (String b (String c EmptyString)) => Some (Rgb (hex2 a a) (hex2 b b) (hex2 c c) None)
        | String a (String b (String c (String d EmptyString))) =>
            Some (Rgb (hex2 a a) (hex2 b b) (hex2 c c) (alpha (hex2 d d)))
        | _ => functional
        end
      else functional
  | _ => functional
  end.
Definition Sr (v : value) : option rgb := match v with Str e => parse_color e | _ => None end.

(** [Or]: the hue, saturation and lightness of a colour. *)
Definition rgb_to_hsl (c : rgb) : hsl :=
  let int := f64_of_int in
  let n := f64_div (int (red c)) (int 255) in
  let r := f64_div (int (green c)) (int 255) in
  let i := f64_div (int (blue c)) (int 255) in
  let o := js_max n (js_max r i) in
  let a := js_min n (js_min r i) in
  let s := f64_div (f64_add o a) (int 2) in
  if f64_eq o a then Hsl (int 0) (int 0) s (rgb_alpha c)
  else
    let l := f64_sub o a in
    let sat := if f64_lt (dec 5 1) s then f64_div l (f64_sub (f64_sub (int 2) o) a) else f64_div l (f64_add o a) in
    let t :=
      if f64_eq o n then f64_add (f64_div (f64_sub r i) l) (int (if f64_lt r i then 6 else 0))
      else if f64_eq o r then f64_add (f64_div (f64_sub i n) l) (int 2)
      else f64_add (f64_div (f64_sub n r) l) (int 4) in
    Hsl (f64_mul t (int 60)) sat s (rgb_alpha c).
Definition Or (v : value) : option hsl := rgb_to_hsl <$> Sr v.

(** * The functions of the theme *)

(** [parseFloat(e)] of an amount. *)
Definition amount (e : value) : float64 := parseFloat (to_string e).
Definition is_transparent (t : value) : bool := strict_eq t (Str "transparent").
Definition clamp01 : float64 → float64 := Fr (f64_of_int 0) (f64_of_int 1).

Definition with_hsl (f : hsl → hsl) (t : value) : expr :=
  if is_transparent t then Some t else n ← Or t; Some (Str (Lr (f n))).
(** [Ur] (darken), [Hr] (lighten), [qr] (desaturate). *)
Definition Ur (e t : expr) : expr :=
  e ← e; t ← t;
  with_hsl (λ n, Hsl (hue n) (saturation n) (clamp01 (f64_sub (lightness n) (amount e))) (hsl_alpha n)) t.
Definition Hr (e t : expr) : expr :=
  e ← e; t ← t;
  with_hsl (λ n, Hsl (hue n) (saturation n) (clamp01 (f64_add (lightness n) (amount e))) (hsl_alpha n)) t.
Definition qr (e t : expr) : expr :=
  e ← e; t ← t;
  with_hsl (λ n, Hsl (hue n) (clamp01 (f64_sub (saturation n) (amount e))) (lightness n) (hsl_alpha n)) t.

(** [Kr] (transparentize). *)
Definition Kr (e t : expr) : expr :=
  e ← e; t ← t;
  if is_transparent t then Some t
  else
    n ← Sr t;
    let alpha := default (f64_of_int 1) (rgb_alpha n) in
    let h := f64_of_int 100 in
    let fixed := string_to_number (to_fixed 2 (f64_sub (f64_mul h alpha) (f64_mul h (amount e)))) in
    Some (Str (Tr n (clamp01 (f64_div fixed h)))).

Class MathPow := pow : float64 → float64 → float64.

Section luminance.
Context `{MathPow}.

(** [Vr] (getLuminance). *)
Definition channel (z : Z) : float64 :=
  let n := f64_div (f64_of_int z) (f64_of_int 255) in
  if f64_le n (dec 3928 5) then f64_div n (dec 1292 2)
  else pow (f64_div (f64_add n (dec 55 3)) (dec 1055 3)) (dec 24 1).
Definition luminance (t : value) : option float64 :=
  if is_transparent t then Some f64_zero
  else
    c ← Sr t;
    Some (parseFloat (to_fixed 3 (f64_add (f64_add (f64_mul (dec 2126 4) (channel (red c)))
      (f64_mul (dec 7152 4) (channel (green c)))) (f64_mul (dec 722 4) (channel (blue c)))))).
Definition Vr (t : expr) : expr := t ← t; Num <$> luminance t.

(** [Qr] (readableColor) with its defaults: black on light, white on dark colours. *)
Definition Qr (e : expr) : expr :=
  e ← e;
  s ← luminance e;
  let light := f64_lt (dec 179 3) s in
  let l := if light then "#000" else "#fff" in
  o ← luminance e;
  a ← luminance (Str l);
  let ratio x y := f64_div (f64_add x (dec 5 2)) (f64_add y (dec 5 2)) in
  let contrast := if f64_lt a o then ratio o a else ratio a o in
  Some (Str (if f64_le (dec 45 1) (parseFloat (to_fixed 2 contrast)) then l
             else if light then "#000" else "#fff")).
End luminance.

(** * Laws

    Laws of the colour functions: a colour that is written in hexadecimal, shortened where
    that is possible, reads back as itself. *)
Local Open Scope Z_scope.

Definition byte (z : Z) : Prop := 0 ≤ z < 256.

(** A property of all bytes, checked on each. *)
Lemma all_bytes (P : Z → bool) :
  forallb (λ n, P (Z.of_nat n)) (seq 0 256) = true → ∀ z, byte z → P z = true.
Proof.
  intros H z Hz. unfold byte in Hz. rewrite forallb_Forall, Forall_forall in H.
  replace z with (Z.of_nat (Z.to_nat z)) by lia. apply H. apply elem_of_seq. lia.
Qed.

(** * Hexadecimal digits *)

Definition hex_byte (z : Z) : bool :=
  match _r z with
  | String a (String b EmptyString) => is_hex a && is_hex b && (hex2 a b =? z)
  | _ => false
  end.

Lemma hex_byte_spec z : byte z → ∃ a b,
  _r z = String a (String b "") ∧ is_hex a = true ∧ is_hex b = true ∧ hex2 a b = z.
Proof.
  intros Hz. pose proof (all_bytes hex_byte ltac:(vm_compute; reflexivity) z Hz) as H.
  unfold hex_byte in H. destruct (_r z) as [|a [|b [|]]]; try done.
  exists a, b. rewrite !andb_true_iff, Z.eqb_eq in H. naive_solver.
Qed.

Lemma name_hex_sharp s : name_hex (string_map to_lower_byte (String "#" s)) = None.
Proof. reflexivity. Qed.

(** * Reading *)

Lemma parse_six a b c d f g :
  is_hex a = true → is_hex b = true → is_hex c = true → is_hex d = true → is_hex f = true → is_hex g = true →
  parse_color (String "#" (String a (String b (String c (String d (String f (String g ""))))))) =
  Some (Rgb (hex2 a b) (hex2 c d) (hex2 f g) None).
Proof.
  intros Ha Hb Hc Hd Hf Hg. unfold parse_color. rewrite name_hex_sharp.
  cbn [string_all]. by rewrite Ha, Hb, Hc, Hd, Hf, Hg.
Qed.

Lemma parse_three a b c :
  is_hex a = true → is_hex b = true → is_hex c = true →
  parse_color (String "#" (String a (String b (String c "")))) =
  Some (Rgb (hex2 a a) (hex2 b b) (hex2 c c) None).
Proof.
  intros Ha Hb Hc. unfold parse_color. rewrite name_hex_sharp. cbn [string_all]. by rewrite Ha, Hb, Hc.
Qed.

(** What [Pr] writes, [parse_color] reads. *)
Lemma parse_Pr r g b : byte r → byte g → byte b → parse_color (Pr r g b) = Some (Rgb r g b None).
Proof.
  unfold Pr. intros (a1 & b1 & -> & ? & ? & <-)%hex_byte_spec (a2 & b2 & -> & ? & ? & <-)%hex_byte_spec
    (a3 & b3 & -> & ? & ? & <-)%hex_byte_spec.
  rewrite !string_app_cons, !string_app_nil_l. unfold Er.
  destruct (Ascii.eqb_spec a1 b1), (Ascii.eqb_spec a2 b2), (Ascii.eqb_spec a3 b3); subst; cbn [andb];
    by first [apply parse_three|apply parse_six].
Qed.

(** The names of colours are read as the colours they stand for: each is in the table and
    its hexadecimal form is one the reader accepts. *)
Definition named_ok (p : string * string) : bool :=
  match parse_color p.1, parse_color ("#" +:+ p.2) with
  | Some c1, Some c2 =>
      (red c1 =? red c2) && (green c1 =? green c2) && (blue c1 =? blue c2) &&
      (0 <=? red c1) && (red c1 <? 256) && (0 <=? green c1) && (green c1 <? 256) &&
      (0 <=? blue c1) && (blue c1 <? 256)
  | _, _ => false
  end.

(** * Transparency *)

(** The alpha that making an opaque colour [k] hundredths more transparent leaves. *)
Definition alpha_after (k : Z) : float64 :=
  clamp01 (f64_div (string_to_number (to_fixed 2 (f64_sub (f64_mul (f64_of_int 100) (f64_of_int 1))
    (f64_mul (f64_of_int 100) (amount (Num (dec k 2))))))) (f64_of_int 100)).
Definition alpha_ok (k : Z) : bool :=
  String.eqb (number_to_string (alpha_after k)) (number_to_string (dec (100 - k) 2)) &&
  negb (f64_le (f64_of_int 1) (alpha_after k)).

Lemma alpha_after_spec k : 1 ≤ k ≤ 100 →
  number_to_string (alpha_after k) = number_to_string (dec (100 - k) 2) ∧
  f64_le (f64_of_int 1) (alpha_after k) = false.
Proof.
  intros Hk. assert (forallb (λ n, alpha_ok (Z.of_nat n)) (seq 1 100) = true) as H by (vm_compute; reflexivity).
  rewrite forallb_Forall, Forall_forall in H. specialize (H (Z.to_nat k) ltac:(apply elem_of_seq; lia)).
  rewrite Z2Nat.id in H by lia. unfold alpha_ok in H.
  apply andb_true_iff in H as [H1%String.eqb_eq H2%negb_true_iff]. done.
Qed.
