(* ===== verification/RedocTheme.v ===== *)
(** The theme of Redoc: its defaults, many of them functions of the rest of the theme,
    the merge of the page's theme into them, and the resolution that turns each function
    into its value, lazily, once, and with a bound on the number of evaluations. *)
From S2P Require Import Prelude GoStrings.
From S2P Require Import Float64 JsNumber JsValue RedocColor.
From Stdlib Require Import SpecFloat.
Local Open Scope Z_scope.

(** * Themes *)

(** A function of the theme: it reads properties of the theme and then answers. *)
Inductive prog : Type :=
  | Done (e : expr)
  | Read (path : list string) (k : value → prog).

(** A theme: data (not an object), a function, or an object. *)
Inductive theme : Type :=
  | Leaf (v : value)
  | Fun (f : prog)
  | Node (fields : list (string * theme)).

(** A property [a.b.c]. *)
Definition path_of (s : string) : list string := split_byte "." s.
Definition str (s : string) : theme := Leaf (Str s).
Definition alias (p : string) : theme := Fun (Read (path_of p) (λ v, Done (Some v))).
Definition fn1 (p : string) (f : expr → expr) : theme := Fun (Read (path_of p) (λ v, Done (f (Some v)))).
Definition fn2 (p q : string) (f : expr → expr → expr) : theme :=
  Fun (Read (path_of p) (λ v, Read (path_of q) (λ w, Done (f (Some v) (Some w))))).

Section defaults.
Context `{MathPow}.

Definition eight_units : theme := fn1 "spacing.unit" (λ u, mul (num 8) u).
Definition tenth : expr := Some (Num (dec 1 1)).

(** The default theme ([Zr]). *)
Definition Zr_spacing : theme := Node [
  ("unit", Leaf (int 5)); ("sectionHorizontal", eight_units); ("sectionVertical", eight_units)].

Definition Zr_breakpoints : theme := Node [("small", str "50rem"); ("medium", str "75rem"); ("large", str "105rem")].

Definition Zr_colors : theme := Node [
  ("tonalOffset", Leaf (Num (dec 2 1)));
  ("primary", Node [
    ("main", str "#32329f");
    ("light", fn2 "colors.tonalOffset" "colors.primary.main" Hr);
    ("dark", fn2 "colors.tonalOffset" "colors.primary.main" Ur);
    ("contrastText", fn1 "colors.primary.main" Qr)]);
  ("success", Node [
    ("main", str "#1d8127");
    ("light", fn2 "colors.tonalOffset" "colors.success.main" (λ t, Hr (mul (num 2) t)));
    ("dark", fn2 "colors.tonalOffset" "colors.success.main" Ur);
    ("contrastText", fn1 "colors.success.main" Qr)]);
  ("warning", Node [
    ("main", str "#ffa500");
    ("light", fn2 "colors.tonalOffset" "colors.warning.main" Hr);
    ("dark", fn2 "colors.tonalOffset" "colors.warning.main" Ur);
    ("contrastText", str "#ffffff")]);
  ("error", Node [
    ("main", str "#d41f1c");
    ("light", fn2 "colors.tonalOffset" "colors.error.main" Hr);
    ("dark", fn2 "colors.tonalOffset" "colors.error.main" Ur);
    ("contrastText", fn1 "colors.error.main" Qr)]);
  ("gray", Node [("50", str "#FAFAFA"); ("100", str "#F5F5F5")]);
  ("text", Node [
    ("primary", str "#333333");
    ("secondary", fn2 "colors.tonalOffset" "colors.text.primary" Hr)]);
  ("border", Node [("dark", str "rgba(0,0,0, 0.1)"); ("light", str "#ffffff")]);
  ("responses", Node [
    ("success", Node [
      ("color", alias "colors.success.main");
      ("backgroundColor", fn1 "colors.success.main" (Kr (Some (Num (dec 93 2)))));
      ("tabTextColor", alias "colors.responses.success.color")]);
    ("error", Node [
      ("color", alias "colors.error.main");
      ("backgroundColor", fn1 "colors.error.main" (Kr (Some (Num (dec 93 2)))));
      ("tabTextColor", alias "colors.responses.error.color")]);
    ("redirect", Node [
      ("color", alias "colors.warning.main");
      ("backgroundColor", fn1 "colors.responses.redirect.color" (Kr (Some (Num (dec 9 1)))));
      ("tabTextColor", alias "colors.responses.redirect.color")]);
    ("info", Node [
      ("color", str "#87ceeb");
      ("backgroundColor", fn1 "colors.responses.info.color" (Kr (Some (Num (dec 9 1)))));
      ("tabTextColor", alias "colors.responses.info.color")])]);
  ("http", Node [
    ("get", str "#2F8132"); ("post", str "#186FAF"); ("put", str "#95507c"); ("options", str "#947014");
    ("patch", str "#bf581d"); ("delete", str "#cc3333"); ("basic", str "#707070"); ("link", str "#07818F");
    ("head", str "#A23DAD")])].

Definition Zr_schema : theme := Node [
  ("linesColor", Fun (Read (path_of "colors.tonalOffset") (λ a, Read (path_of "colors.tonalOffset") (λ b,
    Read (path_of "colors.primary.main") (λ m, Done (Hr (Some a) (qr (Some b) (Some m))))))));
  ("defaultDetailsWidth", str "75%");
  ("typeNameColor", alias "colors.text.secondary");
  ("typeTitleColor", alias "schema.typeNameColor");
  ("requireLabelColor", alias "colors.error.main");
  ("labelsTextSize", str "0.9em");
  ("nestingSpacing", str "1em");
  ("nestedBackground", str "#fafafa");
  ("arrow", Node [("size", str "1.1em"); ("color", alias "colors.text.secondary")])].

Definition Zr_typography : theme := Node [
  ("fontSize", str "14px");
  ("lineHeight", str "1.5em");
  ("fontWeightRegular", str "400");
  ("fontWeightBold", str "600");
  ("fontWeightLight", str "300");
  ("fontFamily", str "Roboto, sans-serif");
  ("smoothing", str "antialiased");
  ("optimizeSpeed", Leaf (Bool true));
  ("headings", Node [
    ("fontFamily", str "Montserrat, sans-serif"); ("fontWeight", str "400"); ("lineHeight", str "1.6em")]);
  ("code", Node [
    ("fontSize", str "13px");
    ("fontFamily", str "Courier, monospace");
    ("lineHeight", alias "typography.lineHeight");
    ("fontWeight", alias "typography.fontWeightRegular");
    ("color", str "#e53935");
    ("backgroundColor", str "rgba(38, 50, 56, 0.05)");
    ("wrap", Leaf (Bool false))]);
  ("links", Node [
    ("color", alias "colors.primary.main");
    ("visited", alias "typography.links.color");
    ("hover", fn1 "typography.links.color" (Hr (Some (Num (dec 2 1)))));
    ("textDecoration", str "auto");
    ("hoverTextDecoration", str "auto")])].

Definition Zr_sidebar : theme := Node [
  ("width", str "260px");
  ("backgroundColor", str "#fafafa");
  ("textColor", str "#333333");
  ("activeTextColor", Fun (Read (path_of "sidebar.textColor") (λ t,
    if negb (strict_eq t (Str "#333333"))
    then Read (path_of "sidebar.textColor") (λ t, Done (Some t))
    else Read (path_of "colors.primary.main") (λ m, Done (Some m)))));
  ("groupItems", Node [
    ("activeBackgroundColor", fn1 "sidebar.backgroundColor" (Ur tenth));
    ("activeTextColor", alias "sidebar.activeTextColor");
    ("textTransform", str "uppercase")]);
  ("level1Items", Node [
    ("activeBackgroundColor", fn1 "sidebar.backgroundColor" (Ur (Some (Num (dec 5 2)))));
    ("activeTextColor", alias "sidebar.activeTextColor");
    ("textTransform", str "none")]);
  ("arrow", Node [("size", str "1.5em"); ("color", alias "sidebar.textColor")])].

Definition Zr_rightPanel : theme := Node [
  ("backgroundColor", str "#263238");
  ("width", str "40%");
  ("textColor", str "#ffffff");
  ("servers", Node [
    ("overlay", Node [("backgroundColor", str "#fafafa"); ("textColor", str "#263238")]);
    ("url", Node [("backgroundColor", str "#fff")])])].

Definition Zr : theme := Node [
  ("spacing", Zr_spacing);
  ("breakpoints", Zr_breakpoints);
  ("colors", Zr_colors);
  ("schema", Zr_schema);
  ("typography", Zr_typography);
  ("sidebar", Zr_sidebar);
  ("logo", Node [("maxHeight", alias "sidebar.width"); ("maxWidth", alias "sidebar.width"); ("gutter", str "2px")]);
  ("rightPanel", Zr_rightPanel);
  ("codeBlock", Node [("backgroundColor", fn1 "rightPanel.backgroundColor" (Ur tenth))]);
  ("fab", Node [("backgroundColor", str "#f2f2f2"); ("color", str "#0065FB")])].
End defaults.

(** * Merging *)

Fixpoint child (k : string) (l : list (string * theme)) : option theme :=
  match l with
  | [] => None
  | (k', t) :: l' => if String.eqb k k' then Some t else child k l'
  end.
Fixpoint set_child (k : string) (t : theme) (l : list (string * theme)) : list (string * theme) :=
  match l with
  | [] => [(k, t)]
  | (k', u) :: l' => if String.eqb k k' then (k', t) :: l' else (k', u) :: set_child k t l'
  end.
Definition leaf_truthy (t : theme) : bool := match t with Leaf v => truthy v | _ => true end.

(** [ci(e, n)]: the properties of [n] override those of [e]; objects are merged. *)
Fixpoint ci (e n : theme) : theme :=
  match e, n with
  | Node es, Node ns =>
      Node (fold_left (λ es '(k, v),
        match v with
        | Node _ =>
            let old := match child k es with
                       | Some t => if leaf_truthy t then t else Node []
                       | None => Node []
                       end in
            set_child k (ci old v) es
        | _ => set_child k v es
        end) ns es)
  | _, _ => e
  end.

(** Deprecated names in the page's theme: [menu] for [sidebar], [codeSample] for
    [codeBlock]. *)
Definition rename (old new : string) (l : list (string * theme)) : list (string * theme) :=
  match child old l with
  | Some t =>
      let absent := match child new l with Some u => negb (leaf_truthy u) | None => true end in
      if leaf_truthy t && absent then set_child new t l else l
  | None => l
  end.

(** The theme that is resolved: the page's, without its hook, over the defaults. *)
Definition merged `{MathPow} (user : list (string * theme)) : theme :=
  let user := rename "codeSample" "codeBlock" (rename "menu" "sidebar" user) in
  ci (ci (Node []) Zr) (Node (set_child "extensionsHook" (Leaf Undef) user)).

(** * Resolution *)

(** The values of the getters evaluated so far, by the dotted path of each, and the number
    of evaluations. *)
Record memo : Type := Memo { values : gmap string value; evals : Z }.

Inductive outcome (A : Type) : Type :=
  | Ok (a : A) (m : memo)
  | Throw
  | NoFuel.
Arguments Ok {A} a m.
Arguments Throw {A}.
Arguments NoFuel {A}.

(** The bound on evaluations, which is taken for a circular dependency. *)
Definition max_evals : Z := 1000.

(** A property of data. *)
Definition get_path (v : value) (path : list string) : expr :=
  fold_left (λ (e : expr) (k : string), member e k) path (Some v).

Section resolution.
Context (root : theme).

(** Reading a path of the theme; a function on it is a getter, evaluated by [force]. A
    function that reads a whole object is outside the model: it throws. *)
Fixpoint walk (force : string → prog → memo → outcome value) (t : theme) (prefix path : list string)
    (m : memo) : outcome value :=
  match t with
  | Leaf v => match get_path v path with Some w => Ok w m | None => Throw end
  | Fun f =>
      match force (join "." prefix) f m with
      | Ok v m' => match get_path v path with Some w => Ok w m' | None => Throw end
      | o => o
      end
  | Node l =>
      match path with
      | [] => Throw
      | k :: path' =>
          match child k l with
          | Some t' => walk force t' (prefix ++ [k]) path' m
          | None => match get_path Undef path' with Some w => Ok w m | None => Throw end
          end
      end
  end.

(** The body of a getter. *)
Fixpoint run (read : list string → memo → outcome value) (p : prog) (m : memo) : outcome value :=
  match p with
  | Done (Some v) => Ok v m
  | Done None => Throw
  | Read path k => match read path m with Ok v m' => run read (k v) m' | o => o end
  end.

(** A getter: its recorded value if that is truthy, otherwise one more evaluation. *)
Fixpoint force (fuel : nat) (key : string) (f : prog) (m : memo) : outcome value :=
  match fuel with
  | O => NoFuel
  | S fuel =>
      let recorded := default Undef (values m !! key) in
      if truthy recorded then Ok recorded m
      else
        let n := evals m + 1 in
        if max_evals <? n then Throw
        else
          match run (λ path m, walk (force fuel) root [] path m) f (Memo (values m) n) with
          | Ok v m' => Ok v (Memo (<[key := v]> (values m')) (evals m'))
          | o => o
          end
  end.

(** [JSON.parse(JSON.stringify(v))]; undefined disappears. *)
Definition json (v : value) : option value :=
  match v with
  | Undef => None
  | Num x => Some (match x with S754_nan | S754_infinity _ => Null | _ => v end)
  | _ => Some v
  end.

(** The whole theme as data: every getter is read, in order. *)
Fixpoint resolve (fuel : nat) (t : theme) (prefix : list string) (m : memo) : outcome (option value) :=
  match t with
  | Leaf v => Ok (json v) m
  | Fun f => match force fuel (join "." prefix) f m with
             | Ok v m' => Ok (json v) m'
             | Throw => Throw
             | NoFuel => NoFuel
             end
  | Node l =>
      (fix go (l : list (string * theme)) (acc : list (string * value)) (m : memo) : outcome (option value) :=
         match l with
         | [] => Ok (Some (Obj acc)) m
         | (k, t') :: l' =>
             match resolve fuel t' (prefix ++ [k]) m with
             | Ok (Some v) m' => go l' (acc ++ [(k, v)]) m'
             | Ok None m' => go l' acc m'
             | o => o
             end
         end) l [] m
  end.
End resolution.

(** Evaluations nest at most as deep as their number allows. *)
Definition resolve_fuel : nat := 1002.
(** The walk that first turns the functions into getters throws at a null, an object by its
    [typeof], whose keys it asks for. *)
Fixpoint has_null (v : value) : bool :=
  match v with
  | Null => true
  | Arr l => existsb has_null l
  | Obj l => existsb (λ kv, has_null kv.2) l
  | _ => false
  end.
Fixpoint getters_set (t : theme) : bool :=
  match t with
  | Leaf v => negb (has_null v)
  | Fun _ => true
  | Node l => forallb (λ kt, getters_set kt.2) l
  end.
Definition resolveTheme (t : theme) : option value :=
  if negb (getters_set t) then None
  else
    match resolve t resolve_fuel t [] (Memo ∅ 0) with
    | Ok (Some v) _ => Some v
    | _ => None
    end.

(** * The default theme, resolved *)

(** A concrete [Math.pow] for the one exponent that is used, [2.4]: the fifth root of the
    twelfth power, to eighty binary digits. *)
Fixpoint root5 (bits : nat) (target acc : Z) : Z :=
  match bits with
  | O => acc
  | S b =>
      let acc' := acc + 2 ^ Z.of_nat b in
      root5 b target (if acc' ^ 5 <=? target then acc' else acc)
  end.
Definition pow_24 : MathPow := λ x _,
  let '(n, d) := f64_ratio x in
  match root5 100 (n ^ 12 * 2 ^ 400 / Zpos d ^ 12) 0 with
  | Zpos r => f64_of_ratio false r (2 ^ 80)
  | _ => f64_zero
  end.
