(* ===== verification/RedocThemeLaws.v ===== *)
(** Correctness of the resolution of themes: it always ends within its bound, and the
    values it records while it goes are those that the functions have without any record
    (a relation that evaluates them anew at every read). *)
From S2P Require Import Prelude GoStrings.
From S2P Require Import Float64 JsNumber JsValue RedocColor RedocTheme.
Local Open Scope Z_scope.

(** * Termination *)

(** An evaluation that starts at [lo] evaluations or more ends, and counts upwards. *)
Definition ends {A} (o : outcome A) (m : memo) : Prop :=
  match o with NoFuel => False | Ok _ m' => evals m ≤ evals m' | Throw => True end.

Section termination.
Context (root : theme).

Lemma walk_ends frc t prefix path m :
  (∀ key f, ends (frc key f m) m) → ends (walk frc t prefix path m) m.
Proof.
  intros Hf. revert t prefix. induction path as [|k path IH]; intros [v|f|l] prefix; cbn [walk].
  - destruct (get_path v []); cbn; [lia|done].
  - pose proof (Hf (join "." prefix) f) as H. destruct (frc _ _ _); try done; by case_match.
  - done.
  - destruct (get_path v _); cbn; [lia|done].
  - pose proof (Hf (join "." prefix) f) as H. destruct (frc _ _ _); try done; by case_match.
  - destruct (child k l); [apply IH|]. destruct (get_path Undef path); cbn; [lia|done].
Qed.

Lemma run_ends read lo p m :
  (∀ path m, lo ≤ evals m → ends (read path m) m) → lo ≤ evals m → ends (run read p m) m.
Proof.
  intros Hr. revert m. induction p as [[v|]|path k IH]; intros m Hm; cbn [run]; try done.
  - cbn. lia.
  - pose proof (Hr path m Hm) as H. destruct (read path m) as [v m'| |]; cbn in H; try done.
    specialize (IH v m' ltac:(lia)). destruct (run read (k v) m'); cbn in *; try done. lia.
Qed.

Lemma force_ends fuel key f m :
  max_evals - evals m < Z.of_nat fuel → (0 < fuel)%nat → ends (force root fuel key f m) m.
Proof.
  revert key f m. induction fuel as [|fuel IH]; intros key f m Hf H0; [lia|]. cbn [force].
  case_match; [cbn; lia|]. destruct (Z.ltb_spec max_evals (evals m + 1)); [done|].
  assert (ends (run (λ path m, walk (force root fuel) root [] path m) f (Memo (values m) (evals m + 1)))
    (Memo (values m) (evals m + 1))) as Hr.
  { apply (run_ends _ (evals m + 1)); [|cbn; lia]. intros path m' Hm'.
    apply walk_ends. intros key' f'. apply IH; lia. }
  destruct (run _ f _); cbn in *; try done. lia.
Qed.

Lemma theme_nested_ind (P : theme → Prop) :
  (∀ v, P (Leaf v)) → (∀ f, P (Fun f)) → (∀ l, Forall (λ kt, P kt.2) l → P (Node l)) → ∀ t, P t.
Proof.
  intros HL HF HN. fix IH 1. intros [v|f|l]; [apply HL|apply HF|]. apply HN.
  induction l as [|[k t] l IHl]; constructor; [apply IH|done].
Qed.

(** The fields of an object, one after the other. *)
Fixpoint resolve_fields (fuel : nat) (prefix : list string) (l : list (string * theme))
    (acc : list (string * value)) (m : memo) : outcome (option value) :=
  match l with
  | [] => Ok (Some (Obj acc)) m
  | (k, t) :: l' =>
      match resolve root fuel t (prefix ++ [k]) m with
      | Ok (Some v) m' => resolve_fields fuel prefix l' (acc ++ [(k, v)]) m'
      | Ok None m' => resolve_fields fuel prefix l' acc m'
      | o => o
      end
  end.
Lemma resolve_Node fuel prefix l m :
  resolve root fuel (Node l) prefix m = resolve_fields fuel prefix l [] m.
Proof.
  cbn [resolve].
  match goal with
  | |- ?go l [] m = _ => enough (∀ acc m, go l acc m = resolve_fields fuel prefix l acc m) as H by apply H
  end.
  clear m. induction l as [|[k t] l IH]; intros acc m; [done|]. cbn [resolve_fields].
  destruct (resolve root fuel t (prefix ++ [k]) m) as [[v|] m'| |]; [apply IH|apply IH|done|done].
Qed.

Lemma resolve_ends fuel t prefix m :
  max_evals - evals m < Z.of_nat fuel → (0 < fuel)%nat → ends (resolve root fuel t prefix m) m.
Proof.
  revert prefix m. induction t as [v|f|l IH] using theme_nested_ind; intros prefix m Hf H0.
  - cbn. lia.
  - cbn [resolve]. pose proof (force_ends fuel (join "." prefix) f m Hf H0) as H. by destruct (force _ _ _ _ _).
  - rewrite resolve_Node. generalize (@nil (string * value)). revert m Hf.
    induction IH as [|[k t] l Ht _ IHl]; intros m Hf acc; [cbn; lia|]. cbn [resolve_fields snd] in *.
    pose proof (Ht (prefix ++ [k]) m Hf H0) as H. destruct (resolve _ _ t _ _) as [[v|] m'| |]; cbn in H; try done.
    + specialize (IHl m' ltac:(lia) (acc ++ [(k, v)])). destruct (resolve_fields _ _ _ _ _); cbn in *; try done. lia.
    + specialize (IHl m' ltac:(lia) acc). destruct (resolve_fields _ _ _ _ _); cbn in *; try done. lia.
Qed.
End termination.

(** * Meaning without a record *)

Section meaning.
Context (root : theme).

Inductive runs : prog → value → Prop :=
  | runs_done v : runs (Done (Some v)) v
  | runs_read path k w v : reads root path w → runs (k w) v → runs (Read path k) v
with reads : theme → list string → value → Prop :=
  | reads_leaf v path w : get_path v path = Some w → reads (Leaf v) path w
  | reads_fun f path v w : runs f v → get_path v path = Some w → reads (Fun f) path w
  | reads_child k l t path w : child k l = Some t → reads t path w → reads (Node l) (k :: path) w
  | reads_missing k l path w : child k l = None → get_path Undef path = Some w → reads (Node l) (k :: path) w.

Scheme runs_mut := Induction for runs Sort Prop
  with reads_mut := Induction for reads Sort Prop.
Combined Scheme runs_reads_ind from runs_mut, reads_mut.

(** The data a theme stands for. *)
Inductive resolved : theme → option value → Prop :=
  | resolved_leaf v : resolved (Leaf v) (json v)
  | resolved_fun f v : runs f v → resolved (Fun f) (json v)
  | resolved_node l fs : resolved_list l fs → resolved (Node l) (Some (Obj fs))
with resolved_list : list (string * theme) → list (string * value) → Prop :=
  | resolved_nil : resolved_list [] []
  | resolved_some k t v l fs :
      resolved t (Some v) → resolved_list l fs → resolved_list ((k, t) :: l) ((k, v) :: fs)
  | resolved_none k t l fs : resolved t None → resolved_list l fs → resolved_list ((k, t) :: l) fs.

(** A function has one value. *)
Lemma runs_reads_det :
  (∀ p v, runs p v → ∀ v', runs p v' → v = v') ∧
  (∀ t path w, reads t path w → ∀ w', reads t path w' → w = w').
Proof.
  apply (runs_reads_ind (λ p v _, ∀ v', runs p v' → v = v') (λ t path w _, ∀ w', reads t path w' → w = w')).
  - intros v v' H. by inversion H.
  - intros path k w v _ IHr _ IHk v' H. inversion H as [|? ? w' ? Hr Hk]; subst.
    apply IHr in Hr as <-. by apply IHk.
  - intros v path w Hg w' H. inversion H; congruence.
  - intros f path v w _ IH Hg w' H. inversion H as [|? ? v' ? Hr Hg'| |]; subst.
    apply IH in Hr as <-. congruence.
  - intros k l t path w Hc _ IH w' H. inversion H; [|congruence].
    apply IH. congruence.
  - intros k l path w Hc Hg w' H. inversion H; congruence.
Qed.

Scheme resolved_mut := Induction for resolved Sort Prop
  with resolved_list_mut := Induction for resolved_list Sort Prop.
Combined Scheme resolved_both_ind from resolved_mut, resolved_list_mut.

Lemma resolved_det :
  (∀ t o, resolved t o → ∀ o', resolved t o' → o = o') ∧
  (∀ l fs, resolved_list l fs → ∀ fs', resolved_list l fs' → fs = fs').
Proof.
  apply (resolved_both_ind (λ t o _, ∀ o', resolved t o' → o = o') (λ l fs _, ∀ fs', resolved_list l fs' → fs = fs')).
  - intros v o' H. by inversion H.
  - intros f v Hv o' H. inversion H as [|? v' Hv'|]; subst. f_equal. by eapply (proj1 runs_reads_det).
  - intros l fs _ IH o' H. inversion H; subst. do 2 f_equal. by apply IH.
  - intros fs' H. by inversion H.
  - intros k t v l fs _ IHt _ IHl fs' H. inversion H as [|? ? v' ? ? Ht Hl|? ? ? ? Ht Hl]; subst.
    + apply IHt in Ht. simplify_eq. f_equal. by apply IHl.
    + by apply IHt in Ht.
  - intros k t l fs _ IHt _ IHl fs' H. inversion H as [|? ? v' ? ? Ht Hl|? ? ? ? Ht Hl]; subst.
    + by apply IHt in Ht.
    + by apply IHl.
Qed.

(** * The record *)

(** The part of a theme at a path. *)
Fixpoint at_path (t : theme) (path : list string) : option theme :=
  match path with
  | [] => Some t
  | k :: path' => match t with Node l => t' ← child k l; at_path t' path' | _ => None end
  end.

Lemma at_path_app t p q : at_path t (p ++ q) = t' ← at_path t p; at_path t' q.
Proof.
  revert t. induction p as [|k p IH]; intros t; [done|]. destruct t as [| |l]; try done.
  cbn. destruct (child k l); [apply IH|done].
Qed.

(** No name has a point, so that a dotted path determines the path, and the names of an
    object differ. *)
Fixpoint well_named (t : theme) : bool :=
  match t with
  | Node l =>
      forallb (λ '(k, u), negb (contains_byte "." k) && well_named u) l && bool_decide (NoDup (map fst l))
  | _ => true
  end.

Lemma well_named_fields l :
  well_named (Node l) = true →
  forallb (λ '(k, u), negb (contains_byte "." k) && well_named u) l = true ∧ NoDup (map fst l).
Proof. cbn. intros [? ?%bool_decide_eq_true]%andb_true_iff. done. Qed.

Lemma child_well_named k l t :
  well_named (Node l) = true → child k l = Some t → contains_byte "." k = false ∧ well_named t = true.
Proof.
  intros [Hw _]%well_named_fields. revert Hw.
  induction l as [|[k' u] l IH]; [done|]. cbn [forallb child].
  intros [[Hk Hu]%andb_true_iff Hl]%andb_true_iff H. destruct (String.eqb_spec k k') as [->|]; [|auto].
  simplify_eq. by apply negb_true_iff in Hk.
Qed.

Lemma at_path_well_named t path u :
  well_named t = true → at_path t path = Some u →
  Forall (λ k, contains_byte "." k = false) path ∧ well_named u = true.
Proof.
  revert t. induction path as [|k path IH]; intros t Ht H; [by simplify_eq/=|].
  destruct t as [| |l]; try done. cbn in H. apply bind_Some in H as (t' & Hc & H).
  destruct (child_well_named _ _ _ Ht Hc) as [? ?]. destruct (IH t') as [? ?]; auto.
Qed.

Lemma key_injective p q f g :
  well_named root = true → at_path root p = Some (Fun f) → at_path root q = Some (Fun g) →
  p ≠ [] → q ≠ [] → join "." p = join "." q → f = g.
Proof.
  intros Hr Hp Hq Hp0 Hq0 E.
  destruct (at_path_well_named _ _ _ Hr Hp) as [Hp' _]. destruct (at_path_well_named _ _ _ Hr Hq) as [Hq' _].
  apply (f_equal (split_byte ".")) in E. rewrite !split_join in E by done. congruence.
Qed.

(** Every recorded value is that of the getter at its path. *)
Definition memo_ok (m : memo) : Prop :=
  ∀ key v, values m !! key = Some v →
  ∃ path f, path ≠ [] ∧ key = join "." path ∧ at_path root path = Some (Fun f) ∧ runs f v.

Definition sound (frc : string → prog → memo → outcome value) : Prop :=
  ∀ path f m v m', path ≠ [] → at_path root path = Some (Fun f) → memo_ok m →
  frc (join "." path) f m = Ok v m' → runs f v ∧ memo_ok m'.

Hypothesis root_names : well_named root = true.
Hypothesis root_object : ∀ f, root ≠ Fun f.

Lemma child_app k t l1 l2 : k ∉ map fst l1 → child k (l1 ++ (k, t) :: l2) = Some t.
Proof.
  induction l1 as [|[k' u] l1 IH]; cbn.
  - by rewrite String.eqb_refl.
  - rewrite not_elem_of_cons. intros [? ?]. destruct (String.eqb_spec k k'); [done|auto].
Qed.

Lemma prefix_nonempty p f : at_path root p = Some (Fun f) → p ≠ [].
Proof. intros H ->. injection H as H. by apply (root_object f). Qed.

Lemma walk_sound frc t prefix path m w m' :
  sound frc → at_path root prefix = Some t → memo_ok m →
  walk frc t prefix path m = Ok w m' → reads t path w ∧ memo_ok m'.
Proof.
  intros Hs. revert t prefix. induction path as [|k path IH]; intros t prefix Ht Hm H;
    destruct t as [v|f|l]; cbn [walk] in H.
  - destruct (get_path v []) eqn:Hg; simplify_eq. split; [by constructor|done].
  - destruct (frc _ _ _) as [v m1| |] eqn:E; try done. destruct (get_path v _) eqn:Hg; simplify_eq.
    apply Hs in E as [? ?]; [|by eapply prefix_nonempty|done|done]. split; [by econstructor|done].
  - done.
  - destruct (get_path v _) eqn:Hg; simplify_eq. split; [by constructor|done].
  - destruct (frc _ _ _) as [v m1| |] eqn:E; try done. destruct (get_path v _) eqn:Hg; simplify_eq.
    apply Hs in E as [? ?]; [|by eapply prefix_nonempty|done|done]. split; [by econstructor|done].
  - destruct (child k l) as [t'|] eqn:Hc.
    + apply IH in H as [? ?]; [split; [by econstructor|done]| |done].
      rewrite at_path_app, Ht. cbn. by rewrite Hc.
    + destruct (get_path Undef path) eqn:Hg; simplify_eq. split; [by apply reads_missing|done].
Qed.

Lemma run_sound read p m v m' :
  (∀ path m w m', memo_ok m → read path m = Ok w m' → reads root path w ∧ memo_ok m') →
  memo_ok m → run read p m = Ok v m' → runs p v ∧ memo_ok m'.
Proof.
  intros Hr. revert m. induction p as [[u|]|path k IH]; intros m Hm H; cbn [run] in H; try done.
  - simplify_eq. split; [constructor|done].
  - destruct (read path m) as [w m1| |] eqn:E; try done. apply Hr in E as [? ?]; [|done].
    apply IH in H as [? ?]; [|done]. split; [by econstructor|done].
Qed.

Lemma force_sound fuel : sound (force root fuel).
Proof.
  induction fuel as [|fuel IH]; intros path f m v m' Hp Hat Hm H; [done|]. cbn [force] in H.
  destruct (truthy (default Undef (values m !! join "." path))) eqn:Hv.
  - simplify_eq. split; [|done]. destruct (values m' !! join "." path) as [u|] eqn:E; [|done].
    destruct (Hm _ _ E) as (q & g & Hq & Ek & Hg & Hu).
    by rewrite (key_injective path q f g).
  - case_match; [done|]. destruct (run _ f _) as [u m1| |] eqn:E; try done. simplify_eq.
    apply run_sound in E as [Hf Hm1]; [| |done].
    + split; [done|]. intros key w Hw. cbn in Hw. destruct (decide (key = join "." path)) as [->|].
      * rewrite lookup_insert_eq in Hw. simplify_eq. by exists path, f.
      * rewrite lookup_insert_ne in Hw by done. by apply Hm1.
    + intros path' m2 w m3 Hm2 Hw. eapply (walk_sound _ _ [] _ m2); [exact IH|done|done|exact Hw].
Qed.

Lemma resolve_sound fuel t prefix m o m' :
  at_path root prefix = Some t → memo_ok m →
  resolve root fuel t prefix m = Ok o m' → resolved t o ∧ memo_ok m'.
Proof.
  revert prefix m o m'. induction t as [v|f|l IH] using theme_nested_ind; intros prefix m o m' Hat Hm H.
  - cbn in H. simplify_eq. split; [constructor|done].
  - cbn [resolve] in H. destruct (force _ _ _ _ _) as [v m1| |] eqn:E; try done. simplify_eq.
    apply force_sound in E as [? ?]; [|by eapply prefix_nonempty|done|done]. split; [by constructor|done].
  - rewrite resolve_Node in H.
    pose proof (at_path_well_named _ _ _ root_names Hat) as [_ [_ Hnd]%well_named_fields].
    enough (∀ l' before acc m o, l = before ++ l' → memo_ok m →
      resolve_fields root fuel prefix l' acc m = Ok o m' →
      ∃ fs, o = Some (Obj (acc ++ fs)) ∧ resolved_list l' fs ∧ memo_ok m') as Hgo.
    { destruct (Hgo l [] [] m o eq_refl Hm H) as (fs & -> & ? & ?). split; [by constructor|done]. }
    clear o H m Hm. induction l' as [|[k t] l' IHl]; intros before acc m o -> Hm H; cbn [resolve_fields] in H.
    { simplify_eq. exists []. rewrite app_nil_r. split; [done|]. split; [constructor|done]. }
    rewrite Forall_app, Forall_cons in IH. destruct IH as (_ & Ht & _).
    assert (at_path root (prefix ++ [k]) = Some t) as Hatk.
    { rewrite at_path_app, Hat. cbn. rewrite child_app; [done|].
      rewrite map_app in Hnd. cbn in Hnd. apply NoDup_app in Hnd as (_ & Hnd & _). set_solver. }
    destruct (resolve root fuel t (prefix ++ [k]) m) as [[v|] m1| |] eqn:E; try done.
    + apply Ht in E as [? Hm1]; [|done..].
      destruct (IHl (before ++ [(k, t)]) _ m1 o ltac:(by rewrite <-app_assoc) Hm1 H) as (fs & -> & ? & ?).
      exists ((k, v) :: fs). rewrite <-app_assoc. split; [done|]. split; [by constructor|done].
    + apply Ht in E as [? Hm1]; [|done..].
      destruct (IHl (before ++ [(k, t)]) _ m1 o ltac:(by rewrite <-app_assoc) Hm1 H) as (fs & -> & ? & ?).
      exists fs. split; [done|]. split; [by constructor|done].
Qed.
End meaning.
