(* ===== verification/CssBalance.v ===== *)
(** Braces of style sheets: when the braces of a text are balanced, that this is kept by
    every operator an interpolation is made of as long as the theme and the
    properties have no braces in their texts, and the tactic that proves it of a
    template. *)
From S2P Require Import Prelude GoStrings.
From S2P Require Import Float64 JsNumber JsRegExp JsValue StyledComponents StyledLaws RedocColor.
From Stdlib Require Import SpecFloat.

(** * Balanced texts *)

(** The depth of blocks after a text that starts at depth [d]; [None] when it closes a
    block that is not open. *)
Fixpoint braces (d : nat) (s : string) : option nat :=
  match s with
  | EmptyString => Some d
  | String a s' =>
      if Ascii.eqb a "{" then braces (S d) s'
      else if Ascii.eqb a "}" then match d with O => None | S d' => braces d' s' end
      else braces d s'
  end.
Definition balanced (s : string) : bool := bool_decide (braces 0 s = Some 0).

Definition not_brace (a : ascii) : bool := negb (Ascii.eqb a "{" || Ascii.eqb a "}").
Definition no_braces (s : string) : bool := string_all not_brace s.

Lemma braces_app d s t : braces d (s +:+ t) = d' ← braces d s; braces d' t.
Proof.
  revert d. induction s as [|a s IH]; intros d; [done|]. rewrite string_app_cons. cbn [braces].
  repeat case_match; rewrite ?IH; done.
Qed.

Lemma braces_deeper d s d' k : braces d s = Some d' → braces (d + k) s = Some (d' + k).
Proof.
  revert d. induction s as [|a s IH]; intros d H; cbn [braces] in *; [by simplify_eq|].
  repeat case_match; simplify_eq/=; try by apply (IH (S d)).
  - by apply IH.
  - by apply IH.
Qed.

Lemma balanced_braces s d : balanced s = true → braces d s = Some d.
Proof. intros H%bool_decide_eq_true. by apply (braces_deeper 0 s 0 d). Qed.

Lemma balanced_spec s : balanced s = true ↔ braces 0 s = Some 0.
Proof. apply bool_decide_eq_true. Qed.

Lemma balanced_app s t : balanced s = true → balanced t = true → balanced (s +:+ t) = true.
Proof.
  intros Hs%balanced_spec Ht. apply balanced_spec. rewrite braces_app, Hs. by apply balanced_braces.
Qed.

Lemma braces_skip s t d : balanced s = true → braces d (s +:+ t) = braces d t.
Proof. intros H. by rewrite braces_app, (balanced_braces s d). Qed.

Lemma braces_tail s t u : (∀ d, braces d t = braces d u) → ∀ d, braces d (s +:+ t) = braces d (s +:+ u).
Proof. intros H d. rewrite !braces_app. by apply option_bind_ext_fun. Qed.

Lemma no_braces_balanced s : no_braces s = true → balanced s = true.
Proof.
  intros H. apply balanced_spec. induction s as [|a s IH]; [done|]. cbn in *.
  unfold not_brace in H. destruct (Ascii.eqb a "{"), (Ascii.eqb a "}"); simpl in H; try done. by apply IH.
Qed.

Lemma no_braces_app s t : no_braces (s +:+ t) = no_braces s && no_braces t.
Proof. apply string_all_app. Qed.

Lemma number_no_braces x : no_braces (number_to_string x) = true.
Proof.
  apply number_to_string_all; [|done]. intros d Hd.
  assert (d = 0 ∨ d = 1 ∨ d = 2 ∨ d = 3 ∨ d = 4 ∨ d = 5 ∨ d = 6 ∨ d = 7 ∨ d = 8 ∨ d = 9 ∨ d = 10 ∨
    d = 11 ∨ d = 12 ∨ d = 13 ∨ d = 14 ∨ d = 15)%Z as Hx by lia. by destruct_or! Hx; subst.
Qed.

(** * Values without braces *)

Fixpoint clean (v : value) : bool :=
  match v with
  | Str s => no_braces s
  | Arr l => forallb clean l
  | Obj l => forallb (λ '(k, u), no_braces k && clean u) l
  | _ => true
  end.

Lemma no_braces_join sep l : no_braces sep = true → Forall (λ s, no_braces s = true) l → no_braces (join sep l) = true.
Proof.
  intros Hs H. induction H as [|s [|t l] Hx _ IH]; [done|done|].
  change (no_braces (s +:+ (sep +:+ join sep (t :: l))) = true). by rewrite !no_braces_app, Hx, Hs, IH.
Qed.

Lemma clean_to_string v : clean v = true → no_braces (to_string v) = true.
Proof.
  induction v as [v Ha Ho|l IH|l IH] using value_nested_ind; intros Hv; [| |done].
  - destruct v as [| |[]|x|s|l|l]; try done; [apply number_no_braces|by destruct (Ha l)].
  - cbn in *. apply no_braces_join; [done|]. induction IH as [|v l Hx _ IHl]; [constructor|].
    cbn in *. apply andb_true_iff in Hv as [Hv Hl]. constructor; [|auto]. destruct (is_nullish v); auto.
Qed.

Lemma field_clean k l : clean (Obj l) = true → clean (default Undef (field k l)) = true.
Proof.
  induction l as [|[k' v] l IH]; cbn; [done|]. intros [[_ Hv]%andb_true_iff Hl]%andb_true_iff.
  destruct (String.eqb k k'); [done|auto].
Qed.

Lemma field_imap_clean k (name : nat → string) l :
  forallb clean l = true → clean (default Undef (field k (imap (λ i u, (name i, u)) l))) = true.
Proof.
  revert name. induction l as [|v l IH]; intros name; cbn; [done|]. intros [Hv Hl]%andb_true_iff.
  case_match; [done|]. by apply (IH (name ∘ S)).
Qed.

Lemma get_clean v k w : clean v = true → get v k = Some w → clean w = true.
Proof.
  destruct v as [| |b|x|s|l|l]; intros Hv H; try done; injection H as <-; try done.
  - by apply (field_imap_clean k (λ i, decimal (Z.of_nat i))).
  - by apply field_clean.
Qed.

Section trimming.
Variable P : ascii → bool.
Lemma string_all_skip s : string_all P s = true → string_all P (skip_spaces s) = true.
Proof. induction s as [|a s IH]; cbn; [done|]. intros [? ?]%andb_true_iff. case_match; cbn; auto using andb_true_intro. Qed.
Lemma string_all_trim s : string_all P s = true → string_all P (trim_spaces_right s) = true.
Proof.
  induction s as [|a s IH]; cbn; [done|]. intros [Ha Hs]%andb_true_iff. specialize (IH Hs).
  destruct (trim_spaces_right s); [case_match; cbn; by rewrite ?Ha|]. cbn [string_all]. by rewrite Ha.
Qed.
End trimming.

Lemma lower_no_brace a : is_upper a = true → not_brace (to_lower_byte a) = true.
Proof. by destruct a as [[] [] [] [] [] [] [] []]. Qed.

Lemma no_braces_cons a s : no_braces (String a s) = not_brace a && no_braces s.
Proof. done. Qed.

Lemma hyphens_no_braces s : no_braces s = true → no_braces (hyphens s) = true.
Proof.
  induction s as [|a s IH]; [done|]. rewrite no_braces_cons. intros [Ha Hs]%andb_true_iff.
  cbn [hyphens]. destruct (is_upper a) eqn:Hu; rewrite !no_braces_cons, IH by done.
  - by rewrite lower_no_brace.
  - by rewrite Ha.
Qed.

Lemma qo_no_braces s : no_braces s = true → no_braces (qo s) = true.
Proof.
  intros H. unfold qo. case_match; [done|]. cbn zeta. pose proof (hyphens_no_braces s H).
  case_match; [|done]. rewrite no_braces_app. by apply string_all_drop.
Qed.

Lemma declared_no_braces k v : clean v = true → no_braces (declared k v) = true.
Proof.
  intros H. assert (no_braces (trim_spaces_right (skip_spaces (to_string v))) = true) as Ht.
  { apply string_all_trim, string_all_skip, clean_to_string, H. }
  destruct v; try done. cbn. case_match; [apply number_no_braces|]. by rewrite no_braces_app, number_no_braces.
Qed.

Definition glued (l : list string) : string := foldr (λ s t, s +:+ t) "" l.

Lemma glued_app l1 l2 : glued (l1 ++ l2) = glued l1 +:+ glued l2.
Proof.
  unfold glued. induction l1 as [|s l1 IH]; [done|]. cbn [foldr app]. by rewrite IH, string_app_assoc.
Qed.

(** The declarations of an object are balanced: each nested block is closed. *)
Lemma objToCss_balanced v : clean v = true →
  balanced (glued (objToCss None v)) = true ∧
  ∀ n, no_braces n = true → balanced (glued (objToCss (Some n) v)) = true.
Proof.
  induction v as [v Ha Ho|l IH|l IH] using value_nested_ind; intros Hv.
  - destruct v; try done. exfalso. by eapply Ho.
  - done.
  - assert (balanced (glued (objToCss None (Obj l))) = true) as Hb.
    { cbn [objToCss] in *. induction IH as [|[k u] l Hu _ IHl]; [done|].
      cbn [clean forallb map List.concat snd] in *.
      apply andb_true_iff in Hv as [[Hk Hc]%andb_true_iff Hl]. rewrite glued_app.
      apply balanced_app; [|auto]. destruct (Vo u); [done|].
      assert (balanced (qo k +:+ ": " +:+ declared k u +:+ ";") = true) as Hd.
      { apply no_braces_balanced. by rewrite !no_braces_app, qo_no_braces, declared_no_braces. }
      destruct u; cbn [glued foldr]; rewrite ?string_app_nil_r; try done. by apply Hu. }
    split; [done|]. intros n Hn. cbn [objToCss] in *. destruct (String.eqb n ""); [done|].
    cbn [glued foldr]. fold (glued). rewrite glued_app.
    apply balanced_spec. rewrite !braces_app.
    rewrite (balanced_braces n 0) by (by apply no_braces_balanced). cbn [mbind option_bind braces Ascii.eqb].
    cbn. by rewrite braces_app, (balanced_braces _ 1).
Qed.

(** The text of a value without braces is balanced. *)
Lemma clean_balanced v : clean v = true → balanced (joined (Wo_data v)) = true.
Proof.
  induction v as [v Ha Ho|l IH|l IH] using value_nested_ind; intros Hv.
  - destruct v as [| |[]|x|s|l|l]; try done.
    + apply no_braces_balanced, number_no_braces.
    + cbn. destruct (String.eqb s ""); [done|]. by apply no_braces_balanced.
    + by destruct (Ha l).
    + by destruct (Ho l).
  - cbn [Wo_data]. rewrite joined_Rules. induction IH as [|v l Hx _ IHl]; [done|].
    cbn in Hv. apply andb_true_iff in Hv as [Hv Hl]. cbn [map List.concat].
    rewrite <-joined_Rules, joined_app, joined_splice. apply balanced_app; [auto|].
    rewrite joined_Rules. auto.
  - change (Wo_data (Obj l)) with (Rules (map (λ s, V (Str s)) (objToCss None (Obj l)))).
    rewrite joined_Rules. replace (foldr _ _ _) with (glued (objToCss None (Obj l))); [by apply objToCss_balanced|].
    generalize (objToCss None (Obj l)). intros ss. unfold glued. induction ss as [|s ss IHs]; [done|].
    cbn [map foldr]. by rewrite IHs.
Qed.

(** * Colours have no braces *)

Lemma digit_not_brace d : (0 ≤ d < 16)%Z → not_brace (digit_char d) = true.
Proof.
  intros Hd.
  assert (d = 0 ∨ d = 1 ∨ d = 2 ∨ d = 3 ∨ d = 4 ∨ d = 5 ∨ d = 6 ∨ d = 7 ∨ d = 8 ∨ d = 9 ∨ d = 10 ∨
    d = 11 ∨ d = 12 ∨ d = 13 ∨ d = 14 ∨ d = 15)%Z as Hx by lia. by destruct_or! Hx; subst.
Qed.

Lemma show_int_no_braces z : no_braces (show_int z) = true.
Proof.
  unfold show_int. rewrite no_braces_app. apply andb_true_intro. split; [by case_match|].
  apply decimal_all, digit_not_brace.
Qed.

Lemma _r_no_braces z : no_braces (_r z) = true.
Proof.
  unfold _r. assert (no_braces ((if (z <? 0)%Z then "-" else "") +:+
    digits 16 (S (Z.to_nat (Z.log2 (Z.abs z)))) (Z.abs z) "") = true) as H.
  { rewrite no_braces_app. apply andb_true_intro. split; [by case_match|].
    apply (digits_all not_brace); [apply digit_not_brace|lia|done]. }
  destruct (String.length _ =? 1)%nat; [|done]. by rewrite no_braces_app, H.
Qed.

Lemma round255_no_braces show e : (∀ z, no_braces (show z) = true) → no_braces (round255 show e) = true.
Proof. intros H. unfold round255. case_match; auto using number_no_braces. Qed.

Lemma Er_no_braces e : no_braces e = true → no_braces (Er e) = true.
Proof.
  unfold Er. do 7 (destruct e as [|? e]; [done|]). destruct e; [|done].
  case_match; [|done]. rewrite !no_braces_cons, !andb_true_iff. naive_solver.
Qed.

Lemma fr_no_braces e t n show :
  (∀ r g b, no_braces (show r g b) = true) → no_braces (fr e t n show) = true.
Proof. intros H. unfold fr. case_match; [done|]. by repeat case_match. Qed.

Lemma jr_no_braces r g b : no_braces (jr r g b) = true.
Proof.
  unfold jr. apply Er_no_braces. unfold Ar.
  by rewrite !no_braces_app, !(round255_no_braces _r) by apply _r_no_braces.
Qed.

Lemma dr_no_braces r g b : no_braces (dr r g b) = true.
Proof.
  unfold dr, pr. by rewrite !no_braces_app, !(round255_no_braces show_int) by apply show_int_no_braces.
Qed.

Lemma Lr_no_braces c : no_braces (Lr c) = true.
Proof.
  unfold Lr. destruct (hsl_alpha c); [case_match|]; try apply fr_no_braces, jr_no_braces.
  by rewrite !no_braces_app, fr_no_braces, number_no_braces by apply dr_no_braces.
Qed.

Lemma Tr_no_braces c a : no_braces (Tr c a) = true.
Proof.
  unfold Tr, Pr. case_match.
  - apply Er_no_braces. by rewrite !no_braces_app, !_r_no_braces.
  - by rewrite !no_braces_app, !show_int_no_braces, number_no_braces.
Qed.

(** * Expressions *)

Definition clean_expr (e : expr) : Prop := ∀ v, e = Some v → clean v = true.
(** A value whose text is balanced. *)
Definition bal_expr (e : expr) : Prop := ∀ v, e = Some v → balanced (joined (Wo_data v)) = true.

Lemma clean_expr_bind (e : expr) (k : value → expr) :
  clean_expr e → (∀ v, clean v = true → clean_expr (k v)) → clean_expr (e ≫= k).
Proof. intros He Hk v H. apply bind_Some in H as (w & Hw & H). by apply (Hk w); auto. Qed.

Lemma clean_expr_any (e : expr) (k : value → expr) :
  (∀ v, clean_expr (k v)) → clean_expr (e ≫= k).
Proof. intros Hk v H. apply bind_Some in H as (w & Hw & H). by apply (Hk w). Qed.

Lemma clean_expr_Some v : clean v = true → clean_expr (Some v).
Proof. by intros ? ? [= <-]. Qed.

Lemma clean_lit s : no_braces s = true → clean_expr (lit s).
Proof. exact (clean_expr_Some (Str s)). Qed.

Lemma clean_member e k : clean_expr e → clean_expr (member e k).
Proof. intros H. apply clean_expr_bind; [done|]. intros v Hv w. by apply get_clean. Qed.

Lemma clean_index e k : clean_expr e → clean_expr (index e k).
Proof.
  intros H. apply clean_expr_bind; [done|]. intros v Hv. apply clean_expr_any. intros i w. by apply get_clean.
Qed.

Lemma clean_ite c a b : clean_expr a → clean_expr b → clean_expr (ite c a b).
Proof. intros ? ?. apply clean_expr_any. intros v. by case_match. Qed.

Lemma clean_and a b : clean_expr a → clean_expr b → clean_expr (and_ a b).
Proof. intros ? ?. apply clean_expr_bind; [done|]. intros v Hv. case_match; [done|by apply clean_expr_Some]. Qed.

Lemma clean_or a b : clean_expr a → clean_expr b → clean_expr (or_ a b).
Proof. intros ? ?. apply clean_expr_bind; [done|]. intros v Hv. case_match; [by apply clean_expr_Some|done]. Qed.

Lemma clean_or_undefined a b : clean_expr a → clean_expr b → clean_expr (or_undefined a b).
Proof. intros ? ?. apply clean_expr_bind; [done|]. intros v Hv. case_match; [done|by apply clean_expr_Some]. Qed.

Lemma clean_add a b : clean_expr a → clean_expr b → clean_expr (add a b).
Proof.
  intros Ha Hb. apply clean_expr_bind; [done|]. intros v Hv. apply clean_expr_bind; [done|]. intros w Hw.
  assert (clean (Str (to_string v +:+ to_string w)) = true) by (cbn; by rewrite no_braces_app, !clean_to_string).
  apply clean_expr_Some. destruct v, w; done.
Qed.

Ltac computed := repeat first [apply clean_expr_any; intros|by intros ? [= <-]].

Lemma clean_not a : clean_expr (not_ a).
Proof. unfold not_. computed. Qed.
Lemma clean_mul a b : clean_expr (mul a b).
Proof. unfold mul. computed. Qed.
Lemma clean_div a b : clean_expr (div a b).
Proof. unfold div. computed. Qed.
Lemma clean_parse_int a : clean_expr (parse_int a).
Proof. unfold parse_int. computed. Qed.

Lemma is_transparent_clean v : is_transparent v = true → clean v = true.
Proof. destruct v; try done. intros H. by apply String.eqb_eq in H as ->. Qed.

Lemma clean_with_hsl f v : clean_expr (with_hsl f v).
Proof.
  intros w. unfold with_hsl. destruct (is_transparent v) eqn:Ht.
  - intros [= <-]. by apply is_transparent_clean.
  - intros (n & _ & [= <-])%bind_Some. apply Lr_no_braces.
Qed.

Lemma clean_Ur e t : clean_expr (Ur e t).
Proof. unfold Ur. do 2 (apply clean_expr_any; intros). apply clean_with_hsl. Qed.
Lemma clean_Hr e t : clean_expr (Hr e t).
Proof. unfold Hr. do 2 (apply clean_expr_any; intros). apply clean_with_hsl. Qed.
Lemma clean_Kr e t : clean_expr (Kr e t).
Proof.
  unfold Kr. do 2 (apply clean_expr_any; intros). destruct (is_transparent _) eqn:Ht.
  - by apply clean_expr_Some, is_transparent_clean.
  - intros w (n & _ & [= <-])%bind_Some. apply Tr_no_braces.
Qed.

(** A text with the braces of a template literal's own texts. *)
Definition template_shape (s : string) (l : list (expr * string)) (v : value) : Prop :=
  ∃ t, v = Str t ∧ ∀ d, braces d t = braces d (s +:+ glued (map snd l)).

Lemma template_no_braces s l v :
  Forall (λ h, clean_expr h.1) l → template s l = Some v → template_shape s l v.
Proof.
  intros H. revert s v. induction H as [|[e t] l He _ IH]; intros s v Hv; cbn in Hv.
  { injection Hv as <-. exists s. split; [done|]. intros d. by rewrite string_app_nil_r. }
  apply bind_Some in Hv as (w & Hw & (r & Hr & [= <-])%bind_Some).
  apply IH in Hr as (u & -> & Hu). eexists. split; [done|].
  apply (braces_tail s). intros d. rewrite braces_skip; [apply Hu|].
  apply no_braces_balanced, clean_to_string. by apply He.
Qed.

Lemma clean_template s l :
  Forall (λ h, clean_expr h.1) l → no_braces (s +:+ glued (map snd l)) = true → clean_expr (template s l).
Proof.
  intros Hl. revert s. induction Hl as [|[e t] l He _ IH]; intros s Hs v Hv.
  { injection Hv as <-. by rewrite no_braces_app, andb_true_r in Hs. }
  cbn in Hv. apply bind_Some in Hv as (w & Hw & (r & Hr & [= <-])%bind_Some).
  change (map snd ((e, t) :: l)) with (t :: map snd l) in Hs. cbn [glued foldr] in Hs.
  rewrite no_braces_app in Hs. apply andb_true_iff in Hs as [Hs Ht].
  cbn. rewrite !no_braces_app, Hs, !clean_to_string; [done| |by apply He].
  by apply (IH t).
Qed.

Lemma clean_bal e : clean_expr e → bal_expr e.
Proof. intros H v Hv. by apply clean_balanced, H. Qed.

Lemma bal_Str t : balanced t = true → balanced (joined (Wo_data (Str t))) = true.
Proof.
  intros H. change (Wo_data (Str t)) with (if String.eqb t "" then V (Str "") else V (Str t)).
  by destruct (String.eqb t "").
Qed.

Lemma bal_lit s : balanced s = true → bal_expr (lit s).
Proof. intros H v [= <-]. by apply bal_Str. Qed.

Lemma bal_falsy v : truthy v = false → balanced (joined (Wo_data v)) = true.
Proof.
  destruct v as [| |[]|x|s|l|l]; try done; intros H.
  - apply no_braces_balanced, number_no_braces.
  - cbn in *. by destruct (String.eqb s "").
Qed.

Lemma bal_expr_bind (e : expr) (k : value → expr) :
  clean_expr e → (∀ v, clean v = true → bal_expr (k v)) → bal_expr (e ≫= k).
Proof. intros He Hk v H. apply bind_Some in H as (w & Hw & H). by apply (Hk w); auto. Qed.

Lemma bal_ite c a b : bal_expr a → bal_expr b → bal_expr (ite c a b).
Proof. intros ? ? v (w & Hw & H)%bind_Some. case_match; auto. Qed.

Lemma bal_and a b : bal_expr b → bal_expr (and_ a b).
Proof.
  intros ? v (w & Hw & H)%bind_Some. destruct (truthy w) eqn:Ht; [auto|]. simplify_eq. by apply bal_falsy.
Qed.

Lemma bal_or a b : bal_expr a → bal_expr b → bal_expr (or_ a b).
Proof. intros Ha ? v (w & Hw & H)%bind_Some. case_match; simplify_eq; auto. Qed.

Lemma bal_template s l :
  Forall (λ h, clean_expr h.1) l → balanced (s +:+ glued (map snd l)) = true → bal_expr (template s l).
Proof.
  intros Hl Hb v Hv. apply template_no_braces in Hv as (t & -> & Ht); [|done].
  apply bal_Str, balanced_spec. rewrite Ht. by apply balanced_spec.
Qed.

(** * Rules *)

(** The properties, the theme and what the hook answers have no braces. *)
Definition clean_ctx (c : ctx) : Prop :=
  clean (c_props c) = true ∧
  match c_hook c with
  | Some h => ∀ n v, clean v = true → clean_expr (h n v)
  | None => True
  end.

(** A rule whose text, whenever it has one, is balanced. *)
Definition bal_rule (c : ctx) (r : rule) : Prop := ∀ t, text c r = Some t → balanced t = true.
Definition bal_orule (c : ctx) (o : option rule) : Prop := ∀ r, o = Some r → bal_rule c r.

Section rules.
Context (c : ctx) (Hc : clean_ctx c).

Lemma bal_V v : balanced (joined (Wo_data v)) = true → bal_rule c (V v).
Proof. by intros H t [= <-]. Qed.

Lemma bal_Sel id : no_braces id = true → bal_rule c (Sel id).
Proof. intros H t [= <-]. apply no_braces_balanced. by rewrite no_braces_app, H. Qed.

Lemma bal_Key n : no_braces n = true → bal_rule c (Key n).
Proof. intros H t [= <-]. by apply no_braces_balanced. Qed.

Lemma bal_dyn f : (∀ v, clean v = true → bal_expr (f v)) → bal_rule c (dyn f).
Proof.
  intros H t Ht. cbn in Ht. apply bind_Some in Ht as (r & Hr & Ht).
  apply fmap_Some in Hr as (v & Hv & ->). simplify_eq/=. apply (H (c_props c)); [apply Hc|done].
Qed.

Lemma bal_dynr f : (∀ v, clean v = true → bal_orule c (f v)) → bal_rule c (dynr f).
Proof.
  intros H t Ht. cbn in Ht. apply bind_Some in Ht as (r & Hr & Ht).
  eapply (H (c_props c)); [apply Hc|done..].
Qed.

Lemma bal_data e : bal_expr e → bal_orule c (data e).
Proof. intros H r (v & Hv & ->)%fmap_Some. by apply bal_V, H. Qed.

Lemma bal_ret r : bal_rule c r → bal_orule c (ret r).
Proof. by intros H ? [= <-]. Qed.

Lemma bal_oite e a b : bal_orule c a → bal_orule c b → bal_orule c (ite e a b).
Proof. intros ? ? r (v & Hv & H)%bind_Some. case_match; auto. Qed.

Lemma bal_andr e r : bal_orule c r → bal_orule c (andr e r).
Proof.
  intros H r' (v & Hv & Hr)%bind_Some. destruct (truthy v) eqn:Ht; [by apply H|].
  simplify_eq. by apply bal_V, bal_falsy.
Qed.

Lemma bal_orule_bind (e : expr) (k : value → option rule) :
  clean_expr e → (∀ v, clean v = true → bal_orule c (k v)) → bal_orule c (e ≫= k).
Proof. intros He Hk r (v & Hv & H)%bind_Some. eapply Hk; [by apply He|done]. Qed.

(** A rule whose braces are, in every text it has, those of [u]. *)
Definition shaped (r : rule) (u : string) : Prop := ∀ t, text c r = Some t → ∀ d, braces d t = braces d u.

Lemma bal_shaped r : bal_rule c r → shaped r "".
Proof. intros H t Ht d. by apply balanced_braces, H. Qed.

Lemma shaped_bal r u : shaped r u → balanced u = true → bal_rule c r.
Proof. intros H Hu t Ht. apply balanced_spec. rewrite (H t) by done. by apply balanced_spec. Qed.

Lemma shaped_unbalanced r u t : shaped r u → balanced u = false → text c r = Some t → balanced t = false.
Proof.
  intros H Hu Ht. apply not_true_is_false. intros Hb%balanced_spec. rewrite (H t) in Hb by done.
  apply balanced_spec in Hb. congruence.
Qed.

Lemma shaped_dyn_template (f : value → expr) s l :
  (∀ v, clean v = true → ∀ w, f v = Some w → template_shape s l w) →
  shaped (dyn f) (s +:+ glued (map snd l)).
Proof.
  intros H t Ht d. cbn in Ht. apply bind_Some in Ht as (r & Hr & Ht).
  apply fmap_Some in Hr as (v & Hv & ->). destruct (H (c_props c) (proj1 Hc) v Hv) as (u & -> & Hu).
  cbn in Ht. injection Ht as <-. rewrite <-Hu.
  destruct (String.eqb u "") eqn:E; cbn; [|done]. by apply String.eqb_eq in E as ->.
Qed.

(** The interpolations of a template with the braces each contributes. *)
Fixpoint shape (us : list string) (l : list (rule * string)) : string :=
  match us, l with
  | u :: us', (_, t) :: l' => u +:+ (t +:+ shape us' l')
  | _, _ => ""
  end.

Lemma shaped_css s l us :
  Forall2 (λ h u, shaped h.1 u) l us → shaped (css s l) (s +:+ shape us l).
Proof.
  intros Hl t Ht. rewrite text_css in Ht. apply fmap_Some in Ht as (u & Hu & ->).
  apply (braces_tail s). clear s. revert u Hu.
  induction Hl as [|[h s] v l us Hh _ IH]; intros u Hu; [by injection Hu as <-|].
  cbn in Hu. apply bind_Some in Hu as (t & Ht & (w & Hw & [= <-])%bind_Some).
  cbn [shape]. intros d. rewrite !braces_app, (Hh t Ht d). apply option_bind_ext_fun.
  intros d'. by apply (braces_tail s), IH.
Qed.

Lemma bal_css s l :
  Forall (λ h, bal_rule c h.1) l → balanced (s +:+ glued (map snd l)) = true → bal_rule c (css s l).
Proof.
  intros Hl Hb. apply (shaped_bal _ (s +:+ shape (map (λ _, "") l) l)).
  - apply shaped_css. clear Hb. induction Hl as [|[h t] l ? _ IH]; [constructor|].
    constructor; [by apply bal_shaped|done].
  - replace (shape _ l) with (glued (map snd l)); [done|].
    clear. unfold glued. induction l as [|[h t] l IH]; [done|]. cbn [map shape foldr snd]. by rewrite IH.
Qed.
End rules.

Create HintDb css.
#[export] Hint Resolve clean_expr_Some : css.

(** Proves that a template is balanced: interpolation by interpolation, then its own
    texts by computation. *)
Ltac clean_step :=
  match goal with
  | |- clean_expr (Some _) => apply clean_expr_Some; solve [assumption|reflexivity]
  | |- clean_expr (lit _) => apply clean_lit; reflexivity
  | |- clean_expr (num _) => apply clean_expr_Some; reflexivity
  | |- clean_expr (member _ _) => apply clean_member
  | |- clean_expr (index _ _) => apply clean_index
  | |- clean_expr (ite _ _ _) => apply clean_ite
  | |- clean_expr (and_ _ _) => apply clean_and
  | |- clean_expr (or_ _ _) => apply clean_or
  | |- clean_expr (or_undefined _ _) => apply clean_or_undefined
  | |- clean_expr (add _ _) => apply clean_add
  | |- clean_expr (not_ _) => apply clean_not
  | |- clean_expr (mul _ _) => apply clean_mul
  | |- clean_expr (div _ _) => apply clean_div
  | |- clean_expr (parse_int _) => apply clean_parse_int
  | |- clean_expr (Ur _ _) => apply clean_Ur
  | |- clean_expr (Hr _ _) => apply clean_Hr
  | |- clean_expr (Kr _ _) => apply clean_Kr
  | |- clean_expr (template _ _) => apply clean_template; [repeat constructor; cbn [fst]|reflexivity]
  | |- clean_expr (_ ≫= _) => apply clean_expr_bind; [|intros ? ?; cbv zeta]
  | |- clean_expr _ => solve [eauto with css]
  end.
Ltac clean_solve := solve [repeat clean_step].

Ltac bal_step :=
  match goal with
  | |- bal_expr (lit _) => apply bal_lit; vm_compute; reflexivity
  | |- bal_expr (ite _ _ _) => apply bal_ite
  | |- bal_expr (and_ _ _) => apply bal_and
  | |- bal_expr (or_ _ _) => apply bal_or
  | |- bal_expr (template _ _) => apply bal_template; [repeat constructor; cbn [fst]; clean_solve|vm_compute; reflexivity]
  | |- bal_expr (_ ≫= _) => apply bal_expr_bind; [clean_solve|intros ? ?; cbv zeta]
  | |- bal_expr _ => apply clean_bal; clean_solve
  | |- bal_orule _ (ret _) => apply bal_ret
  | |- bal_orule _ (ite _ _ _) => apply bal_oite
  | |- bal_orule _ (andr _ _) => apply bal_andr
  | |- bal_orule _ (data _) => apply bal_data
  | |- bal_orule _ (_ ≫= _) => apply bal_orule_bind; [clean_solve|intros ? ?; cbv zeta]
  | |- bal_rule _ (dyn _) => apply bal_dyn; [assumption|intros ? ?; cbv zeta]
  | |- bal_rule _ (dynr _) => apply bal_dynr; [assumption|intros ? ?; cbv zeta]
  | |- bal_rule _ (V _) => apply bal_V, clean_balanced; solve [assumption|reflexivity]
  | |- bal_rule _ (css _ _) => apply bal_css; [repeat (apply List.Forall_cons; [cbn [fst]|]); [..|apply List.Forall_nil]|vm_compute; reflexivity]
  | H : bal_rule _ ?r |- bal_rule _ ?r => exact H
  end.
Ltac balance := repeat bal_step.
