(* ===== verification/RedocPanels.v ===== *)
(** The style sheets of the loading screen, the panels of the page, the headings, the links
    to sections and the badges of the Redoc bundle, and the helpers every sheet uses: media
    queries (`va`) and the hook of the embedding page (`wa`). Each
    definition is one template of the bundle, under its name there. *)

From S2P Require Import Prelude GoStrings.
From S2P Require Import Float64 JsNumber JsValue StyledComponents RedocColor.

Local Open Scope Z_scope.
Local Open Scope js_scope.

(** The media queries [va]: the sheet in the template is for a screen up to (from, between)
    the named widths of the theme, and for print. *)
Definition va_lessThan (e : string) (t n : value) (s : string) (r : list (rule * string)) : rule :=
  css "
      @media "
    [(V (if truthy t then Str "print, " else Str ""),
      " screen and (max-width: ");
     (dyn (λ: t, index (t ~> "theme" ~> "breakpoints") (lit e)),
      ") ");
     (V (if truthy n then n else Str ""),
      " {
        ");
     (css s r,
      ";
      }
    ")].
Definition va_greaterThan (e : string) (s : string) (t : list (rule * string)) : rule :=
  css "
      @media (min-width: "
    [(dyn (λ: t, index (t ~> "theme" ~> "breakpoints") (lit e)),
      ") {
        ");
     (css s t,
      ";
      }
    ")].
Definition va_between (e t : string) (s : string) (n : list (rule * string)) : rule :=
  css "
      @media (min-width: "
    [(dyn (λ: t, index (t ~> "theme" ~> "breakpoints") (lit e)),
      ") and (max-width: ");
     (dyn (λ: e, index (e ~> "theme" ~> "breakpoints") (lit t)),
      ") {
        ");
     (css s n,
      ";
      }
    ")].

(** [wa]: what the hook of the page answers for a part of the document. *)
Definition wa (e : string) : rule :=
  Fn (λ t,
    theme ← get (c_props t) "theme";
    match theme, c_hook t with
    | (Undef | Null), _ => None
    | _, Some h => data (h e (c_props t))
    | _, None => data undefined
    end).

(** The sizes of headings. *)
Definition Du (e : Z) : value :=
  if e =? 1 then Str "1.85714em" else if e =? 2 then Str "1.57143em"
  else if e =? 3 then Str "1.27em" else Undef.

(** The rotation of an arrow. *)
Definition Ku (e : expr) : expr :=
  v ← e; get (Obj [("left", Str "90deg"); ("right", Str "-90deg"); ("up", Str "-180deg"); ("down", Str "0")]) (to_string v).

(** The attribute that names a section. *)
Definition bf : string := "data-section-id".
Definition attrs_Ru : list attr := [λ c, v ← get (c_props c) "id"; Some [(bf, v)]].

Section styles.
Context `{ids : ComponentIds}.

Definition ka : Styled := styled "ka" "div" (
  css "
  padding: 20px;
  color: red;
" []).

Definition Oa : rule := keyframes "
  0% {
    transform: rotate(0deg); }
  100% {
    transform: rotate(360deg);
  }
" [].

Definition Ea : Styled := styled "Ea" "component Ea" (
  css "
  animation: 2s "
   [(Oa,
     " linear infinite;
  width: 50px;
  height: 50px;
  content: '';
  display: inline-block;
  margin-left: -25px;

  path {
    fill: ");
    (dyn (λ: e, e ~> "color"),
     ";
  }
")]).

Definition _a : Styled := styled "_a" "div" (
  css "
  font-family: helvetica, sans;
  width: 100%;
  text-align: center;
  font-size: 25px;
  margin: 30px 0 20px 0;
  color: "
   [(dyn (λ: e, e ~> "color"),
     ";
")]).

Definition Iu : Styled := styled "Iu" "div" (
  css "
  width: calc(100% - "
   [(dyn (λ: e, e ~> "theme" ~> "rightPanel" ~> "width"),
     ");
  padding: 0 ");
    (dyn (λ: e, e ~> "theme" ~> "spacing" ~> "sectionHorizontal"),
     "px;

  ");
    (dynr (λ: p, let: e := p ~> "$compact" in let: t := p ~> "theme" in (v1 ← template "" [(ite e (num 0) (t ~> "spacing" ~> "sectionVertical"), "px "); (t ~> "spacing" ~> "sectionHorizontal", "px")]; ret (va_lessThan "medium" (Bool true) Undef "
    width: 100%;
    padding: "
        [(V v1,
          ";
  ")]))),
     ";
")]).

Definition Ru : Styled := styled_attrs "Ru" "div" attrs_Ru (
  css "
  padding: "
   [(dyn (λ: e, e ~> "theme" ~> "spacing" ~> "sectionVertical"),
     "px 0;

  &:last-child {
    min-height: calc(100vh + 1px);
  }

  & > &:last-child {
    min-height: initial;
  }

  ");
    (va_lessThan "medium" (Bool true) Undef "
    padding: 0;
  "
      [],
     "
  ");
    (dyn (λ: p, let: e := p ~> "$underlined" in ite e (lit "
    position: relative;

    &:not(:last-of-type):after {
      position: absolute;
      bottom: 0;
      width: 100%;
      display: block;
      content: '';
      border-bottom: 1px solid rgba(0, 0, 0, 0.2);
    }
  ") (lit "")),
     "
")]).

Definition Nu : Styled := styled "Nu" "div" (
  css "
  width: "
   [(dyn (λ: e, e ~> "theme" ~> "rightPanel" ~> "width"),
     ";
  color: ");
    (dyn (λ: p, let: e := p ~> "theme" in e ~> "rightPanel" ~> "textColor"),
     ";
  background-color: ");
    (dyn (λ: e, e ~> "theme" ~> "rightPanel" ~> "backgroundColor"),
     ";
  padding: 0 ");
    (dyn (λ: e, e ~> "theme" ~> "spacing" ~> "sectionHorizontal"),
     "px;

  ");
    (va_lessThan "medium" (Bool true) Undef "
    width: 100%;
    padding: "
      [(dyn (λ: e, template "" [(e ~> "theme" ~> "spacing" ~> "sectionVertical", "px "); (e ~> "theme" ~> "spacing" ~> "sectionHorizontal", "px")]),
        ";
  ")],
     ";
")]).

Definition u_ : Styled := extend "$u" Nu (
  css "
  background-color: "
   [(dyn (λ: e, e ~> "theme" ~> "rightPanel" ~> "backgroundColor"),
     ";
")]).

Definition Lu : Styled := styled "Lu" "div" (
  css "
  display: flex;
  width: 100%;
  padding: 0;

  "
   [(va_lessThan "medium" (Bool true) Undef "
    flex-direction: column;
  "
      [],
     ";
")]).

Definition Mu (e : Z) : rule :=
  css "
  font-family: "
   [(dyn (λ: p, let: e := p ~> "theme" in e ~> "typography" ~> "headings" ~> "fontFamily"),
     ";
  font-weight: ");
    (dyn (λ: p, let: e := p ~> "theme" in e ~> "typography" ~> "headings" ~> "fontWeight"),
     ";
  font-size: ");
    (V (Du e),
     ";
  line-height: ");
    (dyn (λ: p, let: e := p ~> "theme" in e ~> "typography" ~> "headings" ~> "lineHeight"),
     ";
")].

Definition Fu : Styled := styled "Fu" "h1" (
  css "
  "
   [(Mu 1,
     ";
  color: ");
    (dyn (λ: p, let: e := p ~> "theme" in e ~> "colors" ~> "text" ~> "primary"),
     ";

  ");
    (wa "H1",
     ";
")]).

Definition zu : Styled := styled "zu" "h2" (
  css "
  "
   [(Mu 2,
     ";
  color: ");
    (dyn (λ: p, let: e := p ~> "theme" in e ~> "colors" ~> "text" ~> "primary"),
     ";
  margin: 0 0 20px;

  ");
    (wa "H2",
     ";
")]).

Definition Uu : Styled := styled "Uu" "h2" (
  css "
  "
   [(Mu 3,
     ";
  color: ");
    (dyn (λ: p, let: e := p ~> "theme" in e ~> "colors" ~> "text" ~> "primary"),
     ";

  ");
    (wa "H3",
     ";
")]).

Definition Bu : Styled := styled "Bu" "h3" (
  css "
  color: "
   [(dyn (λ: p, let: e := p ~> "theme" in e ~> "rightPanel" ~> "textColor"),
     ";

  ");
    (wa "RightPanelHeader",
     ";
")]).

Definition qu : Styled := styled "qu" "h5" (
  css "
  border-bottom: 1px solid rgba(38, 50, 56, 0.3);
  margin: 1em 0 1em 0;
  color: rgba(38, 50, 56, 0.5);
  font-weight: normal;
  text-transform: uppercase;
  font-size: 0.929em;
  line-height: 20px;

  "
   [(wa "UnderlinedHeader",
     ";
")]).

Definition Gu (e : string) : rule :=
  css "
  "
   [(V (Str e),
     " {
    cursor: pointer;
    margin-left: -20px;
    padding: 0;
    line-height: 1;
    width: 20px;
    display: inline-block;
    outline: 0;
  }
  ");
    (V (Str e),
     ":before {
    content: '';
    width: 15px;
    height: 15px;
    background-size: contain;
    background-image: url('data:image/svg+xml;base64,PHN2ZyB4bWxucz0iaHR0cDovL3d3dy53My5vcmcvMjAwMC9zdmciIHZlcnNpb249IjEuMSIgeD0iMCIgeT0iMCIgd2lkdGg9IjUxMiIgaGVpZ2h0PSI1MTIiIHZpZXdCb3g9IjAgMCA1MTIgNTEyIiBlbmFibGUtYmFja2dyb3VuZD0ibmV3IDAgMCA1MTIgNTEyIiB4bWw6c3BhY2U9InByZXNlcnZlIj48cGF0aCBmaWxsPSIjMDEwMTAxIiBkPSJNNDU5LjcgMjMzLjRsLTkwLjUgOTAuNWMtNTAgNTAtMTMxIDUwLTE4MSAwIC03LjktNy44LTE0LTE2LjctMTkuNC0yNS44bDQyLjEtNDIuMWMyLTIgNC41LTMuMiA2LjgtNC41IDIuOSA5LjkgOCAxOS4zIDE1LjggMjcuMiAyNSAyNSA2NS42IDI0LjkgOTAuNSAwbDkwLjUtOTAuNWMyNS0yNSAyNS02NS42IDAtOTAuNSAtMjQuOS0yNS02NS41LTI1LTkwLjUgMGwtMzIuMiAzMi4yYy0yNi4xLTEwLjItNTQuMi0xMi45LTgxLjYtOC45bDY4LjYtNjguNmM1MC01MCAxMzEtNTAgMTgxIDBDNTA5LjYgMTAyLjMgNTA5LjYgMTgzLjQgNDU5LjcgMjMzLjR6TTIyMC4zIDM4Mi4ybC0zMi4yIDMyLjJjLTI1IDI0LjktNjUuNiAyNC45LTkwLjUgMCAtMjUtMjUtMjUtNjUuNiAwLTkwLjVsOTAuNS05MC41YzI1LTI1IDY1LjUtMjUgOTAuNSAwIDcuOCA3LjggMTIuOSAxNy4yIDE1LjggMjcuMSAyLjQtMS40IDQuOC0yLjUgNi44LTQuNWw0Mi4xLTQyYy01LjQtOS4yLTExLjYtMTgtMTkuNC0yNS44IC01MC01MC0xMzEtNTAtMTgxIDBsLTkwLjUgOTAuNWMtNTAgNTAtNTAgMTMxIDAgMTgxIDUwIDUwIDEzMSA1MCAxODEgMGw2OC42LTY4LjZDMjc0LjYgMzk1LjEgMjQ2LjQgMzkyLjMgMjIwLjMgMzgyLjJ6Ii8+PC9zdmc+Cg==');
    opacity: 0.5;
    visibility: hidden;
    display: inline-block;
    vertical-align: middle;
  }

  h1:hover > ");
    (V (Str e),
     "::before, h2:hover > ");
    (V (Str e),
     "::before, ");
    (V (Str e),
     ":hover::before {
    visibility: visible;
  }
")].

Definition Qu : Styled := styled "Qu" "component Qu" (
  css "
  "
   [(Gu "&",
     ";
")]).

Definition Zu : Styled := styled "Zu" "component Zu" (
  css "
  height: "
   [(dyn (λ: e, or_ (e ~> "size") (lit "18px")),
     ";
  width: ");
    (dyn (λ: e, or_ (e ~> "size") (lit "18px")),
     ";
  min-width: ");
    (dyn (λ: e, or_ (e ~> "size") (lit "18px")),
     ";
  vertical-align: middle;
  float: ");
    (dyn (λ: e, or_ (e ~> "float") (lit "")),
     ";
  transition: transform 0.2s ease-out;
  transform: rotateZ(");
    (dyn (λ: e, Ku (or_ (e ~> "direction") (lit "down"))),
     ");

  polygon {
    fill: ");
    (dyn (λ: p, let: e := p ~> "color" in let: t := p ~> "theme" in or_ (and_ (and_ e (index (t ~> "colors" ~> "responses") e)) ((index (t ~> "colors" ~> "responses") e) ~> "color")) e),
     ";
  }
")]).

Definition Ju : Styled := styled "Ju" "span" (
  css "
  display: inline-block;
  padding: 2px 8px;
  margin: 0;
  background-color: "
   [(dyn (λ: e, (index (e ~> "theme" ~> "colors") (e ~> "type")) ~> "main"),
     ";
  color: ");
    (dyn (λ: e, (index (e ~> "theme" ~> "colors") (e ~> "type")) ~> "contrastText"),
     ";
  font-size: ");
    (dyn (λ: e, e ~> "theme" ~> "typography" ~> "code" ~> "fontSize"),
     ";
  vertical-align: middle;
  line-height: 1.6;
  border-radius: 4px;
  font-weight: ");
    (dyn (λ: p, let: e := p ~> "theme" in e ~> "typography" ~> "fontWeightBold"),
     ";
  font-size: 12px;
  + span[type] {
    margin-left: 4px;
  }
")]).

Definition ep : rule :=
  css "
  text-decoration: line-through;
  color: #707070;
" [].

End styles.
