(* ===== verification/RedocTables.v ===== *)
(** The style sheets of the property tables, their cells and lines, and of the tabs. Each
    definition is one template of the bundle, under its name there. *)

From S2P Require Import Prelude GoStrings.
From S2P Require Import Float64 JsNumber JsValue StyledComponents RedocColor.

From S2P Require Import RedocPanels.

Local Open Scope Z_scope.
Local Open Scope js_scope.

Section styles.
Context `{ids : ComponentIds}.

Definition tp : Styled := styled "tp" "caption" (
  css "
  text-align: right;
  font-size: 0.9em;
  font-weight: normal;
  color: "
   [(dyn (λ: e, e ~> "theme" ~> "colors" ~> "text" ~> "secondary"),
     ";
")]).

Definition np : Styled := styled "np" "td" (
  css "
  border-left: 1px solid "
   [(dyn (λ: e, e ~> "theme" ~> "schema" ~> "linesColor"),
     ";
  box-sizing: border-box;
  position: relative;
  padding: 10px 10px 10px 0;

  ");
    (va_lessThan "small" Undef Undef "
    display: block;
    overflow: hidden;
  "
      [],
     "

  tr:first-of-type > &,
  tr.last > & {
    border-left-width: 0;
    background-position: top left;
    background-repeat: no-repeat;
    background-size: 1px 100%;
  }

  tr:first-of-type > & {
    background-image: linear-gradient(
      to bottom,
      transparent 0%,
      transparent 22px,
      ");
    (dyn (λ: e, e ~> "theme" ~> "schema" ~> "linesColor"),
     " 22px,
      ");
    (dyn (λ: e, e ~> "theme" ~> "schema" ~> "linesColor"),
     " 100%
    );
  }

  tr.last > & {
    background-image: linear-gradient(
      to bottom,
      ");
    (dyn (λ: e, e ~> "theme" ~> "schema" ~> "linesColor"),
     " 0%,
      ");
    (dyn (λ: e, e ~> "theme" ~> "schema" ~> "linesColor"),
     " 22px,
      transparent 22px,
      transparent 100%
    );
  }

  tr.last + tr > & {
    border-left-color: transparent;
  }

  tr.last:first-child > & {
    background: none;
    border-left-color: transparent;
  }
")]).

Definition rp : Styled := extend "rp" np (
  css "
  padding: 0;
" []).

Definition ip : Styled := extend "ip" np (
  css "
  vertical-align: top;
  line-height: 20px;
  white-space: nowrap;
  font-size: 13px;
  font-family: "
   [(dyn (λ: e, e ~> "theme" ~> "typography" ~> "code" ~> "fontFamily"),
     ";

  &.deprecated {
    ");
    (ep,
     ";
  }

  ");
    (dynr (λ: p, let: e := p ~> "kind" in andr (eq_ (lit "patternProperties") e) (ret (css "
      > span.property-name {
        display: inline-table;
        white-space: break-spaces;
        margin-right: 20px;

        ::before,
        ::after {
          content: '/';
          filter: opacity(0.2);
        }
      }
    " []))),
     "

  ");
    (dyn (λ: p, let: e := or_undefined (p ~> "kind") (lit "") in ite (includes [Str "field"; Str "additionalProperties"; Str "patternProperties"] e) (lit "") (lit "font-style: italic")),
     ";

  ");
    (wa "PropertyNameCell",
     ";
")]).

Definition op : Styled := styled "op" "td" (
  css "
  border-bottom: 1px solid #9fb4be;
  padding: 10px 0;
  width: "
   [(dyn (λ: e, e ~> "theme" ~> "schema" ~> "defaultDetailsWidth"),
     ";
  box-sizing: border-box;

  tr.expanded & {
    border-bottom: none;
  }

  ");
    (va_lessThan "small" Undef Undef "
    padding: 0 20px;
    border-bottom: none;
    border-left: 1px solid "
      [(dyn (λ: e, e ~> "theme" ~> "schema" ~> "linesColor"),
        ";

    tr.last > & {
      border-left: none;
    }
  ")],
     "

  ");
    (wa "PropertyDetailsCell",
     ";
")]).

Definition ap : Styled := styled "ap" "span" (
  css "
  color: "
   [(dyn (λ: e, e ~> "theme" ~> "schema" ~> "linesColor"),
     ";
  font-family: ");
    (dyn (λ: e, e ~> "theme" ~> "typography" ~> "code" ~> "fontFamily"),
     ";
  margin-right: 10px;

  &::before {
    content: '';
    display: inline-block;
    vertical-align: middle;
    width: 10px;
    height: 1px;
    background: ");
    (dyn (λ: e, e ~> "theme" ~> "schema" ~> "linesColor"),
     ";
  }

  &::after {
    content: '';
    display: inline-block;
    vertical-align: middle;
    width: 1px;
    background: ");
    (dyn (λ: e, e ~> "theme" ~> "schema" ~> "linesColor"),
     ";
    height: 7px;
  }
")]).

Definition sp : Styled := styled "sp" "div" (
  css "
  padding: "
   [(dyn (λ: p, let: e := p ~> "theme" in e ~> "schema" ~> "nestingSpacing"),
     ";
")]).

Definition lp : Styled := styled "lp" "table" (
  css "
  border-collapse: separate;
  border-radius: 3px;
  font-size: "
   [(dyn (λ: e, e ~> "theme" ~> "typography" ~> "fontSize"),
     ";

  border-spacing: 0;
  width: 100%;

  > tr {
    vertical-align: middle;
  }

  ");
    (va_lessThan "small" Undef Undef "
    display: block;
    > tr, > tbody > tr {
      display: block;
    }
  "
      [],
     "

  ");
    (va_lessThan "small" (Bool false) (Str " and (-ms-high-contrast:none)") "
    td {
      float: left;
      width: 100%;
    }
  "
      [],
     "

  &
    ");
    (sel sp,
     ",
    &
    ");
    (sel sp,
     "
    ");
    (sel sp,
     "
    ");
    (sel sp,
     ",
    &
    ");
    (sel sp,
     "
    ");
    (sel sp,
     "
    ");
    (sel sp,
     "
    ");
    (sel sp,
     "
    ");
    (sel sp,
     " {
    margin: ");
    (dyn (λ: p, let: e := p ~> "theme" in e ~> "schema" ~> "nestingSpacing"),
     ";
    margin-right: 0;
    background: ");
    (dyn (λ: p, let: e := p ~> "theme" in e ~> "schema" ~> "nestedBackground"),
     ";
  }

  &
    ");
    (sel sp,
     "
    ");
    (sel sp,
     ",
    &
    ");
    (sel sp,
     "
    ");
    (sel sp,
     "
    ");
    (sel sp,
     "
    ");
    (sel sp,
     ",
    &
    ");
    (sel sp,
     "
    ");
    (sel sp,
     "
    ");
    (sel sp,
     "
    ");
    (sel sp,
     "
    ");
    (sel sp,
     "
    ");
    (sel sp,
     " {
    background: #ffffff;
  }
")]).

Definition cp : Styled := styled "cp" "div" (
  css "
  margin: 0 0 3px 0;
  display: inline-block;
" []).

Definition up : Styled := styled "up" "span" (
  css "
  font-size: 0.9em;
  margin-right: 10px;
  color: "
   [(dyn (λ: e, e ~> "theme" ~> "colors" ~> "primary" ~> "main"),
     ";
  font-family: ");
    (dyn (λ: e, e ~> "theme" ~> "typography" ~> "headings" ~> "fontFamily"),
     ";
}
")]).

Definition pp : Styled := styled "pp" "button" (
  css "
  display: inline-block;
  margin-right: 10px;
  margin-bottom: 5px;
  font-size: 0.8em;
  cursor: pointer;
  border: 1px solid "
   [(dyn (λ: e, e ~> "theme" ~> "colors" ~> "primary" ~> "main"),
     ";
  padding: 2px 10px;
  line-height: 1.5em;
  outline: none;
  &:focus {
    box-shadow: 0 0 0 1px ");
    (dyn (λ: e, e ~> "theme" ~> "colors" ~> "primary" ~> "main"),
     ";
  }

  ");
    (dynr (λ: p, let: e := p ~> "$deprecated" in ite e (ret ep) (data (lit ""))),
     ";

  ");
    (dyn (λ: e, ite (e ~> "$active") (template "
      color: white;
      background-color: " [(e ~> "theme" ~> "colors" ~> "primary" ~> "main", ";
      &:focus {
        box-shadow: none;
        background-color: "); (Ur (Some (Num (dec 15 2))) (e ~> "theme" ~> "colors" ~> "primary" ~> "main"), ";
      }
      ")]) (template "
        color: " [(e ~> "theme" ~> "colors" ~> "primary" ~> "main", ";
        background-color: white;
      ")])),
     "
")]).

Definition dp : Styled := styled "dp" "div" (
  css "
  font-size: 0.9em;
  font-family: "
   [(dyn (λ: e, e ~> "theme" ~> "typography" ~> "code" ~> "fontFamily"),
     ";
  &::after {
    content: ' [';
  }
")]).

Definition fp : Styled := styled "fp" "div" (
  css "
  font-size: 0.9em;
  font-family: "
   [(dyn (λ: e, e ~> "theme" ~> "typography" ~> "code" ~> "fontFamily"),
     ";
  &::after {
    content: ']';
  }
")]).

End styles.
