(* ===== verification/RedocCode.v ===== *)
(** The style sheets of code: the panels of samples, syntax highlighting, the buttons over a
    sample, drop-down lists, Markdown text and the JSON viewer. Each
    definition is one template of the bundle, under its name there. *)

From S2P Require Import Prelude GoStrings.
From S2P Require Import Float64 JsNumber JsValue StyledComponents RedocColor.

From S2P Require Import RedocPanels RedocTables.

Local Open Scope Z_scope.
Local Open Scope js_scope.

Definition attrs_Gp : list attr := [λ _, Some [("as", Str "pre")]].

Section styles.
Context `{ids : ComponentIds}.

Definition Vp : Styled := styled "Vp" "Ip" (
  css "
  > ul {
    list-style: none;
    padding: 0;
    margin: 0;
    margin: 0 -5px;

    > li {
      padding: 5px 10px;
      display: inline-block;

      background-color: "
   [(dyn (λ: p, let: e := p ~> "theme" in e ~> "codeBlock" ~> "backgroundColor"),
     ";
      border-bottom: 1px solid rgba(0, 0, 0, 0.5);
      cursor: pointer;
      text-align: center;
      outline: none;
      color: ");
    (dyn (λ: p, let: e := p ~> "theme" in Ur (e ~> "colors" ~> "tonalOffset") (e ~> "rightPanel" ~> "textColor")),
     ";
      margin: 0
        ");
    (dyn (λ: p, let: e := p ~> "theme" in template "" [(e ~> "spacing" ~> "unit", "px "); (e ~> "spacing" ~> "unit", "px "); (e ~> "spacing" ~> "unit", "px")]),
     ";
      border: 1px solid ");
    (dyn (λ: p, let: e := p ~> "theme" in Ur (Some (Num (dec 5 2))) (e ~> "codeBlock" ~> "backgroundColor")),
     ";
      border-radius: 5px;
      min-width: 60px;
      font-size: 0.9em;
      font-weight: bold;

      &.react-tabs__tab--selected {
        color: ");
    (dyn (λ: e, e ~> "theme" ~> "colors" ~> "text" ~> "primary"),
     ";
        background: ");
    (dyn (λ: p, let: e := p ~> "theme" in e ~> "rightPanel" ~> "textColor"),
     ";
        &:focus {
          outline: auto;
        }
      }

      &:only-child {
        flex: none;
        min-width: 100px;
      }

      &.tab-success {
        color: ");
    (dyn (λ: e, e ~> "theme" ~> "colors" ~> "responses" ~> "success" ~> "tabTextColor"),
     ";
      }

      &.tab-redirect {
        color: ");
    (dyn (λ: e, e ~> "theme" ~> "colors" ~> "responses" ~> "redirect" ~> "tabTextColor"),
     ";
      }

      &.tab-info {
        color: ");
    (dyn (λ: e, e ~> "theme" ~> "colors" ~> "responses" ~> "info" ~> "tabTextColor"),
     ";
      }

      &.tab-error {
        color: ");
    (dyn (λ: e, e ~> "theme" ~> "colors" ~> "responses" ~> "error" ~> "tabTextColor"),
     ";
      }
    }
  }
  > .react-tabs__tab-panel {
    background: ");
    (dyn (λ: p, let: e := p ~> "theme" in e ~> "codeBlock" ~> "backgroundColor"),
     ";
    & > div,
    & > pre {
      padding: ");
    (dyn (λ: e, mul (num 4) (e ~> "theme" ~> "spacing" ~> "unit")),
     "px;
      margin: 0;
    }

    & > div > pre {
      padding: 0;
    }
  }
")]).

Definition Wp_0 : Styled := extend "Wp_0" Vp (
  css "
  > ul {
    display: block;
    > li {
      padding: 2px 5px;
      min-width: auto;
      margin: 0 15px 0 0;
      font-size: 13px;
      font-weight: normal;
      border-bottom: 1px dashed;
      color: "
   [(dyn (λ: p, let: e := p ~> "theme" in Ur (e ~> "colors" ~> "tonalOffset") (e ~> "rightPanel" ~> "textColor")),
     ";
      border-radius: 0;
      background: none;

      &:last-child {
        margin-right: 0;
      }

      &.react-tabs__tab--selected {
        color: ");
    (dyn (λ: p, let: e := p ~> "theme" in e ~> "rightPanel" ~> "textColor"),
     ";
        background: none;
      }
    }
  }
  > .react-tabs__tab-panel {
    & > div,
    & > pre {
      padding: ");
    (dyn (λ: e, mul (num 2) (e ~> "theme" ~> "spacing" ~> "unit")),
     "px 0;
    }
  }
")]).

Definition Wp : Styled := styled "Wp" "div" (
  css "
  /**
  * Based on prism-dark.css
  */

  code[class*='language-'],
  pre[class*='language-'] {
    /* color: white;
    background: none; */
    text-shadow: 0 -0.1em 0.2em black;
    text-align: left;
    white-space: pre;
    word-spacing: normal;
    word-break: normal;
    word-wrap: normal;
    line-height: 1.5;

    -moz-tab-size: 4;
    -o-tab-size: 4;
    tab-size: 4;

    -webkit-hyphens: none;
    -moz-hyphens: none;
    -ms-hyphens: none;
    hyphens: none;
  }

  @media print {
    code[class*='language-'],
    pre[class*='language-'] {
      text-shadow: none;
    }
  }

  /* Code blocks */
  pre[class*='language-'] {
    padding: 1em;
    margin: 0.5em 0;
    overflow: auto;
  }

  .token.comment,
  .token.prolog,
  .token.doctype,
  .token.cdata {
    color: hsl(30, 20%, 50%);
  }

  .token.punctuation {
    opacity: 0.7;
  }

  .namespace {
    opacity: 0.7;
  }

  .token.property,
  .token.tag,
  .token.number,
  .token.constant,
  .token.symbol {
    color: #4a8bb3;
  }

  .token.boolean {
    color: #e64441;
  }

  .token.selector,
  .token.attr-name,
  .token.string,
  .token.char,
  .token.builtin,
  .token.inserted {
    color: #a0fbaa;
    & + a,
    & + a:visited {
      color: #4ed2ba;
      text-decoration: underline;
    }
  }

  .token.property.string {
    color: white;
  }

  .token.operator,
  .token.entity,
  .token.url,
  .token.variable {
    color: hsl(40, 90%, 60%);
  }

  .token.atrule,
  .token.attr-value,
  .token.keyword {
    color: hsl(350, 40%, 70%);
  }

  .token.regex,
  .token.important {
    color: #e90;
  }

  .token.important,
  .token.bold {
    font-weight: bold;
  }
  .token.italic {
    font-style: italic;
  }

  .token.entity {
    cursor: help;
  }

  .token.deleted {
    color: red;
  }

  "
   [(wa "Prism",
     ";
")]).

Definition Hp : Styled := styled "Hp" "div" (
  css "
  opacity: 0.7;
  transition: opacity 0.3s ease;
  text-align: right;
  &:focus-within {
    opacity: 1;
  }
  > button {
    background-color: transparent;
    border: 0;
    color: inherit;
    padding: 2px 10px;
    font-family: "
   [(dyn (λ: p, let: e := p ~> "theme" in e ~> "typography" ~> "fontFamily"),
     ";
    font-size: ");
    (dyn (λ: p, let: e := p ~> "theme" in e ~> "typography" ~> "fontSize"),
     ";
    line-height: ");
    (dyn (λ: p, let: e := p ~> "theme" in e ~> "typography" ~> "lineHeight"),
     ";
    cursor: pointer;
    outline: 0;

    :hover,
    :focus {
      background: rgba(255, 255, 255, 0.1);
    }
  }
")]).

Definition Yp : Styled := styled "Yp" "div" (
  css "
  &:hover "
   [(sel Hp,
     " {
    opacity: 1;
  }
")]).

Definition Gp : Styled := extend_attrs "Gp" Wp attrs_Gp (
  css "
  font-family: "
   [(dyn (λ: e, e ~> "theme" ~> "typography" ~> "code" ~> "fontFamily"),
     ";
  font-size: ");
    (dyn (λ: e, e ~> "theme" ~> "typography" ~> "code" ~> "fontSize"),
     ";
  overflow-x: auto;
  margin: 0;

  white-space: ");
    (dyn (λ: p, let: e := p ~> "theme" in ite (e ~> "typography" ~> "code" ~> "wrap") (lit "pre-wrap") (lit "pre")),
     ";
")]).

Definition Ad : Styled := styled "Ad" "div" (
  css "
  position: relative;
" []).

Definition Pd : Styled := styled "Pd" "component Pd" (
  css "
  position: absolute;
  pointer-events: none;
  z-index: 1;
  top: 50%;
  -webkit-transform: translateY(-50%);
  -ms-transform: translateY(-50%);
  transform: translateY(-50%);
  right: 8px;
  margin: auto;
  text-align: center;
  polyline {
    color: "
   [(dyn (λ: e, and_ (eq_ (lit "dark") (e ~> "variant")) (lit "white")),
     ";
  }
")]).

Definition Id : Styled := styled "Id" "Td" (
  css "
  label {
    box-sizing: border-box;
    min-width: 100px;
    outline: none;
    display: inline-block;
    font-family: "
   [(dyn (λ: e, e ~> "theme" ~> "typography" ~> "headings" ~> "fontFamily"),
     ";
    color: ");
    (dyn (λ: p, let: e := p ~> "theme" in e ~> "colors" ~> "text" ~> "primary"),
     ";
    vertical-align: bottom;
    width: ");
    (dyn (λ: p, let: e := p ~> "fullWidth" in ite e (lit "100%") (lit "auto")),
     ";
    text-transform: none;
    padding: 0 22px 0 4px;

    font-size: 0.929em;
    line-height: 1.5em;
    font-family: inherit;
    text-overflow: ellipsis;
    overflow: hidden;
    white-space: nowrap;
  }
  .dropdown-select {
    position: absolute;
    top: 0;
    left: 0;
    width: 100%;
    height: 100%;
    opacity: 0;
    border: none;
    appearance: none;
    cursor: pointer;

    color: ");
    (dyn (λ: p, let: e := p ~> "theme" in e ~> "colors" ~> "text" ~> "primary"),
     ";
    line-height: inherit;
    font-family: inherit;
  }
  box-sizing: border-box;
  min-width: 100px;
  outline: none;
  display: inline-block;
  border-radius: 2px;
  border: 1px solid rgba(38, 50, 56, 0.5);
  vertical-align: bottom;
  padding: 2px 0px 2px 6px;
  position: relative;
  width: auto;
  background: white;
  color: #263238;
  font-family: ");
    (dyn (λ: e, e ~> "theme" ~> "typography" ~> "headings" ~> "fontFamily"),
     ";
  font-size: 0.929em;
  line-height: 1.5em;
  cursor: pointer;
  transition: border 0.25s ease, color 0.25s ease, box-shadow 0.25s ease;

  &:hover,
  &:focus-within {
    border: 1px solid ");
    (dyn (λ: e, e ~> "theme" ~> "colors" ~> "primary" ~> "main"),
     ";
    color: ");
    (dyn (λ: e, e ~> "theme" ~> "colors" ~> "primary" ~> "main"),
     ";
    box-shadow: 0px 0px 0px 1px ");
    (dyn (λ: e, e ~> "theme" ~> "colors" ~> "primary" ~> "main"),
     ";
  }
")]).

Definition Rd : Styled := extend "Rd" Id (
  css "
  margin-left: 10px;
  text-transform: none;
  font-size: 0.969em;

  font-size: 1em;
  border: none;
  padding: 0 1.2em 0 0;
  background: transparent;

  &:hover,
  &:focus-within {
    border: none;
    box-shadow: none;
    label {
      color: "
   [(dyn (λ: e, e ~> "theme" ~> "colors" ~> "primary" ~> "main"),
     ";
      text-shadow: 0px 0px 0px ");
    (dyn (λ: e, e ~> "theme" ~> "colors" ~> "primary" ~> "main"),
     ";
    }
  }
")]).

Definition Nd : Styled := styled "Nd" "span" (
  css "
  margin-left: 10px;
  text-transform: none;
  font-size: 0.929em;
  color: black;
" []).

Definition Rf : rule :=
  css "
  a {
    text-decoration: "
   [(dyn (λ: e, e ~> "theme" ~> "typography" ~> "links" ~> "textDecoration"),
     ";
    color: ");
    (dyn (λ: e, e ~> "theme" ~> "typography" ~> "links" ~> "color"),
     ";

    &:visited {
      color: ");
    (dyn (λ: e, e ~> "theme" ~> "typography" ~> "links" ~> "visited"),
     ";
    }

    &:hover {
      color: ");
    (dyn (λ: e, e ~> "theme" ~> "typography" ~> "links" ~> "hover"),
     ";
      text-decoration: ");
    (dyn (λ: e, e ~> "theme" ~> "typography" ~> "links" ~> "hoverTextDecoration"),
     ";
    }
  }
")].

Definition Nf : Styled := extend "Nf" Wp (
  css "
  font-family: "
   [(dyn (λ: e, e ~> "theme" ~> "typography" ~> "fontFamily"),
     ";
  font-weight: ");
    (dyn (λ: e, e ~> "theme" ~> "typography" ~> "fontWeightRegular"),
     ";
  line-height: ");
    (dyn (λ: e, e ~> "theme" ~> "typography" ~> "lineHeight"),
     ";

  p {
    &:last-child {
      margin-bottom: 0;
    }
  }

  ");
    (dyn (λ: p, let: e := p ~> "$compact" in and_ e (lit "
    p:first-child {
      margin-top: 0;
    }
    p:last-child {
      margin-bottom: 0;
    }
  ")),
     "

  ");
    (dyn (λ: p, let: e := p ~> "$inline" in and_ e (lit " p {
    display: inline-block;
  }")),
     "

  h1 {
    ");
    (Mu 1,
     ";
    color: ");
    (dyn (λ: e, e ~> "theme" ~> "colors" ~> "primary" ~> "main"),
     ";
    margin-top: 0;
  }

  h2 {
    ");
    (Mu 2,
     ";
    color: ");
    (dyn (λ: e, e ~> "theme" ~> "colors" ~> "text" ~> "primary"),
     ";
  }

  code {
    color: ");
    (dyn (λ: p, let: e := p ~> "theme" in e ~> "typography" ~> "code" ~> "color"),
     ";
    background-color: ");
    (dyn (λ: p, let: e := p ~> "theme" in e ~> "typography" ~> "code" ~> "backgroundColor"),
     ";

    font-family: ");
    (dyn (λ: e, e ~> "theme" ~> "typography" ~> "code" ~> "fontFamily"),
     ";
    border-radius: 2px;
    border: 1px solid rgba(38, 50, 56, 0.1);
    padding: 0 ");
    (dyn (λ: p, let: e := p ~> "theme" in e ~> "spacing" ~> "unit"),
     "px;
    font-size: ");
    (dyn (λ: e, e ~> "theme" ~> "typography" ~> "code" ~> "fontSize"),
     ";
    font-weight: ");
    (dyn (λ: p, let: e := p ~> "theme" in e ~> "typography" ~> "code" ~> "fontWeight"),
     ";

    word-break: break-word;
  }

  pre {
    font-family: ");
    (dyn (λ: e, e ~> "theme" ~> "typography" ~> "code" ~> "fontFamily"),
     ";
    white-space: ");
    (dyn (λ: p, let: e := p ~> "theme" in ite (e ~> "typography" ~> "code" ~> "wrap") (lit "pre-wrap") (lit "pre")),
     ";
    background-color: ");
    (dyn (λ: p, let: e := p ~> "theme" in e ~> "codeBlock" ~> "backgroundColor"),
     ";
    color: white;
    padding: ");
    (dyn (λ: e, mul (num 4) (e ~> "theme" ~> "spacing" ~> "unit")),
     "px;
    overflow-x: auto;
    line-height: normal;
    border-radius: 0;
    border: 1px solid rgba(38, 50, 56, 0.1);

    code {
      background-color: transparent;
      color: white;
      padding: 0;

      &:before,
      &:after {
        content: none;
      }
    }
  }

  blockquote {
    margin: 0;
    margin-bottom: 1em;
    padding: 0 15px;
    color: #777;
    border-left: 4px solid #ddd;
  }

  img {
    max-width: 100%;
    box-sizing: content-box;
  }

  ul,
  ol {
    padding-left: 2em;
    margin: 0;
    margin-bottom: 1em;

    ul,
    ol {
      margin-bottom: 0;
      margin-top: 0;
    }
  }

  table {
    display: block;
    width: 100%;
    overflow: auto;
    word-break: normal;
    word-break: keep-all;
    border-collapse: collapse;
    border-spacing: 0;
    margin-top: 1.5em;
    margin-bottom: 1.5em;
  }

  table tr {
    background-color: #fff;
    border-top: 1px solid #ccc;

    &:nth-child(2n) {
      background-color: ");
    (dyn (λ: p, let: e := p ~> "theme" in e ~> "schema" ~> "nestedBackground"),
     ";
    }
  }

  table th,
  table td {
    padding: 6px 13px;
    border: 1px solid #ddd;
  }

  table th {
    text-align: left;
    font-weight: bold;
  }

  ");
    (Gu ".share-link",
     ";

  ");
    (Rf,
     "

  ");
    (wa "Markdown",
     ";
")]).

Definition qf : Styled := styled "qf" "component qf" (
  css "
  display: inline;
" []).

Definition Hf : Styled := styled "Hf" "div" (
  css "
  position: relative;
" []).

Definition Yf : Styled := styled "Yf" "div" (
  css "
  position: absolute;
  min-width: 80px;
  max-width: 500px;
  background: #fff;
  bottom: 100%;
  left: 50%;
  margin-bottom: 10px;
  transform: translateX(-50%);

  border-radius: 4px;
  padding: 0.3em 0.6em;
  text-align: center;
  box-shadow: 0px 0px 5px 0px rgba(204, 204, 204, 1);
" []).

Definition Gf : Styled := styled "Gf" "div" (
  css "
  background: #fff;
  color: #000;
  display: inline;
  font-size: 0.85em;
  white-space: nowrap;
" []).

Definition Qf : Styled := styled "Qf" "div" (
  css "
  position: absolute;
  width: 0;
  height: 0;
  bottom: -5px;
  left: 50%;
  margin-left: -5px;
  border-left: solid transparent 5px;
  border-right: solid transparent 5px;
  border-top: solid #fff 5px;
" []).

Definition Xf : Styled := styled "Xf" "div" (
  css "
  position: absolute;
  width: 100%;
  height: 20px;
  bottom: -20px;
" []).

Definition lh : rule :=
  css "
  .redoc-json code > .collapser {
    display: none;
    pointer-events: none;
  }

  font-family: "
   [(dyn (λ: e, e ~> "theme" ~> "typography" ~> "code" ~> "fontFamily"),
     ";
  font-size: ");
    (dyn (λ: e, e ~> "theme" ~> "typography" ~> "code" ~> "fontSize"),
     ";

  white-space: ");
    (dyn (λ: p, let: e := p ~> "theme" in ite (e ~> "typography" ~> "code" ~> "wrap") (lit "pre-wrap") (lit "pre")),
     ";
  contain: content;
  overflow-x: auto;

  .callback-function {
    color: gray;
  }

  .collapser:after {
    content: '-';
    cursor: pointer;
  }

  .collapsed > .collapser:after {
    content: '+';
    cursor: pointer;
  }

  .ellipsis:after {
    content: ' … ';
  }

  .collapsible {
    margin-left: 2em;
  }

  .hoverable {
    padding-top: 1px;
    padding-bottom: 1px;
    padding-left: 2px;
    padding-right: 2px;
    border-radius: 2px;
  }

  .hovered {
    background-color: rgba(235, 238, 249, 1);
  }

  .collapser {
    background-color: transparent;
    border: 0;
    color: #fff;
    font-family: ");
    (dyn (λ: e, e ~> "theme" ~> "typography" ~> "code" ~> "fontFamily"),
     ";
    font-size: ");
    (dyn (λ: e, e ~> "theme" ~> "typography" ~> "code" ~> "fontSize"),
     ";
    padding-right: 6px;
    padding-left: 6px;
    padding-top: 0;
    padding-bottom: 0;
    display: flex;
    align-items: center;
    justify-content: center;
    width: 15px;
    height: 15px;
    position: absolute;
    top: 4px;
    left: -1.5em;
    cursor: default;
    user-select: none;
    -webkit-user-select: none;
    padding: 2px;
    &:focus {
      outline-color: #fff;
      outline-style: dotted;
      outline-width: 1px;
    }
  }

  ul {
    list-style-type: none;
    padding: 0px;
    margin: 0px 0px 0px 26px;
  }

  li {
    position: relative;
    display: block;
  }

  .hoverable {
    display: inline-block;
  }

  .selected {
    outline-style: solid;
    outline-width: 1px;
    outline-style: dotted;
  }

  .collapsed > .collapsible {
    display: none;
  }

  .ellipsis {
    display: none;
  }

  .collapsed > .ellipsis {
    display: inherit;
  }
")].

Definition ch : Styled := styled "ch" "div" (
  css "
  &:hover > "
   [(sel Hp,
     " {
    opacity: 1;
  }
")]).

Definition uh : Styled := styled "uh" "component uh" (
  css "
  "
   [(lh,
     ";
")]).

Definition yh : Styled := styled "yh" "div" (
  css "
  padding: 0.9em;
  background-color: "
   [(dyn (λ: p, let: e := p ~> "theme" in Kr (Some (Num (dec 6 1))) (e ~> "rightPanel" ~> "backgroundColor")),
     ";
  margin: 0 0 10px 0;
  display: block;
  font-family: ");
    (dyn (λ: p, let: e := p ~> "theme" in e ~> "typography" ~> "headings" ~> "fontFamily"),
     ";
  font-size: 0.929em;
  line-height: 1.5em;
")]).

Definition bh : Styled := styled "bh" "span" (
  css "
  font-family: "
   [(dyn (λ: p, let: e := p ~> "theme" in e ~> "typography" ~> "headings" ~> "fontFamily"),
     ";
  font-size: 12px;
  position: absolute;
  z-index: 1;
  top: -11px;
  left: 12px;
  font-weight: ");
    (dyn (λ: p, let: e := p ~> "theme" in e ~> "typography" ~> "fontWeightBold"),
     ";
  color: ");
    (dyn (λ: p, let: e := p ~> "theme" in Kr (Some (Num (dec 3 1))) (e ~> "rightPanel" ~> "textColor")),
     ";
")]).

Definition vh : Styled := styled "vh" "div" (
  css "
  position: relative;
" []).

Definition xh : Styled := extend "xh" Id (
  css "
  label {
    color: "
   [(dyn (λ: p, let: e := p ~> "theme" in e ~> "rightPanel" ~> "textColor"),
     ";
    text-overflow: ellipsis;
    white-space: nowrap;
    overflow: hidden;
    font-size: 1em;
    text-transform: none;
    border: none;
  }
  margin: 0 0 10px 0;
  display: block;
  background-color: ");
    (dyn (λ: p, let: e := p ~> "theme" in Kr (Some (Num (dec 6 1))) (e ~> "rightPanel" ~> "backgroundColor")),
     ";
  border: none;
  padding: 0.9em 1.6em 0.9em 0.9em;
  box-shadow: none;
  &:hover,
  &:focus-within {
    border: none;
    box-shadow: none;
    background-color: ");
    (dyn (λ: p, let: e := p ~> "theme" in Kr (Some (Num (dec 3 1))) (e ~> "rightPanel" ~> "backgroundColor")),
     ";
  }
")]).

Definition wh : Styled := styled "wh" "div" (
  css "
  font-family: "
   [(dyn (λ: e, e ~> "theme" ~> "typography" ~> "code" ~> "fontFamily"),
     ";
  font-size: 12px;
  color: #ee807f;
")]).

Definition Sh : Styled := styled "Sh" "div" (
  css "
  margin-top: 15px;
" []).

End styles.
