(* ===== verification/RedocFields.v ===== *)
(** The style sheets of the details of a field: types, constraints, examples, and of the
    security section and the head of the page. Each
    definition is one template of the bundle, under its name there. *)

From S2P Require Import Prelude GoStrings.
From S2P Require Import Float64 JsNumber JsValue StyledComponents RedocColor.

From S2P Require Import RedocPanels RedocTables RedocCode.

Local Open Scope Z_scope.
Local Open Scope js_scope.

Definition attrs_sm : list attr := [λ _, Some [("as", Str "div")]].

Section styles.
Context `{ids : ComponentIds}.

Definition tm : Styled := extend "tm" ip (
  css "
  &.deprecated {
    span.property-name {
      "
   [(ep,
     "
    }
  }

  button {
    background-color: transparent;
    border: 0;
    outline: 0;
    font-size: 13px;
    font-family: ");
    (dyn (λ: e, e ~> "theme" ~> "typography" ~> "code" ~> "fontFamily"),
     ";
    cursor: pointer;
    padding: 0;
    color: ");
    (dyn (λ: e, e ~> "theme" ~> "colors" ~> "text" ~> "primary"),
     ";
    &:focus {
      font-weight: ");
    (dyn (λ: p, let: e := p ~> "theme" in e ~> "typography" ~> "fontWeightBold"),
     ";
    }
    ");
    (dynr (λ: p, let: e := p ~> "kind" in andr (eq_ (lit "patternProperties") e) (ret (css "
        display: inline-flex;
        margin-right: 20px;

        > span.property-name {
          white-space: break-spaces;
          text-align: left;

          ::before,
          ::after {
            content: '/';
            filter: opacity(0.2);
          }
        }

        > svg {
          align-self: center;
        }
      " []))),
     "
  }
  ");
    (sel Zu,
     " {
    height: ");
    (dyn (λ: p, let: e := p ~> "theme" in e ~> "schema" ~> "arrow" ~> "size"),
     ";
    width: ");
    (dyn (λ: p, let: e := p ~> "theme" in e ~> "schema" ~> "arrow" ~> "size"),
     ";
    polygon {
      fill: ");
    (dyn (λ: p, let: e := p ~> "theme" in e ~> "schema" ~> "arrow" ~> "color"),
     ";
    }
  }
")]).

Definition nm : Styled := styled "nm" "span" (
  css "
  vertical-align: middle;
  font-size: "
   [(dyn (λ: p, let: e := p ~> "theme" in e ~> "typography" ~> "code" ~> "fontSize"),
     ";
  line-height: 20px;
")]).

Definition rm : Styled := extend "rm" nm (
  css "
  color: "
   [(dyn (λ: e, Kr (Some (Num (dec 1 1))) (e ~> "theme" ~> "schema" ~> "typeNameColor")),
     ";
")]).

Definition im : Styled := extend "im" nm (
  css "
  color: "
   [(dyn (λ: e, e ~> "theme" ~> "schema" ~> "typeNameColor"),
     ";
")]).

Definition am : Styled := im.

Definition om : Styled := extend "om" nm (
  css "
  color: "
   [(dyn (λ: e, e ~> "theme" ~> "schema" ~> "typeTitleColor"),
     ";
  word-break: break-word;
")]).

Definition sm : Styled := extend_attrs "sm" nm attrs_sm (
  css "
  color: "
   [(dyn (λ: e, e ~> "theme" ~> "schema" ~> "requireLabelColor"),
     ";
  font-size: ");
    (dyn (λ: e, e ~> "theme" ~> "schema" ~> "labelsTextSize"),
     ";
  font-weight: normal;
  margin-left: 20px;
  line-height: 1;
")]).

Definition lm : Styled := extend "lm" sm (
  css "
  color: "
   [(dyn (λ: e, e ~> "theme" ~> "colors" ~> "primary" ~> "light"),
     ";
")]).

Definition cm : Styled := extend "cm" nm (
  css "
  color: "
   [(dyn (λ: p, let: e := p ~> "theme" in e ~> "colors" ~> "warning" ~> "main"),
     ";
  font-size: 13px;
")]).

Definition um : Styled := extend "um" nm (
  css "
  color: #0e7c86;
  &::before,
  &::after {
    font-weight: bold;
  }
" []).

Definition pm : Styled := extend "pm" nm (
  css "
  border-radius: 2px;
  word-break: break-word;
  "
   [(dyn (λ: p, let: e := p ~> "theme" in template "
    background-color: " [(Kr (Some (Num (dec 95 2))) (e ~> "colors" ~> "text" ~> "primary"), ";
    color: "); (Kr (Some (Num (dec 1 1))) (e ~> "colors" ~> "text" ~> "primary"), ";

    padding: 0 "); (e ~> "spacing" ~> "unit", "px;
    border: 1px solid "); (Kr (Some (Num (dec 9 1))) (e ~> "colors" ~> "text" ~> "primary"), ";
    font-family: "); (e ~> "typography" ~> "code" ~> "fontFamily", ";
}")]),
     ";
  & + & {
    margin-left: 0;
  }
  ");
    (wa "ExampleValue",
     ";
")]).

Definition dm : Styled := extend "dm" pm (css "" []).

Definition fm : Styled := extend "fm" nm (
  css "
  border-radius: 2px;
  "
   [(dyn (λ: p, let: e := p ~> "theme" in template "
    background-color: " [(Kr (Some (Num (dec 95 2))) (e ~> "colors" ~> "primary" ~> "light"), ";
    color: "); (Kr (Some (Num (dec 1 1))) (e ~> "colors" ~> "primary" ~> "main"), ";

    margin: 0 "); (e ~> "spacing" ~> "unit", "px;
    padding: 0 "); (e ~> "spacing" ~> "unit", "px;
    border: 1px solid "); (Kr (Some (Num (dec 9 1))) (e ~> "colors" ~> "primary" ~> "main"), ";
}")]),
     ";
  & + & {
    margin-left: 0;
  }
  ");
    (wa "ConstraintItem",
     ";
")]).

Definition hm : Styled := styled "hm" "button" (
  css "
  background-color: transparent;
  border: 0;
  color: "
   [(dyn (λ: p, let: e := p ~> "theme" in e ~> "colors" ~> "text" ~> "secondary"),
     ";
  margin-left: ");
    (dyn (λ: p, let: e := p ~> "theme" in e ~> "spacing" ~> "unit"),
     "px;
  border-radius: 2px;
  cursor: pointer;
  outline-color: ");
    (dyn (λ: p, let: e := p ~> "theme" in e ~> "colors" ~> "text" ~> "secondary"),
     ";
  font-size: 12px;
")]).

Definition mm : Styled := styled "mm" "div" (
  css "
  "
   [(Rf,
     ";
  ");
    (dyn (λ: p, let: e := p ~> "$compact" in ite e (lit "") (lit "margin: 1em 0")),
     "
")]).

Definition bm : Styled := styled "bm" "span" (
  css "
  color: "
   [(dyn (λ: e, e ~> "theme" ~> "colors" ~> "primary" ~> "main"),
     ";
  vertical-align: middle;
  font-size: 13px;
  line-height: 20px;
  padding: 0 5px;
  cursor: pointer;
")]).

Definition vm : Styled := extend "vm" Nf (
  css "
  margin: 2px 0;
" []).

Definition km : Styled := styled "km" "ul" (
  css "
  margin-top: 1em;
  list-style-position: outside;
" []).

Definition jm : Styled := extend "jm" rm (
  css "
  margin: 0 5px;
  vertical-align: text-top;
" []).

Definition eg : Styled := styled "eg" "div" (
  css "
  padding-left: "
   [(dyn (λ: p, let: e := p ~> "theme" in mul (num 2) (e ~> "spacing" ~> "unit")),
     "px;
")]).

Definition Ig : Styled := styled "Ig" "div" (
  css "
  background: "
   [(dyn (λ: p, let: e := p ~> "theme" in e ~> "codeBlock" ~> "backgroundColor"),
     ";
  & > div,
  & > pre {
    padding: ");
    (dyn (λ: e, mul (num 4) (e ~> "theme" ~> "spacing" ~> "unit")),
     "px;
    margin: 0;
  }

  & > div > pre {
    padding: 0;
  }
")]).

Definition Rg_0 : Styled := styled "Rg_0" "div" (
  css "
  background-color: #e4e7eb;
" []).

Definition Rg_1 : Styled := styled "Rg_1" "ul" (
  css "
  display: inline;
  list-style: none;
  padding: 0;

  li {
    display: inherit;

    &:after {
      content: ',';
    }
    &:last-child:after {
      content: none;
    }
  }
" []).

Definition Rg : Styled := styled "Rg" "code" (
  css "
  font-size: "
   [(dyn (λ: e, e ~> "theme" ~> "typography" ~> "code" ~> "fontSize"),
     ";
  font-family: ");
    (dyn (λ: e, e ~> "theme" ~> "typography" ~> "code" ~> "fontFamily"),
     ";
  margin: 0 3px;
  padding: 0.2em;
  display: inline-block;
  line-height: 1;

  &:after {
    content: ',';
    font-weight: normal;
  }

  &:last-child:after {
    content: none;
  }
")]).

Definition Ng : Styled := styled "Ng" "span" (
  css "
  &:after {
    content: ' and ';
    font-weight: normal;
  }

  &:last-child:after {
    content: none;
  }

  "
   [(Rf,
     ";
")]).

Definition g_ : Styled := styled "$g" "span" (
  css "
  "
   [(dyn (λ: e, and_ (not_ (e ~> "$expanded")) (lit "white-space: nowrap;")),
     "
  &:after {
    content: ' or ';
    ");
    (dyn (λ: e, and_ (e ~> "$expanded") (lit "content: ' or \a';")),
     "
    white-space: pre;
  }

  &:last-child:after,
  &:only-child:after {
    content: none;
  }

  ");
    (Rf,
     ";
")]).

Definition Lg : Styled := styled "Lg" "div" (
  css "
  flex: 1 1 auto;
  cursor: pointer;
" []).

Definition Dg : Styled := styled "Dg" "div" (
  css "
  width: "
   [(dyn (λ: e, e ~> "theme" ~> "schema" ~> "defaultDetailsWidth"),
     ";
  text-overflow: ellipsis;
  border-radius: 4px;
  overflow: hidden;
  ");
    (dyn (λ: e, and_ (e ~> "$expanded") (template "background: " [(e ~> "theme" ~> "colors" ~> "gray" ~> "100", ";
     padding: 8px 9.6px;
     margin: 20px 0;
     width: 100%;
    ")])),
     ";
  ");
    (va_lessThan "small" Undef Undef "
    margin-top: 10px;
  "
      [],
     "
")]).

Definition Mg : Styled := extend "Mg" qu (
  css "
  display: inline-block;
  margin: 0;
" []).

Definition Fg : Styled := styled "Fg" "div" (
  css "
  width: 100%;
  display: flex;
  margin: 1em 0;
  flex-direction: "
   [(dyn (λ: e, ite (e ~> "$expanded") (lit "column") (lit "row")),
     ";
  ");
    (va_lessThan "small" Undef Undef "
    flex-direction: column;
  "
      [],
     "
")]).

Definition zg : Styled := styled "zg" "div" (
  css "
  margin: 0.5em 0;
" []).

Definition Ug : Styled := styled "Ug" "div" (
  css "
  border-bottom: 1px solid "
   [(dyn (λ: p, let: e := p ~> "theme" in e ~> "colors" ~> "border" ~> "dark"),
     ";
  margin-bottom: 1.5em;
  padding-bottom: 0.7em;

  h5 {
    line-height: 1em;
    margin: 0 0 0.6em;
    font-size: ");
    (dyn (λ: p, let: e := p ~> "theme" in e ~> "typography" ~> "fontSize"),
     ";
  }

  .redoc-markdown p:first-child {
    display: inline;
  }
")]).

Definition qg : Styled := styled "qg" "div" (
  css "
  overflow-y: hidden;
" []).

Definition Vg : Styled := styled "Vg" "div" (
  css "
  text-align: center;
  line-height: 1.5em;
  "
   [(dyn (λ: p, let: e := p ~> "$dimmed" in and_ e (lit "background-image: linear-gradient(to bottom, transparent,rgb(255 255 255));
     position: relative;
     top: -0.5em;
     padding-top: 0.5em;
     background-position-y: -1em;
    ")),
     "
")]).

Definition Wg : Styled := styled "Wg" "a" (
  css "
  cursor: pointer;
" []).

Definition Zg : Styled := extend "Zg" Fu (
  css "
  margin-top: 0;
  margin-bottom: 0.5em;

  "
   [(wa "ApiHeader",
     ";
")]).

Definition Jg : Styled := styled "Jg" "a" (
  css "
  border: 1px solid "
   [(dyn (λ: e, e ~> "theme" ~> "colors" ~> "primary" ~> "main"),
     ";
  color: ");
    (dyn (λ: e, e ~> "theme" ~> "colors" ~> "primary" ~> "main"),
     ";
  font-weight: normal;
  margin-left: 0.5em;
  padding: 4px 8px 4px;
  display: inline-block;
  text-decoration: none;
  cursor: pointer;

  ");
    (wa "DownloadButton",
     ";
")]).

Definition ey : Styled := styled "ey" "span" (
  css "
  &::before {
    content: '|';
    display: inline-block;
    opacity: 0.5;
    width: "
   [(V (int 15),
     "px;
    text-align: center;
  }

  &:last-child::after {
    display: none;
  }
")]).

Definition ty : Styled := styled "ty" "div" (
  css "
  overflow: hidden;
" []).

Definition ny : Styled := styled "ny" "div" (
  css "
  display: flex;
  flex-wrap: wrap;
  // hide separator on new lines: idea from https://stackoverflow.com/a/31732902/1749888
  margin-left: -"
   [(V (int 15),
     "px;
")]).

Definition iy : Styled := styled "iy" "img" (
  css "
  max-height: "
   [(dyn (λ: e, e ~> "theme" ~> "logo" ~> "maxHeight"),
     ";
  max-width: ");
    (dyn (λ: e, e ~> "theme" ~> "logo" ~> "maxWidth"),
     ";
  padding: ");
    (dyn (λ: e, e ~> "theme" ~> "logo" ~> "gutter"),
     ";
  width: 100%;
  display: block;
")]).

Definition oy : Styled := styled "oy" "div" (
  css "
  text-align: center;
" []).

Definition ay : Styled := styled "ay" "a" (
  css "
  display: inline-block;
" []).

End styles.
