(* ===== verification/RedocMenu.v ===== *)
(** The style sheets of the logo and the menu: badges of the HTTP verbs, items and the
    attribution. Each
    definition is one template of the bundle, under its name there. *)

From S2P Require Import Prelude GoStrings.
From S2P Require Import Float64 JsNumber JsValue StyledComponents RedocColor.

From S2P Require Import RedocPanels RedocTables RedocCode RedocFields.

Local Open Scope Z_scope.
Local Open Scope js_scope.

(** [className: `operation-type ${e.type}`]. *)
Definition attrs_gy : list attr := [λ c,
  let e := Some (c_props c) in
  v ← template "operation-type " [(e ~> "type", "")]; Some [("className", v)]].

(** The colours of an item: by its level. *)
Definition yy (e p : expr) (n : string) : expr :=
  let: t := p ~> "theme" in
  ite (gt_ e (num 1)) (t ~> "sidebar" ~> "level1Items" ~> n)
    (ite (eq_ (num 1) e) (t ~> "sidebar" ~> "groupItems" ~> n) (lit "")).

(** [className: my("-depth" + e.$depth, {active: e.$active})], where [my] joins the names
    that are set. *)
Definition attrs_wy : list attr := [λ c,
  let e := Some (c_props c) in
  d ← add (lit "-depth") (e ~> "$depth");
  a ← e ~> "$active";
  Some [("className", if truthy a then Str (to_string d +:+ " active") else d)]].

Section styles.
Context `{ids : ComponentIds}.

Definition gy : Styled := styled_attrs "gy" "span" attrs_gy (
  css "
  width: 9ex;
  display: inline-block;
  height: "
   [(dyn (λ: e, e ~> "theme" ~> "typography" ~> "code" ~> "fontSize"),
     ";
  line-height: ");
    (dyn (λ: e, e ~> "theme" ~> "typography" ~> "code" ~> "fontSize"),
     ";
  background-color: #333;
  border-radius: 3px;
  background-repeat: no-repeat;
  background-position: 6px 4px;
  font-size: 7px;
  font-family: Verdana, sans-serif; // web-safe
  color: white;
  text-transform: uppercase;
  text-align: center;
  font-weight: bold;
  vertical-align: middle;
  margin-right: 6px;
  margin-top: 2px;

  &.get {
    background-color: ");
    (dyn (λ: p, let: e := p ~> "theme" in e ~> "colors" ~> "http" ~> "get"),
     ";
  }

  &.post {
    background-color: ");
    (dyn (λ: p, let: e := p ~> "theme" in e ~> "colors" ~> "http" ~> "post"),
     ";
  }

  &.put {
    background-color: ");
    (dyn (λ: p, let: e := p ~> "theme" in e ~> "colors" ~> "http" ~> "put"),
     ";
  }

  &.options {
    background-color: ");
    (dyn (λ: p, let: e := p ~> "theme" in e ~> "colors" ~> "http" ~> "options"),
     ";
  }

  &.patch {
    background-color: ");
    (dyn (λ: p, let: e := p ~> "theme" in e ~> "colors" ~> "http" ~> "patch"),
     ";
  }

  &.delete {
    background-color: ");
    (dyn (λ: p, let: e := p ~> "theme" in e ~> "colors" ~> "http" ~> "delete"),
     ";
  }

  &.basic {
    background-color: ");
    (dyn (λ: p, let: e := p ~> "theme" in e ~> "colors" ~> "http" ~> "basic"),
     ";
  }

  &.link {
    background-color: ");
    (dyn (λ: p, let: e := p ~> "theme" in e ~> "colors" ~> "http" ~> "link"),
     ";
  }

  &.head {
    background-color: ");
    (dyn (λ: p, let: e := p ~> "theme" in e ~> "colors" ~> "http" ~> "head"),
     ";
  }

  &.hook {
    background-color: ");
    (dyn (λ: p, let: e := p ~> "theme" in e ~> "colors" ~> "primary" ~> "main"),
     ";
  }

  &.schema {
    background-color: ");
    (dyn (λ: p, let: e := p ~> "theme" in e ~> "colors" ~> "http" ~> "basic"),
     ";
  }
")]).

Definition by_ : Styled := styled "by" "ul" (
  css "
  margin: 0;
  padding: 0;

  &:first-child {
    padding-bottom: 32px;
  }

  & & {
    font-size: 0.929em;
  }

  "
   [(dyn (λ: e, ite (e ~> "$expanded") (lit "") (lit "display: none;")),
     ";
")]).

Definition vy : Styled := styled "vy" "li" (
  css "
  list-style: none inside none;
  overflow: hidden;
  text-overflow: ellipsis;
  padding: 0;
  "
   [(dyn (λ: e, ite (eq_ (num 0) (e ~> "depth")) (lit "margin-top: 15px") (lit "")),
     ";
")]).

Definition xy_0 : rule :=
  css "
    opacity: 0.7;
    text-transform: "
   [(dyn (λ: p, let: e := p ~> "theme" in e ~> "sidebar" ~> "groupItems" ~> "textTransform"),
     ";
    font-size: 0.8em;
    padding-bottom: 0;
    cursor: default;
  ")].

Definition xy_1 : rule :=
  css "
    font-size: 0.929em;
    text-transform: "
   [(dyn (λ: p, let: e := p ~> "theme" in e ~> "sidebar" ~> "level1Items" ~> "textTransform"),
     ";
  ")].

(** The sheet of an item, by its depth. *)
Definition xy (k : expr) : option rule :=
  v ← k;
  Some (if String.eqb (to_string v) "0" then xy_0 else if String.eqb (to_string v) "1" then xy_1 else V Undef).

Definition wy : Styled := styled_attrs "wy" "label" attrs_wy (
  css "
  cursor: pointer;
  color: "
   [(dyn (λ: e, ite (e ~> "$active") (yy (e ~> "$depth") e "activeTextColor") (e ~> "theme" ~> "sidebar" ~> "textColor")),
     ";
  margin: 0;
  padding: 12.5px ");
    (dyn (λ: e, mul (num 4) (e ~> "theme" ~> "spacing" ~> "unit")),
     "px;
  ");
    (dyn (λ: p, let: e := p ~> "$depth" in let: t := p ~> "$type" in let: n := p ~> "theme" in or_ (and_ (and_ (eq_ (lit "section") t) (gt_ e (num 1))) (add (add (lit "padding-left: ") (mul (num 8) (n ~> "spacing" ~> "unit"))) (lit "px;"))) (lit "")),
     "
  display: flex;
  justify-content: space-between;
  font-family: ");
    (dyn (λ: e, e ~> "theme" ~> "typography" ~> "headings" ~> "fontFamily"),
     ";
  ");
    (dynr (λ: e, xy (e ~> "$depth")),
     ";
  background-color: ");
    (dyn (λ: e, ite (e ~> "$active") (yy (e ~> "$depth") e "activeBackgroundColor") (e ~> "theme" ~> "sidebar" ~> "backgroundColor")),
     ";

  ");
    (dynr (λ: e, ite (e ~> "$deprecated") (ret ep) (data (lit ""))),
     ";

  &:hover {
    color: ");
    (dyn (λ: e, yy (e ~> "$depth") e "activeTextColor"),
     ";
    background-color: ");
    (dyn (λ: e, yy (e ~> "$depth") e "activeBackgroundColor"),
     ";
  }

  ");
    (sel Zu,
     " {
    height: ");
    (dyn (λ: p, let: e := p ~> "theme" in e ~> "sidebar" ~> "arrow" ~> "size"),
     ";
    width: ");
    (dyn (λ: p, let: e := p ~> "theme" in e ~> "sidebar" ~> "arrow" ~> "size"),
     ";
    polygon {
      fill: ");
    (dyn (λ: p, let: e := p ~> "theme" in e ~> "sidebar" ~> "arrow" ~> "color"),
     ";
    }
  }
")]).

Definition ky : Styled := styled "ky" "span" (
  css "
  display: inline-block;
  vertical-align: middle;
  width: "
   [(dyn (λ: e, ite (e ~> "width") (e ~> "width") (lit "auto")),
     ";
  overflow: hidden;
  text-overflow: ellipsis;
")]).

Definition Sy : Styled := styled "Sy" "div" (
  css "
  "
   [(dynr (λ: p, let: e := p ~> "theme" in (v1 ← mul (num 2) (e ~> "spacing" ~> "unit"); v2 ← e ~> "sidebar" ~> "width"; v3 ← e ~> "sidebar" ~> "backgroundColor"; v4 ← e ~> "sidebar" ~> "textColor"; v5 ← e ~> "spacing" ~> "unit"; v6 ← Ur (Some (Num (dec 1 1))) (e ~> "sidebar" ~> "backgroundColor"); ret (css "
    font-size: 0.8em;
    margin-top: "
        [(V v1,
          "px;
    text-align: center;
    position: fixed;
    width: ");
         (V v2,
          ";
    bottom: 0;
    background: ");
         (V v3,
          ";

    a,
    a:visited,
    a:hover {
      color: ");
         (V v4,
          " !important;
      padding: ");
         (V v5,
          "px 0;
      border-top: 1px solid ");
         (V v6,
          ";
      text-decoration: none;
      display: flex;
      align-items: center;
      justify-content: center;
    }
  ")]))),
     ";
  img {
    width: 15px;
    margin-right: 5px;
  }

  ");
    (va_lessThan "small" Undef Undef "
    width: 100%;
  "
      [],
     ";
")]).

Definition Oy : Styled := styled "Oy" "button" (
  css "
  border: 0;
  width: 100%;
  text-align: left;
  & > * {
    vertical-align: middle;
  }

  "
   [(sel Zu,
     " {
    polygon {
      fill: ");
    (dyn (λ: p, let: e := p ~> "theme" in Ur (e ~> "colors" ~> "tonalOffset") (e ~> "colors" ~> "gray" ~> "100")),
     ";
    }
  }
")]).

Definition Ey : Styled := styled "Ey" "span" (
  css "
  text-decoration: "
   [(dyn (λ: e, ite (e ~> "$deprecated") (lit "line-through") (lit "none")),
     ";
  margin-right: 8px;
")]).

Definition _y : Styled := extend "_y" gy (
  css "
  margin: 0 5px 0 0;
" []).

End styles.
