(* ===== verification/RedocOperations.v ===== *)
(** The style sheets of an operation: callbacks, endpoint, servers, responses and samples. Each
    definition is one template of the bundle, under its name there. *)

From S2P Require Import Prelude GoStrings.
From S2P Require Import Float64 JsNumber JsValue StyledComponents RedocColor.

From S2P Require Import RedocPanels RedocTables RedocCode RedocFields RedocMenu.

Local Open Scope Z_scope.
Local Open Scope js_scope.

(** [className: `http-verb ${e.type}`]. *)
Definition attrs_Ry : list attr := [λ c,
  let e := Some (c_props c) in
  v ← template "http-verb " [(e ~> "type", "")]; Some [("className", v)]].
Definition attrs_nb : list attr := [λ _, Some [("as", Str "caption")]].

(** What a label of a required or an optional part looks like. *)
Definition Ky : string := "
  text-transform: lowercase;
  margin-left: 0;
  line-height: 1.5em;
".

Section styles.
Context `{ids : ComponentIds}.

Definition Ay : Styled := styled "Ay" "component Ay" (
  css "
  padding: 10px;
  border-radius: 2px;
  margin-bottom: 4px;
  line-height: 1.5em;
  background-color: "
   [(dyn (λ: p, let: e := p ~> "theme" in e ~> "colors" ~> "gray" ~> "100"),
     ";
  cursor: pointer;
  outline-color: ");
    (dyn (λ: p, let: e := p ~> "theme" in Ur (e ~> "colors" ~> "tonalOffset") (e ~> "colors" ~> "gray" ~> "100")),
     ";
")]).

Definition jy : Styled := styled "jy" "div" (
  css "
  padding: 10px 25px;
  background-color: "
   [(dyn (λ: p, let: e := p ~> "theme" in e ~> "colors" ~> "gray" ~> "50"),
     ";
  margin-bottom: 5px;
  margin-top: 5px;
")]).

Definition Py : Styled := styled "Py" "div" (
  css "
  cursor: pointer;
  position: relative;
  margin-bottom: 5px;
" []).

Definition Ty : Styled := styled "Ty" "span" (
  css "
  font-family: "
   [(dyn (λ: e, e ~> "theme" ~> "typography" ~> "code" ~> "fontFamily"),
     ";
  margin-left: 10px;
  flex: 1;
  overflow-x: hidden;
  text-overflow: ellipsis;
")]).

Definition Iy : Styled := styled "Iy" "button" (
  css "
  outline: 0;
  color: inherit;
  width: 100%;
  text-align: left;
  cursor: pointer;
  padding: 10px 30px 10px "
   [(dyn (λ: e, ite (e ~> "$inverted") (lit "10px") (lit "20px")),
     ";
  border-radius: ");
    (dyn (λ: e, ite (e ~> "$inverted") (lit "0") (lit "4px 4px 0 0")),
     ";
  background-color: ");
    (dyn (λ: e, ite (e ~> "$inverted") (lit "transparent") (e ~> "theme" ~> "codeBlock" ~> "backgroundColor")),
     ";
  display: flex;
  white-space: nowrap;
  align-items: center;
  border: ");
    (dyn (λ: e, ite (e ~> "$inverted") (lit "0") (lit "1px solid transparent")),
     ";
  border-bottom: ");
    (dyn (λ: e, ite (e ~> "$inverted") (lit "1px solid #ccc") (lit "0")),
     ";
  transition: border-color 0.25s ease;

  ");
    (dyn (λ: e, or_ (and_ (and_ (e ~> "$expanded") (not_ (e ~> "$inverted"))) (template "border-color: " [(e ~> "theme" ~> "colors" ~> "border" ~> "dark", ";")])) (lit "")),
     "

  .");
    (sel Ty,
     " {
    color: ");
    (dyn (λ: e, ite (e ~> "$inverted") (e ~> "theme" ~> "colors" ~> "text" ~> "primary") (lit "#ffffff")),
     ";
  }
  &:focus {
    box-shadow: inset 0 2px 2px rgba(0, 0, 0, 0.45), 0 2px 0 rgba(128, 128, 128, 0.25);
  }
")]).

Definition Ry : Styled := styled_attrs "Ry" "span" attrs_Ry (
  css "
  font-size: "
   [(dyn (λ: e, ite (e ~> "$compact") (lit "0.8em") (lit "0.929em")),
     ";
  line-height: ");
    (dyn (λ: e, ite (e ~> "$compact") (lit "18px") (lit "20px")),
     ";
  background-color: ");
    (dyn (λ: e, or_ (index (e ~> "theme" ~> "colors" ~> "http") (e ~> "type")) (lit "#999999")),
     ";
  color: #ffffff;
  padding: ");
    (dyn (λ: e, ite (e ~> "$compact") (lit "2px 8px") (lit "3px 10px")),
     ";
  text-transform: uppercase;
  font-family: ");
    (dyn (λ: e, e ~> "theme" ~> "typography" ~> "headings" ~> "fontFamily"),
     ";
  margin: 0;
")]).

Definition Ny : Styled := styled "Ny" "div" (
  css "
  position: absolute;
  width: 100%;
  z-index: 100;
  background: "
   [(dyn (λ: e, e ~> "theme" ~> "rightPanel" ~> "servers" ~> "overlay" ~> "backgroundColor"),
     ";
  color: ");
    (dyn (λ: e, e ~> "theme" ~> "rightPanel" ~> "servers" ~> "overlay" ~> "textColor"),
     ";
  box-sizing: border-box;
  box-shadow: 0 0 6px rgba(0, 0, 0, 0.33);
  overflow: hidden;
  border-bottom-left-radius: 4px;
  border-bottom-right-radius: 4px;
  transition: all 0.25s ease;
  visibility: hidden;
  ");
    (dyn (λ: e, ite (e ~> "$expanded") (lit "visibility: visible;") (lit "transform: translateY(-50%) scaleY(0);")),
     "
")]).

Definition y_ : Styled := styled "$y" "div" (
  css "
  padding: 10px;
" []).

Definition Ly : Styled := styled "Ly" "div" (
  css "
  padding: 5px;
  border: 1px solid #ccc;
  background: "
   [(dyn (λ: e, e ~> "theme" ~> "rightPanel" ~> "servers" ~> "url" ~> "backgroundColor"),
     ";
  word-break: break-all;
  color: ");
    (dyn (λ: e, e ~> "theme" ~> "colors" ~> "primary" ~> "main"),
     ";
  > span {
    color: ");
    (dyn (λ: e, e ~> "theme" ~> "colors" ~> "text" ~> "primary"),
     ";
  }
")]).

Definition Zy : Styled := extend "Zy" sm (
  css "
  "
   [(V (Str Ky),
     "
")]).

Definition Jy : Styled := styled "Jy" "div" (
  css "
  "
   [(V (Str Ky),
     "
  color: ");
    (dyn (λ: p, let: e := p ~> "theme" in e ~> "colors" ~> "text" ~> "secondary"),
     ";
  font-size: ");
    (dyn (λ: e, e ~> "theme" ~> "schema" ~> "labelsTextSize"),
     ";
")]).

Definition eb : Styled := styled "eb" "component eb" (
  css "
  display: block;
  border: 0;
  width: 100%;
  text-align: left;
  padding: 10px;
  border-radius: 2px;
  margin-bottom: 4px;
  line-height: 1.5em;
  cursor: pointer;

  color: "
   [(dyn (λ: e, (index (e ~> "theme" ~> "colors" ~> "responses") (e ~> "type")) ~> "color"),
     ";
  background-color: ");
    (dyn (λ: e, (index (e ~> "theme" ~> "colors" ~> "responses") (e ~> "type")) ~> "backgroundColor"),
     ";
  &:focus {
    outline: auto ");
    (dyn (λ: e, (index (e ~> "theme" ~> "colors" ~> "responses") (e ~> "type")) ~> "color"),
     ";
  }
  ");
    (dyn (λ: e, ite (e ~> "empty") (lit ("
cursor: default;
&::before {
  content: " +:+ dquote +:+ "—" +:+ dquote +:+ ";
  font-weight: bold;
  width: 1.5em;
  text-align: center;
  display: inline-block;
  vertical-align: top;
}
&:focus {
  outline: 0;
}
")) (lit "")),
     ";
")]).

Definition tb : Styled := styled "tb" "div" (
  css "
  padding: 10px;
" []).

Definition nb : Styled := extend_attrs "nb" qu attrs_nb (
  css "
  text-align: left;
  margin-top: 1em;
  caption-side: top;
" []).

Definition rb : Styled := styled "rb" "strong" (
  css "
  vertical-align: top;
" []).

Definition db : Styled := styled "db" "h3" (
  css "
  font-size: 1.3em;
  padding: 0.2em 0;
  margin: 3em 0 1.1em;
  color: "
   [(dyn (λ: p, let: e := p ~> "theme" in e ~> "colors" ~> "text" ~> "primary"),
     ";
  font-weight: normal;
")]).

Definition xb : Styled := styled "xb" "div" (
  css "
  margin-bottom: "
   [(dyn (λ: p, let: e := p ~> "theme" in mul (num 3) (e ~> "spacing" ~> "unit")),
     "px;
")]).

Definition Sb : Styled := styled "Sb" "h3" (
  css "
  font-size: 1.3em;
  padding: 0.2em 0;
  margin: 3em 0 1.1em;
  color: "
   [(dyn (λ: p, let: e := p ~> "theme" in e ~> "colors" ~> "text" ~> "primary"),
     ";
  font-weight: normal;
")]).

Definition Nb : Styled := styled "Nb" "div" (
  css "
  margin-top: 15px;
" []).

Definition qb : Styled := styled "qb" "div" (
  css "
  background: "
   [(dyn (λ: p, let: e := p ~> "theme" in e ~> "codeBlock" ~> "backgroundColor"),
     ";
  padding: ");
    (dyn (λ: e, mul (num 4) (e ~> "theme" ~> "spacing" ~> "unit")),
     "px;
")]).

Definition Jb : Styled := styled "Jb" "div" (
  css "
  margin-bottom: "
   [(dyn (λ: p, let: e := p ~> "theme" in mul (num 6) (e ~> "spacing" ~> "unit")),
     "px;
")]).

Definition Iv : Styled := styled "Iv" "div" (
  css "
  user-select: none;
  width: 20px;
  height: 20px;
  align-self: center;
  display: flex;
  flex-direction: column;
  color: "
   [(dyn (λ: e, e ~> "theme" ~> "colors" ~> "primary" ~> "main"),
     ";
")]).

End styles.
