(* ===== verification/RedocPage.v ===== *)
(** The style sheets of the page: menu bar and its button, content, search. Each
    definition is one template of the bundle, under its name there. *)

From S2P Require Import Prelude GoStrings.
From S2P Require Import Float64 JsNumber JsValue StyledComponents RedocColor.

From S2P Require Import RedocPanels RedocTables RedocCode RedocFields RedocMenu RedocOperations.

Local Open Scope Z_scope.
Local Open Scope js_scope.

Definition attrs_Bv : list attr := [λ _, Some [("className", Str "search-input")]].
Definition attrs_qv : list attr := [λ _, Some [("className", Str "search-icon")]].

Section styles.
Context `{ids : ComponentIds} `{MathPow}.

Definition v_ : Styled := styled "$v" "div" (
  css "
  width: "
   [(dyn (λ: e, e ~> "theme" ~> "sidebar" ~> "width"),
     ";
  background-color: ");
    (dyn (λ: e, e ~> "theme" ~> "sidebar" ~> "backgroundColor"),
     ";
  overflow: hidden;
  display: flex;
  flex-direction: column;

  backface-visibility: hidden;
  /* contain: strict; TODO: breaks layout since Chrome 80*/

  height: 100vh;
  position: sticky;
  position: -webkit-sticky;
  top: 0;

  ");
    (va_lessThan "small" Undef Undef "
    position: fixed;
    z-index: 20;
    width: 100%;
    background: "
      [(dyn (λ: p, let: e := p ~> "theme" in e ~> "sidebar" ~> "backgroundColor"),
        ";
    display: ");
       (dyn (λ: e, ite (e ~> "$open") (lit "flex") (lit "none")),
        ";
  ")],
     ";

  @media print {
    display: none;
  }
")]).

Definition Lv : Styled := styled "Lv" "div" (
  css "
  outline: none;
  user-select: none;
  background-color: "
   [(dyn (λ: p, let: e := p ~> "theme" in e ~> "fab" ~> "backgroundColor"),
     ";
  color: ");
    (dyn (λ: e, e ~> "theme" ~> "colors" ~> "primary" ~> "main"),
     ";
  display: none;
  cursor: pointer;
  position: fixed;
  right: 20px;
  z-index: 100;
  border-radius: 50%;
  box-shadow: 0 0 20px rgba(0, 0, 0, 0.3);
  ");
    (va_lessThan "small" Undef Undef "
    display: flex;
  "
      [],
     ";

  bottom: 44px;

  width: 60px;
  height: 60px;
  padding: 0 20px;
  svg {
    color: ");
    (dyn (λ: p, let: e := p ~> "theme" in e ~> "fab" ~> "color"),
     ";
  }

  @media print {
    display: none;
  }
")]).

Definition Mv : Styled := styled "Mv" "div" (
  css "
  "
   [(dyn (λ: p, let: e := p ~> "theme" in template "
  font-family: " [(e ~> "typography" ~> "fontFamily", ";
  font-size: "); (e ~> "typography" ~> "fontSize", ";
  font-weight: "); (e ~> "typography" ~> "fontWeightRegular", ";
  line-height: "); (e ~> "typography" ~> "lineHeight", ";
  color: "); (e ~> "colors" ~> "text" ~> "primary", ";
  display: flex;
  position: relative;
  text-align: left;

  -webkit-font-smoothing: "); (e ~> "typography" ~> "smoothing", ";
  font-smoothing: "); (e ~> "typography" ~> "smoothing", ";
  "); (ite (e ~> "typography" ~> "optimizeSpeed") (lit "text-rendering: optimizeSpeed !important") (lit ""), ";

  tap-highlight-color: rgba(0, 0, 0, 0);
  text-size-adjust: 100%;

  * {
    box-sizing: border-box;
    -webkit-tap-highlight-color: rgba(255, 255, 255, 0);
  }
")]),
     ";
")]).

Definition Fv : Styled := styled "Fv" "div" (
  css "
  z-index: 1;
  position: relative;
  overflow: hidden;
  width: calc(100% - "
   [(dyn (λ: e, e ~> "theme" ~> "sidebar" ~> "width"),
     ");
  ");
    (va_lessThan "small" (Bool true) Undef "
    width: 100%;
  "
      [],
     ";

  contain: layout;
")]).

Definition zv : Styled := styled "zv" "div" (
  css "
  background: "
   [(dyn (λ: p, let: e := p ~> "theme" in e ~> "rightPanel" ~> "backgroundColor"),
     ";
  position: absolute;
  top: 0;
  bottom: 0;
  right: 0;
  width: ");
    (dyn (λ: p, let: e := p ~> "theme" in
      ite (endsWith (e ~> "rightPanel" ~> "width") "%")
        (let: t := parse_int (e ~> "rightPanel" ~> "width") in
         template "calc((100% - " [(e ~> "sidebar" ~> "width", ") * "); (div t (num 100), ")")])
        (e ~> "rightPanel" ~> "width")),
     ";
  ");
    (va_lessThan "medium" (Bool true) Undef "
    display: none;
  "
      [],
     ";
")]).

Definition Uv : Styled := styled "Uv" "div" (
  css "
  padding: 5px 0;
" []).

Definition Bv : Styled := styled_attrs "Bv" "input" attrs_Bv (
  css "
  width: calc(100% - "
   [(dyn (λ: e, mul (num 8) (e ~> "theme" ~> "spacing" ~> "unit")),
     "px);
  box-sizing: border-box;
  margin: 0 ");
    (dyn (λ: e, mul (num 4) (e ~> "theme" ~> "spacing" ~> "unit")),
     "px;
  padding: 5px ");
    (dyn (λ: e, mul (num 2) (e ~> "theme" ~> "spacing" ~> "unit")),
     "px 5px
    ");
    (dyn (λ: e, mul (num 4) (e ~> "theme" ~> "spacing" ~> "unit")),
     "px;
  border: 0;
  border-bottom: 1px solid
    ");
    (dyn (λ: p, let: e := p ~> "theme" in ite (gt_ (Vr (e ~> "sidebar" ~> "backgroundColor")) (Some (Num (dec 5 1)))) (Ur (Some (Num (dec 1 1))) (e ~> "sidebar" ~> "backgroundColor")) (Hr (Some (Num (dec 1 1))) (e ~> "sidebar" ~> "backgroundColor"))),
     ";
  font-family: ");
    (dyn (λ: p, let: e := p ~> "theme" in e ~> "typography" ~> "fontFamily"),
     ";
  font-weight: bold;
  font-size: 13px;
  color: ");
    (dyn (λ: e, e ~> "theme" ~> "sidebar" ~> "textColor"),
     ";
  background-color: transparent;
  outline: none;
")]).

Definition qv : Styled := styled_attrs "qv" "component qv" attrs_qv (
  css "
  position: absolute;
  left: "
   [(dyn (λ: e, mul (num 4) (e ~> "theme" ~> "spacing" ~> "unit")),
     "px;
  height: 1.8em;
  width: 0.9em;

  path {
    fill: ");
    (dyn (λ: e, e ~> "theme" ~> "sidebar" ~> "textColor"),
     ";
  }
")]).

Definition Vv : Styled := styled "Vv" "div" (
  css "
  padding: "
   [(dyn (λ: e, e ~> "theme" ~> "spacing" ~> "unit"),
     "px 0;
  background-color: ");
    (dyn (λ: p, let: e := p ~> "theme" in Ur (Some (Num (dec 5 2))) (e ~> "sidebar" ~> "backgroundColor")),
     "};
  color: ");
    (dyn (λ: e, e ~> "theme" ~> "sidebar" ~> "textColor"),
     ";
  min-height: 150px;
  max-height: 250px;
  border-top: ");
    (dyn (λ: p, let: e := p ~> "theme" in Ur (Some (Num (dec 1 1))) (e ~> "sidebar" ~> "backgroundColor")),
     "};
  border-bottom: ");
    (dyn (λ: p, let: e := p ~> "theme" in Ur (Some (Num (dec 1 1))) (e ~> "sidebar" ~> "backgroundColor")),
     "};
  margin-top: 10px;
  line-height: 1.4;
  font-size: 0.9em;
  
  li {
    background-color: inherit;
  }

  ");
    (sel wy,
     " {
    padding-top: 6px;
    padding-bottom: 6px;

    &:hover,
    &.active {
      background-color: ");
    (dyn (λ: p, let: e := p ~> "theme" in Ur (Some (Num (dec 1 1))) (e ~> "sidebar" ~> "backgroundColor")),
     ";
    }

    > svg {
      display: none;
    }
  }
")]).

Definition Wv : Styled := styled "Wv" "i" (
  css "
  position: absolute;
  display: inline-block;
  width: "
   [(dyn (λ: e, mul (num 2) (e ~> "theme" ~> "spacing" ~> "unit")),
     "px;
  text-align: center;
  right: ");
    (dyn (λ: e, mul (num 4) (e ~> "theme" ~> "spacing" ~> "unit")),
     "px;
  line-height: 2em;
  vertical-align: middle;
  margin-right: 2px;
  cursor: pointer;
  font-style: normal;
  color: '#666';
")]).

End styles.
