(* ===== verification/RedocSheets.v ===== *)
(** The style sheets of Redoc as a whole: the catalogue of its components, and that the
    braces of the text each adds to the page are balanced, whatever the properties and
    the theme, except for five sheets whose braces never are. *)
From S2P Require Import Prelude GoStrings.
From S2P Require Import Float64 JsNumber JsValue StyledComponents StyledLaws RedocColor CssBalance.
From S2P Require Import RedocPanels RedocTables RedocCode RedocFields RedocMenu RedocOperations RedocPage.

(** * The components *)

Section catalogue.
Context `{ids : ComponentIds} `{MathPow}.
Local Open Scope list_scope.

(** The components whose sheets are balanced, in the order of the bundle. *)
Definition sound_components : list Styled :=
  [ka; Ea; _a; Iu; Ru; Nu; u_; Lu; Fu; zu; Uu; Bu; qu; Qu; Zu; Ju; tp; np; rp; ip; op; ap;
   sp; lp; cp; pp; dp; fp; Vp; Wp_0; Wp; Hp; Yp; Gp; Ad; Pd; Id; Rd; Nd; Nf; qf; Hf; Yf; Gf;
   Qf; Xf; ch; uh; yh; bh; vh; xh; wh; Sh; tm; nm; rm; im; om; sm; lm; cm; um; hm; mm; bm;
   vm; km; jm; eg; Ig; Rg_0; Rg_1; Rg; Ng; g_; Lg; Dg; Mg; Fg; zg; Ug; qg; Vg; Wg; Zg; Jg;
   ey; ty; ny; iy; oy; ay; gy; by_; vy; wy; ky; Sy; Oy; Ey; _y; Ay; jy; Py; Ty; Iy; Ry; Ny;
   y_; Ly; Zy; Jy; eb; tb; nb; rb; db; xb; Sb; Nb; qb; Jb; Iv; v_; Lv; Mv; Fv; zv; Uv; Bv;
   qv; Wv].

(** The components whose sheets close a block too many. *)
Definition faulty_components : list Styled := [up; pm; dm; fm; Vv].
End catalogue.

(** * Balance *)

(** Every level of a component's style is a template whose text is balanced. *)
Fixpoint bal_style (c : ctx) (cs : ComponentStyle) : Prop :=
  match cs with
  | CStyle _ base rules =>
      (∃ s l, rules = css s l ∧ bal_rule c (css s l)) ∧
      match base with Some b => bal_style c b | None => True end
  end.

Section sheets.
Context `{ids : ComponentIds} `{MathPow}.
Context (ids_clean : ∀ n, no_braces (component_id n) = true).
Context (c : ctx) (Hc : clean_ctx c).

Lemma bal_lessThan e t n s r :
  clean n = true → bal_rule c (css s r) → bal_rule c (va_lessThan e t n s r).
Proof.
  intros Hn Hr. unfold va_lessThan. balance.
  - apply bal_V, clean_balanced. by destruct (truthy t).
  - apply bal_V, clean_balanced. by destruct (truthy n).
Qed.

Lemma bal_wa e : bal_rule c (wa e).
Proof.
  destruct Hc as [Hp Hh]. intros t Ht. cbn in Ht. apply bind_Some in Ht as (r & Hr & Ht).
  apply bind_Some in Hr as (theme & Htheme & Hr).
  assert (∃ v, r = V v ∧ clean v = true) as (v & -> & Hv).
  { destruct (c_hook c) as [h|].
    - assert (data (h e (c_props c)) = Some r) as (v & Hv & ->)%fmap_Some by (by destruct theme).
      exists v. split; [done|]. by eapply Hh.
    - exists Undef. by destruct theme; simplify_eq/=. }
  simplify_eq/=. by apply clean_balanced.
Qed.

Lemma bal_Mu e : bal_rule c (Mu e).
Proof. unfold Mu. balance. apply bal_V, clean_balanced. unfold Du. by repeat case_match. Qed.
Lemma bal_ep : bal_rule c ep.
Proof. unfold ep. balance. Qed.
Lemma bal_Rf : bal_rule c Rf.
Proof. unfold Rf. balance. Qed.
Lemma bal_lh : bal_rule c lh.
Proof. unfold lh. balance. Qed.
Lemma bal_Gu e : no_braces e = true → bal_rule c (Gu e).
Proof.
  intros He. assert (bal_rule c (V (Str e))) by (apply bal_V, bal_Str, no_braces_balanced, He).
  unfold Gu. balance.
Qed.
Lemma bal_Oa : bal_rule c Oa.
Proof. apply bal_Key. vm_compute. reflexivity. Qed.
Lemma bal_sel C : (∃ n, styledComponentId C = component_id n) → bal_rule c (sel C).
Proof. intros [n Hn]. apply bal_Sel. by rewrite Hn. Qed.
Lemma clean_Ku e : clean_expr (Ku e).
Proof. unfold Ku. apply clean_expr_any. intros v w. by apply get_clean. Qed.
Lemma clean_yy e p n : clean_expr p → clean_expr (yy e p n).
Proof. intros Hp. unfold yy. clean_solve. Qed.
#[local] Hint Resolve clean_Ku clean_yy : css.
Lemma bal_xy e : bal_orule c (xy e).
Proof.
  unfold xy. intros r (v & _ & [= <-])%bind_Some. repeat case_match; [unfold xy_0|unfold xy_1|]; balance.
Qed.

Ltac style_step :=
  match goal with
  | |- bal_rule _ (wa _) => apply bal_wa
  | |- bal_rule _ (Mu _) => apply bal_Mu
  | |- bal_rule _ ep => apply bal_ep
  | |- bal_rule _ Rf => apply bal_Rf
  | |- bal_rule _ lh => apply bal_lh
  | |- bal_rule _ Oa => apply bal_Oa
  | |- bal_rule _ (Gu _) => apply bal_Gu; reflexivity
  | |- bal_rule _ (sel _) => apply bal_sel; eexists; reflexivity
  | |- bal_rule _ (va_lessThan _ _ _ _ _) => apply bal_lessThan; [reflexivity|]
  | |- bal_orule _ (xy _) => apply bal_xy
  | |- _ => bal_step
  end.
Ltac styles := repeat style_step.

Lemma bal_styled name tag a s l :
  bal_rule c (css s l) → bal_style c (componentStyle (styled_attrs name tag a (css s l))).
Proof. intros ?. split; [|done]. by exists s, l. Qed.
Lemma bal_extend name base a s l :
  bal_style c (componentStyle base) → bal_rule c (css s l) →
  bal_style c (componentStyle (extend_attrs name base a (css s l))).
Proof. intros ? ?. split; [|done]. by exists s, l. Qed.

Ltac head t := match t with ?f _ => head f | _ => t end.
Ltac unfold_component :=
  match goal with |- bal_style _ (componentStyle ?C) => let h := head C in unfold h; try unfold styled; try unfold extend end.
Ltac style :=
  unfold_component;
  match goal with
  | |- bal_style _ (componentStyle (styled_attrs _ _ _ _)) => apply bal_styled; styles
  | |- bal_style _ (componentStyle (extend_attrs _ _ _ _)) => apply bal_extend; [style|styles]
  end.

(** * Sheets that close a block too many *)

Lemma generate_own id base s l L t :
  generate (CStyle id base (css s l)) c = Some L → text c (css s l) = Some t → (id, t) ∈ L.
Proof.
  rewrite generate_css. intros (before & _ & H0)%bind_Some Ht. rewrite Ht in H0. simplify_eq/=.
  set_solver.
Qed.

Definition bad_style (cs : ComponentStyle) : Prop :=
  ∀ L, generate cs c = Some L → ∃ p, p ∈ L ∧ balanced p.2 = false.

Lemma bad_css id base s l us :
  Forall2 (λ h u, shaped c h.1 u) l us → balanced (s +:+ shape us l) = false →
  bad_style (CStyle id base (css s l)).
Proof.
  intros Hl Hb L HL. pose proof HL as HL'. rewrite generate_css in HL'.
  apply bind_Some in HL' as (before & _ & (t & Ht & _)%bind_Some).
  exists (id, t). split; [by eapply generate_own|].
  by eapply shaped_unbalanced, Ht; [apply shaped_css|].
Qed.

Lemma bad_extended id base rules : bad_style base → bad_style (CStyle id (Some base) rules).
Proof.
  intros Hb L HL. cbn [generate] in HL. apply bind_Some in HL as (before & Hbefore & HL).
  apply bind_Some in HL as (t & _ & [= <-]). destruct (Hb _ Hbefore) as (p & Hp & ?).
  exists p. split; [|done]. apply elem_of_app. by left.
Qed.

Ltac shapes :=
  repeat (apply List.Forall2_cons; [cbn [fst]|]); [..|apply List.Forall2_nil].

Lemma bad_up : bad_style (componentStyle up).
Proof.
  apply (bad_css _ _ _ _ [""; ""]); [shapes; apply bal_shaped; styles|vm_compute; reflexivity].
Qed.

Lemma bad_Vv : bad_style (componentStyle Vv).
Proof.
  apply (bad_css _ _ _ _ [""; ""; ""; ""; ""; ""; ""]); [shapes; apply bal_shaped; styles|vm_compute; reflexivity].
Qed.

(** The interpolated text of [pm] and [fm] ends with a brace of its own. *)
Lemma shaped_theme (k : value → string * list (expr * string)) u :
  (∀ v, clean v = true → Forall (λ h, clean_expr h.1) (k v).2) →
  (∀ v, (k v).1 +:+ glued (map snd (k v).2) = u) →
  shaped c (dyn (λ p, e ← member (Some p) "theme"; template (k e).1 (k e).2)) u.
Proof.
  intros Hk Hu t Ht. cbn in Ht. apply bind_Some in Ht as (r & Hr & Ht).
  apply fmap_Some in Hr as (w & Hw & ->). apply bind_Some in Hw as (e & He & Hw).
  assert (clean e = true) as Hce by (eapply get_clean; [apply Hc|done]).
  apply template_no_braces in Hw as (x & -> & Hx); [|by apply Hk]. rewrite Hu in Hx.
  cbn in Ht. injection Ht as <-. intros d. rewrite <-Hx.
  destruct (String.eqb x "") eqn:E; cbn; [|done]. by apply String.eqb_eq in E as ->.
Qed.

Ltac theme_text :=
  eapply (shaped_theme (λ v, (_, _)));
  [intros ? ?; cbn [snd]; repeat constructor; cbn [fst]; clean_solve
  |intros ?; cbn [fst snd map]; reflexivity].

Lemma bad_pm : bad_style (componentStyle pm).
Proof.
  unfold pm, extend. eapply (bad_css _ _ _ _ [_; ""]).
  - shapes; [theme_text|apply bal_shaped; styles].
  - vm_compute. reflexivity.
Qed.

Lemma bad_fm : bad_style (componentStyle fm).
Proof.
  unfold fm, extend. eapply (bad_css _ _ _ _ [_; ""]).
  - shapes; [theme_text|apply bal_shaped; styles].
  - vm_compute. reflexivity.
Qed.

(** ** All components *)

(** The texts of a component whose templates are balanced. *)
Lemma generate_balanced cs L :
  bal_style c cs → generate cs c = Some L → Forall (λ p, balanced p.2 = true) L.
Proof.
  revert L. induction cs as [id base rules IH] using ComponentStyle_nested_ind.
  intros L [(s & l & -> & Hr) Hb] HL. rewrite generate_css in HL.
  apply bind_Some in HL as (before & Hbefore & (t & Ht & [= <-])%bind_Some).
  apply Forall_app. split; [|apply Forall_singleton; by apply Hr].
  destruct base as [b|]; [by eapply IH|by simplify_eq].
Qed.

Lemma sound_balanced : Forall (λ C, bal_style c (componentStyle C)) sound_components.
Proof. unfold sound_components. repeat (apply List.Forall_cons; [style|]). apply List.Forall_nil. Qed.
End sheets.
