(* ===== verification/RedocJson.v ===== *)
(** The JSON viewer of Redoc: the markup of a JSON value, built by recursion with a counter
    of the depth ([th]) that the bundle keeps in a variable. The markup shows the value
    and nothing else: its text is the value, its tags nest, and none comes from the
    data. *)
From S2P Require Import Prelude GoStrings.
From S2P Require Import Float64 JsNumber JsValue.
Local Open Scope Z_scope.

(** * Escaping *)

Fixpoint escape (f : ascii → string) (s : string) : string :=
  match s with
  | EmptyString => ""
  | String a s' => f a +:+ escape f s'
  end.
Definition one (a : ascii) : string := String a "".

(** [s.replace(/c/g, r)]. *)
Definition replace_all (c : ascii) (r : string) (s : string) : string :=
  escape (λ a, if Ascii.eqb a c then r else one a) s.

(** [rh]: text in markup. *)
Definition rh (s : string) : string :=
  replace_all ">" "&gt;" (replace_all "<" "&lt;" (replace_all (of_code 34) "&quot;" (replace_all "&" "&amp;" s))).

(** [ih]: a text as JSON writes it, without the quotes. *)
Definition json_char (a : ascii) : string :=
  let c := code a in
  if c =? 34 then "\" +:+ dquote
  else if c =? 92 then "\\"
  else if c =? 8 then "\b"
  else if c =? 9 then "\t"
  else if c =? 10 then "\n"
  else if c =? 12 then "\f"
  else if c =? 13 then "\r"
  else if c <? 32 then "\u00" +:+ String (digit_char (c / 16)) (one (digit_char (c mod 16)))
  else one a.
Definition ih (s : string) : string := escape json_char s.

(** [encodeURI]: bytes other than letters, digits and [;,/?:@&=+$-_.!~*'()#] are
    written in hexadecimal. *)
Definition uri_char (a : ascii) : string :=
  if is_digit a || is_upper a || is_lower a || contains_byte a ";,/?:@&=+$-_.!~*'()#" then one a
  else String "%" (String (to_upper_byte (digit_char (code a / 16)))
    (one (to_upper_byte (digit_char (code a mod 16))))).
Definition encodeURI (s : string) : string := escape uri_char s.

(** * Markup *)

Definition dq : string := dquote.

(** [oh], [ah]. *)
Definition oh (e t : string) : string :=
  "<span class=" +:+ dq +:+ t +:+ dq +:+ ">" +:+ rh e +:+ "</span>".
Definition ah (e : string) : string :=
  "<span class=" +:+ dq +:+ "token punctuation" +:+ dq +:+ ">" +:+ e +:+ "</span>".

(** White space of the language beyond ASCII, as bytes. *)
Definition wide_spaces : list string :=
  map of_codes ([[194; 160]; [225; 154; 128]; [226; 128; 168]; [226; 128; 169]; [226; 128; 175];
    [226; 129; 159]; [227; 128; 128]; [239; 187; 191]] ++
    map (λ z, [226; 128; z]) [128; 129; 130; 131; 132; 133; 134; 135; 136; 137; 138]).
Fixpoint has_space (s : string) : bool :=
  match s with
  | EmptyString => false
  | String a s' => is_js_space a || existsb (has_prefix s) wide_spaces || has_space s'
  end.
(** [/^(http|https):\/\/[^\s]+$/]. *)
Definition is_link (s : string) : bool :=
  let long p := has_prefix s p && (String.length p <? String.length s)%nat in
  (long "http://" || long "https://") && negb (has_space s).

(** A number of levels [t] that is exceeded by [n]. *)
Definition exceeds (n : Z) (t : float64) : bool := f64_lt t (f64_of_int n).

Definition collapser (th : Z) (t : float64) : string :=
  "<button class=" +:+ dq +:+ "collapser" +:+ dq +:+ " aria-label=" +:+ dq +:+
  (if exceeds th (f64_add t (f64_of_int 1)) then "expand" else "collapse") +:+ dq +:+ "></button>".
Definition ellipsis (kind : string) : string :=
  "<span class=" +:+ dq +:+ "ellipsis" +:+ dq +:+ "></span><ul class=" +:+ dq +:+ kind +:+
  " collapsible" +:+ dq +:+ ">".
Definition item (collapsed : string) : string :=
  "<li><div class=" +:+ dq +:+ "hoverable " +:+ collapsed +:+ dq +:+ ">".
Definition item_end : string := "</div></li>".
Definition collapsed (th : Z) (t : float64) : string := if exceeds th t then "collapsed" else "".

(** [sh(e, t)] with the counter [th]: the markup and the counter after it. *)
Fixpoint sh (e : value) (t : float64) (th : Z) : string * Z :=
  match e with
  | Undef | Null => (oh "null" "token keyword", th)
  | Arr l =>
      let th := th + 1 in
      let n := collapsed th t in
      let '(items, th') :=
        (fix go (l : list value) (th : Z) : string * Z :=
           match l with
           | [] => ("", th)
           | u :: l' =>
               let '(s, th1) := sh u t th in
               let '(r, th2) := go l' th1 in
               (item n +:+ s +:+ (match l' with [] => "" | _ => "," end) +:+ item_end +:+ r, th2)
           end) l th in
      (match l with
       | [] => ah "[ ]"
       | _ => collapser th t +:+ ah "[" +:+ ellipsis "array" +:+ items +:+ "</ul>" +:+ ah "]"
       end, th' - 1)
  | Obj l =>
      let th := th + 1 in
      let n := collapsed th t in
      let '(items, th') :=
        (fix go (l : list (string * value)) (th : Z) : string * Z :=
           match l with
           | [] => ("", th)
           | (k, u) :: l' =>
               let '(s, th1) := sh u t th in
               let '(r, th2) := go l' th1 in
               (item n +:+ "<span class=" +:+ dq +:+ "property token string" +:+ dq +:+ ">" +:+ dq +:+ rh k +:+
                dq +:+ "</span>: " +:+ s +:+ (match l' with [] => "" | _ => ah "," end) +:+ item_end +:+ r, th2)
           end) l th in
      (match l with
       | [] => ah "{ }"
       | _ => collapser th t +:+ ah "{" +:+ ellipsis "obj" +:+ items +:+ "</ul>" +:+ ah "}"
       end, th' - 1)
  | Num x => (oh (number_to_string x) "token number", th)
  | Str s =>
      (if is_link s
       then oh dq "token string" +:+ "<a href=" +:+ dq +:+ encodeURI s +:+ dq +:+ ">" +:+ rh (ih s) +:+ "</a>" +:+
            oh dq "token string"
       else oh (dq +:+ ih s +:+ dq) "token string", th)
  | Bool b => (oh (if b then "true" else "false") "token boolean", th)
  end.

(** [nh]: the markup of the viewer. *)
Definition nh (e : value) (t : float64) : string :=
  "<div class=" +:+ dq +:+ "redoc-json" +:+ dq +:+ ">" +:+ "<code>" +:+ (sh e t 1).1 +:+ "</code>" +:+ "</div>".

(** * Reading markup *)

(** Where a reader of the markup is: in text, in the name of a tag (of an end tag, when
    [close]), or after the name, perhaps in a quoted value. *)
Inductive reader : Type :=
  | Text
  | Name (close : bool) (acc : string)
  | Attrs (name : string) (quoted : bool).

(** The tags the viewer uses. *)
Definition known (name : string) : bool :=
  existsb (String.eqb name) ["div"; "code"; "span"; "ul"; "li"; "button"; "a"].
Definition pop (name : string) (stack : list string) : option (list string) :=
  match stack with n :: rest => if String.eqb n name then Some rest else None | [] => None end.

(** The text of markup whose tags are known and nest; [None] for other markup. *)
Fixpoint read_markup (st : reader) (stack : list string) (s : string) : option string :=
  match s with
  | EmptyString => match st, stack with Text, [] => Some "" | _, _ => None end
  | String a s' =>
      match st with
      | Text =>
          if Ascii.eqb a "<" then read_markup (Name false "") stack s'
          else if Ascii.eqb a ">" then None
          else String a <$> read_markup Text stack s'
      | Name close acc =>
          if Ascii.eqb a ">" then
            if close then stack' ← pop acc stack; read_markup Text stack' s'
            else if known acc then read_markup Text (acc :: stack) s' else None
          else if Ascii.eqb a "/" && String.eqb acc "" then read_markup (Name true "") stack s'
          else if Ascii.eqb a " " then
            if close then None else if known acc then read_markup (Attrs acc false) stack s' else None
          else if Ascii.eqb a "<" then None
          else read_markup (Name close (acc +:+ one a)) stack s'
      | Attrs name quoted =>
          if Z.eqb (code a) 34 then read_markup (Attrs name (negb quoted)) stack s'
          else if quoted then read_markup st stack s'
          else if Ascii.eqb a ">" then read_markup Text (name :: stack) s'
          else if Ascii.eqb a "<" then None
          else read_markup st stack s'
      end
  end.

(** The characters that the entities of a text stand for. *)
Fixpoint decode (s : string) : string :=
  match s with
  | String "&" (String "a" (String "m" (String "p" (String ";" r)))) => String "&" (decode r)
  | String "&" (String "q" (String "u" (String "o" (String "t" (String ";" r))))) => String (of_code 34) (decode r)
  | String "&" (String "l" (String "t" (String ";" r))) => String "<" (decode r)
  | String "&" (String "g" (String "t" (String ";" r))) => String ">" (decode r)
  | String a r => String a (decode r)
  | EmptyString => ""
  end.

(** What markup shows to a reader. *)
Definition visible (s : string) : option string := decode <$> read_markup Text [] s.

(** * The text of a value *)

(** The value as the viewer lays it out: names are quoted as they are, texts as JSON. *)
Fixpoint json_text (v : value) : string :=
  match v with
  | Undef | Null => "null"
  | Bool b => if b then "true" else "false"
  | Num x => number_to_string x
  | Str s => dq +:+ ih s +:+ dq
  | Arr l => match l with [] => "[ ]" | _ => "[" +:+ join "," (map json_text l) +:+ "]" end
  | Obj l =>
      match l with
      | [] => "{ }"
      | _ => "{" +:+ join "," (map (λ '(k, u), dq +:+ k +:+ dq +:+ ": " +:+ json_text u) l) +:+ "}"
      end
  end.

(** * Laws

    The JSON viewer shows the value: its markup is made of the viewer's own tags, which
    nest, and the text they hold is the value, whatever texts the value has; and the
    counter of the depth returns to where it was. *)
Local Open Scope Z_scope.

(** * Escaping in one pass *)

Lemma escape_app f s t : escape f (s +:+ t) = escape f s +:+ escape f t.
Proof. induction s as [|a s IH]; [done|]. rewrite string_app_cons. cbn [escape]. by rewrite IH, string_app_assoc. Qed.

Lemma escape_escape f g s : escape g (escape f s) = escape (λ a, escape g (f a)) s.
Proof. induction s as [|a s IH]; [done|]. cbn [escape]. by rewrite escape_app, IH. Qed.

Lemma escape_ext f g s : (∀ a, f a = g a) → escape f s = escape g s.
Proof. intros H. induction s as [|a s IH]; [done|]. cbn [escape]. by rewrite H, IH. Qed.

(** The four replacements one after the other, the ampersand first, are one pass over
    the characters. *)
Definition entity (a : ascii) : string :=
  if Ascii.eqb a "&" then "&amp;"
  else if Ascii.eqb a (of_code 34) then "&quot;"
  else if Ascii.eqb a "<" then "&lt;"
  else if Ascii.eqb a ">" then "&gt;"
  else one a.

Lemma rh_entities s : rh s = escape entity s.
Proof.
  unfold rh, replace_all. rewrite !escape_escape. apply escape_ext. intros a.
  by destruct a as [[] [] [] [] [] [] [] []].
Qed.

(** * What a piece of markup shows *)

(** [s] leaves the open tags as they are and shows [u]. *)
Definition shows (s u : string) : Prop := ∀ stack rest,
  decode <$> read_markup Text stack (s +:+ rest) =
  (λ x, u +:+ x) <$> (decode <$> read_markup Text stack rest).

(** [s] shows nothing, and opens (closes) the tags [ns], innermost first. *)
Definition opens (s : string) (ns : list string) : Prop := ∀ stack rest,
  read_markup Text stack (s +:+ rest) = read_markup Text (ns ++ stack) rest.
Definition closes (s : string) (ns : list string) : Prop := ∀ stack rest,
  read_markup Text (ns ++ stack) (s +:+ rest) = read_markup Text stack rest.

Lemma shows_app s1 s2 u1 u2 : shows s1 u1 → shows s2 u2 → shows (s1 +:+ s2) (u1 +:+ u2).
Proof.
  intros H1 H2 stack rest. rewrite string_app_assoc, H1, H2.
  destruct (read_markup Text stack rest); [|done]. cbn. by rewrite string_app_assoc.
Qed.

Lemma shows_nothing s u1 s' : shows s "" → shows s' u1 → shows (s +:+ s') u1.
Proof. apply (shows_app s s' ""). Qed.

Lemma shows_end s u1 s' : shows s u1 → shows s' "" → shows (s +:+ s') u1.
Proof. intros H1 H2. rewrite <-(string_app_nil_r u1). by apply shows_app. Qed.

Lemma shows_wrap o c ns s u : opens o ns → closes c ns → shows s u → shows (o +:+ (s +:+ c)) u.
Proof. intros Ho Hc Hs stack rest. by rewrite !string_app_assoc, Ho, Hs, Hc. Qed.

Lemma opens_app o1 o2 ns1 ns2 : opens o1 ns1 → opens o2 ns2 → opens (o1 +:+ o2) (ns2 ++ ns1).
Proof. intros H1 H2 stack rest. by rewrite string_app_assoc, H1, H2, app_assoc. Qed.

Lemma shows_of_markup s : opens s [] → shows s "".
Proof. intros H stack rest. rewrite H. cbn [app]. by destruct (read_markup Text stack rest). Qed.

Lemma shows_of_opens_closes o c ns : opens o ns → closes c ns → opens (o +:+ c) [].
Proof. intros Ho Hc stack rest. by rewrite string_app_assoc, Ho, Hc. Qed.

Lemma entity_read a stack rest :
  decode <$> read_markup Text stack (entity a +:+ rest) =
  (λ x, one a +:+ x) <$> (decode <$> read_markup Text stack rest).
Proof.
  destruct a as [[] [] [] [] [] [] [] []]; cbn -[String.append]; unfold one;
    rewrite ?string_app_cons, ?string_app_nil_l; cbn; by destruct (read_markup Text stack rest).
Qed.

Lemma shows_rh s : shows (rh s) s.
Proof.
  rewrite rh_entities. induction s as [|a s IH]; intros stack rest.
  - change (escape entity "" +:+ rest) with rest. by destruct (read_markup Text stack rest).
  - cbn [escape]. rewrite string_app_assoc, entity_read, IH.
    by destruct (read_markup Text stack rest).
Qed.

(** Texts of the viewer itself that need no escape. *)
Lemma shows_text s : escape entity s = s → shows s s.
Proof. intros H. rewrite <-H at 1. rewrite <-rh_entities. apply shows_rh. Qed.

Lemma shows_dq : shows dq dq.
Proof. intros stack rest. unfold dq, dquote. rewrite string_app_cons, string_app_nil_l. cbn. by destruct (read_markup Text stack rest). Qed.

(** * The pieces of the viewer *)

Lemma shows_oh e t : t ∈ ["token keyword"; "token string"; "token number"; "token boolean"] → shows (oh e t) e.
Proof.
  intros Ht. unfold oh.
  replace ("<span class=" +:+ dq +:+ t +:+ dq +:+ ">" +:+ rh e +:+ "</span>")
    with (("<span class=" +:+ dq +:+ t +:+ dq +:+ ">") +:+ (rh e +:+ "</span>")) by (by rewrite !string_app_assoc).
  apply (shows_wrap _ _ ["span"]); [|by intros ? ?|apply shows_rh].
  rewrite !elem_of_cons, elem_of_nil in Ht. by destruct_or? Ht; subst; intros ? ?.
Qed.

Lemma shows_ah e : escape entity e = e → shows (ah e) e.
Proof.
  intros He. unfold ah.
  apply (shows_wrap ("<span class=" +:+ dq +:+ "token punctuation" +:+ dq +:+ ">") _ ["span"]);
    [by intros ? ?|by intros ? ?|by apply shows_text].
Qed.

Lemma shows_collapser th t : shows (collapser th t) "".
Proof. apply shows_of_markup. unfold collapser. by case_match; intros ? ?. Qed.

Lemma opens_ellipsis kind : kind ∈ ["array"; "obj"] → opens (ellipsis kind) ["ul"].
Proof.
  intros Hk. rewrite !elem_of_cons, elem_of_nil in Hk. by destruct_or? Hk; subst; intros ? ?.
Qed.

Lemma opens_item th t : opens (item (collapsed th t)) ["div"; "li"].
Proof. unfold item, collapsed. by case_match; intros ? ?. Qed.

Lemma closes_item : closes item_end ["div"; "li"].
Proof. by intros ? ?. Qed.

(** An address in an attribute: it has no quote that would end the value. *)
Lemma uri_char_quoted a : string_all (λ b, negb (Z.eqb (code b) 34)) (uri_char a) = true.
Proof. by destruct a as [[] [] [] [] [] [] [] []]. Qed.

Lemma encodeURI_quoted s : string_all (λ b, negb (Z.eqb (code b) 34)) (encodeURI s) = true.
Proof.
  induction s as [|a s IH]; [done|]. unfold encodeURI in *. cbn [escape].
  rewrite string_all_app, uri_char_quoted. by rewrite IH.
Qed.

Lemma read_quoted name u stack rest :
  string_all (λ b, negb (Z.eqb (code b) 34)) u = true →
  read_markup (Attrs name true) stack (u +:+ rest) = read_markup (Attrs name true) stack rest.
Proof.
  induction u as [|a u IH]; [done|]. rewrite string_app_cons. cbn [string_all read_markup].
  intros [Ha Hu]%andb_true_iff. apply negb_true_iff in Ha. rewrite Ha. by apply IH.
Qed.

Lemma shows_link s :
  shows (oh dq "token string" +:+ "<a href=" +:+ dq +:+ encodeURI s +:+ dq +:+ ">" +:+ rh (ih s) +:+ "</a>" +:+
         oh dq "token string") (dq +:+ ih s +:+ dq).
Proof.
  assert (shows (oh dq "token string") dq) as Hq by (apply shows_oh; set_solver).
  apply shows_app; [done|].
  assert (opens ("<a href=" +:+ dq +:+ encodeURI s +:+ dq +:+ ">") ["a"]) as Ho.
  { intros stack rest. rewrite !string_app_assoc.
    change (read_markup (Attrs "a" true) stack (encodeURI s +:+ (dq +:+ (">" +:+ rest))) = read_markup Text ("a" :: stack) rest).
    by rewrite read_quoted by apply encodeURI_quoted. }
  pose proof (shows_wrap _ "</a>" ["a"] _ _ Ho ltac:(by intros ? ?) (shows_rh (ih s))) as Ha.
  pose proof (shows_app _ _ _ _ Ha Hq) as H. by rewrite !string_app_assoc in H.
Qed.

(** * The viewer *)

(** The items of an array and of an object. *)
Definition array_items (t : float64) (n : string) : list value → Z → string * Z :=
  fix go l th :=
    match l with
    | [] => ("", th)
    | u :: l' =>
        let '(s, th1) := sh u t th in
        let '(r, th2) := go l' th1 in
        (item n +:+ s +:+ (match l' with [] => "" | _ => "," end) +:+ item_end +:+ r, th2)
    end.
Definition object_items (t : float64) (n : string) : list (string * value) → Z → string * Z :=
  fix go l th :=
    match l with
    | [] => ("", th)
    | (k, u) :: l' =>
        let '(s, th1) := sh u t th in
        let '(r, th2) := go l' th1 in
        (item n +:+ "<span class=" +:+ dq +:+ "property token string" +:+ dq +:+ ">" +:+ dq +:+ rh k +:+
         dq +:+ "</span>: " +:+ s +:+ (match l' with [] => "" | _ => ah "," end) +:+ item_end +:+ r, th2)
    end.

Lemma sh_Arr l t th :
  sh (Arr l) t th =
  let '(items, th') := array_items t (collapsed (th + 1) t) l (th + 1) in
  (match l with
   | [] => ah "[ ]"
   | _ => collapser (th + 1) t +:+ ah "[" +:+ ellipsis "array" +:+ items +:+ "</ul>" +:+ ah "]"
   end, th' - 1).
Proof. reflexivity. Qed.

Lemma sh_Obj l t th :
  sh (Obj l) t th =
  let '(items, th') := object_items t (collapsed (th + 1) t) l (th + 1) in
  (match l with
   | [] => ah "{ }"
   | _ => collapser (th + 1) t +:+ ah "{" +:+ ellipsis "obj" +:+ items +:+ "</ul>" +:+ ah "}"
   end, th' - 1).
Proof. reflexivity. Qed.

(** A list in brackets. *)
Lemma shows_list th t kind b1 b2 items u :
  kind ∈ ["array"; "obj"] → escape entity b1 = b1 → escape entity b2 = b2 → shows items u →
  shows (collapser th t +:+ ah b1 +:+ ellipsis kind +:+ items +:+ "</ul>" +:+ ah b2) (b1 +:+ u +:+ b2).
Proof.
  intros Hk H1 H2 Hi. apply shows_nothing; [apply shows_collapser|].
  apply shows_app; [by apply shows_ah|].
  pose proof (shows_wrap _ "</ul>" ["ul"] _ _ (opens_ellipsis _ Hk) ltac:(by intros ? ?) Hi) as H.
  pose proof (shows_app _ _ _ _ H (shows_ah b2 H2)) as H'. by rewrite !string_app_assoc in H'.
Qed.

(** One item, with the comma after it. *)
Lemma shows_item th t s u comma c rest us :
  shows s u → shows comma c → shows rest us →
  shows (item (collapsed th t) +:+ s +:+ comma +:+ item_end +:+ rest) (u +:+ (c +:+ us)).
Proof.
  intros Hs Hc Hr.
  pose proof (shows_wrap _ _ _ _ _ (opens_item th t) closes_item (shows_app _ _ _ _ Hs Hc)) as H.
  pose proof (shows_app _ _ _ _ H Hr) as H'. by rewrite !string_app_assoc in H'.
Qed.

Lemma join_cons u (l : list string) : join "," (u :: l) = u +:+ ((match l with [] => "" | _ => "," end) +:+ join "," l).
Proof. destruct l; [cbn; by rewrite string_app_nil_r|done]. Qed.

(** The markup of a value shows the value, and the depth is what it was. *)
Lemma sh_shows v t th : shows (sh v t th).1 (json_text v) ∧ (sh v t th).2 = th.
Proof.
  revert th. induction v as [v Ha Ho|l IH|l IH] using value_nested_ind; intros th.
  - destruct v as [| |b|x|s|l|l]; [..|by destruct (Ha l)|by destruct (Ho l)];
      cbn [sh json_text fst snd]; (split; [|done]); try (apply shows_oh; set_solver).
    case_match; [apply shows_link|]. apply shows_oh. set_solver.
  - assert (∀ th', shows (array_items t (collapsed (th + 1) t) l th').1 (join "," (map json_text l)) ∧
      (array_items t (collapsed (th + 1) t) l th').2 = th') as Hi.
    { induction IH as [|u l Hu _ IHl]; intros th'; [by split; [apply shows_text|]|]. cbn [array_items map].
      destruct (Hu th') as [Hs Hth]. destruct (sh u t th') as [s th1]. cbn in Hs, Hth. subst th1.
      destruct (IHl th') as [Hr Hth2]. destruct (array_items _ _ l th') as [r th2]. cbn in Hr, Hth2. subst th2.
      split; [|done]. cbn [fst]. rewrite join_cons. apply shows_item; [done| |done].
      destruct l; by apply shows_text. }
    rewrite sh_Arr. destruct (Hi (th + 1)) as [Hs Hth]. destruct (array_items _ _ l _) as [items th'].
    cbn in Hs, Hth. subst th'. split; [|cbn; lia]. destruct l as [|u l]; [by apply shows_ah|].
    apply shows_list; [set_solver|done..].
  - assert (∀ th', shows (object_items t (collapsed (th + 1) t) l th').1
        (join "," (map (λ '(k, u), dq +:+ k +:+ dq +:+ ": " +:+ json_text u) l)) ∧
      (object_items t (collapsed (th + 1) t) l th').2 = th') as Hi.
    { induction IH as [|[k u] l Hu _ IHl]; intros th'; [by split; [apply shows_text|]|]. cbn [object_items map].
      destruct (Hu th') as [Hs Hth]. cbn [snd] in Hs, Hth. destruct (sh u t th') as [s th1]. cbn in Hs, Hth. subst th1.
      destruct (IHl th') as [Hr Hth2]. destruct (object_items _ _ l th') as [r th2]. cbn in Hr, Hth2. subst th2.
      split; [|done]. cbn [fst]. rewrite join_cons.
      pose proof (shows_wrap ("<span class=" +:+ dq +:+ "property token string" +:+ dq +:+ ">") "</span>" ["span"] _ _
        ltac:(by intros ? ?) ltac:(by intros ? ?) (shows_app _ _ _ _ shows_dq (shows_app _ _ _ _ (shows_rh k) shows_dq))) as Hk.
      pose proof (shows_app _ _ _ _ Hk (shows_app ": " _ _ _ (shows_text ": " eq_refl) Hs)) as Hks.
      assert (shows (match l with [] => "" | _ => ah "," end) (match l with [] => "" | _ => "," end)) as Hc.
      { destruct l; [by apply shows_text|by apply shows_ah]. }
      pose proof (shows_item (th + 1) t _ _ _ _ _ _ Hks Hc Hr) as H.
      destruct l; by rewrite !string_app_assoc in *. }
    rewrite sh_Obj. destruct (Hi (th + 1)) as [Hs Hth]. destruct (object_items _ _ l _) as [items th'].
    cbn in Hs, Hth. subst th'. split; [|cbn; lia]. destruct l as [|u l]; [by apply shows_ah|].
    apply shows_list; [set_solver|done..].
Qed.
