(* ===== verification/JsArray.v ===== *)
(** Lists as JavaScript orders them: the stable sort of [Array.prototype.sort], and the
    order in which the keys of an object are enumerated. *)
From S2P Require Import Prelude GoStrings.
From S2P Require Import Float64 JsNumber JsValue.
From Stdlib Require Import Sorted.
Local Open Scope Z_scope.

(** * Sorting

    [l.sort(compare)]: elements that compare equal keep their order. *)
Section sorting.
Context {A : Type} (compare : A → A → Z).

Fixpoint insert_by (x : A) (l : list A) : list A :=
  match l with
  | [] => [x]
  | y :: l' => if compare x y <=? 0 then x :: l else y :: insert_by x l'
  end.
Fixpoint sort_by (l : list A) : list A :=
  match l with
  | [] => []
  | x :: l' => insert_by x (sort_by l')
  end.

Lemma insert_by_perm x l : Permutation (insert_by x l) (x :: l).
Proof.
  induction l as [|y l IH]; cbn; [done|]. destruct (_ <=? _); [done|]. rewrite IH. apply Permutation_swap.
Qed.

Lemma sort_by_perm l : Permutation (sort_by l) l.
Proof. induction l as [|x l IH]; cbn; [done|]. by rewrite insert_by_perm, IH. Qed.

(** The order of a comparison. *)
Definition in_order (x y : A) : Prop := compare x y <= 0.

(** Comparisons that do not contradict themselves. *)
Class Comparison : Prop := {
  compare_total x y : in_order x y ∨ in_order y x;
  compare_trans x y z : in_order x y → in_order y z → in_order x z
}.

Lemma insert_by_sorted `{Comparison} x l : StronglySorted in_order l → StronglySorted in_order (insert_by x l).
Proof.
  induction 1 as [|y l Hs IH Hl]; cbn; [by repeat constructor|]. destruct (Z.leb_spec (compare x y) 0) as [Hx|Hx].
  - constructor; [by constructor|]. constructor; [done|]. eapply Forall_impl; [exact Hl|]. intros z. by apply compare_trans.
  - constructor; [done|]. rewrite insert_by_perm. constructor; [|done].
    destruct (compare_total x y); [unfold in_order in *; lia|done].
Qed.

Lemma sort_by_sorted `{Comparison} l : StronglySorted in_order (sort_by l).
Proof. induction l; cbn; [constructor|by apply insert_by_sorted]. Qed.

(** Elements of a kind that compare equal among themselves keep their order. *)
Lemma insert_by_stable (P : A → Prop) `{∀ x, Decision (P x)} x l :
  (∀ y, P x → P y → compare x y <= 0) → filter P (insert_by x l) = filter P (x :: l).
Proof.
  intros HP. induction l as [|y l IH]; [done|]. cbn [insert_by]. destruct (Z.leb_spec (compare x y) 0); [done|].
  rewrite !filter_cons in *. rewrite IH. repeat case_decide; try done.
  assert (compare x y <= 0) by auto. lia.
Qed.

Lemma sort_by_stable (P : A → Prop) `{∀ x, Decision (P x)} l :
  (∀ x y, P x → P y → compare x y <= 0) → filter P (sort_by l) = filter P l.
Proof.
  intros HP. induction l as [|x l IH]; [done|]. cbn [sort_by]. rewrite insert_by_stable by auto.
  rewrite !filter_cons. by rewrite IH.
Qed.
End sorting.

(** * Keys *)

(** The number of a text that is the canonical decimal of an array index. *)
Definition array_index (s : string) : option Z :=
  let '(v, n, rest) := read_digits s 0 0 in
  if String.eqb rest "" && String.eqb (decimal v) s && (v <? 4294967295) then Some v else None.
(** The order in which an object enumerates keys that were added in the given order: the
    indices first, ascending. *)
Definition compare_keys (s t : string) : Z :=
  match array_index s, array_index t with
  | Some m, Some n => m - n
  | Some _, None => -1
  | None, Some _ => 1
  | None, None => 0
  end.
Definition enumerated (l : list string) : list string := sort_by compare_keys l.

#[export] Instance compare_keys_order : Comparison compare_keys.
Proof.
  split; unfold in_order, compare_keys; intros; repeat destruct (array_index _); lia.
Qed.

Example enumerated_indices : enumerated ["b"; "10"; "a"; "2"; "01"] = ["2"; "10"; "b"; "a"; "01"].
Proof. vm_compute. reflexivity. Qed.
