(* ===== verification/JsonPointer.v ===== *)
(** JSON pointers, as the Redoc bundle contains them (json-pointer, and the class [Ua]
    of Redoc that accepts a leading number sign): the tokens of a pointer, reading a
    value at a pointer, and [decodeURIComponent], which references go through first. *)
From S2P Require Import Prelude GoStrings.
From S2P Require Import Float64 JsNumber JsValue RedocJson.
Local Open Scope Z_scope.

(** * Tokens *)

(** [s.replace(/ab/g, r)] for two characters. *)
Fixpoint replace_pair (a b : ascii) (r s : string) : string :=
  match s with
  | EmptyString => ""
  | String x t =>
      match t with
      | EmptyString => s
      | String y t' =>
          if Ascii.eqb x a && Ascii.eqb y b then r +:+ replace_pair a b r t'
          else String x (replace_pair a b r t)
      end
  end.

(** [i.escape], [i.unescape]. *)
Definition escape_token (s : string) : string := replace_all "/" "~1" (replace_all "~" "~0" s).
Definition unescape_token (s : string) : string := replace_pair "~" "0" "~" (replace_pair "~" "1" "/" s).

(** [i.parse]; a pointer that does not start with a slash throws. *)
Definition pointer_parse (s : string) : option (list string) :=
  match s with
  | EmptyString => Some []
  | String a t => if Ascii.eqb a "/" then Some (map unescape_token (split_byte "/" t)) else None
  end.
(** [i.compile]. *)
Definition compile (l : list string) : string :=
  match l with
  | [] => ""
  | _ => "/" +:+ join "/" (map escape_token l)
  end.

(** [Ua.parse], which replaces [i.parse]: a leading number sign is dropped. *)
Definition strip_hash (s : string) : string :=
  match s with String a t => if Ascii.eqb a "#" then t else s | EmptyString => s end.
Definition parse (s : string) : option (list string) := pointer_parse (strip_hash s).

(** [Ua.baseName], [Ua.dirName], [Ua.relative], [Ua.join]. *)
Definition baseName (s : string) (t : nat) : expr :=
  l ← parse s;
  Some (if (t <=? length l)%nat then match l !! (length l - t)%nat with Some k => Str k | None => Undef end
        else Undef).
Definition dirName (s : string) (t : nat) : option string :=
  l ← parse s;
  Some (compile (if (t <=? length l)%nat then take (length l - t) l
                 else take (length l - (t - length l)) l)).
Definition relative (e t : string) : option (list string) :=
  n ← parse e; l ← parse t; Some (drop (length n) l).
Definition join_pointer (e : string) (t : list string) : option string :=
  l ← parse e; Some (compile (l ++ t)).

(** * Reading *)

(** [typeof e == "object" && (k in e)], then [e[k]]; inherited members are not modelled. *)
Definition own (e : value) (k : string) : option value :=
  match e with
  | Obj l => field k l
  | Arr l => if String.eqb k "length" then Some (int (Z.of_nat (length l)))
             else field k (imap (λ i u, (decimal (Z.of_nat i), u)) l)
  | _ => None
  end.
(** [i.get]: a token that is not there throws. *)
Fixpoint read_tokens (e : value) (l : list string) : option value :=
  match l with
  | [] => Some e
  | k :: l' => u ← own e k; read_tokens u l'
  end.
Definition pointer_get (e : value) (s : string) : option value := l ← parse s; read_tokens e l.

(** * decodeURIComponent *)

Definition read_escape (s : string) : option (Z * string) :=
  match s with
  | String p (String h (String l t)) =>
      if Ascii.eqb p "%" then a ← unhex h; b ← unhex l; Some (16 * a + b, t) else None
  | _ => None
  end.
Fixpoint read_escapes (n : nat) (s : string) : option (list Z * string) :=
  match n with
  | O => Some ([], s)
  | S n => '(b, t) ← read_escape s; '(l, u) ← read_escapes n t; Some (b :: l, u)
  end.
(** The bytes that follow a first byte, and whether the sequence is valid UTF-8. *)
Definition continuation (b : Z) : option nat :=
  if b <? 128 then Some 0%nat
  else if (194 <=? b) && (b <=? 223) then Some 1%nat
  else if (224 <=? b) && (b <=? 239) then Some 2%nat
  else if (240 <=? b) && (b <=? 244) then Some 3%nat
  else None.
Definition valid_continuation (b : Z) (l : list Z) : bool :=
  match l with
  | [] => true
  | c :: _ =>
      forallb (λ c, (128 <=? c) && (c <=? 191)) l &&
      (if b =? 224 then 160 <=? c else if b =? 237 then c <=? 159
       else if b =? 240 then 144 <=? c else if b =? 244 then c <=? 143 else true)
  end.
Fixpoint decode (fuel : nat) (s : string) : option string :=
  match fuel with
  | O => Some s
  | S fuel =>
      match s with
      | EmptyString => Some ""
      | String a t =>
          if Ascii.eqb a "%" then
            '(b, t) ← read_escape s;
            n ← continuation b;
            '(l, t) ← read_escapes n t;
            if valid_continuation b l then u ← decode fuel t; Some (of_codes (b :: l) +:+ u) else None
          else u ← decode fuel t; Some (String a u)
      end
  end.
(** A malformed sequence throws. *)
Definition decodeURIComponent (s : string) : option string := decode (String.length s) s.

(** * Laws *)

Definition tilde (a : ascii) : string := if Ascii.eqb a "~" then "~0" else one a.
Definition escaped (a : ascii) : string :=
  if Ascii.eqb a "~" then "~0" else if Ascii.eqb a "/" then "~1" else one a.

Lemma escape_token_chars s : escape_token s = escape escaped s.
Proof.
  unfold escape_token. induction s as [|a s IH]; [done|].
  cbn [escape]. rewrite <-IH. unfold replace_all, escaped. cbn [escape].
  destruct (Ascii.eqb_spec a "~") as [->|H]; [done|]. by cbn [one String.append escape].
Qed.

Lemma replace_pair_skip a b r x t : x ≠ a → replace_pair a b r (String x t) = String x (replace_pair a b r t).
Proof. intros H%Ascii.eqb_neq. cbn. rewrite H. by destruct t. Qed.

Lemma replace_pair_other a b r y t : y ≠ b →
  replace_pair a b r (String a (String y t)) = String a (replace_pair a b r (String y t)).
Proof. intros H%Ascii.eqb_neq. cbn [replace_pair]. by rewrite H, andb_false_r. Qed.

Lemma replace_pair_hit a b r t : replace_pair a b r (String a (String b t)) = r +:+ replace_pair a b r t.
Proof. cbn [replace_pair]. by rewrite !Ascii.eqb_refl. Qed.

Lemma unescape_slashes s : replace_pair "~" "1" "/" (escape escaped s) = escape tilde s.
Proof.
  induction s as [|a s IH]; [done|]. cbn [escape]. unfold escaped at 1, tilde at 1.
  destruct (Ascii.eqb_spec a "~") as [->|Ht].
  { rewrite !string_app_cons, string_app_nil_l. by rewrite replace_pair_other, replace_pair_skip, IH. }
  destruct (Ascii.eqb_spec a "/") as [->|Hs]; unfold one; rewrite !string_app_cons, string_app_nil_l.
  - by rewrite replace_pair_hit, IH.
  - by rewrite replace_pair_skip, IH.
Qed.

Lemma unescape_tildes s : replace_pair "~" "0" "~" (escape tilde s) = s.
Proof.
  induction s as [|a s IH]; [done|]. cbn [escape]. unfold tilde at 1.
  destruct (Ascii.eqb_spec a "~") as [->|Ht]; unfold one; rewrite !string_app_cons, string_app_nil_l.
  - by rewrite replace_pair_hit, IH.
  - by rewrite replace_pair_skip, IH.
Qed.

Lemma unescape_escape_token s : unescape_token (escape_token s) = s.
Proof. unfold unescape_token. by rewrite escape_token_chars, unescape_slashes, unescape_tildes. Qed.

Lemma escape_token_clean s : contains_byte "/" (escape_token s) = false.
Proof.
  rewrite escape_token_chars. induction s as [|a s IH]; [done|]. cbn [escape].
  rewrite contains_byte_app, IH. unfold escaped. destruct (Ascii.eqb_spec a "~"); [done|].
  destruct (Ascii.eqb_spec a "/") as [->|Hs]; [done|]. unfold one. rewrite contains_byte_cons.
  apply Ascii.eqb_neq in Hs. by rewrite Hs.
Qed.

Lemma pointer_parse_compile l : pointer_parse (compile l) = Some l.
Proof.
  destruct l as [|x l]; [done|]. unfold compile.
  change (Some (map unescape_token (split_byte "/" (join "/" (map escape_token (x :: l))))) = Some (x :: l)).
  f_equal. rewrite (split_join "/").
  - rewrite map_map. rewrite <-(map_id (x :: l)) at 2. apply map_ext, unescape_escape_token.
  - done.
  - apply Forall_forall. intros s (t & -> & _)%list_elem_of_fmap. apply escape_token_clean.
Qed.

(** A pointer compiled from any tokens, with or without a number sign before it, is
    parsed into these tokens. *)
Theorem pointer_roundtrip (l : list string) :
  parse (compile l) = Some l ∧ parse ("#" +:+ compile l) = Some l.
Proof.
  split; [|apply pointer_parse_compile]. rewrite <-pointer_parse_compile. by destruct l.
Qed.
