(* ===== verification/RedocParser.v ===== *)
(** References in OpenAPI documents, as Redoc's parser resolves them (the class [vc] of the
    bundle): following references through references, the stack of references that marks
    circular schemas, and the merge of the members next to a reference. *)
From S2P Require Import Prelude GoStrings.
From S2P Require Import Float64 JsNumber JsValue RedocJson JsonPointer.
Local Open Scope Z_scope.

(** * Members *)

(** The characters of a text, which are its members when it is spread. *)
Fixpoint chars (s : string) : list string :=
  match s with
  | EmptyString => []
  | String a t =>
      match chars t with
      | c :: l =>
          match c with
          | String b _ => if (128 <=? code b) && (code b <=? 191) then String a c :: l else String a "" :: c :: l
          | EmptyString => String a "" :: l
          end
      | [] => [String a ""]
      end
  end.
(** The own members that spreading a value copies. *)
Definition own_members (v : value) : list (string * value) :=
  match v with
  | Obj l => l
  | Arr l => imap (λ i u, (decimal (Z.of_nat i), u)) l
  | Str s => imap (λ i c, (decimal (Z.of_nat i), Str c)) (chars s)
  | _ => []
  end.
(** [{...l, ...m}]: keys that are there keep their place, new ones follow. *)
Definition spread (l m : list (string * value)) : list (string * value) :=
  map (λ '(k, v), (k, default v (field k m))) l ++
  filter (λ kv, match field kv.1 l with None => true | Some _ => false end = true) m.
(** [gc]: the members that are not listed. *)
Definition without (ks : list string) (l : list (string * value)) : list (string * value) :=
  filter (λ kv, negb (existsb (String.eqb kv.1) ks) = true) l.

(** * Names of components *)

(** [/^#\/components\/(schemas|pathItems)\/([^/]+)$/]. *)
Definition component_name (s : string) : option string :=
  let rest p := if has_prefix s p then
                  let n := drop_bytes (String.length p) s in
                  if String.eqb n "" || contains_byte "/" n then None else Some n
                else None in
  match rest "#/components/schemas/" with
  | Some n => Some n
  | None => rest "#/components/pathItems/"
  end.
(** [ds], [fs] on texts. *)
Definition ds (s : string) : bool := match component_name s with Some _ => true | None => false end.
Definition fs (s : string) : option string := component_name s.

(** * The parser *)

Record parser : Type := Parser {
  spec : value;
  allowMergeRefs : bool;
  ignoreNamedSchemas : list string
}.
(** The constructor: a document without a version throws. *)
Definition new_parser (e : value) (ignored : list string) : option parser :=
  v ← get e "openapi";
  match v with
  | Str s => Some (Parser e (has_prefix s "3.1") ignored)
  | _ => None
  end.

Definition isRef (e : value) : bool :=
  truthy e && match get e "$ref" with Some r => negb (is_nullish r) | None => false end.

(** [byRef]: what a pointer into the document points to, and an empty object if that is
    missing or falsy. *)
Definition byRef (p : parser) (e : string) : option value :=
  if truthy (spec p) then
    s ← decodeURIComponent (if has_prefix e "#" then e else "#" +:+ e);
    let t := default Undef (pointer_get (spec p) s) in
    Some (if truthy t then t else Obj [])
  else Some Undef.

(** [yc], [bc]: pushing a reference, concatenating stacks. *)
Definition yc (e : list value) (t : value) : list value :=
  if truthy t && negb (strict_eq (default Undef (last e)) t) then e ++ [t] else e.
Definition bc (e : list value) (t : value) : list value :=
  if truthy t then e ++ (match t with Arr l => l | _ => [t] end) else e.

Definition annotations : list string :=
  ["description"; "title"; "externalDocs"; "x-refsStack"; "x-parentRefs"; "readOnly"; "writeOnly"].
(** [mergeRefs]: the members next to a reference. *)
Definition mergeRefs (e t : value) (n : bool) : value :=
  let o := without ["$ref"] (own_members e) in
  let at_ k := default Undef (field k o) in
  match o with
  | [] => t
  | _ =>
      if n && existsb (λ kv, negb (existsb (String.eqb kv.1) annotations)) o then
        Obj [("allOf", Arr [
          Obj [("description", at_ "description"); ("title", at_ "title");
               ("readOnly", at_ "readOnly"); ("writeOnly", at_ "writeOnly")];
          t;
          Obj (without ["description"; "title"; "readOnly"; "writeOnly"] o)])]
      else Obj (spread (own_members t) o)
  end.

(** A call returns, throws, or outgrows every stack of calls. *)
Inductive resolution : Type :=
  | Resolved (v : value) (refsStack : list value)
  | Thrown
  | Overflow.

(** A schema that contains itself is marked. *)
Definition mark_circular (i : value) : value := Obj (set_field "x-circular-ref" (Bool true) (own_members i)).

(** [deref(e, t, n)] with calls nested up to [fuel]. *)
Fixpoint deref (fuel : nat) (p : parser) (e : value) (t : list value) (n : bool) : resolution :=
  match fuel with
  | O => Overflow
  | S fuel =>
      let r := if is_nullish e then Undef else default Undef (get e "x-refsStack") in
      let t := bc t r in
      if isRef e then
        match get e "$ref" with
        | Some (Str s) =>
            if match fs s with Some name => existsb (String.eqb name) (ignoreNamedSchemas p) | None => false end
            then Resolved (Obj [("type", Str "object"); ("title", Str (default "" (fs s)))]) t
            else
              match byRef p s with
              | None => Thrown
              | Some i =>
                  if negb (truthy i) then Thrown
                  else
                    let finish i := Resolved (if allowMergeRefs p then mergeRefs e i n else i) (yc t (Str s)) in
                    if existsb (λ w, strict_eq w (Str s)) t || (999 <? Z.of_nat (length t)) then
                      finish (mark_circular i)
                    else if isRef i then
                      match deref fuel p i t n with
                      | Resolved i _ => finish i
                      | out => out
                      end
                    else finish i
              end
        | _ => Thrown
        end
      else Resolved e (bc t r)
  end.

(** * Resolution ends or loops *)

(** The texts of the references in a value. *)
Fixpoint refs (v : value) : list string :=
  match v with
  | Arr l => List.concat (map refs l)
  | Obj l =>
      (match field "$ref" l with Some (Str s) => [s] | _ => [] end) ++ List.concat (map (λ kv, refs kv.2) l)
  | _ => []
  end.
(** No object has a stack of its own, which only the parser adds. *)
Fixpoint no_stacks (v : value) : bool :=
  match v with
  | Arr l => forallb no_stacks l
  | Obj l => match field "x-refsStack" l with None => true | Some _ => false end && forallb (λ kv, no_stacks kv.2) l
  | _ => true
  end.

(** What a reference leads to when that is another reference, to be followed. *)
Definition follows (p : parser) (t : list value) (s : string) : option value :=
  if match fs s with Some name => existsb (String.eqb name) (ignoreNamedSchemas p) | None => false end then None
  else
    i ← byRef p s;
    if existsb (λ w, strict_eq w (Str s)) t || (999 <? Z.of_nat (length t)) then None
    else if isRef i then Some i else None.
Definition next_ref (p : parser) (t : list value) (s : string) : option string :=
  i ← follows p t s;
  match get i "$ref" with Some (Str s') => Some s' | _ => None end.
