(* ===== verification/RedocParserLaws.v ===== *)
(** Laws of the resolution of references: it ends within as many nested calls as the document
    has references, or the references lead back to one another and no stack of calls is
    enough. *)
From S2P Require Import Prelude GoStrings.
From S2P Require Import Float64 JsNumber JsValue RedocJson JsonPointer RedocParser.
Local Open Scope Z_scope.

(** * Iterating a partial function *)

Lemma not_NoDup_lookup {B} `{EqDecision B} (l : list B) :
  ¬ NoDup l → ∃ i j x, (i < j)%nat ∧ l !! i = Some x ∧ l !! j = Some x.
Proof.
  induction l as [|x l IH]; intros H; [by destruct H; constructor|].
  destruct (decide (x ∈ l)) as [Hx|Hx].
  - apply list_elem_of_lookup in Hx as [j Hj]. exists 0%nat, (S j), x. split; [lia|done].
  - destruct IH as (i & j & y & ? & ? & ?); [intros Hn; apply H; by constructor|].
    exists (S i), (S j), y. split; [lia|done].
Qed.

Section iteration.
Context {A : Type} `{EqDecision A} (f : A → option A).

Fixpoint iterate (k : nat) (x : A) : option A :=
  match k with
  | O => Some x
  | S k => y ← iterate k x; f y
  end.

Lemma iterate_add m k x : iterate (m + k) x = iterate k x ≫= iterate m.
Proof.
  induction m as [|m IH]; cbn.
  - by destruct (iterate k x).
  - rewrite IH. by destruct (iterate k x).
Qed.

Lemma iterate_S k x : iterate (S k) x = f x ≫= iterate k.
Proof. replace (S k) with (k + 1)%nat by lia. rewrite iterate_add. done. Qed.

Lemma iterate_le k m x : (m ≤ k)%nat → is_Some (iterate k x) → is_Some (iterate m x).
Proof.
  intros Hm. replace k with ((k - m) + m)%nat by lia. rewrite iterate_add.
  destruct (iterate m x); [by eexists|]. by intros [? ?].
Qed.

(** A way back to an earlier value can be taken for ever. *)
Lemma iterate_loop x i j : (i < j)%nat → is_Some (iterate j x) → iterate i x = iterate j x →
  ∀ k, is_Some (iterate k x).
Proof.
  intros Hij Hj He k. induction k as [k IH] using lt_wf_ind.
  destruct (decide (k ≤ j)%nat); [by eapply iterate_le|].
  replace k with ((k - j) + j)%nat by lia. rewrite iterate_add, <-He, <-iterate_add.
  apply IH. lia.
Qed.

(** Values in a finite set come back. *)
Lemma iterate_repeats (L : list A) x :
  (∀ y z, f y = Some z → z ∈ L) → is_Some (iterate (S (length L)) x) → ∀ k, is_Some (iterate k x).
Proof.
  intros HL Hs. set (n := S (length L)) in *.
  assert (∀ j, (1 ≤ j ≤ n)%nat → ∃ y, iterate j x = Some y ∧ y ∈ L) as Hin.
  { intros j Hj. assert (is_Some (iterate j x)) as [y Hy] by (by eapply (iterate_le n); [lia|]).
    exists y. split; [done|]. destruct j as [|j]; [lia|]. cbn in Hy.
    destruct (iterate j x) as [w|]; [|done]. by eapply HL. }
  destruct (decide (NoDup (map (λ j, iterate j x) (seq 1 n)))) as [Hn|Hn].
  - exfalso. assert (map (λ j, iterate j x) (seq 1 n) ⊆ map Some L) as Hsub.
    { intros o (j & -> & Hj)%list_elem_of_fmap. apply elem_of_seq in Hj.
      destruct (Hin j) as (y & -> & Hy); [lia|]. apply list_elem_of_fmap. by exists y. }
    assert (length (map (λ j, iterate j x) (seq 1 n)) ≤ length (map Some L))%nat as Hle.
    { apply submseteq_length, NoDup_submseteq; [done|]. intros o Ho. by apply Hsub. }
    rewrite !length_map, length_seq in Hle. unfold n in Hle. lia.
  - assert (∃ i j, (i < j ≤ n)%nat ∧ iterate i x = iterate j x) as (i & j & Hij & He).
    { apply not_NoDup_lookup in Hn as (i & j & o & Hij & Hi & Hj). rewrite list_lookup_fmap in Hi, Hj.
      destruct (seq 1 n !! i) eqn:Ei; [|done]. destruct (seq 1 n !! j) eqn:Ej; [|done].
      apply lookup_seq in Ei as [-> ?], Ej as [-> ?]. cbn in Hi, Hj.
      exists (1 + i)%nat, (1 + j)%nat. split; [lia|]. cbn. congruence. }
    eapply (iterate_loop x i j); [lia| |done]. eapply (iterate_le n); [lia|done].
Qed.
End iteration.

(** * Parts of a document *)

Lemma field_elem k l v : field k l = Some v → (k, v) ∈ l.
Proof.
  induction l as [|[k' u] l IH]; cbn; [done|]. destruct (String.eqb_spec k k') as [->|].
  - intros [= ->]. apply list_elem_of_here.
  - intros H. by apply list_elem_of_further, IH.
Qed.

Definition children (v : value) : list value :=
  match v with Arr l => l | Obj l => map snd l | _ => [] end.

Lemma own_child e k u : own e k = Some u → (∃ z, u = int z) ∨ u ∈ children e.
Proof.
  destruct e; cbn; try done.
  - destruct (String.eqb k "length"); [intros [= <-]; by left; eexists|]. intros H%field_elem. right.
    apply elem_of_lookup_imap in H as (i & v & [= _ ->] & Hv). by eapply list_elem_of_lookup_2.
  - intros H%field_elem. right. apply list_elem_of_fmap. by exists (k, u).
Qed.

Lemma child_refs e u x : u ∈ children e → x ∈ refs u → x ∈ refs e.
Proof.
  intros Hu Hx. destruct e as [| | | | |l|l]; cbn in *; try by inversion Hu.
  - apply list_elem_of_In, in_concat. exists (refs u). split; [|by apply list_elem_of_In].
    apply in_map. by apply list_elem_of_In.
  - apply elem_of_app. right. apply list_elem_of_In, in_concat. exists (refs u).
    split; [|by apply list_elem_of_In]. apply list_elem_of_fmap in Hu as (kv & -> & Hkv).
    apply (in_map (λ kv, refs kv.2)). by apply list_elem_of_In.
Qed.

Lemma child_no_stacks e u : u ∈ children e → no_stacks e = true → no_stacks u = true.
Proof.
  intros Hu He. destruct e as [| | | | |l|l]; cbn in *; try by inversion Hu.
  - rewrite forallb_forall in He. apply He. by apply list_elem_of_In.
  - apply andb_true_iff in He as [_ He]. rewrite forallb_forall in He.
    apply list_elem_of_fmap in Hu as (kv & -> & Hkv). apply He. by apply list_elem_of_In.
Qed.

(** What is in a part of a document is in the document. *)
Definition part_of (u e : value) : Prop :=
  (∀ x, x ∈ refs u → x ∈ refs e) ∧ (no_stacks e = true → no_stacks u = true).

(** What holds of a document and of the parts of its parts holds of what a pointer into
    it points to. *)
Section closed.
Context (P : value → Prop).
Hypothesis (P_int : ∀ z, P (int z)) (P_child : ∀ e u, u ∈ children e → P e → P u).

Lemma read_tokens_closed l e u : P e → read_tokens e l = Some u → P u.
Proof using All.
  revert e. induction l as [|k l IH]; intros e He; cbn; [by intros [= <-]|].
  destruct (own e k) as [v|] eqn:Ev; [|done]. cbn. apply IH.
  apply own_child in Ev as [[z ->]|Hv]; [done|by eapply P_child].
Qed.

Lemma byRef_closed p s i : P Undef → P (Obj []) → P (spec p) → byRef p s = Some i → P i.
Proof using All.
  intros Hu Ho Hp. unfold byRef. destruct (truthy (spec p)); [|by intros [= <-]].
  destruct (decodeURIComponent _) as [e|]; [|done]. cbn. intros [= <-].
  unfold pointer_get. destruct (parse e) as [l|]; cbn; [|done].
  destruct (read_tokens _ _) as [u|] eqn:Eu; cbn; [|done].
  case_match; [by eapply read_tokens_closed|done].
Qed.
End closed.

Lemma byRef_part p s i : byRef p s = Some i → part_of i (spec p).
Proof.
  apply (byRef_closed (λ u, part_of u (spec p))); try (by split; [intros ? ?%elem_of_nil|]); [|done].
  intros e u Hu [H1 H2]. split; [|intros; by eapply child_no_stacks, H2].
  intros x Hx. by eapply H1, child_refs.
Qed.

(** Indices are not names of members that matter here. *)
Definition index_char (a : ascii) : bool := negb (contains_byte a "$xptl").
Lemma decimal_index z : string_all index_char (decimal z) = true.
Proof.
  apply decimal_all. intros d Hd.
  assert (∃ k, d = Z.of_nat k ∧ (k < 16)%nat) as (k & -> & Hk) by (exists (Z.to_nat d); lia).
  clear Hd. do 16 (destruct k as [|k]; [done|]). lia.
Qed.

Lemma get_array l k : string_all index_char k = false → get (Arr l) k = Some Undef.
Proof.
  intros Hk. unfold get. f_equal. destruct (field _ _) as [v|] eqn:E; [|done]. exfalso.
  apply field_elem, elem_of_lookup_imap in E as (i & u & Hi & _).
  apply (f_equal fst) in Hi. cbn [fst] in Hi. by rewrite Hi, decimal_index in Hk.
Qed.

Lemma isRef_refs e s : get e "$ref" = Some (Str s) → s ∈ refs e.
Proof.
  destruct e; try done; [by rewrite get_array|]. cbn. destruct (field "$ref" fields) as [v|]; [|done].
  cbn. intros [= ->]. apply list_elem_of_here.
Qed.

Lemma no_stack_here e : no_stacks e = true →
  (if is_nullish e then Undef else default Undef (get e "x-refsStack")) = Undef.
Proof.
  destruct e as [| | | | |l|l]; cbn -[get]; try done; intros H; [by rewrite get_array|].
  cbn in *. apply andb_true_iff in H as [H _]. by destruct (field "x-refsStack" l).
Qed.

(** * Nested calls *)

Lemma follows_part p t s i : follows p t s = Some i → part_of i (spec p) ∧ isRef i = true.
Proof.
  unfold follows. case_match; [done|]. destruct (byRef p s) as [j|] eqn:Ej; [|done]. cbn.
  destruct (existsb _ t || _); [done|]. destruct (isRef j) eqn:Er; [|done]. intros [= <-]. split; [by eapply byRef_part|done].
Qed.

Lemma next_ref_refs p t s s' : next_ref p t s = Some s' → s' ∈ refs (spec p).
Proof.
  unfold next_ref. destruct (follows p t s) as [i|] eqn:Ei; [|done]. cbn. intros H.
  apply follows_part in Ei as [[Hr _] _]. apply Hr, isRef_refs. by repeat case_match; simplify_eq.
Qed.

(** A call that returns at once, and no reference to follow. *)
Ltac ends_here := split; [done|by intros (? & ? & ?)].

(** A call for a reference outgrows the stack just if the call for the next one does. *)
Lemma deref_overflow k p e t n s : no_stacks e = true → isRef e = true → get e "$ref" = Some (Str s) →
  deref (S k) p e t n = Overflow ↔ ∃ i, follows p t s = Some i ∧ deref k p i t n = Overflow.
Proof.
  intros He Hr Hs. cbn [deref]. rewrite (no_stack_here e He), Hr, Hs. cbn [bc truthy].
  unfold follows. case_match; [ends_here|].
  destruct (byRef p s) as [i|]; [|by split; [|intros (? & ? & ?)]]. cbn [mbind option_bind].
  destruct (existsb _ t || _); cbn.
  { destruct (negb (truthy i)); ends_here. }
  destruct (isRef i) eqn:Ei.
  - assert (truthy i = true) as -> by (unfold isRef in Ei; by destruct (truthy i)). cbn.
    split; [|intros (j & [= <-] & ->); done]. intros Ho. exists i. split; [done|]. by case_match.
  - destruct (negb (truthy i)); ends_here.
Qed.

Lemma deref_not_ref k p e t n : no_stacks e = true → (∀ s, get e "$ref" ≠ Some (Str s)) ∨ isRef e = false →
  deref (S k) p e t n ≠ Overflow.
Proof.
  intros He Hr. cbn [deref]. rewrite (no_stack_here e He). destruct (isRef e) eqn:Ei; [|done].
  destruct Hr as [Hr|]; [|done]. destruct (get e "$ref") as [[]|] eqn:Eg; try done. by destruct (Hr s).
Qed.

Lemma deref_iterate k p e t n s : no_stacks (spec p) = true → no_stacks e = true → isRef e = true →
  get e "$ref" = Some (Str s) →
  (deref (S k) p e t n = Overflow → is_Some (iterate (next_ref p t) k s)) ∧
  (is_Some (iterate (next_ref p t) k s) → deref k p e t n = Overflow).
Proof.
  intros Hd. revert e s. induction k as [|k IH]; intros e s He Hr Hs; [split; [by eexists|done]|].
  rewrite iterate_S. split.
  - intros (i & Hi & Ho)%(deref_overflow _ _ _ _ _ s); [|done..].
    destruct (follows_part _ _ _ _ Hi) as [[_ Hn] Hir]. specialize (Hn Hd).
    assert (∃ s', get i "$ref" = Some (Str s')) as [s' Hs'].
    { destruct (get i "$ref") as [[]|] eqn:Eg; try (by eexists);
        exfalso; eapply deref_not_ref; try exact Ho; try done; left; intros s' Hs'; by rewrite Hs' in Eg. }
    assert (next_ref p t s = Some s') as -> by (unfold next_ref; rewrite Hi; cbn -[get]; by rewrite Hs').
    by apply (IH i s').
  - destruct (next_ref p t s) as [s'|] eqn:En; [|by intros [? ?]]. cbn. intros Ho.
    unfold next_ref in En. destruct (follows p t s) as [i|] eqn:Hi; [|done]. cbn -[get] in En.
    destruct (get i "$ref") as [[]|] eqn:Hs'; simplify_eq.
    destruct (follows_part _ _ _ _ Hi) as [[_ Hn] Hir]. specialize (Hn Hd).
    apply (deref_overflow _ _ _ _ _ s); [done..|]. exists i. split; [done|]. by apply (IH i s').
Qed.

(** A call that returns does so on every larger stack. *)
Lemma deref_mono k p e t n : deref k p e t n ≠ Overflow →
  ∀ m, (k ≤ m)%nat → deref m p e t n = deref k p e t n.
Proof.
  revert e t. induction k as [|k IH]; intros e t H m Hm; [done|]. destruct m as [|m]; [lia|].
  cbn [deref] in *. destruct (isRef e); [|done]. destruct (get e "$ref") as [[]|]; try done.
  destruct (match fs s with Some _ => _ | None => _ end); [done|].
  destruct (byRef p s) as [i|]; [|done]. destruct (negb (truthy i)); [done|].
  destruct (existsb _ _ || _); [done|]. destruct (isRef i); [|done].
  rewrite (IH i); [done| |lia]. intros Ho. by rewrite Ho in H.
Qed.

(** * What resolving gives *)

Lemma field_set k k' u l : field k (set_field k' u l) = if String.eqb k k' then Some u else field k l.
Proof.
  induction l as [|[k2 v] l IH]; cbn; [done|].
  destruct (String.eqb_spec k' k2) as [<-|H]; cbn.
  - by destruct (String.eqb_spec k k').
  - rewrite IH. destruct (String.eqb_spec k k2) as [->|]; [|done].
    destruct (String.eqb_spec k2 k') as [->|]; done.
Qed.

Lemma field_app k l m : field k (l ++ m) = match field k l with Some v => Some v | None => field k m end.
Proof. induction l as [|[k' v] l IH]; [done|]. cbn. by destruct (String.eqb k k'). Qed.

Lemma field_spread k l m : field k (spread l m) = match field k m with Some v => Some v | None => field k l end.
Proof.
  unfold spread. rewrite field_app.
  assert (field k (map (λ '(k, v), (k, default v (field k m))) l) = (λ v, default v (field k m)) <$> field k l) as ->.
  { induction l as [|[k' v] l IH]; [done|]. cbn. by destruct (String.eqb_spec k k') as [<-|]. }
  destruct (field k l) as [v|] eqn:El; cbn; [by destruct (field k m)|].
  assert (∀ m, field k (filter (λ kv : string * value, match field kv.1 l with None => true | Some _ => false end = true) m) =
    field k m) as ->; [|by destruct (field k m)].
  clear m. intros m. induction m as [|[k' v] m IH]; [done|]. rewrite filter_cons.
  destruct (decide _) as [Hd|Hd]; cbn [field]; [by rewrite IH|].
  destruct (String.eqb_spec k k') as [<-|]; [|done]. cbn in Hd. by rewrite El in Hd.
Qed.

Lemma field_spread_other k m l : field k m = None → field k (spread l m) = field k l.
Proof. intros H. by rewrite field_spread, H. Qed.

Lemma field_without k ks l : existsb (String.eqb k) ks = true → field k (without ks l) = None.
Proof.
  intros Hk. unfold without. induction l as [|[k' u] l IH]; [done|]. rewrite filter_cons.
  destruct (decide _) as [Hd|Hd]; [|done]. cbn. destruct (String.eqb_spec k k') as [<-|]; [|done].
  cbn in Hd. by rewrite Hk in Hd.
Qed.

Lemma field_indices {A} (f : A → value) l k : string_all index_char k = false →
  field k (imap (λ i u, (decimal (Z.of_nat i), f u)) l) = None.
Proof.
  intros Hk. destruct (field _ _) as [v|] eqn:E; [|done]. exfalso.
  apply field_elem, elem_of_lookup_imap in E as (i & u & Hi & _).
  apply (f_equal fst) in Hi. cbn [fst] in Hi. by rewrite Hi, decimal_index in Hk.
Qed.

Lemma not_ref_members v : isRef v = false → is_nullish (default Undef (field "$ref" (own_members v))) = true.
Proof.
  intros H. destruct v; try done; cbn [own_members]; [by rewrite field_indices..|].
  unfold isRef in H. cbn in H. by destruct (field "$ref" fields) as [[]|].
Qed.

Lemma merged_not_ref e i n : isRef i = false → isRef (mergeRefs e i n) = false.
Proof.
  intros Hi. unfold mergeRefs.
  assert (field "$ref" (without ["$ref"] (own_members e)) = None) as Hf by (by apply field_without).
  destruct (without ["$ref"] (own_members e)) as [|kv o] eqn:Eo; [done|]. case_match; [done|].
  unfold isRef. cbn [truthy andb get]. rewrite field_spread_other by done.
  by rewrite not_ref_members.
Qed.

(** What a reference resolves to is not a reference again, unless a reference on the
    way was already on the stack or the stack is full: references through references are
    followed to the end, and only circular ones are left. *)
Theorem deref_resolves k p e t n v o : no_stacks (spec p) = true → no_stacks e = true →
  deref k p e t n = Resolved v o → isRef v = true →
  (∃ s, existsb (λ w, strict_eq w (Str s)) t = true) ∨ 999 < Z.of_nat (length t).
Proof.
  intros Hd. revert e v o. induction k as [|k IH]; intros e v o He; [done|].
  cbn [deref]. rewrite (no_stack_here e He). cbn [bc truthy].
  destruct (isRef e) eqn:Ee; [|intros [= <- _]; congruence].
  destruct (get e "$ref") as [[]|]; try done.
  destruct (match fs s with Some _ => _ | None => _ end); [by intros [= <- _]|].
  destruct (byRef p s) as [i|] eqn:Eb; [|done]. destruct (negb (truthy i)); [done|].
  destruct (existsb _ t) eqn:Et; [intros _ _; left; by exists s|]. cbn [orb].
  destruct (Z.ltb_spec 999 (Z.of_nat (length t))); [intros _ _; by right|].
  assert (∀ i', isRef i' = false → isRef (if allowMergeRefs p then mergeRefs e i' n else i') = false) as Hm.
  { intros i' Hi'. destruct (allowMergeRefs p); [by apply merged_not_ref|done]. }
  destruct (isRef i) eqn:Ei; [|intros [= <- _]; by rewrite Hm].
  destruct (deref k p i t n) as [i' o'| |] eqn:Er; try done. intros [= <- _] Hv.
  destruct (isRef i') eqn:Ei'; [|by rewrite Hm in Hv].
  eapply IH; [|exact Er|done]. by apply byRef_part in Eb as [_ Hb]; apply Hb.
Qed.

(** [C27] Resolving a reference ends within as many nested calls as the document has references
    and two more, whatever the stack; or the references lead from one to the next for ever,
    and then no number of nested calls is enough. *)
Theorem deref_ends_or_loops (p : parser) (e : value) (t : list value) (n : bool) :
  no_stacks (spec p) = true → no_stacks e = true →
  let enough := (length (refs (spec p)) + 2)%nat in
  (deref enough p e t n ≠ Overflow ∧ ∀ m, (enough ≤ m)%nat → deref m p e t n = deref enough p e t n) ∨
  (∃ s, get e "$ref" = Some (Str s) ∧ (∀ k, is_Some (iterate (next_ref p t) k s)) ∧
        ∀ k, deref k p e t n = Overflow).
Proof.
  intros Hd He enough.
  assert (deref enough p e t n ≠ Overflow ∨ deref enough p e t n = Overflow) as [H|H]
    by (destruct (deref enough p e t n); auto); [left; split; [done|by apply deref_mono]|right].
  unfold enough in H. rewrite Nat.add_comm in H. cbn [Nat.add] in H.
  destruct (isRef e) eqn:Ee; [|exfalso; eapply deref_not_ref; [exact He|by right|exact H]].
  destruct (get e "$ref") as [w|] eqn:Eg;
    [|exfalso; eapply deref_not_ref; [exact He|left; by intros s Hs; rewrite Hs in Eg|exact H]].
  destruct w as [| | | |s| |];
    try (exfalso; eapply deref_not_ref; [exact He|left; by intros s Hs; rewrite Hs in Eg|exact H]).
  exists s. split; [done|]. apply (deref_iterate _ _ _ _ _ s) in H; [|done..].
  assert (∀ k, is_Some (iterate (next_ref p t) k s)) as Hall.
  { intros k. eapply iterate_repeats; [|exact H]. apply next_ref_refs. }
  split; [done|]. intros k. by eapply deref_iterate.
Qed.

(** * References read the document *)

Definition plain (s : string) : bool := negb (contains_byte "%" s).

Lemma decode_plain fuel s : plain s = true → (String.length s ≤ fuel)%nat → decode fuel s = Some s.
Proof.
  unfold plain. revert s. induction fuel as [|fuel IH]; intros [|a s] Hs Hl; cbn [String.length] in Hl; try done; try lia.
  cbn [decode]. rewrite contains_byte_cons in Hs. destruct (Ascii.eqb a "%"); [done|].
  cbn in Hs. rewrite IH; [done|done|lia].
Qed.

Lemma plain_app s t : plain (s +:+ t) = plain s && plain t.
Proof. unfold plain. by rewrite contains_byte_app, negb_orb. Qed.

Lemma plain_escape_token s : plain s = true → plain (escape_token s) = true.
Proof.
  rewrite escape_token_chars. induction s as [|a s IH]; [done|]. intros H.
  change (String a s) with (one a +:+ s) in H. rewrite plain_app in H. apply andb_true_iff in H as [Ha Hs].
  cbn [escape]. rewrite plain_app, IH by done. rewrite andb_true_r. unfold escaped.
  destruct (Ascii.eqb a "~"); [done|]. by destruct (Ascii.eqb a "/").
Qed.

Lemma plain_compile l : Forall (λ s, plain s = true) l → plain (compile l) = true.
Proof.
  intros H. destruct l as [|x l]; [done|]. unfold compile. rewrite plain_app. apply andb_true_iff. split; [done|].
  revert x H. induction l as [|y l IH]; intros x [Hx Hl]%Forall_cons; [by apply plain_escape_token|].
  change (plain (escape_token x +:+ "/" +:+ join "/" (map escape_token (y :: l))) = true).
  rewrite !plain_app, plain_escape_token, IH by done. done.
Qed.

(** A reference compiled from tokens, with or without its number sign, reads the value that
    is in the document under these tokens, slashes and tildes in them included; one to
    what is not there reads an empty object and is never an error. *)
Theorem reference_reads (p : parser) (l : list string) :
  truthy (spec p) = true → Forall (λ s, plain s = true) l →
  let found := default Undef (read_tokens (spec p) l) in
  let result := Some (if truthy found then found else Obj []) in
  byRef p ("#" +:+ compile l) = result ∧ byRef p (compile l) = result.
Proof.
  intros Ht Hl found result. assert (byRef p ("#" +:+ compile l) = result) as H.
  { unfold byRef. rewrite Ht.
    assert (has_prefix ("#" +:+ compile l) "#" = true) as -> by (apply has_prefix_spec; by eexists).
    unfold decodeURIComponent. rewrite decode_plain; [|by apply plain_compile|done].
    cbn [mbind option_bind]. unfold pointer_get, parse.
    change (strip_hash ("#" +:+ compile l)) with (compile l). by rewrite pointer_parse_compile. }
  split; [exact H|]. rewrite <-H. unfold byRef. rewrite Ht. by destruct l.
Qed.

(** * A document *)

Definition ref_to (s : string) : value := Obj [("$ref", Str s)].
(** An alias of a schema, a reference to what is not there, and one to itself. *)
Definition demo_document : value := Obj [
  ("openapi", Str "3.0.0");
  ("components", Obj [("schemas", Obj [
    ("pet", Obj [("type", Str "object")]);
    ("alias", ref_to "#/components/schemas/pet");
    ("loop", ref_to "#/components/schemas/loop");
    ("a/b~c", Obj [("type", Str "string")])])])].
Definition demo_parser : parser := Parser demo_document false [].

Example demo_parser_built : new_parser demo_document [] = Some demo_parser.
Proof. reflexivity. Qed.

Example alias_resolved :
  deref 3 demo_parser (ref_to "#/components/schemas/alias") [] false =
  Resolved (Obj [("type", Str "object")]) [Str "#/components/schemas/alias"].
Proof. vm_compute. reflexivity. Qed.

(** A reference to what is not there is an empty schema, not an error. *)
Example missing_resolved :
  deref 3 demo_parser (ref_to "#/components/schemas/none") [] false =
  Resolved (Obj []) [Str "#/components/schemas/none"].
Proof. vm_compute. reflexivity. Qed.

Lemma reference_reads_witness :
  byRef demo_parser ("#" +:+ compile ["components"; "schemas"; "a/b~c"]) = Some (Obj [("type", Str "string")]).
Proof.
  apply (reference_reads demo_parser ["components"; "schemas"; "a/b~c"]); [reflexivity|].
  repeat (constructor; [reflexivity|]). constructor.
Defined.

Lemma deref_resolves_witness :
  let t := [Str "#/components/schemas/loop"] in
  (∃ s, existsb (λ w, strict_eq w (Str s)) t = true) ∨ 999 < Z.of_nat (length t).
Proof.
  apply (deref_resolves 1 demo_parser (ref_to "#/components/schemas/loop") [Str "#/components/schemas/loop"] false
    (mark_circular (ref_to "#/components/schemas/loop")) [Str "#/components/schemas/loop"]);
    vm_compute; reflexivity.
Defined.

(** The schema that is a reference to itself: every stack of calls is too small. *)
Lemma deref_ends_or_loops_witness :
  let e := ref_to "#/components/schemas/loop" in
  isRef e = true ∧ ∀ k, deref k demo_parser e [] false = Overflow.
Proof.
  split; [reflexivity|].
  destruct (deref_ends_or_loops demo_parser (ref_to "#/components/schemas/loop") [] false eq_refl eq_refl)
    as [[H _]|(s & _ & _ & H)]; [exfalso; apply H; vm_compute; reflexivity|exact H].
Defined.
