(* ===== verification/RedocAllOf.v ===== *)
(** The merge of schemas that are combined by allOf (the methods [mergeAllOf],
    [hoistOneOfs] and [findDerived] of Redoc's parser): the members, references among
    them, are resolved and merged one after the other into one schema. *)
From S2P Require Import Prelude GoStrings.
From S2P Require Import Float64 JsNumber JsValue RedocJson JsonPointer RedocParser.
Local Open Scope Z_scope.

(** * Calls *)

(** A call returns, throws, or nests deeper than the fuel. *)
Inductive call (A : Type) : Type :=
  | Returned (a : A)
  | Throws
  | TooDeep.
Arguments Returned {A} a.
Arguments Throws {A}.
Arguments TooDeep {A}.

Definition call_bind {A B} (f : A → call B) (c : call A) : call B :=
  match c with Returned a => f a | Throws => Throws | TooDeep => TooDeep end.
#[export] Instance call_mbind : MBind call := @call_bind.
Definition of_option {A} (o : option A) : call A :=
  match o with Some a => Returned a | None => Throws end.
Definition of_resolution (r : resolution) : call (value * list value) :=
  match r with Resolved v o => Returned (v, o) | Thrown => Throws | Overflow => TooDeep end.

(** * Members of schemas *)

Definition schema : Type := list (string * value).
Definition at_ (i : schema) (k : string) : value := default Undef (field k i).
(** [void 0 !== x]. *)
Definition defined (v : value) : bool := negb (is_undef v).
(** [void 0 !== x && typeof x == "object"], then [{...x}]. *)
Definition is_object (v : value) : bool := match v with Null | Arr _ | Obj _ => true | _ => false end.
Definition copied (v : value) : value := if is_object v then Obj (own_members v) else v.
Definition copy_at (k : string) (i : schema) : schema :=
  if defined (at_ i k) then set_field k (copied (at_ i k)) i else i.

(** [...x] in an array: the elements of an array, the characters of a text; other values
    throw. *)
Definition iterate_over (v : value) : option (list value) :=
  match v with
  | Arr l => Some l
  | Str s => Some (map Str (chars s))
  | _ => None
  end.
(** [...x || []]. *)
Definition iterate_or_empty (v : value) : option (list value) := if truthy v then iterate_over v else Some [].

(** [Array.from(new Set(l))]: the first of equal values (objects are compared by identity,
    which the model does not have). *)
Definition same_value (v w : value) : bool :=
  strict_eq v w || match v, w with Num x, Num y => f64_is_nan x && f64_is_nan y | _, _ => false end.
Fixpoint distinct (seen l : list value) : list value :=
  match l with
  | [] => []
  | v :: l' => if existsb (same_value v) seen then distinct seen l' else v :: distinct (v :: seen) l'
  end.

(** * hoistOneOfs *)

(** The first member with alternatives: the combination of each with the other members. *)
Fixpoint hoisted (before after : list value) (t : list value) : option (option value) :=
  match after with
  | [] => Some None
  | r :: after' =>
      one ← get r "oneOf";
      match one with
      | Arr alternatives =>
          Some (Some (Obj [("oneOf", Arr (map (λ e,
            Obj [("allOf", Arr (before ++ e :: after')); ("x-refsStack", Arr t)]) alternatives))]))
      | _ => hoisted (before ++ [r]) after' t
      end
  end.
(** Members of anything but an array have no alternatives. *)
Definition hoistOneOfs (e : value) (t : list value) : option value :=
  a ← get e "allOf";
  match a with
  | Null => None
  | Arr l => r ← hoisted [] l t; Some (default e r)
  | _ => Some e
  end.

(** * mergeAllOf *)

(** A member after its resolution: its reference, its stack and its merged schema. *)
Record entry : Type := Entry { e_ref : option string; e_stack : list value; e_schema : value }.

Fixpoint distinct_refs (seen : list string) (l : list entry) : list entry :=
  match l with
  | [] => []
  | x :: l' =>
      match e_ref x with
      | Some s => if existsb (String.eqb s) seen then distinct_refs seen l' else x :: distinct_refs (s :: seen) l'
      | None => x :: distinct_refs seen l'
      end
  end.

Definition merged_keys : list string :=
  ["type"; "enum"; "properties"; "items"; "required"; "title"; "description"; "readOnly"; "writeOnly";
   "oneOf"; "anyOf"; "x-circular-ref"].
Definition either (v w : value) : value := if truthy v then v else w.

Section merging.
Context (p : parser) (resolve : value → list value → call (value * list value))
  (merge : value → option string → list value → call value).

(** The resolution of one member, and the references it adds to [x-parentRefs]; a member
    that is circular and still has allOf is left out. *)
Definition collect_member (n : list value) (e : value) : call (option entry * list value) :=
  '(r, o) ← resolve e n;
  ref ← of_option (get e "$ref");
  let a := match ref with Str s => if String.eqb s "" then None else Some s | _ => None end in
  s ← merge r a o;
  circular ← of_option (get s "x-circular-ref");
  all ← of_option (get s "allOf");
  if truthy circular && truthy all then Returned (None, [])
  else
    match a with
    | Some ref =>
        parents ← of_option (get s "x-parentRefs");
        l ← of_option (iterate_or_empty parents);
        Returned (Some (Entry a (yc o (Str ref)) s), l ++ [Str ref])
    | None => Returned (Some (Entry None o s), [])
    end.
Fixpoint collect (n : list value) (l : list value) : call (list entry * list value) :=
  match l with
  | [] => Returned ([], [])
  | e :: l' =>
      '(x, r) ← collect_member n e;
      '(xs, rs) ← collect n l';
      Returned (match x with Some x => x :: xs | None => xs end, r ++ rs)
  end.

Definition below (t : option string) (s : string) : option string := Some (default "undefined" t +:+ s).

(** One property of a member, merged into those there are. *)
Definition merge_property (t : option string) (n : list value) (circular : bool) (k : string) (v : value)
    (properties : schema) : call schema :=
  let stack := if is_nullish v then Undef else default Undef (get v "x-refsStack") in
  let o := bc n stack in
  let u := Obj (set_field "x-refsStack" (Arr o) (own_members v)) in
  if truthy (at_ properties k) then
    if circular then Returned properties
    else
      r ← merge (Obj [("allOf", Arr [at_ properties k; u]); ("x-refsStack", Arr o)]) (below t ("/properties/" +:+ k)) o;
      Returned (set_field k r properties)
  else Returned (set_field k u properties).
Fixpoint merge_properties (t : option string) (n : list value) (circular : bool) (l properties : schema) : call schema :=
  match l with
  | [] => Returned properties
  | (k, v) :: l' =>
      properties ← merge_property t n circular k v properties;
      merge_properties t n circular l' properties
  end.

(** The steps of the merge of a member [e] into [i]. *)
Definition merge_type (e i : schema) : schema :=
  let a := at_ e "type" in
  if defined a then
    set_field "type" (match a, at_ i "type" with Arr a, Arr b => Arr (a ++ b) | _, _ => a end) i
  else i.
Definition merge_enum (e i : schema) : schema :=
  let a := at_ e "enum" in
  if defined a then
    set_field "enum" (match a, at_ i "enum" with Arr a, Arr b => Arr (distinct [] (a ++ b)) | _, _ => a end) i
  else i.
(** Assigning a property of a primitive value throws. *)
Definition merge_props (t : option string) (n : list value) (e i : schema) : call schema :=
  let l := at_ e "properties" in
  if is_object l then
    let there := either (at_ i "properties") (Obj []) in
    match there, own_members l with
    | Obj properties, l =>
        properties ← merge_properties t n (truthy (at_ e "x-circular-ref")) l properties;
        Returned (set_field "properties" (Obj properties) i)
    | _, [] => Returned (set_field "properties" there i)
    | _, _ => Throws
    end
  else Returned i.
Definition items_object (v : value) : value := match v with Bool _ => Obj [] | _ => Obj (own_members v) end.
Definition merge_items (t : option string) (n : list value) (e i : schema) : call schema :=
  if defined (at_ e "items") && negb (truthy (at_ e "x-circular-ref")) then
    r ← merge (Obj [("allOf", Arr [items_object (at_ i "items"); items_object (at_ e "items")])]) (below t "/items") n;
    Returned (set_field "items" r i)
  else Returned i.
Definition overwrite (k : string) (e i : schema) : schema :=
  if defined (at_ e k) then set_field k (at_ e k) i else i.
Definition merge_required (e i : schema) : call schema :=
  if defined (at_ e "required") then
    l ← of_option (iterate_or_empty (at_ i "required"));
    m ← of_option (iterate_over (at_ e "required"));
    Returned (set_field "required" (Arr (l ++ m)) i)
  else Returned i.
Definition merge_rest (e i : schema) : schema :=
  let first k := either (at_ i k) (at_ e k) in
  let known k := if defined (at_ i k) then at_ i k else at_ e k in
  spread (set_field "x-circular-ref" (first "x-circular-ref")
    (set_field "writeOnly" (known "writeOnly")
      (set_field "readOnly" (known "readOnly")
        (set_field "description" (first "description")
          (set_field "title" (first "title") i)))))
    (without merged_keys e).

Definition merge_entry (t : option string) (x : entry) (i : schema) : call schema :=
  let e := own_members (e_schema x) in
  i ← merge_props t (e_stack x) e (merge_enum e (merge_type e i));
  i ← merge_items t (e_stack x) e i;
  i ← merge_required e (overwrite "anyOf" e (overwrite "oneOf" e i));
  Returned (merge_rest e i).
Fixpoint merge_entries (t : option string) (l : list entry) (i : schema) : call schema :=
  match l with
  | [] => Returned i
  | x :: l' => i ← merge_entry t x i; merge_entries t l' i
  end.

(** What the merge starts from: the schema itself, without allOf. *)
Definition merge_start (e : value) (t : option string) : schema :=
  let i := own_members e in
  copy_at "items" (copy_at "properties"
    (set_field "title" (either (at_ i "title") (match t ≫= fs with Some s => Str s | None => Undef end))
      (set_field "allOf" Undef (set_field "x-parentRefs" (Arr []) i)))).

Definition merge_body (e : value) (t : option string) (n : list value) : call value :=
  circular ← of_option (get e "x-circular-ref");
  if truthy circular then Returned e
  else
    e ← of_option (hoistOneOfs e n);
    all ← of_option (get e "allOf");
    if negb (defined all) then Returned e
    else
      match all with
      | Arr l =>
          '(entries, parents) ← collect n l;
          i ← merge_entries t (distinct_refs [] entries) (set_field "x-parentRefs" (Arr parents) (merge_start e t));
          Returned (Obj i)
      | _ => Throws
      end.
End merging.

(** [mergeAllOf(e, t, n)] with calls nested up to [fuel]. *)
Fixpoint mergeAllOf (fuel : nat) (p : parser) (e : value) (t : option string) (n : list value) : call value :=
  match fuel with
  | O => TooDeep
  | S fuel =>
      merge_body (λ e n, of_resolution (deref fuel p e n true)) (mergeAllOf fuel p) e t n
  end.

(** * findDerived *)

(** The schemas of the document that combine one of the given references: their names or
    the values they are told apart by. *)
Fixpoint is_derived (refs : list string) (l : list value) : option bool :=
  match l with
  | [] => Some false
  | t :: l' =>
      r ← get t "$ref";
      if match r with Str s => existsb (String.eqb s) refs | _ => false end then Some true else is_derived refs l'
  end.
Fixpoint derived (fuel : nat) (p : parser) (refs : list string) (l : schema) : call schema :=
  match l with
  | [] => Returned []
  | (r, v) :: l' =>
      '(i, _) ← of_resolution (deref fuel p v [] false);
      a ← of_option (get i "allOf");
      found ← (match a with
               | Undef => Returned false
               | Arr l => of_option (is_derived refs l)
               | _ => Throws
               end : call bool);
      rest ← derived fuel p refs l';
      Returned (if found : bool then
                  ("#/components/schemas/" +:+ r, Arr [either (default Undef (get i "x-discriminator-value")) (Str r)]) :: rest
                else rest)
  end.
Definition findDerived (fuel : nat) (p : parser) (refs : list string) : call schema :=
  components ← of_option (get (spec p) "components");
  schemas ← (if truthy components then of_option (get components "schemas") else Returned components : call value);
  derived fuel p refs (own_members (either schemas (Obj []))).
