(* ===== verification/RedocAllOfLaws.v ===== *)
(** Laws of the merge of schemas: it ends on every document whose references can be ranked,
    and what it gives combines nothing any more. The proof is one of total correctness:
    a call that settles, for all large fuel, to the same result, with a property of it. *)
From S2P Require Import Prelude GoStrings.
From S2P Require Import Float64 JsNumber JsValue RedocJson JsonPointer RedocParser RedocParserLaws RedocAllOf.
Local Open Scope nat_scope.

(** * Calls that settle *)

Definition settles {A} (c : nat → call A) (Q : A → Prop) : Prop :=
  ∃ N r, r ≠ TooDeep ∧ (∀ a, r = Returned a → Q a) ∧ ∀ k, N ≤ k → c k = r.

Section settling.
Context {A B : Type}.
Implicit Types (c : nat → call A) (Q : A → Prop).

Lemma settles_return (a : A) Q : Q a → settles (λ _, Returned a) Q.
Proof. intros H. exists 0, (Returned a). repeat split; [done|by intros b [= <-]]. Qed.

Lemma settles_throws Q : settles (λ _, @Throws A) Q.
Proof. exists 0, Throws. repeat split; done. Qed.

Lemma settles_option (o : option A) Q : (∀ a, o = Some a → Q a) → settles (λ _, of_option o) Q.
Proof. intros H. destruct o; [by apply settles_return, H|apply settles_throws]. Qed.

Lemma settles_bind c (f : nat → A → call B) Q (R : B → Prop) :
  settles c Q → (∀ a, Q a → settles (λ k, f k a) R) → settles (λ k, call_bind (f k) (c k)) R.
Proof.
  intros (N & r & Hr & HQ & Hc) Hf. destruct r as [a| |]; [|by exists N, Throws; repeat split; [..|intros k Hk; by rewrite Hc]|done].
  destruct (Hf a (HQ a eq_refl)) as (M & r & Hr' & HR & Hm). exists (N `max` M), r. repeat split; [done|done|].
  intros k Hk. rewrite Hc by lia. apply Hm. lia.
Qed.

Lemma settles_mono c Q (R : A → Prop) : settles c Q → (∀ a, Q a → R a) → settles c R.
Proof. intros (N & r & Hr & HQ & Hc) H. exists N, r. repeat split; auto. Qed.

Lemma settles_step c Q : settles (λ k, c (S k)) Q → settles c Q.
Proof.
  intros (N & r & Hr & HQ & Hc). exists (S N), r. repeat split; [done..|]. intros [|k] Hk; [lia|]. apply Hc. lia.
Qed.
End settling.

(** * Heights *)

Section pick.
Context (f : value → nat).
(** A number taken from a member, or 0. *)
Definition pick (k : string) : schema → nat :=
  fix go l := match l with [] => 0 | (k', u) :: l' => if String.eqb k k' then f u else go l' end.

Lemma pick_field k l : pick k l = default 0 (f <$> field k l).
Proof. induction l as [|[k' u] l IH]; [done|]. cbn. by destruct (String.eqb k k'). Qed.
End pick.

Definition max_of {A} (f : A → nat) (l : list A) : nat := foldr (λ x n, f x `max` n) 0 l.

Lemma max_of_cons {A} (f : A → nat) x l : max_of f (x :: l) = f x `max` max_of f l.
Proof. done. Qed.

Lemma max_of_le {A} (f : A → nat) l n : max_of f l ≤ n ↔ Forall (λ x, f x ≤ n) l.
Proof.
  induction l as [|x l IH]; [cbn; split; [constructor|lia]|].
  rewrite Forall_cons, <-IH. change (max_of f (x :: l)) with (f x `max` max_of f l). lia.
Qed.

Lemma max_of_elem {A} (f : A → nat) l x : x ∈ l → f x ≤ max_of f l.
Proof. intros Hx. assert (Forall (λ x, f x ≤ max_of f l) l) as H by (by apply max_of_le). by eapply Forall_forall in H. Qed.

Section heights.
(** A rank of references. *)
Context (w : string → nat).

Definition ref_rank (v : value) : nat := match v with Str s => w s | _ => 0 end.

(** How deep a schema nests through allOf, properties, items and references, and the
    heights of the members of a value. *)
Fixpoint heights (v : value) : nat * nat :=
  match v with
  | Arr l => (1, max_of (λ u, (heights u).1) l)
  | Obj l =>
      (S (pick (λ u, (heights u).2) "allOf" l `max` pick (λ u, (heights u).2) "properties" l `max`
          pick (λ u, (heights u).1) "items" l `max` pick ref_rank "$ref" l),
       max_of (λ kv, (heights kv.2).1) l)
  | _ => (1, 0)
  end.
Definition height (v : value) : nat := (heights v).1.
Definition inner (v : value) : nat := (heights v).2.

(** The heights of a schema without allOf, and of the members it combines. *)
Definition own_part (l : schema) : nat :=
  S (pick inner "properties" l `max` pick height "items" l `max` pick ref_rank "$ref" l).
Definition flat (v : value) : nat :=
  match v with Obj l => own_part l `max` pick inner "allOf" l | _ => 1 end.

(** How deep a schema nests through allOf and references alone. *)
Fixpoint depths (v : value) : nat * nat :=
  match v with
  | Arr l => (1, max_of (λ u, (depths u).1) l)
  | Obj l =>
      let m := pick (λ u, (depths u).2) "allOf" l in
      (S (m `max` pick (λ u, match u with Str s => S (w s `max` S m) | _ => 0 end) "$ref" l), 0)
  | _ => (1, 0)
  end.
Definition depth_of (v : value) : nat := (depths v).1.

Lemma height_Obj l : height (Obj l) = own_part l `max` S (pick inner "allOf" l).
Proof. unfold height, own_part. cbn [heights fst]. fold inner. fold height. unfold inner, height. lia. Qed.

Lemma height_positive v : 1 ≤ height v.
Proof. destruct v; cbn; lia. Qed.

Lemma flat_positive v : 1 ≤ flat v.
Proof. destruct v; cbn [flat]; unfold own_part; lia. Qed.

Lemma depth_positive v : 1 ≤ depth_of v.
Proof. destruct v; cbn; lia. Qed.

Lemma flat_height v : flat v ≤ height v ≤ S (flat v).
Proof. destruct v as [| | | | | |l]; cbn [flat]; try (cbn; lia). rewrite height_Obj. lia. Qed.

(** Nothing nests through a value that is not truthy. *)
Lemma falsy_inner v : truthy v = false → inner v = 0.
Proof. by destruct v. Qed.

Lemma flat_falsy v : (∀ l, v = Obj l → truthy (at_ l "allOf") = false) → height v = flat v.
Proof.
  intros H. destruct v as [| | | | | |l]; try done. rewrite height_Obj. cbn [flat].
  assert (pick inner "allOf" l = 0) as ->; [|unfold own_part; lia].
  specialize (H l eq_refl). rewrite pick_field. unfold at_ in H.
  destruct (field "allOf" l) as [v|]; [|done]. by apply falsy_inner.
Qed.

(** * Members that matter *)

Definition nesting : list string := ["allOf"; "properties"; "items"; "$ref"].

Lemma pick_set f k k' u l : pick f k (set_field k' u l) = if String.eqb k k' then f u else pick f k l.
Proof. rewrite !pick_field, field_set. by destruct (String.eqb k k'). Qed.

Lemma pick_spread f k m l : field k m = None → pick f k (spread l m) = pick f k l.
Proof. intros H. by rewrite !pick_field, field_spread_other. Qed.

(** Two schemas with the same members that matter. *)
Definition same_nesting (l m : schema) : Prop := ∀ k, k ∈ nesting → field k l = field k m.

Lemma same_nesting_measures l m : same_nesting l m →
  height (Obj l) = height (Obj m) ∧ flat (Obj l) = flat (Obj m) ∧ depth_of (Obj l) = depth_of (Obj m).
Proof.
  intros H. assert (∀ f k, k ∈ nesting → pick f k l = pick f k m) as E.
  { intros f k Hk. rewrite !pick_field. by rewrite H. }
  rewrite !height_Obj. unfold flat, own_part, depth_of. cbn [depths fst].
  assert ("allOf" ∈ nesting) by vm_decide. assert ("properties" ∈ nesting) by vm_decide.
  assert ("items" ∈ nesting) by vm_decide. assert ("$ref" ∈ nesting) by vm_decide.
  by rewrite !(E _ "allOf"), !(E _ "properties"), !(E _ "items"), !(E _ "$ref").
Qed.

Lemma same_nesting_set k u l : k ∉ nesting → same_nesting (set_field k u l) l.
Proof.
  intros Hk k' Hk'. rewrite field_set. destruct (String.eqb_spec k' k) as [->|]; [done|done].
Qed.

Lemma own_member_index v k : (∀ l, v ≠ Obj l) → string_all index_char k = false → field k (own_members v) = None.
Proof.
  intros Hv Hk. destruct v; try done; cbn [own_members]; [by apply field_indices..|by destruct (Hv fields)].
Qed.

Lemma value_is_Obj v : (∃ l, v = Obj l) ∨ ∀ l, v ≠ Obj l.
Proof. destruct v; try (by right). left. by eexists. Qed.

Lemma own_members_measures v :
  height (Obj (own_members v)) ≤ height v ∧ flat (Obj (own_members v)) ≤ flat v ∧
  depth_of (Obj (own_members v)) ≤ depth_of v.
Proof.
  destruct (value_is_Obj v) as [[l ->]|Hv]; [done|].
  assert (same_nesting (own_members v) []) as H%same_nesting_measures.
  { intros k Hk. rewrite own_member_index; [done|done|].
    unfold nesting in Hk. rewrite !elem_of_cons, elem_of_nil in Hk. by destruct Hk as [->|[->|[->|[->|[]]]]]. }
  destruct H as (-> & -> & ->).
  split; [apply height_positive|split; [apply flat_positive|apply depth_positive]].
Qed.
(** * References *)

(** Every reference outranks what it refers to. *)
Definition ranked (p : parser) : Prop :=
  ∀ s i, byRef p s = Some i → height i ≤ w s ∧ depth_of i ≤ w s.

Lemma field_without_other k ks l : existsb (String.eqb k) ks = false → field k (without ks l) = field k l.
Proof.
  intros Hk. unfold without. induction l as [|[k' u] l IH]; [done|]. rewrite filter_cons.
  destruct (decide _) as [Hd|Hd]; cbn [field]; [by rewrite IH|].
  destruct (String.eqb_spec k k') as [<-|]; [|done]. cbn in Hd. by rewrite Hk in Hd.
Qed.

Lemma pick_without f k ks l : pick f k (without ks l) ≤ pick f k l.
Proof.
  rewrite !pick_field. destruct (existsb (String.eqb k) ks) eqn:E.
  - rewrite field_without by done. cbn. lia.
  - by rewrite field_without_other.
Qed.

Lemma height_without ks l : height (Obj (without ks l)) ≤ height (Obj l).
Proof.
  rewrite !height_Obj. unfold own_part.
  pose proof (pick_without inner "properties" ks l). pose proof (pick_without height "items" ks l).
  pose proof (pick_without ref_rank "$ref" ks l). pose proof (pick_without inner "allOf" ks l). lia.
Qed.

Lemma depth_without ks l : depth_of (Obj (without ks l)) ≤ depth_of (Obj l).
Proof.
  unfold depth_of. cbn [depths fst]. pose proof (pick_without (λ u, (depths u).2) "allOf" ks l) as H.
  rewrite !(pick_field _ "$ref"). destruct (existsb (String.eqb "$ref") ks) eqn:E.
  - rewrite field_without by done. cbn [fmap option_fmap option_map default]. lia.
  - rewrite field_without_other by done. destruct (field "$ref" l) as [[]|]; cbn; lia.
Qed.

(** A reference with its members. *)
Lemma ref_measures l s : field "$ref" l = Some (Str s) →
  S (w s) ≤ height (Obj l) ∧ S (S (w s)) ≤ depth_of (Obj l) ∧
  ∀ ks, S (S (depth_of (Obj (without ("$ref" :: ks) l)))) ≤ depth_of (Obj l).
Proof.
  intros H. assert (∀ f, pick f "$ref" l = f (Str s)) as Hp by (intros f; by rewrite pick_field, H).
  split; [|split].
  - rewrite height_Obj. unfold own_part. rewrite (Hp ref_rank). cbn [ref_rank]. lia.
  - unfold depth_of. cbn [depths fst]. rewrite Hp. lia.
  - intros ks. unfold depth_of. cbn [depths fst]. rewrite Hp.
    rewrite (pick_field _ "$ref" (without _ _)), field_without by done. cbn [fmap option_fmap option_map default].
    pose proof (pick_without (λ u, (depths u).2) "allOf" ("$ref" :: ks) l). lia.
Qed.

Lemma annotations_irrelevant k l : k ∈ nesting →
  existsb (λ kv : string * value, negb (existsb (String.eqb kv.1) annotations)) l = false → field k l = None.
Proof.
  intros Hk. assert (existsb (String.eqb k) annotations = false) as Ha.
  { unfold nesting in Hk. rewrite !elem_of_cons, elem_of_nil in Hk. by destruct Hk as [->|[->|[->|[->|[]]]]]. }
  induction l as [|[k' u] l IH]; [done|]. cbn [existsb field fst]. intros [H1 H2]%orb_false_iff.
  destruct (String.eqb_spec k k') as [->|]; [by rewrite Ha in H1|by apply IH].
Qed.

(** A schema that only combines others. *)
Lemma combined_measures ms extra : (∀ k, k ∈ nesting → field k extra = None) →
  flat (Obj (("allOf", Arr ms) :: extra)) = 1 `max` max_of height ms ∧
  depth_of (Obj (("allOf", Arr ms) :: extra)) = S (max_of depth_of ms).
Proof.
  intros H. assert (∀ f k, k ∈ nesting → pick f k extra = 0) as E by (intros f k Hk; by rewrite pick_field, H).
  unfold flat, own_part, depth_of. cbn [depths fst pick String.eqb]. cbn -[heights depths].
  rewrite !E by vm_decide. split; [cbn; unfold height; lia|]. cbn. lia.
Qed.

Lemma mergeRefs_measures l i s : field "$ref" l = Some (Str s) → flat i ≤ w s → depth_of i ≤ w s →
  flat (mergeRefs (Obj l) i true) ≤ height (Obj l) ∧ depth_of (mergeRefs (Obj l) i true) ≤ depth_of (Obj l).
Proof.
  intros Hl Hf Hd. destruct (ref_measures l s Hl) as (Hh & Hw & Hr). unfold mergeRefs. cbn [own_members].
  destruct (without ["$ref"] l) as [|kv o] eqn:Eo; [split; lia|]. rewrite <-Eo. clear Eo kv o.
  set (o := without ["$ref"] l). cbn [andb]. destruct (existsb _ o) eqn:Ee.
  - set (rest := Obj (without _ o)).
    assert (height rest ≤ height (Obj l)) as H1.
    { unfold rest, o. etransitivity; apply height_without. }
    assert (S (S (depth_of rest)) ≤ depth_of (Obj l)) as H2.
    { etransitivity; [apply le_n_S, le_n_S, depth_without|]. exact (Hr []). }
    pose proof (flat_height i) as Hi.
    set (desc := Obj (("description", _) :: _)).
    destruct (combined_measures [desc; i; rest] []) as [-> ->]; [done|].
    assert (height desc = 1 ∧ depth_of desc = 1) as [H3 H4] by done.
    rewrite !max_of_cons, H3, H4. pose proof (height_positive rest). cbn [max_of foldr]. lia.
  - assert (same_nesting (spread (own_members i) o) (own_members i)) as (_ & -> & ->)%same_nesting_measures.
    { intros k Hk. rewrite field_spread_other; [done|]. by apply annotations_irrelevant. }
    destruct (own_members_measures i) as (_ & ? & ?). lia.
Qed.
Lemma mark_circular_measures i : flat (mark_circular i) ≤ flat i ∧ depth_of (mark_circular i) ≤ depth_of i.
Proof.
  unfold mark_circular. destruct (same_nesting_measures (set_field "x-circular-ref" (Bool true) (own_members i)) (own_members i))
    as (_ & -> & ->); [by apply same_nesting_set; vm_decide|]. by destruct (own_members_measures i) as (_ & ? & ?).
Qed.

Lemma ref_is_object e s : get e "$ref" = Some (Str s) → ∃ l, e = Obj l ∧ field "$ref" l = Some (Str s).
Proof.
  destruct e as [| | | | |l|l]; try done; [by rewrite get_array|]. cbn. intros H. exists l. split; [done|].
  destruct (field "$ref" l); [by cbn in H|done].
Qed.

(** Resolving a member ends, with a schema that nests no deeper. *)
Lemma deref_settles p m t : ranked p →
  settles (λ k, of_resolution (deref k p m t true)) (λ r, flat r.1 ≤ height m ∧ depth_of r.1 ≤ depth_of m).
Proof.
  intros Hp. remember (height m) as h eqn:Eh. revert m t Eh. induction h as [h IH] using lt_wf_ind. intros m t ->.
  apply settles_step. cbn [deref]. set (t' := bc t _).
  assert (∀ r : value * list value, flat r.1 ≤ height m ∧ depth_of r.1 ≤ depth_of m →
    settles (λ _ : nat, Returned r) (λ r, flat r.1 ≤ height m ∧ depth_of r.1 ≤ depth_of m)) as Hret by (intros; by apply settles_return).
  destruct (isRef m); [|apply Hret; cbn; pose proof (flat_height m); lia].
  destruct (get m "$ref") as [[]|] eqn:Em; try apply settles_throws.
  destruct (match fs s with Some _ => _ | None => _ end).
  { apply Hret. cbn. pose proof (height_positive m). pose proof (depth_positive m). lia. }
  destruct (byRef p s) as [i|] eqn:Ei; [|apply settles_throws].
  destruct (negb (truthy i)); [apply settles_throws|].
  apply ref_is_object in Em as (l & -> & Hl). destruct (ref_measures l s Hl) as (Hh & Hw & _).
  destruct (Hp s i Ei) as [Hi Hd]. pose proof (flat_height i) as Hf.
  assert (∀ i', flat i' ≤ w s → depth_of i' ≤ w s →
    flat (if allowMergeRefs p then mergeRefs (Obj l) i' true else i') ≤ height (Obj l) ∧
    depth_of (if allowMergeRefs p then mergeRefs (Obj l) i' true else i') ≤ depth_of (Obj l)) as Hfin.
  { intros i' H1 H2. destruct (allowMergeRefs p); [by eapply mergeRefs_measures|lia]. }
  destruct (existsb _ t' || _).
  { apply Hret. cbn [fst]. destruct (mark_circular_measures i). apply Hfin; lia. }
  destruct (isRef i); [|apply Hret; cbn [fst]; apply Hfin; lia].
  destruct (IH (height i) ltac:(lia) i t' eq_refl) as (N & r & Hr & HQ & Hk).
  destruct r as [[i' o]| |]; [|exists N, Throws|done].
  - specialize (HQ _ eq_refl) as [H1 H2]. cbn [fst] in H1, H2.
    eexists N, _. split; [|split; [|intros k HN; specialize (Hk k HN);
      destruct (deref k p i t' true); try discriminate Hk; injection Hk as -> ->; reflexivity]]; [done|].
    intros [v o'] [= <- <-]. cbn [fst]. apply Hfin; lia.
  - repeat split; [done..|]. intros k HN. specialize (Hk k HN). by destruct (deref k p i t' true).
Qed.
(** * The merge settles *)

Definition no_allOf (r : value) : Prop := ∀ l, r = Obj l → truthy (at_ l "allOf") = false.
Definition circular (r : value) : bool := truthy (default Undef (get r "x-circular-ref")).
(** The result combines nothing and nests no deeper than the parts, or the schema was
    circular and is left as it is. *)
Definition result_ok (e r : value) : Prop :=
  (height r ≤ flat e ∧ no_allOf r) ∨ (r = e ∧ circular r = true).

Ltac settle Q := unfold mbind, call_mbind; apply (settles_bind _ _ Q).
Ltac settle_option a := unfold mbind, call_mbind; eapply settles_bind; [apply settles_option; let H := fresh in intros a H; exact H|cbv beta; intros a].

Section body.
Context (p : parser) (B D : nat).
Hypothesis Hranked : ranked p.
Hypothesis Hmerge : ∀ e t n, flat e < S B ∨ (flat e ≤ S B ∧ depth_of e < D) →
  settles (λ k, mergeAllOf k p e t n) (result_ok e).

Definition entry_ok (x : entry) : Prop := height (e_schema x) ≤ S B ∧ no_allOf (e_schema x).
(** A schema on the way. *)
Definition merging_ok (i : schema) : Prop := own_part i ≤ S B ∧ truthy (at_ i "allOf") = false.

Local Notation resolving k := (λ e n, of_resolution (deref k p e n true)).

Lemma collect_member_settles n m : height m ≤ S B → depth_of m < D →
  settles (λ k, collect_member (resolving k) (mergeAllOf k p) n m) (λ r, ∀ x, r.1 = Some x → entry_ok x).
Proof.
  intros Hh Hd. unfold collect_member.
  settle (λ r : value * list value, flat r.1 ≤ height m ∧ depth_of r.1 ≤ depth_of m); [by apply deref_settles|].
  intros [r o] [H1 H2]. cbn [fst] in H1, H2. settle_option ref. intros _.
  set (a := match ref with Str _ => _ | _ => _ end).
  settle (result_ok r); [apply Hmerge; right; lia|]. intros s Hs.
  settle_option c. intros Hc. settle_option l. intros Hl.
  destruct (truthy c && truthy l) eqn:Ecl; [by apply settles_return|].
  assert (height s ≤ S B ∧ no_allOf s) as Hok.
  { destruct Hs as [[Hs Hn]|[-> Hs]]; [split; [lia|done]|]. unfold circular in Hs. rewrite Hc in Hs. cbn in Hs.
    rewrite Hs in Ecl. cbn in Ecl.
    assert (no_allOf r) as Hn; [|split; [rewrite (flat_falsy r Hn); lia|done]].
    intros l' ->. cbn in Hl. injection Hl as <-. done. }
  destruct a as [ref'|]; [|apply settles_return; by intros x [= <-]].
  settle_option q. intros Hq. settle_option q'. intros Hq'. apply settles_return. by intros x [= <-].
Qed.
Lemma collect_settles n l : Forall (λ m, height m ≤ S B ∧ depth_of m < D) l →
  settles (λ k, collect (resolving k) (mergeAllOf k p) n l) (λ r, Forall entry_ok r.1).
Proof.
  induction 1 as [|m l [H1 H2] _ IH]; cbn [collect]; [by apply settles_return|].
  settle (λ r : option entry * list value, ∀ x, r.1 = Some x → entry_ok x); [by apply collect_member_settles|].
  intros [x r] Hx. settle (λ r : list entry * list value, Forall entry_ok r.1); [exact IH|].
  intros [xs rs] Hxs. apply settles_return. cbn in *. destruct x; [constructor; auto|done].
Qed.

Lemma distinct_refs_ok seen l : Forall entry_ok l → Forall entry_ok (distinct_refs seen l).
Proof.
  intros H. revert seen. induction H as [|x l Hx _ IH]; intros seen; cbn; [done|].
  destruct (e_ref x); [case_match|]; [apply IH|constructor; [done|apply IH]..].
Qed.

(** Properties nest at least one level deeper. *)
Definition properties_ok (l : schema) : Prop := Forall (λ kv, height kv.2 ≤ B) l.

Lemma properties_inner l : inner (Obj l) ≤ B ↔ properties_ok l.
Proof. unfold inner, properties_ok. cbn [heights snd]. apply max_of_le. Qed.

Lemma properties_set k v l : height v ≤ B → properties_ok l → properties_ok (set_field k v l).
Proof.
  intros Hv. induction 1 as [|[k' u] l Hu Hl IH]; cbn; [by repeat constructor|].
  destruct (String.eqb k k'); constructor; auto.
Qed.

Lemma properties_at k l : properties_ok l → truthy (at_ l k) = true → height (at_ l k) ≤ B.
Proof.
  intros Hl. unfold at_. destruct (field k l) as [v|] eqn:E; [|done]. intros _.
  apply field_elem in E. exact (proj1 (Forall_forall _ _) Hl _ E).
Qed.

Lemma stacked_height k u v : k ∉ nesting → height (Obj (set_field k u (own_members v))) ≤ height v.
Proof.
  intros Hk. destruct (same_nesting_measures (set_field k u (own_members v)) (own_members v)) as (-> & _ & _);
    [by apply same_nesting_set|apply own_members_measures].
Qed.

(** Combining two schemas of a lower level. *)
Lemma combine_settles x y extra t n : height x ≤ B → height y ≤ B →
  (∀ k, k ∈ nesting → field k extra = None) → field "x-circular-ref" extra = None →
  settles (λ k, mergeAllOf k p (Obj (("allOf", Arr [x; y]) :: extra)) t n) (λ r, height r ≤ B).
Proof.
  intros Hx Hy He Hc. destruct (combined_measures [x; y] extra He) as [Hf Hd].
  pose proof (height_positive x). rewrite !max_of_cons in Hf. cbn [max_of foldr] in Hf.
  eapply settles_mono; [apply Hmerge; left; lia|].
  intros r [[Hr _]|[-> Hr]]; [lia|]. unfold circular in Hr. cbn in Hr. by rewrite Hc in Hr.
Qed.

Lemma merge_property_settles t n c k v l : height v ≤ B → properties_ok l →
  settles (λ f, merge_property (mergeAllOf f p) t n c k v l) properties_ok.
Proof.
  intros Hv Hl. unfold merge_property. set (o := bc n _). set (u := Obj (set_field _ _ _)).
  assert (height u ≤ B) as Hu.
  { etransitivity; [apply (stacked_height "x-refsStack" (Arr o) v); vm_decide|done]. }
  destruct (truthy (at_ l k)) eqn:Et; [|by apply settles_return, properties_set].
  destruct c; [by apply settles_return|].
  settle (λ r, height r ≤ B).
  - apply combine_settles; [by apply properties_at|done| |done].
    intros k' Hk'. unfold nesting in Hk'. rewrite !elem_of_cons, elem_of_nil in Hk'.
    by destruct Hk' as [->|[->|[->|[->|[]]]]].
  - intros r Hr. by apply settles_return, properties_set.
Qed.

Lemma merge_properties_settles t n c m l : properties_ok m → properties_ok l →
  settles (λ f, merge_properties (mergeAllOf f p) t n c m l) properties_ok.
Proof.
  intros Hm. revert l. induction Hm as [|[k v] m Hv _ IH]; intros l Hl; cbn [merge_properties]; [by apply settles_return|].
  settle properties_ok; [by apply merge_property_settles|]. intros l' Hl'. by apply IH.
Qed.

(** Steps that leave what nests alone, or put something of a lower level there. *)
Lemma merging_set k u i : k ∉ nesting → merging_ok i → merging_ok (set_field k u i).
Proof.
  intros Hk [H1 H2]. assert (∀ k', k' ∈ nesting → String.eqb k' k = false) as E.
  { intros k' Hk'. apply String.eqb_neq. by intros ->. }
  split.
  - unfold own_part. rewrite !pick_set, !E by vm_decide. done.
  - unfold at_. rewrite field_set, E by vm_decide. done.
Qed.

Lemma merging_properties v i : inner v ≤ B → merging_ok i → merging_ok (set_field "properties" v i).
Proof.
  intros Hv [H1 H2]. split; [|unfold at_; by rewrite field_set].
  unfold own_part in *. rewrite !pick_set. cbn [String.eqb]. cbn -[pick]. lia.
Qed.

Lemma merging_items v i : height v ≤ B → merging_ok i → merging_ok (set_field "items" v i).
Proof.
  intros Hv [H1 H2]. split; [|unfold at_; by rewrite field_set].
  unfold own_part in *. rewrite !pick_set. cbn [String.eqb]. cbn -[pick]. lia.
Qed.

Lemma part_inner l : own_part l ≤ S B → inner (at_ l "properties") ≤ B.
Proof.
  unfold own_part. rewrite (pick_field inner). unfold at_. destruct (field "properties" l); cbn; lia.
Qed.

Lemma part_items l : own_part l ≤ S B → defined (at_ l "items") = true → height (at_ l "items") ≤ B.
Proof.
  unfold own_part. rewrite (pick_field height). unfold at_. destruct (field "items" l); cbn; [lia|done].
Qed.

Lemma own_members_inner v : is_object v = true → inner v ≤ B → properties_ok (own_members v).
Proof.
  intros Ho Hv. destruct v as [| | | | |l|l]; try done; [constructor| |by apply properties_inner].
  cbn [own_members]. unfold inner in Hv. cbn [heights snd] in Hv. apply max_of_le in Hv.
  apply Forall_forall. intros kv (i & u & -> & Hu)%elem_of_lookup_imap. apply list_elem_of_lookup_2 in Hu.
  exact (proj1 (Forall_forall _ _) Hv _ Hu).
Qed.

Lemma merge_props_settles t n e i : own_part e ≤ S B → merging_ok i →
  settles (λ f, merge_props (mergeAllOf f p) t n e i) merging_ok.
Proof.
  intros He Hi. unfold merge_props. destruct (is_object (at_ e "properties")) eqn:Eo; [|by apply settles_return].
  pose proof (own_members_inner _ Eo (part_inner e He)) as Hl.
  assert (inner (either (at_ i "properties") (Obj [])) ≤ B) as Ht.
  { unfold either. case_match; [apply part_inner, Hi|cbn; lia]. }
  set (there := either _ _) in *. destruct there as [| | | | | |l]; try (destruct (own_members _);
    [apply settles_return, merging_properties; done|apply settles_throws]).
  settle properties_ok; [apply merge_properties_settles; [done|by apply properties_inner]|].
  intros l' Hl'. apply settles_return, merging_properties; [by apply properties_inner|done].
Qed.

Lemma items_object_height v : height (items_object v) ≤ height v.
Proof. destruct v; try (cbn; lia); apply own_members_measures. Qed.

Lemma merge_items_settles t n e i : own_part e ≤ S B → merging_ok i →
  settles (λ f, merge_items (mergeAllOf f p) t n e i) merging_ok.
Proof.
  intros He Hi. unfold merge_items. destruct (defined (at_ e "items")) eqn:Ed; [|by apply settles_return].
  pose proof (part_items e He Ed) as Hy. pose proof (height_positive (at_ e "items")).
  assert (height (items_object (at_ i "items")) ≤ B) as Hx.
  { etransitivity; [apply items_object_height|]. destruct (defined (at_ i "items")) eqn:Ei; [apply part_items; [apply Hi|done]|].
    destruct (at_ i "items"); try done. cbn. lia. }
  destruct (truthy _); [by apply settles_return|]. cbn [andb negb].
  settle (λ r, height r ≤ B).
  - apply combine_settles; [done|by etransitivity; [apply items_object_height|]|done|done].
  - intros r Hr. by apply settles_return, merging_items.
Qed.

Lemma merging_rest e i : own_part e ≤ S B → truthy (at_ e "allOf") = false → merging_ok i → merging_ok (merge_rest e i).
Proof.
  intros He Ha Hi. unfold merge_rest.
  assert (merging_ok (set_field "x-circular-ref" (either (at_ i "x-circular-ref") (at_ e "x-circular-ref"))
    (set_field "writeOnly" (if defined (at_ i "writeOnly") then at_ i "writeOnly" else at_ e "writeOnly")
      (set_field "readOnly" (if defined (at_ i "readOnly") then at_ i "readOnly" else at_ e "readOnly")
        (set_field "description" (either (at_ i "description") (at_ e "description"))
          (set_field "title" (either (at_ i "title") (at_ e "title")) i)))))) as [H1 H2].
  { do 5 (apply merging_set; [vm_decide|]). done. }
  cbv zeta. set (j := set_field "x-circular-ref" _ _) in *. split.
  - unfold own_part in *. rewrite !pick_field in *. rewrite !field_spread.
    rewrite (field_without "properties"), (field_without "items"), (field_without_other "$ref") by done.
    destruct (field "$ref" e) as [v|]; cbn in *; lia.
  - unfold at_ in *. rewrite field_spread, field_without_other by done. by destruct (field "allOf" e).
Qed.

Lemma merge_entry_settles t x i : entry_ok x → merging_ok i →
  settles (λ f, merge_entry (mergeAllOf f p) t x i) merging_ok.
Proof.
  intros [Hx Hn] Hi. unfold merge_entry. set (e := own_members (e_schema x)).
  assert (own_part e ≤ S B ∧ truthy (at_ e "allOf") = false) as [He Ha].
  { unfold e. pose proof (own_members_measures (e_schema x)) as (Hh & _ & _). rewrite height_Obj in Hh. split; [lia|].
    destruct (value_is_Obj (e_schema x)) as [[l Hl]|Ho]; [rewrite Hl; by apply Hn|].
    unfold at_. by rewrite own_member_index. }
  assert (merging_ok (merge_enum e (merge_type e i))) as H1.
  { unfold merge_enum, merge_type. repeat case_match; repeat (apply merging_set; [vm_decide|]); done. }
  settle merging_ok; [by apply merge_props_settles|]. intros i1 Hi1.
  settle merging_ok; [by apply merge_items_settles|]. intros i2 Hi2.
  assert (merging_ok (overwrite "anyOf" e (overwrite "oneOf" e i2))) as H2.
  { unfold overwrite. repeat case_match; repeat (apply merging_set; [vm_decide|]); done. }
  settle merging_ok; [|intros i3 Hi3; by apply settles_return, merging_rest].
  unfold merge_required. case_match; [|by apply settles_return]. settle_option l. intros _. settle_option m. intros _.
  apply settles_return, merging_set; [vm_decide|done].
Qed.

Lemma merge_entries_settles t l i : Forall entry_ok l → merging_ok i →
  settles (λ f, merge_entries (mergeAllOf f p) t l i) merging_ok.
Proof.
  intros Hl. revert i. induction Hl as [|x l Hx _ IH]; intros i Hi; cbn [merge_entries]; [by apply settles_return|].
  settle merging_ok; [by apply merge_entry_settles|]. intros j Hj. by apply IH.
Qed.
End body.
(** ** The whole call *)

Lemma copied_measures v : inner (copied v) ≤ inner v ∧ height (copied v) ≤ height v.
Proof.
  unfold copied. destruct (is_object v) eqn:Eo; [|lia]. split; [|apply own_members_measures].
  apply properties_inner, own_members_inner; done.
Qed.

Lemma merge_start_ok B e t : own_part (own_members e) ≤ S B → merging_ok B (merge_start e t).
Proof.
  intros He. unfold merge_start. set (i := set_field "title" _ _).
  assert (merging_ok B i) as Hi.
  { apply merging_set; [vm_decide|]. split; [|unfold at_; by rewrite field_set].
    unfold own_part in *. rewrite !pick_set. cbn [String.eqb]. cbn -[pick]. done. }
  assert (merging_ok B (copy_at "properties" i)) as Hp.
  { unfold copy_at. case_match; [|done]. apply merging_properties; [|done].
    etransitivity; [apply copied_measures|apply part_inner, Hi]. }
  unfold copy_at at 1. case_match; [|done]. apply merging_items; [|done].
  etransitivity; [apply copied_measures|apply part_items; [apply Hp|done]].
Qed.

Lemma hoisted_cases before after t r : hoisted before after t = Some (Some r) → ∃ v, r = Obj [("oneOf", v)].
Proof.
  revert before. induction after as [|x after IH]; intros before; cbn; [done|].
  destruct (get x "oneOf") as [[]|]; cbn; try done; try apply IH. intros [= <-]. by eexists.
Qed.

Lemma hoist_cases e n e' : hoistOneOfs e n = Some e' → e' = e ∨ ∃ v, e' = Obj [("oneOf", v)].
Proof.
  unfold hoistOneOfs. destruct (get e "allOf") as [[]|]; cbn; try done; try (intros [= <-]; by left).
  destruct (hoisted [] l n) as [[r|]|] eqn:E; cbn; [|intros [= <-]; by left|done].
  intros [= <-]. right. by eapply hoisted_cases.
Qed.

Lemma allOf_object e l : get e "allOf" = Some (Arr l) →
  ∃ m, e = Obj m ∧ Forall (λ x, height x ≤ flat e ∧ depth_of x < depth_of e) l.
Proof.
  intros H. destruct (value_is_Obj e) as [[m ->]|Ho].
  - exists m. split; [done|]. cbn in H. destruct (field "allOf" m) as [v|] eqn:E; [|done]. cbn in H. injection H as ->.
    apply Forall_forall. intros x Hx. split.
    + cbn [flat]. rewrite (pick_field inner), E. cbn [fmap option_fmap option_map default id].
      pose proof (max_of_elem height l x Hx) as Hm. assert (inner (Arr l) = max_of height l) as -> by done. lia.
    + unfold depth_of. cbn [depths fst]. rewrite (pick_field (λ u, (depths u).2) "allOf"), E.
      cbn [fmap option_fmap option_map default id].
      assert ((depths (Arr l)).2 = max_of depth_of l) as -> by done.
      pose proof (max_of_elem depth_of l x Hx) as Hm. unfold depth_of in *. lia.
  - destruct e; try done; [by rewrite get_array in H|by destruct (Ho fields)].
Qed.

Lemma merge_settles_step p B D e t n : ranked p → flat e = S B → depth_of e = D →
  (∀ e t n, flat e < S B ∨ (flat e ≤ S B ∧ depth_of e < D) → settles (λ k, mergeAllOf k p e t n) (result_ok e)) →
  settles (λ k, mergeAllOf k p e t n) (result_ok e).
Proof.
  intros Hp HB HD Hm. apply settles_step. cbn [mergeAllOf]. unfold merge_body. settle_option c. intros Hc.
  destruct (truthy c) eqn:Ec; [apply settles_return; right; unfold circular; by rewrite Hc|].
  settle_option e'. intros [->|[v ->]]%hoist_cases.
  2:{ settle_option a. cbn. intros [= <-]. apply settles_return. left. split; [cbn; lia|]. by intros l [= <-]. }
  settle_option a. intros Ha. destruct (defined a) eqn:Ed; cbn [negb].
  2:{ apply settles_return. left. assert (no_allOf e) as Hn; [|by rewrite flat_falsy].
      intros l ->. cbn in Ha. injection Ha as <-. unfold at_. by destruct (default Undef (field "allOf" l)). }
  destruct a as [| | | | |l|]; try apply settles_throws. destruct (allOf_object e l Ha) as (m & -> & Hl).
  settle (λ r : list entry * list value, Forall (entry_ok B) r.1).
  { eapply collect_settles; [exact Hp|exact Hm|]. rewrite HB, HD in Hl. exact Hl. }
  intros [xs rs] Hxs. cbn [fst] in Hxs.
  settle (merging_ok B).
  { eapply merge_entries_settles; [exact Hm|by apply distinct_refs_ok|]. apply merging_set; [vm_decide|].
    apply merge_start_ok. cbn [own_members]. cbn [flat] in HB. lia. }
  intros i [H1 H2]. apply settles_return. left.
  assert (no_allOf (Obj i)) as Hn by (by intros j [= <-]). split; [|done].
  rewrite (flat_falsy _ Hn), HB. cbn [flat]. rewrite (pick_field inner "allOf"). unfold at_ in H2.
  destruct (field "allOf" i) as [u|]; cbn [fmap option_fmap option_map default id]; [|lia].
  rewrite (falsy_inner u H2). lia.
Qed.

Lemma merge_settles p e t n : ranked p → settles (λ k, mergeAllOf k p e t n) (result_ok e).
Proof.
  intros Hp. remember (flat e) as F eqn:EF. revert e t n EF. induction F as [F IHF] using lt_wf_ind. intros e t n ->.
  remember (depth_of e) as D eqn:ED. remember (flat e) as F eqn:EF. revert e t n ED EF.
  induction D as [D IHD] using lt_wf_ind. intros e t n -> ->.
  pose proof (flat_positive e). apply (merge_settles_step p (pred (flat e)) (depth_of e)); [done|lia|done|].
  intros e' t' n' He. destruct (decide (flat e' = flat e)) as [E|].
  - eapply IHD; [|done|by symmetry]. lia.
  - eapply IHF; [|done]. lia.
Qed.
End heights.

(** * What the merge has *)

Definition keys (l : schema) : list string := map fst l.
(** The names of the properties of a schema, and what it requires. *)
Definition property_names (i : schema) : list string :=
  if is_object (at_ i "properties") then keys (own_members (at_ i "properties")) else [].
Definition required_of (v : value) : list value := default [] (iterate_or_empty v).

Lemma keys_field k l : k ∈ keys l ↔ is_Some (field k l).
Proof.
  unfold keys. induction l as [|[k' v] l IH]; cbn.
  - rewrite elem_of_nil. split; [done|by intros [? ?]].
  - rewrite elem_of_cons, IH. destruct (String.eqb_spec k k') as [->|]; [split; [by eexists|by left]|naive_solver].
Qed.

Lemma keys_set k k' v l : k ∈ keys (set_field k' v l) ↔ k = k' ∨ k ∈ keys l.
Proof.
  rewrite !keys_field, field_set. destruct (String.eqb_spec k k') as [->|]; [|naive_solver].
  split; [by left|]. by eexists.
Qed.

Lemma keys_copied v : is_object (copied v) = is_object v ∧
  (is_object v = true → keys (own_members (copied v)) = keys (own_members v)).
Proof. unfold copied. by destruct v. Qed.

Section contents.
Context (merge : value → option string → list value → call value).

Lemma at_set k k' v i : at_ (set_field k v i) k' = if String.eqb k' k then v else at_ i k'.
Proof. unfold at_. rewrite field_set. by destruct (String.eqb k' k). Qed.

Lemma property_names_set k v i : k ≠ "properties" → property_names (set_field k v i) = property_names i.
Proof. intros H%String.eqb_neq. unfold property_names. rewrite at_set, String.eqb_sym, H. done. Qed.

Lemma merge_property_names t n c k v l l' :
  merge_property merge t n c k v l = Returned l' → ∀ x, x ∈ keys l' ↔ x = k ∨ x ∈ keys l.
Proof.
  unfold merge_property. set (o := bc n _). destruct (truthy (at_ l k)) eqn:Et; [|intros [= <-] x; apply keys_set].
  assert (k ∈ keys l) as Hk.
  { apply keys_field. unfold at_ in Et. destruct (field k l); [by eexists|done]. }
  destruct c; [intros [= <-] x; naive_solver|]. unfold mbind, call_mbind.
  destruct (merge _ _ _); [|done..]. intros [= <-] x. apply keys_set.
Qed.

Lemma merge_properties_names t n c m l l' :
  merge_properties merge t n c m l = Returned l' → ∀ x, x ∈ keys l' ↔ x ∈ keys l ∨ x ∈ keys m.
Proof.
  revert l. induction m as [|[k v] m IH]; intros l; cbn [merge_properties].
  - intros [= <-] x. cbn. rewrite elem_of_nil. naive_solver.
  - unfold mbind, call_mbind. destruct (merge_property _ _ _ _ _ _ _) as [l1| |] eqn:E; [|done..].
    intros H x. rewrite (IH _ H), (merge_property_names _ _ _ _ _ _ _ E).
    change (keys ((k, v) :: m)) with (k :: keys m). rewrite elem_of_cons. tauto.
Qed.

Lemma merge_props_names t n e i j : merge_props merge t n e i = Returned j →
  (∀ x, x ∈ property_names j ↔ x ∈ property_names i ∨ x ∈ property_names e) ∧
  at_ j "required" = at_ i "required".
Proof.
  unfold merge_props. unfold property_names at 3. destruct (is_object (at_ e "properties")).
  2:{ intros [= <-]. split; [|done]. intros x. rewrite elem_of_nil. tauto. }
  set (m := own_members (at_ e "properties")). set (there := either (at_ i "properties") (Obj [])).
  assert (∀ x, x ∈ (if is_object there then keys (own_members there) else []) ↔ x ∈ property_names i) as Ht.
  { intros x. unfold there, either, property_names. destruct (truthy _) eqn:E; [done|].
    cbn. destruct (at_ i "properties"); try done; cbn in *; by rewrite ?elem_of_nil. }
  assert (∀ l, merge_properties merge t n (truthy (at_ e "x-circular-ref")) m l ≫= (λ l, Returned (set_field "properties" (Obj l) i)) =
    Returned j → there = Obj l →
    (∀ x, x ∈ property_names j ↔ x ∈ property_names i ∨ x ∈ keys m) ∧ at_ j "required" = at_ i "required") as Hobj.
  { intros l. unfold mbind, call_mbind. destruct (merge_properties _ _ _ _ _ _) as [l1| |] eqn:E; [|done..].
    intros [= <-] Hl. split; [|by rewrite at_set]. intros x. unfold property_names at 1. rewrite at_set. cbn [String.eqb].
    rewrite <-(Ht x), Hl. cbn. by rewrite (merge_properties_names _ _ _ _ _ _ E). }
  destruct there as [| | | | | |l] eqn:Eth; try (destruct m; [|done]; intros [= <-];
    (split; [|by rewrite at_set]); intros y; unfold property_names at 1; rewrite at_set; cbn [String.eqb];
    rewrite <-(Ht y); cbn; rewrite ?elem_of_nil; tauto).
  intros H. by apply (Hobj l).
Qed.
Lemma merge_items_others t n e i j k : k ≠ "items" → merge_items merge t n e i = Returned j → at_ j k = at_ i k.
Proof.
  intros Hk%String.eqb_neq. unfold merge_items. case_match; [|by intros [= <-]]. unfold mbind, call_mbind.
  destruct (merge _ _ _) as [r| |]; [|done..]. intros [= <-]. by rewrite at_set, Hk.
Qed.

Lemma overwrite_others e i j k : String.eqb k j = false → at_ (overwrite j e i) k = at_ i k.
Proof. intros Hk. unfold overwrite. case_match; [|done]. by rewrite at_set, Hk. Qed.

Lemma merge_rest_others e i k : existsb (String.eqb k) merged_keys = true →
  existsb (String.eqb k) ["x-circular-ref"; "writeOnly"; "readOnly"; "description"; "title"] = false →
  at_ (merge_rest e i) k = at_ i k.
Proof.
  intros Hk Hn. cbn [existsb] in Hn. rewrite !orb_false_iff in Hn. destruct Hn as (H1 & H2 & H3 & H4 & H5 & _).
  unfold merge_rest. unfold at_ at 1. rewrite field_spread, field_without by done.
  by rewrite !field_set, H1, H2, H3, H4, H5.
Qed.

Lemma merge_required_list e i j : merge_required e i = Returned j →
  required_of (at_ j "required") = required_of (at_ i "required") ++ required_of (at_ e "required") ∧
  at_ j "properties" = at_ i "properties".
Proof.
  unfold merge_required, mbind, call_mbind. destruct (defined (at_ e "required")) eqn:Ed.
  - destruct (iterate_or_empty (at_ i "required")) as [l|] eqn:El; [|done].
    destruct (iterate_over (at_ e "required")) as [m|] eqn:Em; [|done]. cbn. intros [= <-].
    rewrite !at_set. split; [|done]. unfold required_of. rewrite El. cbn [String.eqb default].
    assert (iterate_or_empty (at_ e "required") = Some m) as ->; [|done].
    unfold iterate_or_empty. destruct (at_ e "required") as [| | | |s|l'|]; try done. cbn in *.
    destruct (String.eqb_spec s "") as [->|]; [by injection Em as <-|done].
  - intros [= <-]. split; [|done]. destruct (at_ e "required"); try done. by rewrite app_nil_r.
Qed.

(** What a member adds. *)
Lemma merge_entry_contents t x i j : merge_entry merge t x i = Returned j →
  let e := own_members (e_schema x) in
  (∀ y, y ∈ property_names j ↔ y ∈ property_names i ∨ y ∈ property_names e) ∧
  required_of (at_ j "required") = required_of (at_ i "required") ++ required_of (at_ e "required").
Proof.
  intros H e. unfold merge_entry in H. fold e in H. unfold mbind, call_mbind in H.
  set (i0 := merge_enum e (merge_type e i)) in *.
  assert (∀ k, existsb (String.eqb k) ["type"; "enum"] = false → at_ i0 k = at_ i k) as H0.
  { intros k Hk. cbn [existsb] in Hk. rewrite !orb_false_iff in Hk. destruct Hk as (Ht & He & _). unfold i0, merge_enum, merge_type.
    repeat (case_match; try done); by rewrite ?at_set, ?He, ?Ht. }
  destruct (merge_props _ _ _ _ _) as [i1| |] eqn:E1; [|done..]. cbn in H.
  destruct (merge_items _ _ _ _ _) as [i2| |] eqn:E2; [|done..]. cbn in H.
  destruct (merge_required _ _) as [i3| |] eqn:E3; [|done..]. cbn in H. injection H as <-.
  apply merge_props_names in E1 as [Hn Hr]. apply merge_required_list in E3 as [Hq Hp].
  pose proof (merge_items_others _ _ _ _ _ "properties" ltac:(done) E2) as Hp2.
  pose proof (merge_items_others _ _ _ _ _ "required" ltac:(done) E2) as Hr2.
  rewrite !overwrite_others in Hq, Hp by done. split.
  - intros y. assert (property_names (merge_rest e i3) = property_names i1) as ->.
    { unfold property_names. by rewrite merge_rest_others, Hp, Hp2. }
    rewrite Hn. unfold property_names at 1. by rewrite H0.
  - rewrite merge_rest_others, Hq, Hr2, Hr, H0 by done. done.
Qed.

Lemma merge_entries_contents t l i j : merge_entries merge t l i = Returned j →
  (∀ y, y ∈ property_names j ↔
     y ∈ property_names i ∨ ∃ x, x ∈ l ∧ y ∈ property_names (own_members (e_schema x))) ∧
  required_of (at_ j "required") =
    required_of (at_ i "required") ++
    List.concat (map (λ x, required_of (at_ (own_members (e_schema x)) "required")) l).
Proof.
  revert i. induction l as [|x l IH]; intros i; cbn [merge_entries].
  - intros [= <-]. split; [|by rewrite app_nil_r]. intros y. split; [by left|].
    intros [H|(x & H & _)]; [done|]. by apply elem_of_nil in H.
  - unfold mbind, call_mbind. destruct (merge_entry _ _ _ _) as [i1| |] eqn:E; [|done..]. intros [Hn Hr]%IH.
    apply merge_entry_contents in E as [Hn1 Hr1]. split; [|cbn; by rewrite Hr, Hr1, <-app_assoc].
    intros y. rewrite Hn, Hn1. setoid_rewrite elem_of_cons. naive_solver.
Qed.
Lemma merge_start_names m t : property_names (merge_start (Obj m) t) = property_names m.
Proof.
  assert (∀ i, property_names (copy_at "items" i) = property_names i) as Hi.
  { intros i. unfold copy_at. destruct (defined _); [by apply property_names_set|done]. }
  assert (∀ i, property_names (copy_at "properties" i) = property_names i) as Hp.
  { intros i. unfold copy_at. destruct (defined _); [|done]. unfold property_names. rewrite at_set, String.eqb_refl.
    destruct (keys_copied (at_ i "properties")) as [-> Hk]. destruct (is_object _); [by apply Hk|done]. }
  unfold merge_start. rewrite Hi, Hp. by rewrite !property_names_set.
Qed.

Lemma merge_start_others m t k :
  existsb (String.eqb k) ["allOf"; "title"; "x-parentRefs"; "properties"; "items"] = false →
  at_ (merge_start (Obj m) t) k = at_ m k.
Proof.
  cbn [existsb]. rewrite !orb_false_iff. intros (H1 & H2 & H3 & H4 & H5 & _).
  assert (∀ j i, String.eqb k j = false → at_ (copy_at j i) k = at_ i k) as Hc.
  { intros j i Hj. unfold copy_at. destruct (defined _); [by rewrite at_set, Hj|done]. }
  unfold merge_start. by rewrite !Hc, !at_set, H1, H2, H3 by done.
Qed.
End contents.

(** * Ranks from a table *)

(** A table of ranks, and one rank for all other references. *)
Fixpoint rank_of (B : nat) (table : list (string * nat)) (s : string) : nat :=
  match table with
  | [] => B
  | (k, n) :: table' => if String.eqb s k then n else rank_of B table' s
  end.
Section checking.
Context (w : string → nat) (B : nat).
Definition fits (n : nat) (v : value) : bool := (height w v <=? n) && (depth_of w v <=? n).
Fixpoint all_fit (v : value) : bool :=
  fits B v &&
  match v with
  | Arr l => forallb all_fit l
  | Obj l => forallb (λ kv, all_fit kv.2) l
  | _ => true
  end.

Lemma all_fit_here v : all_fit v = true → fits B v = true.
Proof. destruct v; cbn [all_fit]; rewrite ?andb_true_r; try done; by intros [? _]%andb_true_iff. Qed.

Lemma all_fit_child e u : u ∈ children e → all_fit e = true → all_fit u = true.
Proof.
  intros Hu. destruct e as [| | | | |l|l]; cbn [children] in Hu; try by apply elem_of_nil in Hu.
  - cbn [all_fit]. intros [_ H]%andb_true_iff. rewrite forallb_forall in H. by apply H, list_elem_of_In.
  - cbn [all_fit]. intros [_ H]%andb_true_iff. rewrite forallb_forall in H.
    apply list_elem_of_fmap in Hu as (kv & -> & Hkv). by apply H, list_elem_of_In.
Qed.
End checking.
(** Nothing in the document is too large, and each reference of the table outranks what it
    refers to. *)
Definition well_ranked (B : nat) (table : list (string * nat)) (p : parser) : bool :=
  let w := rank_of B table in
  (2 <=? B) && all_fit w B (spec p) &&
  forallb (λ kn, match byRef p kn.1 with Some i => fits w kn.2 i | None => true end) table.

Lemma rank_of_cases B table s : rank_of B table s = B ∨ ∃ kn, kn ∈ table ∧ kn.1 = s ∧ kn.2 = rank_of B table s.
Proof.
  induction table as [|[k n] table IH]; cbn; [by left|]. destruct (String.eqb_spec s k) as [->|].
  - right. exists (k, n). split; [apply list_elem_of_here|done].
  - destruct IH as [|(kn & Hkn & H)]; [by left|right]. exists kn. split; [by apply list_elem_of_further|done].
Qed.

Lemma well_ranked_sound B table p : well_ranked B table p = true → ranked (rank_of B table) p.
Proof.
  unfold well_ranked. intros [[HB Hd]%andb_true_iff Ht]%andb_true_iff s i Hi.
  assert (∀ n, fits (rank_of B table) n i = true →
    height (rank_of B table) i ≤ n ∧ depth_of (rank_of B table) i ≤ n) as Hf.
  { unfold fits. intros n [H1 H2]%andb_true_iff. split; by apply Nat.leb_le. }
  apply Hf. destruct (rank_of_cases B table s) as [->|([k n] & Hkn & <- & <-)].
  - apply all_fit_here. apply Nat.leb_le in HB.
    assert (∀ v, height (rank_of B table) v ≤ 2 → depth_of (rank_of B table) v ≤ 2 →
      (∀ u, u ∉ children v) → all_fit (rank_of B table) B v = true) as Hs.
    { intros v H1 H2 Hn. assert (fits (rank_of B table) B v = true) as E.
      { unfold fits. by rewrite !(proj2 (Nat.leb_le _ _)) by lia. }
      destruct v as [| | | | |[|x l]|[|x l]]; cbn [all_fit]; rewrite ?E; try done;
        exfalso; eapply Hn; apply list_elem_of_here. }
    eapply (byRef_closed (λ v, all_fit (rank_of B table) B v = true)); [| | | |exact Hd|exact Hi].
    + intros z. apply Hs; [cbn; lia..|intros u; apply not_elem_of_nil].
    + intros e u. apply all_fit_child.
    + apply Hs; [cbn; lia..|intros u; apply not_elem_of_nil].
    + apply Hs; [cbn; lia..|intros u; apply not_elem_of_nil].
  - rewrite forallb_forall in Ht. specialize (Ht (k, n) (proj1 (list_elem_of_In _ _) Hkn)). cbn in Ht.
    cbn [fst] in Hi. by rewrite Hi in Ht.
Qed.

(** * Properties *)

(** The merge of a schema ends on every document whose references can be ranked, that is,
    whose schemas do not contain themselves; and what it gives combines nothing any more,
    except for a schema marked as circular, which is left as it is. *)
Theorem allOf_ends (w : string → nat) (p : parser) (e : value) (t : option string) (n : list value) :
  ranked w p →
  ∃ N r, r ≠ TooDeep ∧ (∀ k, N ≤ k → mergeAllOf k p e t n = r) ∧
    ∀ s, r = Returned s → no_allOf s ∨ (s = e ∧ circular e = true).
Proof.
  intros Hp. destruct (merge_settles w p e t n Hp) as (N & r & Hr & HQ & Hk).
  exists N, r. split; [done|]. split; [done|]. intros s Hs. destruct (HQ s Hs) as [[_ Hn]|[-> Hc]]; [by left|by right].
Qed.

(** [C35] A schema that is not circular and whose members hoist no oneOf has, once merged, the
    properties of its own and of the members it combines, and no others, and requires what it and
    they require, in their order. It combines the members of allOf as they resolve, without the
    circular ones and without those whose reference stood in an earlier member, which are dropped
    with what stands next to it. *)
Theorem allOf_combines (k : nat) (p : parser) (m : schema) (t : option string) (n l : list value)
    (entries : list entry) (parents : list value) (s : value) :
  circular (Obj m) = false → at_ m "allOf" = Arr l → hoistOneOfs (Obj m) n = Some (Obj m) →
  collect (λ e n, of_resolution (deref k p e n true)) (mergeAllOf k p) n l = Returned (entries, parents) →
  mergeAllOf (S k) p (Obj m) t n = Returned s →
  ∃ i, s = Obj i ∧
    (∀ y, y ∈ property_names i ↔ y ∈ property_names m ∨
       ∃ x, x ∈ distinct_refs [] entries ∧ y ∈ property_names (own_members (e_schema x))) ∧
    required_of (at_ i "required") = required_of (at_ m "required") ++
      List.concat (map (λ x, required_of (at_ (own_members (e_schema x)) "required")) (distinct_refs [] entries)).
Proof.
  intros Hc Ha Hh He. cbn [mergeAllOf]. unfold merge_body. rewrite Hh. cbn [of_option].
  unfold circular in Hc. destruct (get (Obj m) "x-circular-ref") as [c|] eqn:Ec; [|done]. cbn [default id] in Hc.
  cbn [of_option]. unfold mbind at 1, call_mbind at 1. cbn [call_bind]. rewrite Hc.
  unfold mbind at 1, call_mbind at 1. cbn [call_bind].
  assert (get (Obj m) "allOf" = Some (Arr l)) as -> by (cbn; by rewrite <-Ha).
  cbn [of_option]. unfold mbind at 1, call_mbind at 1. cbn [call_bind defined is_undef negb].
  rewrite He. unfold mbind at 1, call_mbind at 1. cbn [call_bind].
  unfold mbind at 1, call_mbind at 1. destruct (merge_entries _ _ _ _) as [i| |] eqn:Ei; [|done..].
  cbn. intros [= <-]. exists i. split; [done|]. apply merge_entries_contents in Ei as [Hn Hr].
  split.
  - intros y. by rewrite Hn, property_names_set, merge_start_names.
  - by rewrite Hr, at_set, merge_start_others.
Qed.

(** * Examples *)

(** A schema that combines another, and one that combines it twice and adds to it. *)
Definition base : value := Obj [
  ("type", Str "object"); ("required", Arr [Str "id"]);
  ("properties", Obj [("id", Obj [("type", Str "string")])])].
Definition pet : value := Obj [
  ("allOf", Arr [
    ref_to "#/components/schemas/base";
    Obj [("required", Arr [Str "name"]);
         ("properties", Obj [("name", Obj [("type", Str "string")]); ("id", Obj [("format", Str "uuid")])])];
    ref_to "#/components/schemas/base"]);
  ("description", Str "A pet.")].
Definition pets_document : value := Obj [
  ("openapi", Str "3.0.0"); ("components", Obj [("schemas", Obj [("base", base); ("pet", pet)])])].
Definition pets : parser := Parser pets_document false [].

Example pets_ranked : well_ranked 100 [("#/components/schemas/base", 4)] pets = true.
Proof. vm_compute. reflexivity. Qed.

(** A schema that requires what it adds in the way of JSON Schema draft 3 cannot be combined:
    spreading [true] throws. *)
Example required_true_throws :
  mergeAllOf 8 pets (Obj [("allOf", Arr [Obj [("required", Bool true)]])]) None [] = Throws.
Proof. vm_compute. reflexivity. Qed.

(** Of two members that refer to the same schema the second is dropped, with the members next
    to its reference, which a document of version 3.1 may have. *)
Example second_reference_dropped :
  let note s := Obj [("$ref", Str "#/components/schemas/base"); ("required", Arr [Str s])] in
  match mergeAllOf 8 (Parser pets_document true []) (Obj [("allOf", Arr [note "a"; note "b"])]) None [] with
  | Returned s => get s "required" = Some (Arr [Str "id"; Str "a"])
  | _ => False
  end.
Proof. vm_compute. reflexivity. Qed.

(** A schema that contains itself through allOf has no rank: the reference on the stack is
    marked, and the merge ends all the same. *)
Example circular_is_left_out :
  let loop := Obj [("allOf", Arr [ref_to "#/components/schemas/loop"; Obj [("type", Str "object")]])] in
  let p := Parser (Obj [("components", Obj [("schemas", Obj [("loop", loop)])])]) false [] in
  match mergeAllOf 9 p loop None [Str "#/components/schemas/loop"] with
  | Returned s => get s "type" = Some (Str "object")
  | _ => False
  end.
Proof. vm_compute. reflexivity. Qed.

(** * Witnesses *)

Lemma allOf_ends_witness : ∃ N r, r ≠ TooDeep ∧
  ∀ k, N ≤ k → mergeAllOf k pets pet (Some "#/components/schemas/pet") [] = r.
Proof.
  destruct (allOf_ends (rank_of 100 [("#/components/schemas/base", 4)]) pets pet (Some "#/components/schemas/pet") [])
    as (N & r & Hr & Hk & _); [apply well_ranked_sound; vm_compute; reflexivity|].
  exists N, r. split; [exact Hr|exact Hk].
Defined.

Lemma allOf_combines_witness : ∃ i,
  mergeAllOf 8 pets pet (Some "#/components/schemas/pet") [] = Returned (Obj i) ∧
  "name" ∈ property_names i ∧ at_ i "required" = Arr [Str "id"; Str "name"].
Proof.
  destruct (collect (λ e n, of_resolution (deref 7 pets e n true)) (mergeAllOf 7 pets) []
    (match pet with Obj m => match at_ m "allOf" with Arr l => l | _ => [] end | _ => [] end))
    as [[xs ps]| |] eqn:E; [|vm_compute in E; discriminate E..].
  destruct (mergeAllOf 8 pets pet (Some "#/components/schemas/pet") []) as [s| |] eqn:Es;
    [|vm_compute in Es; discriminate Es..].
  destruct (allOf_combines 7 pets (own_members pet) (Some "#/components/schemas/pet") [] _ xs ps s
    eq_refl eq_refl eq_refl E Es) as (i & -> & Hn & _).
  exists i. split; [reflexivity|]. split.
  - apply Hn. right. vm_compute in E. injection E as <- <-.
    eexists. split; [vm_compute; right; left|vm_compute; left].
  - vm_compute in Es. injection Es as <-. vm_compute. reflexivity.
Defined.
