(* ===== verification/RedocConstraints.v ===== *)
(** The constraints of a schema as Redoc writes them (the functions [hs] and [ms] of the
    bundle), and what a numeric range that is shown means. *)
From S2P Require Import Prelude GoStrings.
From S2P Require Import Float64 JsNumber JsValue.
From Stdlib Require Import SpecFloat.
Local Open Scope Z_scope.

(** A member of a schema that is an object. *)
Definition at_key (e : value) (k : string) : value := default Undef (get e k).

(** [hs(e, t, n)]: a number of characters, items or properties. *)
Definition hs (e : string) (t n : value) : option string :=
  match t, n with
  | Undef, Undef => None
  | Undef, _ => Some ("<= " +:+ to_string n +:+ " " +:+ e)
  | _, Undef => Some (if strict_eq (int 1) t then "non-empty" else ">= " +:+ to_string t +:+ " " +:+ e)
  | _, _ => Some (if strict_eq t n then "= " +:+ to_string t +:+ " " +:+ e
                  else "[ " +:+ to_string t +:+ " .. " +:+ to_string n +:+ " ] " +:+ e)
  end.

(** [/^0\.0*1$/], and the number of decimal places. *)
Fixpoint zeros_then_one (s : string) : bool :=
  match s with
  | EmptyString => false
  | String a t => if Ascii.eqb a "0" then zeros_then_one t else String.eqb s "1"
  end.
Definition decimal_places (s : string) : option nat :=
  if has_prefix s "0." && zeros_then_one (drop_bytes 2 s) then Some (String.length (drop_bytes 2 s)) else None.
(** The text of [multipleOf]; null throws. *)
Definition multiple_of (v : value) : option (option string) :=
  match v with
  | Undef => Some None
  | Null => None
  | _ =>
      let t := to_string v in
      Some (Some (match decimal_places t with
                  | Some n => "decimal places <= " +:+ decimal (Z.of_nat n)
                  | None => "multiple of " +:+ t
                  end))
  end.

(** The range of a number: its ends, and whether they are excluded. *)
Record range : Type := Range { lowest : value; lowest_excluded : bool; highest : value; highest_excluded : bool }.
Definition is_number (v : value) : bool := match v with Num _ => true | _ => false end.
Definition or_else (v : value) (x : float64) : float64 := if is_nullish v then x else to_number v.
Definition bounds (e : value) : range :=
  let low := at_key e "exclusiveMinimum" in
  let high := at_key e "exclusiveMaximum" in
  {| lowest := match low with
               | Num x => Num (js_min x (or_else (at_key e "minimum") (S754_infinity false)))
               | _ => at_key e "minimum"
               end;
     lowest_excluded := is_number low || truthy low;
     highest := match high with
                | Num x => Num (js_max x (or_else (at_key e "maximum") (S754_infinity true)))
                | _ => at_key e "maximum"
                end;
     highest_excluded := is_number high || truthy high |}.
Definition range_text (e : value) : option string :=
  let r := bounds e in
  match lowest r, highest r with
  | Undef, Undef => None
  | Undef, h => Some ((if highest_excluded r then "< " else "<= ") +:+ to_string h)
  | l, Undef => Some ((if lowest_excluded r then "> " else ">= ") +:+ to_string l)
  | l, h => Some ((if lowest_excluded r then "( " else "[ ") +:+ to_string l +:+ " .. " +:+ to_string h +:+
                  (if highest_excluded r then " )" else " ]"))
  end.

(** [ms]. *)
Definition ms (e : value) : option (list string) :=
  m ← multiple_of (at_key e "multipleOf");
  Some (omap Datatypes.id [
    hs "characters" (at_key e "minLength") (at_key e "maxLength");
    hs "items" (at_key e "minItems") (at_key e "maxItems");
    hs "properties" (at_key e "minProperties") (at_key e "maxProperties");
    m;
    range_text e;
    if truthy (at_key e "uniqueItems") then Some "unique" else None]).

(** * What a range means *)

(** A number lies in the range that is shown. *)
Definition in_shown (r : range) (x : float64) : bool :=
  match lowest r with Num l => if lowest_excluded r then f64_lt l x else f64_le l x | _ => true end &&
  match highest r with Num h => if highest_excluded r then f64_lt x h else f64_le x h | _ => true end.

(** A number satisfies the schema: an exclusive bound is a bound of its own, or, as in
    older versions, a flag that excludes the bound next to it. *)
Definition satisfies (e : value) (x : float64) : bool :=
  match at_key e "minimum" with
  | Num l => match at_key e "exclusiveMinimum" with Bool true => f64_lt l x | _ => f64_le l x end
  | _ => true
  end &&
  match at_key e "exclusiveMinimum" with Num l => f64_lt l x | _ => true end &&
  match at_key e "maximum" with
  | Num h => match at_key e "exclusiveMaximum" with Bool true => f64_lt x h | _ => f64_le x h end
  | _ => true
  end &&
  match at_key e "exclusiveMaximum" with Num h => f64_lt x h | _ => true end.

(** A bound is a number or absent, an exclusive one may be a flag, and the two are not both
    numbers. *)
Definition one_bound (inclusive exclusive : value) : bool :=
  match inclusive, exclusive with
  | Undef, (Undef | Bool _) => true
  | Num x, (Undef | Bool _) => negb (f64_is_nan x)
  | Undef, Num y => negb (f64_is_nan y)
  | _, _ => false
  end.

Lemma js_min_infinity x : f64_is_nan x = false → js_min x (S754_infinity false) = x.
Proof. intros H. unfold js_min. rewrite H. cbn. by destruct x as [|[]| |]. Qed.

Lemma js_max_infinity x : f64_is_nan x = false → js_max x (S754_infinity true) = x.
Proof. intros H. unfold js_max. rewrite H. cbn. by destruct x as [|[]| |]. Qed.

(** The range that Redoc shows for a number holds exactly the numbers that satisfy the
    schema, as long as no two lower and no two upper bounds are given, in the notation of
    either version. *)
Theorem range_shown_exact (e : value) (x : float64) :
  one_bound (at_key e "minimum") (at_key e "exclusiveMinimum") = true →
  one_bound (at_key e "maximum") (at_key e "exclusiveMaximum") = true →
  in_shown (bounds e) x = satisfies e x.
Proof.
  unfold in_shown, bounds, satisfies. cbn [lowest lowest_excluded highest highest_excluded].
  destruct (at_key e "minimum"), (at_key e "exclusiveMinimum") as [| |[]| | | |]; try done;
    destruct (at_key e "maximum"), (at_key e "exclusiveMaximum") as [| |[]| | | |]; try done;
    cbn; intros H1%negb_true_iff || intros _; intros H2%negb_true_iff || intros _; 
    rewrite ?js_min_infinity, ?js_max_infinity, ?andb_true_r by done; done.
Qed.

(** With two lower bounds the weaker one is shown: the stricter exclusive bound itself lies
    in the range that is shown, and does not satisfy the schema. *)
Lemma exclusive_bound_lost (e : value) (a b : float64) :
  at_key e "minimum" = Num a → at_key e "exclusiveMinimum" = Num b →
  at_key e "maximum" = Undef → at_key e "exclusiveMaximum" = Undef → f64_lt a b = true →
  in_shown (bounds e) b = true ∧ satisfies e b = false.
Proof.
  intros Ha Hb Hc Hd Hab. unfold in_shown, bounds, satisfies. rewrite Ha, Hb, Hc, Hd.
  cbn [lowest lowest_excluded highest highest_excluded is_number truthy or_else is_nullish to_number orb andb].
  rewrite f64_lt_irrefl, andb_true_r, andb_false_r. split; [|done].
  unfold js_min. destruct (f64_is_nan b || f64_is_nan a) eqn:En; [|by rewrite Hab].
  by destruct a, b.
Qed.

(** * Examples *)

Definition demo_schema : value := Obj [("exclusiveMinimum", int 0); ("maximum", int 10); ("multipleOf", Num (dec 1 2));
  ("minLength", int 1); ("uniqueItems", Bool true)].

Example demo_constraints :
  ms demo_schema = Some ["non-empty"; "decimal places <= 2"; "( 0 .. 10 ]"; "unique"].
Proof. vm_compute. reflexivity. Qed.

Example weaker_bound_shown :
  range_text (Obj [("minimum", int 3); ("exclusiveMinimum", int 5)]) = Some "> 3".
Proof. vm_compute. reflexivity. Qed.

Lemma range_shown_exact_witness :
  in_shown (bounds demo_schema) (f64_of_int 10) = satisfies demo_schema (f64_of_int 10).
Proof. apply (range_shown_exact demo_schema (f64_of_int 10)); reflexivity. Defined.
