(* ===== verification/RedocMenuStore.v ===== *)
(** The menu of Redoc (the classes [rf], [Tu] and [vf] of the bundle): the items of the
    menu, which of them is active, which are expanded, and how clicks, scrolling and the
    address of the page change that. At every moment the expanded items are those above
    the active one. *)
From S2P Require Import Prelude GoStrings.
From S2P Require Import Float64 JsNumber JsValue RedocJson.
From stdpp Require Import gmap.
Local Open Scope Z_scope.

(** * Items *)

(** Items are numbered as they are created; the constructor receives the parent, so that
    a parent has the lower number. *)
Inductive item_type : Type := Group | Section_ | Tag | Schema | Operation.
Record menu_item : Type := Item {
  id : string;
  type : item_type;
  depth : Z;
  parent : option nat;
  items : list nat
}.
Definition is_group (t : item_type) : bool := match t with Group => true | _ => false end.
Definition is_operation (t : item_type) : bool := match t with Operation => true | _ => false end.

(** What changes: which items are active or expanded, the index of the active one, the side
    bar, and the identifier last handed to the history of the page. *)
Record menu : Type := Menu {
  active : gset nat;
  expanded : gset nat;
  activeItemIdx : Z;
  sideBarOpened : bool;
  requested : option string
}.

Section store.
Context (objects : list menu_item) (contentItems : list nat).

Definition type_of (k : nat) : item_type := default Section_ (type <$> objects !! k).
Definition parent_of (k : nat) : option nat := o ← objects !! k; parent o.
Definition items_of (k : nat) : list nat := default [] (items <$> objects !! k).
Definition id_of (k : nat) : option string := id <$> objects !! k.

(** [flatItems]: every item before those below it. *)
Fixpoint flatten (fuel : nat) (l : list nat) : list nat :=
  match fuel with
  | O => []
  | S fuel => List.concat (map (λ k, k :: flatten fuel (items_of k)) l)
  end.
Definition flatItems : list nat := flatten (S (length objects)) contentItems.

(** [a[z]] with an index that may be out of range. *)
Definition at_index (z : Z) : option nat := if z <? 0 then None else flatItems !! Z.to_nat z.
(** [absoluteIdx], assigned in order, so that the last assignment counts. *)
Definition absoluteIdx (k : nat) : Z :=
  fold_left (λ acc '(j, x), if (x =? k)%nat then Z.of_nat j else acc) (imap (λ j x, (j, x)) flatItems) (-1).
Definition getItemById (s : string) : option nat :=
  snd <$> list_find (λ k, id_of k = Some s) flatItems.

(** The constructors: a group starts expanded. *)
Definition initial : menu :=
  Menu ∅ (list_to_set (filter (λ k, is_group (type_of k) = true) (seq 0 (length objects)))) (-1) false None.

(** * Expanding and collapsing *)

(** [expand]: an operation only expands its parent. *)
Fixpoint expand (fuel : nat) (k : nat) (x : gset nat) : gset nat :=
  match fuel with
  | O => x
  | S fuel =>
      let x := match parent_of k with Some p => expand fuel p x | None => x end in
      if is_operation (type_of k) then x else {[k]} ∪ x
  end.
(** [collapse]: groups stay expanded. *)
Definition collapse (k : nat) (x : gset nat) : gset nat :=
  if is_group (type_of k) || is_operation (type_of k) then x else x ∖ {[k]}.
(** The loop of [deactivate], up through the parents. *)
Fixpoint collapse_up (fuel : nat) (k : nat) (x : gset nat) : gset nat :=
  match fuel with
  | O => x
  | S fuel =>
      let x := collapse k x in
      match parent_of k with Some p => collapse_up fuel p x | None => x end
  end.

(** * Activation *)

Definition activeItem (m : menu) : option nat := at_index (activeItemIdx m).

Definition deactivate (e : option nat) (m : menu) : menu :=
  match e with
  | None => m
  | Some k => Menu (active m ∖ {[k]}) (collapse_up (S k) k (expanded m)) (activeItemIdx m) (sideBarOpened m) (requested m)
  end.

(** [activate(e, t)]. *)
Definition activate (e : option nat) (t : bool) (m : menu) : menu :=
  if bool_decide ((k ← activeItem m; id_of k) = (k ← e; id_of k)) then m
  else if match e with Some k => is_group (type_of k) | None => false end then m
  else
    let m := deactivate (activeItem m) m in
    match e with
    | None => Menu (active m) (expanded m) (-1) (sideBarOpened m) (Some "")
    | Some k =>
        if default 0 (depth <$> objects !! k) <=? 0 then m
        else Menu ({[k]} ∪ active m) (expand (S k) k (expanded m)) (absoluteIdx k) (sideBarOpened m)
               (if t then encodeURI <$> id_of k else requested m)
    end.

Definition closeSidebar (m : menu) : menu :=
  Menu (active m) (expanded m) (activeItemIdx m) false (requested m).
Definition toggleSidebar (m : menu) : menu :=
  Menu (active m) (expanded m) (activeItemIdx m) (negb (sideBarOpened m)) (requested m).

Definition activateAndScroll (e : option nat) (t : bool) (m : menu) : menu :=
  let r := match e with
           | Some k => match s ← id_of k; getItemById s with Some k' => Some k' | None => e end
           | None => None
           end in
  let m := activate r t m in
  match r with
  | Some k => match items_of k with [] => closeSidebar m | _ => m end
  | None => closeSidebar m
  end.

(** [updateOnHistory]. *)
Definition vs : string := "section/Authentication/".
Definition updateOnHistory (e : string) (m : menu) : menu :=
  if String.eqb e "" then m
  else
    match getItemById e with
    | Some k => activateAndScroll (Some k) false m
    | None =>
        if has_prefix e vs then
          activateAndScroll (snd <$> list_find (λ k, has_prefix vs (default e (id_of k)) = true) flatItems)
            false m
        else m
    end.

(** * Scrolling *)

(** The page tells which elements are below or above its top; an item without an element
    is neither. *)
Section page.
Context (isElementBellow isElementAbove : nat → bool).

(** [getElementAtOrFirstChild], [getElementAt]. *)
Definition below_at (z : Z) : bool :=
  match at_index z with
  | Some k =>
      if is_group (type_of k) then
        match items_of k with j :: _ => isElementBellow j | [] => false end
      else isElementBellow k
  | None => false
  end.
Definition above_at (z : Z) : bool :=
  match at_index z with Some k => isElementAbove k | None => false end.

(** The loop of [updateOnScroll] from index [n], downwards or upwards. *)
Fixpoint scroll_index (fuel : nat) (down : bool) (n : Z) : option Z :=
  match fuel with
  | O => None
  | S fuel =>
      if (negb (n =? -1) || down) && negb ((Z.of_nat (length flatItems) - 1 <=? n) && down) then
        if down then if below_at (n + 1) then Some n else scroll_index fuel down (n + 1)
        else if above_at n then Some n else scroll_index fuel down (n - 1)
      else Some n
  end.
Definition updateOnScroll (down : bool) (m : menu) : option menu :=
  n ← scroll_index (S (length flatItems)) down (activeItemIdx m);
  Some (activate (at_index n) true m).
End page.

(** * Clicks *)

(** The menu component: a second click on the active item folds it, if the option is set. *)
Definition click (menuToggle : bool) (k : nat) (m : menu) : menu :=
  if bool_decide (k ∈ active m) && menuToggle then
    Menu (active m)
      (if bool_decide (k ∈ expanded m) then collapse k (expanded m) else expand (S k) k (expanded m))
      (activeItemIdx m) (sideBarOpened m) (requested m)
  else activateAndScroll (Some k) true m.

(** What happens to the menu. *)
Inductive step : menu → menu → Prop :=
  | step_click b k m : k ∈ flatItems → step m (click b k m)
  | step_activate e t m : (∀ k, e = Some k → k ∈ flatItems) → step m (activateAndScroll e t m)
  | step_history e m : step m (updateOnHistory e m)
  | step_scroll below above down m m' : updateOnScroll below above down m = Some m' → step m m'
  | step_toggle m : step m (toggleSidebar m)
  | step_close m : step m (closeSidebar m).
Inductive reachable : menu → Prop :=
  | reachable_initial : reachable initial
  | reachable_step m m' : reachable m → step m m' → reachable m'.
End store.
