(* ===== verification/RedocMenuLaws.v ===== *)
(** Laws of the menu: the expanded items lead to the active one, whatever happened before,
    and scrolling ends. *)
From S2P Require Import Prelude GoStrings.
From S2P Require Import Float64 JsNumber JsValue RedocJson RedocMenuStore.
From stdpp Require Import gmap.
Local Open Scope Z_scope.

Section laws.
Context (objects : list menu_item) (contentItems : list nat).
Local Notation type_of := (type_of objects).
Local Notation parent_of := (parent_of objects).
Local Notation flatItems := (flatItems objects contentItems).
Local Notation at_index := (at_index objects contentItems).
Local Notation activeItem := (activeItem objects contentItems).
Local Notation absoluteIdx := (absoluteIdx objects contentItems).
Local Notation activate := (activate objects contentItems).
Local Notation expand := (expand objects).
Local Notation collapse_up := (collapse_up objects).

(** What the construction of the menu guarantees: no item is listed twice, every item but a
    group has a positive depth, and parents are created first. *)
Class WellBuilt : Prop := {
  flat_once : NoDup flatItems;
  depth_positive k : k ∈ flatItems → is_group (type_of k) = false → 0 < default 0 (depth <$> objects !! k);
  parent_first k j : parent_of k = Some j → (j < k)%nat
}.

(** An item and those above it. *)
Fixpoint path_up (fuel : nat) (k : nat) : list nat :=
  match fuel with
  | O => []
  | S fuel => k :: match parent_of k with Some p => path_up fuel p | None => [] end
  end.
Definition path (k : nat) : list nat := path_up (S k) k.

Definition foldable (k : nat) : bool := negb (is_group (type_of k) || is_operation (type_of k)).

(** The path of an item does not stop below the root. *)
Lemma path_up_enough `{WellBuilt} fuel fuel' k : (k < fuel)%nat → (k < fuel')%nat → path_up fuel k = path_up fuel' k.
Proof.
  revert fuel' k. induction fuel as [|fuel IH]; intros [|fuel'] k Hk Hk'; [lia..|]. cbn.
  destruct (parent_of k) as [j|] eqn:Ej; [|done]. pose proof (parent_first k j Ej). f_equal. apply IH; lia.
Qed.

Lemma path_parent `{WellBuilt} k j : parent_of k = Some j → path k = k :: path j.
Proof.
  intros Hj. unfold path at 1. cbn [path_up]. rewrite Hj. f_equal.
  pose proof (parent_first k j Hj). apply path_up_enough; lia.
Qed.

Lemma elem_expand fuel k x i : i ∈ expand fuel k x ↔ i ∈ x ∨ (i ∈ path_up fuel k ∧ is_operation (type_of i) = false).
Proof.
  revert k. induction fuel as [|fuel IH]; intros k; cbn; [set_solver|].
  destruct (parent_of k) as [j|]; (destruct (is_operation (type_of k)) eqn:Eo; [|rewrite elem_of_union, elem_of_singleton]);
    try rewrite IH; rewrite elem_of_cons, ?elem_of_nil; clear IH; intuition (subst; congruence).
Qed.

Lemma elem_collapse k x i : i ∈ collapse objects k x ↔ i ∈ x ∧ ¬ (i = k ∧ foldable k = true).
Proof.
  unfold collapse, foldable. destruct (_ || _); cbn; [naive_solver|]. rewrite elem_of_difference, elem_of_singleton. naive_solver.
Qed.

Lemma elem_collapse_up fuel k x i :
  i ∈ collapse_up fuel k x ↔ i ∈ x ∧ ¬ (i ∈ path_up fuel k ∧ foldable i = true).
Proof.
  revert k x. induction fuel as [|fuel IH]; intros k x; cbn; [set_solver|].
  destruct (parent_of k) as [j|]; [rewrite IH|]; rewrite elem_collapse, elem_of_cons, ?elem_of_nil; clear IH; intuition (subst; congruence).
Qed.

Lemma last_index_absent k l off acc : k ∉ l →
  fold_left (λ acc '(j, x), if (x =? k)%nat then Z.of_nat j else acc) (imap (λ j x, ((off + j)%nat, x)) l) acc = acc.
Proof.
  revert off acc. induction l as [|y l IH]; intros off acc Hk; [done|]. apply not_elem_of_cons in Hk as [Hy Hk].
  cbn. rewrite (proj2 (Nat.eqb_neq _ _)) by done.
  erewrite imap_ext; [by apply (IH (S off))|]. intros. cbn. f_equal. lia.
Qed.

Lemma last_index k l n off acc : NoDup l → l !! n = Some k →
  fold_left (λ acc '(j, x), if (x =? k)%nat then Z.of_nat j else acc) (imap (λ j x, ((off + j)%nat, x)) l) acc =
  Z.of_nat (off + n).
Proof.
  revert n off acc. induction l as [|y l IH]; intros n off acc Hd Hn; [done|]. apply NoDup_cons in Hd as [Hy Hd].
  cbn. rewrite (imap_ext _ (λ j x, ((S off + j)%nat, x))) by (intros; cbn; f_equal; lia).
  destruct n as [|n]; cbn in Hn; simplify_eq.
  - by rewrite Nat.eqb_refl, last_index_absent by done.
  - rewrite (IH n) by done. f_equal. lia.
Qed.

Lemma at_index_absolute `{WellBuilt} k : k ∈ flatItems → at_index (absoluteIdx k) = Some k.
Proof.
  intros [n Hn]%list_elem_of_lookup. unfold RedocMenuStore.absoluteIdx.
  rewrite (last_index k _ n 0 (-1)) by (done || apply flat_once). cbn. unfold RedocMenuStore.at_index.
  destruct (Z.ltb_spec (Z.of_nat n) 0); [lia|]. by rewrite Nat2Z.id.
Qed.

(** * The invariant *)

Record menu_ok (m : menu) : Prop := {
  (** At most one item is active, the one at the index. *)
  ok_active i : i ∈ active m ↔ activeItem m = Some i;
  ok_listed i : activeItem m = Some i → is_group (type_of i) = false;
  (** What is expanded is a group or on the path of the active item. *)
  ok_expanded i : i ∈ expanded m → is_operation (type_of i) = false ∧
    (is_group (type_of i) = true ∨ ∃ a, activeItem m = Some a ∧ i ∈ path a);
  (** What is above the active item is expanded. *)
  ok_open a i : activeItem m = Some a → i ∈ path a → i ≠ a → is_operation (type_of i) = false → i ∈ expanded m;
  ok_index : -1 ≤ activeItemIdx m < Z.of_nat (length flatItems)
}.

Lemma at_index_range z k : at_index z = Some k → -1 ≤ z < Z.of_nat (length flatItems).
Proof.
  unfold RedocMenuStore.at_index. destruct (Z.ltb_spec z 0); [done|]. intros Hk%lookup_lt_Some. lia.
Qed.

Lemma at_index_listed z k : at_index z = Some k → k ∈ flatItems.
Proof. unfold RedocMenuStore.at_index. case_match; [done|]. apply list_elem_of_lookup_2. Qed.

Lemma initial_ok : menu_ok (initial objects).
Proof.
  split; cbn; try done; try set_solver.
  - intros i Hi. apply elem_of_list_to_set, list_elem_of_filter in Hi as [Hg _].
    split; [|by left]. by destruct (type_of i).
  - lia.
Qed.

(** Deactivating the active item leaves none active, and only groups expanded. *)
Lemma deactivate_clears m : menu_ok m →
  (∀ i, i ∉ active (deactivate objects (activeItem m) m)) ∧
  (∀ i, i ∈ expanded (deactivate objects (activeItem m) m) → is_group (type_of i) = true).
Proof.
  intros H. destruct (activeItem m) as [a|] eqn:Ea; cbn [deactivate active expanded].
  - split; intros i Hi.
    + apply elem_of_difference in Hi as [Hi Hn]. apply (ok_active m H) in Hi. set_solver.
    + apply elem_collapse_up in Hi as [Hi Hn]. destruct (ok_expanded m H i Hi) as [Ho [Hg|(a' & Ha & Hp)]]; [done|].
      rewrite Ea in Ha. injection Ha as <-. destruct (is_group (type_of i)) eqn:Eg; [done|].
      destruct Hn. split; [done|]. unfold foldable. by rewrite Eg, Ho.
  - split; intros i Hi.
    + apply (ok_active m H) in Hi. congruence.
    + destruct (ok_expanded m H i Hi) as [_ [Hg|(a & Ha & _)]]; [done|congruence].
Qed.

Lemma group_not_operation t : is_group t = true → is_operation t = false.
Proof. by destruct t. Qed.

Lemma activate_ok `{WellBuilt} e t m : (∀ k, e = Some k → k ∈ flatItems) → menu_ok m → menu_ok (activate e t m).
Proof.
  intros He Hm. unfold RedocMenuStore.activate. case_bool_decide; [done|].
  destruct (match e with Some k => _ | None => _ end) eqn:Eg; [done|].
  destruct (deactivate_clears m Hm) as [Ha Hx]. set (m1 := deactivate objects (activeItem m) m) in *.
  destruct e as [k|].
  - specialize (He k eq_refl). pose proof (depth_positive k He Eg) as Hd.
    destruct (Z.leb_spec (default 0 (depth <$> objects !! k)) 0); [lia|].
    pose proof (at_index_absolute k He) as Hk.
    split; cbn [active expanded activeItemIdx]; change (activeItem _) with (at_index (absoluteIdx k)).
    + intros i. rewrite Hk. set_solver.
    + intros i [= <-]%(eq_trans (eq_sym Hk)). done.
    + intros i [Hi|[Hi Ho]]%elem_expand; [by split; [apply group_not_operation, Hx|left; apply Hx]|].
      split; [done|]. right. exists k. split; [exact Hk|done].
    + intros a i [= <-]%(eq_trans (eq_sym Hk)) Hp _ Ho. apply elem_expand. by right.
    + by eapply at_index_range.
  - split; cbn [active expanded activeItemIdx]; change (activeItem _) with (@None nat); try done.
    + intros i. split; [intros Hi; by destruct (Ha i)|done].
    + intros i Hi. split; [apply group_not_operation|left]; by apply Hx.
    + lia.
Qed.

Lemma find_listed (P : nat → Prop) `{∀ k, Decision (P k)} k :
  snd <$> list_find P flatItems = Some k → k ∈ flatItems.
Proof.
  intros Hk. destruct (list_find P flatItems) as [[n j]|] eqn:E; [|done]. cbn in Hk. injection Hk as <-.
  apply list_find_Some in E as [E _]. by eapply list_elem_of_lookup_2.
Qed.

(** The side bar and the history do not matter to the invariant. *)
Lemma ok_ext m m' : menu_ok m → active m' = active m → expanded m' = expanded m → activeItemIdx m' = activeItemIdx m →
  menu_ok m'.
Proof.
  intros [] Ha Hx Hi. split; rewrite ?Ha, ?Hx, ?Hi; unfold RedocMenuStore.activeItem in *; rewrite ?Hi; done.
Qed.

Lemma activateAndScroll_ok `{WellBuilt} e t m : (∀ k, e = Some k → k ∈ flatItems) → menu_ok m →
  menu_ok (activateAndScroll objects contentItems e t m).
Proof.
  intros He Hm. unfold activateAndScroll. set (r := match e with Some k => _ | None => _ end).
  assert (∀ k, r = Some k → k ∈ flatItems) as Hr.
  { intros k. subst r. destruct e as [j|]; [|done]. destruct (s ← id_of objects j; _) as [k'|] eqn:Ek; [|apply He].
    intros [= <-]. destruct (id_of objects j) as [s|]; [|done]. by apply find_listed in Ek. }
  pose proof (activate_ok r t m Hr Hm) as H'.
  destruct r as [k|]; [|by eapply ok_ext]. destruct (items_of objects k); [by eapply ok_ext|done].
Qed.

Lemma click_ok `{WellBuilt} b k m : k ∈ flatItems → menu_ok m → menu_ok (click objects contentItems b k m).
Proof.
  intros Hk Hm. unfold click. case_bool_decide as Ha; [|apply activateAndScroll_ok; [by intros ? [= <-]|done]].
  destruct b; cbn [andb]; [|apply activateAndScroll_ok; [by intros ? [= <-]|done]].
  apply (ok_active m Hm) in Ha. destruct Hm as [H1 H2 H3 H4 H5].
  split; cbn [active expanded activeItemIdx]; unfold RedocMenuStore.activeItem in *; cbn [activeItemIdx]; try done.
  - intros i. case_bool_decide; [intros [Hi _]%elem_collapse; by apply H3|].
    intros [Hi|[Hi Ho]]%elem_expand; [by apply H3|]. split; [done|]. right. exists k. by split.
  - intros a i Hai Hp Hn Ho. case_bool_decide.
    + apply elem_collapse. split; [by apply (H4 a)|]. intros [-> _]. congruence.
    + apply elem_expand. left. by apply (H4 a).
Qed.

Lemma step_ok `{WellBuilt} m m' : step objects contentItems m m' → menu_ok m → menu_ok m'.
Proof.
  intros [b k m1 Hk|e t m1 He|e m1|below above down m1 m2 Hs|m1|m1] Hm.
  - by apply click_ok.
  - by apply activateAndScroll_ok.
  - unfold updateOnHistory. case_match; [done|]. destruct (getItemById _ _ e) as [k|] eqn:Ek.
    + apply find_listed in Ek. apply activateAndScroll_ok; [by intros ? [= <-]|done].
    + case_match; [|done]. apply activateAndScroll_ok; [by intros k Hk%find_listed|done].
  - unfold updateOnScroll in Hs. destruct (scroll_index _ _ _ _ _ _ _) as [n|]; [|done]. cbn in Hs. injection Hs as <-.
    apply activate_ok; [intros k; apply at_index_listed|done].
  - by eapply ok_ext.
  - by eapply ok_ext.
Qed.

Lemma reachable_ok `{WellBuilt} m : reachable objects contentItems m → menu_ok m.
Proof. induction 1 as [|m m' _ IH Hs]; [apply initial_ok|by eapply step_ok]. Qed.

(** However the menu is used, by clicks, by scrolling or through the address of the page,
    at most one item is active and it is the one at the index; the expanded items are
    groups or lie on the way to it; and all items above it are expanded. *)
Theorem one_open_path `{WellBuilt} m : reachable objects contentItems m → menu_ok m.
Proof. apply reachable_ok. Qed.

(** * Scrolling ends *)

Section page.
Context (below above : nat → bool).
Local Notation len := (Z.of_nat (length flatItems)).

Lemma scroll_down fuel n : -1 ≤ n < len → (Z.to_nat (len - 1 - n) < fuel)%nat →
  ∃ n', scroll_index objects contentItems below above fuel true n = Some n' ∧ n ≤ n' < len ∧
    (∀ z, n < z ≤ n' → below_at objects contentItems below z = false) ∧
    (n' = len - 1 ∨ below_at objects contentItems below (n' + 1) = true).
Proof.
  revert n. induction fuel as [|fuel IH]; intros n Hn Hf; [lia|]. cbn [scroll_index].
  rewrite orb_true_r, andb_true_r. cbn [andb]. destruct (Z.leb_spec (len - 1) n); cbn [negb].
  { exists n. repeat split; [lia..|]. left. lia. }
  destruct (below_at _ _ _ (n + 1)) eqn:Eb; [exists n; repeat split; [lia..|by right]|].
  destruct (IH (n + 1)) as (n' & -> & ? & Hz & He); [lia..|]. exists n'. repeat split; [lia..| |done].
  intros z Hr. destruct (decide (z = n + 1)) as [->|]; [done|]. apply Hz. lia.
Qed.

Lemma scroll_up fuel n : -1 ≤ n → (Z.to_nat (n + 1) < fuel)%nat →
  ∃ n', scroll_index objects contentItems below above fuel false n = Some n' ∧ -1 ≤ n' ≤ n ∧
    (∀ z, n' < z ≤ n → above_at objects contentItems above z = false) ∧
    (n' = -1 ∨ above_at objects contentItems above n' = true).
Proof.
  revert n. induction fuel as [|fuel IH]; intros n Hn Hf; [lia|]. cbn [scroll_index].
  rewrite orb_false_r, andb_false_r, andb_true_r. destruct (Z.eqb_spec n (-1)) as [->|]; cbn [negb].
  { exists (-1). repeat split; [lia..|by left]. }
  destruct (above_at _ _ _ n) eqn:Eb; [exists n; repeat split; [lia..|by right]|].
  destruct (IH (n - 1)) as (n' & -> & ? & Hz & He); [lia..|]. exists n'. repeat split; [lia..| |done].
  intros z Hr. destruct (decide (z = n)) as [->|]; [done|]. apply Hz. lia.
Qed.

(** The handler of scrolling always ends, and activates the right item: downwards, the last
    one before the first item whose element is below the top of the page; upwards, the
    nearest one above it, or none. *)
Theorem scroll_ends `{WellBuilt} (down : bool) m : reachable objects contentItems m →
  ∃ n, updateOnScroll objects contentItems below above down m = Some (activate (at_index n) true m) ∧
    if down then
      activeItemIdx m ≤ n < len ∧
      (∀ z, activeItemIdx m < z ≤ n → below_at objects contentItems below z = false) ∧
      (n = len - 1 ∨ below_at objects contentItems below (n + 1) = true)
    else
      -1 ≤ n ≤ activeItemIdx m ∧
      (∀ z, n < z ≤ activeItemIdx m → above_at objects contentItems above z = false) ∧
      (n = -1 ∨ above_at objects contentItems above n = true).
Proof.
  intros Hm. pose proof (ok_index m (reachable_ok m Hm)) as Hi. unfold updateOnScroll. destruct down.
  - destruct (scroll_down (S (length flatItems)) (activeItemIdx m)) as (n & -> & ?); [lia..|]. by exists n.
  - destruct (scroll_up (S (length flatItems)) (activeItemIdx m)) as (n & -> & ?); [lia..|]. by exists n.
Qed.
End page.
End laws.

(** * A menu *)

(** A group with a tag and its two operations, and a section. *)
Definition demo_items : list menu_item := [
  Item "group/Animals" Group 0 None [1%nat];
  Item "tag/pet" Tag 1 (Some 0%nat) [2%nat; 3%nat];
  Item "tag/pet/operation/addPet" Operation 2 (Some 1%nat) [];
  Item "tag/pet/operation/getPet" Operation 2 (Some 1%nat) [];
  Item "section/About" Section_ 1 None []].
Definition demo_roots : list nat := [0%nat; 4%nat].

#[export] Instance demo_built : WellBuilt demo_items demo_roots.
Proof.
  split.
  - vm_decide.
  - intros k Hk. change (flatItems demo_items demo_roots) with [0%nat; 1%nat; 2%nat; 3%nat; 4%nat] in Hk.
    rewrite !elem_of_cons, elem_of_nil in Hk.
    destruct Hk as [->|[->|[->|[->|[->|[]]]]]]; vm_compute; done.
  - intros k j. do 5 (destruct k as [|k]; [vm_compute; intros [= <-]; lia|]). done.
Qed.

Definition demo_menu : menu := click demo_items demo_roots true 2 (initial demo_items).

Example demo_opens : expanded demo_menu = {[0%nat; 1%nat]} ∧ activeItemIdx demo_menu = 2 ∧
  requested demo_menu = Some "tag/pet/operation/addPet".
Proof. vm_compute. done. Qed.

Example demo_moves_on : expanded (click demo_items demo_roots true 4 demo_menu) = {[0%nat; 4%nat]}.
Proof. vm_compute. done. Qed.

Lemma demo_reachable : reachable demo_items demo_roots demo_menu.
Proof. eapply reachable_step; [apply reachable_initial|]. apply step_click. vm_decide. Qed.

Lemma one_open_path_witness : menu_ok demo_items demo_roots demo_menu ∧ 2%nat ∈ active demo_menu.
Proof.
  split; [|vm_decide]. apply (one_open_path demo_items demo_roots demo_menu). exact demo_reachable.
Defined.

(** The page is scrolled down until the last operation is at its top. *)
Lemma scroll_ends_witness :
  ∃ n, updateOnScroll demo_items demo_roots (λ k, (k =? 4)%nat) (λ _, false) true demo_menu =
    Some (activate demo_items demo_roots (at_index demo_items demo_roots n) true demo_menu) ∧ n = 3.
Proof.
  destruct (scroll_ends demo_items demo_roots (λ k, (k =? 4)%nat) (λ _, false) true demo_menu demo_reachable)
    as (n & H & Hr & Hz & He).
  exists n. split; [exact H|].
  change (activeItemIdx demo_menu) with 2 in Hr, Hz.
  change (Z.of_nat (length (flatItems demo_items demo_roots))) with 5 in Hr.
  assert (n = 2 ∨ n = 3 ∨ n = 4) as [->|[->| ->]] by lia.
  - exfalso. destruct He as [He|He]; vm_compute in He; discriminate He.
  - reflexivity.
  - exfalso. assert (2 < 4 ≤ 4) as Hb by lia. specialize (Hz 4 Hb). vm_compute in Hz. discriminate Hz.
Defined.
