(* ===== verification/RedocStructure.v ===== *)
(** How the menu is made from a document (the classes [hf] and [Ml] of the bundle, and the
    constructors of [rf] and [Tu]): the operations of the document grouped by their tags,
    the headings of the Markdown texts, and the items of the menu, which are objects that
    refer to each other. *)
From S2P Require Import Prelude GoStrings.
From S2P Require Import Float64 JsNumber JsValue RedocJson JsArray JsonPointer RedocParser RedocAllOf RedocMenuStore.
Local Open Scope Z_scope.

(** * Slugs *)

(** White space of [\s] and [trim]: one character in UTF-8. *)
Definition is_space_char (c : string) : bool :=
  match c with
  | String a "" => is_js_space a
  | _ => existsb (String.eqb c) (map of_codes
      ([[194; 160]; [225; 154; 128]; [226; 128; 168]; [226; 128; 169]; [226; 128; 175];
        [226; 129; 159]; [227; 128; 128]; [239; 187; 191]] ++
       map (λ z, [226; 128; z]) (seqZ 128 11)))
  end.
(** [s.replace(/p+/g, r)] on characters. *)
Fixpoint collapse_runs (p : string → bool) (r : string) (inside : bool) (l : list string) : list string :=
  match l with
  | [] => []
  | c :: l' =>
      if p c then (if inside then [] else [r]) ++ collapse_runs p r true l'
      else c :: collapse_runs p r false l'
  end.
Fixpoint skip_chars (p : string → bool) (l : list string) : list string :=
  match l with [] => [] | c :: l' => if p c then skip_chars p l' else l end.
Definition trim_chars (p : string → bool) (l : list string) : list string :=
  rev (skip_chars p (rev (skip_chars p l))).

(** Characters that a slug keeps. *)
Definition slug_char (c : string) : bool :=
  is_space_char c ||
  match c with
  | String a "" => is_digit a || is_upper a || is_lower a || contains_byte a "$*_+~.()'!-:@" || (code a =? 34)
  | _ => false
  end.

(** * Builders

    Computations that add objects. *)
Definition builder (A : Type) : Type := list menu_item → call (A * list menu_item).
#[export] Instance builder_ret : MRet builder := λ A a objects, Returned (a, objects).
#[export] Instance builder_bind : MBind builder := λ A B f m objects,
  call_bind (λ '(a, objects), f a objects) (m objects).
Definition lift {A} (c : call A) : builder A := λ objects, call_bind (λ a, Returned (a, objects)) c.
Fixpoint mapM_ {A B} (f : A → builder B) (l : list A) : builder (list B) :=
  match l with
  | [] => mret []
  | x :: l' => y ← f x; ys ← mapM_ f l'; mret (y :: ys)
  end.


Section structure.
(** The table of characters that slugify spells out, Unicode's lower case, the collation of
    the browser, and the headings that marked finds in a text: their levels and markup. *)
Context (charMap : string → option string) (toLowerCase : string → string)
  (localeCompare : string → string → Z) (marked : string → list (Z * string)).

(** [ii]. *)
Definition slugify (s : string) : string :=
  let spelt c := match charMap c with Some t => if String.eqb t "" then c else t | None => c end in
  let kept := List.concat (map (λ c, filter (λ d, slug_char d = true) (chars (spelt c))) (chars s)) in
  String.concat "" (collapse_runs (λ c, is_space_char c || String.eqb c "-") "-" false (trim_chars is_space_char kept)).
(** [di]. *)
Definition di (s : string) : string :=
  let t := slugify s in
  if String.eqb t "" then
    let dash := String.eqb "-" in
    String.concat "" (trim_chars dash (collapse_runs dash "-" false
      (chars (replace_all "&" "-and-" (String.concat "" (collapse_runs is_space_char "-" false (chars (toLowerCase s))))))))
  else t.

(** * Headings *)

Inductive heading : Type := Heading (heading_id heading_name : string) (below : list heading).

(** [String.fromCharCode(n)]: a unit of UTF-16, in UTF-8. *)
Definition fromCharCode (n : Z) : string :=
  let u := n mod 65536 in
  of_codes (if u <? 128 then [u]
            else if u <? 2048 then [192 + u / 64; 128 + u mod 64]
            else [224 + u / 4096; 128 + u / 64 mod 64; 128 + u mod 64]).
(** [/&#(\d+);/g]: at each place, the character and the rest. *)
Definition read_entity (s : string) : option (string * string) :=
  if has_prefix s "&#" then
    let '(v, n, rest) := read_digits (drop_bytes 2 s) 0 0 in
    if (0 <? n)%nat && has_prefix rest ";" then Some (fromCharCode v, drop_bytes 1 rest) else None
  else None.
Fixpoint decode_entities (fuel : nat) (s : string) : string :=
  match fuel with
  | O => s
  | S fuel =>
      match read_entity s with
      | Some (c, rest) => c +:+ decode_entities fuel rest
      | None => match s with String a t => String a (decode_entities fuel t) | EmptyString => "" end
      end
  end.
(** [s.replace(/p/g, r)] for a fixed text. *)
Fixpoint replace_text (fuel : nat) (p r s : string) : string :=
  match fuel with
  | O => s
  | S fuel =>
      if has_prefix s p then r +:+ replace_text fuel p r (drop_bytes (String.length p) s)
      else match s with String a t => String a (replace_text fuel p r t) | EmptyString => "" end
  end.
Definition heading_text (e : string) : string :=
  let s := decode_entities (S (String.length e)) e in
  let s := replace_text (S (String.length s)) "&amp;" "&" s in
  replace_text (S (String.length s)) "&quot;" (String (of_code 34) "") s.

(** [saveHeading]: a heading below another one, or below the item the text belongs to. *)
Definition saveHeading (parentId : option string) (e : string) (r : option string) : heading :=
  let name := heading_text e in
  let over := match r with
              | Some r => r
              | None => match parentId with
                        | Some s => if String.eqb s "" then "section" else s
                        | None => "section"
                        end
              end in
  Heading (over +:+ "/" +:+ di name) name [].
(** [headingRule]: after the first heading of level 1, those of level 2 belong to the last
    of level 1; other levels are not listed. *)
Definition headingRule (parentId : option string) (s : list heading * bool) (h : Z * string) : list heading * bool :=
  let '(l, top) := s in
  let '(level, e) := h in
  if level =? 1 then (l ++ [saveHeading parentId e None], true)
  else if level =? 2 then
    if top then
      match last l with
      | Some (Heading i n below) => (removelast l ++ [Heading i n (below ++ [saveHeading parentId e (Some i)])], true)
      | None => (l, top)
      end
    else (l ++ [saveHeading parentId e None], top)
  else s.
(** [extractHeadings]: looking for the texts between headings throws if there are any in
    what is not a text. *)
Definition extractHeadings (parentId : option string) (e : value) : call (list heading) :=
  let l := (fold_left (headingRule parentId) (marked (to_string e)) ([], false)).1 in
  match e, l with
  | Str _, _ | _, [] => Returned l
  | _, _ => Throws
  end.

(** * Operations by tag *)

(** [Object.prototype]: names that every object inherits. *)
Definition inherited : list string :=
  ["constructor"; "toString"; "toLocaleString"; "valueOf"; "hasOwnProperty"; "isPrototypeOf";
   "propertyIsEnumerable"; "__proto__"; "__defineGetter__"; "__defineSetter__"; "__lookupGetter__";
   "__lookupSetter__"].
(** [ns]. *)
Definition ts : list string := ["get"; "post"; "put"; "head"; "patch"; "delete"; "options"; "$ref"].
Definition ns (e : string) : bool := existsb (String.eqb e) (ts ++ inherited).

(** [Object.keys(v)]. *)
Definition object_keys (v : value) : option (list string) :=
  if is_nullish v then None else Some (map fst (own_members v)).

Fixpoint foldM {A S} (f : A → S → call S) (l : list A) (s : S) : call S :=
  match l with
  | [] => Returned s
  | x :: l' => s ← f x s; foldM f l' s
  end.

(** An operation as the menu gets it. *)
Definition operation_of (webhook : bool) (o verb : string) (a s : value) : call value :=
  parameters ← of_option (get a "parameters");
  servers ← of_option (get a "servers");
  Returned (Obj (spread (own_members s) [
    ("pathName", Str o); ("pointer", Str (compile ["paths"; o; verb])); ("httpVerb", Str verb);
    ("pathParameters", either parameters (Arr [])); ("pathServers", servers); ("isWebhook", Bool webhook)])).

(** The operation goes under one of its tags. A tag named like a member that objects
    inherit finds that member, which has no operations. *)
Definition push_operation (op : value) (e : value) (table : schema) : call schema :=
  let k := to_string e in
  i ← (match field k table with
       | Some i => Returned i
       | None => if existsb (String.eqb k) inherited then Throws else Returned (Obj [("name", e); ("operations", Arr [])])
       end : call value);
  let table := set_field k i table in
  trait ← of_option (get i "x-traitTag");
  if truthy trait then Returned table
  else
    match at_ (own_members i) "operations" with
    | Arr l => Returned (set_field k (Obj (set_field "operations" (Arr (l ++ [op])) (own_members i))) table)
    | _ => Throws
    end.

(** The tags of an operation; one without tags goes under the empty name. *)
Definition length_of (v : value) : value :=
  match v with
  | Arr l => int (Z.of_nat (length l))
  | Str s => int (Z.of_nat (length (chars s)))
  | _ => default Undef (get v "length")
  end.
Definition tags_of (s : value) : option (list value) :=
  l ← (if is_nullish s then Some Undef else get s "tags");
  if truthy l && truthy (length_of l) then iterate_over l else Some [Str ""].

Section document.
Context (p : parser).

Definition add_verb (fuel : nat) (follow : value → schema → call schema) (webhook : bool) (o : string) (a : value)
    (verb : string) (table : schema) : call schema :=
  s ← of_option (get a verb);
  ref ← of_option (get a "$ref");
  if truthy ref then
    '(t, _) ← of_resolution (deref fuel p a [] false);
    follow (Obj [(o, t)]) table
  else
    l ← of_option (tags_of s);
    op ← operation_of webhook o verb a s;
    foldM (push_operation op) l table.
(** The inner function of [getTagsWithOperations]; a path that is a reference is followed
    once for each of its members that are named like a verb. *)
Fixpoint add_paths (fuel : nat) (webhook : bool) (t : value) (table : schema) : call schema :=
  match fuel with
  | O => TooDeep
  | S fuel =>
      paths ← of_option (object_keys t);
      foldM (λ o table,
        a ← of_option (get t o);
        verbs ← of_option (object_keys a);
        foldM (add_verb fuel (add_paths fuel webhook) webhook o a) (filter (λ v, ns v = true) verbs) table) paths table
  end.

Definition declare_tag (e : value) (table : schema) : call schema :=
  name ← of_option (get e "name");
  Returned (set_field (to_string name) (Obj (set_field "operations" (Arr []) (own_members e))) table).
Definition getTagsWithOperations (fuel : nat) : call schema :=
  x ← of_option (get (spec p) "x-webhooks");
  w ← of_option (get (spec p) "webhooks");
  tags ← of_option (get (spec p) "tags");
  l ← of_option (iterate_or_empty tags);
  table ← foldM declare_tag l [];
  table ← (if truthy (either x w) then add_paths fuel true (either x w) table else Returned table : call schema);
  paths ← of_option (get (spec p) "paths");
  if truthy paths then add_paths fuel false paths table else Returned table.

(** * Items

    The constructors add an object; members that they only pass on are left out. *)
Definition new_item (i : string) (t : item_type) (d : Z) (n : option nat) : builder nat := λ objects,
  Returned (length objects, objects ++ [Item i t d n []]).
(** [k.items = l]. *)
Definition set_items (k : nat) (l : list nat) : builder unit := λ objects,
  Returned ((), alter (λ x, Item (id x) (type x) (depth x) (parent x) l) k objects).
Definition the_item (k : nat) : builder menu_item := λ objects,
  match objects !! k with Some x => Returned (x, objects) | None => Throws end.

(** The identifier of [rf]. *)
Definition rf_id (kind : string) (t : value) : call string :=
  i ← of_option (get t "id");
  if truthy i then Returned (to_string i)
  else
    name ← of_option (get t "name");
    match name with Str s => Returned (kind +:+ "/" +:+ di s) | _ => Throws end.

(** The identifier and the name of [Tu]; the name is what operations are sorted by. *)
Definition Tu_id (n : option string) (t : value) : call string :=
  i ← of_option (get t "operationId");
  pointer ← of_option (get t "pointer");
  let operationHash := if truthy i then "operation/" +:+ to_string i else to_string i in
  Returned (if is_undef i then default "" n +:+ to_string pointer
            else match n with Some n => n +:+ "/" +:+ operationHash | None => operationHash end).
Definition Tu_name (t : value) : call value :=
  summary ← of_option (get t "summary");
  i ← of_option (get t "operationId");
  description ← of_option (get t "description");
  path ← of_option (get t "pathName");
  if truthy summary then Returned summary
  else if truthy i then Returned i
  else
    short ← (if truthy description then
               match description with Str s => Returned (Str (String.concat "" (take 50 (chars s)))) | _ => Throws end
             else Returned description : call value);
    Returned (either short (either path (Str "<no summary>"))).

(** [l.sort(Ls("name"))]: only texts can be compared. Items are listed with their names. *)
Definition is_text (v : value) : bool := match v with Str _ => true | _ => false end.
Definition sort_named (l : list (nat * value)) : call (list (nat * value)) :=
  if (length l <=? 1)%nat || forallb (λ x, is_text x.2) l then
    Returned (sort_by (λ x y, localeCompare (to_string x.2) (to_string y.2)) l)
  else Throws.

(** The identifier of an item that may be missing. *)
Definition id_of_item (t : option nat) : builder (option string) :=
  match t with Some k => x ← the_item k; mret (Some (id x)) | None => mret None end.

(** [addMarkdownItems], for the headings found. *)
Fixpoint add_heading (e : option nat) (n : Z) (h : heading) : builder (nat * value) :=
  match h with
  | Heading i name below =>
      k ← new_item i Section_ n e;
      l ← mapM_ (add_heading (Some k) (n + 1)) below;
      _ ← set_items k (map fst l);
      mret (k, Str name)
  end.
Definition addMarkdownItems (e : value) (t : option nat) (n : Z) : builder (list (nat * value)) :=
  parentId ← id_of_item t;
  l ← lift (extractHeadings parentId (either e (Str "")));
  mapM_ (add_heading t n) l.

Definition operation_item (t : option nat) (r : Z) (parentId : option string) (a : value) : builder (nat * value) :=
  i ← lift (Tu_id parentId a);
  name ← lift (Tu_name a);
  k ← new_item i Operation r t;
  mret (k, name).
Definition getOperationsItems (sorted : bool) (t : option nat) (n : value) (r : Z) : builder (list (nat * value)) :=
  match at_ (own_members n) "operations" with
  | Arr l =>
      parentId ← id_of_item t;
      l ← mapM_ (operation_item t r parentId) l;
      if sorted : bool then lift (sort_named l) else mret l
  | _ => lift Throws
  end.

(** [x.includes(v)]. *)
Fixpoint contains_text (s t : string) : bool :=
  has_prefix s t || match s with String _ s' => contains_text s' t | EmptyString => false end.
Definition includes_value (x v : value) : option bool :=
  match x with
  | Undef | Null => Some false
  | Arr l => Some (existsb (same_value v) l)
  | Str s => Some (contains_text s (to_string v))
  | _ => None
  end.
(** [getTagRelatedSchema]. *)
Definition schema_item (name : value) (k : nat) (d : Z) (member : string * value) : builder (list nat) :=
  tags ← lift (of_option (get member.2 "x-tags"));
  here ← lift (of_option (includes_value tags name));
  if here : bool then
    i ← lift (rf_id "schema" (Obj [("name", Str member.1)]));
    x ← new_item i Schema (d + 1) (Some k);
    mret [x]
  else mret [].
Definition getTagRelatedSchema (name : value) (k : nat) (d : Z) : builder (list nat) :=
  components ← lift (of_option (get (spec p) "components"));
  schemas ← lift (if is_nullish components then Returned Undef else of_option (get components "schemas"));
  l ← mapM_ (schema_item name k d) (own_members (either schemas (Obj [])));
  mret (List.concat l).

Context (sortTags sortOperations : bool).

(** An item for a tag, or what is in the tag with the empty name. *)
Definition tag_item (n : option nat) (t : value) : builder (list (nat * value)) :=
  i ← lift (rf_id "tag" t);
  name ← lift (of_option (get t "name"));
  display ← lift (of_option (get t "x-displayName"));
  description ← lift (of_option (get t "description"));
  r ← new_item i Tag 1 n;
  if match name with Str s => String.eqb s "" | _ => false end then
    l ← addMarkdownItems description (Some r) 2;
    m ← getOperationsItems sortOperations None t 2;
    mret (l ++ m)
  else
    items ← (o ← getTagRelatedSchema name r 1;
             l ← addMarkdownItems description (Some r) 2;
             m ← getOperationsItems sortOperations (Some r) t 2;
             mret (o ++ map fst l ++ map fst m));
    _ ← set_items r items;
    mret [(r, either display name)].

(** The tags of the table that are listed; a name that objects inherit finds what has no
    operations. *)
Fixpoint listed_tags (table : schema) (l : list string) : call (list value) :=
  match l with
  | [] => Returned []
  | e :: l' =>
      found ← (match field e table with
               | Some t => Returned [t]
               | None => if existsb (String.eqb e) inherited then Throws else Returned []
               end : call (list value));
      rest ← listed_tags table l';
      Returned (found ++ rest)
  end.
Definition getTagsItems (table : schema) (n : option nat) (names : list string) : builder (list nat) :=
  l ← lift (listed_tags table names);
  s ← mapM_ (tag_item n) l;
  s ← (if sortTags then lift (sort_named (List.concat s)) else mret (List.concat s) : builder (list (nat * value)));
  mret (map fst s).

(** [getTagGroupsItems]. *)
Definition group_item (table : schema) (a : value) : builder nat :=
  i ← lift (rf_id "group" a);
  n ← new_item i Group 0 None;
  l ← (tags ← lift (of_option (get a "tags"));
       names ← lift (match tags with Arr l => Returned (map to_string l) | _ => Throws end);
       getTagsItems table (Some n) names);
  _ ← set_items n l;
  mret n.

Definition build (fuel : nat) : builder (list nat) :=
  table ← lift (getTagsWithOperations fuel);
  info ← lift (of_option (get (spec p) "info"));
  description ← lift (of_option (get info "description"));
  r ← addMarkdownItems description None 1;
  groups ← lift (of_option (get (spec p) "x-tagGroups"));
  l ← (if truthy groups && f64_lt f64_zero (to_number (length_of groups)) then
         l ← lift (of_option (iterate_over groups)); mapM_ (group_item table) l
       else getTagsItems table None (enumerated (map fst table)) : builder (list nat));
  mret (map fst r ++ l).
(** [buildStructure]: the content items and all objects. *)
Definition buildStructure (fuel : nat) : call (list nat * list menu_item) := build fuel [].
End document.
End structure.
