(* ===== verification/RedocStructureLaws.v ===== *)
(** Laws of the menu that is made from a document: its objects are built so that the menu
    works on them whatever the document holds, and every operation is listed under each of
    its tags. *)
From S2P Require Import Prelude GoStrings.
From S2P Require Import Float64 JsNumber JsValue RedocJson JsArray JsonPointer RedocParser RedocParserLaws RedocAllOf RedocAllOfLaws.
From S2P Require Import RedocMenuStore RedocMenuLaws RedocStructure.
Local Open Scope nat_scope.

(** * The objects

    Objects refer to later ones below them and to earlier ones above them. *)
Definition ordered (objects : list menu_item) : Prop := ∀ k x, objects !! k = Some x →
  (∀ j, j ∈ items x → k < j < length objects) ∧ (∀ j, parent x = Some j → j < k).
Definition flat (objects : list menu_item) (l : list nat) : list nat := flatten objects (S (length objects)) l.

Lemma ordered_item objects k j : ordered objects → j ∈ items_of objects k → k < j < length objects.
Proof.
  intros Ho. unfold items_of. destruct (objects !! k) as [x|] eqn:E; cbn; [|by intros ?%elem_of_nil].
  by apply Ho.
Qed.

Lemma flatten_fuel objects f f' l : ordered objects →
  (∀ k, k ∈ l → length objects - k < f ∧ length objects - k < f') → flatten objects f l = flatten objects f' l.
Proof.
  intros Ho. revert f' l. induction f as [|f IH]; intros f' l Hl.
  - destruct l as [|k l]; [by destruct f'|]. destruct (Hl k ltac:(left)). lia.
  - destruct f' as [|f']; [destruct l as [|k l]; [done|destruct (Hl k ltac:(left)); lia]|]. cbn [flatten]. f_equal.
    apply map_ext_in. intros k Hk%list_elem_of_In. f_equal. apply IH. intros j Hj.
    apply ordered_item in Hj; [|done]. specialize (Hl k Hk). lia.
Qed.

Lemma flat_nil objects : flat objects [] = [].
Proof. done. Qed.

Lemma flat_app objects l l' : flat objects (l ++ l') = flat objects l ++ flat objects l'.
Proof. unfold flat. cbn [flatten]. by rewrite map_app, concat_app. Qed.

Lemma flat_one objects k : ordered objects → flat objects [k] = k :: flat objects (items_of objects k).
Proof.
  intros Ho. unfold flat at 1. cbn [flatten map List.concat]. rewrite app_nil_r. f_equal. apply flatten_fuel; [done|].
  intros j Hj%ordered_item; [lia|done].
Qed.

Lemma flat_roots objects l k : k ∈ l → k ∈ flat objects l.
Proof.
  intros Hk. unfold flat. cbn [flatten]. apply list_elem_of_In, in_concat. eexists. split; [apply in_map; by apply list_elem_of_In|].
  by left.
Qed.

Lemma flat_perm objects l l' : Permutation l l' → Permutation (flat objects l) (flat objects l').
Proof. intros H. unfold flat. cbn [flatten]. rewrite <-!flat_map_concat_map. by apply Permutation_flat_map. Qed.

(** Objects that agree on what is listed list the same. *)
Lemma flatten_local objects objects' f l : (∀ k, k ∈ flatten objects f l → items_of objects k = items_of objects' k) →
  flatten objects' f l = flatten objects f l.
Proof.
  revert l. induction f as [|f IH]; intros l Hl; [done|]. cbn [flatten] in *. f_equal. apply map_ext_in. intros k Hk.
  assert (∀ j, j ∈ k :: flatten objects f (items_of objects k) → items_of objects j = items_of objects' j) as H.
  { intros j Hj. apply Hl, list_elem_of_In, in_concat. eexists. split; [exact (in_map _ _ _ Hk)|by apply list_elem_of_In]. }
  rewrite <-(H k) by left. f_equal. apply IH. intros j Hj. apply H. by right.
Qed.

Lemma flat_local objects objects' l : ordered objects → ordered objects' →
  (∀ k, k ∈ flat objects l → k < length objects ∧ objects !! k = objects' !! k) → flat objects' l = flat objects l.
Proof.
  intros Ho Ho' Hl. set (f := S (length objects `max` length objects')).
  assert (∀ o, ordered o → length o < f → flat o l = flatten o f l) as Hf.
  { intros o Hoo Hof. apply flatten_fuel; [done|]. intros k _. lia. }
  rewrite (Hf objects'), (Hf objects) by (try done; lia). apply flatten_local. intros k Hk.
  rewrite <-Hf in Hk by (try done; lia). apply Hl in Hk as [_ Hk]. unfold items_of. by rewrite Hk.
Qed.

(** What is listed below [l] is there once, is new since there were [lo] objects, and has
    a positive depth unless it is a group. *)
Definition fresh (lo : nat) (objects : list menu_item) (l : list nat) : Prop :=
  NoDup (flat objects l) ∧
  ∀ k, k ∈ flat objects l → lo ≤ k ∧ ∃ x, objects !! k = Some x ∧ (is_group (type x) = false → (0 < depth x)%Z).

Lemma fresh_bounds lo objects l k : fresh lo objects l → k ∈ flat objects l → lo ≤ k < length objects.
Proof. intros [_ H] Hk. destruct (H k Hk) as (Hlo & x & Hx & _). split; [done|]. by eapply lookup_lt_Some. Qed.

Lemma fresh_later lo objects objects' l : fresh lo objects l → objects `prefix_of` objects' →
  ordered objects → ordered objects' → flat objects' l = flat objects l ∧ fresh lo objects' l.
Proof.
  intros Hf [o ->] Ho Ho'. assert (∀ k, k ∈ flat objects l → objects !! k = (objects ++ o) !! k) as He.
  { intros k Hk. pose proof (fresh_bounds _ _ _ _ Hf Hk). by rewrite lookup_app_l by lia. }
  assert (flat (objects ++ o) l = flat objects l) as E.
  { apply flat_local; [done..|]. intros k Hk. pose proof (fresh_bounds _ _ _ _ Hf Hk). split; [lia|by apply He]. }
  split; [done|]. split; rewrite E; [apply Hf|]. intros k Hk. rewrite <-He by done. by apply Hf.
Qed.

Lemma fresh_app lo lo' objects l l' : lo ≤ lo' → fresh lo objects l → fresh lo' objects l' →
  (∀ k, k ∈ flat objects l → k < lo') → fresh lo objects (l ++ l').
Proof.
  intros Hlo [H1 H2] [H3 H4] Hlt. split; rewrite flat_app.
  - apply NoDup_app. split; [done|]. split; [|done]. intros k Hk Hk'. apply Hlt in Hk. apply H4 in Hk' as [? _]. lia.
  - intros k [Hk|Hk]%elem_of_app; [by apply H2|]. destruct (H4 k Hk). split; [lia|done].
Qed.

Lemma fresh_perm lo objects l l' : Permutation l l' → fresh lo objects l → fresh lo objects l'.
Proof.
  intros Hp [H1 H2]. pose proof (flat_perm objects l l' Hp) as Hf. split; [by rewrite <-Hf|].
  intros k. rewrite <-Hf. apply H2.
Qed.

(** The operations that are listed below [l]: their identifiers, each with the kind and the
    identifier of the item whose items it is one of, or none where it is in [l]. *)
Abbreviation place := (option (item_type * string) * string)%type.
Definition nested (t : item_type) (i : string) (z : place) : place := (Some (default (t, i) z.1), z.2).
Definition placed_node (t : item_type) (i : string) (zs : list place) : list place :=
  (if is_operation t then [(None, i)] else []) ++ map (nested t i) zs.
Definition placed_item (objects : list menu_item) (k : nat) (zs : list place) : list place :=
  match objects !! k with Some x => placed_node (type x) (id x) zs | None => [] end.
Fixpoint placed_within (objects : list menu_item) (fuel : nat) (l : list nat) : list place :=
  match fuel with
  | O => []
  | S fuel => List.concat (map (λ k, placed_item objects k (placed_within objects fuel (items_of objects k))) l)
  end.
Definition placed (objects : list menu_item) (l : list nat) : list place := placed_within objects (S (length objects)) l.

Lemma placed_fuel objects f f' l : ordered objects →
  (∀ k, k ∈ l → length objects - k < f ∧ length objects - k < f') → placed_within objects f l = placed_within objects f' l.
Proof.
  intros Ho. revert f' l. induction f as [|f IH]; intros f' l Hl.
  - destruct l as [|k l]; [by destruct f'|]. destruct (Hl k ltac:(left)). lia.
  - destruct f' as [|f']; [destruct l as [|k l]; [done|destruct (Hl k ltac:(left)); lia]|]. cbn [placed_within]. f_equal.
    apply map_ext_in. intros k Hk%list_elem_of_In. f_equal. apply IH. intros j Hj.
    apply ordered_item in Hj; [|done]. specialize (Hl k Hk). lia.
Qed.

Lemma placed_local objects objects' l : ordered objects → ordered objects' →
  (∀ k, k ∈ flat objects l → objects !! k = objects' !! k) → placed objects' l = placed objects l.
Proof.
  intros Ho Ho' Hl. set (f := S (length objects `max` length objects')).
  assert (∀ o, ordered o → length o < f → placed o l = placed_within o f l) as Hf.
  { intros o Hoo Hof. apply placed_fuel; [done|]. intros k _. lia. }
  rewrite (Hf objects'), (Hf objects) by (try done; lia).
  assert (∀ k, k ∈ flatten objects f l → objects !! k = objects' !! k) as Hl'.
  { intros k Hk. apply Hl. unfold flat. rewrite (flatten_fuel objects _ f) by (try done; lia). done. }
  clear Hf Hl. clearbody f. revert l Hl'. induction f as [|f IH]; intros l Hl; [done|]. cbn [placed_within flatten] in *. f_equal.
  apply map_ext_in. intros k Hk.
  assert (∀ j, j ∈ k :: flatten objects f (items_of objects k) → objects !! j = objects' !! j) as H.
  { intros j Hj. apply Hl, list_elem_of_In, in_concat. eexists. split; [exact (in_map _ _ _ Hk)|by apply list_elem_of_In]. }
  unfold placed_item, items_of at 1. rewrite <-(H k) by left. destruct (objects !! k) as [x|] eqn:Ex; [|done]. f_equal.
  assert (items_of objects k = items x) as E by (unfold items_of; by rewrite Ex). cbn. rewrite <-E.
  apply IH. intros j Hj. apply H. by right.
Qed.

Lemma placed_later lo objects objects' l : fresh lo objects l → objects `prefix_of` objects' →
  ordered objects → ordered objects' → placed objects' l = placed objects l.
Proof.
  intros Hf Hp Ho Ho'. apply placed_local; [done..|]. intros k Hk. pose proof (fresh_bounds _ _ _ _ Hf Hk).
  destruct Hp as [o ->]. by rewrite lookup_app_l by lia.
Qed.

Lemma placed_app objects l l' : placed objects (l ++ l') = placed objects l ++ placed objects l'.
Proof. unfold placed. cbn [placed_within]. by rewrite map_app, concat_app. Qed.

Lemma placed_perm objects l l' : Permutation l l' → Permutation (placed objects l) (placed objects l').
Proof. intros H. unfold placed. cbn [placed_within]. rewrite <-!flat_map_concat_map. by apply Permutation_flat_map. Qed.

Lemma placed_one objects k : ordered objects → placed objects [k] = placed_item objects k (placed objects (items_of objects k)).
Proof.
  intros Ho. unfold placed at 1. cbn [placed_within map List.concat]. rewrite app_nil_r. f_equal. apply placed_fuel; [done|].
  intros j Hj%ordered_item; [lia|done].
Qed.

(** What a place says of the objects. *)
Definition operation_at (objects : list menu_item) (l : list nat) (z : string) : Prop :=
  ∃ k y, k ∈ l ∧ objects !! k = Some y ∧ is_operation (type y) = true ∧ id y = z.
Lemma placed_listed objects l h z : (h, z) ∈ placed objects l →
  match h with
  | None => operation_at objects l z
  | Some (t, i) => ∃ j x, j ∈ flat objects l ∧ objects !! j = Some x ∧ type x = t ∧ id x = i ∧ operation_at objects (items x) z
  end.
Proof.
  unfold placed, flat. generalize (S (length objects)) as f. intros f. revert h l. induction f as [|f IH]; intros h l; cbn [placed_within flatten]; [by intros ?%elem_of_nil|].
  intros Hz%list_elem_of_In. apply in_concat in Hz as (zs & Hzs & Hz). apply in_map_iff in Hzs as (k & <- & Hk).
  unfold placed_item, placed_node in Hz. destruct (objects !! k) as [x|] eqn:Ex; [|done].
  assert (∀ j, j ∈ k :: flatten objects f (items_of objects k) →
    j ∈ List.concat (map (λ k, k :: flatten objects f (items_of objects k)) l)) as Hin.
  { intros j Hj. apply list_elem_of_In, in_concat. eexists. split; [exact (in_map _ _ _ Hk)|by apply list_elem_of_In]. }
  apply in_app_iff in Hz as [Hz|Hz].
  - destruct (is_operation (type x)) eqn:Et; [|done]. destruct Hz as [[= <- <-]|[]]. exists k, x. split; [by apply list_elem_of_In|done].
  - apply in_map_iff in Hz as ([h' z'] & [= <- <-] & Hz). apply list_elem_of_In, IH in Hz.
    assert (items_of objects k = items x) as E by (unfold items_of; by rewrite Ex). destruct h' as [[t' i']|]; cbn.
    + destruct Hz as (j & y & Hj & Hy). exists j, y. split; [apply Hin; by right|done].
    + exists k, x. rewrite E in Hz. split; [apply Hin; left|done].
Qed.

(** * Builders

    Where an object is open, a builder adds objects and gives new items that are fresh; [R]
    relates the result to them and to the operations listed. *)
Definition holds (c : option (nat * string)) (objects : list menu_item) : Prop :=
  match c with Some (k, i) => ∃ x, objects !! k = Some x ∧ id x = i | None => True end.
(** The parent of a new object, if it has one, is the open object. *)
Definition within (c : option (nat * string)) (n : option nat) : Prop := ∀ j, n = Some j → ∃ i, c = Some (j, i).

Lemma holds_later c o o' : o `prefix_of` o' → holds c o → holds c o'.
Proof. intros Hp. destruct c as [[k i]|]; [|done]. intros (x & Hx & Hi). exists x. split; [by eapply prefix_lookup_Some|done]. Qed.

Lemma within_above c n o : within c n → holds c o → ∀ j, n = Some j → j < length o.
Proof. intros Hn Hc j Hj. destruct (Hn j Hj) as [i ->]. destruct Hc as (x & Hx & _). by eapply lookup_lt_Some. Qed.

Lemma within_none c : within c None.
Proof. by intros j Hj. Qed.

Lemma within_open k i : within (Some (k, i)) (Some k).
Proof. intros j [= <-]. by exists i. Qed.
Hint Resolve within_none within_open : core.

Definition builds {A} (c : option (nat * string)) (R : A → list nat → list place → Prop) (m : builder A) : Prop :=
  ∀ objects a objects', ordered objects → holds c objects → m objects = Returned (a, objects') →
    objects `prefix_of` objects' ∧ ordered objects' ∧
    ∃ l, R a l (placed objects' l) ∧ fresh (length objects) objects' l.

Lemma fresh_nil lo objects : fresh lo objects [].
Proof. split; rewrite flat_nil; [constructor|by intros k ?%elem_of_nil]. Qed.

Section builders.
Context {A B : Type} (c : option (nat * string)).
Implicit Types (m : builder A) (R : A → list nat → list place → Prop).

Lemma builds_ret R a : R a [] [] → builds c R (mret (M := builder) a).
Proof. intros H objects b objects' Ho _ [= <- <-]. split; [done|]. split; [done|]. exists []. split; [done|apply fresh_nil]. Qed.

Lemma builds_lift R x : (∀ a, x = Returned a → R a [] []) → builds c R (lift x).
Proof.
  intros H objects b objects' Ho _. unfold lift. destruct x as [a| |]; [|done..]. intros [= <- <-].
  split; [done|]. split; [done|]. exists []. split; [by apply H|apply fresh_nil].
Qed.

Lemma builds_bind R (S : B → list nat → list place → Prop) m (k : A → builder B) :
  builds c R m → (∀ a l i, R a l i → builds c (λ b l' i', S b (l ++ l') (i ++ i')) (k a)) → builds c S (m ≫= k).
Proof.
  intros Hm Hk o b o'' Ho Hc H. unfold mbind, builder_bind in H.
  destruct (m o) as [[a o']| |] eqn:Em; [|done..]. cbn in H.
  destruct (Hm o a o' Ho Hc Em) as (Hp & Ho' & l & HR & Hf).
  assert (length o ≤ length o') as Hlen by (by apply prefix_length).
  destruct (Hk a l _ HR o' b o'' Ho' ltac:(by eapply holds_later) H) as (Hp' & Ho'' & l' & HS & Hf').
  split; [by etransitivity|]. split; [done|]. exists (l ++ l').
  rewrite placed_app, (placed_later _ _ _ _ Hf Hp' Ho' Ho''). split; [done|].
  destruct (fresh_later _ _ _ _ Hf Hp' Ho' Ho'') as [E Hf2].
  eapply fresh_app; [|done|done|]; [lia|]. intros j. rewrite E. intros Hj. pose proof (fresh_bounds _ _ _ _ Hf Hj). lia.
Qed.

Lemma builds_mono R R' m : (∀ a l i, R a l i → R' a l i) → builds c R m → builds c R' m.
Proof.
  intros H Hm o a o' Ho Hc E. destruct (Hm o a o' Ho Hc E) as (? & ? & l & HR & ?).
  split; [done|]. split; [done|]. exists l. split; [by apply H|done].
Qed.

Lemma builds_perm R R' m :
  (∀ a l i, R a l i → ∃ l', Permutation l l' ∧ ∀ i', Permutation i i' → R' a l' i') → builds c R m → builds c R' m.
Proof.
  intros H Hm o a o' Ho Hc E. destruct (Hm o a o' Ho Hc E) as (? & ? & l & HR & ?).
  split; [done|]. split; [done|]. destruct (H a l _ HR) as (l' & Hp & HR'). exists l'.
  split; [by apply HR', placed_perm|by eapply fresh_perm].
Qed.
End builders.

(** Results whose items and operations are known. *)
Definition gives {A} (f : A → list nat) (I : A → list place → Prop) (a : A) (l : list nat) (i : list place) : Prop :=
  l = f a ∧ I a i.

Lemma builds_map {A B} c (f : B → list nat) (ids : A → list place → Prop) (g : A → builder B) l :
  Forall (λ x, builds c (gives f (λ _, ids x)) (g x)) l →
  builds c (gives (λ ys, List.concat (map f ys)) (λ _ i, ∃ zs, Forall2 ids l zs ∧ i = List.concat zs)) (mapM_ g l).
Proof.
  induction 1 as [|x l Hx _ IH]; cbn [mapM_]; [apply builds_ret; split; [done|by exists []]|].
  eapply builds_bind; [exact Hx|]. intros y k i [-> Hi]. eapply builds_bind; [exact IH|].
  intros ys k zs [-> (js & Hjs & ->)]. apply builds_ret. split; [cbn; by rewrite app_nil_r|].
  exists (i :: js). split; [by constructor|]. cbn. by rewrite app_nil_r.
Qed.

(** ** New objects *)

Lemma ordered_snoc o i t d n : ordered o → (∀ j, n = Some j → j < length o) → ordered (o ++ [Item i t d n []]).
Proof.
  intros Ho Hn k x. rewrite length_app. cbn [length]. destruct (decide (k < length o)) as [Hk|Hk].
  - rewrite lookup_app_l by done. intros Hx%Ho. destruct Hx as [H1 H2]. split; [|done]. intros j Hj. specialize (H1 j Hj). lia.
  - rewrite lookup_app_r by lia. intros Hx. apply list_lookup_singleton_Some in Hx as [Hk' <-]. cbn.
    split; [by intros j ?%elem_of_nil|]. intros j Hj. specialize (Hn j Hj). lia.
Qed.

Lemma new_object o i t d n : (o ++ [Item i t d n []]) !! length o = Some (Item i t d n []).
Proof. by rewrite lookup_app_r, Nat.sub_diag by done. Qed.

(** An object that is not listed. *)
Lemma builds_object {A} c (R : A → list nat → list place → Prop) i t d n (body : nat → builder A) : within c n →
  (∀ k, builds (Some (k, i)) R (body k)) → builds c R (k ← new_item i t d n; body k).
Proof.
  intros Hn Hb o a o' Ho Hc H. unfold mbind, builder_bind, new_item in H. cbn in H.
  assert (ordered (o ++ [Item i t d n []])) as Ho1 by (by apply ordered_snoc, (within_above c)).
  destruct (Hb (length o) _ a o' Ho1 ltac:(eexists; split; [apply new_object|done]) H) as (Hp & Ho' & l & HR & Hf).
  split; [etransitivity; [by apply prefix_app_r|exact Hp]|]. split; [done|]. exists l. split; [done|].
  destruct Hf as [H1 H2]. split; [done|]. intros k Hk. destruct (H2 k Hk) as [Hlk ?]. rewrite length_app in Hlk. split; [lia|done].
Qed.

(** Closing an object: what is listed below it is what its body has built. *)
Lemma set_items_fresh o k x l :
  ordered o → o !! k = Some x → items x = [] → (is_group (type x) = false → (0 < depth x)%Z) → fresh (S k) o l →
  let o' := alter (λ x, Item (id x) (type x) (depth x) (parent x) l) k o in
  take k o' = take k o ∧ ordered o' ∧ fresh k o' [k] ∧
  placed o' [k] = placed_node (type x) (id x) (placed o l).
Proof.
  intros Ho Hk Hi Hd Hf o'.
  assert (length o' = length o) as Hlen by apply length_alter.
  assert (∀ j, j ≠ k → o' !! j = o !! j) as Hne by (intros j Hj; by apply list_lookup_alter_ne).
  assert (o' !! k = Some (Item (id x) (type x) (depth x) (parent x) l)) as He.
  { unfold o'. by rewrite list_lookup_alter, decide_True, Hk. }
  assert (ordered o') as Ho'.
  { intros j y. rewrite Hlen. destruct (decide (j = k)) as [->|Hj]; [|rewrite Hne by done; apply Ho].
    rewrite He. intros [= <-]. cbn. split; [|by apply (Ho k x)]. intros j Hj.
    pose proof (fresh_bounds _ _ _ _ Hf (flat_roots o l j Hj)). lia. }
  assert (flat o' l = flat o l) as E.
  { apply flat_local; [done..|]. intros j Hj. pose proof (fresh_bounds _ _ _ _ Hf Hj). split; [lia|]. symmetry. apply Hne. lia. }
  assert (flat o' [k] = k :: flat o l) as E'.
  { rewrite flat_one by done. assert (items_of o' k = l) as -> by (unfold items_of; by rewrite He). by rewrite E. }
  split; [unfold o'; by rewrite take_alter, decide_False by lia|]. split; [done|]. split; [split; rewrite E'|].
  - apply NoDup_cons. split; [|apply Hf]. intros H%(fresh_bounds _ _ _ _ Hf). lia.
  - intros j [->|Hj]%elem_of_cons; [split; [done|]; eexists; split; [exact He|done]|].
    pose proof (fresh_bounds _ _ _ _ Hf Hj). rewrite Hne by lia. split; [lia|by apply Hf].
  - rewrite placed_one by done. unfold placed_item. rewrite He. cbn [type id].
    assert (items_of o' k = l) as -> by (unfold items_of; by rewrite He).
    f_equal. apply placed_local; [done..|]. intros j Hj. pose proof (fresh_bounds _ _ _ _ Hf Hj). symmetry. apply Hne. lia.
Qed.

(** An object with what its body builds below it. *)
Lemma builds_node {A B} c i t d n (body : nat → builder A) (g : A → list nat) (I : list place → Prop) (out : nat → B)
    (f : B → list nat) :
  within c n → (is_group t = false → (0 < d)%Z) →
  (∀ k, builds (Some (k, i)) (gives g (λ _, I)) (body k)) → (∀ k, f (out k) = [k]) →
  builds c (gives f (λ _ zs, ∃ js, I js ∧ zs = placed_node t i js))
    (k ← new_item i t d n; a ← body k; _ ← set_items k (g a); mret (out k)).
Proof.
  intros Hn Hd Hb HR o b o' Ho Hc H. unfold mbind at 1, builder_bind at 1, new_item in H. cbn [call_bind] in H.
  set (k := length o) in *. set (o1 := o ++ [Item i t d n []]) in *.
  unfold mbind at 1, builder_bind at 1 in H. destruct (body k o1) as [[a o2]| |] eqn:E; [|done..].
  cbn in H. injection H as <- <-.
  assert (length o1 = S k) as Hl1 by (unfold o1; rewrite length_app; cbn; lia).
  assert (o1 !! k = Some (Item i t d n [])) as Hk1 by apply new_object.
  destruct (Hb k o1 a o2) as (Hp & Ho2 & l & [-> HI] & Hf);
    [by apply ordered_snoc, (within_above c)|by eexists|done|]. rewrite Hl1 in Hf.
  assert (o2 !! k = Some (Item i t d n [])) as Hk by (by eapply prefix_lookup_Some).
  destruct (set_items_fresh o2 k _ (g a) Ho2 Hk eq_refl Hd Hf) as (Ht & Ho3 & Hf3 & Hi).
  split; [|split; [done|exists [k]; split; [split; [done|by eexists]|done]]].
  assert (take k o2 = o) as H2.
  { destruct Hp as [o3 ->]. unfold k, o1. rewrite <-app_assoc. by rewrite take_app_length. }
  eexists. rewrite <-(take_drop k (alter _ k o2)). rewrite Ht, H2. done.
Qed.

(** An object with nothing below it. *)
Lemma builds_leaf {B} c i t d n (out : nat → B) (f : B → list nat) :
  within c n → (is_group t = false → (0 < d)%Z) → (∀ k, f (out k) = [k]) →
  builds c (gives f (λ _ zs, zs = placed_node t i [])) (k ← new_item i t d n; mret (out k)).
Proof.
  intros Hn Hd HR o b o' Ho Hc [= <- <-]. split; [by apply prefix_app_r|].
  assert (ordered (o ++ [Item i t d n []])) as Ho1 by (by apply ordered_snoc, (within_above c)).
  pose proof (new_object o i t d n) as E. split; [done|]. exists [length o].
  assert (flat (o ++ [Item i t d n []]) [length o] = [length o]) as Hf.
  { rewrite flat_one by done. unfold items_of. by rewrite E. }
  split; [|split; rewrite Hf; [apply NoDup_singleton|]; intros k ->%list_elem_of_singleton; split; [done|by eexists]].
  split; [done|]. rewrite placed_one by done. unfold placed_item. rewrite E. unfold items_of. by rewrite E.
Qed.

Definition nothing {A} : A → list nat → list place → Prop := gives (λ _, []) (λ _ i, i = []).

Lemma builds_item k i : builds (Some (k, i)) (λ x l zs, nothing x l zs ∧ id x = i) (the_item k).
Proof.
  intros o a o' Ho (x & Hx & <-). unfold the_item. rewrite Hx. intros [= <- <-].
  split; [done|]. split; [done|]. exists []. split; [done|apply fresh_nil].
Qed.

Lemma concat_firsts {A} (l : list (nat * A)) : List.concat (map (λ x, [x.1]) l) = map fst l.
Proof. induction l as [|x l IH]; [done|]. cbn. by rewrite IH. Qed.

(** * The menu *)

Section heading_induction.
Variable P : heading → Prop.
Hypothesis H : ∀ i n l, Forall P l → P (Heading i n l).

Fixpoint heading_nested_ind (h : heading) : P h :=
  match h with
  | Heading i n l =>
      H i n l ((fix go l : Forall P l :=
        match l with
        | [] => Forall_nil_2 P
        | x :: l' => Forall_cons_2 P x l' (heading_nested_ind x) (go l')
        end) l)
  end.
End heading_induction.

(** Steps that give no items. *)
Lemma builds_lifted {A} c (x : call A) : builds c (λ a l i, nothing a l i ∧ x = Returned a) (lift x).
Proof. by apply builds_lift. Qed.
Tactic Notation "build_lift" ident(a) ident(H) :=
  eapply builds_bind; [apply builds_lifted|intros a ? ? [[-> ->] H]; cbn [app]].

Lemma no_operations {A} (l : list A) zs : Forall2 (λ _ z, z = []) l zs → List.concat zs = ([] : list place).
Proof. induction 1 as [|? ? ? ? -> _ IH]; [done|exact IH]. Qed.

Section menu.
Context (charMap : string → option string) (toLowerCase : string → string)
  (localeCompare : string → string → Z) (marked : string → list (Z * string)) (p : parser).

Definition silent {A} (_ : A) (i : list place) : Prop := i = [].

Lemma builds_pairs {A C} c (I : A → list place → Prop) (g : A → builder (nat * C)) l :
  Forall (λ x, builds c (gives (λ y, [y.1]) (λ _, I x)) (g x)) l →
  builds c (gives (map fst) (λ _ i, ∃ zs, Forall2 I l zs ∧ i = List.concat zs)) (mapM_ g l).
Proof.
  intros H. eapply builds_mono; [|by apply (builds_map _ (λ y : nat * C, [y.1]) I)].
  intros ys k i [-> Hi]. split; [apply concat_firsts|done].
Qed.

Lemma builds_heading h : ∀ c e n, within c e → (0 < n)%Z →
  builds c (gives (λ x, [x.1]) silent) (add_heading e n h).
Proof.
  induction h as [i name below IH] using heading_nested_ind. intros c e n He Hn. cbn [add_heading].
  eapply builds_mono; [|apply (builds_node c i Section_ n e (λ k, mapM_ (add_heading (Some k) (n + 1)%Z) below) (map fst)
    (λ js, js = []) (λ k, (k, Str name)) (λ x, [x.1])); [done|done| |done]].
  - intros x l zs [-> (js & -> & ->)]. done.
  - intros k. eapply builds_mono; [|apply (builds_pairs _ (λ _ i, i = []))].
    + intros x l zs [-> (js & Hj & ->)]. split; [done|by eapply no_operations].
    + eapply Forall_impl; [exact IH|]. intros h Hh. apply Hh; [done|lia].
Qed.

(** The open object or none. *)
Definition part (c' c : option (nat * string)) : Prop := c' = None ∨ c' = c.

Lemma part_within c c' : part c' c → within c (fst <$> c').
Proof. intros [->| ->]; [done|]. destruct c as [[k i]|]; cbn; eauto using within_open, within_none. Qed.

Lemma builds_id c c' : part c' c → builds c (λ x l zs, nothing x l zs ∧ x = snd <$> c') (id_of_item (fst <$> c')).
Proof.
  intros Hc. destruct c' as [[k i]|]; cbn [fst fmap option_fmap option_map id_of_item].
  - destruct Hc as [ | <- ]; [done|]. eapply builds_bind; [apply builds_item|]. intros x l zs [[-> ->] <-]. by apply builds_ret.
  - by apply builds_ret.
Qed.

Lemma builds_markdown c c' e n : part c' c → (0 < n)%Z →
  builds c (gives (map fst) silent) (addMarkdownItems charMap toLowerCase marked e (fst <$> c') n).
Proof.
  intros Hc Hn. unfold addMarkdownItems. eapply builds_bind; [by apply builds_id|]. intros x l zs [[-> ->] ->]. cbn [app].
  build_lift hs Hh. eapply builds_mono; [|apply (builds_pairs _ (λ _ i, i = []))].
  - intros x l i [-> (js & Hj & ->)]. split; [done|by eapply no_operations].
  - apply Forall_forall. intros h _. apply builds_heading; [by apply part_within|done].
Qed.

Lemma sort_named_perm l l' : sort_named localeCompare l = Returned l' → Permutation l' l.
Proof. unfold sort_named. destruct (_ || _); [|done]. intros [= <-]. apply sort_by_perm. Qed.

(** A list of items, sorted if wanted. *)
Lemma builds_sorted c (sorted : bool) l :
  builds c (λ x l' i, l' = [] ∧ i = [] ∧ Permutation l x)
    (if sorted then lift (sort_named localeCompare l) else mret (M := builder) l).
Proof.
  destruct sorted; [apply builds_lift|by apply builds_ret]. intros x Hx%sort_named_perm. by split_and!.
Qed.

Definition operations_with (i : option string) (h : option (item_type * string)) (t : value) (zs : list place) : Prop :=
  ∃ l ids, at_ (own_members t) "operations" = Arr l ∧ Forall2 (λ op z, Tu_id i op = Returned z) l ids ∧
    Permutation zs (map (pair h) ids).

Lemma builds_operations c c' sorted n r : part c' c → (0 < r)%Z →
  builds c (gives (map fst) (λ _, operations_with (snd <$> c') None n)) (getOperationsItems localeCompare sorted (fst <$> c') n r).
Proof.
  intros Hc Hr. unfold getOperationsItems. destruct (at_ _ _) as [| | | | |l|] eqn:E; try by apply builds_lift.
  eapply builds_bind; [by apply builds_id|]. intros x ? ? [[-> ->] ->]. cbn [app].
  eapply (builds_perm _ (λ x k i, Permutation k (map fst x) ∧ ∃ ids, Forall2 (λ op z, Tu_id (snd <$> c') op = Returned z) l ids ∧ i = map (pair None) ids)).
  { intros x k i (Hk & ids & Hi & ->). exists (map fst x). split; [done|]. intros i' Hp. split; [done|].
    exists l, ids. split; [done|]. split; [done|]. by symmetry. }
  eapply builds_bind; [apply (builds_pairs _ (λ op zs, ∃ z, Tu_id (snd <$> c') op = Returned z ∧ zs = [(None, z)]))|].
  - apply Forall_forall. intros op _. unfold operation_item. build_lift i Hi. build_lift name Hn.
    eapply builds_mono; [|apply (builds_leaf _ _ _ _ _ (λ k, (k, name)) (λ x, [x.1])); [by apply part_within|done|done]].
    intros x k zs [-> ->]. split; [done|]. by exists i.
  - intros x k zs [-> (js & Hj & ->)]. eapply builds_mono; [|apply builds_sorted].
    intros y k i (-> & -> & Hy). rewrite !app_nil_r. split; [by apply Permutation_map|].
    clear -Hj. induction Hj as [|op z l js (y & Hy & ->) _ (ids & IH & E)]; [by exists []|].
    exists (y :: ids). split; [by constructor|]. cbn. by rewrite E.
Qed.

Lemma builds_schemas name k i d : (0 ≤ d)%Z →
  builds (Some (k, i)) (gives (λ x, x) silent) (getTagRelatedSchema charMap toLowerCase p name k d).
Proof.
  intros Hd. unfold getTagRelatedSchema. build_lift components Hc. build_lift schemas Hs.
  eapply (builds_bind _ (gives (λ x, List.concat x) silent)).
  - eapply builds_mono; [|apply (builds_map _ (λ x : list nat, x) (λ _ i, i = []))].
    + intros x l js [-> (zs & Hz & ->)]. split; [by rewrite map_id|by eapply no_operations].
    + apply Forall_forall. intros x _. unfold schema_item. build_lift tags Ht. build_lift here Hh.
      destruct here; [|by apply builds_ret]. build_lift j Hj.
      eapply builds_mono; [|apply (builds_leaf _ _ _ _ _ (λ k, [k]) (λ x, x)); [done|lia|done]]. by intros x' l zs [-> ->].
  - intros x l js [-> ->]. apply builds_ret. split; [by rewrite app_nil_r|done].
Qed.
Context (sortTags sortOperations : bool).
Local Notation given_id := (rf_id charMap toLowerCase).
Local Notation items_of_tag := (tag_item charMap toLowerCase localeCompare marked p sortOperations).
Local Notation items_of_tags := (getTagsItems charMap toLowerCase localeCompare marked p sortTags sortOperations).

(** The operations listed for a tag: each once, with the tag's identifier in theirs and as
    items of the tag's item, unless the tag has the empty name. *)
Definition unnamed (t : value) : bool := match get t "name" with Some (Str s) => String.eqb s "" | _ => false end.
Definition tag_operations (t : value) (zs : list place) : Prop :=
  ∃ i, given_id "tag" t = Returned i ∧
    if unnamed t then operations_with None None t zs else operations_with (Some i) (Some (Tag, i)) t zs.

Lemma builds_tag c c' t : part c' c → builds c (gives (map fst) (λ _, tag_operations t)) (items_of_tag (fst <$> c') t).
Proof.
  intros Hc. unfold tag_item. build_lift i Hi. build_lift name Hn. build_lift display Hx. build_lift description Hd.
  assert (get t "name" = Some name) as En by (by destruct (get t "name"); [injection Hn as ->|]).
  assert (∀ zs, (if unnamed t then operations_with None None t zs else operations_with (Some i) (Some (Tag, i)) t zs) →
    tag_operations t zs) as Ht by (by exists i).
  unfold unnamed in Ht. rewrite En in Ht. destruct (match name with Str _ => _ | _ => _ end).
  - apply builds_object; [by apply part_within|]. intros r.
    eapply builds_bind; [apply (builds_markdown _ (Some (r, i))); [by right|done]|]. intros l ? ? [-> ->]. cbn [app].
    eapply builds_bind; [apply (builds_operations _ None); [by left|done]|]. intros m ? zs [-> Hz].
    apply builds_ret. split; [by rewrite app_nil_r, map_app|]. rewrite app_nil_r. by apply Ht.
  - eapply builds_mono; [|apply (builds_node c i Tag 1 _ _ (λ x, x) (operations_with (Some i) None t) (λ k, [(k, either display name)]) (map fst));
      [by apply part_within|done| |done]].
    { intros x l zs [-> (js & (ops & ids & Hops & Hids & Hp) & ->)]. split; [done|]. apply Ht. exists ops, ids. split; [done|].
      split; [done|]. unfold placed_node. cbn [is_operation app]. rewrite Hp, map_map. done. }
    intros r. eapply builds_bind; [apply builds_schemas; lia|]. intros o ? ? [-> ->]. cbn [app].
    eapply builds_bind; [apply (builds_markdown _ (Some (r, i))); [by right|done]|]. intros l ? ? [-> ->]. cbn [app].
    eapply builds_bind; [apply (builds_operations _ (Some (r, i))); [by right|done]|]. intros m ? zs [-> Hz].
    apply builds_ret. split; [by rewrite app_nil_r|]. by rewrite app_nil_r.
Qed.

Lemma concat_pairs (s : list (list (nat * value))) : List.concat (map (map fst) s) = map fst (List.concat s).
Proof. induction s as [|x s IH]; [done|]. cbn. by rewrite map_app, IH. Qed.

(** The operations of the tags with the given names. *)
Definition tags_operations (table : schema) (names : list string) (zs : list place) : Prop :=
  ∃ l ids, listed_tags table names = Returned l ∧ Forall2 tag_operations l ids ∧ Permutation zs (List.concat ids).

Lemma builds_tags c c' table names : part c' c →
  builds c (gives (λ x, x) (λ _, tags_operations table names)) (items_of_tags table (fst <$> c') names).
Proof.
  intros Hc. unfold getTagsItems. build_lift l Hl.
  eapply (builds_perm _ (λ x k i, Permutation k x ∧ ∃ ids, Forall2 tag_operations l ids ∧ i = List.concat ids)).
  { intros x k i (Hk & ids & Hi & ->). exists x. split; [done|]. intros i' Hp. split; [done|].
    exists l, ids. split; [done|]. split; [done|]. by symmetry. }
  eapply (builds_bind _ (gives (λ s, map fst (List.concat s)) (λ _ i, ∃ ids, Forall2 tag_operations l ids ∧ i = List.concat ids))).
  - eapply builds_mono; [|apply (builds_map _ (map fst) tag_operations)].
    + intros s k i [-> Hi]. split; [apply concat_pairs|done].
    + apply Forall_forall. intros t _. by apply builds_tag.
  - intros s k i [-> Hi]. eapply builds_bind; [apply builds_sorted|]. intros y k' i' (-> & -> & Hy). cbn [app].
    apply builds_ret. rewrite !app_nil_r. split; [by apply Permutation_map|done].
Qed.

Lemma builds_group c table a : builds c (gives (λ x, [x]) (λ _ _, True))
  (group_item charMap toLowerCase localeCompare marked p sortTags sortOperations table a).
Proof.
  unfold group_item. build_lift i Hi.
  eapply builds_mono; [|apply (builds_node c i Group 0 None _ (λ x, x) (λ _, True) (λ k, k) (λ x, [x])); [done|done| |done]];
    [by intros x l zs [-> _]|].
  intros n. build_lift tags Ht. build_lift names Hn.
  eapply builds_mono; [|apply (builds_tags _ (Some (n, i))); by right]. by intros x l zs [-> _].
Qed.

(** Whether the document arranges its tags in groups. *)
Definition grouped : bool :=
  match get (spec p) "x-tagGroups" with
  | Some groups => truthy groups && f64_lt f64_zero (to_number (length_of groups))
  | None => false
  end.

Lemma builds_menu fuel : builds None
  (λ x l i, l = x ∧ (grouped = false → ∃ table, getTagsWithOperations p fuel = Returned table ∧
     tags_operations table (enumerated (map fst table)) i))
  (build charMap toLowerCase localeCompare marked p sortTags sortOperations fuel).
Proof.
  unfold build. build_lift table Ht. build_lift info Hi. build_lift description Hd.
  eapply builds_bind; [apply (builds_markdown _ None); [by left|done]|]. intros r ? ? [-> ->]. cbn [app].
  build_lift groups Hg. assert (grouped = truthy groups && f64_lt f64_zero (to_number (length_of groups))) as ->.
  { unfold grouped. by destruct (get (spec p) "x-tagGroups"); [injection Hg as ->|]. }
  eapply (builds_bind _ (λ x l i, l = x ∧ (_ = false → tags_operations table (enumerated (map fst table)) i))).
  2:{ intros l k i [-> Hi']. apply builds_ret. rewrite !app_nil_r. split; [done|]. intros H. exists table. split; [done|by apply Hi']. }
  destruct (truthy groups && _).
  - build_lift l Hl. eapply builds_mono; [|apply (builds_map _ (λ x : nat, [x]) (λ _ _, True))].
    + intros x k i [-> _]. split; [|done]. clear. induction x as [|y x IH]; [done|]. cbn. by f_equal.
    + apply Forall_forall. intros a _. apply builds_group.
  - eapply builds_mono; [|apply (builds_tags _ None); by left]. by intros x l i [-> Hz].
Qed.
End menu.

(** * Operations by tag

    The operations that the walk over the paths comes to, with their tags, in its order. *)
Section operations.
Context (p : parser).

Fixpoint collectM {A B} (f : A → call (list B)) (l : list A) : call (list B) :=
  match l with
  | [] => Returned []
  | x :: l' => y ← f x; ys ← collectM f l'; Returned (y ++ ys)
  end.
Definition item_operations (fuel : nat) (follow : value → call (list (value * list value))) (webhook : bool) (o : string) (a : value)
    : call (list (value * list value)) :=
  verbs ← of_option (object_keys a);
  collectM (λ verb,
    ref ← of_option (get a "$ref");
    if truthy ref then
      '(t, _) ← of_resolution (deref fuel p a [] false);
      follow (Obj [(o, t)])
    else
      s ← of_option (get a verb);
      l ← of_option (tags_of s);
      op ← operation_of webhook o verb a s;
      Returned [(op, l)]) (filter (λ v, ns v = true) verbs).
Fixpoint operations_in (fuel : nat) (webhook : bool) (t : value) : call (list (value * list value)) :=
  match fuel with
  | O => TooDeep
  | S fuel =>
      paths ← of_option (object_keys t);
      collectM (λ o, a ← of_option (get t o); item_operations fuel (operations_in fuel webhook) webhook o a) paths
  end.
(** Those of webhooks come first. *)
Definition walked_operations (fuel : nat) : call (list (value * list value)) :=
  x ← of_option (get (spec p) "x-webhooks");
  w ← of_option (get (spec p) "webhooks");
  paths ← of_option (get (spec p) "paths");
  l ← (if truthy (either x w) then operations_in fuel true (either x w) else Returned [] : call (list (value * list value)));
  m ← (if truthy paths then operations_in fuel false paths else Returned [] : call (list (value * list value)));
  Returned (l ++ m).

Definition push_all : value * list value → schema → call schema := λ x, foldM (push_operation x.1) x.2.

Lemma foldM_app {A S} (f : A → S → call S) l l' s : foldM f (l ++ l') s = call_bind (foldM f l') (foldM f l s).
Proof.
  revert s. induction l as [|x l IH]; intros s; [done|]. cbn [foldM app]. unfold mbind, call_mbind.
  destruct (f x s); [apply IH|done..].
Qed.

(** A walk that pushes as it goes pushes what the walk collects. *)
Lemma foldM_collect {A B S} (f : A → S → call S) (g : A → call (list B)) (h : B → S → call S) l s s' :
  (∀ x s s', f x s = Returned s' → ∃ y, g x = Returned y ∧ foldM h y s = Returned s') →
  foldM f l s = Returned s' → ∃ ys, collectM g l = Returned ys ∧ foldM h ys s = Returned s'.
Proof.
  intros Hf. revert s. induction l as [|x l IH]; intros s; cbn [foldM collectM]; [intros [= <-]; by exists []|].
  unfold mbind, call_mbind. destruct (f x s) as [s1| |] eqn:E; [|done..]. cbn. intros H.
  apply Hf in E as (y & -> & Hy). apply IH in H as (ys & -> & Hys). exists (y ++ ys). split; [done|].
  by rewrite foldM_app, Hy.
Qed.

Lemma add_paths_collect fuel webhook t table table' : add_paths p fuel webhook t table = Returned table' →
  ∃ l, operations_in fuel webhook t = Returned l ∧ foldM push_all l table = Returned table'.
Proof.
  revert t table table'. induction fuel as [|fuel IH]; intros t table table'; [done|]. cbn [add_paths operations_in]. unfold item_operations.
  unfold mbind, call_mbind. destruct (of_option (object_keys t)) as [paths| |]; [|done..]. cbn [call_bind].
  apply foldM_collect. clear table table'. intros o table table'.
  destruct (of_option (get t o)) as [a| |]; [|done..]. cbn [call_bind].
  destruct (of_option (object_keys a)) as [verbs| |]; [|done..]. cbn [call_bind].
  apply foldM_collect. clear table table'. intros verb table table'. unfold add_verb, mbind, call_mbind.
  destruct (of_option (get a verb)) as [s| |]; [|done..]. cbn [call_bind].
  destruct (of_option (get a "$ref")) as [ref| |]; [|done..]. cbn [call_bind]. destruct (truthy ref).
  - destruct (of_resolution _) as [[t' o']| |]; [|done..]. cbn [call_bind]. apply IH.
  - destruct (of_option (tags_of s)) as [l| |]; [|done..]. cbn [call_bind].
    destruct (operation_of _ _ _ _ _) as [op| |]; [|done..]. cbn [call_bind]. intros H. exists [(op, l)]. split; [done|].
    cbn. unfold push_all. cbn. by rewrite H.
Qed.

(** ** The operations of a document

    A path item is one of the webhooks or paths of the document, or what such an item refers
    to; its operations are its own members named like a verb. *)
Definition verbs : list string := ["get"; "post"; "put"; "head"; "patch"; "delete"; "options"].

Inductive path_item (webhook : bool) : string → value → Prop :=
  | item_listed x w paths m o a :
      get (spec p) "x-webhooks" = Some x → get (spec p) "webhooks" = Some w → get (spec p) "paths" = Some paths →
      (if webhook then either x w else paths) = Obj m → field o m = Some a → path_item webhook o a
  | item_referred o m ref k t n :
      path_item webhook o (Obj m) → field "$ref" m = Some ref → truthy ref = true →
      deref k p (Obj m) [] false = Resolved t n → path_item webhook o t.
Definition document_operation (op : value) (tags : list value) : Prop :=
  ∃ webhook o m verb s, path_item webhook o (Obj m) ∧ verb ∈ verbs ∧ field verb m = Some s ∧
    tags_of s = Some tags ∧ operation_of webhook o verb (Obj m) s = Returned op.
(** An item that refers to another has no operations next to the reference. *)
Definition references_alone : Prop := ∀ webhook o m ref verb,
  path_item webhook o (Obj m) → field "$ref" m = Some ref → truthy ref = true → verb ∈ verbs → field verb m = None.

Lemma collectM_sub {A B} (f : A → call (list B)) l ys : collectM f l = Returned ys → ∀ x, x ∈ l →
  ∃ y, f x = Returned y ∧ y ⊆ ys.
Proof.
  revert ys. induction l as [|x l IH]; intros ys; cbn [collectM]; [by intros _ y ?%elem_of_nil|].
  unfold mbind, call_mbind. destruct (f x) as [y| |] eqn:E; [|done..]. cbn [call_bind].
  destruct (collectM f l) as [ys'| |]; [|done..]. cbn [call_bind]. intros [= <-] z [->|Hz]%elem_of_cons.
  - exists y. split; [done|set_solver].
  - destruct (IH ys' eq_refl z Hz) as (y' & ? & ?). exists y'. split; [done|set_solver].
Qed.

Lemma member_key k m (u : value) : field k m = Some u → k ∈ map fst m.
Proof. intros H%field_elem. apply list_elem_of_fmap. by exists (k, u). Qed.

(** The walk comes to every path item. *)
Lemma walked_item fuel ops webhook o a : walked_operations fuel = Returned ops → path_item webhook o a →
  ∃ f l, item_operations f (operations_in f webhook) webhook o a = Returned l ∧ l ⊆ ops.
Proof.
  intros Hops. induction 1 as [x w paths m o a Hx Hw Hpaths Hm Ha|o m ref k t n _ IH Href Htr Hd].
  - assert (∃ l, operations_in fuel webhook (Obj m) = Returned l ∧ l ⊆ ops) as (l & Hl & Hsub).
    { unfold walked_operations, mbind, call_mbind in Hops. rewrite Hx, Hw, Hpaths in Hops. cbn [of_option call_bind] in Hops.
      destruct webhook; rewrite Hm in Hops; cbn [truthy] in Hops.
      - destruct (operations_in fuel true (Obj m)) as [l| |]; [|done..]. cbn [call_bind] in Hops.
        destruct (if truthy paths then _ else _) as [m'| |]; [|done..]. injection Hops as <-. exists l. split; [done|set_solver].
      - destruct (if truthy (either x w) then _ else _) as [l| |]; [|done..]. cbn [call_bind] in Hops.
        destruct (operations_in fuel false (Obj m)) as [m'| |]; [|done..]. injection Hops as <-. exists m'. split; [done|set_solver]. }
    destruct fuel as [|f]; [done|]. cbn [operations_in object_keys is_nullish own_members of_option] in Hl.
    unfold mbind at 1, call_mbind at 1 in Hl. cbn [call_bind] in Hl.
    destruct (collectM_sub _ _ _ Hl o (member_key _ _ _ Ha)) as (y & Hy & Hys).
    cbn [get] in Hy. rewrite Ha in Hy. exists f, y. split; [exact Hy|set_solver].
  - destruct IH as (f & l & Hl & Hsub). unfold item_operations, mbind at 1, call_mbind at 1 in Hl.
    cbn [object_keys is_nullish own_members of_option call_bind] in Hl.
    assert ("$ref" ∈ filter (λ v, ns v = true) (map fst m)) as Hin by (apply list_elem_of_filter; split; [done|by eapply member_key]).
    destruct (collectM_sub _ _ _ Hl _ Hin) as (y & Hy & Hys). cbn [get] in Hy. rewrite Href in Hy.
    unfold mbind, call_mbind in Hy. cbn [default from_option Datatypes.id of_option call_bind] in Hy. rewrite Htr in Hy.
    assert (deref f p (Obj m) [] false ≠ Overflow → deref f p (Obj m) [] false = Resolved t n) as Hdet.
    { intros Hf. rewrite <-(deref_mono f p _ [] false Hf (f `max` k)) by lia. rewrite <-Hd. apply deref_mono; [by rewrite Hd|lia]. }
    destruct (deref f p (Obj m) [] false) as [t' n'| |] eqn:Ed; try done.
    assert (Resolved t' n' = Resolved t n) as [= -> ->] by (by apply Hdet). cbn [of_resolution call_bind] in Hy.
    destruct f as [|f]; [done|]. cbn [operations_in object_keys own_members map fst is_nullish of_option collectM] in Hy.
    unfold mbind, call_mbind in Hy. cbn [get field collectM of_option call_bind] in Hy. rewrite String.eqb_refl in Hy.
    unfold mbind, call_mbind in Hy. cbn [default from_option Datatypes.id of_option call_bind] in Hy.
    destruct (item_operations f (operations_in f webhook) webhook o t) as [y'| |] eqn:Ey; [|done..].
    cbn [call_bind] in Hy. injection Hy as <-. exists f, y'. split; [exact Ey|set_solver].
Qed.

(** Where references stand alone, the walk comes to every operation. *)
Lemma walked_all fuel ops op tags : references_alone → walked_operations fuel = Returned ops → document_operation op tags →
  (op, tags) ∈ ops.
Proof.
  intros Halone Hops (webhook & o & m & verb & s & Hi & Hv & Hs & Htags & Hop).
  destruct (walked_item _ _ _ _ _ Hops Hi) as (f & l & Hl & Hsub).
  apply Hsub. unfold item_operations, mbind at 1, call_mbind at 1 in Hl. cbn [object_keys is_nullish own_members of_option call_bind] in Hl.
  assert (verb ∈ filter (λ v, ns v = true) (map fst m)) as Hin.
  { apply list_elem_of_filter. split; [|by eapply member_key].
    repeat (apply elem_of_cons in Hv as [->|Hv]; [done|]). by apply elem_of_nil in Hv. }
  destruct (collectM_sub _ _ _ Hl _ Hin) as (y & Hy & Hys). cbn [get] in Hy. rewrite Hs in Hy.
  unfold mbind, call_mbind in Hy. cbn [default from_option Datatypes.id of_option call_bind] in Hy.
  destruct (truthy (default Undef (field "$ref" m))) eqn:Etr.
  { destruct (field "$ref" m) as [ref|] eqn:Eref; [|done]. by rewrite (Halone _ _ _ _ _ Hi Eref Etr Hv) in Hs. }
  rewrite Htags in Hy. cbn [of_option call_bind] in Hy. rewrite Hop in Hy. cbn [call_bind] in Hy. injection Hy as <-. apply Hys. by left.
Qed.

(** The operations and the trait mark of a tag in the table. *)
Definition tag_of (k : string) (table : schema) : schema := own_members (at_ table k).
Definition operations_of (k : string) (table : schema) : list value :=
  match at_ (tag_of k table) "operations" with Arr l => l | _ => [] end.
Definition trait (k : string) (table : schema) : bool := truthy (at_ (tag_of k table) "x-traitTag").

(** The copies of an operation that go under a tag. *)
Definition tagged (k : string) (x : value * list value) : list value :=
  map (λ _, x.1) (filter (λ t, to_string t = k) x.2).

Definition objects_only (table : schema) : Prop := Forall (λ kv, ∃ l, kv.2 = Obj l) table.

Lemma objects_only_set k l table : objects_only table → objects_only (set_field k (Obj l) table).
Proof.
  induction 1 as [|[k' v] table Hv Ht IH]; cbn; [constructor; [by exists l|constructor]|].
  destruct (String.eqb k k'); constructor; try done. by exists l.
Qed.

Lemma tag_of_set k k' l table : tag_of k (set_field k' (Obj l) table) = if String.eqb k k' then l else tag_of k table.
Proof. unfold tag_of, at_. rewrite field_set. by destruct (String.eqb k k'). Qed.

Lemma push_operation_spec op e table table' : objects_only table → push_operation op e table = Returned table' →
  objects_only table' ∧ ∀ k, trait k table' = trait k table ∧
    operations_of k table' = operations_of k table ++ (if trait k table then [] else tagged k (op, [e])).
Proof.
  intros Ho. unfold push_operation, mbind, call_mbind. set (j := to_string e).
  assert (∀ k, tagged k (op, [e]) = if String.eqb k j then [op] else []) as Ht.
  { intros k. unfold tagged, j. cbn [fst snd]. rewrite filter_cons. destruct (String.eqb_spec k (to_string e)) as [<-|H].
    - by rewrite decide_True.
    - by rewrite decide_False. }
  assert (∃ l, (match field j table with
    | Some i => Returned i
    | None => if existsb (String.eqb j) inherited then Throws else Returned (Obj [("name", e); ("operations", Arr [])])
    end = Returned (Obj l) ∧ (l = tag_of j table ∨ (l = [("name", e); ("operations", Arr [])] ∧ tag_of j table = []))) ∨
    match field j table with
    | Some i => Returned i
    | None => if existsb (String.eqb j) inherited then Throws else Returned (Obj [("name", e); ("operations", Arr [])])
    end = Throws) as (l & [[-> Hl]|Hth]).
  { unfold tag_of, at_. destruct (field j table) as [i|] eqn:E.
    - apply field_elem in E. assert (∃ l, i = Obj l) as [l ->] by (exact (proj1 (Forall_forall _ _) Ho _ E)).
      exists l. left. split; [done|by left].
    - destruct (existsb _ _); [by exists []; right|]. eexists. left. split; [done|by right]. }
  2:{ by rewrite Hth. }
  cbn [call_bind]. cbn [get of_option call_bind].
  assert (truthy (default Undef (field "x-traitTag" l)) = trait j table ∧
    match at_ l "operations" with Arr l => l | _ => [] end = operations_of j table) as [Htr Hop].
  { unfold trait, operations_of, at_. destruct Hl as [->|[-> ->]]; done. }
  assert (∀ l', objects_only (set_field j (Obj l') (set_field j (Obj l) table))) as Hobj.
  { intros l'. by do 2 apply objects_only_set. }
  rewrite Htr. destruct (trait j table) eqn:Etr.
  - intros [= <-]. split; [by apply objects_only_set|]. intros k. rewrite Ht. unfold trait, operations_of.
    rewrite tag_of_set. destruct (String.eqb_spec k j) as [->|]; [|].
    2:{ split; [done|]. destruct (truthy (at_ (tag_of k table) "x-traitTag")); symmetry; apply app_nil_r. }
    unfold trait in Etr. rewrite Etr, app_nil_r. split; [exact Htr|exact Hop].
  - cbn [own_members]. destruct (at_ l "operations") as [| | | | |ops|] eqn:Eo; try done. intros [= <-].
    split; [apply Hobj|]. intros k. rewrite Ht. unfold trait at 1, operations_of at 1. rewrite !tag_of_set.
    destruct (String.eqb_spec k j) as [->|].
    + rewrite !at_set. cbn [String.eqb]. rewrite Etr. split; [exact Htr|]. by rewrite <-Hop.
    + split; [done|]. destruct (trait k table); by rewrite app_nil_r.
Qed.

Lemma push_tags_spec op l table table' : objects_only table → foldM (push_operation op) l table = Returned table' →
  objects_only table' ∧ ∀ k, trait k table' = trait k table ∧
    operations_of k table' = operations_of k table ++ (if trait k table then [] else tagged k (op, l)).
Proof.
  revert table. induction l as [|e l IH]; intros table Ho; cbn [foldM].
  - intros [= <-]. split; [done|]. intros k. split; [done|]. destruct (trait k table); by rewrite app_nil_r.
  - unfold mbind, call_mbind. destruct (push_operation op e table) as [t1| |] eqn:E; [|done..]. cbn. intros H.
    apply push_operation_spec in E as [Ho1 H1]; [|done]. apply IH in H as [Ho2 H2]; [|done]. split; [done|].
    intros k. destruct (H1 k) as [Et Eo], (H2 k) as [Et2 Eo2]. rewrite Et2, Eo2, Eo, Et. split; [done|].
    destruct (trait k table); [by rewrite !app_nil_r|]. rewrite <-app_assoc. f_equal. unfold tagged. cbn [snd fst].
    rewrite <-map_app, <-filter_app. done.
Qed.

Lemma push_all_spec l table table' : objects_only table → foldM push_all l table = Returned table' →
  objects_only table' ∧ ∀ k, trait k table' = trait k table ∧
    operations_of k table' = operations_of k table ++ (if trait k table then [] else List.concat (map (tagged k) l)).
Proof.
  revert table. induction l as [|[op tags] l IH]; intros table Ho; cbn [foldM].
  - intros [= <-]. split; [done|]. intros k. split; [done|]. destruct (trait k table); by rewrite app_nil_r.
  - unfold mbind, call_mbind. destruct (push_all _ table) as [t1| |] eqn:E; [|done..]. cbn [call_bind]. intros H.
    apply push_tags_spec in E as [Ho1 H1]; [|done]. apply IH in H as [Ho2 H2]; [|done]. split; [done|].
    intros k. destruct (H1 k) as [Et Eo], (H2 k) as [Et2 Eo2]. rewrite Et2, Eo2, Eo, Et. split; [done|].
    destruct (trait k table); [by rewrite !app_nil_r|]. by rewrite <-app_assoc.
Qed.
End operations.

Lemma declared_spec l table table' : objects_only table → (∀ k, operations_of k table = []) →
  foldM declare_tag l table = Returned table' → objects_only table' ∧ ∀ k, operations_of k table' = [].
Proof.
  revert table. induction l as [|e l IH]; intros table Ho Hk; cbn [foldM]; [by intros [= <-]|].
  unfold declare_tag, mbind, call_mbind. destruct (of_option (get e "name")) as [name| |]; [|done..]. cbn [call_bind].
  apply IH; [by apply objects_only_set|]. intros k. unfold operations_of. rewrite tag_of_set.
  destruct (String.eqb k _); [by rewrite at_set|apply Hk].
Qed.

Lemma table_spec p fuel table : getTagsWithOperations p fuel = Returned table →
  ∃ l, walked_operations p fuel = Returned l ∧
    ∀ k, operations_of k table = if trait k table then [] else List.concat (map (tagged k) l).
Proof.
  unfold getTagsWithOperations, walked_operations, mbind, call_mbind.
  destruct (of_option (get (spec p) "x-webhooks")) as [x| |]; [|done..]. cbn [call_bind].
  destruct (of_option (get (spec p) "webhooks")) as [w| |]; [|done..]. cbn [call_bind].
  destruct (of_option (get (spec p) "tags")) as [tags| |]; [|done..]. cbn [call_bind].
  destruct (of_option (iterate_or_empty tags)) as [l| |]; [|done..]. cbn [call_bind].
  destruct (foldM declare_tag l []) as [t0| |] eqn:E0; [|done..]. cbn [call_bind].
  apply declared_spec in E0 as [Ho H0]; [|constructor|done].
  assert (∀ b v t t', (if truthy v then add_paths p fuel b v t else Returned t) = Returned t' →
    ∃ l, (if truthy v then operations_in p fuel b v else Returned []) = Returned l ∧ foldM push_all l t = Returned t') as Hw.
  { intros b v t t'. destruct (truthy v); [apply add_paths_collect|]. intros [= <-]. by exists []. }
  destruct (if truthy (either x w) then _ else Returned t0) as [t1| |] eqn:E1; [|done..]. cbn [call_bind].
  apply Hw in E1 as (l1 & -> & E1). destruct (of_option (get (spec p) "paths")) as [paths| |]; [|done..]. cbn [call_bind].
  intros (l2 & -> & E2)%Hw. cbn [call_bind]. exists (l1 ++ l2). split; [done|].
  assert (foldM push_all (l1 ++ l2) t0 = Returned table) as E by (by rewrite foldM_app, E1).
  apply push_all_spec in E as [_ H]; [|done]. intros k. destruct (H k) as [-> ->]. by rewrite H0.
Qed.

Lemma listed_tags_elem table names k l : listed_tags table names = Returned l → k ∈ names →
  is_Some (field k table) → at_ table k ∈ l.
Proof.
  revert l. induction names as [|k' names IH]; intros l; cbn [listed_tags]; [by intros _ ?%elem_of_nil|].
  unfold mbind, call_mbind. intros H Hk [t Ht].
  destruct (match field k' table with Some _ => _ | None => _ end) as [found| |] eqn:Ef; [|done..]. cbn in H.
  destruct (listed_tags table names) as [rest| |]; [|done..]. cbn in H. injection H as <-. apply elem_of_app.
  apply elem_of_cons in Hk as [->|Hk]; [left|right; by apply IH]. rewrite Ht in Ef. injection Ef as <-.
  unfold at_. rewrite Ht. by left.
Qed.

(** * The menu is made

    Only references among the paths nest calls; without them one level is enough. *)
Definition goes_deep {A} (c : call A) : Prop := c = TooDeep.
Definition plain_paths (t : value) : Prop :=
  ∀ o a, get t o = Some a → truthy (default Undef (get a "$ref")) = false.

Lemma call_bind_returns {A B} (f : A → call B) (c : call A) :
  ¬ goes_deep c → (∀ a, ¬ goes_deep (f a)) → ¬ goes_deep (call_bind f c).
Proof. unfold goes_deep. destruct c; cbn; auto. Qed.

Lemma of_option_returns {A} (o : option A) : ¬ goes_deep (of_option o).
Proof. by destruct o. Qed.

Lemma foldM_returns {A S} (f : A → S → call S) l s : (∀ x s, ¬ goes_deep (f x s)) → ¬ goes_deep (foldM f l s).
Proof.
  intros Hf. revert s. induction l as [|x l IH]; intros s; cbn [foldM]; [done|]. by apply call_bind_returns.
Qed.

Lemma foldM_ext {A S} (f g : A → S → call S) l s : (∀ x s, x ∈ l → f x s = g x s) → foldM f l s = foldM g l s.
Proof.
  revert s. induction l as [|x l IH]; intros s H; [done|]. cbn [foldM]. rewrite H by left. unfold mbind, call_mbind.
  destruct (g x s) as [s'| |]; [|done..]. cbn. apply IH. intros y s1 Hy. apply H. by right.
Qed.

Lemma push_operation_returns op e table : ¬ goes_deep (push_operation op e table).
Proof.
  unfold push_operation. apply call_bind_returns; [by repeat case_match|]. intros i. apply call_bind_returns; [apply of_option_returns|].
  intros v. by repeat case_match.
Qed.

Lemma add_paths_plain p webhook t : plain_paths t →
  ∃ f, (∀ table, ¬ goes_deep (f table)) ∧ ∀ k table, add_paths p (S k) webhook t table = f table.
Proof.
  intros Ht. exists (add_paths p 1 webhook t). split.
  - intros table. cbn [add_paths]. apply call_bind_returns; [apply of_option_returns|]. intros paths.
    apply foldM_returns. intros o s. destruct (get t o) as [a|] eqn:Ea; [|done]. cbn.
    apply call_bind_returns; [apply of_option_returns|]. intros verbs. apply foldM_returns. intros verb s'.
    unfold add_verb. apply call_bind_returns; [apply of_option_returns|]. intros op.
    specialize (Ht o a Ea). destruct (get a "$ref") as [ref|]; [|done]. cbn in Ht |- *. rewrite Ht.
    do 2 (apply call_bind_returns; [first [apply of_option_returns|by unfold operation_of; repeat (apply call_bind_returns;
      [apply of_option_returns|intros ?])]|intros ?]). apply foldM_returns. intros. apply push_operation_returns.
  - intros k table. cbn [add_paths]. unfold mbind, call_mbind. destruct (of_option (object_keys t)) as [paths| |]; [|done..].
    cbn [call_bind]. apply foldM_ext. intros o s _. destruct (get t o) as [a|] eqn:Ea; [|done]. cbn.
    destruct (of_option (object_keys a)) as [verbs| |]; [|done..]. cbn. apply foldM_ext. intros verb s' _.
    unfold add_verb, mbind, call_mbind. destruct (of_option (get a verb)); [|done..]. cbn [call_bind].
    specialize (Ht o a Ea). destruct (get a "$ref") as [ref|]; [|done]. cbn in Ht |- *. by rewrite Ht.
Qed.

(** No path, and no webhook, is a reference. *)
Definition plain_document (p : parser) : Prop :=
  let member k := default Undef (get (spec p) k) in
  plain_paths (either (member "x-webhooks") (member "webhooks")) ∧ plain_paths (member "paths").

Lemma table_ends p : plain_document p → ∃ r, ¬ goes_deep r ∧ ∀ k, getTagsWithOperations p (S k) = r.
Proof.
  unfold plain_document, getTagsWithOperations. intros [Hw Hp].
  destruct (get (spec p) "x-webhooks") as [x|]; [|by exists Throws]. destruct (get (spec p) "webhooks") as [w|]; [|by exists Throws].
  change (plain_paths (either x w)) in Hw. destruct (add_paths_plain p true _ Hw) as (f & Hf & Ef). clear Hw.
  assert (∃ g, (∀ table, ¬ goes_deep (g table)) ∧ ∀ k table,
    call_bind (λ paths, if truthy paths then add_paths p (S k) false paths table else Returned table)
      (of_option (get (spec p) "paths")) = g table) as (g & Hg & Eg).
  { destruct (get (spec p) "paths") as [paths|]; [|by exists (λ _, Throws)]. change (plain_paths paths) in Hp.
    destruct (add_paths_plain p false _ Hp) as (g & Hg & Eg).
    exists (λ table, if truthy paths then g table else Returned table). split; [intros table; by destruct (truthy paths)|].
    intros k table. cbn [of_option call_bind]. by rewrite Eg. }
  unfold mbind, call_mbind. cbn [of_option call_bind].
  destruct (get (spec p) "tags") as [tags|]; [|by exists Throws]. cbn [of_option call_bind].
  destruct (iterate_or_empty tags) as [l|]; [|by exists Throws]. cbn [of_option call_bind].
  assert (¬ goes_deep (foldM declare_tag l [])) as Hl.
  { apply foldM_returns. intros e t. unfold declare_tag. apply call_bind_returns; [apply of_option_returns|done]. }
  destruct (foldM declare_tag l []) as [t| |]; [|by exists Throws|done]. cbn [call_bind].
  exists (call_bind g (if truthy (either x w) then f t else Returned t)). split.
  - apply call_bind_returns; [by destruct (truthy _)|exact Hg].
  - intros k. rewrite Ef. destruct (if truthy (either x w) then f t else Returned t); [apply Eg|done..].
Qed.

(** Computations on the objects that do not nest calls without end. *)
Definition returns {A} (m : builder A) : Prop := ∀ o, ¬ goes_deep (m o).

Lemma returns_bind {A B} (m : builder A) (k : A → builder B) : returns m → (∀ a, returns (k a)) → returns (m ≫= k).
Proof. intros Hm Hk o. apply call_bind_returns; [apply Hm|]. intros [a o']. apply Hk. Qed.

Lemma returns_lift {A} (c : call A) : ¬ goes_deep c → returns (lift c).
Proof. intros Hc o. by apply call_bind_returns. Qed.

Lemma returns_map {A B} (g : A → builder B) l : Forall (λ x, returns (g x)) l → returns (mapM_ g l).
Proof.
  induction 1 as [|x l Hx _ IH]; cbn [mapM_]; [by intros o|]. apply returns_bind; [done|]. intros y.
  apply returns_bind; [exact IH|]. by intros ys o.
Qed.

Lemma the_item_returns k : returns (the_item k).
Proof. intros o. unfold the_item. by destruct (o !! k). Qed.

Create HintDb returns.
Hint Resolve of_option_returns the_item_returns : returns.
Ltac returns := repeat first
  [ progress intros
  | apply call_bind_returns | apply returns_bind | apply returns_lift
  | apply returns_map, Forall_forall | by intros ?o
  | progress auto with returns | case_match | done ].

Section returning.
Context (charMap : string → option string) (toLowerCase : string → string)
  (localeCompare : string → string → Z) (marked : string → list (Z * string)) (p : parser)
  (sortTags sortOperations : bool).

Lemma rf_id_returns kind t : ¬ goes_deep (rf_id charMap toLowerCase kind t).
Proof. unfold rf_id. returns. Qed.

Lemma Tu_returns n t : ¬ goes_deep (Tu_id n t) ∧ ¬ goes_deep (Tu_name t).
Proof. split; [unfold Tu_id|unfold Tu_name]; returns. Qed.

Lemma extract_returns parentId e : ¬ goes_deep (extractHeadings charMap toLowerCase marked parentId e).
Proof. unfold extractHeadings. returns. Qed.

Lemma sort_returns l : ¬ goes_deep (sort_named localeCompare l).
Proof. unfold sort_named. returns. Qed.

Lemma listed_returns table l : ¬ goes_deep (listed_tags table l).
Proof. induction l as [|e l IH]; cbn [listed_tags]; returns. Qed.

Lemma id_of_item_returns t : returns (id_of_item t).
Proof. unfold id_of_item. returns. Qed.

Lemma add_heading_returns h : ∀ e n, returns (add_heading e n h).
Proof.
  induction h as [i name below IH] using heading_nested_ind. intros e n. cbn [add_heading].
  apply returns_bind; [by intros o|]. intros k. apply returns_bind; [|by intros l; apply returns_bind].
  apply returns_map. eapply Forall_impl; [exact IH|]. auto.
Qed.
Hint Resolve rf_id_returns extract_returns sort_returns listed_returns id_of_item_returns add_heading_returns : returns.

Lemma markdown_returns e t n : returns (addMarkdownItems charMap toLowerCase marked e t n).
Proof. unfold addMarkdownItems. returns. Qed.

Lemma operations_returns sorted t n r : returns (getOperationsItems localeCompare sorted t n r).
Proof. unfold getOperationsItems, operation_item. returns; apply Tu_returns. Qed.

Lemma schemas_returns name k d : returns (getTagRelatedSchema charMap toLowerCase p name k d).
Proof. unfold getTagRelatedSchema, schema_item. returns. Qed.
Hint Resolve markdown_returns operations_returns schemas_returns : returns.

Lemma tags_returns table n names :
  returns (getTagsItems charMap toLowerCase localeCompare marked p sortTags sortOperations table n names).
Proof. unfold getTagsItems, tag_item. returns. Qed.
Hint Resolve tags_returns : returns.

(** The menu of a document without references among its paths is made, or the document is
    refused; one level of nesting is enough. *)
Theorem structure_ends : plain_document p → ∃ r, r ≠ TooDeep ∧
  ∀ k, buildStructure charMap toLowerCase localeCompare marked p sortTags sortOperations (S k) = r.
Proof.
  intros (r & Hr & Ek)%table_ends.
  exists (buildStructure charMap toLowerCase localeCompare marked p sortTags sortOperations 1). split.
  - assert (returns (build charMap toLowerCase localeCompare marked p sortTags sortOperations 1)) as H; [|apply (H [])].
    unfold build, group_item. rewrite Ek. returns.
  - intros k. unfold buildStructure, build. by rewrite !Ek.
Qed.
End returning.

(** * Properties *)

(** The operations that the menu has under a tag are those of the document, webhooks
    first and in its order, each as often as it names the tag; operations without tags are
    under the empty name. A tag that is marked as a trait has none. *)
Theorem operations_grouped (p : parser) (fuel : nat) (table : schema) :
  getTagsWithOperations p fuel = Returned table →
  ∃ l, walked_operations p fuel = Returned l ∧
    ∀ k, operations_of k table = if trait k table then [] else List.concat (map (tagged k) l).
Proof. apply table_spec. Qed.

Section properties.
Context (charMap : string → option string) (toLowerCase : string → string)
  (localeCompare : string → string → Z) (marked : string → list (Z * string)) (p : parser)
  (sortTags sortOperations : bool).
Local Notation structure_of := (buildStructure charMap toLowerCase localeCompare marked p sortTags sortOperations).

Lemma built fuel l objects : structure_of fuel = Returned (l, objects) →
  ordered objects ∧ fresh 0 objects l ∧
  (grouped p = false → ∃ table, getTagsWithOperations p fuel = Returned table ∧
     tags_operations charMap toLowerCase table (enumerated (map fst table)) (placed objects l)).
Proof.
  intros H. destruct (builds_menu charMap toLowerCase localeCompare marked p sortTags sortOperations fuel [] l objects)
    as (_ & Ho & k & [-> Hg] & Hf); [by intros k x ?|done|exact H|]. done.
Qed.

Lemma structure_built fuel l objects : structure_of fuel = Returned (l, objects) → WellBuilt objects l.
Proof.
  intros (Ho & [Hn Hf] & _)%built. split.
  - exact Hn.
  - intros k Hk Hg. destruct (Hf k Hk) as (_ & x & Hx & Hd). unfold type_of in Hg. rewrite Hx in *. by apply Hd.
  - intros k j. unfold parent_of. destruct (objects !! k) as [x|] eqn:Hx; [|done]. cbn. by apply Ho.
Qed.

(** [C17] Whatever the document, the menu that is made from it is sound: no item is listed
    twice, parents come first and all but groups are below the root; so that however it is
    used, at most one item is active, the one at the index, with what is above it open. *)
Theorem structure_sound (fuel : nat) (l : list nat) (objects : list menu_item) :
  structure_of fuel = Returned (l, objects) →
  WellBuilt objects l ∧ ∀ m, reachable objects l m → menu_ok objects l m.
Proof. intros H%structure_built. split; [exact H|]. intros m Hm. by apply reachable_ok. Qed.

(** [C8] Nothing is missing from the menu: unless the document arranges its tags in groups, each
    operation of a path or webhook, its own or one of what it refers to, is listed once more for each of its
    tags that is not a trait, with the identifier that the tag gives it: among the items of an item for the
    tag, or at the top of the menu under the empty name. A path item that refers to another must not have
    operations of its own next to the reference: those are lost ([reference_listed_twice]). *)
Theorem operations_listed (fuel : nat) (l : list nat) (objects : list menu_item) :
  grouped p = false → references_alone p → structure_of fuel = Returned (l, objects) →
  ∃ table, getTagsWithOperations p fuel = Returned table ∧
    ∀ op tags t, document_operation p op tags → t ∈ tags → trait (to_string t) table = false →
      let tag := at_ table (to_string t) in
      ∃ i z, rf_id charMap toLowerCase "tag" tag = Returned i ∧
        Tu_id (if unnamed tag then None else Some i) op = Returned z ∧
        if unnamed tag then operation_at objects l z
        else ∃ j x, j ∈ flat objects l ∧ objects !! j = Some x ∧ type x = Tag ∧ id x = i ∧ operation_at objects (items x) z.
Proof.
  intros Hg Halone (Ho & Hf & H)%built. destruct (H Hg) as (table & Ht & tags & ids & Hl & Hi & Hp).
  destruct (table_spec p fuel table Ht) as (ops & Hops & Hk). exists table. split; [done|].
  intros op ts t Hop Hts Htr. apply (walked_all _ _ _ _ _ Halone Hops) in Hop. specialize (Hk (to_string t)). rewrite Htr in Hk.
  assert (op ∈ operations_of (to_string t) table) as Hin.
  { rewrite Hk. apply list_elem_of_In, in_concat. exists (tagged (to_string t) (op, ts)). split.
    - by apply (in_map (tagged _) _ (op, ts)), list_elem_of_In.
    - apply list_elem_of_In. unfold tagged. apply list_elem_of_fmap. exists t. split; [done|]. by apply list_elem_of_filter. }
  unfold operations_of, tag_of in Hin. destruct (field (to_string t) table) as [tag|] eqn:Etag.
  2:{ unfold at_ at 2 in Hin. rewrite Etag in Hin. by apply elem_of_nil in Hin. }
  assert (at_ table (to_string t) ∈ tags) as Htag.
  { eapply listed_tags_elem; [exact Hl| |by eexists]. unfold enumerated. rewrite sort_by_perm.
    apply list_elem_of_fmap. exists (to_string t, tag). split; [done|]. by apply field_elem. }
  apply list_elem_of_lookup in Htag as [n Hn]. destruct (Forall2_lookup_l _ _ _ _ _ Hi Hn) as (zs & Hzs & i & Hri & Hw).
  assert (operations_with (if unnamed (at_ table (to_string t)) then None else Some i)
    (if unnamed (at_ table (to_string t)) then None else Some (Tag, i)) (at_ table (to_string t)) zs) as (l' & is_ & Hl' & Hids & Hperm)
    by (by destruct (unnamed _)).
  rewrite Hl' in Hin. apply list_elem_of_lookup in Hin as [j Hj]. destruct (Forall2_lookup_l _ _ _ _ _ Hids Hj) as (z & Hz & HTu).
  exists i, z. split; [done|]. split; [done|].
  assert ((if unnamed (at_ table (to_string t)) then None else Some (Tag, i), z) ∈ placed objects l) as Hplace.
  { rewrite Hp. apply list_elem_of_In, in_concat. exists zs. split; [by eapply list_elem_of_In, list_elem_of_lookup_2|].
    apply list_elem_of_In. rewrite Hperm. apply list_elem_of_fmap. exists z. split; [done|]. by eapply list_elem_of_lookup_2. }
  apply placed_listed in Hplace. by destruct (unnamed _).
Qed.
End properties.

(** * Examples *)

Definition demo_marked (s : string) : list (Z * string) :=
  if String.eqb s "Welcome" then [(1%Z, "About"); (2%Z, "The &#39;team&#39;"); (1%Z, "Terms")] else [].
Definition demo_operation (name : string) (tags : list string) : value :=
  Obj [("operationId", Str name); ("summary", Str name); ("tags", Arr (map Str tags))].
Definition demo_api : value := Obj [
  ("openapi", Str "3.0.0");
  ("info", Obj [("title", Str "Pets"); ("description", Str "Welcome")]);
  ("tags", Arr [Obj [("name", Str "pet"); ("x-displayName", Str "Pets")]]);
  ("paths", Obj [
    ("/pets", Obj [("get", demo_operation "list" ["pet"]); ("post", demo_operation "add" ["pet"; "admin"])]);
    ("/health", Obj [("summary", Str "Is it up?"); ("get", Obj [("summary", Str "health")])])])].
Definition demo_structure : call (list nat * list menu_item) :=
  buildStructure (λ _, None) (λ s, s) (λ _ _, 0%Z) demo_marked (Parser demo_api false []) false false 3.


Example demo_listed :
  match demo_structure with
  | Returned (l, objects) =>
      l = [0; 2; 3; 6; 9] ∧ map (λ k, id <$> objects !! k) (flat objects l) = map Some
        ["section/About"; "section/About/The-'team'"; "section/Terms"; "tag/pet"; "tag/pet/operation/list";
         "tag/pet/operation/add"; "tag/admin"; "tag/admin/operation/add"; "/paths/~1health/get"]
  | _ => False
  end.
Proof. vm_compute. done. Qed.

(** A tag that is not declared and has the name of a member that objects inherit breaks the
    whole page: its operations are pushed to a function. *)
Example tag_constructor_throws :
  getTagsWithOperations (Parser (Obj [("paths", Obj [("/x", Obj [("get", demo_operation "x" ["constructor"])])])]) false []) 3
  = Throws.
Proof. vm_compute. reflexivity. Qed.

(** The operations of a path that is a reference are listed once for the reference and once
    more for each verb next to it. *)
Example reference_listed_twice :
  let api := Obj [
    ("paths", Obj [("/x", Obj [("$ref", Str "#/components/pathItems/x"); ("get", Obj [])])]);
    ("components", Obj [("pathItems", Obj [("x", Obj [("put", demo_operation "x" ["a"])])])])] in
  match getTagsWithOperations (Parser api true []) 4 with
  | Returned table => map (λ op, get op "httpVerb") (operations_of "a" table) = [Some (Str "put"); Some (Str "put")]
  | _ => False
  end.
Proof. vm_compute. done. Qed.

(** * Witnesses *)

Lemma operations_grouped_witness : ∃ table,
  getTagsWithOperations (Parser demo_api false []) 3 = Returned table ∧
  map (λ op, get op "pointer") (operations_of "pet" table) =
    [Some (Str "/paths/~1pets/get"); Some (Str "/paths/~1pets/post")].
Proof.
  destruct (getTagsWithOperations (Parser demo_api false []) 3) as [table| |] eqn:E; [|vm_compute in E; discriminate E..].
  exists table. split; [reflexivity|]. destruct (operations_grouped _ _ _ E) as (l & Hl & H).
  rewrite (H "pet"). vm_compute in E. injection E as <-. vm_compute in Hl. injection Hl as <-. vm_compute. reflexivity.
Defined.

Lemma structure_sound_witness : ∃ l objects, demo_structure = Returned (l, objects) ∧
  menu_ok objects l (click objects l true 4 (initial objects)).
Proof.
  destruct demo_structure as [[l objects]| |] eqn:E; [|vm_compute in E; discriminate E..].
  exists l, objects. split; [reflexivity|].
  apply (structure_sound (λ _, None) (λ s, s) (λ _ _, 0%Z) demo_marked (Parser demo_api false []) false false 3 l objects E).
  eapply reachable_step; [apply reachable_initial|]. apply step_click.
  vm_compute in E. injection E as <- <-. vm_compute. do 4 right. left.
Defined.

Lemma demo_alone : references_alone (Parser demo_api false []).
Proof.
  assert (∀ webhook o a, path_item (Parser demo_api false []) webhook o a → ∃ m, a = Obj m ∧ field "$ref" m = None) as H.
  { intros webhook o a. induction 1 as [x w paths m o a Hx Hw Hpaths Hm Ha|o m ref k t n _ IH Href _ _].
    - vm_compute in Hx, Hw, Hpaths. injection Hx as <-. injection Hw as <-. injection Hpaths as <-.
      destruct webhook; [vm_compute in Hm; discriminate Hm|]. injection Hm as <-.
      apply field_elem in Ha. repeat (apply elem_of_cons in Ha as [[= -> ->]|Ha]; [eexists; split; reflexivity|]).
      by apply elem_of_nil in Ha.
    - destruct IH as (m' & [= <-] & Hn). congruence. }
  intros webhook o m ref verb Hi Href _ _. destruct (H _ _ _ Hi) as (m' & [= <-] & Hn). congruence.
Qed.

Lemma operations_listed_witness : ∃ l objects, demo_structure = Returned (l, objects) ∧
  ∃ j x, objects !! j = Some x ∧ id x = "tag/admin" ∧ operation_at objects (items x) "tag/admin/operation/add".
Proof.
  destruct demo_structure as [[l objects]| |] eqn:E; [|vm_compute in E; discriminate E..].
  exists l, objects. split; [reflexivity|].
  destruct (operations_listed (λ _, None) (λ s, s) (λ _ _, 0%Z) demo_marked (Parser demo_api false []) false false 3 l objects
    eq_refl demo_alone E) as (table & Ht & H).
  vm_compute in Ht. injection Ht as <-.
  assert (∃ op, document_operation (Parser demo_api false []) op [Str "pet"; Str "admin"] ∧ get op "operationId" = Some (Str "add") ∧
    get op "pointer" = Some (Str "/paths/~1pets/post")) as (op & Hop & H1 & H2).
  { eexists. split; [|split].
    - exists false, "/pets". eexists _, "post", _. split; [eapply item_listed; reflexivity|].
      split; [right; left|]. split; [reflexivity|]. split; reflexivity.
    - reflexivity.
    - reflexivity. }
  destruct (H op _ (Str "admin") Hop ltac:(right; left) eq_refl) as (i & z & Hi & Hz & j & x & _ & Hx & _ & Hid & Hat).
  vm_compute in Hi. injection Hi as <-. unfold Tu_id in Hz. rewrite H1, H2 in Hz. vm_compute in Hz. injection Hz as <-.
  exists j, x. split; [exact Hx|]. split; [exact Hid|exact Hat].
Defined.
