(* ===== verification/RedocScroll.v ===== *)
(** The scrolling of the page (the class [Sf] of the bundle): the listener compares the
    position with the one it saw last and tells the menu whether the page went down. It is
    called at most once in 100 milliseconds: a call that comes too early is put off with a
    timer, and a scroll while a timer is pending waits for it. *)
From S2P Require Import Prelude.
From Stdlib Require Import Sorted.
Local Open Scope Z_scope.

(** * The listener *)

(** The position of the page, the position the listener saw last, the time of its last call,
    the time the pending timer is due, and the calls so far: when, and whether downwards. *)
Record scroller : Type := Scroller {
  pageYOffset : Z;
  _prevOffsetY : Z;
  lastCall : Z;
  timer : option Z;
  emitted : list (Z * bool)
}.

(** [handleScroll], as the throttle calls it at a time. *)
Definition handleScroll (now : Z) (s : scroller) : scroller :=
  let e := 0 <? pageYOffset s - _prevOffsetY s in
  Scroller (pageYOffset s) (pageYOffset s) now None (emitted s ++ [(now, e)]).
(** The throttle: the event itself, and the timer. *)
Definition throttled (now : Z) (s : scroller) : scroller :=
  let l := 100 - (now - lastCall s) in
  if (l <=? 0) || (100 <? l) then handleScroll now s
  else
    match timer s with
    | Some _ => s
    | None => Scroller (pageYOffset s) (_prevOffsetY s) (lastCall s) (Some (now + l)) (emitted s)
    end.

(** What happens: the page moves to a position, or the timer fires, which is never before it
    is due. *)
Inductive happening : Type := Moved (y : Z) | Fired.
Definition happens (now : Z) (h : happening) (s : scroller) : option scroller :=
  match h with
  | Moved y => Some (throttled now (Scroller y (_prevOffsetY s) (lastCall s) (timer s) (emitted s)))
  | Fired =>
      match timer s with
      | Some due => if due <=? now then Some (handleScroll now s) else None
      | None => None
      end
  end.
Fixpoint happen (l : list (Z * happening)) (s : scroller) : option scroller :=
  match l with
  | [] => Some s
  | (now, h) :: l' => s ← happens now h s; happen l' s
  end.
(** [bind], with the throttle's clock at 0. *)
Definition bind_scroll (y : Z) : scroller := Scroller y y 0 None [].

(** * Laws *)

Definition apart (x y : Z * bool) : Prop := x.1 + 100 <= y.1.
Record scroller_ok (now : Z) (s : scroller) : Prop := {
  calls_apart : StronglySorted apart (emitted s);
  calls_before : Forall (λ x, x.1 <= lastCall s) (emitted s);
  last_before : lastCall s <= now;
  timer_due d : timer s = Some d → d = lastCall s + 100;
  seen_or_due : timer s = None → _prevOffsetY s = pageYOffset s
}.

Lemma strongly_sorted_snoc {A} (R : A → A → Prop) l x : StronglySorted R l → Forall (λ y, R y x) l → StronglySorted R (l ++ [x]).
Proof.
  induction 1 as [|y l Hs IH Hl]; cbn; [by repeat constructor|]. intros [Hy Hx]%Forall_cons. constructor; [by apply IH|].
  apply Forall_app. split; [done|by repeat constructor].
Qed.

Lemma handleScroll_ok now s : StronglySorted apart (emitted s) → Forall (λ x, x.1 <= lastCall s) (emitted s) →
  lastCall s + 100 <= now → scroller_ok now (handleScroll now s).
Proof.
  intros Ha Hb Hn. assert (Forall (λ x, apart x (now, true)) (emitted s)) as Hap.
  { eapply Forall_impl; [exact Hb|]. intros x Hx. unfold apart. cbn in *. lia. }
  split; cbn; try done; try lia.
  - apply strongly_sorted_snoc; [done|]. eapply Forall_impl; [exact Hap|]. done.
  - apply Forall_app. split; [|by repeat constructor]. eapply Forall_impl; [exact Hb|]. cbn. lia.
Qed.

Lemma happens_ok now now' h s s' : scroller_ok now s → now <= now' → happens now' h s = Some s' → scroller_ok now' s'.
Proof.
  intros Hs Hn. assert (scroller_ok now' s) as Hs' by (destruct Hs; split; try done; lia).
  destruct h as [y|]; cbn [happens].
  - intros [= <-]. unfold throttled. cbn. destruct Hs' as [Ha Hb Hl Ht Hd].
    destruct (Z.leb_spec (100 - (now' - lastCall s)) 0) as [Hz|Hz]; cbn [orb].
    + apply handleScroll_ok; [done..|cbn; lia].
    + destruct (Z.ltb_spec 100 (100 - (now' - lastCall s))); [lia|].
      destruct (timer s) as [d|] eqn:Et; split; cbn; try done.
      intros d [= <-]. lia.
  - destruct (timer s) as [d|] eqn:Et; [|done]. destruct (Z.leb_spec d now'); [|done]. intros [= <-].
    pose proof (timer_due _ _ Hs' d Et). apply handleScroll_ok; [apply Hs'..|lia].
Qed.

(** However the page is scrolled, the listener is called at most once in 100 milliseconds,
    and no movement is lost: when no timer is pending the listener has seen the position
    of the page, and a pending timer is due within 100 milliseconds of its last call. *)
Theorem scroll_throttled (y : Z) (l : list (Z * happening)) (s : scroller) :
  Forall (λ x, 0 <= x.1) l → StronglySorted (λ x x' : Z * happening, x.1 <= x'.1) l →
  happen l (bind_scroll y) = Some s →
  StronglySorted apart (emitted s) ∧
  match timer s with Some due => due = lastCall s + 100 | None => _prevOffsetY s = pageYOffset s end.
Proof.
  assert (∀ now s0 s, scroller_ok now s0 → Forall (λ x, now <= x.1) l → StronglySorted (λ x x' : Z * happening, x.1 <= x'.1) l →
    happen l s0 = Some s → ∃ now, scroller_ok now s) as H.
  { induction l as [|[t h] l IH]; intros now s0 s' H0 Hl Hs; cbn [happen]; [intros [= <-]; by exists now|].
    destruct (happens t h s0) as [s1|] eqn:E; [|done]. cbn. apply Forall_cons in Hl as [Ht Hl]. inversion Hs as [|? ? Hs' Hf]; subst.
    apply (IH t); [by eapply happens_ok|by eapply Forall_impl; [exact Hf|]|done]. }
  intros Hl Hs Hr. destruct (H 0 (bind_scroll y) s) as [now [Ha _ _ Ht Hd]]; [by repeat constructor|done..|].
  split; [done|]. destruct (timer s); auto.
Qed.

(** A burst of movements: the first and the last position are handled. *)
Lemma scroll_throttled_witness : ∃ s,
  happen [(1000, Moved 10); (1030, Moved 25); (1090, Moved 5); (1101, Fired)] (bind_scroll 0) = Some s ∧
  emitted s = [(1000, true); (1101, false)] ∧ _prevOffsetY s = pageYOffset s.
Proof.
  eexists. split; [vm_compute; reflexivity|]. split; [reflexivity|].
  destruct (scroll_throttled 0 [(1000, Moved 10); (1030, Moved 25); (1090, Moved 5); (1101, Fired)]
    (Scroller 5 5 1101 None [(1000, true); (1101, false)])) as [_ H];
    [repeat constructor; cbn; lia|repeat constructor; cbn; lia|vm_compute; reflexivity|exact H].
Defined.
