(* ===== verification/RedocRequests.v ===== *)
(** What Redoc shows of an operation: its parameters, those of the path overridden by its
    own and sorted as the options say; its responses and what their codes mean; and its
    code samples (the classes [Tu], [Eu] and [hu] of the bundle). *)
From S2P Require Import Prelude GoStrings.
From S2P Require Import Float64 JsNumber JsValue RedocJson JsArray JsonPointer RedocParser RedocAllOf.
From S2P Require Import RedocMenuStore RedocStructure.
From Stdlib Require Import Sorted.
Local Open Scope Z_scope.

(** * Sorting fields *)

(** A field as far as sorting reads it: its name, whether it is required, and what it is
    made from. *)
Record field_info : Type := Field { field_name : value; field_required : bool; field_source : value }.

(** [t.indexOf(name)]. *)
Fixpoint index_of (l : list value) (v : value) : Z :=
  match l with
  | [] => -1
  | w :: l' => if strict_eq w v then 0 else let k := index_of l' v in if k =? -1 then -1 else k + 1
  end.
(** [gs]: required fields that are listed, in the order of the list; other required fields;
    the rest. *)
Definition listed (t : list value) (x : field_info) : bool := existsb (λ v, same_value v (field_name x)) t.
Definition by_index (t : list value) (x y : field_info) : Z := index_of t (field_name x) - index_of t (field_name y).
Definition gs (e : list field_info) (t : list value) : list field_info :=
  sort_by (by_index t) (filter (λ x, field_required x && listed t x = true) e) ++
  filter (λ x, field_required x && negb (listed t x) = true) e ++
  filter (λ x, field_required x = false) e.
(** [ys(e, "name")]: only texts can be compared. *)
Definition ys (localeCompare : string → string → Z) (e : list field_info) : call (list field_info) :=
  if (length e <=? 1)%nat || forallb (λ x, is_text (field_name x)) e then
    Returned (sort_by (λ x y, localeCompare (to_string (field_name x)) (to_string (field_name y))) e)
  else Throws.

Section requests.
Context (localeCompare : string → string → Z) (p : parser).

(** * Parameters *)

(** The key under which a parameter overrides another. *)
Definition parameter_key (fuel : nat) (e : value) : call string :=
  '(t, _) ← of_resolution (deref fuel p e [] false);
  name ← of_option (get t "name");
  place ← of_option (get t "in");
  Returned (to_string name +:+ "_" +:+ to_string place).
Fixpoint keys_of (fuel : nat) (l : list value) : call (list string) :=
  match l with
  | [] => Returned []
  | e :: l' => k ← parameter_key fuel e; ks ← keys_of fuel l'; Returned (k :: ks)
  end.
(** The parameters of the path that the operation does not override, then its own. *)
Fixpoint not_overridden (fuel : nat) (keys : list string) (l : list value) : call (list value) :=
  match l with
  | [] => Returned []
  | e :: l' =>
      k ← parameter_key fuel e;
      rest ← not_overridden fuel keys l';
      Returned (if existsb (String.eqb k) (keys ++ inherited) then rest else e :: rest)
  end.
Definition merge_parameters (fuel : nat) (t n : list value) : call (list value) :=
  keys ← keys_of fuel n;
  l ← not_overridden fuel keys t;
  Returned (l ++ n).

(** The constructor of [Uc]: the name and the mark of a field. *)
Definition field_of (fuel : nat) (e : value) : call field_info :=
  '(u, _) ← of_resolution (deref fuel p e [] false);
  name ← of_option (get e "name");
  name' ← of_option (get u "name");
  required ← of_option (get u "required");
  Returned (Field (either name name') (truthy required) e).
Fixpoint fields_of (fuel : nat) (l : list value) : call (list field_info) :=
  match l with
  | [] => Returned []
  | e :: l' => x ← field_of fuel e; xs ← fields_of fuel l'; Returned (x :: xs)
  end.
(** [Tu.parameters]. *)
Definition parameters (sortProps requiredFirst : bool) (fuel : nat) (t n : list value) : call (list field_info) :=
  l ← merge_parameters fuel t n;
  e ← fields_of fuel l;
  if sortProps : bool then ys localeCompare e else Returned (if requiredFirst then gs e [] else e).
End requests.

(** * Responses *)

Inductive status : Type := Success | Redirect | Error_ | Info.

(** [Ja]: [/\dxx/i], anywhere in the text. *)
Fixpoint Ja (e : string) : bool :=
  match e with
  | String a t =>
      (is_digit a && match t with
                     | String b (String c _) => Ascii.eqb (to_lower_byte b) "x" && Ascii.eqb (to_lower_byte c) "x"
                     | _ => false
                     end) || Ja t
  | EmptyString => false
  end.
(** [es]: an invalid code throws; what is not a number passes for a success. *)
Definition es (e : string) (defaultAsError : bool) : option status :=
  if String.eqb e "default" then Some (if defaultAsError then Error_ else Success)
  else
    let n := parseInt e in
    let n := if Ja e then f64_mul n (f64_of_int 100) else n in
    let less x y := f64_lt x (f64_of_int y) in
    let at_least x y := negb (f64_lt x (f64_of_int y)) && negb (f64_is_nan x) in
    if less n 100 || f64_lt (f64_of_int 599) n then None
    else Some (if at_least n 300 && less n 400 then Redirect
               else if at_least n 400 then Error_
               else if less n 200 then Info
               else Success).

(** [li]. *)
Definition li (e : string) : bool :=
  let finite x := match x with SpecFloat.S754_finite _ _ _ | SpecFloat.S754_zero _ => true | _ => false end in
  negb (f64_is_nan (parseFloat e)) && finite (string_to_number e).
(** The keys that [Tu.responses] shows, and whether one of the keys passes for a success. *)
Fixpoint response_codes (l : list string) : option (list string * bool) :=
  match l with
  | [] => Some ([], false)
  | t :: l' =>
      if String.eqb t "default" then '(ts, b) ← response_codes l'; Some (t :: ts, b)
      else
        s ← es t false;
        '(ts, b) ← response_codes l';
        let success := match s with Success => true | _ => false end in
        Some (if li t || Ja t then t :: ts else ts, success || b)
  end.
(** [Tu.responses]: the codes shown, with their types. *)
Fixpoint typed (defaultAsError : bool) (l : list string) : option (list (string * status)) :=
  match l with
  | [] => Some []
  | t :: l' => s ← es t defaultAsError; r ← typed defaultAsError l'; Some ((t, s) :: r)
  end.
Definition responses (codes : list string) : option (list (string * status)) :=
  '(shown, success) ← response_codes codes;
  typed success shown.

(** * Code samples *)

(** [Tu.codeSamples]: the samples of the document with the request's payload among them;
    [slice] counts from the end if its index is negative. *)
Definition slice_start (n : Z) (l : list value) : nat :=
  Z.to_nat (if n <? 0 then Z.max 0 (Z.of_nat (length l) + n) else Z.min n (Z.of_nat (length l))).
Definition codeSamples (samples : list value) (payload : option value) (payloadSampleIdx : Z) (hidden : bool) : list value :=
  match payload with
  | Some x =>
      if hidden : bool then samples
      else
        let t := Z.min (Z.of_nat (length samples)) payloadSampleIdx in
        take (slice_start t samples) samples ++ x :: drop (slice_start t samples) samples
  | None => samples
  end.

(** * Laws

    Laws of what Redoc shows of an operation: no parameter is lost or shown twice, the
    sorted order, and the meaning of response codes. *)
Local Open Scope Z_scope.

(** * Response codes *)

(** A key of a document's responses: a code or the default. *)
Definition key_text (c : option Z) : string := match c with Some z => decimal z | None => "default" end.
Definition valid_code (c : option Z) : Prop := match c with Some z => 100 ≤ z ≤ 599 | None => True end.
(** What codes mean, after RFC 9110. *)
Definition class_of (z : Z) : status :=
  if z <? 200 then Info else if z <? 300 then Success else if z <? 400 then Redirect else Error_.
Definition succeeds (c : option Z) : bool := match c with Some z => (200 <=? z) && (z <? 300) | None => false end.
Definition meaning (success : bool) (c : option Z) : status :=
  match c with Some z => class_of z | None => if success then Error_ else Success end.

Definition eqb_status (s t : status) : bool :=
  match s, t with Success, Success | Redirect, Redirect | Error_, Error_ | Info, Info => true | _, _ => false end.

Lemma codes_checked : forallb (λ z,
  match es (decimal z) false, es (decimal z) true with
  | Some s, Some t => eqb_status s (class_of z) && eqb_status t (class_of z)
  | _, _ => false
  end && negb (String.eqb (decimal z) "default") && li (decimal z)) (seqZ 100 500) = true.
Proof. vm_compute. reflexivity. Qed.

Lemma code_typed z b : 100 ≤ z ≤ 599 →
  es (decimal z) b = Some (class_of z) ∧ String.eqb (decimal z) "default" = false ∧ li (decimal z) = true.
Proof.
  intros Hz. pose proof codes_checked as H. rewrite forallb_forall in H.
  specialize (H z). rewrite <-list_elem_of_In, elem_of_seqZ in H. specialize (H ltac:(lia)).
  apply andb_true_iff in H as [[H Hd]%andb_true_iff Hl]. apply negb_true_iff in Hd.
  destruct (es (decimal z) false) as [s|] eqn:E1, (es (decimal z) true) as [t|] eqn:E2; try done.
  apply andb_true_iff in H as [Hs Ht]. split; [|done].
  assert (∀ s s', eqb_status s s' = true → s = s') as He by (by intros [] []). apply He in Hs as ->. apply He in Ht as ->. by destruct b.
Qed.

Lemma response_codes_spec codes : Forall valid_code codes →
  response_codes (map key_text codes) = Some (map key_text codes, existsb succeeds codes).
Proof.
  induction 1 as [|[z|] codes Hz _ IH]; [done| |]; cbn [map response_codes existsb key_text].
  - destruct (code_typed z false Hz) as (-> & Hd & Hl). rewrite Hd. cbn [mbind option_bind].
    rewrite IH. cbn [mbind option_bind]. rewrite Hl. cbn [orb]. do 2 f_equal. cbn in Hz. unfold succeeds, class_of. f_equal. by zbool; try lia.
  - cbn. by rewrite IH.
Qed.

(** The responses of an operation are all shown, each with the meaning of its code; the
    default response stands for errors just if there is a response for success. *)
Theorem responses_meaning (codes : list (option Z)) : Forall valid_code codes →
  responses (map key_text codes) = Some (map (λ c, (key_text c, meaning (existsb succeeds codes) c)) codes).
Proof.
  intros H. unfold responses. rewrite response_codes_spec by done. cbn. generalize (existsb succeeds codes). intros b.
  induction H as [|[z|] codes Hz _ IH]; [done| |]; cbn [map typed key_text].
  - destruct (code_typed z b Hz) as (-> & _). cbn. by rewrite IH.
  - cbn. by rewrite IH.
Qed.

(** * Parameters *)

Definition locations : list string := ["path"; "query"; "header"; "cookie"].

Fixpoint last_char (s : string) : option ascii :=
  match s with
  | EmptyString => None
  | String a t => match t with EmptyString => Some a | _ => last_char t end
  end.

Lemma last_char_app s a t : last_char (s +:+ String a t) = last_char (String a t).
Proof.
  induction s as [|b s IH]; [done|]. rewrite string_app_cons. cbn [last_char]. rewrite IH. by destruct s.
Qed.

(** A parameter is told apart by its name and its place. *)
Lemma parameter_key_inj n n' i i' : i ∈ locations → i' ∈ locations →
  n +:+ "_" +:+ i = n' +:+ "_" +:+ i' → n = n' ∧ i = i'.
Proof.
  intros Hi Hi' E. assert (i = i') as <-.
  { assert (last_char (n +:+ "_" +:+ i) = last_char (n' +:+ "_" +:+ i')) as El by (by rewrite E).
    unfold locations in *. rewrite !elem_of_cons, elem_of_nil in Hi, Hi'.
    destruct Hi as [->|[->|[->|[->|[]]]]]; destruct Hi' as [->|[->|[->|[->|[]]]]]; try done;
      change ("_" +:+ ?x) with (String "_" x) in El; by rewrite !last_char_app in El. }
  split; [|done]. apply (f_equal (λ s, trim_suffix s ("_" +:+ i))) in E. by rewrite !trim_suffix_app in E.
Qed.

Lemma parameter_key_own n i : i ∈ locations → existsb (String.eqb (n +:+ "_" +:+ i)) inherited = false.
Proof.
  intros Hi. apply not_true_iff_false. rewrite existsb_Exists, Exists_exists. intros (s & Hs & E%String.eqb_eq).
  assert (has_suffix s ("_" +:+ i) = true) as H by (rewrite <-E; apply has_suffix_app). clear E.
  assert (forallb (λ s, forallb (λ i, negb (has_suffix s ("_" +:+ i))) locations) inherited = true) as Hall by (vm_compute; reflexivity).
  rewrite forallb_Forall, Forall_forall in Hall. specialize (Hall s Hs). rewrite forallb_Forall, Forall_forall in Hall.
  specialize (Hall i Hi). by rewrite H in Hall.
Qed.

Section parameters.
Context (localeCompare : string → string → Z) (p : parser) (fuel : nat).

(** What a parameter resolves to says which one it is. *)
Definition describes (e : value) (name place : string) : Prop :=
  ∃ u o, deref fuel p e [] false = Resolved u o ∧ get u "name" = Some (Str name) ∧ get u "in" = Some (Str place) ∧
    place ∈ locations.

Lemma describes_key e name place : describes e name place → parameter_key p fuel e = Returned (name +:+ "_" +:+ place).
Proof. intros (u & o & H & Hn & Hp & _). unfold parameter_key, mbind, call_mbind. rewrite H. cbn. by rewrite Hn, Hp. Qed.

Lemma keys_of_elem l ks e name place : keys_of p fuel l = Returned ks → e ∈ l → describes e name place →
  name +:+ "_" +:+ place ∈ ks.
Proof.
  revert ks. induction l as [|x l IH]; intros ks; cbn [keys_of]; [by intros _ ?%elem_of_nil|].
  unfold mbind, call_mbind. destruct (parameter_key p fuel x) as [k| |] eqn:Ek; [|done..]. cbn.
  destruct (keys_of p fuel l) as [ks'| |]; [|done..]. cbn. intros [= <-] [->|He]%elem_of_cons Hd.
  - rewrite (describes_key _ _ _ Hd) in Ek. injection Ek as <-. left.
  - right. by apply IH.
Qed.

Lemma elem_keys_of l ks k : keys_of p fuel l = Returned ks → k ∈ ks → ∃ e, e ∈ l ∧ parameter_key p fuel e = Returned k.
Proof.
  revert ks. induction l as [|x l IH]; intros ks; cbn [keys_of]; [by intros [= <-] ?%elem_of_nil|].
  unfold mbind, call_mbind. destruct (parameter_key p fuel x) as [k'| |] eqn:Ek; [|done..]. cbn.
  destruct (keys_of p fuel l) as [ks'| |]; [|done..]. cbn. intros [= <-] [->|He]%elem_of_cons.
  - exists x. split; [left|done].
  - destruct (IH ks' eq_refl He) as (e & ? & ?). exists e. split; [by right|done].
Qed.

(** The merged parameters: all of the operation's, and those of the path for which the
    operation has no parameter of the same name and place. *)
Lemma merge_parameters_elem t n l :
  Forall (λ e, ∃ name place, describes e name place) (t ++ n) → merge_parameters p fuel t n = Returned l →
  (∃ l0, l = l0 ++ n ∧ sublist l0 t) ∧
  ∀ e, e ∈ l ↔ e ∈ n ∨ e ∈ t ∧ ∀ name place, describes e name place → ∀ e', e' ∈ n → ¬ describes e' name place.
Proof.
  intros [Ht Hn]%Forall_app. unfold merge_parameters, mbind, call_mbind.
  destruct (keys_of p fuel n) as [ks| |] eqn:Ek; [|done..]. cbn [call_bind].
  destruct (not_overridden p fuel ks t) as [l0| |] eqn:El; [|done..]. cbn. intros [= <-].
  assert (sublist l0 t ∧ ∀ e, e ∈ l0 ↔ e ∈ t ∧ ∀ name place, describes e name place → ∀ e', e' ∈ n → ¬ describes e' name place) as [Hsub Hl].
  2:{ split; [by exists l0|]. intros e. rewrite elem_of_app, Hl. tauto. }
  revert l0 El. induction Ht as [|e t (name & place & Hd) Ht IH]; intros l0; cbn [not_overridden].
  { intros [= <-]. split; [done|]. intros e. rewrite elem_of_nil. split; [done|by intros [? _]]. }
  unfold mbind, call_mbind. rewrite (describes_key _ _ _ Hd). cbn [call_bind].
  destruct (not_overridden p fuel ks t) as [rest| |]; [|done..]. cbn. intros [= <-].
  destruct (IH rest eq_refl) as [Hs Hr]. assert (place ∈ locations) as Hpl by (by destruct Hd as (? & ? & ? & ? & ? & ?)).
  rewrite existsb_app, (parameter_key_own name place Hpl), orb_false_r.
  destruct (existsb _ ks) eqn:Eks.
  - split; [by apply sublist_cons|]. intros e'. rewrite Hr, elem_of_cons. split; [naive_solver|].
    intros [[->|He] Ho]; [|done]. exfalso. rewrite existsb_Exists, Exists_exists in Eks.
    destruct Eks as (k & Hk & <-%String.eqb_eq). destruct (elem_keys_of _ _ _ Ek Hk) as (e' & He' & Hke).
    rewrite Forall_forall in Hn. destruct (Hn e' He') as (name' & place' & Hd').
    rewrite (describes_key _ _ _ Hd') in Hke. injection Hke as E.
    assert (place' ∈ locations) by (by destruct Hd' as (? & ? & ? & ? & ? & ?)).
    destruct (parameter_key_inj _ _ _ _ H Hpl E) as [-> ->]. by apply (Ho name place Hd e').
  - split; [by apply sublist_skip|]. intros e'. rewrite !elem_of_cons, Hr. split; [|naive_solver].
    intros [->|[He Ho]]; [|naive_solver]. split; [by left|]. intros name' place' Hd' e' He' Hde'.
    apply not_true_iff_false in Eks. apply Eks. rewrite existsb_Exists, Exists_exists.
    exists (name' +:+ "_" +:+ place'). split; [by eapply keys_of_elem|]. apply String.eqb_eq.
    pose proof (describes_key _ _ _ Hd) as E1. pose proof (describes_key _ _ _ Hd') as E2. rewrite E1 in E2. by injection E2.
Qed.

Lemma fields_of_sources l fields : fields_of p fuel l = Returned fields → map field_source fields = l.
Proof.
  revert fields. induction l as [|e l IH]; intros fields; cbn [fields_of]; [by intros [= <-]|].
  unfold field_of, mbind, call_mbind. destruct (of_resolution _) as [[u o]| |]; cbn [call_bind]; [|done..].
  destruct (get e "name"); cbn [of_option call_bind]; [|done].
  destruct (get u "name"); cbn [of_option call_bind]; [|done].
  destruct (get u "required"); cbn [of_option call_bind]; [|done].
  destruct (fields_of p fuel l) as [xs| |]; [|done..]. cbn. intros [= <-]. cbn. by rewrite (IH xs).
Qed.

(** Sorting keeps all fields; required fields that are listed come first, in the order of
    the list, then the other required fields and the rest in their own order. *)
Lemma gs_perm e l : Permutation (gs e l) e.
Proof.
  unfold gs. rewrite sort_by_perm.
  induction e as [|x e IH]; [done|]. rewrite !filter_cons.
  destruct (field_required x), (listed l x); repeat (case_decide; [try done|try done]); cbn [app andb negb]; try done.
  - by rewrite IH.
  - by rewrite <-Permutation_middle, IH.
  - rewrite app_assoc, <-Permutation_middle, <-app_assoc. by rewrite IH.
  - rewrite app_assoc, <-Permutation_middle, <-app_assoc. by rewrite IH.
Qed.

#[export] Instance by_index_order l : Comparison (by_index l).
Proof. split; unfold in_order, by_index; intros; lia. Qed.

Lemma gs_order e l : ∃ r, gs e l = r ++ filter (λ x, field_required x && negb (listed l x) = true) e ++ filter (λ x, field_required x = false) e ∧
  StronglySorted (in_order (by_index l)) r ∧
  Permutation r (filter (λ x, field_required x && listed l x = true) e).
Proof. eexists. split; [done|]. split; [apply sort_by_sorted, _|apply sort_by_perm]. Qed.

(** The parameters shown are those of the operation and those of its path that it does
    not override by one of the same name and place, each once, whatever the order; without
    alphabetical order required ones come first if that is wanted, and otherwise the order is
    kept, the path's first. *)
Theorem parameters_shown (sortProps requiredFirst : bool) (t n : list value) (fields : list field_info) :
  Forall (λ e, ∃ name place, describes e name place) (t ++ n) →
  parameters localeCompare p sortProps requiredFirst fuel t n = Returned fields →
  ∃ l0 l, sublist l0 t ∧ map field_source l = l0 ++ n ∧ Permutation fields l ∧
    (∀ e, e ∈ map field_source fields ↔
       e ∈ n ∨ e ∈ t ∧ ∀ name place, describes e name place → ∀ e', e' ∈ n → ¬ describes e' name place) ∧
    (sortProps = false → fields =
       if requiredFirst then filter (λ x, field_required x = true) l ++ filter (λ x, field_required x = false) l else l).
Proof.
  intros Hd. unfold parameters, mbind, call_mbind. destruct (merge_parameters p fuel t n) as [m| |] eqn:Em; [|done..]. cbn [call_bind].
  destruct (fields_of p fuel m) as [l| |] eqn:El; [|done..]. cbn [call_bind]. intros H.
  destruct (merge_parameters_elem t n m Hd Em) as [(l0 & -> & Hsub) Helem]. apply fields_of_sources in El.
  assert (Permutation fields l) as Hp.
  { destruct sortProps; [unfold ys in H; destruct (_ || _); [|done]|]; injection H as <-; [apply sort_by_perm|].
    destruct requiredFirst; [apply gs_perm|done]. }
  exists l0, l. split; [done|]. split; [done|]. split; [done|]. split.
  - intros e. rewrite (Permutation_map field_source Hp), El. apply Helem.
  - intros ->. injection H as <-. destruct requiredFirst; [|done]. unfold gs, listed. cbn [existsb].
    assert (filter (λ x, field_required x && false = true) l = []) as ->.
    { clear. induction l as [|x l IH]; [done|]. rewrite filter_cons, decide_False; [done|by rewrite andb_false_r]. }
    cbn [sort_by app]. f_equal. apply list_filter_iff. intros x. by rewrite andb_true_r.
Qed.
End parameters.

(** * Examples *)

(** A vendor extension among the responses passes for a success, so that the default response
    is shown as an error. *)
Example extension_passes_for_success :
  responses ["default"; "x-note"] = Some [("default", Error_)] ∧
  responses ["default"] = Some [("default", Success)].
Proof. vm_compute. done. Qed.

(** A code out of range throws, and the operation cannot be shown; so does 9XX. *)
Example invalid_code_throws : responses ["200"; "600"] = None ∧ responses ["9XX"] = None ∧
  responses ["2XX"; "404"] = Some [("2XX", Success); ("404", Error_)].
Proof. vm_compute. done. Qed.

Definition parameter (name place : string) (required : bool) : value :=
  Obj [("name", Str name); ("in", Str place); ("required", Bool required)].
Definition demo_path : list value := [parameter "id" "path" true; parameter "page" "query" false].
Definition demo_own : list value := [parameter "page" "query" true; parameter "id" "header" false].
Definition empty_parser : parser := Parser (Obj []) false [].

Lemma parameter_describes name place required : place ∈ locations →
  describes empty_parser 1 (parameter name place required) name place.
Proof. intros H. exists (parameter name place required), []. by split_and!. Qed.

(** * Witnesses *)

Lemma responses_meaning_witness :
  responses ["100"; "204"; "default"] = Some [("100", Info); ("204", Success); ("default", Error_)].
Proof. exact (responses_meaning [Some 100; Some 204; None] ltac:(repeat constructor; cbn; lia)). Defined.

Lemma parameters_shown_witness : ∃ fields,
  parameters (λ _ _, 0) empty_parser false true 1 demo_path demo_own = Returned fields ∧
  parameter "page" "query" false ∉ map field_source fields ∧
  map field_source fields = [parameter "id" "path" true; parameter "page" "query" true; parameter "id" "header" false].
Proof.
  destruct (parameters (λ _ _, 0) empty_parser false true 1 demo_path demo_own) as [fields| |] eqn:E;
    [|vm_compute in E; discriminate E..].
  exists fields. split; [reflexivity|].
  assert (Forall (λ e, ∃ name place, describes empty_parser 1 e name place) (demo_path ++ demo_own)) as Hd.
  { repeat constructor; eexists _, _; apply parameter_describes; vm_decide. }
  destruct (parameters_shown (λ _ _, 0) empty_parser 1 false true demo_path demo_own fields Hd E)
    as (l0 & l & _ & _ & _ & He & _).
  split; [|vm_compute in E; injection E as <-; reflexivity].
  intros [H|[_ H]]%He; [unfold demo_own in H; rewrite !elem_of_cons, elem_of_nil in H; by destruct H as [H|[H|[]]]|].
  apply (H "page" "query") with (e' := parameter "page" "query" true);
    [apply parameter_describes; vm_decide|left|apply parameter_describes; vm_decide].
Defined.
