(* ===== verification/RedocDefaults.v ===== *)
(** Redoc with its default theme: the theme that the defaults resolve to, and that it has
    every object whose properties the style sheets read, so that no sheet throws while a component is
    rendered, whatever the component's own properties. *)
From S2P Require Import Prelude GoStrings.
From S2P Require Import Float64 JsNumber JsValue StyledComponents StyledLaws RedocColor RedocTheme.
From S2P Require Import RedocPanels RedocTables RedocCode RedocFields RedocMenu RedocOperations RedocPage RedocSheets.

#[export] Instance default_pow : MathPow := pow_24.

(** The defaults, merged with no theme of the page and resolved. *)
Definition default_theme : value := Eval vm_compute in default Undef (resolveTheme (merged [])).

Lemma default_theme_resolved : resolveTheme (merged []) = Some default_theme.
Proof. vm_compute. reflexivity. Qed.

(** * Evaluation that does not throw *)

Definition def_expr (e : expr) : Prop := ∃ v, e = Some v.
Definition def_rule (c : ctx) (r : rule) : Prop := ∃ t, text c r = Some t.
Definition def_orule (c : ctx) (o : option rule) : Prop := ∃ r, o = Some r ∧ def_rule c r.

Lemma def_Some v : def_expr (Some v).
Proof. by exists v. Qed.
Lemma def_bind (e : expr) (k : value → expr) : def_expr e → (∀ v, def_expr (k v)) → def_expr (e ≫= k).
Proof. intros [v ->] H. apply H. Qed.
Lemma def_ite c a b : def_expr c → def_expr a → def_expr b → def_expr (ite c a b).
Proof. intros ? ? ?. apply def_bind; [done|]. intros v. by case_match. Qed.
Lemma def_and a b : def_expr a → def_expr b → def_expr (and_ a b).
Proof. intros ? ?. apply def_bind; [done|]. intros v. case_match; [done|apply def_Some]. Qed.
Lemma def_or a b : def_expr a → def_expr b → def_expr (or_ a b).
Proof. intros ? ?. apply def_bind; [done|]. intros v. case_match; [apply def_Some|done]. Qed.
Lemma def_or_undefined a b : def_expr a → def_expr b → def_expr (or_undefined a b).
Proof. intros ? ?. apply def_bind; [done|]. intros v. case_match; [done|apply def_Some]. Qed.
Lemma def_not a : def_expr a → def_expr (not_ a).
Proof. intros ?. apply def_bind; [done|]. intros v. apply def_Some. Qed.
Lemma def_two (f : value → value → expr) a b :
  (∀ v w, def_expr (f v w)) → def_expr a → def_expr b → def_expr (v ← a; w ← b; f v w).
Proof. intros Hf ? ?. apply def_bind; [done|]. intros v. by apply def_bind. Qed.
Lemma def_mul a b : def_expr a → def_expr b → def_expr (mul a b).
Proof. apply def_two. intros. apply def_Some. Qed.
Lemma def_div a b : def_expr a → def_expr b → def_expr (div a b).
Proof. apply def_two. intros. apply def_Some. Qed.
Lemma def_add a b : def_expr a → def_expr b → def_expr (add a b).
Proof. apply def_two. intros. apply def_Some. Qed.
Lemma def_eq a b : def_expr a → def_expr b → def_expr (eq_ a b).
Proof. apply def_two. intros. apply def_Some. Qed.
Lemma def_gt a b : def_expr a → def_expr b → def_expr (gt_ a b).
Proof. apply def_two. intros. apply def_two; intros; apply def_Some. Qed.
Lemma def_includes l e : def_expr e → def_expr (includes l e).
Proof. intros ?. apply def_bind; [done|]. intros v. apply def_Some. Qed.
Lemma def_template s l : Forall (λ h, def_expr h.1) l → def_expr (template s l).
Proof.
  intros H. revert s. induction H as [|[e t] l [v Hv] _ IH]; intros s; [apply def_Some|].
  cbn in *. subst e. destruct (IH t) as [w Hw]. cbn. rewrite Hw. apply def_Some.
Qed.
Lemma get_object v k : is_nullish v = false → def_expr (get v k).
Proof. destruct v; try done; intros _; apply def_Some. Qed.
Lemma def_index_of v k : is_nullish v = false → def_expr k → def_expr (index (Some v) k).
Proof. intros ? ?. cbn. apply def_bind; [done|]. intros i. by apply get_object. Qed.
(** A property that is read after a test that it is there. *)
Lemma def_guarded x b k : def_expr x → def_expr b → def_expr (and_ (and_ x b) (member b k)).
Proof.
  intros [v ->] [w ->]. cbn. destruct (truthy v) eqn:Hv; cbn.
  - destruct (truthy w) eqn:Hw; [|apply def_Some]. apply get_object. by destruct w.
  - rewrite Hv. apply def_Some.
Qed.
Lemma def_Ku e : def_expr e → def_expr (Ku e).
Proof. intros ?. apply def_bind; [done|]. intros v. apply def_Some. Qed.

Section rendering.
Context `{ids : ComponentIds}.
Context (r : list (string * value)) (Htheme : field "theme" r = Some default_theme).
Let c : ctx := Ctx (Obj r) None.

Lemma theme_read : member (Some (Obj r)) "theme" = Some default_theme.
Proof. cbn. by rewrite Htheme. Qed.
Lemma def_prop k : def_expr (member (Some (Obj r)) k).
Proof. apply def_Some. Qed.
Lemma def_yy e n :
  def_expr e → n ∈ ["activeTextColor"; "activeBackgroundColor"] → def_expr (yy e (Some (Obj r)) n).
Proof.
  intros He Hn. unfold yy. rewrite theme_read. cbn [mbind option_bind]. cbv zeta.
  rewrite !elem_of_cons, elem_of_nil in Hn.
  apply def_ite; [by apply def_gt; [done|apply def_Some]| |
    apply def_ite; [by apply def_eq; [apply def_Some|]| |apply def_Some]];
    destruct_or? Hn; subst; try done; eexists; vm_compute; reflexivity.
Qed.

Lemma def_dyn f : def_expr (f (Obj r)) → def_rule c (dyn f).
Proof. intros [v Hv]. exists (joined (Wo_data v)). cbn. by rewrite Hv. Qed.
Lemma def_dynr f : def_orule c (f (Obj r)) → def_rule c (dynr f).
Proof. intros (x & Hx & t & Ht). exists t. cbn. by rewrite Hx. Qed.
Lemma def_V v : def_rule c (V v).
Proof. by eexists. Qed.
Lemma def_sel C : def_rule c (sel C).
Proof. by eexists. Qed.
Lemma def_wa e : def_rule c (wa e).
Proof. eexists. cbn. rewrite Htheme. reflexivity. Qed.
Lemma def_css s l : Forall (λ h, def_rule c h.1) l → def_rule c (css s l).
Proof.
  intros H. assert (∃ u, text_holes c l = Some u) as [u Hu].
  { induction H as [|[h t] l [x Hx] _ [u Hu]]; [by eexists|]. cbn in *. rewrite Hx, Hu. by eexists. }
  exists (s +:+ u). by rewrite text_css, Hu.
Qed.
Lemma def_lessThan e t n s l :
  def_expr (index (Some default_theme ~> "breakpoints")%js (lit e)) → def_rule c (css s l) →
  def_rule c (va_lessThan e t n s l).
Proof.
  intros He Hs. unfold va_lessThan. apply def_css.
  repeat (apply List.Forall_cons; [cbn [fst]|]); [apply def_V| |apply def_V|done|apply List.Forall_nil].
  apply def_dyn. cbv zeta. by rewrite theme_read.
Qed.
Lemma def_data e : def_expr e → def_orule c (data e).
Proof. intros [v ->]. eexists. split; [done|]. apply def_V. Qed.
Lemma def_ret x : def_rule c x → def_orule c (ret x).
Proof. intros ?. by eexists. Qed.
Lemma def_oite e a b : def_expr e → def_orule c a → def_orule c b → def_orule c (ite e a b).
Proof. intros [v ->] ? ?. cbn. by case_match. Qed.
Lemma def_andr e o : def_expr e → def_orule c o → def_orule c (andr e o).
Proof. intros [v ->] ?. cbn. case_match; [done|]. eexists. split; [done|]. apply def_V. Qed.
Lemma def_orule_bind (e : expr) (k : value → option rule) :
  def_expr e → (∀ v, def_orule c (k v)) → def_orule c (e ≫= k).
Proof. intros [v ->] H. apply H. Qed.
(** A closed expression is evaluated; one over the properties is taken apart. *)
Ltac def_step :=
  rewrite ?theme_read;
  match goal with
  | |- def_expr (member (Some (Obj r)) _) => apply def_prop
  | |- def_expr (member (index _ (member (Some (Obj r)) _)) _) => fail 1
  | |- def_expr (member _ _) => eexists; vm_compute; reflexivity
  | |- def_expr (Ur _ _) => eexists; vm_compute; reflexivity
  | |- def_expr (Hr _ _) => eexists; vm_compute; reflexivity
  | |- def_expr (Kr _ _) => eexists; vm_compute; reflexivity
  | |- def_expr (gt_ (Vr _) _) => eexists; vm_compute; reflexivity
  | |- def_expr (endsWith _ _) => eexists; vm_compute; reflexivity
  | |- def_expr (parse_int _) => eexists; vm_compute; reflexivity
  | |- def_expr (div _ _) => apply def_div
  | |- def_expr (lit _) => apply def_Some
  | |- def_expr (num _) => apply def_Some
  | |- def_expr (Some ?v ≫= ?k) => change (def_expr (k v)); cbv beta zeta
  | |- def_expr (Some _) => apply def_Some
  | |- def_expr (and_ (and_ _ ?b) (member ?b _)) => apply def_guarded
  | |- def_expr (ite _ _ _) => apply def_ite
  | |- def_expr (and_ _ _) => apply def_and
  | |- def_expr (or_ _ _) => apply def_or
  | |- def_expr (not_ _) => apply def_not
  | |- def_expr (or_undefined _ _) => apply def_or_undefined
  | |- def_expr (mul _ _) => apply def_mul
  | |- def_expr (add _ _) => apply def_add
  | |- def_expr (eq_ _ _) => apply def_eq
  | |- def_expr (gt_ _ _) => apply def_gt
  | |- def_expr (includes _ _) => apply def_includes
  | |- def_expr (Ku _) => apply def_Ku
  | |- def_expr (yy _ _ _) => apply def_yy; [|set_solver]
  | |- def_expr (template _ _) => apply def_template; repeat (apply List.Forall_cons; [cbn [fst]|]); [..|apply List.Forall_nil]
  | |- def_expr (index ?e _) =>
      let v := eval vm_compute in e in change e with v; apply def_index_of; [reflexivity|]
  | |- def_expr (_ ≫= _) => apply def_bind; [|intros ?; cbv zeta]
  | |- def_orule _ (ret _) => apply def_ret
  | |- def_orule _ (ite _ _ _) => apply def_oite
  | |- def_orule _ (andr _ _) => apply def_andr
  | |- def_orule _ (data _) => apply def_data
  | |- def_orule _ (xy _) => unfold xy
  | |- def_orule _ (Some ?v ≫= ?k) => change (def_orule c (k v)); cbv beta zeta
  | |- def_orule _ (_ ≫= _) => apply def_orule_bind; [|intros ?; cbv zeta]
  | |- def_orule _ (Some _) => apply def_ret
  | |- def_rule _ (dyn _) => apply def_dyn; cbv zeta
  | |- def_rule _ (dynr _) => apply def_dynr; cbv zeta
  | |- def_rule _ (V _) => apply def_V
  | |- def_rule _ (sel _) => apply def_sel
  | |- def_rule _ (wa _) => apply def_wa
  | |- def_rule _ Oa => by eexists
  | |- def_rule _ (css _ _) => apply def_css; repeat (apply List.Forall_cons; [cbn [fst]|]); [..|apply List.Forall_nil]
  | |- def_rule _ (va_lessThan _ _ _ _ _) => apply def_lessThan; [eexists; vm_compute; reflexivity|]
  | |- def_rule _ (if _ then _ else _) => case_match
  | |- def_rule _ (Mu _) => unfold Mu
  | |- def_rule _ (Gu _) => unfold Gu
  | |- def_rule _ ep => unfold ep
  | |- def_rule _ Rf => unfold Rf
  | |- def_rule _ lh => unfold lh
  | |- def_rule _ xy_0 => unfold xy_0
  | |- def_rule _ xy_1 => unfold xy_1
  end.

Definition def_style (cs : ComponentStyle) : Prop := ∃ L, generate cs c = Some L.

Lemma def_styled name tag a s l : def_rule c (css s l) → def_style (componentStyle (styled_attrs name tag a (css s l))).
Proof. intros [t Ht]. unfold def_style. cbn [componentStyle styled_attrs]. rewrite generate_css, Ht. by eexists. Qed.
Lemma def_extend name base a s l :
  def_style (componentStyle base) → def_rule c (css s l) →
  def_style (componentStyle (extend_attrs name base a (css s l))).
Proof.
  intros [L HL] [t Ht]. unfold def_style. cbn [componentStyle extend_attrs]. rewrite generate_css, HL, Ht. by eexists.
Qed.

Ltac head t := match t with ?f _ => head f | _ => t end.
Ltac def_component :=
  match goal with |- def_style (componentStyle ?C) => let h := head C in unfold h; try unfold styled; try unfold extend end;
  match goal with
  | |- def_style (componentStyle (styled_attrs _ _ _ _)) => apply def_styled; repeat def_step
  | |- def_style (componentStyle (extend_attrs _ _ _ _)) => apply def_extend; [def_component|repeat def_step]
  end.

(** The components that take a key of the theme from their properties. *)
Lemma def_sound : Forall (λ C, def_style (componentStyle C) ∨ C = Ju ∨ C = eb) sound_components.
Proof.
  unfold sound_components.
  repeat (apply List.Forall_cons; [
    lazymatch goal with
    | |- _ ∨ Ju = _ ∨ _ => by right; left
    | |- _ ∨ _ ∨ eb = _ => by right; right
    | |- _ => left; def_component
    end|]).
  apply List.Forall_nil.
Qed.

Lemma def_faulty : Forall (λ C, def_style (componentStyle C)) faulty_components.
Proof. unfold faulty_components. repeat (apply List.Forall_cons; [def_component|]). apply List.Forall_nil. Qed.

(** A badge and a response button, whose colours are chosen by their type. *)
Lemma type_read k : field "type" r = Some (Str k) → member (Some (Obj r)) "type" = lit k.
Proof. intros H. cbn. by rewrite H. Qed.

Lemma def_Ju k :
  field "type" r = Some (Str k) → k ∈ ["primary"; "success"; "warning"; "error"] → def_style (componentStyle Ju).
Proof.
  intros Hk%type_read Hin. apply def_styled. repeat def_step.
  all: rewrite theme_read, Hk; rewrite !elem_of_cons, elem_of_nil in Hin; destruct_or? Hin; subst; try done;
    eexists; vm_compute; reflexivity.
Qed.

Lemma def_eb k :
  field "type" r = Some (Str k) → k ∈ ["success"; "error"; "redirect"; "info"] → def_style (componentStyle eb).
Proof.
  intros Hk%type_read Hin. apply def_styled. repeat def_step.
  all: try (rewrite ?theme_read, Hk; rewrite !elem_of_cons, elem_of_nil in Hin; destruct_or? Hin; subst; try done;
    eexists; vm_compute; reflexivity).
Qed.
End rendering.
