(* ===== verification/RedocCorrect.v ===== *)
(** The properties of the Redoc bundle: its style sheets, its theme, its colours and its
    JSON viewer. *)
From S2P Require Import Prelude GoStrings.
From S2P Require Import Float64 JsNumber JsValue StyledComponents StyledLaws RedocColor.
From S2P Require Import RedocTheme RedocThemeLaws CssBalance RedocJson.
From S2P Require Import RedocPanels RedocTables RedocCode RedocFields RedocMenu RedocOperations RedocPage.
From S2P Require Import RedocSheets RedocDefaults.
Local Open Scope Z_scope.

(** * The JSON viewer *)

(** [C2] Whatever the value, its texts and names included, the markup of the JSON viewer
    consists of the viewer's own tags, which nest, and the text a reader sees is the
    value: no text of the data becomes markup. *)
Theorem viewer_shows_value (v : value) (t : float64) : visible (nh v t) = Some (json_text v).
Proof.
  destruct (sh_shows v t 1) as [Hs _].
  assert (opens ("<div class=" +:+ dq +:+ "redoc-json" +:+ dq +:+ ">" +:+ "<code>") ["code"; "div"]) as Ho by (by intros ? ?).
  assert (closes ("</code>" +:+ "</div>") ["code"; "div"]) as Hc by (by intros ? ?).
  pose proof (shows_wrap _ _ _ _ _ Ho Hc Hs [] "") as H. unfold visible, nh.
  rewrite !string_app_assoc, !string_app_nil_r in *. rewrite H. cbn. by rewrite string_app_nil_r.
Qed.

(** * Styles *)

(** Every level of a style is a template literal. *)
Fixpoint templates (cs : ComponentStyle) : Prop :=
  match cs with
  | CStyle _ base rules =>
      (∃ s l, rules = css s l) ∧ match base with Some b => templates b | None => True end
  end.

(** The texts of the levels of a style, each by recursion on its interpolations. *)
Fixpoint style_texts (cs : ComponentStyle) (c : ctx) : option (list (string * string)) :=
  match cs with
  | CStyle id base rules =>
      before ← (match base with Some b => style_texts b c | None => Some [] end);
      t ← text c rules;
      Some (before ++ [(id, t)])
  end.

(** [C16] What a component adds to the page is the text of its templates, those of the
    component it extends first: flattening in two steps, one when the bundle is loaded
    and one when the component is rendered, and the two paths, for static and for dynamic
    styles, all compute it. *)
Theorem style_text (cs : ComponentStyle) (c : ctx) (Ht : templates cs) : generate cs c = style_texts cs c.
Proof.
  induction cs as [id base rules IH] using ComponentStyle_nested_ind.
  destruct Ht as [(s & l & ->) Hb]. rewrite generate_css. cbn [style_texts].
  destruct base as [b|]; [by rewrite (IH b eq_refl Hb)|done].
Qed.

(** The names of the classes of a component and of generated identifiers are identifiers
    of CSS, and none reads "ad", whatever the text they hash. *)
Theorem class_names_identifiers (cs : ComponentStyle) (c : ctx) (L : list string) :
  class_names cs c = Some L → Forall (λ n, identifier n = true ∧ no_ad n = true) L.
Proof.
  intros H. eapply Forall_impl; [by eapply class_names_ko|]. intros n [e ->]. apply ko_identifier.
Qed.

(** Identifiers of components are numbered in some order of creation. *)
Definition numbered (order : string → Z) : ComponentIds := λ n, generated_id (order n).

Lemma identifier_no_braces s : identifier s = true → no_braces s = true.
Proof.
  destruct s as [|a s]; [done|]. cbn. intros [Ha Hs]%andb_true_iff.
  assert (∀ b, is_letter b || Ascii.eqb b "-" = true → not_brace b = true) as H.
  { intros b. by destruct b as [[] [] [] [] [] [] [] []]. }
  rewrite (H a) by (by rewrite Ha). cbn. clear Ha. induction s as [|b s IH]; [done|].
  cbn in *. apply andb_true_iff in Hs as [Hb Hs]. rewrite (H b) by done. by apply IH.
Qed.

Lemma numbered_clean order n : no_braces (@component_id (numbered order) n) = true.
Proof.
  unfold component_id, numbered, generated_id. rewrite no_braces_app. cbn [andb].
  apply identifier_no_braces, ko_identifier.
Qed.

(** [C7] The style sheets of the components of Redoc, all but five, have balanced braces in
    every text they add to the page, whatever the theme, the properties of the component
    and the answers of the page's hook, as long as those have no braces of their own. *)
Theorem sheets_balanced (order : string → Z) (P : MathPow) (c : ctx) (C : Styled) L :
  clean_ctx c → C ∈ @sound_components (numbered order) P → generate (componentStyle C) c = Some L →
  Forall (λ p, balanced p.2 = true) L.
Proof.
  intros Hc HC HL. eapply generate_balanced; [|done].
  pose proof (@sound_balanced (numbered order) P (numbered_clean order) c Hc) as H.
  rewrite Forall_forall in H. by apply H.
Qed.

(** Five components close a block that is not open in every text they add, so that the
    rule after it is lost or misplaced. *)
Theorem faulty_sheets (order : string → Z) (c : ctx) (C : Styled) L :
  clean_ctx c → C ∈ @faulty_components (numbered order) → generate (componentStyle C) c = Some L →
  ∃ p, p ∈ L ∧ balanced p.2 = false.
Proof.
  intros Hc HC HL. assert (bad_style c (componentStyle C)) as H; [|by apply H].
  pose proof (numbered_clean order) as Hids. unfold faulty_components in HC.
  rewrite !elem_of_cons, elem_of_nil in HC.
  destruct HC as [->|[->|[->|[->|[->|[]]]]]];
    [by apply bad_up|by apply bad_pm|apply bad_extended; by apply bad_pm|by apply bad_fm|by apply bad_Vv].
Qed.

(** * Colours *)

(** An opaque colour written in hexadecimal, in the short form where it has one, reads
    back as itself. *)
Theorem hex_roundtrip (r g b : Z) :
  byte r → byte g → byte b → Sr (Str (Pr r g b)) = Some (Rgb r g b None).
Proof. apply parse_Pr. Qed.

(** Making an opaque colour more transparent by [k] hundredths gives the colour with
    exactly the other [100 - k] hundredths of alpha: no rounding of the arithmetic shows. *)
Theorem transparentize_percent (r g b k : Z) :
  byte r → byte g → byte b → 1 ≤ k ≤ 100 →
  Kr (Some (Num (dec k 2))) (lit (Pr r g b)) =
  lit ("rgba(" +:+ show_int r +:+ "," +:+ show_int g +:+ "," +:+ show_int b +:+ "," +:+
       number_to_string (dec (100 - k) 2) +:+ ")").
Proof.
  intros Hr Hg Hb Hk. unfold Kr, lit. cbn [mbind option_bind].
  assert (is_transparent (Str (Pr r g b)) = false) as ->.
  { destruct (is_transparent (Str (Pr r g b))) eqn:E; [|done]. apply String.eqb_eq in E.
    pose proof (parse_Pr r g b Hr Hg Hb) as H. by rewrite E in H. }
  unfold Sr. rewrite parse_Pr by done. cbn [mbind option_bind rgb_alpha default].
  destruct (alpha_after_spec k Hk) as [Hs H1]. unfold Tr. fold (alpha_after k).
  by rewrite H1, Hs.
Qed.

(** * The theme *)

(** The evaluation of any theme, circular ones included, ends within the bound on the
    number of evaluations: it never needs to nest deeper. *)
Theorem theme_resolution_ends (t : theme) : resolve t resolve_fuel t [] (Memo ∅ 0) ≠ NoFuel.
Proof.
  pose proof (resolve_ends t resolve_fuel t [] (Memo ∅ 0)) as H.
  specialize (H ltac:(vm_compute; reflexivity) ltac:(unfold resolve_fuel; lia)).
  by destruct (resolve _ _ _ _ _).
Qed.

(** [C34] The values of the resolved theme are those its functions have when each is evaluated
    anew at every read, and no others: recording values as they are first read changes
    nothing. *)
Theorem theme_resolution_meaning (t : theme) (v : value) :
  well_named t = true → (∀ f, t ≠ Fun f) → resolveTheme t = Some v →
  resolved t t (Some v) ∧ ∀ o, resolved t t o → o = Some v.
Proof.
  intros Hn Ho H. unfold resolveTheme in H. destruct (getters_set t); [cbn [negb] in H|done].
  destruct (resolve t resolve_fuel t [] (Memo ∅ 0)) as [[w|] m| |] eqn:E; simplify_eq.
  assert (resolved t t (Some v)) as Hv.
  { assert (memo_ok t (Memo ∅ 0)) as Hm by (intros key u Hu; cbn in Hu; by rewrite lookup_empty in Hu).
    by destruct (resolve_sound t Hn Ho _ t [] _ _ _ eq_refl Hm E). }
  split; [done|]. intros o Hd. by eapply (proj1 (resolved_det t)).
Qed.


(** * Concrete inputs *)

Definition demo_order : string → Z := λ s, Z.of_nat (String.length s).
#[local] Instance demo_ids : ComponentIds := numbered demo_order.
Definition demo_props : list (string * value) := [("theme", default_theme); ("type", Str "success")].
Definition demo_ctx : ctx := Ctx (Obj demo_props) None.

Lemma demo_clean : clean_ctx demo_ctx.
Proof. split; [vm_compute; reflexivity|exact I]. Qed.

(** The cell of a property name with the default theme: the sheet of the cell it
    extends, then its own. *)
Example panel_header_css :
  generate (componentStyle Bu) demo_ctx =
  Some [(component_id "Bu", "
  color: #ffffff;

  ;
")].
Proof. vm_compute. reflexivity. Qed.

Example media_css :
  text demo_ctx (va_lessThan "small" (Bool true) Undef "a { b: c }" []) = Some "
      @media print,  screen and (max-width: 50rem)  {
        a { b: c };
      }
    ".
Proof. vm_compute. reflexivity. Qed.

(** A circular theme is refused after a thousand evaluations. *)
Example circular_theme_refused :
  resolveTheme (Node [("a", alias "b"); ("b", alias "a")]) = None.
Proof. vm_compute. reflexivity. Qed.

(** A null in the page's theme makes the resolution throw. *)
Example null_theme_refused :
  resolveTheme (merged [("colors", Node [("primary", Node [("main", Leaf Null)])])]) = None.
Proof. vm_compute. reflexivity. Qed.

(** The page's theme overrides the defaults before the functions run. *)
Example overridden_theme :
  (t ← resolveTheme (merged [("colors", Node [("primary", Node [("main", str "#fff")])])]);
   get_path t ["typography"; "links"; "color"]) = Some (Str "#fff").
Proof. vm_compute. reflexivity. Qed.

Example script_is_text :
  visible (nh (Obj [("</span><script>", Str "<img src=x onerror=alert(1)>")]) (f64_of_int 2)) =
  Some (json_text (Obj [("</span><script>", Str "<img src=x onerror=alert(1)>")])).
Proof. vm_compute. reflexivity. Qed.

Lemma style_text_witness :
  templates (componentStyle ip) ∧ generate (componentStyle ip) demo_ctx = style_texts (componentStyle ip) demo_ctx.
Proof.
  assert (templates (componentStyle ip)) as H by (split; [by eexists _, _|split; [by eexists _, _|exact I]]).
  split; [exact H|]. apply (style_text (componentStyle ip) demo_ctx H).
Defined.

Lemma class_names_identifiers_witness :
  ∃ L, class_names (componentStyle ip) demo_ctx = Some L ∧ Forall (λ n, identifier n = true ∧ no_ad n = true) L.
Proof.
  eexists. split; [vm_compute; reflexivity|].
  apply (class_names_identifiers (componentStyle ip) demo_ctx). vm_compute. reflexivity.
Defined.

Lemma sheets_balanced_witness :
  ∃ L, generate (componentStyle Bu) demo_ctx = Some L ∧ Forall (λ p, balanced p.2 = true) L.
Proof.
  eexists. split; [vm_compute; reflexivity|].
  apply (sheets_balanced demo_order default_pow demo_ctx Bu); [exact demo_clean| |vm_compute; reflexivity].
  unfold sound_components. do 11 apply list_elem_of_further. apply list_elem_of_here.
Defined.

Lemma faulty_sheets_witness :
  ∃ L p, generate (componentStyle up) demo_ctx = Some L ∧ p ∈ L ∧ balanced p.2 = false.
Proof.
  destruct (generate (componentStyle up) demo_ctx) as [L|] eqn:E; [|vm_compute in E; discriminate E].
  destruct (faulty_sheets demo_order demo_ctx up L demo_clean (list_elem_of_here _ _) E) as (p & Hp & Hb).
  exists L, p. split; [reflexivity|]. split; [exact Hp|exact Hb].
Defined.

Lemma hex_roundtrip_witness :
  (byte 51 ∧ byte 0 ∧ byte 255) ∧ Sr (Str (Pr 51 0 255)) = Some (Rgb 51 0 255 None).
Proof. split; [unfold byte; lia|]. apply (hex_roundtrip 51 0 255); unfold byte; lia. Defined.

Lemma transparentize_percent_witness :
  Kr (Some (Num (dec 93 2))) (lit (Pr 29 129 39)) = lit "rgba(29,129,39,0.07)".
Proof.
  etransitivity; [apply (transparentize_percent 29 129 39 93); unfold byte; lia|]. vm_compute. reflexivity.
Defined.

Lemma theme_resolution_meaning_witness :
  resolveTheme (merged []) = Some default_theme ∧ resolved (merged []) (merged []) (Some default_theme).
Proof.
  split; [exact default_theme_resolved|].
  apply (theme_resolution_meaning (merged []) default_theme);
    [vm_compute; reflexivity|discriminate|exact default_theme_resolved].
Defined.

